(* ===== verification/_CoqProject ===== *)
-Q . S2P
Prelude.v
Script.v
Crypto.v
Standard.v
Hasher.v
Sha256.v
Sha256Spec.v
Sha1.v
Sha1Spec.v
Ripemd160.v
Ripemd160Spec.v
Sha512.v
Sha512Spec.v
Hashes.v
Interpreter.v
InterpreterSafety.v
InterpreterSpec.v
Multisig.v
InterpreterFlags.v
ArithUint256.v
ArithCompact.v
Serialize.v
Transaction.v
Compressor.v
Coin.v
Coins.v
CoinsSpec.v
Block.v
Chain.v
ChainSpec.v
Subsidy.v
Pow.v
PowSpec.v
PosKernel.v
PosKernelSpec.v
Asmap.v
NetAddress.v
Masternodes.v
MasternodesSpec.v
MasternodesDiff.v
ProviderTx.v
MasternodeManager.v
MasternodeManagerSpec.v
MasternodeSchedule.v
MasternodePayments.v
Merkle.v
VersionBits.v
VersionBitsSpec.v
TxVerify.v
TxVerifySpec.v
SigHash.v
MerkleBlock.v
MerkleBlockSpec.v
SimplifiedMNs.v
SpecialTx.v
Connect.v
ConnectSpec.v
