(* ===== verification/Prelude.v ===== *)
(** * Verification of the consensus core of PirateCash

    PirateCash is a node of a block chain with proof of work and proof of stake, derived from Bitcoin Core
    and Dash (C++, under src/src).  This library models the code that decides which blocks and
    transactions are valid, and the state that follows from them, as executable functions, and proves
    what that code promises.

    ** The program and the files

    A block arrives as bytes, is parsed, its header is checked against the index of known headers (proof of
    work or of stake, target, version bits), its transactions are checked with their scripts against the
    set of unspent outputs, and that set is moved to the new block and flushed to a database.  The special
    transactions of the block change the list of masternodes, which says whom the next block has to pay;
    a coinbase commits to that list for light clients.

    - Prelude.v: machine integers at their width, little-endian access, the result type [res] (a value, an
      error the code reports, or [Abort] where the process would stop or the behaviour is undefined), its
      binds, and the tactics of the development.
    - Script.v, Standard.v (script/script.h, script.cpp, standard.cpp): opcodes, CScriptNum, building and
      reading scripts, the standard scripts and destinations.
    - Crypto.v (hash.h, pubkey.h): the interface [CryptoOps] of the digests and the curve with its laws, and
      public keys as byte strings.
    - Hasher.v, Sha256.v, Sha1.v, Ripemd160.v, Sha512.v (crypto/*.cpp), each with a file ...Spec.v: the hash
      classes, their unrolled transformations and the published algorithms.  Hashes.v: HMAC, HKDF and
      the hashers of hash.h on the interface [StreamHash]; [core_crypto] is the instance of [CryptoOps]
      with these digests.
    - Interpreter.v (script/interpreter.cpp, interpreter.h): EvalScript and VerifyScript with every opcode.
      InterpreterSafety.v, InterpreterSpec.v, Multisig.v, InterpreterFlags.v: its theorems.
      SigHash.v (same source): signature hashes and the checker of signatures and locks that the interpreter
      calls.
    - ArithUint256.v, ArithCompact.v (arith_uint256.h, .cpp): 256-bit arithmetic on 32-bit limbs, compact
      targets.
    - Serialize.v (serialize.h): the byte formats, with the contracts [Codec] and [Canonical] between a
      writer and its reader; Transaction.v (primitives/transaction.h), Compressor.v (compressor.h, .cpp),
      Coin.v (coins.h, undo.h) and Block.v (primitives/block.h) are built on them.
    - Coins.v, CoinsSpec.v (coins.h, coins.cpp, txdb.cpp): the unspent outputs in layers of caches over the
      database.
    - Chain.v, ChainSpec.v (chain.h, chain.cpp, AddToBlockIndex of validation.cpp): the index of headers as a
      heap, the skip list, the active chain.
    - Subsidy.v (validation.cpp): block rewards.  Pow.v, PowSpec.v (pow.cpp): retargeting and proof of work.
      PosKernel.v, PosKernelSpec.v (pos_kernel.cpp, CheckProof of validation.cpp): proof of stake.
    - Merkle.v (consensus/merkle.cpp), MerkleBlock.v, MerkleBlockSpec.v (merkleblock.cpp): Merkle roots and
      partial trees.
    - VersionBits.v, VersionBitsSpec.v (versionbits.cpp): deployments.
    - TxVerify.v, TxVerifySpec.v (consensus/tx_check.cpp, tx_verify.cpp): checks of transactions.
    - Connect.v, ConnectSpec.v (validation.cpp): connecting and disconnecting a block.
    - Asmap.v (util/asmap.cpp), NetAddress.v (netaddress.h, .cpp): the map from addresses to autonomous systems,
      network addresses, services and subnets.
    - Masternodes.v, MasternodesSpec.v, MasternodesDiff.v (evo/dmnstate.h, evo/deterministicmns.h, .cpp): lists of
      masternodes with their indexes, and differences of lists.  ProviderTx.v (evo/providertx.h, .cpp,
      llmq/commitment.h): the payloads of special transactions and their checks, on the interface [BLSOps]
      of BLS keys.  MasternodeManager.v, MasternodeManagerSpec.v (evo/deterministicmns.cpp,
      llmq/commitment.cpp): what a block makes of a list, and the store of lists.  MasternodeSchedule.v: the
      order of the payees.  MasternodePayments.v (masternode/payments.cpp, governance/classes.cpp): what a
      coinbase has to pay.
    - SimplifiedMNs.v (evo/simplifiedmns.h, .cpp): the lists of light clients.  SpecialTx.v (evo/specialtxman.cpp,
      evo/cbtx.cpp, evo/mnhftx.cpp): all special transactions of a block, and the commitment of its coinbase.

    Functions keep the names of the source.  State that the code mutates is passed explicitly; pointers
    between index entries are positions in the heap, and a null or dangling one gives [Abort].

    ** What the theorems show

    - Scripts: no script stops the process or runs on for ever, the limits on the stack are an invariant,
      every flag but one is a soft fork, the standard spends are accepted exactly when the signature and
      the hash match, OP_CHECKMULTISIG finds an order-preserving matching, the Solver returns what its
      callers rely on.  A signature hash is that of the modified copy its type stands for and with
      SIGHASH_ALL commits to all of the transaction but the input scripts and, for versions 1 and 2, the
      time; the two lock-time opcodes enforce the locks they name.
    - Coins: the caches implement a finite map whatever is cached, flushed or evicted, and a crash during a
      flush is recovered; a transaction that is connected, unless it is a coinstake, conserves value;
      disconnecting a block gives back the coins; the subsidies of all blocks stay within MAX_MONEY.
    - Chain: the skip list finds the ancestors, the best header has the most work, the fork point is the last
      common ancestor, cached deployment states are those of BIP 9, relative lock times those of BIP 68.
    - Proofs: every retargeting rule answers, and within the limit where it does not repeat a target of the
      index; an accepted proof of work stands for the work it is credited with; an accepted proof of stake of
      the second version comes from the owner of a mature output of the same branch (stakes of the first
      version are accepted unchecked); a stake the wallet finds is accepted; the defects of the checks of forks are stated as
      theorems.
    - Data: the byte formats are read back and are canonical, the hash classes compute the published
      functions for every sequence of writes, Merkle roots bind the transactions, partial trees prove
      membership, the limb arithmetic is arithmetic modulo 2^256.
    - Masternodes: no two masternodes of a list share a key, address or collateral; the list of every block is
      read back from caches, snapshots and differences; a block that is connected stores the list its
      transactions make, all of them checked against the list before, and a coinbase with a payload has the
      root of the new list; the payees take turns; a coinbase that
      is accepted pays what is due and no more than the reward and the superblock; a light client that
      applies the differences has the list that the root of the block stands for.
    - Addresses: a map of autonomous systems that passes its check is never read out of range, and addresses
      are read back from both of their formats.

    ** Fuel

    Loops that are not structural take fuel computed from their input: the length of the script or stream,
    the height of a block, its position in the heap (predecessors lie at smaller positions).  The theorems
    show that it is enough: they state that a result is returned, never only what holds if one is.  The
    loop over the headers of a fork in CheckProofOfStake can really run for ever; there a third turn is
    [Abort], because the state of the loop no longer changes.

    ** What is not modelled

    Signatures and curve points (secp256k1), BLS, X11 and scrypt are parameters or left out: third-party code
    or functions without a specification to compare with.  The network, the wallet, the user interfaces,
    the RPC servers and the start-up code are input and output around the core.  The memory pool, CoinJoin,
    governance objects with their votes, and the sessions in which quorums are formed and sign are protocols
    of their own: what the core reads of them (the triggered superblocks, the members and mined commitments
    of quorums, recovered signatures, the marks of chain locks) is an argument of the definitions that use
    it.  The database is the
    sequence of its atomic batches.  Threads and locks are left out: the modelled functions run under
    cs_main.  Log messages have no effect on the results. *)

From stdpp Require Export base list numbers gmap strings.
From Stdlib Require Export ZArith Lia Bool.

#[global] Open Scope Z_scope.

(** ** Machine integers

    Every C++ integer is a [Z]; where the code relies on (or may hit) the width of the type, the
    conversion is written out with one of the functions below. *)

Definition u8 (x : Z) : Z := x mod 2 ^ 8.
Definition u16 (x : Z) : Z := x mod 2 ^ 16.
Definition u32 (x : Z) : Z := x mod 2 ^ 32.
Definition u64 (x : Z) : Z := x mod 2 ^ 64.

(** Two's-complement reading of the low [w] bits. *)
Definition swrap (w x : Z) : Z :=
  let y := x mod 2 ^ w in if y <? 2 ^ (w - 1) then y else y - 2 ^ w.
Definition s16 (x : Z) : Z := swrap 16 x.
Definition s32 (x : Z) : Z := swrap 32 x.
Definition s64 (x : Z) : Z := swrap 64 x.

(** An [unsigned char], and a buffer of them. *)
Definition is_byte (b : Z) : Prop := 0 <= b < 256.
Abbreviation bytes_ok := (Forall is_byte).

(** C tests [if (x & mask)]. *)
Definition flag (x mask : Z) : bool := negb (Z.land x mask =? 0).

Definition b2z (b : bool) : Z := if b then 1 else 0.

(** Length of a container as a C++ [size()]. *)
Definition zlen {A} (l : list A) : Z := Z.of_nat (length l).

(** ** Results

    A call returns a value, reports an error of type [E], or stops the process: [Abort] stands for a
    failed [assert], [std::abort] or an exception nothing catches. *)
Inductive res (E A : Type) : Type :=
| Ok (a : A)
| Err (e : E)
| Abort.
Arguments Ok {E A} a.
Arguments Err {E A} e.
Arguments Abort {E A}.

#[export] Instance res_ret E : MRet (res E) := fun A a => Ok a.
#[export] Instance res_bind E : MBind (res E) := fun A B f m =>
  match m with Ok a => f a | Err e => Err e | Abort => Abort end.

(** [if (!b) return error e;] and [assert(b)]. *)
Definition require {E} (b : bool) (e : E) : res E unit := if b then Ok tt else Err e.
Definition assertb {E} (b : bool) : res E unit := if b then Ok tt else Abort.

Definition is_ok {E A} (r : res E A) : bool := match r with Ok _ => true | _ => false end.

(** ** Little-endian byte strings *)

Fixpoint le_val (l : list Z) : Z :=
  match l with [] => 0 | b :: l => b + 256 * le_val l end.

Fixpoint le_bytes (n : nat) (x : Z) : list Z :=
  match n with O => [] | S n => x mod 256 :: le_bytes n (x / 256) end.

(** crypto/common.h: the fixed-width reads take the buffer from the pointer on. *)
Definition ReadLE16 (ptr : list Z) : Z := le_val (take 2 ptr).
Definition ReadLE32 (ptr : list Z) : Z := le_val (take 4 ptr).
Definition ReadLE64 (ptr : list Z) : Z := le_val (take 8 ptr).
Definition WriteLE16 (x : Z) : list Z := le_bytes 2 x.
Definition WriteLE32 (x : Z) : list Z := le_bytes 4 x.
Definition WriteLE64 (x : Z) : list Z := le_bytes 8 x.
#[global] Arguments WriteLE16 : simpl never.
#[global] Arguments WriteLE32 : simpl never.
#[global] Arguments WriteLE64 : simpl never.
#[global] Arguments ReadLE16 : simpl never.
#[global] Arguments ReadLE32 : simpl never.
#[global] Arguments ReadLE64 : simpl never.

(** ** Proof automation *)

Create HintDb piratecash discriminated.

(** Splits every [if] and [match] of the goal or hypotheses on a boolean, keeping the equation. *)
Ltac case_bool :=
  match goal with
  | |- context [if ?b then _ else _] =>
      match type of b with bool => destruct b eqn:? end
  | H : context [if ?b then _ else _] |- _ =>
      match type of b with bool => destruct b eqn:? end
  end.

(** Turns boolean tests in the context into the propositions they decide. *)
Ltac bprop :=
  repeat match goal with
  | H : _ && _ = true |- _ => apply andb_true_iff in H; destruct H
  | H : _ || _ = false |- _ => apply orb_false_iff in H; destruct H
  | H : negb _ = true |- _ => apply negb_true_iff in H
  | H : negb _ = false |- _ => apply negb_false_iff in H
  | H : (_ <? _) = true |- _ => apply Z.ltb_lt in H
  | H : (_ <? _) = false |- _ => apply Z.ltb_ge in H
  | H : (_ <=? _) = true |- _ => apply Z.leb_le in H
  | H : (_ <=? _) = false |- _ => apply Z.leb_gt in H
  | H : (_ =? _) = true |- _ => apply Z.eqb_eq in H
  | H : (_ =? _) = false |- _ => apply Z.eqb_neq in H
  | H : bool_decide _ = true |- _ => apply bool_decide_eq_true in H
  | H : bool_decide _ = false |- _ => apply bool_decide_eq_false in H
  end.

Section res_lemmas.
Context {E : Type}.

Lemma bind_Ok {A B} (m : res E A) (f : A -> res E B) b :
  (m ≫= f) = Ok b <-> exists a, m = Ok a /\ f a = Ok b.
Proof.
  destruct m; split; intros H; try (by destruct H as (? & [=] & ?)); try done; [by eexists|].
  by destruct H as (? & [= ->] & ?).
Qed.

Lemma bind_not_Abort {A B} (m : res E A) (f : A -> res E B) :
  m <> Abort -> (forall a, m = Ok a -> f a <> Abort) -> (m ≫= f) <> Abort.
Proof. destruct m; naive_solver. Qed.

Lemma require_Ok (b : bool) (e : E) u : require b e = Ok u <-> b = true.
Proof. destruct b, u; split; simpl; congruence. Qed.

Lemma require_not_Abort (b : bool) (e : E) : require b e <> Abort.
Proof. by destruct b. Qed.

End res_lemmas.

(** Decomposes a hypothesis that a monadic computation succeeded. *)
Ltac inv_ok :=
  repeat match goal with
  | H : (_ ≫= _) = Ok _ |- _ => apply bind_Ok in H as (? & ? & ?)
  | H : require _ _ = Ok _ |- _ => apply require_Ok in H
  | H : mret _ = Ok _ |- _ => injection H as H
  | H : Ok _ = Ok _ |- _ => injection H as H
  | H : Err _ = Ok _ |- _ => discriminate H
  | H : Abort = Ok _ |- _ => discriminate H
  end.

(** [post P m]: [m] does not stop the process, and a value it returns satisfies [P]. *)
Definition post {E A} (P : A -> Prop) (m : res E A) : Prop :=
  match m with Ok a => P a | Err _ => True | Abort => False end.

Abbreviation never_aborts := (post (fun _ => True)).

Section post_lemmas.
Context {E : Type}.

Lemma post_bind {A B} (P : A -> Prop) (Q : B -> Prop) (m : res E A) (f : A -> res E B) :
  post P m -> (forall a, P a -> post Q (f a)) -> post Q (m ≫= f).
Proof. destruct m; simpl; auto. Qed.

Lemma post_mono {A} (P Q : A -> Prop) (m : res E A) :
  post P m -> (forall a, P a -> Q a) -> post Q m.
Proof. destruct m; simpl; auto. Qed.

Lemma post_Ok {A} (P : A -> Prop) (m : res E A) a : post P m -> m = Ok a -> P a.
Proof. by intros H ->. Qed.

Lemma post_not_Abort {A} (P : A -> Prop) (m : res E A) : post P m -> m <> Abort.
Proof. by destruct m. Qed.

End post_lemmas.

(** ** Bytes *)

Lemma le_bytes_length n x : length (le_bytes n x) = n.
Proof. revert x; induction n; simpl; auto. Qed.

Lemma le_bytes_ok n x : bytes_ok (le_bytes n x).
Proof.
  revert x; induction n; simpl; intros x; constructor; auto.
  apply Z.mod_pos_bound; lia.
Qed.

Lemma le_val_bound l : bytes_ok l -> 0 <= le_val l < 256 ^ Z.of_nat (length l).
Proof.
  induction 1 as [|b l Hb Hl IH]; simpl le_val; simpl length; [simpl; lia|].
  rewrite Nat2Z.inj_succ, Z.pow_succ_r by lia. unfold is_byte in Hb. lia.
Qed.

Lemma le_val_bytes n x : le_val (le_bytes n x) = x mod 256 ^ Z.of_nat n.
Proof.
  revert x; induction n as [|n IH]; intros x; simpl le_bytes; simpl le_val.
  - by rewrite Z.mod_1_r.
  - rewrite IH, Nat2Z.inj_succ, Z.pow_succ_r by lia.
    rewrite (Z.rem_mul_r x 256 (256 ^ Z.of_nat n)) by lia. lia.
Qed.

Lemma le_bytes_val l : bytes_ok l -> le_bytes (length l) (le_val l) = l.
Proof.
  induction 1 as [|b l Hb Hl IH]; simpl; [done|]. unfold is_byte in Hb.
  replace (b + 256 * le_val l) with (le_val l * 256 + b) by lia.
  rewrite Z.div_add_l, (Z.div_small b) by lia. rewrite Z.add_0_r, IH. f_equal.
  rewrite Z.add_comm, Z.mod_add by lia. apply Z.mod_small; lia.
Qed.

Lemma le_val_inj l1 l2 :
  bytes_ok l1 -> bytes_ok l2 -> length l1 = length l2 -> le_val l1 = le_val l2 -> l1 = l2.
Proof.
  intros H1 H2 Hl Hv. rewrite <- (le_bytes_val l1), <- (le_bytes_val l2); congruence.
Qed.

Lemma le_val_app l1 l2 :
  le_val (l1 ++ l2) = le_val l1 + 256 ^ Z.of_nat (length l1) * le_val l2.
Proof.
  induction l1 as [|b l1 IH]; simpl app; simpl le_val; simpl length.
  - rewrite Z.pow_0_r. lia.
  - rewrite IH, Nat2Z.inj_succ, Z.pow_succ_r by lia. ring.
Qed.

Lemma bytes_ok_app l1 l2 : bytes_ok (l1 ++ l2) <-> bytes_ok l1 /\ bytes_ok l2.
Proof. apply Forall_app. Qed.

Lemma bytes_ok_snoc l b : bytes_ok l -> is_byte b -> bytes_ok (l ++ [b]).
Proof. intros. apply Forall_app. by rewrite Forall_singleton. Qed.

Lemma bytes_ok_take n l : bytes_ok l -> bytes_ok (take n l).
Proof. apply Forall_take. Qed.

Lemma bytes_ok_drop n l : bytes_ok l -> bytes_ok (drop n l).
Proof. apply Forall_drop. Qed.

Lemma take_le_bytes n x l : take n (le_bytes n x ++ l) = le_bytes n x.
Proof. rewrite take_app_le by (rewrite le_bytes_length; lia). apply take_ge. by rewrite le_bytes_length. Qed.

Lemma drop_le_bytes n x l : drop n (le_bytes n x ++ l) = l.
Proof. rewrite drop_app_le by (rewrite le_bytes_length; lia). rewrite drop_ge; [done|]. by rewrite le_bytes_length. Qed.

#[export] Hint Resolve le_bytes_ok bytes_ok_snoc bytes_ok_take bytes_ok_drop : piratecash.

(** ** Bit operations *)

(** A boolean fact about a byte is checked on its 256 values. *)
Lemma byte_check (P : Z -> bool) :
  forallb P (seqZ 0 256) = true -> forall b, is_byte b -> P b = true.
Proof.
  intros H b Hb. rewrite forallb_forall in H. apply H, list_elem_of_In, elem_of_seqZ.
  unfold is_byte in Hb. lia.
Qed.

Lemma byte_check2 (P : Z -> Z -> bool) :
  forallb (fun a => forallb (P a) (seqZ 0 256)) (seqZ 0 256) = true ->
  forall a b, is_byte a -> is_byte b -> P a b = true.
Proof.
  intros H a b Ha Hb. apply byte_check; [|done].
  exact (byte_check (fun a => forallb (P a) (seqZ 0 256)) H a Ha).
Qed.

Lemma lor_disjoint_add a b : Z.land a b = 0 -> Z.lor a b = a + b.
Proof. intros H. pose proof (Z.add_lor_land a b). lia. Qed.

Lemma testbit_small a k i : 0 <= a < 2 ^ k -> k <= i -> Z.testbit a i = false.
Proof.
  intros Ha Hi. destruct (Z.eq_dec a 0) as [->|Hne]; [apply Z.testbit_0_l|].
  apply Z.bits_above_log2; [lia|]. apply Z.log2_lt_pow2; [lia|].
  destruct (Z.le_gt_cases 0 k) as [Hk|Hk].
  - eapply Z.lt_le_trans; [apply Ha|]. apply Z.pow_le_mono_r; lia.
  - rewrite Z.pow_neg_r in Ha by lia. lia.
Qed.

Lemma lor_shiftl_add a b k : 0 <= k -> 0 <= a < 2 ^ k -> Z.lor a (Z.shiftl b k) = a + 2 ^ k * b.
Proof.
  intros Hk Ha. rewrite lor_disjoint_add; [rewrite Z.shiftl_mul_pow2; lia|].
  apply Z.bits_inj'. intros i Hi. rewrite Z.land_spec, Z.bits_0.
  destruct (Z.lt_ge_cases i k) as [H|H].
  - rewrite Z.shiftl_spec_low, andb_false_r by lia. done.
  - by rewrite (testbit_small a k) by lia.
Qed.

Lemma ldiff_pow2 a k :
  0 <= k -> Z.testbit a k = true -> Z.land a (Z.lnot (2 ^ k)) = a - 2 ^ k.
Proof.
  intros Hk Ht. rewrite <- Z.ldiff_land. symmetry. apply Z.sub_nocarry_ldiff.
  apply Z.bits_inj'. intros i Hi. rewrite Z.ldiff_spec, Z.bits_0, Z.pow2_bits_eqb by lia.
  destruct (Z.eqb_spec k i) as [->|]; [by rewrite Ht|done].
Qed.

Lemma land_255 a : Z.land a 0xff = a mod 256.
Proof. change 0xff with (Z.ones 8). by rewrite Z.land_ones. Qed.

Lemma shiftr_8 a : Z.shiftr a 8 = a / 256.
Proof. by rewrite Z.shiftr_div_pow2. Qed.

(** [x & (1 << n)] tests bit [n]. *)
Lemma flag_pow2 x n : 0 <= n -> flag x (2 ^ n) = Z.testbit x n.
Proof.
  intros Hn. unfold flag. destruct (Z.testbit x n) eqn:E.
  - apply negb_true_iff, Z.eqb_neq. intros H.
    assert (Z.testbit (Z.land x (2 ^ n)) n = false) as Hf by (rewrite H; apply Z.bits_0).
    by rewrite Z.land_spec, E, Z.pow2_bits_true in Hf by lia.
  - apply negb_false_iff, Z.eqb_eq, Z.bits_inj'. intros i Hi.
    rewrite Z.land_spec, Z.bits_0, Z.pow2_bits_eqb by lia.
    destruct (Z.eqb_spec n i) as [->|]; [by rewrite E|by rewrite andb_false_r].
Qed.

Lemma byte_bitwise f :
  f = Z.land \/ f = Z.lor \/ f = Z.lxor ->
  forall a b, is_byte a -> is_byte b -> is_byte (f a b).
Proof.
  intros Hf a b Ha Hb.
  assert ((0 <=? f a b) && (f a b <? 256) = true) as [??]%andb_true_iff; [|bprop; by split].
  apply (byte_check2 (fun a b => (0 <=? f a b) && (f a b <? 256))); [|done..].
  destruct Hf as [->|[->| ->]]; by vm_compute.
Qed.
