(* ===== verification/Script.v ===== *)
(** * Script byte code: opcodes, numbers, encoding and decoding

    Models src/src/script/script.h and script.cpp.  A [CScript] is its byte string; an iterator into a
    script is the suffix from that position to the end, so [end() - pc] is the length of the suffix.
    A [CScriptNum] is its [m_value]. *)

From stdpp Require Import base list numbers strings.
From S2P Require Import Prelude.

Open Scope Z_scope.

(** ** Limits (script.h) *)

Definition MAX_SCRIPT_ELEMENT_SIZE : Z := 520.
Definition MAX_OPS_PER_SCRIPT : Z := 201.
Definition MAX_PUBKEYS_PER_MULTISIG : Z := 20.
Definition MAX_SCRIPT_SIZE : Z := 10000.
Definition MAX_STACK_SIZE : Z := 1000.
Definition LOCKTIME_THRESHOLD : Z := 500000000.

(** ** Opcodes

    The enumerators of [enum opcodetype]; [OP_VALUE z] is any other value the enumeration can hold
    after [static_cast<opcodetype>], such as the direct pushes 0x01 to 0x4b. *)
Inductive opcodetype : Type :=
| OP_0 | OP_PUSHDATA1 | OP_PUSHDATA2 | OP_PUSHDATA4 | OP_1NEGATE | OP_RESERVED | OP_1 | OP_2 | OP_3
| OP_4 | OP_5 | OP_6 | OP_7 | OP_8 | OP_9 | OP_10 | OP_11 | OP_12 | OP_13 | OP_14 | OP_15 | OP_16
| OP_NOP | OP_VER | OP_IF | OP_NOTIF | OP_VERIF | OP_VERNOTIF | OP_ELSE | OP_ENDIF | OP_VERIFY
| OP_RETURN | OP_TOALTSTACK | OP_FROMALTSTACK | OP_2DROP | OP_2DUP | OP_3DUP | OP_2OVER | OP_2ROT
| OP_2SWAP | OP_IFDUP | OP_DEPTH | OP_DROP | OP_DUP | OP_NIP | OP_OVER | OP_PICK | OP_ROLL | OP_ROT
| OP_SWAP | OP_TUCK | OP_CAT | OP_SPLIT | OP_SIZE | OP_NUM2BIN | OP_BIN2NUM | OP_INVERT | OP_AND
| OP_OR | OP_XOR | OP_EQUAL | OP_EQUALVERIFY | OP_RESERVED1 | OP_RESERVED2 | OP_1ADD | OP_1SUB
| OP_2MUL | OP_2DIV | OP_NEGATE | OP_ABS | OP_NOT | OP_0NOTEQUAL | OP_ADD | OP_SUB | OP_MUL
| OP_DIV | OP_MOD | OP_LSHIFT | OP_RSHIFT | OP_BOOLAND | OP_BOOLOR | OP_NUMEQUAL
| OP_NUMEQUALVERIFY | OP_NUMNOTEQUAL | OP_LESSTHAN | OP_GREATERTHAN | OP_LESSTHANOREQUAL
| OP_GREATERTHANOREQUAL | OP_MIN | OP_MAX | OP_WITHIN | OP_RIPEMD160 | OP_SHA1 | OP_SHA256
| OP_HASH160 | OP_HASH256 | OP_CODESEPARATOR | OP_CHECKSIG | OP_CHECKSIGVERIFY | OP_CHECKMULTISIG
| OP_CHECKMULTISIGVERIFY | OP_NOP1 | OP_CHECKLOCKTIMEVERIFY | OP_CHECKSEQUENCEVERIFY | OP_NOP4
| OP_NOP5 | OP_NOP6 | OP_NOP7 | OP_NOP8 | OP_NOP9 | OP_NOP10 | OP_CHECKDATASIG
| OP_CHECKDATASIGVERIFY | OP_INVALIDOPCODE
| OP_VALUE (z : Z).

Definition opcode_val (op : opcodetype) : Z :=
  match op with
  | OP_0 => 0x00 | OP_PUSHDATA1 => 0x4c | OP_PUSHDATA2 => 0x4d | OP_PUSHDATA4 => 0x4e
  | OP_1NEGATE => 0x4f | OP_RESERVED => 0x50 | OP_1 => 0x51 | OP_2 => 0x52 | OP_3 => 0x53
  | OP_4 => 0x54 | OP_5 => 0x55 | OP_6 => 0x56 | OP_7 => 0x57 | OP_8 => 0x58 | OP_9 => 0x59
  | OP_10 => 0x5a | OP_11 => 0x5b | OP_12 => 0x5c | OP_13 => 0x5d | OP_14 => 0x5e | OP_15 => 0x5f
  | OP_16 => 0x60 | OP_NOP => 0x61 | OP_VER => 0x62 | OP_IF => 0x63 | OP_NOTIF => 0x64
  | OP_VERIF => 0x65 | OP_VERNOTIF => 0x66 | OP_ELSE => 0x67 | OP_ENDIF => 0x68 | OP_VERIFY => 0x69
  | OP_RETURN => 0x6a | OP_TOALTSTACK => 0x6b | OP_FROMALTSTACK => 0x6c | OP_2DROP => 0x6d
  | OP_2DUP => 0x6e | OP_3DUP => 0x6f | OP_2OVER => 0x70 | OP_2ROT => 0x71 | OP_2SWAP => 0x72
  | OP_IFDUP => 0x73 | OP_DEPTH => 0x74 | OP_DROP => 0x75 | OP_DUP => 0x76 | OP_NIP => 0x77
  | OP_OVER => 0x78 | OP_PICK => 0x79 | OP_ROLL => 0x7a | OP_ROT => 0x7b | OP_SWAP => 0x7c
  | OP_TUCK => 0x7d | OP_CAT => 0x7e | OP_SPLIT => 0x7f | OP_SIZE => 0x82 | OP_NUM2BIN => 0x80
  | OP_BIN2NUM => 0x81 | OP_INVERT => 0x83 | OP_AND => 0x84 | OP_OR => 0x85 | OP_XOR => 0x86
  | OP_EQUAL => 0x87 | OP_EQUALVERIFY => 0x88 | OP_RESERVED1 => 0x89 | OP_RESERVED2 => 0x8a
  | OP_1ADD => 0x8b | OP_1SUB => 0x8c | OP_2MUL => 0x8d | OP_2DIV => 0x8e | OP_NEGATE => 0x8f
  | OP_ABS => 0x90 | OP_NOT => 0x91 | OP_0NOTEQUAL => 0x92 | OP_ADD => 0x93 | OP_SUB => 0x94
  | OP_MUL => 0x95 | OP_DIV => 0x96 | OP_MOD => 0x97 | OP_LSHIFT => 0x98 | OP_RSHIFT => 0x99
  | OP_BOOLAND => 0x9a | OP_BOOLOR => 0x9b | OP_NUMEQUAL => 0x9c | OP_NUMEQUALVERIFY => 0x9d
  | OP_NUMNOTEQUAL => 0x9e | OP_LESSTHAN => 0x9f | OP_GREATERTHAN => 0xa0
  | OP_LESSTHANOREQUAL => 0xa1 | OP_GREATERTHANOREQUAL => 0xa2 | OP_MIN => 0xa3 | OP_MAX => 0xa4
  | OP_WITHIN => 0xa5 | OP_RIPEMD160 => 0xa6 | OP_SHA1 => 0xa7 | OP_SHA256 => 0xa8
  | OP_HASH160 => 0xa9 | OP_HASH256 => 0xaa | OP_CODESEPARATOR => 0xab | OP_CHECKSIG => 0xac
  | OP_CHECKSIGVERIFY => 0xad | OP_CHECKMULTISIG => 0xae | OP_CHECKMULTISIGVERIFY => 0xaf
  | OP_NOP1 => 0xb0 | OP_CHECKLOCKTIMEVERIFY => 0xb1 | OP_CHECKSEQUENCEVERIFY => 0xb2
  | OP_NOP4 => 0xb3 | OP_NOP5 => 0xb4 | OP_NOP6 => 0xb5 | OP_NOP7 => 0xb6 | OP_NOP8 => 0xb7
  | OP_NOP9 => 0xb8 | OP_NOP10 => 0xb9 | OP_CHECKDATASIG => 0xba | OP_CHECKDATASIGVERIFY => 0xbb
  | OP_INVALIDOPCODE => 0xff
  | OP_VALUE z => z
  end.

Definition opcodes : list opcodetype :=
  [OP_0; OP_PUSHDATA1; OP_PUSHDATA2; OP_PUSHDATA4; OP_1NEGATE; OP_RESERVED; OP_1; OP_2; OP_3; OP_4;
   OP_5; OP_6; OP_7; OP_8; OP_9; OP_10; OP_11; OP_12; OP_13; OP_14; OP_15; OP_16; OP_NOP; OP_VER;
   OP_IF; OP_NOTIF; OP_VERIF; OP_VERNOTIF; OP_ELSE; OP_ENDIF; OP_VERIFY; OP_RETURN; OP_TOALTSTACK;
   OP_FROMALTSTACK; OP_2DROP; OP_2DUP; OP_3DUP; OP_2OVER; OP_2ROT; OP_2SWAP; OP_IFDUP; OP_DEPTH;
   OP_DROP; OP_DUP; OP_NIP; OP_OVER; OP_PICK; OP_ROLL; OP_ROT; OP_SWAP; OP_TUCK; OP_CAT; OP_SPLIT;
   OP_SIZE; OP_NUM2BIN; OP_BIN2NUM; OP_INVERT; OP_AND; OP_OR; OP_XOR; OP_EQUAL; OP_EQUALVERIFY;
   OP_RESERVED1; OP_RESERVED2; OP_1ADD; OP_1SUB; OP_2MUL; OP_2DIV; OP_NEGATE; OP_ABS; OP_NOT;
   OP_0NOTEQUAL; OP_ADD; OP_SUB; OP_MUL; OP_DIV; OP_MOD; OP_LSHIFT; OP_RSHIFT; OP_BOOLAND;
   OP_BOOLOR; OP_NUMEQUAL; OP_NUMEQUALVERIFY; OP_NUMNOTEQUAL; OP_LESSTHAN; OP_GREATERTHAN;
   OP_LESSTHANOREQUAL; OP_GREATERTHANOREQUAL; OP_MIN; OP_MAX; OP_WITHIN; OP_RIPEMD160; OP_SHA1;
   OP_SHA256; OP_HASH160; OP_HASH256; OP_CODESEPARATOR; OP_CHECKSIG; OP_CHECKSIGVERIFY;
   OP_CHECKMULTISIG; OP_CHECKMULTISIGVERIFY; OP_NOP1; OP_CHECKLOCKTIMEVERIFY;
   OP_CHECKSEQUENCEVERIFY; OP_NOP4; OP_NOP5; OP_NOP6; OP_NOP7; OP_NOP8; OP_NOP9; OP_NOP10;
   OP_CHECKDATASIG; OP_CHECKDATASIGVERIFY; OP_INVALIDOPCODE].


(** [static_cast<opcodetype>] of a byte. *)
Definition opcode_of (z : Z) : opcodetype :=
  match List.find (fun op => opcode_val op =? z) opcodes with
  | Some op => op
  | None => OP_VALUE z
  end.

Definition op_eqb (a b : opcodetype) : bool := opcode_val a =? opcode_val b.
Definition op_ltb (a b : opcodetype) : bool := opcode_val a <? opcode_val b.
Definition op_leb (a b : opcodetype) : bool := opcode_val a <=? opcode_val b.

Definition GetOpName (op : opcodetype) : string :=
  match op with
  | OP_0 => "0" | OP_PUSHDATA1 => "OP_PUSHDATA1" | OP_PUSHDATA2 => "OP_PUSHDATA2"
  | OP_PUSHDATA4 => "OP_PUSHDATA4" | OP_1NEGATE => "-1" | OP_RESERVED => "OP_RESERVED"
  | OP_1 => "1" | OP_2 => "2" | OP_3 => "3" | OP_4 => "4" | OP_5 => "5" | OP_6 => "6" | OP_7 => "7"
  | OP_8 => "8" | OP_9 => "9" | OP_10 => "10" | OP_11 => "11" | OP_12 => "12" | OP_13 => "13"
  | OP_14 => "14" | OP_15 => "15" | OP_16 => "16" | OP_NOP => "OP_NOP" | OP_VER => "OP_VER"
  | OP_IF => "OP_IF" | OP_NOTIF => "OP_NOTIF" | OP_VERIF => "OP_VERIF"
  | OP_VERNOTIF => "OP_VERNOTIF" | OP_ELSE => "OP_ELSE" | OP_ENDIF => "OP_ENDIF"
  | OP_VERIFY => "OP_VERIFY" | OP_RETURN => "OP_RETURN" | OP_TOALTSTACK => "OP_TOALTSTACK"
  | OP_FROMALTSTACK => "OP_FROMALTSTACK" | OP_2DROP => "OP_2DROP" | OP_2DUP => "OP_2DUP"
  | OP_3DUP => "OP_3DUP" | OP_2OVER => "OP_2OVER" | OP_2ROT => "OP_2ROT" | OP_2SWAP => "OP_2SWAP"
  | OP_IFDUP => "OP_IFDUP" | OP_DEPTH => "OP_DEPTH" | OP_DROP => "OP_DROP" | OP_DUP => "OP_DUP"
  | OP_NIP => "OP_NIP" | OP_OVER => "OP_OVER" | OP_PICK => "OP_PICK" | OP_ROLL => "OP_ROLL"
  | OP_ROT => "OP_ROT" | OP_SWAP => "OP_SWAP" | OP_TUCK => "OP_TUCK" | OP_CAT => "OP_CAT"
  | OP_SPLIT => "OP_SPLIT" | OP_SIZE => "OP_SIZE" | OP_NUM2BIN => "OP_NUM2BIN"
  | OP_BIN2NUM => "OP_BIN2NUM" | OP_INVERT => "OP_INVERT" | OP_AND => "OP_AND" | OP_OR => "OP_OR"
  | OP_XOR => "OP_XOR" | OP_EQUAL => "OP_EQUAL" | OP_EQUALVERIFY => "OP_EQUALVERIFY"
  | OP_RESERVED1 => "OP_RESERVED1" | OP_RESERVED2 => "OP_RESERVED2" | OP_1ADD => "OP_1ADD"
  | OP_1SUB => "OP_1SUB" | OP_2MUL => "OP_2MUL" | OP_2DIV => "OP_2DIV" | OP_NEGATE => "OP_NEGATE"
  | OP_ABS => "OP_ABS" | OP_NOT => "OP_NOT" | OP_0NOTEQUAL => "OP_0NOTEQUAL" | OP_ADD => "OP_ADD"
  | OP_SUB => "OP_SUB" | OP_MUL => "OP_MUL" | OP_DIV => "OP_DIV" | OP_MOD => "OP_MOD"
  | OP_LSHIFT => "OP_LSHIFT" | OP_RSHIFT => "OP_RSHIFT" | OP_BOOLAND => "OP_BOOLAND"
  | OP_BOOLOR => "OP_BOOLOR" | OP_NUMEQUAL => "OP_NUMEQUAL"
  | OP_NUMEQUALVERIFY => "OP_NUMEQUALVERIFY" | OP_NUMNOTEQUAL => "OP_NUMNOTEQUAL"
  | OP_LESSTHAN => "OP_LESSTHAN" | OP_GREATERTHAN => "OP_GREATERTHAN"
  | OP_LESSTHANOREQUAL => "OP_LESSTHANOREQUAL" | OP_GREATERTHANOREQUAL => "OP_GREATERTHANOREQUAL"
  | OP_MIN => "OP_MIN" | OP_MAX => "OP_MAX" | OP_WITHIN => "OP_WITHIN"
  | OP_RIPEMD160 => "OP_RIPEMD160" | OP_SHA1 => "OP_SHA1" | OP_SHA256 => "OP_SHA256"
  | OP_HASH160 => "OP_HASH160" | OP_HASH256 => "OP_HASH256"
  | OP_CODESEPARATOR => "OP_CODESEPARATOR" | OP_CHECKSIG => "OP_CHECKSIG"
  | OP_CHECKSIGVERIFY => "OP_CHECKSIGVERIFY" | OP_CHECKMULTISIG => "OP_CHECKMULTISIG"
  | OP_CHECKMULTISIGVERIFY => "OP_CHECKMULTISIGVERIFY" | OP_NOP1 => "OP_NOP1"
  | OP_CHECKLOCKTIMEVERIFY => "OP_CHECKLOCKTIMEVERIFY"
  | OP_CHECKSEQUENCEVERIFY => "OP_CHECKSEQUENCEVERIFY" | OP_NOP4 => "OP_NOP4"
  | OP_NOP5 => "OP_NOP5" | OP_NOP6 => "OP_NOP6" | OP_NOP7 => "OP_NOP7" | OP_NOP8 => "OP_NOP8"
  | OP_NOP9 => "OP_NOP9" | OP_NOP10 => "OP_NOP10" | OP_CHECKDATASIG => "OP_CHECKDATASIG"
  | OP_CHECKDATASIGVERIFY => "OP_CHECKDATASIGVERIFY" | OP_INVALIDOPCODE => "OP_INVALIDOPCODE"
  | OP_VALUE _ => "OP_UNKNOWN"
  end.

(** ** Vectors of bytes *)

Abbreviation valtype := (list Z).

Definition vget (v : list Z) (i : nat) : Z := default 0 (v !! i).
Definition back (v : list Z) : Z := default 0 (last v).
(** [v.back() = f(v.back())] on a non-empty vector. *)
Definition alter_back (f : Z -> Z) (v : list Z) : list Z := alter f (pred (length v)) v.

(** ** CScriptNum *)

Definition nDefaultMaxNumSize : Z := 4.

(** The loop [while (absvalue)] of [serialize]; a 64-bit value takes at most 8 turns. *)
Fixpoint serialize_abs (fuel : nat) (absvalue : Z) : list Z :=
  match fuel with
  | O => []
  | S fuel =>
      if absvalue =? 0 then []
      else Z.land absvalue 0xff :: serialize_abs fuel (Z.shiftr absvalue 8)
  end.

Definition CScriptNum_serialize (value : Z) : list Z :=
  if value =? 0 then [] else
  let neg := value <? 0 in
  let absvalue := u64 (if neg then - value else value) in
  let result := serialize_abs 8 absvalue in
  if flag (back result) 0x80 then result ++ [if neg then 0x80 else 0]
  else if neg then alter_back (fun b => Z.lor b 0x80) result
  else result.

(** [result |= static_cast<int64_t>(vch[i]) << 8*i], from index [i] on. *)
Fixpoint set_vch_loop (i : Z) (result : Z) (vch : list Z) : Z :=
  match vch with
  | [] => result
  | b :: vch => set_vch_loop (i + 1) (Z.lor result (Z.shiftl b (8 * i))) vch
  end.

Definition set_vch (vch : list Z) : Z :=
  match vch with
  | [] => 0
  | _ =>
      let result := set_vch_loop 0 0 vch in
      if flag (back vch) 0x80
      then - Z.land result (Z.lnot (Z.shiftl 0x80 (8 * (zlen vch - 1))))
      else result
  end.

Definition IsMinimallyEncoded (vch : list Z) (nMaxNumSize : Z) : bool :=
  if nMaxNumSize <? zlen vch then false
  else if 0 <? zlen vch then
    if Z.land (back vch) 0x7f =? 0 then
      if (zlen vch <=? 1) || (Z.land (vget vch (length vch - 2)) 0x80 =? 0) then false else true
    else true
  else true.

(** The trimming loop of [MinimallyEncode], at loop counter [i]. *)
Fixpoint MinimallyEncode_loop (data : list Z) (last : Z) (i : nat) : list Z :=
  match i with
  | O => []
  | S i' =>
      if negb (vget data i' =? 0) then
        if flag (vget data i') 0x80
        then take (S i) (<[i := last]> data)
        else take i (<[i' := Z.lor (vget data i') last]> data)
      else MinimallyEncode_loop data last i'
  end.

(** [MinimallyEncode]: the returned flag and the vector it leaves behind. *)
Definition MinimallyEncode (data : list Z) : bool * list Z :=
  if zlen data =? 0 then (false, data) else
  let last := back data in
  if flag last 0x7f then (false, data) else
  if zlen data =? 1 then (true, []) else
  if flag (vget data (length data - 2)) 0x80 then (false, data) else
  (true, MinimallyEncode_loop data last (length data - 1)).

(** The constructor from a stack element throws [scriptnum_error]: [None]. *)
Definition CScriptNum_of (vch : list Z) (fRequireMinimal : bool) (nMaxNumSize : Z) : option Z :=
  if nMaxNumSize <? zlen vch then None
  else if fRequireMinimal && negb (IsMinimallyEncoded vch nMaxNumSize) then None
  else Some (set_vch vch).

Definition getint (m_value : Z) : Z :=
  if 2 ^ 31 - 1 <? m_value then 2 ^ 31 - 1
  else if m_value <? - 2 ^ 31 then - 2 ^ 31
  else m_value.

Definition getvch (m_value : Z) : list Z := CScriptNum_serialize m_value.

(** ** Building scripts *)

Definition push_opcode (s : list Z) (op : opcodetype) : list Z := s ++ [u8 (opcode_val op)].

Definition push_data (s b : list Z) : list Z :=
  (if zlen b <? opcode_val OP_PUSHDATA1 then s ++ [u8 (zlen b)]
   else if zlen b <=? 0xff then s ++ [opcode_val OP_PUSHDATA1; u8 (zlen b)]
   else if zlen b <=? 0xffff then s ++ opcode_val OP_PUSHDATA2 :: WriteLE16 (zlen b)
   else s ++ opcode_val OP_PUSHDATA4 :: WriteLE32 (zlen b)) ++ b.

Definition push_int64 (s : list Z) (n : Z) : list Z :=
  if (n =? -1) || ((1 <=? n) && (n <=? 16)) then s ++ [u8 (n + (opcode_val OP_1 - 1))]
  else if n =? 0 then s ++ [opcode_val OP_0]
  else push_data s (CScriptNum_serialize n).

Definition DecodeOP_N (op : opcodetype) : Z :=
  if op_eqb op OP_0 then 0 else opcode_val op - (opcode_val OP_1 - 1).

Definition EncodeOP_N (n : Z) : opcodetype :=
  if n =? 0 then OP_0 else opcode_of (opcode_val OP_1 + n - 1).

(** ** Reading scripts *)

(** The operand length of a push: [None] when the script ends inside it; the iterator is returned
    in both cases. *)
Definition read_push_size (opcode : Z) (pc : list Z) : option Z * list Z :=
  if opcode <? opcode_val OP_PUSHDATA1 then (Some opcode, pc)
  else if opcode =? opcode_val OP_PUSHDATA1 then
    if zlen pc <? 1 then (None, pc) else (Some (vget pc 0), drop 1 pc)
  else if opcode =? opcode_val OP_PUSHDATA2 then
    if zlen pc <? 2 then (None, pc) else (Some (ReadLE16 pc), drop 2 pc)
  else if zlen pc <? 4 then (None, pc) else (Some (ReadLE32 pc), drop 4 pc).

(** [GetScriptOp]: returned flag, iterator, opcode and operand (empty when there is none). *)
Definition GetScriptOp (pc : list Z) : bool * list Z * opcodetype * list Z :=
  match pc with
  | [] => (false, pc, OP_INVALIDOPCODE, [])
  | opcode :: pc =>
      if opcode <=? opcode_val OP_PUSHDATA4 then
        match read_push_size opcode pc with
        | (None, pc) => (false, pc, OP_INVALIDOPCODE, [])
        | (Some nSize, pc) =>
            if zlen pc <? nSize then (false, pc, OP_INVALIDOPCODE, [])
            else (true, drop (Z.to_nat nSize) pc, opcode_of opcode, take (Z.to_nat nSize) pc)
        end
      else (true, pc, opcode_of opcode, [])
  end.

(** [CScript::GetOp] for the callers that look at its results only when it succeeds. *)
Definition GetOp (pc : list Z) : option (list Z * opcodetype * list Z) :=
  match GetScriptOp pc with
  | (true, pc, op, vch) => Some (pc, op, vch)
  | (false, _, _, _) => None
  end.

(** ** Predicates and counts over scripts *)

(** The loops below turn once per opcode, so the length of the script bounds their turns. *)
Fixpoint GetSigOpCount_loop (fuel : nat) (fAccurate : bool) (pc : list Z) (lastOpcode : opcodetype)
    (n : Z) : Z :=
  match fuel with
  | O => n
  | S fuel =>
      match GetOp pc with
      | None => n
      | Some (pc, opcode, _) =>
          let n :=
            if op_eqb opcode OP_CHECKSIG || op_eqb opcode OP_CHECKSIGVERIFY then u32 (n + 1)
            else if op_eqb opcode OP_CHECKMULTISIG || op_eqb opcode OP_CHECKMULTISIGVERIFY then
              if fAccurate && op_leb OP_1 lastOpcode && op_leb lastOpcode OP_16
              then u32 (n + DecodeOP_N lastOpcode)
              else u32 (n + MAX_PUBKEYS_PER_MULTISIG)
            else n in
          GetSigOpCount_loop fuel fAccurate pc opcode n
      end
  end.

Definition GetSigOpCount (script : list Z) (fAccurate : bool) : Z :=
  GetSigOpCount_loop (length script) fAccurate script OP_INVALIDOPCODE 0.

Definition IsPayToPublicKeyHash (s : list Z) : bool :=
  (zlen s =? 25) && (vget s 0 =? opcode_val OP_DUP) && (vget s 1 =? opcode_val OP_HASH160) &&
  (vget s 2 =? 0x14) && (vget s 23 =? opcode_val OP_EQUALVERIFY) &&
  (vget s 24 =? opcode_val OP_CHECKSIG).

Definition IsPayToScriptHash (s : list Z) : bool :=
  (zlen s =? 23) && (vget s 0 =? opcode_val OP_HASH160) && (vget s 1 =? 0x14) &&
  (vget s 22 =? opcode_val OP_EQUAL).

Definition IsPayToPublicKey (s : list Z) : bool :=
  if zlen s =? 35 then
    ((vget s 1 =? 0x02) || (vget s 1 =? 0x03)) && (vget s 34 =? opcode_val OP_CHECKSIG)
  else if zlen s =? 67 then (vget s 1 =? 0x04) && (vget s 66 =? opcode_val OP_CHECKSIG)
  else false.

Fixpoint IsPushOnly_loop (fuel : nat) (pc : list Z) : bool :=
  match fuel with
  | O => true
  | S fuel =>
      match pc with
      | [] => true
      | _ =>
          match GetOp pc with
          | None => false
          | Some (pc, opcode, _) => if op_ltb OP_16 opcode then false else IsPushOnly_loop fuel pc
          end
      end
  end.

Definition IsPushOnly (pc : list Z) : bool := IsPushOnly_loop (length pc) pc.

Definition IsUnspendable (s : list Z) : bool :=
  ((0 <? zlen s) && (vget s 0 =? opcode_val OP_RETURN)) || (MAX_SCRIPT_SIZE <? zlen s).

(** The last element a push-only [scriptSig] leaves; [None] when the caller returns 0. *)
Fixpoint last_push_loop (fuel : nat) (pc vData : list Z) : option (list Z) :=
  match fuel with
  | O => Some vData
  | S fuel =>
      match pc with
      | [] => Some vData
      | _ =>
          match GetOp pc with
          | None => None
          | Some (pc, opcode, vData) =>
              if op_ltb OP_16 opcode then None else last_push_loop fuel pc vData
          end
      end
  end.

Definition GetSigOpCount_p2sh (script scriptSig : list Z) : Z :=
  if negb (IsPayToScriptHash script) then GetSigOpCount script true
  else match last_push_loop (length scriptSig) scriptSig [] with
       | None => 0
       | Some subscript => GetSigOpCount subscript true
       end.

(** * Properties *)

(** ** Decoding *)

Lemma opcode_val_of z : opcode_val (opcode_of z) = z.
Proof.
  unfold opcode_of. destruct (List.find _ _) as [op|] eqn:Hf; [|done].
  apply List.find_some in Hf as [_ H]. by apply Z.eqb_eq in H.
Qed.

Lemma zlen_app {A} (l k : list A) : zlen (l ++ k) = zlen l + zlen k.
Proof. unfold zlen. rewrite length_app. lia. Qed.

Lemma zlen_nonneg {A} (l : list A) : 0 <= zlen l.
Proof. unfold zlen. lia. Qed.

(** A successful read consumes a non-empty prefix of the script. *)
Lemma read_push_size_suffix opcode pc n pc' :
  read_push_size opcode pc = (n, pc') -> exists pre, pc = pre ++ pc'.
Proof.
  unfold read_push_size. intros H.
  repeat case_bool; simplify_eq;
    try (by exists []); eexists (take _ _); symmetry; apply take_drop.
Qed.

Lemma GetOp_inv pc pc' op v :
  GetOp pc = Some (pc', op, v) ->
  exists b pre, pc = b :: pre ++ v ++ pc' /\ op = opcode_of b /\
    (b <= 0x4e \/ (v = [] /\ pre = [] /\ 0x4e < b)).
Proof.
  unfold GetOp, GetScriptOp. destruct pc as [|b pc]; [done|].
  destruct (b <=? opcode_val OP_PUSHDATA4) eqn:Hb; bprop; simpl in Hb.
  - destruct (read_push_size b pc) as [[n|] pc1] eqn:Hr; [|done].
    destruct (zlen pc1 <? n); [done|]. intros [= <- <- <-].
    apply read_push_size_suffix in Hr as [pre ->].
    exists b, pre. rewrite take_drop. auto.
  - intros [= <- <- <-]. exists b, []. split_and!; auto.
Qed.

Lemma GetOp_length pc pc' op v :
  GetOp pc = Some (pc', op, v) -> (length pc' < length pc)%nat.
Proof.
  intros (b & pre & -> & _)%GetOp_inv. simpl. rewrite !length_app. lia.
Qed.

Lemma GetOp_bytes_ok pc pc' op v :
  GetOp pc = Some (pc', op, v) -> bytes_ok pc -> bytes_ok pc' /\ bytes_ok v.
Proof.
  intros (b & pre & -> & _)%GetOp_inv H.
  apply Forall_cons in H as [_ H]. apply Forall_app in H as [_ H].
  apply Forall_app in H as [??]. done.
Qed.

Lemma GetOp_GetScriptOp pc pc' op v : GetOp pc = Some (pc', op, v) -> GetScriptOp pc = (true, pc', op, v).
Proof. unfold GetOp. by destruct (GetScriptOp pc) as [[[[] ?] ?] ?]; intros; simplify_eq. Qed.

(** ** Push round trip *)

Lemma GetOp_push b rest n pc :
  b <= opcode_val OP_PUSHDATA4 -> read_push_size b pc = (Some (zlen n), n ++ rest) ->
  GetOp (b :: pc) = Some (rest, opcode_of b, n).
Proof.
  intros Hb Hr. unfold GetOp, GetScriptOp. rewrite (proj2 (Z.leb_le _ _) Hb), Hr.
  pose proof (zlen_nonneg rest). rewrite zlen_app, (proj2 (Z.ltb_ge _ _)) by lia.
  unfold zlen. rewrite Nat2Z.id, take_app_length, drop_app_length. done.
Qed.

(** What [push_data] appends is one push instruction that reads back as the pushed bytes. *)
Lemma push_data_read b rest :
  zlen b < 2 ^ 32 ->
  exists op, GetOp (push_data [] b ++ rest) = Some (rest, op, b) /\
    op_leb op OP_PUSHDATA4 = true.
Proof.
  intros Hlen. pose proof (zlen_nonneg b). unfold push_data. rewrite !app_nil_l.
  unfold op_leb. simpl opcode_val.
  assert (Hr : forall k (x : list Z), k <= zlen x -> (zlen (x ++ b ++ rest) <? k) = false).
  { intros k x Hk. apply Z.ltb_ge. unfold zlen in *. rewrite length_app. lia. }
  repeat case_bool; bprop; rewrite <- ?app_assoc; cbn [app]; eexists;
    (split; [eapply GetOp_push; [simpl; try lia|]|rewrite opcode_val_of; simpl; try done]).
  - unfold u8. rewrite Z.mod_small; lia.
  - unfold read_push_size, u8. rewrite Z.mod_small by lia. simpl opcode_val.
    by rewrite (proj2 (Z.ltb_lt (zlen b) 76)) by lia.
  - apply Z.leb_le. unfold u8. rewrite Z.mod_small; lia.
  - unfold read_push_size. simpl.
    rewrite (proj2 (Z.ltb_ge (zlen (_ :: _)) 1)) by (unfold zlen; simpl; lia).
    unfold vget, u8. simpl. by rewrite Z.mod_small by lia.
  - unfold read_push_size. cbn [opcode_val Z.ltb Z.eqb Z.compare Pos.compare Pos.compare_cont Pos.eqb].
    rewrite (Hr 2 (WriteLE16 (zlen b))) by (unfold zlen, WriteLE16; rewrite le_bytes_length; lia).
    unfold ReadLE16, WriteLE16. rewrite take_le_bytes, drop_le_bytes, le_val_bytes.
    by rewrite Z.mod_small by lia.
  - unfold read_push_size. cbn [opcode_val Z.ltb Z.eqb Z.compare Pos.compare Pos.compare_cont Pos.eqb].
    rewrite (Hr 4 (WriteLE32 (zlen b))) by (unfold zlen, WriteLE32; rewrite le_bytes_length; lia).
    unfold ReadLE32, WriteLE32. rewrite take_le_bytes, drop_le_bytes, le_val_bytes.
    by rewrite Z.mod_small by lia.
Qed.

(** ** CScriptNum

    The value of a byte vector is read sign-magnitude: the top bit of the last byte is the sign. *)

Lemma set_vch_loop_val v i r :
  0 <= i -> 0 <= r < 2 ^ (8 * i) -> bytes_ok v ->
  set_vch_loop i r v = r + 2 ^ (8 * i) * le_val v.
Proof.
  revert i r; induction v as [|b v IH]; intros i r Hi Hr Hv; simpl; [lia|].
  apply Forall_cons in Hv as [Hb Hv]. unfold is_byte in Hb.
  rewrite lor_shiftl_add by lia.
  assert (E : 2 ^ (8 * (i + 1)) = 2 ^ (8 * i) * 256).
  { replace (8 * (i + 1)) with (8 * i + 8) by lia. by rewrite Z.pow_add_r by lia. }
  rewrite IH; [rewrite E; ring|lia| |done]. rewrite E. nia.
Qed.

Lemma flag_0x80 b : is_byte b -> flag b 0x80 = (128 <=? b).
Proof.
  intros Hb. apply eqb_prop.
  exact (byte_check (fun b => Bool.eqb (flag b 0x80) (128 <=? b)) eq_refl b Hb).
Qed.

Lemma land_0x7f b : is_byte b -> Z.land b 0x7f = if b <? 128 then b else b - 128.
Proof.
  intros Hb. apply Z.eqb_eq.
  exact (byte_check (fun b => Z.land b 0x7f =? if b <? 128 then b else b - 128) eq_refl b Hb).
Qed.

Lemma back_snoc w b : back (w ++ [b]) = b.
Proof. unfold back. by rewrite last_snoc. Qed.

Lemma alter_back_snoc f w b : alter_back f (w ++ [b]) = w ++ [f b].
Proof.
  unfold alter_back. rewrite length_app, Nat.add_1_r. simpl pred.
  rewrite alter_app_r_alt by lia. rewrite Nat.sub_diag. done.
Qed.

Lemma zlen_snoc {A} (w : list A) b : zlen (w ++ [b]) = zlen w + 1.
Proof. rewrite zlen_app. done. Qed.

(** The magnitude a vector [w ++ [b]] denotes. *)
Definition magnitude (w : list Z) (b : Z) : Z := le_val w + 256 ^ zlen w * Z.land b 0x7f.

Lemma set_vch_snoc w b :
  bytes_ok w -> is_byte b ->
  set_vch (w ++ [b]) = if 128 <=? b then - magnitude w b else magnitude w b.
Proof.
  intros Hw Hb. unfold set_vch. destruct (w ++ [b]) as [|x l] eqn:E; [by destruct w|].
  rewrite <- E. clear E x l. rewrite back_snoc, flag_0x80, zlen_snoc by done.
  assert (Hwb : bytes_ok (w ++ [b])) by (by apply bytes_ok_snoc).
  rewrite set_vch_loop_val by (done || simpl; lia). rewrite le_val_app. simpl le_val.
  fold (zlen w). rewrite Z.mul_0_r, Z.pow_0_r, Z.add_0_l, Z.mul_1_l, Z.mul_0_r, Z.add_0_r.
  unfold magnitude. rewrite land_0x7f by done. unfold is_byte in Hb.
  destruct (128 <=? b) eqn:Hs; bprop; [|by rewrite (proj2 (Z.ltb_lt b 128)) by lia].
  rewrite (proj2 (Z.ltb_ge b 128)) by lia. f_equal.
  pose proof (zlen_nonneg w). pose proof (le_val_bound w Hw) as Hb1. fold (zlen w) in Hb1.
  replace (zlen w + 1 - 1) with (zlen w) by lia.
  assert (E : Z.shiftl 0x80 (8 * zlen w) = 2 ^ (8 * zlen w + 7)).
  { rewrite Z.shiftl_mul_pow2, Z.pow_add_r by lia. change 0x80 with (2 ^ 7). lia. }
  assert (E2 : 256 ^ zlen w = 2 ^ (8 * zlen w)) by by rewrite Z.pow_mul_r by lia.
  rewrite E, ldiff_pow2; [rewrite Z.pow_add_r, <- E2 by lia; change (2 ^ 7) with 128; ring|lia|].
  apply Z.testbit_true; [lia|]. rewrite Z.pow_add_r, <- E2 by lia. change (2 ^ 7) with 128.
  rewrite <- (Z.div_unique (le_val w + 256 ^ zlen w * b) (256 ^ zlen w * 128) 1
    (le_val w + 256 ^ zlen w * (b - 128))); [done|left; nia|ring].
Qed.

Lemma magnitude_bound w b :
  bytes_ok w -> is_byte b -> 0 <= magnitude w b < 128 * 256 ^ zlen w.
Proof.
  intros Hw Hb. pose proof (le_val_bound w Hw) as H. fold (zlen w) in H.
  unfold magnitude. rewrite land_0x7f by done. unfold is_byte in Hb.
  assert (0 < 256 ^ zlen w) by (apply Z.pow_pos_nonneg; [lia|apply zlen_nonneg]).
  destruct (b <? 128) eqn:?; bprop; nia.
Qed.

Lemma serialize_abs_spec fuel x :
  0 <= x < 256 ^ Z.of_nat fuel ->
  le_val (serialize_abs fuel x) = x /\ bytes_ok (serialize_abs fuel x) /\
  (length (serialize_abs fuel x) <= fuel)%nat /\
  (x <> 0 -> exists w b, serialize_abs fuel x = w ++ [b] /\ 0 < b).
Proof.
  revert x; induction fuel as [|fuel IH]; intros x Hx.
  { simpl in *. split_and!; auto; lia. }
  simpl serialize_abs. destruct (Z.eqb_spec x 0) as [->|Hne].
  { split_and!; simpl; auto; lia. }
  rewrite land_255, shiftr_8. rewrite Nat2Z.inj_succ, Z.pow_succ_r in Hx by lia.
  pose proof (Z.mod_pos_bound x 256 ltac:(lia)) as Hm. pose proof (Z.div_mod x 256 ltac:(lia)) as Hd.
  assert (Hq : 0 <= x / 256 < 256 ^ Z.of_nat fuel).
  { split; [apply Z.div_pos; lia|]. apply Z.div_lt_upper_bound; lia. }
  destruct (IH _ Hq) as (Hv & Hok & Hlen & Hback). split_and!.
  - simpl. rewrite Hv. lia.
  - constructor; [unfold is_byte; lia|done].
  - simpl. lia.
  - intros _. destruct (Z.eq_dec (x / 256) 0) as [E|E].
    + exists [], (x mod 256). split; [|lia]. rewrite E. by destruct fuel.
    + destruct (Hback E) as (w & b & -> & Hb). by exists (x mod 256 :: w), b.
Qed.

Lemma set_bit7 b : is_byte b -> b < 128 -> Z.lor b 0x80 = b + 128.
Proof. intros Hb Hlt. apply (lor_shiftl_add b 1 7); unfold is_byte in Hb; simpl; lia. Qed.

(** The three shapes [serialize] can produce. *)
Lemma serialize_shape n :
  n <> 0 -> - 2 ^ 63 < n < 2 ^ 63 ->
  exists w b, bytes_ok w /\ is_byte b /\ 0 < b /\ le_val (w ++ [b]) = Z.abs n /\
    (length w <= 7)%nat /\
    CScriptNum_serialize n =
      if 128 <=? b then (w ++ [b]) ++ [if n <? 0 then 0x80 else 0]
      else w ++ [if n <? 0 then b + 128 else b].
Proof.
  intros Hn Hr. unfold CScriptNum_serialize. rewrite (proj2 (Z.eqb_neq n 0) Hn).
  replace (if n <? 0 then - n else n) with (Z.abs n) by (destruct (Z.ltb_spec n 0); lia).
  unfold u64. rewrite Z.mod_small by lia.
  destruct (serialize_abs_spec 8 (Z.abs n)) as (Hv & Hok & Hlen & Hback); [simpl; lia|].
  destruct Hback as (w & b & Heq & Hb); [lia|]. rewrite Heq in *.
  apply Forall_app in Hok as [Hw Hb1]. rewrite Forall_singleton in Hb1.
  exists w, b. rewrite length_app in Hlen. simpl in Hlen.
  refine (conj Hw (conj Hb1 (conj Hb (conj Hv (conj _ _))))); [lia|].
  rewrite back_snoc, flag_0x80, alter_back_snoc by done.
  destruct (128 <=? b) eqn:E; [done|]. bprop. destruct (n <? 0); [by rewrite set_bit7|done].
Qed.

Lemma set_vch_serialize n : - 2 ^ 63 < n < 2 ^ 63 -> set_vch (CScriptNum_serialize n) = n.
Proof.
  intros Hr. destruct (Z.eq_dec n 0) as [->|Hn]; [done|].
  destruct (serialize_shape n Hn Hr) as (w & b & Hw & Hb & Hb0 & Hv & _ & ->).
  rewrite le_val_app in Hv. simpl in Hv. fold (zlen w) in Hv. unfold is_byte in Hb.
  destruct (128 <=? b) eqn:E; bprop.
  - rewrite set_vch_snoc; [|by apply bytes_ok_snoc|by destruct (n <? 0)].
    unfold magnitude. rewrite le_val_app. simpl le_val. fold (zlen w).
    assert (Z.land (if n <? 0 then 0x80 else 0) 0x7f = 0) as -> by by destruct (n <? 0).
    destruct (Z.ltb_spec n 0); cbn [Z.leb Z.compare Pos.compare Pos.compare_cont]; lia.
  - rewrite set_vch_snoc; [|done|unfold is_byte; destruct (n <? 0); lia].
    unfold magnitude.
    rewrite land_0x7f by (unfold is_byte; destruct (n <? 0); lia).
    destruct (Z.ltb_spec n 0).
    + rewrite (proj2 (Z.leb_le 128 (b + 128))), (proj2 (Z.ltb_ge (b + 128) 128)) by lia.
      replace (b + 128 - 128) with b by lia. lia.
    + rewrite (proj2 (Z.leb_gt 128 b)), (proj2 (Z.ltb_lt b 128)) by lia. lia.
Qed.

(** ** Minimal encodings *)

Lemma IsMinimallyEncoded_snoc w b k :
  bytes_ok w -> is_byte b -> zlen w + 1 <= k ->
  IsMinimallyEncoded (w ++ [b]) k = negb (Z.land b 0x7f =? 0) || (128 <=? back w).
Proof.
  intros Hw Hb Hk. unfold IsMinimallyEncoded. rewrite zlen_snoc, back_snoc.
  pose proof (zlen_nonneg w).
  rewrite (proj2 (Z.ltb_ge k _)), (proj2 (Z.ltb_lt 0 _)) by lia.
  destruct (Z.land b 0x7f =? 0) eqn:E; simpl; [|done].
  destruct (Z.leb_spec (zlen w + 1) 1) as [H0|H0]; simpl.
  - destruct w; [done|]. unfold zlen in H0. simpl in H0. lia.
  - destruct (last_is_Some w) as [_ [c Hc]]; [intros ->; done|].
    apply last_Some in Hc as [w' ->]. rewrite back_snoc.
    apply Forall_app in Hw as [_ Hc]. rewrite Forall_singleton in Hc.
    replace (vget _ _) with c; [rewrite <- flag_0x80 by done; unfold flag; by destruct (_ =? 0)|].
    unfold vget. rewrite !length_app. simpl. rewrite <- app_assoc.
    rewrite lookup_app_r by lia. by replace (length w' + 1 + 1 - 2 - length w')%nat with 0%nat by lia.
Qed.

Lemma serialize_minimal n k :
  - 2 ^ 63 < n < 2 ^ 63 -> zlen (CScriptNum_serialize n) <= k ->
  IsMinimallyEncoded (CScriptNum_serialize n) k = true.
Proof.
  intros Hr Hk. destruct (Z.eq_dec n 0) as [->|Hn].
  { change (0 <= k) in Hk. change ((if k <? 0 then false else true) = true).
    by rewrite (proj2 (Z.ltb_ge k 0)) by lia. }
  destruct (serialize_shape n Hn Hr) as (w & b & Hw & Hb & Hb0 & Hv & _ & E). rewrite E in *.
  destruct (128 <=? b) eqn:E1; rewrite zlen_snoc in Hk.
  - rewrite IsMinimallyEncoded_snoc; [|by apply bytes_ok_snoc|by destruct (n <? 0)|lia].
    rewrite back_snoc, E1. apply orb_true_r.
  - assert (Hb' : is_byte (if n <? 0 then b + 128 else b)) by (unfold is_byte in *; bprop; destruct (n <? 0); lia).
    rewrite IsMinimallyEncoded_snoc by (done || lia). rewrite land_0x7f by done. bprop.
    apply orb_true_iff. left. apply negb_true_iff, Z.eqb_neq.
    destruct (n <? 0); case_bool; bprop; lia.
Qed.

(** A vector is minimal when [IsMinimallyEncoded] accepts it at its own length. *)
Definition minimal (v : list Z) : Prop := IsMinimallyEncoded v (zlen v) = true.

Lemma minimal_magnitude w b :
  bytes_ok w -> is_byte b -> minimal (w ++ [b]) -> 256 ^ zlen w <= 2 * magnitude w b.
Proof.
  intros Hw Hb Hm. unfold minimal in Hm.
  rewrite IsMinimallyEncoded_snoc in Hm by (done || rewrite zlen_snoc; lia).
  pose proof (le_val_bound w Hw) as Hbd. fold (zlen w) in Hbd. unfold magnitude.
  assert (0 < 256 ^ zlen w) by lia.
  assert (0 <= Z.land b 0x7f) by (apply Z.land_nonneg; right; lia).
  apply orb_true_iff in Hm as [Hm|Hm]; bprop; [nia|].
  destruct (last w) as [c|] eqn:Hl; unfold back in Hm; rewrite Hl in Hm; simpl in Hm; [|lia].
  apply last_Some in Hl as [u ->]. rewrite le_val_app, zlen_snoc. simpl le_val. fold (zlen u).
  apply Forall_app in Hw as [Hu _]. pose proof (le_val_bound u Hu) as Hbu. fold (zlen u) in Hbu.
  pose proof (zlen_nonneg u). rewrite Z.pow_add_r, Z.pow_1_r by lia. nia.
Qed.

Lemma le_val_snoc_magnitude w b :
  is_byte b ->
  le_val (w ++ [b]) = magnitude w b + if 128 <=? b then 128 * 256 ^ zlen w else 0.
Proof.
  intros Hb. rewrite le_val_app. simpl le_val. fold (zlen w). unfold magnitude.
  rewrite land_0x7f by done. destruct (Z.leb_spec 128 b).
  - rewrite (proj2 (Z.ltb_ge b 128)) by lia. ring.
  - rewrite (proj2 (Z.ltb_lt b 128)) by lia. ring.
Qed.

Lemma vector_snoc_inv (v : list Z) :
  bytes_ok v -> v = [] \/ exists w b, v = w ++ [b] /\ bytes_ok w /\ is_byte b.
Proof.
  intros Hv. destruct (last v) as [b|] eqn:Hl; [right|left; by apply last_None].
  apply last_Some in Hl as [w ->]. apply Forall_app in Hv as [Hw Hb].
  rewrite Forall_singleton in Hb. eauto.
Qed.

Lemma minimal_nonzero w b :
  bytes_ok w -> is_byte b -> minimal (w ++ [b]) -> set_vch (w ++ [b]) <> 0.
Proof.
  intros Hw Hb Hm. pose proof (minimal_magnitude w b Hw Hb Hm).
  assert (0 < 256 ^ zlen w) by (apply Z.pow_pos_nonneg; [lia|apply zlen_nonneg]).
  rewrite set_vch_snoc by done. case_bool; lia.
Qed.

(** No two minimal vectors denote the same number. *)
Lemma minimal_inj v1 v2 :
  bytes_ok v1 -> bytes_ok v2 -> minimal v1 -> minimal v2 -> set_vch v1 = set_vch v2 -> v1 = v2.
Proof.
  intros H1 H2 Hm1 Hm2 He.
  destruct (vector_snoc_inv v1 H1) as [->|(w1 & b1 & -> & Hw1 & Hb1)];
  destruct (vector_snoc_inv v2 H2) as [->|(w2 & b2 & -> & Hw2 & Hb2)]; [done|..].
  - symmetry in He. by apply minimal_nonzero in He.
  - by apply minimal_nonzero in He.
  - pose proof (minimal_magnitude w1 b1 Hw1 Hb1 Hm1) as G1.
    pose proof (minimal_magnitude w2 b2 Hw2 Hb2 Hm2) as G2.
    pose proof (magnitude_bound w1 b1 Hw1 Hb1) as K1. pose proof (magnitude_bound w2 b2 Hw2 Hb2) as K2.
    pose proof (zlen_nonneg w1) as N1. pose proof (zlen_nonneg w2) as N2.
    rewrite !set_vch_snoc in He by done.
    assert (Hsz : forall a b, 0 <= a -> a < b -> 256 * 256 ^ a <= 256 ^ b).
    { intros a b Ha Hab. rewrite <- Z.pow_succ_r by lia. apply Z.pow_le_mono_r; lia. }
    assert (Hmag : magnitude w1 b1 = magnitude w2 b2 /\ (128 <=? b1) = (128 <=? b2)).
    { assert (0 < 256 ^ zlen w1) by (apply Z.pow_pos_nonneg; lia).
      assert (0 < 256 ^ zlen w2) by (apply Z.pow_pos_nonneg; lia).
      destruct (128 <=? b1), (128 <=? b2); split; try done; lia. }
    destruct Hmag as [Hmag Hs].
    assert (Hl : zlen w1 = zlen w2).
    { destruct (Z.lt_trichotomy (zlen w1) (zlen w2)) as [L|[L|L]]; [|done|].
      - specialize (Hsz _ _ N1 L). lia.
      - specialize (Hsz _ _ N2 L). lia. }
    apply le_val_inj; [done|done|unfold zlen in Hl; rewrite !length_app; simpl; lia|].
    rewrite !le_val_snoc_magnitude, Hmag, Hs, Hl by done. done.
Qed.

Lemma set_vch_bound v : bytes_ok v -> v <> [] -> Z.abs (set_vch v) < 128 * 256 ^ (zlen v - 1).
Proof.
  intros Hv Hne. destruct (vector_snoc_inv v Hv) as [->|(w & b & -> & Hw & Hb)]; [done|].
  rewrite set_vch_snoc, zlen_snoc, Z.add_simpl_r by done.
  pose proof (magnitude_bound w b Hw Hb). case_bool; lia.
Qed.

Lemma set_vch_range v k : bytes_ok v -> zlen v <= k -> 1 <= k -> Z.abs (set_vch v) < 128 * 256 ^ (k - 1).
Proof.
  intros Hv Hl Hk. assert (0 < 256 ^ (k - 1)) by (apply Z.pow_pos_nonneg; lia).
  destruct (decide (v = [])) as [->|Hne]; [simpl; lia|].
  pose proof (set_vch_bound v Hv Hne).
  assert (256 ^ (zlen v - 1) <= 256 ^ (k - 1)) by (apply Z.pow_le_mono_r; lia). lia.
Qed.

Lemma CScriptNum_serialize_ok n : - 2 ^ 63 < n < 2 ^ 63 -> bytes_ok (CScriptNum_serialize n).
Proof.
  intros Hr. destruct (Z.eq_dec n 0) as [->|Hn]; [constructor|].
  destruct (serialize_shape n Hn Hr) as (w & b & Hw & Hb & Hb0 & _ & _ & ->).
  unfold is_byte in Hb. destruct (128 <=? b) eqn:E; bprop;
    rewrite !Forall_app, !Forall_singleton; unfold is_byte; destruct (n <? 0); split_and!; try done; lia.
Qed.

Lemma serialize_set_vch v :
  bytes_ok v -> zlen v <= 8 -> minimal v -> CScriptNum_serialize (set_vch v) = v.
Proof.
  intros Hv Hl Hm. pose proof (set_vch_range v 8 Hv Hl ltac:(lia)) as Hr. simpl in Hr.
  apply minimal_inj; [apply CScriptNum_serialize_ok; lia|done|apply serialize_minimal; lia|done|].
  apply set_vch_serialize. lia.
Qed.

Lemma le_val_zeros n l : le_val (replicate n 0 ++ l) = 256 ^ Z.of_nat n * le_val l.
Proof.
  induction n as [|n IH]; [simpl replicate; rewrite Z.pow_0_r, Z.mul_1_l; done|].
  rewrite Nat2Z.inj_succ, Z.pow_succ_r by lia. simpl. rewrite IH. ring.
Qed.

(** Value of [w] with the sign byte [s], which is 0x00 or 0x80, appended. *)
Lemma set_vch_sign w s :
  bytes_ok w -> s = 0 \/ s = 128 -> set_vch (w ++ [s]) = if s =? 128 then - le_val w else le_val w.
Proof.
  intros Hw Hs. rewrite set_vch_snoc; [|done|destruct Hs as [->| ->]; unfold is_byte; lia].
  unfold magnitude. assert (Z.land s 0x7f = 0) as -> by by destruct Hs as [->| ->].
  rewrite Z.mul_0_r, Z.add_0_r. by destruct Hs as [->| ->].
Qed.

Lemma MinimallyEncode_loop_spec w n s :
  bytes_ok w -> s = 0 \/ s = 128 ->
  let r := MinimallyEncode_loop (w ++ replicate n 0 ++ [s]) s (length w) in
  bytes_ok r /\ minimal r /\ set_vch r = set_vch (w ++ [s]) /\ zlen r <= zlen w + 1.
Proof.
  revert n. induction w as [|c u IH] using rev_ind; intros n Hw Hs.
  { simpl. unfold zlen. simpl. split_and!; [constructor|done| |lia].
    by destruct Hs as [->| ->]. }
  apply Forall_app in Hw as [Hu Hc]. rewrite Forall_singleton in Hc.
  rewrite length_app, Nat.add_1_r. cbn [MinimallyEncode_loop].
  assert (Hget : vget ((u ++ [c]) ++ replicate n 0 ++ [s]) (length u) = c).
  { unfold vget. rewrite <- app_assoc, lookup_app_r, Nat.sub_diag by lia. done. }
  rewrite Hget. destruct (Z.eqb_spec c 0) as [->|Hne]; cbn [negb].
  { rewrite <- app_assoc. change ([0] ++ replicate n 0 ++ [s]) with (replicate (S n) 0 ++ [s]).
    destruct (IH (S n) Hu Hs) as (H1 & H2 & H3 & H4). split_and!; [done|done| |rewrite zlen_snoc; lia].
    rewrite H3, !set_vch_sign by (done || by apply bytes_ok_snoc).
    rewrite le_val_app. simpl. by rewrite Z.mul_0_r, Z.add_0_r. }
  rewrite flag_0x80 by done. unfold is_byte in Hc. destruct (Z.leb_spec 128 c) as [Hge|Hlt].
  - assert (Hr : take (S (S (length u))) (<[S (length u):=s]> ((u ++ [c]) ++ replicate n 0 ++ [s])) = (u ++ [c]) ++ [s]).
    { rewrite insert_app_r_alt by (rewrite length_app; simpl; lia).
      rewrite length_app, Nat.add_1_r, Nat.sub_diag.
      replace (S (S (length u))) with (length (u ++ [c]) + 1)%nat by (rewrite length_app; simpl; lia).
      rewrite take_app_add. by destruct n. }
    rewrite Hr. assert (is_byte s) by (destruct Hs as [->| ->]; unfold is_byte; lia).
    assert (bytes_ok (u ++ [c])) by (by apply bytes_ok_snoc).
    split_and!; [by apply bytes_ok_snoc| |done|rewrite !zlen_snoc; lia].
    unfold minimal. rewrite IsMinimallyEncoded_snoc by (done || rewrite !zlen_snoc; lia).
    rewrite back_snoc, (proj2 (Z.leb_le 128 c)) by lia. apply orb_true_r.
  - assert (Hr : take (S (length u)) (<[length u:=Z.lor c s]> ((u ++ [c]) ++ replicate n 0 ++ [s])) = u ++ [c + s]).
    { rewrite <- app_assoc, insert_app_r_alt, Nat.sub_diag by lia.
      replace (S (length u)) with (length u + 1)%nat by lia. rewrite take_app_add. simpl. do 2 f_equal.
      destruct Hs as [->| ->]; [rewrite Z.lor_0_r; lia|by apply set_bit7]. }
    rewrite Hr. assert (Hcs : is_byte (c + s)) by (destruct Hs as [->| ->]; unfold is_byte; lia).
    assert (Hland : Z.land (c + s) 0x7f = c).
    { rewrite land_0x7f by done. destruct Hs as [->| ->]; case_bool; bprop; lia. }
    split_and!; [by apply bytes_ok_snoc| | |rewrite !zlen_snoc; lia].
    + unfold minimal. rewrite IsMinimallyEncoded_snoc by (done || rewrite !zlen_snoc; lia).
      by rewrite Hland, (proj2 (Z.eqb_neq c 0)).
    + rewrite (set_vch_sign (u ++ [c]) s) by auto using bytes_ok_snoc.
      rewrite set_vch_snoc by done. unfold magnitude. rewrite Hland, le_val_app. simpl le_val.
      fold (zlen u). destruct Hs as [->| ->]; simpl Z.eqb; case_bool; bprop; lia.
Qed.

Lemma flag_0x7f b : is_byte b -> flag b 0x7f = negb ((b =? 0) || (b =? 128)).
Proof.
  intros Hb. apply eqb_prop.
  exact (byte_check (fun b => Bool.eqb (flag b 0x7f) (negb ((b =? 0) || (b =? 128)))) eq_refl b Hb).
Qed.

Lemma MinimallyEncode_correct data :
  bytes_ok data ->
  let r := snd (MinimallyEncode data) in
  bytes_ok r /\ minimal r /\ set_vch r = set_vch data /\ zlen r <= zlen data.
Proof.
  intros Hd. destruct (vector_snoc_inv data Hd) as [->|(w & s & -> & Hw & Hs)].
  { simpl. split_and!; try done. }
  unfold MinimallyEncode. rewrite zlen_snoc, back_snoc. pose proof (zlen_nonneg w) as Hz.
  rewrite (proj2 (Z.eqb_neq (zlen w + 1) 0)) by lia. rewrite flag_0x7f by done.
  assert (Hmin : forall P, P = true -> IsMinimallyEncoded (w ++ [s]) (zlen w + 1) = P -> minimal (w ++ [s])).
  { intros P -> HP. unfold minimal. by rewrite zlen_snoc. }
  rewrite (IsMinimallyEncoded_snoc w s (zlen w + 1)) in Hmin by (done || lia).
  destruct ((s =? 0) || (s =? 128)) eqn:Es; cbn [negb].
  2: { simpl. split_and!; [done| |done|rewrite ?zlen_snoc; lia]. eapply Hmin; [|done].
       rewrite land_0x7f by done. apply orb_false_iff in Es as [? ?]. bprop.
       unfold is_byte in Hs. apply orb_true_iff. left. apply negb_true_iff, Z.eqb_neq. case_bool; bprop; lia. }
  assert (Hs' : s = 0 \/ s = 128) by (apply orb_true_iff in Es as [?|?]; bprop; auto). clear Es.
  destruct (Z.eqb_spec (zlen w + 1) 1) as [Hz1|Hz1].
  { destruct w; [|unfold zlen in Hz1; simpl in Hz1; lia]. simpl. split_and!; [constructor|done| |].
    - by destruct Hs' as [->| ->].
    - unfold zlen; simpl; lia. }
  destruct (vector_snoc_inv w Hw) as [->|(u & c & -> & Hu & Hc)]; [done|].
  assert (Hget : vget ((u ++ [c]) ++ [s]) (length ((u ++ [c]) ++ [s]) - 2) = c).
  { unfold vget. rewrite <- app_assoc, lookup_app_r by (rewrite !length_app; simpl; lia).
    rewrite !length_app. simpl. by replace (length u + 2 - 2 - length u)%nat with 0%nat by lia. }
  rewrite Hget, flag_0x80 by done. destruct (128 <=? c) eqn:Ec.
  { simpl. split_and!; [done| |done|rewrite ?zlen_snoc; lia]. eapply Hmin; [|done]. rewrite back_snoc, Ec. apply orb_true_r. }
  simpl snd. replace (length _ - 1)%nat with (length (u ++ [c])) by (rewrite !length_app; simpl; lia).
  destruct (MinimallyEncode_loop_spec (u ++ [c]) 0 s Hw Hs') as (H1 & H2 & H3 & H4). auto.
Qed.

(** ** Push-only scripts *)

(** A script that is a sequence of complete push instructions (OP_RESERVED included). *)
Inductive PushOnly : list Z -> Prop :=
| PushOnly_nil : PushOnly []
| PushOnly_cons pc pc' op v :
    GetOp pc = Some (pc', op, v) -> op_leb op OP_16 = true -> PushOnly pc' -> PushOnly pc.

Lemma op_ltb_leb a b : op_ltb a b = negb (op_leb b a).
Proof. unfold op_ltb, op_leb. rewrite Z.leb_antisym. by rewrite negb_involutive. Qed.

Lemma IsPushOnly_loop_spec fuel pc :
  (length pc <= fuel)%nat -> IsPushOnly_loop fuel pc = true <-> PushOnly pc.
Proof.
  revert pc; induction fuel as [|fuel IH]; intros pc Hf.
  { destruct pc; [|simpl in Hf; lia]. split; [constructor|done]. }
  cbn [IsPushOnly_loop]. destruct pc as [|b pc]; [split; [constructor|done]|].
  destruct (GetOp (b :: pc)) as [[[pc' op] v]|] eqn:Hop.
  - apply GetOp_length in Hop as Hlen. rewrite op_ltb_leb.
    destruct (op_leb op OP_16) eqn:Ho; simpl.
    + rewrite IH by lia. split; [by eapply PushOnly_cons|]. intros H.
      inversion H as [|? ? ? ? Hop']; simplify_eq. done.
    + split; [done|]. intros H. inversion H as [|? ? ? ? Hop']; simplify_eq. congruence.
  - split; [done|]. intros H. inversion H; simplify_eq.
Qed.

Lemma IsPushOnly_PushOnly pc : IsPushOnly pc = true <-> PushOnly pc.
Proof. by apply IsPushOnly_loop_spec. Qed.

Lemma opcode_of_leb_16 b : op_leb (opcode_of b) OP_16 = (b <=? 0x60).
Proof. unfold op_leb. by rewrite opcode_val_of. Qed.

Lemma GetSigOpCount_loop_bound fuel acc pc op n :
  0 <= n -> n + 20 * zlen pc < 2 ^ 32 ->
  n <= GetSigOpCount_loop fuel acc pc op n <= n + 20 * zlen pc.
Proof.
  revert pc op n; induction fuel as [|fuel IH]; intros pc op n Hn Hb; cbn [GetSigOpCount_loop].
  { pose proof (zlen_nonneg pc). lia. }
  destruct (GetOp pc) as [[[pc' o] v]|] eqn:Hop; [|pose proof (zlen_nonneg pc); lia].
  apply GetOp_length in Hop.
  assert (Hl : zlen pc' + 1 <= zlen pc) by (unfold zlen; lia).
  assert (Hd : op_leb OP_1 op && op_leb op OP_16 = true -> 0 <= DecodeOP_N op <= 16).
  { intros [H1 H2]%andb_true_iff. unfold op_leb in *. bprop. simpl in *.
    unfold DecodeOP_N, op_eqb. simpl. case_bool; lia. }
  pose proof (zlen_nonneg pc').
  match goal with |- _ <= GetSigOpCount_loop _ _ _ _ ?m <= _ => assert (Hm : n <= m <= n + 20) end.
  { unfold u32, MAX_PUBKEYS_PER_MULTISIG. repeat case_bool; try (rewrite Z.mod_small; lia); [|lia].
    apply andb_true_iff in Heqb1 as [[_ H1]%andb_true_iff H2].
    rewrite H1, H2 in Hd. specialize (Hd eq_refl). rewrite Z.mod_small; lia. }
  match goal with |- _ <= GetSigOpCount_loop _ _ _ _ ?m <= _ => pose proof (IH pc' o m) end. lia.
Qed.

Lemma MinimallyEncode_changed data :
  fst (MinimallyEncode data) = negb (IsMinimallyEncoded data (zlen data)) /\
  (fst (MinimallyEncode data) = false -> snd (MinimallyEncode data) = data).
Proof.
  unfold MinimallyEncode, IsMinimallyEncoded. rewrite Z.ltb_irrefl. pose proof (zlen_nonneg data).
  destruct (Z.eqb_spec (zlen data) 0) as [->|Hz]; [done|].
  rewrite (proj2 (Z.ltb_lt 0 (zlen data))) by lia. unfold flag.
  destruct (Z.land (back data) 0x7f =? 0); simpl; [|done].
  destruct (Z.eqb_spec (zlen data) 1) as [->|H1]; [done|].
  rewrite (proj2 (Z.leb_gt (zlen data) 1)) by lia. simpl.
  by destruct (Z.land (vget data (length data - 2)) 0x80 =? 0).
Qed.

(** ** Main properties *)

(** A number read with minimal encoding required is exactly the byte vector [serialize] produces
    for it: reading is the inverse of writing, in both directions, for every size limit up to 8. *)
Theorem CScriptNum_codec v n k :
  bytes_ok v -> - 2 ^ 63 < n < 2 ^ 63 -> k <= 8 ->
  CScriptNum_of v true k = Some n <-> v = CScriptNum_serialize n /\ zlen v <= k.
Proof.
  intros Hv Hn Hk. unfold CScriptNum_of. split.
  - case_bool; [done|]. bprop. case_bool; [done|]. simpl in Heqb0. bprop. intros [= <-].
    split; [|done]. symmetry. apply serialize_set_vch; [done|lia|].
    unfold minimal, IsMinimallyEncoded in *. rewrite (proj2 (Z.ltb_ge k (zlen v))) in Heqb0 by lia.
    by rewrite Z.ltb_irrefl.
  - intros [-> Hl]. rewrite (proj2 (Z.ltb_ge _ _)) by lia.
    rewrite serialize_minimal, set_vch_serialize by lia. done.
Qed.

Lemma CScriptNum_codec_witness :
  CScriptNum_of [0xff; 0x80] true 4 = Some (-255) <->
  [0xff; 0x80] = CScriptNum_serialize (-255) /\ zlen [0xff; 0x80] <= 4.
Proof. apply CScriptNum_codec; [repeat constructor; lia|lia|lia]. Defined.

(** [MinimallyEncode] returns a minimally encoded vector of the same value, never a longer one;
    it reports a change exactly when the input was not minimal, and otherwise returns the input. *)
Theorem MinimallyEncode_sound data :
  bytes_ok data ->
  let '(changed, r) := MinimallyEncode data in
  bytes_ok r /\ IsMinimallyEncoded r (zlen r) = true /\ set_vch r = set_vch data /\
  zlen r <= zlen data /\ changed = negb (IsMinimallyEncoded data (zlen data)) /\
  (changed = false -> r = data).
Proof.
  intros Hd. pose proof (MinimallyEncode_correct data Hd) as (H1 & H2 & H3 & H4).
  pose proof (MinimallyEncode_changed data) as [H5 H6].
  by destruct (MinimallyEncode data).
Qed.

Lemma MinimallyEncode_sound_witness :
  snd (MinimallyEncode [5; 0; 0x80]) = [0x85] /\
  set_vch [0x85] = set_vch [5; 0; 0x80] /\
  (let '(changed, r) := MinimallyEncode [5; 0; 0x80] in
   bytes_ok r /\ IsMinimallyEncoded r (zlen r) = true /\ set_vch r = set_vch [5; 0; 0x80] /\
   zlen r <= zlen [5; 0; 0x80] /\
   changed = negb (IsMinimallyEncoded [5; 0; 0x80] (zlen [5; 0; 0x80])) /\
   (changed = false -> r = [5; 0; 0x80])).
Proof.
  split; [reflexivity|split; [reflexivity|]].
  apply (MinimallyEncode_sound [5; 0; 0x80]). repeat constructor; lia.
Defined.

(** What [operator<<] writes for a byte vector, [GetOp] reads back: the same data, with a push
    opcode, and the iterator right behind it. *)
Theorem push_then_GetOp b rest :
  zlen b < 2 ^ 32 ->
  exists op, GetOp (push_data [] b ++ rest) = Some (rest, op, b) /\ op_leb op OP_PUSHDATA4 = true.
Proof. apply push_data_read. Qed.

Lemma push_then_GetOp_witness :
  exists op, GetOp (push_data [] (replicate 300 7) ++ [0xac]) = Some ([0xac], op, replicate 300 7) /\
    op_leb op OP_PUSHDATA4 = true.
Proof. apply push_then_GetOp. vm_compute. reflexivity. Defined.

(** [IsPushOnly] accepts exactly the scripts that parse, to the end, into push operations. *)
Theorem IsPushOnly_iff pc : IsPushOnly pc = true <-> PushOnly pc.
Proof. apply IsPushOnly_PushOnly. Qed.

(** A script of [n] bytes counts at most [20 n] signature operations, so the 32-bit counter of
    [GetSigOpCount] does not wrap for any script below 2^32 / 20 bytes. *)
Theorem GetSigOpCount_bound script fAccurate :
  20 * zlen script < 2 ^ 32 -> 0 <= GetSigOpCount script fAccurate <= 20 * zlen script.
Proof.
  intros H. unfold GetSigOpCount.
  apply (GetSigOpCount_loop_bound (length script) fAccurate script OP_INVALIDOPCODE 0); lia.
Qed.

Lemma GetSigOpCount_bound_witness : 0 <= GetSigOpCount [0x52; 0xae; 0xac] true <= 60.
Proof. apply (GetSigOpCount_bound [0x52; 0xae; 0xac] true). reflexivity. Defined.
