(* ===== verification/Crypto.v ===== *)
(** * The cryptographic primitives the core calls, and public keys

    The digests and the secp256k1 operations are an interface: [CryptoOps] lists them and
    [CryptoLaws] what the callers rely on (the output sizes OUTPUT_SIZE of the hash classes).  Models
    of src/src/hash.h and the byte-level part of src/src/pubkey.h are built on the interface. *)

From stdpp Require Import base list numbers.
From S2P Require Import Prelude Script.

Open Scope Z_scope.

Class CryptoOps : Type := {
  sha256 : list Z -> list Z;
  ripemd160 : list Z -> list Z;
  sha1 : list Z -> list Z;
  (** [scrypt_1024_1_1_256] of an 80-byte header. *)
  scrypt : list Z -> list Z;
  (** Parse the key, parse the signature with lax DER, normalise it, verify: key, hash, signature. *)
  secp256k1_verify : list Z -> list Z -> list Z -> bool;
  (** The signature parses and is already normalised. *)
  secp256k1_low_s : list Z -> bool;
  (** The key is a point of the curve. *)
  secp256k1_pubkey_parse : list Z -> bool;
  (** The uncompressed form of a key that parses. *)
  secp256k1_pubkey_uncompress : list Z -> list Z
}.

Class CryptoLaws (crypto : CryptoOps) : Prop := {
  sha256_size v : length (sha256 v) = 32%nat;
  sha256_bytes v : bytes_ok (sha256 v);
  ripemd160_size v : length (ripemd160 v) = 20%nat;
  ripemd160_bytes v : bytes_ok (ripemd160 v);
  sha1_size v : length (sha1 v) = 20%nat;
  sha1_bytes v : bytes_ok (sha1 v);
  (** A point is given by its first coordinate and the parity of the second one: the compressed form
      of an uncompressed key parses, and its uncompressed form is the key. *)
  secp256k1_compressed x y :
    length x = 32%nat -> length y = 32%nat -> secp256k1_pubkey_parse (4 :: x ++ y) = true ->
    let compressed := Z.lor 2 (Z.land (vget y 31) 1) :: x in
    secp256k1_pubkey_parse compressed = true /\
    secp256k1_pubkey_uncompress compressed = 4 :: x ++ y
}.

Section crypto.
Context {crypto : CryptoOps}.

(** CHash256 and CHash160 over one buffer, and [Hash(begin, end)]. *)
Definition CHash256 (v : list Z) : list Z := sha256 (sha256 v).
Definition CHash160 (v : list Z) : list Z := ripemd160 (sha256 v).
Definition Hash (v : list Z) : list Z := CHash256 v.

(** ** CPubKey: the key is the byte range [begin(), end()), empty when the key is invalid *)

Definition PubKey_SIZE : Z := 65.
Definition PubKey_COMPRESSED_SIZE : Z := 33.

Definition PubKey_GetLen (chHeader : Z) : Z :=
  if (chHeader =? 2) || (chHeader =? 3) then PubKey_COMPRESSED_SIZE
  else if (chHeader =? 4) || (chHeader =? 6) || (chHeader =? 7) then PubKey_SIZE
  else 0.

Definition PubKey_ValidSize (vch : list Z) : bool :=
  (0 <? zlen vch) && (PubKey_GetLen (vget vch 0) =? zlen vch).

(** [CPubKey(vch)], through [Set]. *)
Definition CPubKey (vch : list Z) : list Z :=
  let len := match vch with [] => 0 | b :: _ => PubKey_GetLen b end in
  if negb (len =? 0) && (len =? zlen vch) then vch else [].

Definition PubKey_IsValid (pubkey : list Z) : bool := 0 <? zlen pubkey.

Definition PubKey_GetID (pubkey : list Z) : list Z := CHash160 pubkey.

Definition PubKey_Verify (pubkey hash vchSig : list Z) : bool :=
  if negb (PubKey_IsValid pubkey) then false else secp256k1_verify pubkey hash vchSig.

Definition PubKey_IsFullyValid (pubkey : list Z) : bool :=
  if negb (PubKey_IsValid pubkey) then false else secp256k1_pubkey_parse pubkey.

(** [None]: the key is unchanged and [false] is returned. *)
Definition PubKey_Decompress (pubkey : list Z) : option (list Z) :=
  if negb (PubKey_IsValid pubkey) then None
  else if negb (secp256k1_pubkey_parse pubkey) then None
  else Some (CPubKey (secp256k1_pubkey_uncompress pubkey)).

Definition PubKey_CheckLowS (vchSig : list Z) : bool := secp256k1_low_s vchSig.

End crypto.

Lemma CPubKey_valid vch : PubKey_ValidSize vch = true <-> PubKey_IsValid (CPubKey vch) = true.
Proof.
  unfold PubKey_ValidSize, PubKey_IsValid, CPubKey.
  destruct vch as [|b vch]; [done|]. change (vget (b :: vch) 0) with b.
  assert (Hz : 0 < zlen (b :: vch)) by (unfold zlen; simpl; lia).
  rewrite (proj2 (Z.ltb_lt 0 (zlen (b :: vch))) Hz). simpl andb.
  destruct (Z.eqb_spec (PubKey_GetLen b) (zlen (b :: vch))) as [->|];
    rewrite ?andb_false_r; [|done].
  rewrite (proj2 (Z.eqb_neq (zlen (b :: vch)) 0)) by lia. simpl.
  by rewrite (proj2 (Z.ltb_lt 0 (zlen (b :: vch))) Hz).
Qed.

Lemma CPubKey_valid_id vch : PubKey_ValidSize vch = true -> CPubKey vch = vch.
Proof.
  unfold PubKey_ValidSize, CPubKey. destruct vch as [|b vch]; [done|].
  change (vget (b :: vch) 0) with b. intros [Hz He]%andb_true_iff. rewrite He. bprop.
  by rewrite (proj2 (Z.eqb_neq _ 0)) by lia.
Qed.

(** ** A model of the interface

    Digests that repeat the sum of the bytes: not a hash function, but an instance of the laws, on
    which the interpreter can be evaluated. *)
Definition sum_digest (n : nat) (v : list Z) : list Z := replicate n (foldr Z.add 0 v mod 256).

(** Keys whose second coordinate is its parity. *)
Definition sum_crypto : CryptoOps :=
  {| sha256 := sum_digest 32; ripemd160 := sum_digest 20; sha1 := sum_digest 20; scrypt := sum_digest 32;
     secp256k1_verify := fun pubkey hash sig => bool_decide (sum_digest 20 pubkey = sum_digest 20 sig);
     secp256k1_low_s := fun _ => true;
     secp256k1_pubkey_parse := fun k =>
       (length k =? 33)%nat ||
       bool_decide (drop 33 k = replicate 31 0 ++ [0]) || bool_decide (drop 33 k = replicate 31 0 ++ [1]);
     secp256k1_pubkey_uncompress := fun k => 4 :: drop 1 k ++ replicate 31 0 ++ [vget k 0 - 2] |}.

Lemma sum_digest_bytes n v : bytes_ok (sum_digest n v).
Proof. apply Forall_replicate. apply Z.mod_pos_bound. lia. Qed.

#[export] Instance sum_crypto_laws : CryptoLaws sum_crypto.
Proof.
  constructor; try (intros v; try apply sum_digest_bytes; apply length_replicate).
  intros x y Hx Hy Hp. cbn [sum_crypto secp256k1_pubkey_parse secp256k1_pubkey_uncompress] in *.
  change (drop 33 (4 :: x ++ y)) with (drop 32 (x ++ y)) in Hp.
  rewrite drop_app_length' in Hp by done. simpl length in Hp. rewrite length_app, Hx, Hy in Hp.
  split; [simpl; by rewrite Hx|]. simpl orb in Hp.
  apply orb_true_iff in Hp as [->%bool_decide_eq_true| ->%bool_decide_eq_true]; done.
Qed.
