(* ===== verification/Standard.v ===== *)
(** * Standard scripts and destinations

    Model of src/src/script/standard.cpp: recognising the standard output scripts, the destinations
    they pay to, and the scripts that are built for destinations.  The Solver recognises the scripts
    the builders make and returns the data they were built from, and what it returns always has the
    shape its callers index into without a check. *)

From stdpp Require Import base list numbers.
From S2P Require Import Prelude Script Crypto.

Open Scope Z_scope.

Inductive txnouttype : Type :=
| TX_NONSTANDARD | TX_PUBKEY | TX_PUBKEYHASH | TX_SCRIPTHASH | TX_MULTISIG | TX_NULL_DATA.

#[export] Instance txnouttype_eq_dec : EqDecision txnouttype.
Proof. solve_decision. Defined.

(** [boost::variant<CNoDestination, CKeyID, CScriptID>] *)
Inductive CTxDestination : Type :=
| CNoDestination
| CKeyID (id : list Z)
| CScriptID (id : list Z).

#[export] Instance CTxDestination_eq_dec : EqDecision CTxDestination.
Proof. solve_decision. Defined.

(** ** Matching *)

(** The elements from [i] up to [j]. *)
Definition slice {A : Type} (i j : nat) (s : list A) : list A := take (j - i) (drop i s).

Definition MatchPayToPubkey (script : list Z) : option (list Z) :=
  if (zlen script =? PubKey_SIZE + 2) && (vget script 0 =? PubKey_SIZE) && (back script =? opcode_val OP_CHECKSIG) then
    let pubkey := slice 1 66 script in
    if PubKey_ValidSize pubkey then Some pubkey else None
  else if (zlen script =? PubKey_COMPRESSED_SIZE + 2) && (vget script 0 =? PubKey_COMPRESSED_SIZE) &&
      (back script =? opcode_val OP_CHECKSIG) then
    let pubkey := slice 1 34 script in
    if PubKey_ValidSize pubkey then Some pubkey else None
  else None.

Definition MatchPayToPubkeyHash (script : list Z) : option (list Z) :=
  if (zlen script =? 25) && (vget script 0 =? opcode_val OP_DUP) && (vget script 1 =? opcode_val OP_HASH160) &&
     (vget script 2 =? 20) && (vget script 23 =? opcode_val OP_EQUALVERIFY) && (vget script 24 =? opcode_val OP_CHECKSIG)
  then Some (slice 3 23 script) else None.

Definition IsSmallInteger (opcode : opcodetype) : bool := op_leb OP_1 opcode && op_leb opcode OP_16.

(** [while (script.GetOp(it, opcode, data) && CPubKey::ValidSize(data))]: the keys, the opcode the loop
    stopped at and the iterator after it.  GetOp leaves OP_INVALIDOPCODE when it fails. *)
Fixpoint MatchMultisig_keys (fuel : nat) (it : list Z) (pubkeys : list (list Z)) : list (list Z) * opcodetype * list Z :=
  match fuel with
  | O => (pubkeys, OP_INVALIDOPCODE, it)
  | S fuel =>
      match GetScriptOp it with
      | (false, it, opcode, _) => (pubkeys, opcode, it)
      | (true, it, opcode, data) =>
          if PubKey_ValidSize data then MatchMultisig_keys fuel it (pubkeys ++ [data]) else (pubkeys, opcode, it)
      end
  end.

Definition MatchMultisig (script : list Z) : option (Z * list (list Z)) :=
  if (zlen script <? 1) || negb (back script =? opcode_val OP_CHECKMULTISIG) then None else
  match GetOp script with
  | None => None
  | Some (it, opcode, _) =>
      if negb (IsSmallInteger opcode) then None else
      let required := DecodeOP_N opcode in
      let '(pubkeys, opcode, it) := MatchMultisig_keys (S (length it)) it [] in
      if negb (IsSmallInteger opcode) then None else
      let keys := DecodeOP_N opcode in
      if negb (zlen pubkeys =? keys) || (keys <? required) then None else
      if zlen it =? 1 then Some (required, pubkeys) else None
  end.

Definition Solver (scriptPubKey : list Z) : txnouttype * list (list Z) :=
  if IsPayToScriptHash scriptPubKey then (TX_SCRIPTHASH, [slice 2 22 scriptPubKey]) else
  if (1 <=? zlen scriptPubKey) && (vget scriptPubKey 0 =? opcode_val OP_RETURN) && IsPushOnly (drop 1 scriptPubKey)
  then (TX_NULL_DATA, []) else
  match MatchPayToPubkey scriptPubKey with
  | Some data => (TX_PUBKEY, [data])
  | None =>
      match MatchPayToPubkeyHash scriptPubKey with
      | Some data => (TX_PUBKEYHASH, [data])
      | None =>
          match MatchMultisig scriptPubKey with
          | Some (required, keys) => (TX_MULTISIG, [u8 required] :: keys ++ [[u8 (zlen keys)]])
          | None => (TX_NONSTANDARD, [])
          end
      end
  end.

(** ** Destinations *)

(** [vSolutions[i]]; out of range is undefined behaviour. *)
Definition solution (vSolutions : list (list Z)) (i : nat) : res unit (list Z) :=
  match vSolutions !! i with Some v => Ok v | None => Abort end.

(** [uint160(vch)] asserts the size. *)
Definition uint160 (vch : list Z) : res unit (list Z) := if zlen vch =? 20 then Ok vch else Abort.

Section destination.
Context {crypto : CryptoOps}.

(** [Ok None]: the function returns false. *)
Definition ExtractDestination (scriptPubKey : list Z) : res unit (option CTxDestination) :=
  let '(whichType, vSolutions) := Solver scriptPubKey in
  match whichType with
  | TX_PUBKEY =>
      v ← solution vSolutions 0;
      let pubKey := CPubKey v in
      if negb (PubKey_IsValid pubKey) then Ok None else Ok (Some (CKeyID (PubKey_GetID pubKey)))
  | TX_PUBKEYHASH => v ← solution vSolutions 0; id ← uint160 v; Ok (Some (CKeyID id))
  | TX_SCRIPTHASH => v ← solution vSolutions 0; id ← uint160 v; Ok (Some (CScriptID id))
  | _ => Ok None
  end.

(** The addresses of the keys of a multisig script that are valid keys. *)
Definition multisig_addresses (keys : list (list Z)) : list CTxDestination :=
  (fun k => CKeyID (PubKey_GetID (CPubKey k))) <$> filter (fun k => PubKey_IsValid (CPubKey k) = true) keys.

(** The type, and the addresses with the number required, or [None] when the function returns false. *)
Definition ExtractDestinations (scriptPubKey : list Z) : res unit (txnouttype * option (list CTxDestination * Z)) :=
  let '(typeRet, vSolutions) := Solver scriptPubKey in
  match typeRet with
  | TX_NONSTANDARD | TX_NULL_DATA => Ok (typeRet, None)
  | TX_MULTISIG =>
      front ← solution vSolutions 0;
      nRequired ← match front with [] => Abort | b :: _ => Ok b end;
      let addressRet := multisig_addresses (slice 1 (length vSolutions - 1) vSolutions) in
      match addressRet with
      | [] => Ok (typeRet, None)
      | _ => Ok (typeRet, Some (addressRet, nRequired))
      end
  | _ =>
      d ← ExtractDestination scriptPubKey;
      match d with
      | None => Ok (typeRet, None)
      | Some address => Ok (typeRet, Some ([address], 1))
      end
  end.

End destination.

(** ** Building scripts *)

Definition GetScriptForDestination (dest : CTxDestination) : list Z :=
  match dest with
  | CNoDestination => []
  | CKeyID keyID =>
      push_opcode (push_opcode (push_data (push_opcode (push_opcode [] OP_DUP) OP_HASH160) keyID) OP_EQUALVERIFY) OP_CHECKSIG
  | CScriptID scriptID => push_opcode (push_data (push_opcode [] OP_HASH160) scriptID) OP_EQUAL
  end.

Definition GetScriptForRawPubKey (pubKey : list Z) : list Z := push_opcode (push_data [] pubKey) OP_CHECKSIG.

(** [CScript::EncodeOP_N] with its assertion. *)
Definition EncodeOP_N_checked (n : Z) : res unit opcodetype :=
  if (0 <=? n) && (n <=? 16) then Ok (EncodeOP_N n) else Abort.

Definition GetScriptForMultisig (nRequired : Z) (keys : list (list Z)) : res unit (list Z) :=
  m ← EncodeOP_N_checked nRequired;
  let script := fold_left push_data keys (push_opcode [] m) in
  n ← EncodeOP_N_checked (zlen keys);
  Ok (push_opcode (push_opcode script n) OP_CHECKMULTISIG).

Definition IsValidDestination (dest : CTxDestination) : bool :=
  match dest with CNoDestination => false | _ => true end.

(** ** Properties *)

(** What the callers of the Solver may rely on, for every type it returns. *)
Definition solution_shape (s : list Z) (r : txnouttype * list (list Z)) : Prop :=
  match r with
  | (TX_NONSTANDARD, v) => v = []
  | (TX_NULL_DATA, v) => v = [] /\ IsUnspendable s = true
  | (TX_PUBKEY, v) => exists k, v = [k] /\ PubKey_ValidSize k = true /\ s = GetScriptForRawPubKey k
  | (TX_PUBKEYHASH, v) => exists h, v = [h] /\ length h = 20%nat /\ s = GetScriptForDestination (CKeyID h)
  | (TX_SCRIPTHASH, v) => exists h, v = [h] /\ length h = 20%nat /\ s = GetScriptForDestination (CScriptID h)
  | (TX_MULTISIG, v) => exists m keys, v = [m] :: keys ++ [[zlen keys]] /\ 1 <= m <= zlen keys /\ zlen keys <= 16 /\
      Forall (fun k => PubKey_ValidSize k = true) keys /\ last s = Some (opcode_val OP_CHECKMULTISIG)
  end.

Lemma zlen_length {A} (l : list A) n : zlen l = Z.of_nat n -> length l = n.
Proof. unfold zlen. lia. Qed.

(** A list of a known length around a slice. *)
Lemma slice_split {A} i j (s : list A) :
  (i <= j <= length s)%nat -> s = take i s ++ slice i j s ++ drop j s /\ length (slice i j s) = (j - i)%nat.
Proof.
  intros H. unfold slice. split; [|rewrite length_take, length_drop; lia].
  rewrite <- (take_drop i s) at 1. f_equal. rewrite <- (take_drop (j - i) (drop i s)) at 1. f_equal.
  rewrite drop_drop. f_equal. lia.
Qed.

Lemma vget_lookup (s : list Z) i : (i < length s)%nat -> s !! i = Some (vget s i).
Proof. intros H. unfold vget. destruct (s !! i) eqn:E; [done|]. apply lookup_ge_None in E. lia. Qed.

Lemma back_drop (s : list Z) n : length s = S n -> drop n s = [back s].
Proof.
  intros H. unfold back. rewrite last_lookup, H. cbn [Nat.pred]. rewrite (drop_S s (vget s n) n) by (apply vget_lookup; lia).
  rewrite drop_ge by lia. by rewrite vget_lookup by lia.
Qed.

Lemma take_vget (s : list Z) n : (n < length s)%nat -> take (S n) s = take n s ++ [vget s n].
Proof. intros H. apply take_S_r. by apply vget_lookup. Qed.

Lemma MatchPayToPubkey_shape s k :
  MatchPayToPubkey s = Some k -> PubKey_ValidSize k = true /\ s = GetScriptForRawPubKey k.
Proof.
  unfold MatchPayToPubkey, PubKey_SIZE, PubKey_COMPRESSED_SIZE. intros H.
  assert (Hgen : forall n, (n < 76)%nat -> length s = (n + 2)%nat -> vget s 0 = Z.of_nat n -> back s = opcode_val OP_CHECKSIG ->
    s = GetScriptForRawPubKey (slice 1 (n + 1) s)).
  { clear. intros n Hn Hl H0 Hb. destruct (slice_split 1 (n + 1) s) as [Hs Hls]; [lia|].
    rewrite (back_drop s (n + 1)), Hb, (take_vget s 0), take_0, H0 in Hs by lia. cbn [app] in Hs.
    unfold GetScriptForRawPubKey, push_opcode, push_data. unfold zlen at 1. rewrite Hls.
    replace (n + 1 - 1)%nat with n by lia. rewrite (proj2 (Z.ltb_lt _ _)) by (cbn; lia).
    unfold zlen. rewrite Hls. replace (n + 1 - 1)%nat with n by lia.
    unfold u8 at 1. rewrite Z.mod_small by lia. rewrite Hs at 1. done. }
  case_bool; bprop.
  - destruct (PubKey_ValidSize _) eqn:Ev in H; [|done]. injection H as <-. split; [done|]. apply (Hgen 65%nat); [lia|by apply zlen_length|done|done].
  - case_bool; [|done]. bprop. destruct (PubKey_ValidSize _) eqn:Ev in H; [|done]. injection H as <-. split; [done|].
    apply (Hgen 33%nat); [lia|by apply zlen_length|done|done].
Qed.

(** The scripts with one hash: [pre] opcodes, a push of 20 bytes, [post] opcodes. *)
Lemma hash_script_split s pre post :
  length s = (length pre + 21 + length post)%nat ->
  take (length pre) s = pre -> vget s (length pre) = 20 -> drop (length pre + 21) s = post ->
  s = pre ++ [20] ++ slice (length pre + 1) (length pre + 21) s ++ post /\
  length (slice (length pre + 1) (length pre + 21) s) = 20%nat.
Proof.
  intros Hl Hp H20 Hd. destruct (slice_split (length pre + 1) (length pre + 21) s) as [Hs Hls]; [lia|].
  split; [|lia]. rewrite Hs at 1. rewrite Hd, Nat.add_1_r, take_vget, Hp, H20 by lia. by rewrite <- app_assoc.
Qed.

Lemma push_hash pre h : length h = 20%nat -> push_data pre h = pre ++ [20] ++ h.
Proof. intros Hh. unfold push_data, zlen. rewrite Hh. change (Z.of_nat 20) with 20. cbn -[app]. by rewrite <- app_assoc. Qed.

Lemma MatchPayToPubkeyHash_shape s h :
  MatchPayToPubkeyHash s = Some h -> length h = 20%nat /\ s = GetScriptForDestination (CKeyID h).
Proof.
  unfold MatchPayToPubkeyHash. case_bool; [|done]. bprop. intros [= <-].
  assert (Hl : length s = 25%nat) by by apply zlen_length.
  destruct (hash_script_split s [opcode_val OP_DUP; opcode_val OP_HASH160] [opcode_val OP_EQUALVERIFY; opcode_val OP_CHECKSIG])
    as [Hs Hh]; try done.
  - cbn [length]. rewrite !take_vget, take_0 by lia. cbn [app]. by do 2 f_equal.
  - cbn [length Nat.add]. rewrite (drop_S s (vget s 23)) by (apply vget_lookup; lia).
    rewrite (drop_S s (vget s 24)) by (apply vget_lookup; lia). rewrite drop_ge by lia. by do 2 f_equal.
  - split; [done|]. cbn [GetScriptForDestination]. rewrite push_hash by done. unfold push_opcode.
    rewrite Hs at 1. cbn [app]. by rewrite <- !app_assoc.
Qed.

Lemma IsPayToScriptHash_destination s :
  IsPayToScriptHash s = true -> length (slice 2 22 s) = 20%nat /\ s = GetScriptForDestination (CScriptID (slice 2 22 s)).
Proof.
  unfold IsPayToScriptHash. intros H. bprop. assert (Hl : length s = 23%nat) by by apply zlen_length.
  destruct (hash_script_split s [opcode_val OP_HASH160] [opcode_val OP_EQUAL]) as [Hs Hh]; try done.
  - cbn [length]. rewrite !take_vget, take_0 by lia. cbn [app]. by f_equal.
  - cbn [length Nat.add]. rewrite (drop_S s (vget s 22)) by (apply vget_lookup; lia). rewrite drop_ge by lia. by f_equal.
  - split; [done|]. cbn [GetScriptForDestination]. rewrite push_hash by done. unfold push_opcode.
    rewrite Hs at 1. cbn [app]. by rewrite <- ?app_assoc.
Qed.

Lemma IsSmallInteger_range op : IsSmallInteger op = true -> 1 <= DecodeOP_N op <= 16.
Proof.
  unfold IsSmallInteger, op_leb. intros [H1 H2]%andb_true_iff. bprop. unfold DecodeOP_N, op_eqb.
  change (opcode_val OP_1) with 81 in *. change (opcode_val OP_16) with 96 in *. change (opcode_val OP_0) with 0.
  rewrite (proj2 (Z.eqb_neq _ _)) by lia. lia.
Qed.

Lemma MatchMultisig_keys_valid fuel it acc keys op it' :
  Forall (fun k => PubKey_ValidSize k = true) acc ->
  MatchMultisig_keys fuel it acc = (keys, op, it') -> Forall (fun k => PubKey_ValidSize k = true) keys.
Proof.
  revert it acc; induction fuel as [|fuel IH]; intros it acc Ha H; cbn in H; [by simplify_eq|].
  destruct (GetScriptOp it) as [[[[] it1] o] data]; [|by simplify_eq].
  destruct (PubKey_ValidSize data) eqn:E; [|by simplify_eq]. apply (IH it1 (acc ++ [data])); [|done].
  apply Forall_app. by rewrite Forall_singleton.
Qed.

Lemma MatchMultisig_shape s m keys :
  MatchMultisig s = Some (m, keys) ->
  1 <= m <= zlen keys /\ zlen keys <= 16 /\ Forall (fun k => PubKey_ValidSize k = true) keys /\
  last s = Some (opcode_val OP_CHECKMULTISIG).
Proof.
  unfold MatchMultisig. intros H. destruct (_ || _) eqn:E0 in H; [done|]. bprop.
  destruct (GetOp s) as [[[it op] ?]|]; [|done]. destruct (IsSmallInteger op) eqn:E1; [|done]. cbn [negb] in H.
  destruct (MatchMultisig_keys _ _ _) as [[ks op2] it2] eqn:E2. destruct (IsSmallInteger op2) eqn:E3; [|done]. cbn [negb] in H.
  destruct (_ || _) eqn:E4 in H; [done|]. destruct (zlen it2 =? 1); [|done]. injection H as <- <-. bprop.
  apply IsSmallInteger_range in E1, E3. split_and!; try lia.
  - by eapply MatchMultisig_keys_valid.
  - unfold back in *. destruct (last s) as [z|] eqn:El; [cbn in *; by f_equal|].
    apply last_None in El. subst s. done.
Qed.

(** The builders' scripts, read back opcode by opcode. *)
Lemma GetOp_small op rest :
  IsSmallInteger op = true -> GetScriptOp (u8 (opcode_val op) :: rest) = (true, rest, opcode_of (opcode_val op), []).
Proof.
  unfold IsSmallInteger, op_leb. intros [H1 H2]%andb_true_iff. bprop.
  change (opcode_val OP_1) with 81 in *. change (opcode_val OP_16) with 96 in *.
  unfold u8. rewrite Z.mod_small by lia. unfold GetScriptOp. rewrite (proj2 (Z.leb_gt _ _)) by (cbn; lia). done.
Qed.

Lemma push_data_app s b : push_data s b = s ++ push_data [] b.
Proof. unfold push_data. repeat case_bool; cbn [app]; by rewrite <- ?app_assoc. Qed.

Lemma fold_push_data keys s : fold_left push_data keys s = s ++ concat (push_data [] <$> keys).
Proof.
  revert s; induction keys as [|k keys IH]; intros s; cbn [fold_left fmap list_fmap concat]; [by rewrite app_nil_r|].
  by rewrite IH, push_data_app, app_assoc.
Qed.

Lemma PubKey_ValidSize_len k : PubKey_ValidSize k = true -> zlen k <= 65.
Proof.
  unfold PubKey_ValidSize, PubKey_GetLen, PubKey_SIZE, PubKey_COMPRESSED_SIZE. intros [_ H]%andb_true_iff. bprop.
  rewrite <- H. repeat case_bool; lia.
Qed.

Lemma MatchMultisig_keys_read fuel keys acc op rest :
  Forall (fun k => PubKey_ValidSize k = true) keys -> IsSmallInteger op = true -> (length keys < fuel)%nat ->
  MatchMultisig_keys fuel (concat (push_data [] <$> keys) ++ u8 (opcode_val op) :: rest) acc =
  (acc ++ keys, opcode_of (opcode_val op), rest).
Proof.
  intros Hk Hop. revert fuel acc; induction Hk as [|k keys Hk Hks IH]; intros [|fuel] acc Hf; cbn [length] in Hf; try lia.
  - cbn [fmap list_fmap concat app MatchMultisig_keys]. rewrite GetOp_small by done. cbn. by rewrite app_nil_r.
  - cbn [fmap list_fmap concat MatchMultisig_keys]. rewrite <- app_assoc. pose proof (PubKey_ValidSize_len k Hk).
    destruct (push_data_read k (concat (push_data [] <$> keys) ++ u8 (opcode_val op) :: rest)) as (o & Ho & _); [lia|].
    rewrite (GetOp_GetScriptOp _ _ _ _ Ho), Hk, IH by lia. by rewrite <- app_assoc.
Qed.

Lemma EncodeOP_N_small n : 1 <= n <= 16 -> opcode_val (EncodeOP_N n) = 80 + n.
Proof.
  intros Hn. unfold EncodeOP_N. rewrite (proj2 (Z.eqb_neq _ _)) by lia. rewrite opcode_val_of.
  change (opcode_val OP_1) with 81. lia.
Qed.

Lemma DecodeOP_N_val n : 1 <= n <= 16 -> DecodeOP_N (opcode_of (80 + n)) = n.
Proof.
  intros Hn. unfold DecodeOP_N, op_eqb. rewrite opcode_val_of. change (opcode_val OP_0) with 0. change (opcode_val OP_1) with 81.
  rewrite (proj2 (Z.eqb_neq _ _)) by lia. lia.
Qed.

Lemma IsSmallInteger_val op n : opcode_val op = 80 + n -> 1 <= n <= 16 -> IsSmallInteger op = true.
Proof.
  intros Ho Hn. unfold IsSmallInteger, op_leb. rewrite Ho. change (opcode_val OP_1) with 81. change (opcode_val OP_16) with 96.
  rewrite !(proj2 (Z.leb_le _ _)) by lia. done.
Qed.

Lemma Solver_multisig m keys s :
  1 <= m <= zlen keys -> zlen keys <= 16 -> Forall (fun k => PubKey_ValidSize k = true) keys ->
  GetScriptForMultisig m keys = Ok s -> Solver s = (TX_MULTISIG, [m] :: keys ++ [[zlen keys]]).
Proof.
  intros Hm Hn Hk. unfold GetScriptForMultisig, EncodeOP_N_checked.
  rewrite !(proj2 (Z.leb_le _ _)) by lia. cbn [andb mbind res_bind]. intros [= <-].
  unfold push_opcode. rewrite fold_push_data, EncodeOP_N_small, EncodeOP_N_small by lia. cbn [app].
  set (body := concat _). rewrite <- app_assoc. cbn [app]. set (rest := [u8 (80 + zlen keys); u8 (opcode_val OP_CHECKMULTISIG)]).
  assert (H80 : u8 (80 + m) = 80 + m) by (unfold u8; apply Z.mod_small; lia).
  assert (Hback : back ((u8 (80 + m) :: body) ++ rest) = 174).
  { unfold rest. change (?a :: ?b :: []) with ([a] ++ [b]). rewrite app_assoc. apply back_snoc. }
  cbn [app] in *. assert (Hm' : MatchMultisig (u8 (80 + m) :: body ++ rest) = Some (m, keys)).
  { unfold MatchMultisig. rewrite Hback. change (opcode_val OP_CHECKMULTISIG) with 174. rewrite Z.eqb_refl.
    rewrite (proj2 (Z.ltb_ge _ _)) by (unfold zlen; cbn [length]; lia). cbn [orb negb].
    unfold GetOp. rewrite <- (opcode_val_of (80 + m)) at 1.
    rewrite GetOp_small by (apply (IsSmallInteger_val _ m); [by rewrite opcode_val_of|lia]). rewrite opcode_val_of.
    rewrite (IsSmallInteger_val _ m) by (by rewrite ?opcode_val_of || lia). cbn [negb].
    unfold rest at 2. unfold body, rest. rewrite <- (opcode_val_of (80 + zlen keys)) at 1 2.
    rewrite MatchMultisig_keys_read; [|done|by apply (IsSmallInteger_val _ (zlen keys)); [rewrite opcode_val_of|lia]|].
    2: { cbn [length]. rewrite length_app. assert (Hc : (length keys <= length (concat (push_data [] <$> keys)))%nat); [|lia].
         clear. induction keys as [|k keys IH]; [done|]. cbn [fmap list_fmap concat length]. rewrite length_app.
         assert (1 <= length (push_data [] k))%nat; [|lia]. unfold push_data. rewrite length_app. repeat case_bool; cbn; lia. }
    rewrite opcode_val_of. rewrite (IsSmallInteger_val _ (zlen keys)) by (by rewrite ?opcode_val_of || lia). cbn [negb app].
    rewrite !DecodeOP_N_val by lia. rewrite Z.eqb_refl, (proj2 (Z.ltb_ge _ _)) by lia. done. }
  unfold Solver, IsPayToScriptHash, MatchPayToPubkey, MatchPayToPubkeyHash. rewrite Hm'.
  change (vget (?a :: _) 0) with a. rewrite H80. change (opcode_val OP_HASH160) with 169. change (opcode_val OP_RETURN) with 106.
  change (opcode_val OP_DUP) with 118. change PubKey_SIZE with 65. change PubKey_COMPRESSED_SIZE with 33.
  rewrite !(proj2 (Z.eqb_neq (80 + m) _)) by lia. rewrite ?andb_false_r. cbn [andb].
  do 2 f_equal; [f_equal; unfold u8; apply Z.mod_small; lia|]. do 3 f_equal. unfold u8. apply Z.mod_small. pose proof (zlen_nonneg keys). lia.
Qed.

Lemma GetScriptForMultisig_Ok m keys : 1 <= m <= zlen keys -> zlen keys <= 16 -> exists s, GetScriptForMultisig m keys = Ok s.
Proof. intros Hm Hn. unfold GetScriptForMultisig, EncodeOP_N_checked. rewrite !(proj2 (Z.leb_le _ _)) by lia. by eexists. Qed.

Lemma Solver_solution_shape s : solution_shape s (Solver s).
Proof.
  unfold Solver. destruct (IsPayToScriptHash s) eqn:E1.
  { destruct (IsPayToScriptHash_destination s E1) as [Hl Hs]. cbn. by exists (slice 2 22 s). }
  case_bool. { cbn. split; [done|]. bprop. unfold IsUnspendable. by rewrite (proj2 (Z.ltb_lt _ _)), (proj2 (Z.eqb_eq _ _)) by (done || lia). }
  destruct (MatchPayToPubkey s) as [k|] eqn:E2. { apply MatchPayToPubkey_shape in E2 as [? ?]. by exists k. }
  destruct (MatchPayToPubkeyHash s) as [h|] eqn:E3. { apply MatchPayToPubkeyHash_shape in E3 as [? ?]. by exists h. }
  destruct (MatchMultisig s) as [[m keys]|] eqn:E4; [|done]. apply MatchMultisig_shape in E4 as (Hm & Hn & Hk & Hl).
  exists m, keys. split; [|done]. unfold u8. pose proof (zlen_nonneg keys). by rewrite !Z.mod_small by lia.
Qed.

Lemma Solver_hash_script pre h post :
  length h = 20%nat ->
  (pre, post) = ([opcode_val OP_DUP; opcode_val OP_HASH160], [opcode_val OP_EQUALVERIFY; opcode_val OP_CHECKSIG]) \/
  (pre, post) = ([opcode_val OP_HASH160], [opcode_val OP_EQUAL]) ->
  Solver (pre ++ [20] ++ h ++ post) = (if decide (length pre = 2)%nat then TX_PUBKEYHASH else TX_SCRIPTHASH, [h]).
Proof.
  intros Hh Hp. do 20 (destruct h as [|? h]; [done|]). destruct h; [|done]. by destruct Hp as [[= -> ->]|[= -> ->]].
Qed.

Lemma Solver_pubkey k : PubKey_ValidSize k = true -> Solver (GetScriptForRawPubKey k) = (TX_PUBKEY, [k]).
Proof.
  intros Hk. pose proof (PubKey_ValidSize_len k Hk) as Hlen.
  assert (Hn : zlen k = 65 \/ zlen k = 33).
  { clear Hlen. unfold PubKey_ValidSize, PubKey_GetLen, PubKey_SIZE, PubKey_COMPRESSED_SIZE in Hk. bprop. revert H0. repeat case_bool; lia. }
  unfold GetScriptForRawPubKey, push_opcode, push_data. rewrite (proj2 (Z.ltb_lt _ _)) by (cbn; lia). cbn [app].
  set (s := u8 (zlen k) :: k ++ _). assert (H0 : vget s 0 = zlen k) by (unfold s, vget, u8; cbn; apply Z.mod_small; lia).
  assert (Hl : zlen s = zlen k + 2) by (unfold s, zlen; cbn [length]; rewrite length_app; cbn [length]; lia).
  assert (Hb : back s = opcode_val OP_CHECKSIG) by (apply (back_snoc (u8 (zlen k) :: k))).
  assert (Hsl : slice 1 (S (length k)) s = k).
  { unfold slice, s. change (drop 1 (?a :: ?l)) with l. replace (S (length k) - 1)%nat with (length k) by lia. by rewrite take_app_length. }
  assert (Hp : MatchPayToPubkey s = Some k).
  { unfold MatchPayToPubkey, PubKey_SIZE, PubKey_COMPRESSED_SIZE. rewrite Hl, H0, Hb, !Z.eqb_refl.
    destruct Hn as [Hn|Hn]; rewrite Hn; cbn [Z.add Z.eqb Pos.add Pos.add_carry Pos.succ Pos.eqb andb].
    - replace (slice 1 66 s) with k by (rewrite <- Hsl at 1; f_equal; unfold zlen in Hn; lia). by rewrite Hk.
    - replace (slice 1 34 s) with k by (rewrite <- Hsl at 1; f_equal; unfold zlen in Hn; lia). by rewrite Hk. }
  unfold Solver. rewrite Hp. unfold IsPayToScriptHash. rewrite Hl, H0.
  rewrite (proj2 (Z.eqb_neq _ 23)) by lia. cbn [andb]. change (opcode_val OP_RETURN) with 106.
  rewrite (proj2 (Z.eqb_neq _ 106)) by lia. by rewrite andb_false_r.
Qed.

Lemma Solver_destination h : length h = 20%nat ->
  Solver (GetScriptForDestination (CKeyID h)) = (TX_PUBKEYHASH, [h]) /\ Solver (GetScriptForDestination (CScriptID h)) = (TX_SCRIPTHASH, [h]).
Proof.
  intros Hh. cbn [GetScriptForDestination]. rewrite !push_hash by done. unfold push_opcode. cbn [app]. rewrite <- !app_assoc. cbn [app].
  pose proof (Solver_hash_script _ h _ Hh (or_introl eq_refl)) as H1. pose proof (Solver_hash_script _ h _ Hh (or_intror eq_refl)) as H2.
  cbn [app length] in H1, H2. repeat match goal with |- context [u8 (opcode_val ?o)] => change (u8 (opcode_val o)) with (opcode_val o) end. done.
Qed.

Lemma Solver_null_data data : IsPushOnly data = true -> Solver (opcode_val OP_RETURN :: data) = (TX_NULL_DATA, []).
Proof.
  intros Hd. unfold Solver, IsPayToScriptHash. change (vget (opcode_val OP_RETURN :: data) 0) with (opcode_val OP_RETURN).
  rewrite (proj2 (Z.eqb_neq (opcode_val OP_RETURN) (opcode_val OP_HASH160))), andb_false_r by done. cbn [andb].
  rewrite (proj2 (Z.leb_le 1 _)) by (unfold zlen; simpl; lia). change (drop 1 (?x :: ?l)) with l. by rewrite Hd.
Qed.

(** C37: For every script the Solver returns solutions of the shape its type announces: one hash of 20 bytes,
    one key of a valid size or, for a multisig script, the number required, the keys and their number in
    range; an output of type TX_NULL_DATA is unspendable.  The single-key and hash types are exactly the
    scripts the builders make: such a script has its type and gives back its key or hash; so do the scripts
    made for up to 16 keys, and OP_RETURN followed by pushes is TX_NULL_DATA. *)
Theorem Solver_well_typed :
  (forall s, solution_shape s (Solver s)) /\
  (forall h, length h = 20%nat ->
     Solver (GetScriptForDestination (CKeyID h)) = (TX_PUBKEYHASH, [h]) /\ Solver (GetScriptForDestination (CScriptID h)) = (TX_SCRIPTHASH, [h])) /\
  (forall k, PubKey_ValidSize k = true -> Solver (GetScriptForRawPubKey k) = (TX_PUBKEY, [k])) /\
  (forall m keys, 1 <= m <= zlen keys -> zlen keys <= 16 -> Forall (fun k => PubKey_ValidSize k = true) keys ->
     exists s, GetScriptForMultisig m keys = Ok s /\ Solver s = (TX_MULTISIG, [m] :: keys ++ [[zlen keys]])) /\
  (forall data, IsPushOnly data = true -> Solver (opcode_val OP_RETURN :: data) = (TX_NULL_DATA, [])).
Proof.
  split_and!; [apply Solver_solution_shape|apply Solver_destination|apply Solver_pubkey| |apply Solver_null_data].
  intros m keys Hm Hn Hk. destruct (GetScriptForMultisig_Ok m keys Hm Hn) as [s Hs]. exists s. split; [done|]. by apply Solver_multisig.
Qed.

Lemma Solver_well_typed_witness :
  Solver (GetScriptForDestination (CKeyID (replicate 20 7))) = (TX_PUBKEYHASH, [replicate 20 7]) /\
  exists s, GetScriptForMultisig 1 [2 :: replicate 32 1] = Ok s /\ Solver s = (TX_MULTISIG, [[1]; 2 :: replicate 32 1; [1]]).
Proof.
  destruct Solver_well_typed as (_ & Hd & _ & Hm & _). split; [exact (proj1 (Hd (replicate 20 7) eq_refl))|].
  apply (Hm 1 [2 :: replicate 32 1]); [split; vm_compute; discriminate|vm_compute; discriminate|].
  apply Forall_singleton. reflexivity.
Defined.

(** The destination read from a script is the one the script was built for, and every multisig script
    with at most 16 keys of a valid size gives back its keys and the number required. *)
Theorem destination_roundtrip {crypto : CryptoOps} :
  (forall h, length h = 20%nat ->
     ExtractDestination (GetScriptForDestination (CKeyID h)) = Ok (Some (CKeyID h)) /\
     ExtractDestination (GetScriptForDestination (CScriptID h)) = Ok (Some (CScriptID h))) /\
  (forall k, PubKey_ValidSize k = true ->
     ExtractDestination (GetScriptForRawPubKey k) = Ok (Some (CKeyID (PubKey_GetID k)))) /\
  (forall m keys, 1 <= m <= zlen keys -> zlen keys <= 16 -> Forall (fun k => PubKey_ValidSize k = true) keys ->
     exists s, GetScriptForMultisig m keys = Ok s /\
       ExtractDestinations s = Ok (TX_MULTISIG, Some ((fun k => CKeyID (PubKey_GetID k)) <$> keys, m))).
Proof.
  split_and!.
  - intros h Hh. destruct (Solver_destination h Hh) as [H1 H2]. unfold ExtractDestination, uint160, zlen.
    split; [rewrite H1|rewrite H2]; cbn; by rewrite Hh.
  - intros k Hk. unfold ExtractDestination. rewrite Solver_pubkey by done. cbn. rewrite CPubKey_valid_id by done.
    apply CPubKey_valid in Hk as Hv. by rewrite CPubKey_valid_id in Hv by done; rewrite Hv.
  - intros m keys Hm Hn Hk. destruct (GetScriptForMultisig_Ok m keys Hm Hn) as [s E]. exists s. split; [done|]. unfold ExtractDestinations. rewrite (Solver_multisig m keys s) by done. cbn [solution lookup list_lookup mbind res_bind].
    replace (slice 1 (length ([m] :: keys ++ [[zlen keys]]) - 1) ([m] :: keys ++ [[zlen keys]])) with keys.
    2: { unfold slice. change (drop 1 (?a :: ?l)) with l. cbn [length]. rewrite length_app. cbn [length].
         replace (S (length keys + 1) - 1 - 1)%nat with (length keys) by lia. by rewrite take_app_length. }
    assert (Hf : multisig_addresses keys = (fun k => CKeyID (PubKey_GetID k)) <$> keys).
    { unfold multisig_addresses. clear - Hk. induction Hk as [|k keys Hk _ IH]; [done|].
      rewrite filter_cons_True by by apply CPubKey_valid. cbn [fmap list_fmap]. by rewrite CPubKey_valid_id, IH by done. }
    rewrite Hf. destruct keys as [|k keys]; [unfold zlen in Hm; cbn in Hm; lia|]. done.
Qed.

Lemma destination_roundtrip_witness :
  ExtractDestination (crypto := sum_crypto) (GetScriptForDestination (CScriptID (replicate 20 7))) =
    Ok (Some (CScriptID (replicate 20 7))) /\
  exists s, GetScriptForMultisig 1 [2 :: replicate 32 1; 3 :: replicate 32 9] = Ok s /\
    ExtractDestinations (crypto := sum_crypto) s =
    Ok (TX_MULTISIG, Some ((fun k => CKeyID (PubKey_GetID (crypto := sum_crypto) k)) <$> [2 :: replicate 32 1; 3 :: replicate 32 9], 1)).
Proof.
  destruct (destination_roundtrip (crypto := sum_crypto)) as (H1 & _ & H3). split; [apply H1; reflexivity|].
  apply H3; [split; discriminate|discriminate|]. repeat constructor.
Defined.
