(* ===== verification/Hasher.v ===== *)
(** * The buffering shared by the hash classes

    The words of src/src/crypto (32- and 64-bit arithmetic, big-endian access of crypto/common.h) and
    the state {s, buf, bytes} of CSHA1, CSHA256, CSHA512 and CRIPEMD160 with their [Write]: a block
    that fills up is transformed, full blocks are transformed from the source, the rest is kept.  The
    file is parametrised by the block size and the compression function; [Absorbs] is the invariant
    that relates the state to the message written so far, [Write_absorbs] shows [Write] keeps it, and
    [finish_absorbs] that padding and length leave the state of the padded message. *)

From S2P Require Import Prelude.

(** ** Words *)

Definition add32 (x y : Z) : Z := u32 (x + y).
Definition shl32 (x n : Z) : Z := u32 (Z.shiftl x n).
Definition not32 (x : Z) : Z := Z.lxor x 0xffffffff.
Definition add64 (x y : Z) : Z := u64 (x + y).
Definition shl64 (x n : Z) : Z := u64 (Z.shiftl x n).

Declare Scope word_scope.
Delimit Scope word_scope with word.
Notation "x ⊞ y" := (add32 x y) (at level 50, left associativity) : word_scope.
Notation "x ⟕ n" := (shl32 x n) (at level 42, left associativity) : word_scope.
Notation "x ⊞⊞ y" := (add64 x y) (at level 50, left associativity) : word_scope.
Notation "x ⟕⟕ n" := (shl64 x n) (at level 42, left associativity) : word_scope.
Notation "x ⟖ n" := (Z.shiftr x n) (at level 42, left associativity) : word_scope.
Notation "x .& y" := (Z.land x y) (at level 43, left associativity) : word_scope.
Notation "x .^ y" := (Z.lxor x y) (at level 44, left associativity) : word_scope.
Notation "x .| y" := (Z.lor x y) (at level 45, left associativity) : word_scope.

(** An assignment to a word variable, kept as an application so that unfolding a sequence of them does
    not copy the assigned expressions. *)
Definition assign {A B : Type} (x : A) (k : A -> B) : B := k x.
Lemma assign_eq {A B : Type} (x : A) (k : A -> B) : assign x k = k x.
Proof. done. Qed.

Notation "'uint32' x := e 'in' k" := (assign e (fun x => k))
  (at level 10, x name, k at level 200) : word_scope.

Notation "'uint64' x := e 'in' k" := (assign e (fun x => k))
  (at level 10, x name, k at level 200, only parsing) : word_scope.

(** crypto/common.h *)
Definition ReadBE32 (ptr : list Z) : Z := le_val (rev (take 4 ptr)).
Definition ReadBE64 (ptr : list Z) : Z := le_val (rev (take 8 ptr)).
Definition WriteBE32 (x : Z) : list Z := rev (le_bytes 4 x).
Definition WriteBE64 (x : Z) : list Z := rev (le_bytes 8 x).

(** Sums of words: equal up to the order and grouping of the summands. *)
Ltac word_sum := unfold add32, add64, u32, u64; Z.to_euclidean_division_equations; lia.

Lemma add32_comm x y : add32 x y = add32 y x.
Proof. unfold add32. by rewrite Z.add_comm. Qed.

(** Bitwise identities. *)
Ltac word_bits :=
  apply Z.bits_inj'; intros ? ?;
  rewrite ?Z.lxor_spec, ?Z.land_spec, ?Z.lor_spec, ?Z.lnot_spec, ?Z.lxor_spec, ?Z.land_spec, ?Z.lor_spec,
    ?Z.lnot_spec by done;
  repeat match goal with |- context [Z.testbit ?x ?i] => destruct (Z.testbit x i) end; done.

(** ** The hash classes *)

(** [memcpy(dst + off, src, length src)]. *)
Definition memcpy (dst : list Z) (off : nat) (src : list Z) : list Z :=
  take off dst ++ src ++ drop (off + length src) dst.

Lemma length_memcpy dst off src :
  (off + length src <= length dst)%nat -> length (memcpy dst off src) = length dst.
Proof. intros H. unfold memcpy. rewrite !length_app, length_take, length_drop. lia. Qed.

Lemma take_memcpy dst off src :
  (off + length src <= length dst)%nat -> take (off + length src) (memcpy dst off src) = take off dst ++ src.
Proof.
  intros H. unfold memcpy. rewrite app_assoc. apply take_app_length'.
  rewrite length_app, length_take. lia.
Qed.

Record Hasher (St : Type) := mkHasher { hs : St; hbuf : list Z; hbytes : Z }.
Arguments mkHasher {St} hs hbuf hbytes.
Arguments hs {St} h.
Arguments hbuf {St} h.
Arguments hbytes {St} h.

Section hasher.
Context {St : Type}.
(** The block size, [Transform] on one block, the state [Initialize] sets. *)
Variables (B : nat) (Transform : St -> list Z -> St) (Initialize : St).

(** The constructor leaves [buf] with the content [junk]. *)
Definition Hasher_new (junk : list Z) : Hasher St := mkHasher Initialize junk 0.
Definition Hasher_Reset (h : Hasher St) : Hasher St := mkHasher Initialize (hbuf h) 0.

(** The first branch of [Write]: the hasher, [data] and [bufsize] after it. *)
Definition Write_fill (h : Hasher St) (data : list Z) : Hasher St * list Z * nat :=
  let bufsize := Z.to_nat (hbytes h mod Z.of_nat B) in
  if negb (bufsize =? 0)%nat && (B <=? bufsize + length data)%nat then
    let buf := memcpy (hbuf h) bufsize (take (B - bufsize) data) in
    (mkHasher (Transform (hs h) buf) buf (u64 (hbytes h + Z.of_nat (B - bufsize))),
     drop (B - bufsize) data, O)
  else (h, data, bufsize).

(** The loop over full blocks; every iteration consumes [B] bytes. *)
Fixpoint Write_loop (fuel : nat) (h : Hasher St) (data : list Z) : Hasher St * list Z :=
  match fuel with
  | O => (h, data)
  | S fuel =>
      if (B <=? length data)%nat then
        Write_loop fuel (mkHasher (Transform (hs h) (take B data)) (hbuf h) (u64 (hbytes h + Z.of_nat B)))
          (drop B data)
      else (h, data)
  end.

Definition Write_rest (h : Hasher St) (data : list Z) (bufsize : nat) : Hasher St :=
  if (0 <? length data)%nat then
    mkHasher (hs h) (memcpy (hbuf h) bufsize data) (u64 (hbytes h + zlen data))
  else h.

Definition Hasher_Write (h : Hasher St) (data : list Z) : Hasher St :=
  let '(h, data, bufsize) := Write_fill h data in
  let '(h, data) := Write_loop (length data) h data in
  Write_rest h data bufsize.

(** The two writes of [Finalize], for a class with its own [Write]: [pad] is the byte 0x80 and zeros,
    [sizedesc] the bit count in its [length sizedesc] bytes. *)
Definition Finalize_writes (Write : Hasher St -> list Z -> Hasher St) (h : Hasher St) (sizedesc : list Z)
  : Hasher St :=
  let pad := 0x80 :: replicate (B - 1) 0 in
  let bufsize := Z.to_nat (hbytes h mod Z.of_nat B) in
  let h := Write h (take (1 + (2 * B - 1 - length sizedesc - bufsize) mod B) pad) in
  Write h sizedesc.

(** [n] blocks of a message, one after the other. *)
Fixpoint absorb (n : nat) (s : St) (m : list Z) {struct n} : St :=
  match n with O => s | S n => absorb n (Transform s (take B m)) (drop B m) end.

(** ** The invariant *)

Record Absorbs (h : Hasher St) (m : list Z) : Prop := {
  ab_state : hs h = absorb (length m / B) Initialize m;
  ab_size : length (hbuf h) = B;
  ab_bytes : hbytes h = u64 (zlen m);
  ab_rest : take (length m mod B) (hbuf h) = drop (B * (length m / B)) m
}.

Hypothesis B_pos : (0 < B)%nat.
Hypothesis B_divides : (Z.of_nat B | 2 ^ 64).

Lemma absorb_add a b s m : absorb (a + b) s m = absorb b (absorb a s m) (drop (B * a) m).
Proof.
  revert s m. induction a as [|a IH]; intros s m; simpl.
  - by rewrite Nat.mul_0_r, drop_0.
  - rewrite IH, drop_drop. do 2 f_equal. lia.
Qed.

Lemma absorb_app n s m m' : (B * n <= length m)%nat -> absorb n s (m ++ m') = absorb n s m.
Proof.
  revert s m. induction n as [|n IH]; intros s m Hn; simpl; [done|].
  rewrite take_app_le, drop_app_le by lia. apply IH. rewrite length_drop. lia.
Qed.

Lemma absorb_one s m m' : length m = B -> absorb 1 s (m ++ m') = Transform s m.
Proof. intros Hm. simpl. by rewrite take_app_length' by done. Qed.

(** Blocks that follow a message whose blocks are complete. *)
Lemma absorb_more q n s m m' :
  length m = (B * q)%nat -> absorb (q + n) s (m ++ m') = absorb n (absorb q s m) m'.
Proof.
  intros Hm. rewrite absorb_add, absorb_app by lia. by rewrite drop_app_length' by done.
Qed.

Lemma bytes_mod (m : list Z) : Z.to_nat (u64 (zlen m) mod Z.of_nat B) = (length m mod B)%nat.
Proof.
  unfold u64, zlen. rewrite Z.mod_mod_divide by done.
  by rewrite <- Nat2Z.inj_mod, Nat2Z.id.
Qed.

Lemma bytes_add (m m' : list Z) : u64 (u64 (zlen m) + zlen m') = u64 (zlen (m ++ m')).
Proof. unfold u64, zlen. rewrite Zplus_mod_idemp_l, length_app. f_equal. lia. Qed.

Lemma Absorbs_new junk : length junk = B -> Absorbs (Hasher_new junk) [].
Proof.
  intros Hj. split; simpl; rewrite ?Nat.Div0.div_0_l, ?Nat.Div0.mod_0_l, ?take_0, ?drop_nil; done.
Qed.

Lemma Absorbs_Reset h m : Absorbs h m -> Absorbs (Hasher_Reset h) [].
Proof. intros H. apply (Absorbs_new (hbuf h)), H. Qed.

(** The quotient and remainder of a message length, from any such decomposition. *)
Lemma div_mod_eq n q r : n = (B * q + r)%nat -> (r < B)%nat -> (n / B = q /\ n mod B = r)%nat.
Proof.
  intros -> Hr. rewrite Nat.add_comm, Nat.mul_comm. split.
  - rewrite Nat.div_add by lia. rewrite Nat.div_small; lia.
  - rewrite Nat.Div0.mod_add. by apply Nat.mod_small.
Qed.

Lemma message_split (m : list Z) :
  exists q r, length m = (B * q + r)%nat /\ (r < B)%nat /\ (length m / B = q /\ length m mod B = r)%nat.
Proof.
  exists (length m / B)%nat, (length m mod B)%nat. split_and!; try done.
  - apply Nat.div_mod_eq.
  - apply Nat.mod_upper_bound. lia.
Qed.

(** The invariant from a decomposition of the message into full blocks and a rest. *)
Lemma Absorbs_intro h m1 m2 q :
  length m1 = (B * q)%nat -> (length m2 < B)%nat -> hs h = absorb q Initialize m1 ->
  length (hbuf h) = B -> hbytes h = u64 (zlen (m1 ++ m2)) -> take (length m2) (hbuf h) = m2 ->
  Absorbs h (m1 ++ m2).
Proof.
  intros H1 H2 Hs Hb Hn Hr.
  destruct (div_mod_eq (length (m1 ++ m2)) q (length m2)) as [Hq Hm]; [rewrite length_app; lia|done|].
  split; rewrite ?Hq, ?Hm; try done.
  - by rewrite absorb_app by lia.
  - by rewrite drop_app_length' by done.
Qed.

Lemma Absorbs_elim h m :
  Absorbs h m -> exists m1 m2 q, m = m1 ++ m2 /\ length m1 = (B * q)%nat /\ (length m2 < B)%nat /\
    hs h = absorb q Initialize m1 /\ take (length m2) (hbuf h) = m2.
Proof.
  intros [Hs Hb Hn Hr]. destruct (message_split m) as (q & r & Hl & Hlt & Hq & Hm).
  rewrite Hq, Hm in *. exists (take (B * q) m), (drop (B * q) m), q.
  rewrite take_drop, length_take, length_drop. split_and!; [done|lia|lia| |].
  - rewrite Hs. rewrite <- (take_drop (B * q) m) at 1. rewrite absorb_app; [done|]. rewrite length_take. lia.
  - rewrite <- Hr. f_equal. lia.
Qed.

Lemma Absorbs_bufsize h m : Absorbs h m -> Z.to_nat (hbytes h mod Z.of_nat B) = (length m mod B)%nat.
Proof. intros H. by rewrite (ab_bytes _ _ H), bytes_mod. Qed.

(** After the first branch the buffer is empty, or what is left to write does not fill it. *)
Lemma Write_fill_absorbs h m data :
  Absorbs h m ->
  exists h' d1 d2, Write_fill h data = (h', d2, (length (m ++ d1) mod B)%nat) /\ data = d1 ++ d2 /\
    Absorbs h' (m ++ d1) /\
    ((length (m ++ d1) mod B = 0)%nat \/ (length (m ++ d1) mod B + length d2 < B)%nat).
Proof.
  intros Ha. unfold Write_fill. rewrite (Absorbs_bufsize _ _ Ha).
  destruct (negb (length m mod B =? 0)%nat && (B <=? length m mod B + length data)%nat) eqn:Hc.
  - apply andb_true_iff in Hc as [Hr Hd]. apply negb_true_iff, Nat.eqb_neq in Hr. apply Nat.leb_le in Hd.
    destruct (Absorbs_elim _ _ Ha) as (m1 & m2 & q & -> & H1 & H2 & Hs & Hb).
    destruct (div_mod_eq (length (m1 ++ m2)) q (length m2)) as [_ Hm]; [rewrite length_app; lia|done|].
    rewrite Hm in *. set (d1 := take (B - length m2) data).
    assert (Hd1 : length d1 = (B - length m2)%nat) by (unfold d1; rewrite length_take; lia).
    assert (Hbuf : memcpy (hbuf h) (length m2) d1 = m2 ++ d1).
    { rewrite <- (take_ge (memcpy _ _ _) B), <- (Nat.add_sub B (length m2)).
      - replace (B + length m2 - length m2)%nat with (length m2 + length d1)%nat by lia.
        rewrite take_memcpy, Hb; [done|]. rewrite (ab_size _ _ Ha). lia.
      - rewrite length_memcpy; rewrite (ab_size _ _ Ha); lia. }
    destruct (div_mod_eq (length ((m1 ++ m2) ++ d1)) (q + 1) 0) as [_ Hz];
      [rewrite !length_app; lia|done|].
    eexists _, d1, (drop (B - length m2) data). rewrite Hz, Hbuf.
    split_and!; [done|by unfold d1; rewrite take_drop| |by left].
    rewrite <- app_assoc, <- (app_nil_r (m1 ++ m2 ++ d1)).
    apply (Absorbs_intro _ _ _ (q + 1)); cbn [hs hbuf hbytes length]; rewrite ?length_app; try lia; try done.
    + rewrite absorb_more by done. rewrite Hs, <- (app_nil_r (m2 ++ d1)).
      rewrite absorb_one; rewrite ?app_nil_r; [done|]. rewrite length_app. lia.
    + rewrite (ab_bytes _ _ Ha), app_nil_r, app_assoc, <- (bytes_add _ d1). unfold zlen. by rewrite Hd1.
  - exists h, [], data. rewrite app_nil_r. split_and!; try done.
    apply andb_false_iff in Hc as [Hc|Hc]; [left|right].
    + by apply negb_false_iff, Nat.eqb_eq in Hc.
    + by apply Nat.leb_gt in Hc.
Qed.

(** A state with an empty buffer absorbs one more block. *)
Lemma Absorbs_block h m d buf' :
  Absorbs h m -> (length m mod B = 0)%nat -> length d = B -> length buf' = B ->
  Absorbs (mkHasher (Transform (hs h) d) buf' (u64 (hbytes h + Z.of_nat B))) (m ++ d).
Proof.
  intros Ha Hz Hd Hb. destruct (Absorbs_elim _ _ Ha) as (m1 & m2 & q & -> & H1 & H2 & Hs & Hr).
  destruct (div_mod_eq (length (m1 ++ m2)) q (length m2)) as [_ Hm]; [rewrite length_app; lia|done|].
  rewrite Hm in Hz. apply length_zero_iff_nil in Hz as ->. rewrite app_nil_r in *.
  rewrite <- (app_nil_r (m1 ++ d)).
  apply (Absorbs_intro _ _ _ (q + 1)); cbn [hs hbuf hbytes length]; rewrite ?length_app; try lia; try done.
  - rewrite absorb_more by done. rewrite Hs, <- (app_nil_r d), absorb_one; by rewrite ?app_nil_r.
  - rewrite (ab_bytes _ _ Ha), app_nil_r, <- (bytes_add _ d). unfold zlen. by rewrite Hd.
Qed.

Lemma mod_block (m d : list Z) : length d = B -> (length (m ++ d) mod B = length m mod B)%nat.
Proof.
  intros Hd. rewrite length_app, Hd. rewrite <- (Nat.mul_1_l B) at 1. apply Nat.Div0.mod_add.
Qed.

Lemma Write_loop_absorbs fuel h m data :
  (length data <= fuel)%nat -> Absorbs h m ->
  (length m mod B = 0)%nat \/ (length m mod B + length data < B)%nat ->
  exists h' d1 d2, Write_loop fuel h data = (h', d2) /\ data = d1 ++ d2 /\ Absorbs h' (m ++ d1) /\
    (length (m ++ d1) mod B = length m mod B)%nat /\ (length m mod B + length d2 < B)%nat.
Proof.
  revert h m data. induction fuel as [|fuel IH]; intros h m data Hf Ha Hor; simpl.
  { exists h, [], data. rewrite app_nil_r. destruct (message_split m) as (?&?&?&?&?&?). by split_and!; try lia. }
  destruct (Nat.leb_spec B (length data)) as [Hle|Hlt].
  - assert (Hz : (length m mod B = 0)%nat) by (destruct Hor; lia).
    assert (Ht : length (take B data) = B) by (rewrite length_take; lia).
    pose proof (Absorbs_block h m (take B data) (hbuf h) Ha Hz Ht (ab_size _ _ Ha)) as Hb.
    assert (Hd' : (length (drop B data) <= fuel)%nat) by (rewrite length_drop; lia).
    destruct (IH _ _ _ Hd' Hb) as (h' & d1 & d2 & He & Hd & Ha' & Hm & Hlt).
    + left. by rewrite mod_block.
    + rewrite (mod_block m) in Hm, Hlt by done. exists h', (take B data ++ d1), d2.
      rewrite (app_assoc m). split_and!; try done. by rewrite <- app_assoc, <- Hd, take_drop.
  - exists h, [], data. rewrite app_nil_r. split_and!; try done. destruct Hor; lia.
Qed.

Lemma Write_rest_absorbs h m data :
  Absorbs h m -> (length m mod B + length data < B)%nat ->
  Absorbs (Write_rest h data (length m mod B)) (m ++ data).
Proof.
  intros Ha Hlt. unfold Write_rest. destruct (Nat.ltb_spec 0 (length data)) as [Hp|Hz].
  - destruct (Absorbs_elim _ _ Ha) as (m1 & m2 & q & -> & H1 & H2 & Hs & Hr).
    destruct (div_mod_eq (length (m1 ++ m2)) q (length m2)) as [_ Hm]; [rewrite length_app; lia|done|].
    rewrite Hm in *. pose proof (ab_size _ _ Ha) as Hb. rewrite <- app_assoc.
    apply (Absorbs_intro _ _ _ q); cbn [hs hbuf hbytes]; rewrite ?length_app; try lia; try done.
    + rewrite length_memcpy; lia.
    + by rewrite (ab_bytes _ _ Ha), bytes_add, app_assoc.
    + rewrite take_memcpy by lia. by rewrite Hr.
  - assert (data = []) as -> by (apply length_zero_iff_nil; lia). by rewrite app_nil_r.
Qed.

Lemma Write_absorbs h m data : Absorbs h m -> Absorbs (Hasher_Write h data) (m ++ data).
Proof.
  intros Ha. unfold Hasher_Write.
  destruct (Write_fill_absorbs h m data Ha) as (h1 & d1 & d2 & -> & -> & Ha1 & Hor).
  destruct (Write_loop_absorbs _ _ _ _ (Nat.le_refl (length d2)) Ha1 Hor) as (h2 & d3 & d4 & -> & -> & Ha2 & Hm & Hlt).
  rewrite <- Hm in *. rewrite !(app_assoc m), (app_assoc (m ++ d1)). by apply Write_rest_absorbs.
Qed.

(** A message of full blocks is absorbed completely. *)
Lemma Absorbs_full h m q : Absorbs h m -> length m = (B * q)%nat -> hs h = absorb q Initialize m.
Proof.
  intros [Hs _ _ _] Hl. rewrite Hs. f_equal. rewrite Hl, Nat.mul_comm. apply Nat.div_mul. lia.
Qed.

Lemma Writes_absorb h m ds : Absorbs h m -> Absorbs (foldl Hasher_Write h ds) (m ++ concat ds).
Proof.
  revert h m. induction ds as [|d ds IH]; intros h m Ha; simpl; [by rewrite app_nil_r|].
  rewrite app_assoc. by apply IH, Write_absorbs.
Qed.

(** ** Padding

    The least number of zeros after which one more byte and the size description end a block, and the
    padded message. *)
Definition zero_pad (l len : nat) : nat := (B - (len + 1 + l) mod B) mod B.

Definition padded (sizedesc m : list Z) : list Z :=
  m ++ 0x80 :: replicate (zero_pad (length sizedesc) (length m)) 0 ++ sizedesc.

Lemma zero_pad_spec l len : exists q, (len + 1 + zero_pad l len + l = B * q)%nat.
Proof.
  unfold zero_pad. pose proof (Nat.div_mod_eq (len + 1 + l) B) as He.
  pose proof (Nat.mod_upper_bound (len + 1 + l) B ltac:(lia)) as Hb.
  remember ((len + 1 + l) mod B)%nat as r. remember ((len + 1 + l) / B)%nat as q.
  destruct (Nat.eq_dec r 0) as [->|Hr].
  - rewrite Nat.sub_0_r, Nat.Div0.mod_same. exists q. lia.
  - rewrite Nat.mod_small by lia. exists (q + 1)%nat. lia.
Qed.

Lemma zero_pad_least l len z : (exists q, len + 1 + z + l = B * q)%nat -> (zero_pad l len <= z)%nat.
Proof.
  intros [q Hq]. destruct (zero_pad_spec l len) as [q' Hq'].
  destruct (Nat.le_gt_cases (zero_pad l len) z) as [|Hgt]; [done|].
  assert (zero_pad l len < B)%nat by (apply Nat.mod_upper_bound; lia).
  assert (q < q')%nat by (apply (Nat.mul_lt_mono_pos_l B); lia).
  assert (B * (q + 1) <= B * q')%nat by (apply Nat.mul_le_mono_l; lia). lia.
Qed.

(** The expression of the code, on the bytes in the buffer. *)
Lemma zero_pad_code l len :
  (l < B)%nat -> ((2 * B - 1 - l - len mod B) mod B = zero_pad l len)%nat.
Proof.
  intros Hl. destruct (zero_pad_spec l len) as [q Hq]. pose proof (Nat.div_mod_eq len B) as He.
  pose proof (Nat.mod_upper_bound len B ltac:(lia)) as Hb.
  assert (Hz : (zero_pad l len < B)%nat) by (apply Nat.mod_upper_bound; lia).
  remember (len mod B)%nat as r. remember (len / B)%nat as k.
  assert (k < q)%nat by (apply (Nat.mul_lt_mono_pos_l B); lia).
  assert (q < k + 3)%nat by (apply (Nat.mul_lt_mono_pos_l B); lia).
  assert (q = k + 1 \/ q = k + 2)%nat as [-> | ->] by lia.
  - replace (2 * B - 1 - l - r)%nat with (zero_pad l len + 1 * B)%nat by lia.
    rewrite Nat.Div0.mod_add. by apply Nat.mod_small.
  - replace (2 * B - 1 - l - r)%nat with (zero_pad l len) by lia. by apply Nat.mod_small.
Qed.

Lemma Absorbs_finish h m sizedesc :
  Absorbs h m -> (length sizedesc < B)%nat -> Absorbs (Finalize_writes Hasher_Write h sizedesc) (padded sizedesc m).
Proof.
  intros Ha Hl. unfold Finalize_writes. rewrite (Absorbs_bufsize _ _ Ha), zero_pad_code by done.
  assert (Hz : (zero_pad (length sizedesc) (length m) < B)%nat) by (apply Nat.mod_upper_bound; lia).
  cbn [Nat.add take]. rewrite take_replicate, Nat.min_l by lia.
  pose proof (Write_absorbs _ _ sizedesc (Write_absorbs _ _ (0x80 :: replicate (zero_pad (length sizedesc) (length m)) 0) Ha)) as Hw.
  by rewrite <- app_assoc in Hw.
Qed.

Lemma finish_absorbs h m sizedesc :
  Absorbs h m -> (length sizedesc < B)%nat ->
  hs (Finalize_writes Hasher_Write h sizedesc) =
  absorb (length (padded sizedesc m) / B) Initialize (padded sizedesc m).
Proof. intros Ha Hl. apply (ab_state _ _ (Absorbs_finish _ _ _ Ha Hl)). Qed.

(** A message written in pieces to a new hasher. *)
Lemma Absorbs_pieces junk ds :
  length junk = B -> Absorbs (foldl Hasher_Write (Hasher_new junk) ds) (concat ds).
Proof. intros Hj. by apply (Writes_absorb _ []), Absorbs_new. Qed.

(** The number of blocks of a padded message is exact. *)
Lemma padded_blocks sizedesc m : exists q, length (padded sizedesc m) = (B * q)%nat.
Proof.
  destruct (zero_pad_spec (length sizedesc) (length m)) as [q Hq]. exists q. unfold padded.
  rewrite !length_app. cbn [length]. rewrite length_app, length_replicate. lia.
Qed.

End hasher.

Lemma absorb_ext {St : Type} B (f g : St -> list Z -> St) n s m :
  (forall s d, f s d = g s d) -> absorb B f n s m = absorb B g n s m.
Proof. intros Hfg. revert s m. induction n as [|n IH]; intros s m; simpl; [done|]. by rewrite Hfg, IH. Qed.

(** A message with a known number of blocks. *)
Lemma absorb_blocks {St : Type} B (f : St -> list Z -> St) s m q :
  (0 < B)%nat -> length m = (q * B)%nat -> absorb B f (length m / B) s m = absorb B f q s m.
Proof. intros HB ->. by rewrite Nat.div_mul by lia. Qed.

(** ** Words in byte strings *)

Lemma length_WriteBE32 x : length (WriteBE32 x) = 4%nat.
Proof. unfold WriteBE32. by rewrite length_rev, le_bytes_length. Qed.

Lemma length_WriteBE64 x : length (WriteBE64 x) = 8%nat.
Proof. unfold WriteBE64. by rewrite length_rev, le_bytes_length. Qed.

Lemma WriteBE32_bytes x : bytes_ok (WriteBE32 x).
Proof. apply Forall_rev, le_bytes_ok. Qed.

Lemma ReadBE32_WriteBE32 x l : ReadBE32 (WriteBE32 x ++ l) = u32 x.
Proof.
  unfold ReadBE32, WriteBE32. rewrite take_app_length' by (by rewrite length_rev, le_bytes_length).
  by rewrite rev_involutive, le_val_bytes.
Qed.

Lemma drop_WriteBE32 n x l : drop (S (S (S (S n)))) (WriteBE32 x ++ l) = drop n l.
Proof.
  change (S (S (S (S n)))) with (4 + n)%nat. by rewrite <- (length_WriteBE32 x), drop_app_add.
Qed.

Lemma le_bytes_cong n x y : x mod 256 ^ Z.of_nat n = y mod 256 ^ Z.of_nat n -> le_bytes n x = le_bytes n y.
Proof.
  intros H. rewrite <- !le_val_bytes in H. apply le_val_inj in H; try apply le_bytes_ok; [done|].
  by rewrite !le_bytes_length.
Qed.

(** [bytes << 3] as the bit count of a message: both wrap at 64 bits. *)
Lemma le_bytes_bits n : le_bytes 8 (Z.shiftl (u64 n) 3) = le_bytes 8 (8 * n).
Proof.
  apply le_bytes_cong. rewrite Z.shiftl_mul_pow2 by done. unfold u64.
  change (256 ^ Z.of_nat 8) with (2 ^ 64). rewrite Zmult_mod_idemp_l. f_equal. lia.
Qed.

Lemma WriteBE64_bits n : WriteBE64 (Z.shiftl (u64 n) 3) = WriteBE64 (8 * n).
Proof. unfold WriteBE64. by rewrite le_bytes_bits. Qed.

Lemma WriteLE64_bits n : WriteLE64 (Z.shiftl (u64 n) 3) = WriteLE64 (8 * n).
Proof. apply le_bytes_bits. Qed.

Lemma block64_divides : (Z.of_nat 64 | 2 ^ 64).
Proof. by exists (2 ^ 58). Qed.

(** ** The constants of the SHA-2 functions

    Their definition in FIPS 180-4: the first bits of the fractional parts of the square and cube roots
    of the first primes. *)

Definition primes : list Z :=
  [2; 3; 5; 7; 11; 13; 17; 19; 23; 29; 31; 37; 41; 43; 47; 53; 59; 61; 67; 71;
   73; 79; 83; 89; 97; 101; 103; 107; 109; 113; 127; 131; 137; 139; 149; 151; 157; 163; 167; 173;
   179; 181; 191; 193; 197; 199; 211; 223; 227; 229; 233; 239; 241; 251; 257; 263; 269; 271; 277; 281;
   283; 293; 307; 311; 313; 317; 331; 337; 347; 349; 353; 359; 367; 373; 379; 383; 389; 397; 401; 409].

(** The integer cube root, bit by bit. *)
Fixpoint cube_root (bits : nat) (acc n : Z) : Z :=
  match bits with
  | O => acc
  | S k => let c := acc + 2 ^ Z.of_nat k in cube_root k (if c * c * c <=? n then c else acc) n
  end.

Definition cbrt_fraction (w : Z) (p : Z) : Z :=
  cube_root (Z.to_nat w + 4) 0 (p * 2 ^ (3 * w)) mod 2 ^ w.
Definition sqrt_fraction (w : Z) (p : Z) : Z := Z.sqrt (p * 2 ^ (2 * w)) mod 2 ^ w.
