(* ===== verification/Sha256.v ===== *)
(** * SHA-256

    Model of src/src/crypto/sha256.cpp with the portable transformations: the round functions, the
    unrolled [Transform], the constant-folded double hash [TransformD64] of a 64-byte input (with its
    generic form [TransformD64Wrapper] and the loop [SHA256D64]), and the class CSHA256.  The rounds are
    written as the code writes them: one binding per statement, the registers renamed by rotation. *)

From S2P Require Import Prelude Hasher.

Open Scope word_scope.

(** ** The round functions (namespace sha256) *)

Definition Ch (x y z : Z) : Z := z .^ (x .& (y .^ z)).
Definition Maj (x y z : Z) : Z := (x .& y) .| (z .& (x .| y)).
Definition Sigma0 (x : Z) : Z := (x ⟖ 2 .| x ⟕ 30) .^ (x ⟖ 13 .| x ⟕ 19) .^ (x ⟖ 22 .| x ⟕ 10).
Definition Sigma1 (x : Z) : Z := (x ⟖ 6 .| x ⟕ 26) .^ (x ⟖ 11 .| x ⟕ 21) .^ (x ⟖ 25 .| x ⟕ 7).
Definition sigma0 (x : Z) : Z := (x ⟖ 7 .| x ⟕ 25) .^ (x ⟖ 18 .| x ⟕ 14) .^ (x ⟖ 3).
Definition sigma1 (x : Z) : Z := (x ⟖ 17 .| x ⟕ 15) .^ (x ⟖ 19 .| x ⟕ 13) .^ (x ⟖ 10).

(** The new values of the reference parameters [d] and [h]. *)
Definition Round (a b c d e f g h k : Z) : Z * Z :=
  let t1 := h ⊞ Sigma1 e ⊞ Ch e f g ⊞ k in
  let t2 := Sigma0 a ⊞ Maj a b c in
  (d ⊞ t1, t1 ⊞ t2).

(** The array [s]. *)
Definition State : Type := (Z * Z * Z * Z * Z * Z * Z * Z)%type.

Definition Initialize : State :=
  (0x6a09e667, 0xbb67ae85, 0x3c6ef372, 0xa54ff53a,
   0x510e527f, 0x9b05688c, 0x1f83d9ab, 0x5be0cd19).

(** One iteration of [Transform]. *)
Definition Transform1 (s : State) (chunk : list Z) : State :=
  let '(s0, s1, s2, s3, s4, s5, s6, s7) := s in
  let '(a, b, c, d, e, f, g, h) := s in
  uint32 w0 := ReadBE32 (drop 0 chunk) in let '(d, h) := Round a b c d e f g h (0x428a2f98 ⊞ w0) in
  uint32 w1 := ReadBE32 (drop 4 chunk) in let '(c, g) := Round h a b c d e f g (0x71374491 ⊞ w1) in
  uint32 w2 := ReadBE32 (drop 8 chunk) in let '(b, f) := Round g h a b c d e f (0xb5c0fbcf ⊞ w2) in
  uint32 w3 := ReadBE32 (drop 12 chunk) in let '(a, e) := Round f g h a b c d e (0xe9b5dba5 ⊞ w3) in
  uint32 w4 := ReadBE32 (drop 16 chunk) in let '(h, d) := Round e f g h a b c d (0x3956c25b ⊞ w4) in
  uint32 w5 := ReadBE32 (drop 20 chunk) in let '(g, c) := Round d e f g h a b c (0x59f111f1 ⊞ w5) in
  uint32 w6 := ReadBE32 (drop 24 chunk) in let '(f, b) := Round c d e f g h a b (0x923f82a4 ⊞ w6) in
  uint32 w7 := ReadBE32 (drop 28 chunk) in let '(e, a) := Round b c d e f g h a (0xab1c5ed5 ⊞ w7) in
  uint32 w8 := ReadBE32 (drop 32 chunk) in let '(d, h) := Round a b c d e f g h (0xd807aa98 ⊞ w8) in
  uint32 w9 := ReadBE32 (drop 36 chunk) in let '(c, g) := Round h a b c d e f g (0x12835b01 ⊞ w9) in
  uint32 w10 := ReadBE32 (drop 40 chunk) in let '(b, f) := Round g h a b c d e f (0x243185be ⊞ w10) in
  uint32 w11 := ReadBE32 (drop 44 chunk) in let '(a, e) := Round f g h a b c d e (0x550c7dc3 ⊞ w11) in
  uint32 w12 := ReadBE32 (drop 48 chunk) in let '(h, d) := Round e f g h a b c d (0x72be5d74 ⊞ w12) in
  uint32 w13 := ReadBE32 (drop 52 chunk) in let '(g, c) := Round d e f g h a b c (0x80deb1fe ⊞ w13) in
  uint32 w14 := ReadBE32 (drop 56 chunk) in let '(f, b) := Round c d e f g h a b (0x9bdc06a7 ⊞ w14) in
  uint32 w15 := ReadBE32 (drop 60 chunk) in let '(e, a) := Round b c d e f g h a (0xc19bf174 ⊞ w15) in
  uint32 w0 := w0 ⊞ (sigma1 w14 ⊞ w9 ⊞ sigma0 w1) in let '(d, h) := Round a b c d e f g h (0xe49b69c1 ⊞ w0) in
  uint32 w1 := w1 ⊞ (sigma1 w15 ⊞ w10 ⊞ sigma0 w2) in let '(c, g) := Round h a b c d e f g (0xefbe4786 ⊞ w1) in
  uint32 w2 := w2 ⊞ (sigma1 w0 ⊞ w11 ⊞ sigma0 w3) in let '(b, f) := Round g h a b c d e f (0x0fc19dc6 ⊞ w2) in
  uint32 w3 := w3 ⊞ (sigma1 w1 ⊞ w12 ⊞ sigma0 w4) in let '(a, e) := Round f g h a b c d e (0x240ca1cc ⊞ w3) in
  uint32 w4 := w4 ⊞ (sigma1 w2 ⊞ w13 ⊞ sigma0 w5) in let '(h, d) := Round e f g h a b c d (0x2de92c6f ⊞ w4) in
  uint32 w5 := w5 ⊞ (sigma1 w3 ⊞ w14 ⊞ sigma0 w6) in let '(g, c) := Round d e f g h a b c (0x4a7484aa ⊞ w5) in
  uint32 w6 := w6 ⊞ (sigma1 w4 ⊞ w15 ⊞ sigma0 w7) in let '(f, b) := Round c d e f g h a b (0x5cb0a9dc ⊞ w6) in
  uint32 w7 := w7 ⊞ (sigma1 w5 ⊞ w0 ⊞ sigma0 w8) in let '(e, a) := Round b c d e f g h a (0x76f988da ⊞ w7) in
  uint32 w8 := w8 ⊞ (sigma1 w6 ⊞ w1 ⊞ sigma0 w9) in let '(d, h) := Round a b c d e f g h (0x983e5152 ⊞ w8) in
  uint32 w9 := w9 ⊞ (sigma1 w7 ⊞ w2 ⊞ sigma0 w10) in let '(c, g) := Round h a b c d e f g (0xa831c66d ⊞ w9) in
  uint32 w10 := w10 ⊞ (sigma1 w8 ⊞ w3 ⊞ sigma0 w11) in let '(b, f) := Round g h a b c d e f (0xb00327c8 ⊞ w10) in
  uint32 w11 := w11 ⊞ (sigma1 w9 ⊞ w4 ⊞ sigma0 w12) in let '(a, e) := Round f g h a b c d e (0xbf597fc7 ⊞ w11) in
  uint32 w12 := w12 ⊞ (sigma1 w10 ⊞ w5 ⊞ sigma0 w13) in let '(h, d) := Round e f g h a b c d (0xc6e00bf3 ⊞ w12) in
  uint32 w13 := w13 ⊞ (sigma1 w11 ⊞ w6 ⊞ sigma0 w14) in let '(g, c) := Round d e f g h a b c (0xd5a79147 ⊞ w13) in
  uint32 w14 := w14 ⊞ (sigma1 w12 ⊞ w7 ⊞ sigma0 w15) in let '(f, b) := Round c d e f g h a b (0x06ca6351 ⊞ w14) in
  uint32 w15 := w15 ⊞ (sigma1 w13 ⊞ w8 ⊞ sigma0 w0) in let '(e, a) := Round b c d e f g h a (0x14292967 ⊞ w15) in
  uint32 w0 := w0 ⊞ (sigma1 w14 ⊞ w9 ⊞ sigma0 w1) in let '(d, h) := Round a b c d e f g h (0x27b70a85 ⊞ w0) in
  uint32 w1 := w1 ⊞ (sigma1 w15 ⊞ w10 ⊞ sigma0 w2) in let '(c, g) := Round h a b c d e f g (0x2e1b2138 ⊞ w1) in
  uint32 w2 := w2 ⊞ (sigma1 w0 ⊞ w11 ⊞ sigma0 w3) in let '(b, f) := Round g h a b c d e f (0x4d2c6dfc ⊞ w2) in
  uint32 w3 := w3 ⊞ (sigma1 w1 ⊞ w12 ⊞ sigma0 w4) in let '(a, e) := Round f g h a b c d e (0x53380d13 ⊞ w3) in
  uint32 w4 := w4 ⊞ (sigma1 w2 ⊞ w13 ⊞ sigma0 w5) in let '(h, d) := Round e f g h a b c d (0x650a7354 ⊞ w4) in
  uint32 w5 := w5 ⊞ (sigma1 w3 ⊞ w14 ⊞ sigma0 w6) in let '(g, c) := Round d e f g h a b c (0x766a0abb ⊞ w5) in
  uint32 w6 := w6 ⊞ (sigma1 w4 ⊞ w15 ⊞ sigma0 w7) in let '(f, b) := Round c d e f g h a b (0x81c2c92e ⊞ w6) in
  uint32 w7 := w7 ⊞ (sigma1 w5 ⊞ w0 ⊞ sigma0 w8) in let '(e, a) := Round b c d e f g h a (0x92722c85 ⊞ w7) in
  uint32 w8 := w8 ⊞ (sigma1 w6 ⊞ w1 ⊞ sigma0 w9) in let '(d, h) := Round a b c d e f g h (0xa2bfe8a1 ⊞ w8) in
  uint32 w9 := w9 ⊞ (sigma1 w7 ⊞ w2 ⊞ sigma0 w10) in let '(c, g) := Round h a b c d e f g (0xa81a664b ⊞ w9) in
  uint32 w10 := w10 ⊞ (sigma1 w8 ⊞ w3 ⊞ sigma0 w11) in let '(b, f) := Round g h a b c d e f (0xc24b8b70 ⊞ w10) in
  uint32 w11 := w11 ⊞ (sigma1 w9 ⊞ w4 ⊞ sigma0 w12) in let '(a, e) := Round f g h a b c d e (0xc76c51a3 ⊞ w11) in
  uint32 w12 := w12 ⊞ (sigma1 w10 ⊞ w5 ⊞ sigma0 w13) in let '(h, d) := Round e f g h a b c d (0xd192e819 ⊞ w12) in
  uint32 w13 := w13 ⊞ (sigma1 w11 ⊞ w6 ⊞ sigma0 w14) in let '(g, c) := Round d e f g h a b c (0xd6990624 ⊞ w13) in
  uint32 w14 := w14 ⊞ (sigma1 w12 ⊞ w7 ⊞ sigma0 w15) in let '(f, b) := Round c d e f g h a b (0xf40e3585 ⊞ w14) in
  uint32 w15 := w15 ⊞ (sigma1 w13 ⊞ w8 ⊞ sigma0 w0) in let '(e, a) := Round b c d e f g h a (0x106aa070 ⊞ w15) in
  uint32 w0 := w0 ⊞ (sigma1 w14 ⊞ w9 ⊞ sigma0 w1) in let '(d, h) := Round a b c d e f g h (0x19a4c116 ⊞ w0) in
  uint32 w1 := w1 ⊞ (sigma1 w15 ⊞ w10 ⊞ sigma0 w2) in let '(c, g) := Round h a b c d e f g (0x1e376c08 ⊞ w1) in
  uint32 w2 := w2 ⊞ (sigma1 w0 ⊞ w11 ⊞ sigma0 w3) in let '(b, f) := Round g h a b c d e f (0x2748774c ⊞ w2) in
  uint32 w3 := w3 ⊞ (sigma1 w1 ⊞ w12 ⊞ sigma0 w4) in let '(a, e) := Round f g h a b c d e (0x34b0bcb5 ⊞ w3) in
  uint32 w4 := w4 ⊞ (sigma1 w2 ⊞ w13 ⊞ sigma0 w5) in let '(h, d) := Round e f g h a b c d (0x391c0cb3 ⊞ w4) in
  uint32 w5 := w5 ⊞ (sigma1 w3 ⊞ w14 ⊞ sigma0 w6) in let '(g, c) := Round d e f g h a b c (0x4ed8aa4a ⊞ w5) in
  uint32 w6 := w6 ⊞ (sigma1 w4 ⊞ w15 ⊞ sigma0 w7) in let '(f, b) := Round c d e f g h a b (0x5b9cca4f ⊞ w6) in
  uint32 w7 := w7 ⊞ (sigma1 w5 ⊞ w0 ⊞ sigma0 w8) in let '(e, a) := Round b c d e f g h a (0x682e6ff3 ⊞ w7) in
  uint32 w8 := w8 ⊞ (sigma1 w6 ⊞ w1 ⊞ sigma0 w9) in let '(d, h) := Round a b c d e f g h (0x748f82ee ⊞ w8) in
  uint32 w9 := w9 ⊞ (sigma1 w7 ⊞ w2 ⊞ sigma0 w10) in let '(c, g) := Round h a b c d e f g (0x78a5636f ⊞ w9) in
  uint32 w10 := w10 ⊞ (sigma1 w8 ⊞ w3 ⊞ sigma0 w11) in let '(b, f) := Round g h a b c d e f (0x84c87814 ⊞ w10) in
  uint32 w11 := w11 ⊞ (sigma1 w9 ⊞ w4 ⊞ sigma0 w12) in let '(a, e) := Round f g h a b c d e (0x8cc70208 ⊞ w11) in
  uint32 w12 := w12 ⊞ (sigma1 w10 ⊞ w5 ⊞ sigma0 w13) in let '(h, d) := Round e f g h a b c d (0x90befffa ⊞ w12) in
  uint32 w13 := w13 ⊞ (sigma1 w11 ⊞ w6 ⊞ sigma0 w14) in let '(g, c) := Round d e f g h a b c (0xa4506ceb ⊞ w13) in
  let '(f, b) := Round c d e f g h a b (0xbef9a3f7 ⊞ (w14 ⊞ sigma1 w12 ⊞ w7 ⊞ sigma0 w15)) in
  let '(e, a) := Round b c d e f g h a (0xc67178f2 ⊞ (w15 ⊞ sigma1 w13 ⊞ w8 ⊞ sigma0 w0)) in
  (s0 ⊞ a, s1 ⊞ b, s2 ⊞ c, s3 ⊞ d, s4 ⊞ e, s5 ⊞ f, s6 ⊞ g, s7 ⊞ h).

Fixpoint Transform (s : State) (chunk : list Z) (blocks : nat) {struct blocks} : State :=
  match blocks with
  | O => s
  | S blocks => Transform (Transform1 s (take 64 chunk)) (drop 64 chunk) blocks
  end.

(** ** TransformD64, in its three parts: the input block, its padding block, the second hash *)

Definition TransformD64_1 (chunk : list Z) : State :=
  let '(a, b, c, d, e, f, g, h) := Initialize in
  uint32 w0 := ReadBE32 (drop 0 chunk) in let '(d, h) := Round a b c d e f g h (0x428a2f98 ⊞ w0) in
  uint32 w1 := ReadBE32 (drop 4 chunk) in let '(c, g) := Round h a b c d e f g (0x71374491 ⊞ w1) in
  uint32 w2 := ReadBE32 (drop 8 chunk) in let '(b, f) := Round g h a b c d e f (0xb5c0fbcf ⊞ w2) in
  uint32 w3 := ReadBE32 (drop 12 chunk) in let '(a, e) := Round f g h a b c d e (0xe9b5dba5 ⊞ w3) in
  uint32 w4 := ReadBE32 (drop 16 chunk) in let '(h, d) := Round e f g h a b c d (0x3956c25b ⊞ w4) in
  uint32 w5 := ReadBE32 (drop 20 chunk) in let '(g, c) := Round d e f g h a b c (0x59f111f1 ⊞ w5) in
  uint32 w6 := ReadBE32 (drop 24 chunk) in let '(f, b) := Round c d e f g h a b (0x923f82a4 ⊞ w6) in
  uint32 w7 := ReadBE32 (drop 28 chunk) in let '(e, a) := Round b c d e f g h a (0xab1c5ed5 ⊞ w7) in
  uint32 w8 := ReadBE32 (drop 32 chunk) in let '(d, h) := Round a b c d e f g h (0xd807aa98 ⊞ w8) in
  uint32 w9 := ReadBE32 (drop 36 chunk) in let '(c, g) := Round h a b c d e f g (0x12835b01 ⊞ w9) in
  uint32 w10 := ReadBE32 (drop 40 chunk) in let '(b, f) := Round g h a b c d e f (0x243185be ⊞ w10) in
  uint32 w11 := ReadBE32 (drop 44 chunk) in let '(a, e) := Round f g h a b c d e (0x550c7dc3 ⊞ w11) in
  uint32 w12 := ReadBE32 (drop 48 chunk) in let '(h, d) := Round e f g h a b c d (0x72be5d74 ⊞ w12) in
  uint32 w13 := ReadBE32 (drop 52 chunk) in let '(g, c) := Round d e f g h a b c (0x80deb1fe ⊞ w13) in
  uint32 w14 := ReadBE32 (drop 56 chunk) in let '(f, b) := Round c d e f g h a b (0x9bdc06a7 ⊞ w14) in
  uint32 w15 := ReadBE32 (drop 60 chunk) in let '(e, a) := Round b c d e f g h a (0xc19bf174 ⊞ w15) in
  uint32 w0 := w0 ⊞ (sigma1 w14 ⊞ w9 ⊞ sigma0 w1) in let '(d, h) := Round a b c d e f g h (0xe49b69c1 ⊞ w0) in
  uint32 w1 := w1 ⊞ (sigma1 w15 ⊞ w10 ⊞ sigma0 w2) in let '(c, g) := Round h a b c d e f g (0xefbe4786 ⊞ w1) in
  uint32 w2 := w2 ⊞ (sigma1 w0 ⊞ w11 ⊞ sigma0 w3) in let '(b, f) := Round g h a b c d e f (0x0fc19dc6 ⊞ w2) in
  uint32 w3 := w3 ⊞ (sigma1 w1 ⊞ w12 ⊞ sigma0 w4) in let '(a, e) := Round f g h a b c d e (0x240ca1cc ⊞ w3) in
  uint32 w4 := w4 ⊞ (sigma1 w2 ⊞ w13 ⊞ sigma0 w5) in let '(h, d) := Round e f g h a b c d (0x2de92c6f ⊞ w4) in
  uint32 w5 := w5 ⊞ (sigma1 w3 ⊞ w14 ⊞ sigma0 w6) in let '(g, c) := Round d e f g h a b c (0x4a7484aa ⊞ w5) in
  uint32 w6 := w6 ⊞ (sigma1 w4 ⊞ w15 ⊞ sigma0 w7) in let '(f, b) := Round c d e f g h a b (0x5cb0a9dc ⊞ w6) in
  uint32 w7 := w7 ⊞ (sigma1 w5 ⊞ w0 ⊞ sigma0 w8) in let '(e, a) := Round b c d e f g h a (0x76f988da ⊞ w7) in
  uint32 w8 := w8 ⊞ (sigma1 w6 ⊞ w1 ⊞ sigma0 w9) in let '(d, h) := Round a b c d e f g h (0x983e5152 ⊞ w8) in
  uint32 w9 := w9 ⊞ (sigma1 w7 ⊞ w2 ⊞ sigma0 w10) in let '(c, g) := Round h a b c d e f g (0xa831c66d ⊞ w9) in
  uint32 w10 := w10 ⊞ (sigma1 w8 ⊞ w3 ⊞ sigma0 w11) in let '(b, f) := Round g h a b c d e f (0xb00327c8 ⊞ w10) in
  uint32 w11 := w11 ⊞ (sigma1 w9 ⊞ w4 ⊞ sigma0 w12) in let '(a, e) := Round f g h a b c d e (0xbf597fc7 ⊞ w11) in
  uint32 w12 := w12 ⊞ (sigma1 w10 ⊞ w5 ⊞ sigma0 w13) in let '(h, d) := Round e f g h a b c d (0xc6e00bf3 ⊞ w12) in
  uint32 w13 := w13 ⊞ (sigma1 w11 ⊞ w6 ⊞ sigma0 w14) in let '(g, c) := Round d e f g h a b c (0xd5a79147 ⊞ w13) in
  uint32 w14 := w14 ⊞ (sigma1 w12 ⊞ w7 ⊞ sigma0 w15) in let '(f, b) := Round c d e f g h a b (0x06ca6351 ⊞ w14) in
  uint32 w15 := w15 ⊞ (sigma1 w13 ⊞ w8 ⊞ sigma0 w0) in let '(e, a) := Round b c d e f g h a (0x14292967 ⊞ w15) in
  uint32 w0 := w0 ⊞ (sigma1 w14 ⊞ w9 ⊞ sigma0 w1) in let '(d, h) := Round a b c d e f g h (0x27b70a85 ⊞ w0) in
  uint32 w1 := w1 ⊞ (sigma1 w15 ⊞ w10 ⊞ sigma0 w2) in let '(c, g) := Round h a b c d e f g (0x2e1b2138 ⊞ w1) in
  uint32 w2 := w2 ⊞ (sigma1 w0 ⊞ w11 ⊞ sigma0 w3) in let '(b, f) := Round g h a b c d e f (0x4d2c6dfc ⊞ w2) in
  uint32 w3 := w3 ⊞ (sigma1 w1 ⊞ w12 ⊞ sigma0 w4) in let '(a, e) := Round f g h a b c d e (0x53380d13 ⊞ w3) in
  uint32 w4 := w4 ⊞ (sigma1 w2 ⊞ w13 ⊞ sigma0 w5) in let '(h, d) := Round e f g h a b c d (0x650a7354 ⊞ w4) in
  uint32 w5 := w5 ⊞ (sigma1 w3 ⊞ w14 ⊞ sigma0 w6) in let '(g, c) := Round d e f g h a b c (0x766a0abb ⊞ w5) in
  uint32 w6 := w6 ⊞ (sigma1 w4 ⊞ w15 ⊞ sigma0 w7) in let '(f, b) := Round c d e f g h a b (0x81c2c92e ⊞ w6) in
  uint32 w7 := w7 ⊞ (sigma1 w5 ⊞ w0 ⊞ sigma0 w8) in let '(e, a) := Round b c d e f g h a (0x92722c85 ⊞ w7) in
  uint32 w8 := w8 ⊞ (sigma1 w6 ⊞ w1 ⊞ sigma0 w9) in let '(d, h) := Round a b c d e f g h (0xa2bfe8a1 ⊞ w8) in
  uint32 w9 := w9 ⊞ (sigma1 w7 ⊞ w2 ⊞ sigma0 w10) in let '(c, g) := Round h a b c d e f g (0xa81a664b ⊞ w9) in
  uint32 w10 := w10 ⊞ (sigma1 w8 ⊞ w3 ⊞ sigma0 w11) in let '(b, f) := Round g h a b c d e f (0xc24b8b70 ⊞ w10) in
  uint32 w11 := w11 ⊞ (sigma1 w9 ⊞ w4 ⊞ sigma0 w12) in let '(a, e) := Round f g h a b c d e (0xc76c51a3 ⊞ w11) in
  uint32 w12 := w12 ⊞ (sigma1 w10 ⊞ w5 ⊞ sigma0 w13) in let '(h, d) := Round e f g h a b c d (0xd192e819 ⊞ w12) in
  uint32 w13 := w13 ⊞ (sigma1 w11 ⊞ w6 ⊞ sigma0 w14) in let '(g, c) := Round d e f g h a b c (0xd6990624 ⊞ w13) in
  uint32 w14 := w14 ⊞ (sigma1 w12 ⊞ w7 ⊞ sigma0 w15) in let '(f, b) := Round c d e f g h a b (0xf40e3585 ⊞ w14) in
  uint32 w15 := w15 ⊞ (sigma1 w13 ⊞ w8 ⊞ sigma0 w0) in let '(e, a) := Round b c d e f g h a (0x106aa070 ⊞ w15) in
  uint32 w0 := w0 ⊞ (sigma1 w14 ⊞ w9 ⊞ sigma0 w1) in let '(d, h) := Round a b c d e f g h (0x19a4c116 ⊞ w0) in
  uint32 w1 := w1 ⊞ (sigma1 w15 ⊞ w10 ⊞ sigma0 w2) in let '(c, g) := Round h a b c d e f g (0x1e376c08 ⊞ w1) in
  uint32 w2 := w2 ⊞ (sigma1 w0 ⊞ w11 ⊞ sigma0 w3) in let '(b, f) := Round g h a b c d e f (0x2748774c ⊞ w2) in
  uint32 w3 := w3 ⊞ (sigma1 w1 ⊞ w12 ⊞ sigma0 w4) in let '(a, e) := Round f g h a b c d e (0x34b0bcb5 ⊞ w3) in
  uint32 w4 := w4 ⊞ (sigma1 w2 ⊞ w13 ⊞ sigma0 w5) in let '(h, d) := Round e f g h a b c d (0x391c0cb3 ⊞ w4) in
  uint32 w5 := w5 ⊞ (sigma1 w3 ⊞ w14 ⊞ sigma0 w6) in let '(g, c) := Round d e f g h a b c (0x4ed8aa4a ⊞ w5) in
  uint32 w6 := w6 ⊞ (sigma1 w4 ⊞ w15 ⊞ sigma0 w7) in let '(f, b) := Round c d e f g h a b (0x5b9cca4f ⊞ w6) in
  uint32 w7 := w7 ⊞ (sigma1 w5 ⊞ w0 ⊞ sigma0 w8) in let '(e, a) := Round b c d e f g h a (0x682e6ff3 ⊞ w7) in
  uint32 w8 := w8 ⊞ (sigma1 w6 ⊞ w1 ⊞ sigma0 w9) in let '(d, h) := Round a b c d e f g h (0x748f82ee ⊞ w8) in
  uint32 w9 := w9 ⊞ (sigma1 w7 ⊞ w2 ⊞ sigma0 w10) in let '(c, g) := Round h a b c d e f g (0x78a5636f ⊞ w9) in
  uint32 w10 := w10 ⊞ (sigma1 w8 ⊞ w3 ⊞ sigma0 w11) in let '(b, f) := Round g h a b c d e f (0x84c87814 ⊞ w10) in
  uint32 w11 := w11 ⊞ (sigma1 w9 ⊞ w4 ⊞ sigma0 w12) in let '(a, e) := Round f g h a b c d e (0x8cc70208 ⊞ w11) in
  uint32 w12 := w12 ⊞ (sigma1 w10 ⊞ w5 ⊞ sigma0 w13) in let '(h, d) := Round e f g h a b c d (0x90befffa ⊞ w12) in
  uint32 w13 := w13 ⊞ (sigma1 w11 ⊞ w6 ⊞ sigma0 w14) in let '(g, c) := Round d e f g h a b c (0xa4506ceb ⊞ w13) in
  let '(f, b) := Round c d e f g h a b (0xbef9a3f7 ⊞ (w14 ⊞ sigma1 w12 ⊞ w7 ⊞ sigma0 w15)) in
  let '(e, a) := Round b c d e f g h a (0xc67178f2 ⊞ (w15 ⊞ sigma1 w13 ⊞ w8 ⊞ sigma0 w0)) in
  (a ⊞ 0x6a09e667, b ⊞ 0xbb67ae85, c ⊞ 0x3c6ef372, d ⊞ 0xa54ff53a, e ⊞ 0x510e527f, f ⊞ 0x9b05688c, g ⊞ 0x1f83d9ab, h ⊞ 0x5be0cd19).

Definition TransformD64_2 (t : State) : State :=
  let '(t0, t1, t2, t3, t4, t5, t6, t7) := t in
  let '(a, b, c, d, e, f, g, h) := t in
  let '(d, h) := Round a b c d e f g h 0xc28a2f98 in
  let '(c, g) := Round h a b c d e f g 0x71374491 in
  let '(b, f) := Round g h a b c d e f 0xb5c0fbcf in
  let '(a, e) := Round f g h a b c d e 0xe9b5dba5 in
  let '(h, d) := Round e f g h a b c d 0x3956c25b in
  let '(g, c) := Round d e f g h a b c 0x59f111f1 in
  let '(f, b) := Round c d e f g h a b 0x923f82a4 in
  let '(e, a) := Round b c d e f g h a 0xab1c5ed5 in
  let '(d, h) := Round a b c d e f g h 0xd807aa98 in
  let '(c, g) := Round h a b c d e f g 0x12835b01 in
  let '(b, f) := Round g h a b c d e f 0x243185be in
  let '(a, e) := Round f g h a b c d e 0x550c7dc3 in
  let '(h, d) := Round e f g h a b c d 0x72be5d74 in
  let '(g, c) := Round d e f g h a b c 0x80deb1fe in
  let '(f, b) := Round c d e f g h a b 0x9bdc06a7 in
  let '(e, a) := Round b c d e f g h a 0xc19bf374 in
  let '(d, h) := Round a b c d e f g h 0x649b69c1 in
  let '(c, g) := Round h a b c d e f g 0xf0fe4786 in
  let '(b, f) := Round g h a b c d e f 0x0fe1edc6 in
  let '(a, e) := Round f g h a b c d e 0x240cf254 in
  let '(h, d) := Round e f g h a b c d 0x4fe9346f in
  let '(g, c) := Round d e f g h a b c 0x6cc984be in
  let '(f, b) := Round c d e f g h a b 0x61b9411e in
  let '(e, a) := Round b c d e f g h a 0x16f988fa in
  let '(d, h) := Round a b c d e f g h 0xf2c65152 in
  let '(c, g) := Round h a b c d e f g 0xa88e5a6d in
  let '(b, f) := Round g h a b c d e f 0xb019fc65 in
  let '(a, e) := Round f g h a b c d e 0xb9d99ec7 in
  let '(h, d) := Round e f g h a b c d 0x9a1231c3 in
  let '(g, c) := Round d e f g h a b c 0xe70eeaa0 in
  let '(f, b) := Round c d e f g h a b 0xfdb1232b in
  let '(e, a) := Round b c d e f g h a 0xc7353eb0 in
  let '(d, h) := Round a b c d e f g h 0x3069bad5 in
  let '(c, g) := Round h a b c d e f g 0xcb976d5f in
  let '(b, f) := Round g h a b c d e f 0x5a0f118f in
  let '(a, e) := Round f g h a b c d e 0xdc1eeefd in
  let '(h, d) := Round e f g h a b c d 0x0a35b689 in
  let '(g, c) := Round d e f g h a b c 0xde0b7a04 in
  let '(f, b) := Round c d e f g h a b 0x58f4ca9d in
  let '(e, a) := Round b c d e f g h a 0xe15d5b16 in
  let '(d, h) := Round a b c d e f g h 0x007f3e86 in
  let '(c, g) := Round h a b c d e f g 0x37088980 in
  let '(b, f) := Round g h a b c d e f 0xa507ea32 in
  let '(a, e) := Round f g h a b c d e 0x6fab9537 in
  let '(h, d) := Round e f g h a b c d 0x17406110 in
  let '(g, c) := Round d e f g h a b c 0x0d8cd6f1 in
  let '(f, b) := Round c d e f g h a b 0xcdaa3b6d in
  let '(e, a) := Round b c d e f g h a 0xc0bbbe37 in
  let '(d, h) := Round a b c d e f g h 0x83613bda in
  let '(c, g) := Round h a b c d e f g 0xdb48a363 in
  let '(b, f) := Round g h a b c d e f 0x0b02e931 in
  let '(a, e) := Round f g h a b c d e 0x6fd15ca7 in
  let '(h, d) := Round e f g h a b c d 0x521afaca in
  let '(g, c) := Round d e f g h a b c 0x31338431 in
  let '(f, b) := Round c d e f g h a b 0x6ed41a95 in
  let '(e, a) := Round b c d e f g h a 0x6d437890 in
  let '(d, h) := Round a b c d e f g h 0xc39c91f2 in
  let '(c, g) := Round h a b c d e f g 0x9eccabbd in
  let '(b, f) := Round g h a b c d e f 0xb5c9a0e6 in
  let '(a, e) := Round f g h a b c d e 0x532fb63c in
  let '(h, d) := Round e f g h a b c d 0xd2c741c6 in
  let '(g, c) := Round d e f g h a b c 0x07237ea3 in
  let '(f, b) := Round c d e f g h a b 0xa4954b68 in
  let '(e, a) := Round b c d e f g h a 0x4c191d76 in
  (t0 ⊞ a, t1 ⊞ b, t2 ⊞ c, t3 ⊞ d, t4 ⊞ e, t5 ⊞ f, t6 ⊞ g, t7 ⊞ h).

Definition TransformD64_3 (w : State) : State :=
  let '(w0, w1, w2, w3, w4, w5, w6, w7) := w in
  let '(a, b, c, d, e, f, g, h) := Initialize in
  let '(d, h) := Round a b c d e f g h (0x428a2f98 ⊞ w0) in
  let '(c, g) := Round h a b c d e f g (0x71374491 ⊞ w1) in
  let '(b, f) := Round g h a b c d e f (0xb5c0fbcf ⊞ w2) in
  let '(a, e) := Round f g h a b c d e (0xe9b5dba5 ⊞ w3) in
  let '(h, d) := Round e f g h a b c d (0x3956c25b ⊞ w4) in
  let '(g, c) := Round d e f g h a b c (0x59f111f1 ⊞ w5) in
  let '(f, b) := Round c d e f g h a b (0x923f82a4 ⊞ w6) in
  let '(e, a) := Round b c d e f g h a (0xab1c5ed5 ⊞ w7) in
  let '(d, h) := Round a b c d e f g h 0x5807aa98 in
  let '(c, g) := Round h a b c d e f g 0x12835b01 in
  let '(b, f) := Round g h a b c d e f 0x243185be in
  let '(a, e) := Round f g h a b c d e 0x550c7dc3 in
  let '(h, d) := Round e f g h a b c d 0x72be5d74 in
  let '(g, c) := Round d e f g h a b c 0x80deb1fe in
  let '(f, b) := Round c d e f g h a b 0x9bdc06a7 in
  let '(e, a) := Round b c d e f g h a 0xc19bf274 in
  uint32 w0 := w0 ⊞ (sigma0 w1) in let '(d, h) := Round a b c d e f g h (0xe49b69c1 ⊞ w0) in
  uint32 w1 := w1 ⊞ (0xa00000 ⊞ sigma0 w2) in let '(c, g) := Round h a b c d e f g (0xefbe4786 ⊞ w1) in
  uint32 w2 := w2 ⊞ (sigma1 w0 ⊞ sigma0 w3) in let '(b, f) := Round g h a b c d e f (0x0fc19dc6 ⊞ w2) in
  uint32 w3 := w3 ⊞ (sigma1 w1 ⊞ sigma0 w4) in let '(a, e) := Round f g h a b c d e (0x240ca1cc ⊞ w3) in
  uint32 w4 := w4 ⊞ (sigma1 w2 ⊞ sigma0 w5) in let '(h, d) := Round e f g h a b c d (0x2de92c6f ⊞ w4) in
  uint32 w5 := w5 ⊞ (sigma1 w3 ⊞ sigma0 w6) in let '(g, c) := Round d e f g h a b c (0x4a7484aa ⊞ w5) in
  uint32 w6 := w6 ⊞ (sigma1 w4 ⊞ 0x100 ⊞ sigma0 w7) in let '(f, b) := Round c d e f g h a b (0x5cb0a9dc ⊞ w6) in
  uint32 w7 := w7 ⊞ (sigma1 w5 ⊞ w0 ⊞ 0x11002000) in let '(e, a) := Round b c d e f g h a (0x76f988da ⊞ w7) in
  uint32 w8 := 0x80000000 ⊞ sigma1 w6 ⊞ w1 in let '(d, h) := Round a b c d e f g h (0x983e5152 ⊞ w8) in
  uint32 w9 := sigma1 w7 ⊞ w2 in let '(c, g) := Round h a b c d e f g (0xa831c66d ⊞ w9) in
  uint32 w10 := sigma1 w8 ⊞ w3 in let '(b, f) := Round g h a b c d e f (0xb00327c8 ⊞ w10) in
  uint32 w11 := sigma1 w9 ⊞ w4 in let '(a, e) := Round f g h a b c d e (0xbf597fc7 ⊞ w11) in
  uint32 w12 := sigma1 w10 ⊞ w5 in let '(h, d) := Round e f g h a b c d (0xc6e00bf3 ⊞ w12) in
  uint32 w13 := sigma1 w11 ⊞ w6 in let '(g, c) := Round d e f g h a b c (0xd5a79147 ⊞ w13) in
  uint32 w14 := sigma1 w12 ⊞ w7 ⊞ 0x400022 in let '(f, b) := Round c d e f g h a b (0x06ca6351 ⊞ w14) in
  uint32 w15 := 0x100 ⊞ sigma1 w13 ⊞ w8 ⊞ sigma0 w0 in let '(e, a) := Round b c d e f g h a (0x14292967 ⊞ w15) in
  uint32 w0 := w0 ⊞ (sigma1 w14 ⊞ w9 ⊞ sigma0 w1) in let '(d, h) := Round a b c d e f g h (0x27b70a85 ⊞ w0) in
  uint32 w1 := w1 ⊞ (sigma1 w15 ⊞ w10 ⊞ sigma0 w2) in let '(c, g) := Round h a b c d e f g (0x2e1b2138 ⊞ w1) in
  uint32 w2 := w2 ⊞ (sigma1 w0 ⊞ w11 ⊞ sigma0 w3) in let '(b, f) := Round g h a b c d e f (0x4d2c6dfc ⊞ w2) in
  uint32 w3 := w3 ⊞ (sigma1 w1 ⊞ w12 ⊞ sigma0 w4) in let '(a, e) := Round f g h a b c d e (0x53380d13 ⊞ w3) in
  uint32 w4 := w4 ⊞ (sigma1 w2 ⊞ w13 ⊞ sigma0 w5) in let '(h, d) := Round e f g h a b c d (0x650a7354 ⊞ w4) in
  uint32 w5 := w5 ⊞ (sigma1 w3 ⊞ w14 ⊞ sigma0 w6) in let '(g, c) := Round d e f g h a b c (0x766a0abb ⊞ w5) in
  uint32 w6 := w6 ⊞ (sigma1 w4 ⊞ w15 ⊞ sigma0 w7) in let '(f, b) := Round c d e f g h a b (0x81c2c92e ⊞ w6) in
  uint32 w7 := w7 ⊞ (sigma1 w5 ⊞ w0 ⊞ sigma0 w8) in let '(e, a) := Round b c d e f g h a (0x92722c85 ⊞ w7) in
  uint32 w8 := w8 ⊞ (sigma1 w6 ⊞ w1 ⊞ sigma0 w9) in let '(d, h) := Round a b c d e f g h (0xa2bfe8a1 ⊞ w8) in
  uint32 w9 := w9 ⊞ (sigma1 w7 ⊞ w2 ⊞ sigma0 w10) in let '(c, g) := Round h a b c d e f g (0xa81a664b ⊞ w9) in
  uint32 w10 := w10 ⊞ (sigma1 w8 ⊞ w3 ⊞ sigma0 w11) in let '(b, f) := Round g h a b c d e f (0xc24b8b70 ⊞ w10) in
  uint32 w11 := w11 ⊞ (sigma1 w9 ⊞ w4 ⊞ sigma0 w12) in let '(a, e) := Round f g h a b c d e (0xc76c51a3 ⊞ w11) in
  uint32 w12 := w12 ⊞ (sigma1 w10 ⊞ w5 ⊞ sigma0 w13) in let '(h, d) := Round e f g h a b c d (0xd192e819 ⊞ w12) in
  uint32 w13 := w13 ⊞ (sigma1 w11 ⊞ w6 ⊞ sigma0 w14) in let '(g, c) := Round d e f g h a b c (0xd6990624 ⊞ w13) in
  uint32 w14 := w14 ⊞ (sigma1 w12 ⊞ w7 ⊞ sigma0 w15) in let '(f, b) := Round c d e f g h a b (0xf40e3585 ⊞ w14) in
  uint32 w15 := w15 ⊞ (sigma1 w13 ⊞ w8 ⊞ sigma0 w0) in let '(e, a) := Round b c d e f g h a (0x106aa070 ⊞ w15) in
  uint32 w0 := w0 ⊞ (sigma1 w14 ⊞ w9 ⊞ sigma0 w1) in let '(d, h) := Round a b c d e f g h (0x19a4c116 ⊞ w0) in
  uint32 w1 := w1 ⊞ (sigma1 w15 ⊞ w10 ⊞ sigma0 w2) in let '(c, g) := Round h a b c d e f g (0x1e376c08 ⊞ w1) in
  uint32 w2 := w2 ⊞ (sigma1 w0 ⊞ w11 ⊞ sigma0 w3) in let '(b, f) := Round g h a b c d e f (0x2748774c ⊞ w2) in
  uint32 w3 := w3 ⊞ (sigma1 w1 ⊞ w12 ⊞ sigma0 w4) in let '(a, e) := Round f g h a b c d e (0x34b0bcb5 ⊞ w3) in
  uint32 w4 := w4 ⊞ (sigma1 w2 ⊞ w13 ⊞ sigma0 w5) in let '(h, d) := Round e f g h a b c d (0x391c0cb3 ⊞ w4) in
  uint32 w5 := w5 ⊞ (sigma1 w3 ⊞ w14 ⊞ sigma0 w6) in let '(g, c) := Round d e f g h a b c (0x4ed8aa4a ⊞ w5) in
  uint32 w6 := w6 ⊞ (sigma1 w4 ⊞ w15 ⊞ sigma0 w7) in let '(f, b) := Round c d e f g h a b (0x5b9cca4f ⊞ w6) in
  uint32 w7 := w7 ⊞ (sigma1 w5 ⊞ w0 ⊞ sigma0 w8) in let '(e, a) := Round b c d e f g h a (0x682e6ff3 ⊞ w7) in
  uint32 w8 := w8 ⊞ (sigma1 w6 ⊞ w1 ⊞ sigma0 w9) in let '(d, h) := Round a b c d e f g h (0x748f82ee ⊞ w8) in
  uint32 w9 := w9 ⊞ (sigma1 w7 ⊞ w2 ⊞ sigma0 w10) in let '(c, g) := Round h a b c d e f g (0x78a5636f ⊞ w9) in
  uint32 w10 := w10 ⊞ (sigma1 w8 ⊞ w3 ⊞ sigma0 w11) in let '(b, f) := Round g h a b c d e f (0x84c87814 ⊞ w10) in
  uint32 w11 := w11 ⊞ (sigma1 w9 ⊞ w4 ⊞ sigma0 w12) in let '(a, e) := Round f g h a b c d e (0x8cc70208 ⊞ w11) in
  uint32 w12 := w12 ⊞ (sigma1 w10 ⊞ w5 ⊞ sigma0 w13) in let '(h, d) := Round e f g h a b c d (0x90befffa ⊞ w12) in
  uint32 w13 := w13 ⊞ (sigma1 w11 ⊞ w6 ⊞ sigma0 w14) in let '(g, c) := Round d e f g h a b c (0xa4506ceb ⊞ w13) in
  let '(f, b) := Round c d e f g h a b (0xbef9a3f7 ⊞ (w14 ⊞ sigma1 w12 ⊞ w7 ⊞ sigma0 w15)) in
  let '(e, a) := Round b c d e f g h a (0xc67178f2 ⊞ (w15 ⊞ sigma1 w13 ⊞ w8 ⊞ sigma0 w0)) in
  (a ⊞ 0x6a09e667, b ⊞ 0xbb67ae85, c ⊞ 0x3c6ef372, d ⊞ 0xa54ff53a, e ⊞ 0x510e527f, f ⊞ 0x9b05688c, g ⊞ 0x1f83d9ab, h ⊞ 0x5be0cd19).

(** [WriteBE32] of every word of the state. *)
Definition State_bytes (s : State) : list Z :=
  let '(s0, s1, s2, s3, s4, s5, s6, s7) := s in
  WriteBE32 s0 ++ WriteBE32 s1 ++ WriteBE32 s2 ++ WriteBE32 s3 ++ WriteBE32 s4 ++ WriteBE32 s5 ++ WriteBE32 s6 ++ WriteBE32 s7.

Definition TransformD64 (input : list Z) : list Z :=
  State_bytes (TransformD64_3 (TransformD64_2 (TransformD64_1 input))).

Definition padding1 : list Z := 0x80 :: replicate 61 0 ++ [2; 0].
(** [buffer2] after its first 32 bytes. *)
Definition buffer2_tail : list Z := 0x80 :: replicate 29 0 ++ [1; 0].

Definition TransformD64Wrapper (tr : State -> list Z -> nat -> State) (input : list Z) : list Z :=
  let s := tr Initialize input 1%nat in
  let s := tr s padding1 1%nat in
  let buffer2 := State_bytes s ++ buffer2_tail in
  State_bytes (tr Initialize buffer2 1%nat).

(** [SHA256D64] with no vectorised version selected, on a memory [mem] that holds the output at [out] and
    the input at [inp]; the caller in consensus/merkle.cpp passes the same buffer for both. *)
Fixpoint SHA256D64 (mem : list Z) (out inp : nat) (blocks : nat) {struct blocks} : list Z :=
  match blocks with
  | O => mem
  | S blocks =>
      let mem := memcpy mem out (TransformD64 (take 64 (drop inp mem))) in
      SHA256D64 mem (out + 32) (inp + 64) blocks
  end.

(** ** CSHA256 *)

Definition CSHA256_new (junk : list Z) : Hasher State := Hasher_new Initialize junk.
Definition CSHA256_Reset (h : Hasher State) : Hasher State := Hasher_Reset Initialize h.

Definition CSHA256_Write (h : Hasher State) (data : list Z) : Hasher State :=
  let '(h, data, bufsize) := Write_fill 64 (fun s buf => Transform s buf 1) h data in
  let '(h, data) :=
    if (64 <=? length data)%nat then
      let blocks := (length data / 64)%nat in
      (mkHasher (Transform (hs h) data blocks) (hbuf h) (u64 (hbytes h + 64 * Z.of_nat blocks)),
       drop (64 * blocks) data)
    else (h, data) in
  Write_rest h data bufsize.

(** The hasher [Finalize] leaves behind, and the digest. *)
Definition CSHA256_finish (h : Hasher State) : Hasher State :=
  Finalize_writes 64 CSHA256_Write h (WriteBE64 (Z.shiftl (hbytes h) 3)).

Definition CSHA256_Finalize (h : Hasher State) : list Z := State_bytes (hs (CSHA256_finish h)).
