(* ===== verification/Sha256Spec.v ===== *)
(** * SHA-256 as specified, and the code's hash

    The reference is the algorithm of FIPS 180-4: the functions of its section 4.1.2, the constants of
    4.2.2, padding (5.1.1), and the hash computation of 6.2.2 with the message schedule and the working
    variables rotated in every step.  The unrolled [Transform], the constant-folded [TransformD64] and
    the streaming class CSHA256 are shown to compute it. *)

From S2P Require Import Prelude Hasher Sha256.

Open Scope word_scope.

(** ** FIPS 180-4 *)

Definition fips_K : list Z := map (cbrt_fraction 32) (take 64 primes).

(** The initial hash value. *)
Definition fips_H0 : State :=
  match map (sqrt_fraction 32) (take 8 primes) with
  | [H0; H1; H2; H3; H4; H5; H6; H7] => (H0, H1, H2, H3, H4, H5, H6, H7)
  | _ => (0, 0, 0, 0, 0, 0, 0, 0)
  end.

Definition ROTR (n x : Z) : Z := x ⟖ n .| x ⟕ (32 - n).
Definition fips_Ch (x y z : Z) : Z := (x .& y) .^ (Z.lnot x .& z).
Definition fips_Maj (x y z : Z) : Z := (x .& y) .^ (x .& z) .^ (y .& z).
Definition fips_Sigma0 (x : Z) : Z := ROTR 2 x .^ ROTR 13 x .^ ROTR 22 x.
Definition fips_Sigma1 (x : Z) : Z := ROTR 6 x .^ ROTR 11 x .^ ROTR 25 x.
Definition fips_sigma0 (x : Z) : Z := ROTR 7 x .^ ROTR 18 x .^ x ⟖ 3.
Definition fips_sigma1 (x : Z) : Z := ROTR 17 x .^ ROTR 19 x .^ x ⟖ 10.

(** The message schedule, from the last sixteen words W(t-16), ..., W(t-1). *)
Definition fips_next (W : list Z) : Z :=
  fips_sigma1 (nth 14 W 0) ⊞ nth 9 W 0 ⊞ fips_sigma0 (nth 1 W 0) ⊞ nth 0 W 0.

Fixpoint fips_schedule (n : nat) (W : list Z) : list Z :=
  match n with
  | O => []
  | S n => nth 0 W 0 :: fips_schedule n (tail W ++ [fips_next W])
  end.

Definition fips_step (s : State) (KW : Z * Z) : State :=
  let '(a, b, c, d, e, f, g, h) := s in
  let T1 := h ⊞ fips_Sigma1 e ⊞ fips_Ch e f g ⊞ fst KW ⊞ snd KW in
  let T2 := fips_Sigma0 a ⊞ fips_Maj a b c in
  (T1 ⊞ T2, a, b, c, d ⊞ T1, e, f, g).

Definition fips_words (M : list Z) : list Z := map (fun t => ReadBE32 (drop (4 * t) M)) (seq 0 16).

Definition fips_add (H s : State) : State :=
  let '(H0, H1, H2, H3, H4, H5, H6, H7) := H in
  let '(a, b, c, d, e, f, g, h) := s in
  (a ⊞ H0, b ⊞ H1, c ⊞ H2, d ⊞ H3, e ⊞ H4, f ⊞ H5, g ⊞ H6, h ⊞ H7).

Definition fips_compress (H : State) (M : list Z) : State :=
  fips_add H (foldl fips_step H (zip fips_K (fips_schedule 64 (fips_words M)))).

(** The hash value of a message of [length m] bytes. *)
Definition fips_sha256 (m : list Z) : list Z :=
  let p := padded 64 (WriteBE64 (8 * zlen m)) m in
  State_bytes (absorb 64 fips_compress (length p / 64) fips_H0 p).

(** The state and the constants of the code are these. *)
Lemma Initialize_fips : Initialize = fips_H0.
Proof. vm_compute. reflexivity. Qed.

Definition fips_K_values : list Z := Eval vm_compute in fips_K.

Lemma fips_K_eq : fips_K = fips_K_values.
Proof. vm_compute. reflexivity. Qed.

(** ** The functions agree *)

Lemma Ch_fips x y z : Ch x y z = fips_Ch x y z.
Proof. unfold Ch, fips_Ch. word_bits. Qed.

Lemma Maj_fips x y z : Maj x y z = fips_Maj x y z.
Proof. unfold Maj, fips_Maj. word_bits. Qed.

(** The steps in the form of the code: the constant and the word already added, [Round] on the working
    variables. *)
Definition code_step (s : State) (k : Z) : State :=
  let '(a, b, c, d, e, f, g, h) := s in
  let '(d, h) := Round a b c d e f g h k in (h, a, b, c, d, e, f, g).

Definition code_rounds (ks : list Z) (s : State) : State := foldl code_step s ks.

Lemma fips_step_code s k w : fips_step s (k, w) = code_step s (k ⊞ w).
Proof.
  destruct s as [[[[[[[a b] c] d] e] f] g] h]. unfold fips_step, code_step, Round. cbn [fst snd].
  rewrite <- Ch_fips, <- Maj_fips. change (fips_Sigma1 e) with (Sigma1 e). change (fips_Sigma0 a) with (Sigma0 a).
  assert (HT : h ⊞ Sigma1 e ⊞ Ch e f g ⊞ k ⊞ w = h ⊞ Sigma1 e ⊞ Ch e f g ⊞ (k ⊞ w)) by word_sum.
  by rewrite HT.
Qed.

Lemma fips_rounds_code ks ws s :
  foldl fips_step s (zip ks ws) = code_rounds (zip_with add32 ks ws) s.
Proof.
  revert ws s. induction ks as [|k ks IH]; intros [|w ws] s; try done.
  cbn [zip zip_with]. unfold code_rounds. cbn [foldl]. rewrite fips_step_code. apply IH.
Qed.

Lemma code_rounds_step k ks a b c d e f g h d' h' :
  Round a b c d e f g h k = (d', h') ->
  code_rounds (k :: ks) (a, b, c, d, e, f, g, h) = code_rounds ks (h', a, b, c, d', e, f, g).
Proof. intros H. unfold code_rounds. cbn [foldl]. unfold code_step at 2. by rewrite H. Qed.

Lemma schedule_step n w0 w1 w2 w3 w4 w5 w6 w7 w8 w9 w10 w11 w12 w13 w14 w15 w16 :
  w16 = sigma1 w14 ⊞ w9 ⊞ sigma0 w1 ⊞ w0 ->
  fips_schedule (S n) [w0; w1; w2; w3; w4; w5; w6; w7; w8; w9; w10; w11; w12; w13; w14; w15] =
  w0 :: fips_schedule n [w1; w2; w3; w4; w5; w6; w7; w8; w9; w10; w11; w12; w13; w14; w15; w16].
Proof. by intros ->. Qed.

(** Names the next word of the schedule, with its equation. *)
Ltac schedule_word :=
  match goal with
  | |- context [fips_schedule (S ?n) [?w0; ?w1; ?w2; ?w3; ?w4; ?w5; ?w6; ?w7; ?w8; ?w9; ?w10; ?w11; ?w12; ?w13; ?w14; ?w15]] =>
      let w := fresh "w" in let Hw := fresh "Hw" in
      remember (sigma1 w14 ⊞ w9 ⊞ sigma0 w1 ⊞ w0) as w eqn:Hw;
      rewrite (schedule_step n w0 w1 w2 w3 w4 w5 w6 w7 w8 w9 w10 w11 w12 w13 w14 w15 w Hw)
  end.

(** A word given by the summands of [w], after evaluation of the functions of constants. *)
Ltac word_eq w :=
  match goal with H : w = _ |- _ => rewrite H; clear end;
  try change (sigma1 0) with 0; try change (sigma0 0) with 0;
  try change (sigma1 0x100) with 0xa00000; try change (sigma0 0x100) with 0x400022;
  try change (sigma0 0x80000000) with 0x11002000; word_sum.

Ltac rewrite_word x y :=
  first [ constr_eq x y
        | let H := fresh in
          assert (H : x = y) by first [reflexivity | match y with _ ⊞ ?w => word_eq w | _ => word_eq y end];
          rewrite H; clear H ].

(** One statement of the unrolled code against one step of the reference. *)
Ltac round_step :=
  lazymatch goal with
  | |- assign ?E ?body = fips_add _ (code_rounds ((_ ⊞ ?v) :: _) _) =>
      rewrite_word E v; rewrite assign_eq; cbv beta
  | |- (let '(_, _) := Round ?a ?b ?c ?d ?e ?f ?g ?h ?k in _) = fips_add _ (code_rounds (?kw :: _) _) =>
      rewrite_word k kw;
      let HR := fresh in
      destruct (Round a b c d e f g h kw) as [? ?] eqn:HR; rewrite (code_rounds_step _ _ _ _ _ _ _ _ _ _ _ _ HR);
      clear HR
  end.


(** The states after the last step: sums of the same words. *)
Ltac add_states :=
  unfold code_rounds, fips_add; cbn [foldl]; repeat apply (f_equal2 pair); first [done | apply add32_comm].

Lemma Transform1_fips s chunk : Transform1 s chunk = fips_compress s chunk.
Proof.
  destruct s as [[[[[[[s0 s1] s2] s3] s4] s5] s6] s7]. unfold fips_compress. rewrite fips_rounds_code.
  unfold Transform1. cbv beta iota delta [fips_words map seq Nat.mul Nat.add].
  do 64 schedule_word. cbn [fips_schedule]. rewrite fips_K_eq. unfold fips_K_values. cbn [zip_with].
  repeat round_step. add_states.
Qed.

Lemma TransformD64_1_fips chunk : TransformD64_1 chunk = fips_compress Initialize chunk.
Proof.
  unfold fips_compress, Initialize. rewrite fips_rounds_code.
  unfold TransformD64_1, Initialize. cbv beta iota delta [fips_words map seq Nat.mul Nat.add].
  do 64 schedule_word. cbn [fips_schedule]. rewrite fips_K_eq. unfold fips_K_values. cbn [zip_with].
  repeat round_step. add_states.
Qed.

(** The padding block of a 64-byte message: its words, and the sums with the constants, are those the
    code has folded. *)
Lemma TransformD64_2_fips t : TransformD64_2 t = fips_compress t padding1.
Proof.
  destruct t as [[[[[[[s0 s1] s2] s3] s4] s5] s6] s7]. unfold fips_compress. rewrite fips_rounds_code.
  unfold TransformD64_2.
  rewrite fips_K_eq.
  match goal with |- context [code_rounds ?ks _] => let ks' := eval vm_compute in ks in
    replace ks with ks' by (vm_compute; reflexivity) end.
  repeat round_step. add_states.
Qed.

(** ** States of 32-bit words *)

Definition State_ok (s : State) : Prop :=
  let '(s0, s1, s2, s3, s4, s5, s6, s7) := s in
  Forall (fun x => u32 x = x) [s0; s1; s2; s3; s4; s5; s6; s7].

Lemma u32_add x y : u32 (x ⊞ y) = x ⊞ y.
Proof. unfold add32, u32. apply Zmod_mod. Qed.

Lemma fips_compress_ok s M : State_ok (fips_compress s M).
Proof.
  unfold fips_compress. destruct (foldl _ _ _) as [[[[[[[? ?] ?] ?] ?] ?] ?] ?].
  destruct s as [[[[[[[? ?] ?] ?] ?] ?] ?] ?]. cbn. repeat constructor; apply u32_add.
Qed.

Lemma State_bytes_length s : length (State_bytes s) = 32%nat.
Proof.
  destruct s as [[[[[[[? ?] ?] ?] ?] ?] ?] ?]. cbn [State_bytes].
  by rewrite !length_app, !length_WriteBE32.
Qed.

Lemma State_bytes_ok s : bytes_ok (State_bytes s).
Proof.
  destruct s as [[[[[[[? ?] ?] ?] ?] ?] ?] ?]. cbn [State_bytes].
  rewrite !bytes_ok_app. split_and!; apply WriteBE32_bytes.
Qed.

Lemma words_of_state s0 s1 s2 s3 s4 s5 s6 s7 :
  State_ok (s0, s1, s2, s3, s4, s5, s6, s7) ->
  fips_words (State_bytes (s0, s1, s2, s3, s4, s5, s6, s7) ++ buffer2_tail) =
  [s0; s1; s2; s3; s4; s5; s6; s7; 0x80000000; 0; 0; 0; 0; 0; 0; 0x100].
Proof.
  intros Hs. unfold State_ok in Hs. rewrite !Forall_cons in Hs. destruct Hs as (? & ? & ? & ? & ? & ? & ? & ? & _).
  unfold fips_words, State_bytes. rewrite <- !app_assoc. cbn [map seq Nat.mul Nat.add].
  rewrite !drop_WriteBE32, !drop_0, !ReadBE32_WriteBE32. by repeat f_equal.
Qed.

Lemma TransformD64_3_fips w :
  State_ok w -> TransformD64_3 w = fips_compress Initialize (State_bytes w ++ buffer2_tail).
Proof.
  destruct w as [[[[[[[w0 w1] w2] w3] w4] w5] w6] w7]. intros Hw.
  unfold fips_compress. rewrite words_of_state by done. clear Hw.
  rewrite fips_rounds_code. unfold TransformD64_3, Initialize.
  do 64 schedule_word. cbn [fips_schedule]. rewrite fips_K_eq. unfold fips_K_values. cbn [zip_with].
  repeat round_step. add_states.
Qed.

(** ** Messages of a known length *)

(** Two blocks: a 64-byte message and its padding. *)
Lemma fips_sha256_64 m :
  length m = 64%nat -> fips_sha256 m = State_bytes (fips_compress (fips_compress Initialize m) padding1).
Proof.
  intros Hm. unfold fips_sha256, padded, zlen. rewrite <- Initialize_fips, Hm, length_WriteBE64.
  change (0x80 :: replicate (zero_pad 64 8 64) 0 ++ WriteBE64 (8 * Z.of_nat 64)) with padding1.
  rewrite (absorb_blocks 64 _ _ _ 2) by (rewrite ?length_app, ?Hm; (done || lia)).
  cbn [absorb]. rewrite take_app_length', drop_app_length' by done. done.
Qed.

(** One block: a 32-byte message with its padding. *)
Lemma fips_sha256_32 m :
  length m = 32%nat -> fips_sha256 m = State_bytes (fips_compress Initialize (m ++ buffer2_tail)).
Proof.
  intros Hm. unfold fips_sha256, padded, zlen. rewrite <- Initialize_fips, Hm, length_WriteBE64.
  change (0x80 :: replicate (zero_pad 64 8 32) 0 ++ WriteBE64 (8 * Z.of_nat 32)) with buffer2_tail.
  rewrite (absorb_blocks 64 _ _ _ 1) by (rewrite ?length_app, ?Hm; (done || lia)).
  cbn [absorb]. rewrite take_ge; [done|]. by rewrite length_app, Hm.
Qed.

(** [fips_compress] reads the 64 bytes of its block. *)
Lemma fips_compress_take s M : fips_compress s (take 64 M) = fips_compress s M.
Proof.
  unfold fips_compress. f_equal. do 3 f_equal. unfold fips_words. apply map_ext_in.
  intros t Ht%in_seq. unfold ReadBE32. f_equal. f_equal.
  rewrite !take_drop_commute, take_take. do 2 f_equal. lia.
Qed.

(** ** The code *)

Lemma Transform_one s chunk : Transform s chunk 1 = fips_compress s chunk.
Proof. cbn [Transform]. by rewrite Transform1_fips, fips_compress_take. Qed.

Lemma Transform_absorb blocks s chunk : Transform s chunk blocks = absorb 64 fips_compress blocks s chunk.
Proof.
  revert s chunk. induction blocks as [|n IH]; intros s chunk; [done|].
  cbn [Transform absorb]. by rewrite Transform1_fips, IH.
Qed.

Lemma Write_fill_ext {St : Type} B (f g : St -> list Z -> St) h data :
  (forall s d, f s d = g s d) -> Write_fill B f h data = Write_fill B g h data.
Proof. intros Hfg. unfold Write_fill. by rewrite Hfg. Qed.

(** The blocks handled by one call of [Transform] are those of the loop. *)
Lemma Write_loop_blocks q fuel (h : Hasher State) data :
  (length data / 64 = S q)%nat -> (length data <= fuel)%nat ->
  Write_loop 64 fips_compress fuel h data =
  (mkHasher (absorb 64 fips_compress (S q) (hs h) data) (hbuf h) (u64 (hbytes h + 64 * Z.of_nat (S q))),
   drop (64 * S q) data).
Proof.
  revert fuel h data. induction q as [|q IH]; intros fuel h data Hq Hf;
    pose proof (Nat.div_mod_eq (length data) 64) as He;
    pose proof (Nat.mod_upper_bound (length data) 64 ltac:(lia)) as Hb; rewrite Hq in He;
    (destruct fuel as [|fuel]; [lia|]); cbn [Write_loop];
    rewrite (proj2 (Nat.leb_le 64 (length data))) by lia.
  - assert (Hd : (length (drop 64 data) < 64)%nat) by (rewrite length_drop; lia).
    destruct fuel; cbn [Write_loop]; [done|]. by rewrite (proj2 (Nat.leb_gt _ _) Hd).
  - rewrite IH; cbn [hs hbuf hbytes].
    + rewrite drop_drop. f_equal; [|f_equal; lia]. f_equal.
      unfold u64. rewrite Zplus_mod_idemp_l. f_equal. lia.
    + rewrite length_drop. symmetry. apply (Nat.div_unique _ _ _ (length data mod 64)); lia.
    + rewrite length_drop. lia.
Qed.

Lemma CSHA256_Write_eq h data : CSHA256_Write h data = Hasher_Write 64 fips_compress h data.
Proof.
  unfold CSHA256_Write, Hasher_Write. rewrite (Write_fill_ext _ _ fips_compress) by apply Transform_one.
  destruct (Write_fill 64 fips_compress h data) as [[h' d] bufsize].
  destruct (Nat.leb_spec 64 (length d)) as [Hle|Hlt].
  - destruct (length d / 64)%nat as [|q] eqn:Hq; [apply Nat.div_small_iff in Hq; lia|].
    rewrite (Write_loop_blocks q) by done. by rewrite Transform_absorb.
  - destruct (length d) as [|n] eqn:Hn; cbn [Write_loop]; [done|].
    rewrite Hn. by rewrite (proj2 (Nat.leb_gt 64 (S n)) Hlt).
Qed.

(** What [Finalize] leaves in the hasher: the padded message. *)
Lemma CSHA256_finish_absorbs h m :
  Absorbs 64 fips_compress Initialize h m ->
  Absorbs 64 fips_compress Initialize (CSHA256_finish h) (padded 64 (WriteBE64 (8 * zlen m)) m).
Proof.
  intros Ha. unfold CSHA256_finish. rewrite (ab_bytes _ _ _ _ _ Ha), WriteBE64_bits.
  replace (Finalize_writes 64 CSHA256_Write h (WriteBE64 (8 * zlen m)))
    with (Finalize_writes 64 (Hasher_Write 64 fips_compress) h (WriteBE64 (8 * zlen m)))
    by (unfold Finalize_writes; by rewrite !CSHA256_Write_eq).
  apply Absorbs_finish; try done; [lia|apply block64_divides|rewrite length_WriteBE64; lia].
Qed.

Lemma CSHA256_Finalize_absorbs h m :
  Absorbs 64 fips_compress Initialize h m -> CSHA256_Finalize h = fips_sha256 m.
Proof.
  intros Ha. unfold CSHA256_Finalize, fips_sha256. rewrite <- Initialize_fips. f_equal.
  apply (ab_state _ _ _ _ _ (CSHA256_finish_absorbs _ _ Ha)).
Qed.

Lemma CSHA256_Writes_absorb h m ds :
  Absorbs 64 fips_compress Initialize h m ->
  Absorbs 64 fips_compress Initialize (foldl CSHA256_Write h ds) (m ++ concat ds).
Proof.
  intros Ha. replace (foldl CSHA256_Write h ds) with (foldl (Hasher_Write 64 fips_compress) h ds).
  - apply Writes_absorb; [lia|apply block64_divides|done].
  - clear. revert h. induction ds as [|d ds IH]; intros h; [done|]. cbn [foldl]. by rewrite IH, CSHA256_Write_eq.
Qed.

(** C34: the class CSHA256 computes SHA-256: whatever the uninitialised buffer holds and however the message
    is cut into calls of [Write], [Finalize] returns the digest of FIPS 180-4 of the whole message. *)
Theorem CSHA256_is_SHA256 junk ds :
  length junk = 64%nat ->
  CSHA256_Finalize (foldl CSHA256_Write (CSHA256_new junk) ds) = fips_sha256 (concat ds).
Proof.
  intros Hj. apply CSHA256_Finalize_absorbs. apply (CSHA256_Writes_absorb _ []).
  by apply Absorbs_new.
Qed.

(** The digest of "abc" published with the standard, written in two pieces. *)
Lemma CSHA256_is_SHA256_witness :
  CSHA256_Finalize (foldl CSHA256_Write (CSHA256_new (replicate 64 0xcc)) [[0x61]; [0x62; 0x63]]) =
  fips_sha256 [0x61; 0x62; 0x63] /\
  fips_sha256 [0x61; 0x62; 0x63] =
  [0xba; 0x78; 0x16; 0xbf; 0x8f; 0x01; 0xcf; 0xea; 0x41; 0x41; 0x40; 0xde; 0x5d; 0xae; 0x22; 0x23;
   0xb0; 0x03; 0x61; 0xa3; 0x96; 0x17; 0x7a; 0x9c; 0xb4; 0x10; 0xff; 0x61; 0xf2; 0x00; 0x15; 0xad].
Proof.
  split; [|vm_compute; reflexivity].
  apply (CSHA256_is_SHA256 (replicate 64 0xcc) [[0x61]; [0x62; 0x63]]). reflexivity.
Defined.

(** The same for a hasher that is used again after [Reset]. *)
Lemma CSHA256_Reset_is_SHA256 h m ds :
  Absorbs 64 fips_compress Initialize h m ->
  CSHA256_Finalize (foldl CSHA256_Write (CSHA256_Reset h) ds) = fips_sha256 (concat ds).
Proof.
  intros Ha. apply CSHA256_Finalize_absorbs. apply (CSHA256_Writes_absorb _ []).
  unfold CSHA256_Reset. by eapply Absorbs_Reset.
Qed.

Lemma TransformD64_sha256 input :
  length input = 64%nat -> TransformD64 input = fips_sha256 (fips_sha256 input).
Proof.
  intros Hi. unfold TransformD64.
  rewrite TransformD64_1_fips, TransformD64_2_fips, TransformD64_3_fips by apply fips_compress_ok.
  rewrite (fips_sha256_64 input) by done. by rewrite fips_sha256_32 by apply State_bytes_length.
Qed.

Lemma TransformD64Wrapper_sha256 input :
  length input = 64%nat -> TransformD64Wrapper Transform input = fips_sha256 (fips_sha256 input).
Proof.
  intros Hi. unfold TransformD64Wrapper. rewrite !Transform_one, (fips_sha256_64 input) by done.
  by rewrite fips_sha256_32 by apply State_bytes_length.
Qed.

(** The hashes of the blocks of a buffer, one after the other. *)
Fixpoint double_hashes (blocks : nat) (input : list Z) : list Z :=
  match blocks with
  | O => []
  | S blocks => fips_sha256 (fips_sha256 (take 64 input)) ++ double_hashes blocks (drop 64 input)
  end.

Lemma TransformD64_length input : length (TransformD64 input) = 32%nat.
Proof. apply State_bytes_length. Qed.

(** The output never overtakes the input. *)
Lemma SHA256D64_inplace blocks mem out inp :
  (out <= inp)%nat -> (inp + 64 * blocks <= length mem)%nat ->
  take (out + 32 * blocks) (SHA256D64 mem out inp blocks) =
  take out mem ++ double_hashes blocks (drop inp mem).
Proof.
  revert mem out inp. induction blocks as [|n IH]; intros mem out inp Hoi Hl; cbn [SHA256D64 double_hashes].
  { by rewrite Nat.mul_0_r, Nat.add_0_r, app_nil_r. }
  set (digest := TransformD64 (take 64 (drop inp mem))).
  assert (Hd : length digest = 32%nat) by apply TransformD64_length.
  replace (out + 32 * S n)%nat with (out + 32 + 32 * n)%nat by lia.
  assert (Hm : length (memcpy mem out digest) = length mem) by (apply length_memcpy; lia).
  rewrite IH by lia. rewrite <- Hd at 1. rewrite take_memcpy, <- app_assoc by lia. do 2 f_equal.
  - unfold digest. apply TransformD64_sha256. rewrite length_take, length_drop. lia.
  - f_equal. rewrite drop_drop. unfold memcpy. rewrite app_assoc, drop_app_ge, length_app, length_take, drop_drop.
    + f_equal. lia.
    + rewrite length_app, length_take. lia.
Qed.

(** [SHA256D64] run in place, with output and input in the same buffer and the constant-folded
    [TransformD64], leaves in the first 32 bytes per block the double SHA-256 of every 64-byte block of the
    original buffer; the generic [TransformD64Wrapper] computes the same value for one block. *)
Theorem SHA256D64_is_double_SHA256 mem blocks :
  length mem = (64 * blocks)%nat ->
  take (32 * blocks) (SHA256D64 mem 0 0 blocks) = double_hashes blocks mem /\
  (blocks = 1%nat -> take 32 (SHA256D64 mem 0 0 blocks) = TransformD64Wrapper Transform mem).
Proof.
  intros Hl. assert (H : take (32 * blocks) (SHA256D64 mem 0 0 blocks) = double_hashes blocks mem).
  { apply (SHA256D64_inplace blocks mem 0 0); lia. }
  split; [done|]. intros ->. rewrite Nat.mul_1_r in H. rewrite H. cbn [double_hashes]. rewrite app_nil_r, take_ge by lia.
  by rewrite TransformD64Wrapper_sha256 by lia.
Qed.

Lemma SHA256D64_is_double_SHA256_witness :
  take (32 * 2) (SHA256D64 (replicate 128 7) 0 0 2) = double_hashes 2 (replicate 128 7).
Proof. exact (proj1 (SHA256D64_is_double_SHA256 (replicate 128 7) 2 eq_refl)). Defined.
