(* ===== verification/Sha1.v ===== *)
(** * SHA-1

    Model of src/src/crypto/sha1.cpp: the round functions, the unrolled [Transform] and the class CSHA1. *)

From S2P Require Import Prelude Hasher.

Open Scope word_scope.

(** The new values of the reference parameters [b] and [e]. *)
Definition Round (a b c d e f k w : Z) : Z * Z :=
  let e := e ⊞ ((a ⟕ 5 .| a ⟖ 27) ⊞ f ⊞ k ⊞ w) in
  (b ⟕ 30 .| b ⟖ 2, e).

Definition f1 (b c d : Z) : Z := d .^ (b .& (c .^ d)).
Definition f2 (b c d : Z) : Z := b .^ c .^ d.
Definition f3 (b c d : Z) : Z := (b .& c) .| (d .& (b .| c)).

(** [left] *)
Definition rol1 (x : Z) : Z := x ⟕ 1 .| x ⟖ 31.

Definition State : Type := (Z * Z * Z * Z * Z)%type.

Definition Initialize : State := (0x67452301, 0xefcdab89, 0x98badcfe, 0x10325476, 0xc3d2e1f0).

Definition k1 : Z := 0x5a827999.
Definition k2 : Z := 0x6ed9eba1.
Definition k3 : Z := 0x8f1bbcdc.
Definition k4 : Z := 0xca62c1d6.

Definition Transform (s : State) (chunk : list Z) : State :=
  let '(s0, s1, s2, s3, s4) := s in
  let '(a, b, c, d, e) := s in
  uint32 w0 := ReadBE32 (drop 0 chunk) in let '(b, e) := Round a b c d e (f1 b c d) k1 w0 in
  uint32 w1 := ReadBE32 (drop 4 chunk) in let '(a, d) := Round e a b c d (f1 a b c) k1 w1 in
  uint32 w2 := ReadBE32 (drop 8 chunk) in let '(e, c) := Round d e a b c (f1 e a b) k1 w2 in
  uint32 w3 := ReadBE32 (drop 12 chunk) in let '(d, b) := Round c d e a b (f1 d e a) k1 w3 in
  uint32 w4 := ReadBE32 (drop 16 chunk) in let '(c, a) := Round b c d e a (f1 c d e) k1 w4 in
  uint32 w5 := ReadBE32 (drop 20 chunk) in let '(b, e) := Round a b c d e (f1 b c d) k1 w5 in
  uint32 w6 := ReadBE32 (drop 24 chunk) in let '(a, d) := Round e a b c d (f1 a b c) k1 w6 in
  uint32 w7 := ReadBE32 (drop 28 chunk) in let '(e, c) := Round d e a b c (f1 e a b) k1 w7 in
  uint32 w8 := ReadBE32 (drop 32 chunk) in let '(d, b) := Round c d e a b (f1 d e a) k1 w8 in
  uint32 w9 := ReadBE32 (drop 36 chunk) in let '(c, a) := Round b c d e a (f1 c d e) k1 w9 in
  uint32 w10 := ReadBE32 (drop 40 chunk) in let '(b, e) := Round a b c d e (f1 b c d) k1 w10 in
  uint32 w11 := ReadBE32 (drop 44 chunk) in let '(a, d) := Round e a b c d (f1 a b c) k1 w11 in
  uint32 w12 := ReadBE32 (drop 48 chunk) in let '(e, c) := Round d e a b c (f1 e a b) k1 w12 in
  uint32 w13 := ReadBE32 (drop 52 chunk) in let '(d, b) := Round c d e a b (f1 d e a) k1 w13 in
  uint32 w14 := ReadBE32 (drop 56 chunk) in let '(c, a) := Round b c d e a (f1 c d e) k1 w14 in
  uint32 w15 := ReadBE32 (drop 60 chunk) in let '(b, e) := Round a b c d e (f1 b c d) k1 w15 in
  uint32 w0 := rol1 (w0 .^ w13 .^ w8 .^ w2) in let '(a, d) := Round e a b c d (f1 a b c) k1 w0 in
  uint32 w1 := rol1 (w1 .^ w14 .^ w9 .^ w3) in let '(e, c) := Round d e a b c (f1 e a b) k1 w1 in
  uint32 w2 := rol1 (w2 .^ w15 .^ w10 .^ w4) in let '(d, b) := Round c d e a b (f1 d e a) k1 w2 in
  uint32 w3 := rol1 (w3 .^ w0 .^ w11 .^ w5) in let '(c, a) := Round b c d e a (f1 c d e) k1 w3 in
  uint32 w4 := rol1 (w4 .^ w1 .^ w12 .^ w6) in let '(b, e) := Round a b c d e (f2 b c d) k2 w4 in
  uint32 w5 := rol1 (w5 .^ w2 .^ w13 .^ w7) in let '(a, d) := Round e a b c d (f2 a b c) k2 w5 in
  uint32 w6 := rol1 (w6 .^ w3 .^ w14 .^ w8) in let '(e, c) := Round d e a b c (f2 e a b) k2 w6 in
  uint32 w7 := rol1 (w7 .^ w4 .^ w15 .^ w9) in let '(d, b) := Round c d e a b (f2 d e a) k2 w7 in
  uint32 w8 := rol1 (w8 .^ w5 .^ w0 .^ w10) in let '(c, a) := Round b c d e a (f2 c d e) k2 w8 in
  uint32 w9 := rol1 (w9 .^ w6 .^ w1 .^ w11) in let '(b, e) := Round a b c d e (f2 b c d) k2 w9 in
  uint32 w10 := rol1 (w10 .^ w7 .^ w2 .^ w12) in let '(a, d) := Round e a b c d (f2 a b c) k2 w10 in
  uint32 w11 := rol1 (w11 .^ w8 .^ w3 .^ w13) in let '(e, c) := Round d e a b c (f2 e a b) k2 w11 in
  uint32 w12 := rol1 (w12 .^ w9 .^ w4 .^ w14) in let '(d, b) := Round c d e a b (f2 d e a) k2 w12 in
  uint32 w13 := rol1 (w13 .^ w10 .^ w5 .^ w15) in let '(c, a) := Round b c d e a (f2 c d e) k2 w13 in
  uint32 w14 := rol1 (w14 .^ w11 .^ w6 .^ w0) in let '(b, e) := Round a b c d e (f2 b c d) k2 w14 in
  uint32 w15 := rol1 (w15 .^ w12 .^ w7 .^ w1) in let '(a, d) := Round e a b c d (f2 a b c) k2 w15 in
  uint32 w0 := rol1 (w0 .^ w13 .^ w8 .^ w2) in let '(e, c) := Round d e a b c (f2 e a b) k2 w0 in
  uint32 w1 := rol1 (w1 .^ w14 .^ w9 .^ w3) in let '(d, b) := Round c d e a b (f2 d e a) k2 w1 in
  uint32 w2 := rol1 (w2 .^ w15 .^ w10 .^ w4) in let '(c, a) := Round b c d e a (f2 c d e) k2 w2 in
  uint32 w3 := rol1 (w3 .^ w0 .^ w11 .^ w5) in let '(b, e) := Round a b c d e (f2 b c d) k2 w3 in
  uint32 w4 := rol1 (w4 .^ w1 .^ w12 .^ w6) in let '(a, d) := Round e a b c d (f2 a b c) k2 w4 in
  uint32 w5 := rol1 (w5 .^ w2 .^ w13 .^ w7) in let '(e, c) := Round d e a b c (f2 e a b) k2 w5 in
  uint32 w6 := rol1 (w6 .^ w3 .^ w14 .^ w8) in let '(d, b) := Round c d e a b (f2 d e a) k2 w6 in
  uint32 w7 := rol1 (w7 .^ w4 .^ w15 .^ w9) in let '(c, a) := Round b c d e a (f2 c d e) k2 w7 in
  uint32 w8 := rol1 (w8 .^ w5 .^ w0 .^ w10) in let '(b, e) := Round a b c d e (f3 b c d) k3 w8 in
  uint32 w9 := rol1 (w9 .^ w6 .^ w1 .^ w11) in let '(a, d) := Round e a b c d (f3 a b c) k3 w9 in
  uint32 w10 := rol1 (w10 .^ w7 .^ w2 .^ w12) in let '(e, c) := Round d e a b c (f3 e a b) k3 w10 in
  uint32 w11 := rol1 (w11 .^ w8 .^ w3 .^ w13) in let '(d, b) := Round c d e a b (f3 d e a) k3 w11 in
  uint32 w12 := rol1 (w12 .^ w9 .^ w4 .^ w14) in let '(c, a) := Round b c d e a (f3 c d e) k3 w12 in
  uint32 w13 := rol1 (w13 .^ w10 .^ w5 .^ w15) in let '(b, e) := Round a b c d e (f3 b c d) k3 w13 in
  uint32 w14 := rol1 (w14 .^ w11 .^ w6 .^ w0) in let '(a, d) := Round e a b c d (f3 a b c) k3 w14 in
  uint32 w15 := rol1 (w15 .^ w12 .^ w7 .^ w1) in let '(e, c) := Round d e a b c (f3 e a b) k3 w15 in
  uint32 w0 := rol1 (w0 .^ w13 .^ w8 .^ w2) in let '(d, b) := Round c d e a b (f3 d e a) k3 w0 in
  uint32 w1 := rol1 (w1 .^ w14 .^ w9 .^ w3) in let '(c, a) := Round b c d e a (f3 c d e) k3 w1 in
  uint32 w2 := rol1 (w2 .^ w15 .^ w10 .^ w4) in let '(b, e) := Round a b c d e (f3 b c d) k3 w2 in
  uint32 w3 := rol1 (w3 .^ w0 .^ w11 .^ w5) in let '(a, d) := Round e a b c d (f3 a b c) k3 w3 in
  uint32 w4 := rol1 (w4 .^ w1 .^ w12 .^ w6) in let '(e, c) := Round d e a b c (f3 e a b) k3 w4 in
  uint32 w5 := rol1 (w5 .^ w2 .^ w13 .^ w7) in let '(d, b) := Round c d e a b (f3 d e a) k3 w5 in
  uint32 w6 := rol1 (w6 .^ w3 .^ w14 .^ w8) in let '(c, a) := Round b c d e a (f3 c d e) k3 w6 in
  uint32 w7 := rol1 (w7 .^ w4 .^ w15 .^ w9) in let '(b, e) := Round a b c d e (f3 b c d) k3 w7 in
  uint32 w8 := rol1 (w8 .^ w5 .^ w0 .^ w10) in let '(a, d) := Round e a b c d (f3 a b c) k3 w8 in
  uint32 w9 := rol1 (w9 .^ w6 .^ w1 .^ w11) in let '(e, c) := Round d e a b c (f3 e a b) k3 w9 in
  uint32 w10 := rol1 (w10 .^ w7 .^ w2 .^ w12) in let '(d, b) := Round c d e a b (f3 d e a) k3 w10 in
  uint32 w11 := rol1 (w11 .^ w8 .^ w3 .^ w13) in let '(c, a) := Round b c d e a (f3 c d e) k3 w11 in
  uint32 w12 := rol1 (w12 .^ w9 .^ w4 .^ w14) in let '(b, e) := Round a b c d e (f2 b c d) k4 w12 in
  uint32 w13 := rol1 (w13 .^ w10 .^ w5 .^ w15) in let '(a, d) := Round e a b c d (f2 a b c) k4 w13 in
  uint32 w14 := rol1 (w14 .^ w11 .^ w6 .^ w0) in let '(e, c) := Round d e a b c (f2 e a b) k4 w14 in
  uint32 w15 := rol1 (w15 .^ w12 .^ w7 .^ w1) in let '(d, b) := Round c d e a b (f2 d e a) k4 w15 in
  uint32 w0 := rol1 (w0 .^ w13 .^ w8 .^ w2) in let '(c, a) := Round b c d e a (f2 c d e) k4 w0 in
  uint32 w1 := rol1 (w1 .^ w14 .^ w9 .^ w3) in let '(b, e) := Round a b c d e (f2 b c d) k4 w1 in
  uint32 w2 := rol1 (w2 .^ w15 .^ w10 .^ w4) in let '(a, d) := Round e a b c d (f2 a b c) k4 w2 in
  uint32 w3 := rol1 (w3 .^ w0 .^ w11 .^ w5) in let '(e, c) := Round d e a b c (f2 e a b) k4 w3 in
  uint32 w4 := rol1 (w4 .^ w1 .^ w12 .^ w6) in let '(d, b) := Round c d e a b (f2 d e a) k4 w4 in
  uint32 w5 := rol1 (w5 .^ w2 .^ w13 .^ w7) in let '(c, a) := Round b c d e a (f2 c d e) k4 w5 in
  uint32 w6 := rol1 (w6 .^ w3 .^ w14 .^ w8) in let '(b, e) := Round a b c d e (f2 b c d) k4 w6 in
  uint32 w7 := rol1 (w7 .^ w4 .^ w15 .^ w9) in let '(a, d) := Round e a b c d (f2 a b c) k4 w7 in
  uint32 w8 := rol1 (w8 .^ w5 .^ w0 .^ w10) in let '(e, c) := Round d e a b c (f2 e a b) k4 w8 in
  uint32 w9 := rol1 (w9 .^ w6 .^ w1 .^ w11) in let '(d, b) := Round c d e a b (f2 d e a) k4 w9 in
  uint32 w10 := rol1 (w10 .^ w7 .^ w2 .^ w12) in let '(c, a) := Round b c d e a (f2 c d e) k4 w10 in
  uint32 w11 := rol1 (w11 .^ w8 .^ w3 .^ w13) in let '(b, e) := Round a b c d e (f2 b c d) k4 w11 in
  uint32 w12 := rol1 (w12 .^ w9 .^ w4 .^ w14) in let '(a, d) := Round e a b c d (f2 a b c) k4 w12 in
  let '(e, c) := Round d e a b c (f2 e a b) k4 (rol1 (w13 .^ w10 .^ w5 .^ w15)) in
  let '(d, b) := Round c d e a b (f2 d e a) k4 (rol1 (w14 .^ w11 .^ w6 .^ w0)) in
  let '(c, a) := Round b c d e a (f2 c d e) k4 (rol1 (w15 .^ w12 .^ w7 .^ w1)) in
  (s0 ⊞ a, s1 ⊞ b, s2 ⊞ c, s3 ⊞ d, s4 ⊞ e).

Definition State_bytes (s : State) : list Z :=
  let '(s0, s1, s2, s3, s4) := s in
  WriteBE32 s0 ++ WriteBE32 s1 ++ WriteBE32 s2 ++ WriteBE32 s3 ++ WriteBE32 s4.

(** ** CSHA1 *)

Definition CSHA1_new (junk : list Z) : Hasher State := Hasher_new Initialize junk.
Definition CSHA1_Reset (h : Hasher State) : Hasher State := Hasher_Reset Initialize h.
Definition CSHA1_Write : Hasher State -> list Z -> Hasher State := Hasher_Write 64 Transform.

Definition CSHA1_Finalize (h : Hasher State) : list Z :=
  let sizedesc := WriteBE64 (Z.shiftl (hbytes h) 3) in
  State_bytes (hs (Finalize_writes 64 CSHA1_Write h sizedesc)).
