(* ===== verification/Sha1Spec.v ===== *)
(** * SHA-1 as specified, and the code's hash

    The algorithm of FIPS 180-4, sections 4.1.1, 4.2.1 and 6.1.2; the unrolled [Transform] and the
    streaming class CSHA1 compute it. *)

From S2P Require Import Prelude Hasher Sha1.

Open Scope word_scope.

(** ** FIPS 180-4 *)

Definition ROTL (n x : Z) : Z := x ⟕ n .| x ⟖ (32 - n).

Definition fips1_Ch (x y z : Z) : Z := (x .& y) .^ (Z.lnot x .& z).
Definition fips1_Parity (x y z : Z) : Z := x .^ y .^ z.
Definition fips1_Maj (x y z : Z) : Z := (x .& y) .^ (x .& z) .^ (y .& z).

(** The function and the constant of step [t]. *)
Definition fips1_f (t : nat) : Z -> Z -> Z -> Z :=
  if (t <? 20)%nat then fips1_Ch
  else if (t <? 40)%nat then fips1_Parity
  else if (t <? 60)%nat then fips1_Maj
  else fips1_Parity.

Definition fips1_K (t : nat) : Z :=
  if (t <? 20)%nat then 0x5a827999
  else if (t <? 40)%nat then 0x6ed9eba1
  else if (t <? 60)%nat then 0x8f1bbcdc
  else 0xca62c1d6.

(** The message schedule, from the last sixteen words W(t-16), ..., W(t-1). *)
Definition fips1_next (W : list Z) : Z :=
  ROTL 1 (nth 13 W 0 .^ nth 8 W 0 .^ nth 2 W 0 .^ nth 0 W 0).

Fixpoint fips1_schedule (n : nat) (W : list Z) : list Z :=
  match n with
  | O => []
  | S n => nth 0 W 0 :: fips1_schedule n (tail W ++ [fips1_next W])
  end.

Definition fips1_step (s : State) (tW : nat * Z) : State :=
  let '(a, b, c, d, e) := s in
  let T := ROTL 5 a ⊞ fips1_f (fst tW) b c d ⊞ e ⊞ fips1_K (fst tW) ⊞ snd tW in
  (T, a, ROTL 30 b, c, d).

Definition fips1_words (M : list Z) : list Z := map (fun t => ReadBE32 (drop (4 * t) M)) (seq 0 16).

Definition fips1_add (H s : State) : State :=
  let '(H0, H1, H2, H3, H4) := H in
  let '(a, b, c, d, e) := s in
  (a ⊞ H0, b ⊞ H1, c ⊞ H2, d ⊞ H3, e ⊞ H4).

Definition fips1_compress (H : State) (M : list Z) : State :=
  fips1_add H (foldl fips1_step H (zip (seq 0 80) (fips1_schedule 80 (fips1_words M)))).

Definition fips_sha1 (m : list Z) : list Z :=
  let p := padded 64 (WriteBE64 (8 * zlen m)) m in
  State_bytes (absorb 64 fips1_compress (length p / 64) Initialize p).

(** ** The code's rounds *)

Lemma f1_fips1 x y z : f1 x y z = fips1_Ch x y z.
Proof. unfold f1, fips1_Ch. word_bits. Qed.

Lemma f3_fips1 x y z : f3 x y z = fips1_Maj x y z.
Proof. unfold f3, fips1_Maj. word_bits. Qed.

Lemma rol1_fips w0 w13 w8 w2 : rol1 (w0 .^ w13 .^ w8 .^ w2) = ROTL 1 (w13 .^ w8 .^ w2 .^ w0).
Proof. change rol1 with (ROTL 1). f_equal. word_bits. Qed.

(** One step, with the function and the constant of its range of [t]. *)
Lemma fips1_step_code t w l a b c d e b' e' fv k :
  fips1_f t b c d = fv -> fips1_K t = k -> Round a b c d e fv k w = (b', e') ->
  foldl fips1_step (a, b, c, d, e) ((t, w) :: l) = foldl fips1_step (e', a, b', c, d) l.
Proof.
  intros <- <- [= <- <-]. cbn [foldl]. f_equal. unfold fips1_step. cbn [fst snd].
  repeat (apply (f_equal2 pair); [|done]). unfold ROTL. change (32 - 5) with 27. word_sum.
Qed.

Lemma fips1_schedule_step n w0 w1 w2 w3 w4 w5 w6 w7 w8 w9 w10 w11 w12 w13 w14 w15 w16 :
  w16 = rol1 (w0 .^ w13 .^ w8 .^ w2) ->
  fips1_schedule (S n) [w0; w1; w2; w3; w4; w5; w6; w7; w8; w9; w10; w11; w12; w13; w14; w15] =
  w0 :: fips1_schedule n [w1; w2; w3; w4; w5; w6; w7; w8; w9; w10; w11; w12; w13; w14; w15; w16].
Proof. intros ->. by rewrite rol1_fips. Qed.

Ltac schedule_word :=
  match goal with
  | |- context [fips1_schedule (S ?n) [?w0; ?w1; ?w2; ?w3; ?w4; ?w5; ?w6; ?w7; ?w8; ?w9; ?w10; ?w11; ?w12; ?w13; ?w14; ?w15]] =>
      let w := fresh "w" in let Hw := fresh "Hw" in
      remember (rol1 (w0 .^ w13 .^ w8 .^ w2)) as w eqn:Hw;
      rewrite (fips1_schedule_step n w0 w1 w2 w3 w4 w5 w6 w7 w8 w9 w10 w11 w12 w13 w14 w15 w Hw)
  end.

(** One statement of the unrolled code against one step of the reference. *)
Ltac round_step :=
  lazymatch goal with
  | |- assign ?E ?body = fips1_add _ (foldl fips1_step _ ((_, ?w) :: _)) =>
      first [constr_eq E w | match goal with H : w = _ |- _ => rewrite <- H end]; rewrite assign_eq; cbv beta
  | |- (let '(_, _) := Round ?a ?b ?c ?d ?e ?f ?k ?x in _) = fips1_add _ (foldl fips1_step _ ((?t, ?w) :: _)) =>
      first [constr_eq x w | match goal with H : w = _ |- _ => rewrite <- H end];
      let HR := fresh in
      destruct (Round a b c d e f k w) as [? ?] eqn:HR;
      erewrite (fips1_step_code t w);
        [| |reflexivity|exact HR]; [|first [reflexivity | symmetry; apply f1_fips1 | symmetry; apply f3_fips1]];
      clear HR
  end.

Lemma Transform_fips1 s chunk : Transform s chunk = fips1_compress s chunk.
Proof.
  destruct s as [[[[s0 s1] s2] s3] s4]. unfold fips1_compress, Transform.
  cbv beta iota delta [fips1_words map seq Nat.mul Nat.add].
  do 80 schedule_word. cbn [fips1_schedule zip zip_with].
  repeat round_step.
  unfold fips1_add. cbn [foldl]. repeat apply (f_equal2 pair); apply add32_comm.
Qed.

Lemma CSHA1_digest h m : Absorbs 64 Transform Initialize h m -> CSHA1_Finalize h = fips_sha1 m.
Proof.
  intros Ha. unfold CSHA1_Finalize, fips_sha1, CSHA1_Write. f_equal.
  rewrite (ab_bytes _ _ _ _ _ Ha), WriteBE64_bits.
  rewrite (finish_absorbs 64 Transform Initialize ltac:(lia) block64_divides _ _ _ Ha)
    by (rewrite length_WriteBE64; lia).
  apply absorb_ext, Transform_fips1.
Qed.

(** The class CSHA1 computes SHA-1: whatever the uninitialised buffer holds and however the message is
    cut into calls of [Write], [Finalize] returns the digest of FIPS 180-4 of the whole message. *)
Theorem CSHA1_is_SHA1 junk ds :
  length junk = 64%nat -> CSHA1_Finalize (foldl CSHA1_Write (CSHA1_new junk) ds) = fips_sha1 (concat ds).
Proof. intros Hj. apply CSHA1_digest, Absorbs_pieces; [lia|apply block64_divides|done]. Qed.

(** The digest of "abc" published with the standard, written in two pieces. *)
Lemma CSHA1_is_SHA1_witness :
  CSHA1_Finalize (foldl CSHA1_Write (CSHA1_new (replicate 64 0xcc)) [[0x61]; [0x62; 0x63]]) =
  fips_sha1 [0x61; 0x62; 0x63] /\
  fips_sha1 [0x61; 0x62; 0x63] =
  [0xa9; 0x99; 0x3e; 0x36; 0x47; 0x06; 0x81; 0x6a; 0xba; 0x3e; 0x25; 0x71; 0x78; 0x50; 0xc2; 0x6c;
   0x9c; 0xd0; 0xd8; 0x9d].
Proof.
  split; [|vm_compute; reflexivity].
  apply (CSHA1_is_SHA1 (replicate 64 0xcc) [[0x61]; [0x62; 0x63]]). reflexivity.
Defined.
