(* ===== verification/Ripemd160Spec.v ===== *)
(** * RIPEMD-160 as specified, and the code's hash

    The algorithm of Dobbertin, Bosselaers and Preneel in its tabular form: two lines of eighty steps
    whose functions, constants, message words and rotations are given by tables, combined at the end.
    The unrolled and interleaved [Transform] and the streaming class CRIPEMD160 compute it. *)

From S2P Require Import Prelude Hasher Ripemd160.

Open Scope word_scope.

(** ** The specification *)

Definition rmd_r : list nat :=
  [0; 1; 2; 3; 4; 5; 6; 7; 8; 9; 10; 11; 12; 13; 14; 15;
   7; 4; 13; 1; 10; 6; 15; 3; 12; 0; 9; 5; 2; 14; 11; 8;
   3; 10; 14; 4; 9; 15; 8; 1; 2; 7; 0; 6; 13; 11; 5; 12;
   1; 9; 11; 10; 0; 8; 12; 4; 13; 3; 7; 15; 14; 5; 6; 2;
   4; 0; 5; 9; 7; 12; 2; 10; 14; 1; 3; 8; 11; 6; 15; 13]%nat.

Definition rmd_r' : list nat :=
  [5; 14; 7; 0; 9; 2; 11; 4; 13; 6; 15; 8; 1; 10; 3; 12;
   6; 11; 3; 7; 0; 13; 5; 10; 14; 15; 8; 12; 4; 9; 1; 2;
   15; 5; 1; 3; 7; 14; 6; 9; 11; 8; 12; 2; 10; 0; 4; 13;
   8; 6; 4; 1; 3; 11; 15; 0; 5; 12; 2; 13; 9; 7; 10; 14;
   12; 15; 10; 4; 1; 5; 8; 7; 6; 2; 13; 14; 0; 3; 9; 11]%nat.

Definition rmd_s : list Z :=
  [11; 14; 15; 12; 5; 8; 7; 9; 11; 13; 14; 15; 6; 7; 9; 8;
   7; 6; 8; 13; 11; 9; 7; 15; 7; 12; 15; 9; 11; 7; 13; 12;
   11; 13; 6; 7; 14; 9; 13; 15; 14; 8; 13; 6; 5; 12; 7; 5;
   11; 12; 14; 15; 14; 15; 9; 8; 9; 14; 5; 6; 8; 6; 5; 12;
   9; 15; 5; 11; 6; 8; 13; 12; 5; 12; 13; 14; 11; 8; 5; 6].

Definition rmd_s' : list Z :=
  [8; 9; 9; 11; 13; 15; 15; 5; 7; 7; 8; 11; 14; 14; 12; 6;
   9; 13; 15; 7; 12; 8; 9; 11; 7; 7; 12; 7; 6; 15; 13; 11;
   9; 7; 15; 11; 8; 6; 6; 14; 12; 13; 5; 14; 13; 13; 7; 5;
   15; 5; 8; 11; 14; 14; 6; 14; 6; 9; 12; 9; 12; 5; 15; 8;
   8; 5; 12; 9; 12; 5; 14; 6; 8; 13; 6; 5; 15; 13; 11; 11].

(** The function and the constants of the step [j]. *)
Definition rmd_f (j : nat) : Z -> Z -> Z -> Z := nth (j / 16) [f1; f2; f3; f4; f5] f1.

Definition rmd_K (j : nat) : Z := nth (j / 16) [0; 0x5a827999; 0x6ed9eba1; 0x8f1bbcdc; 0xa953fd4e] 0.
Definition rmd_K' (j : nat) : Z := nth (j / 16) [0x50a28be6; 0x5c4dd124; 0x6d703ef3; 0x7a6d76e9; 0] 0.

(** A step of a line: function, word, constant, rotation. *)
Definition rmd_step (s : State) (p : (Z -> Z -> Z -> Z) * Z * Z * Z) : State :=
  let '(A, B, C, D, E) := s in
  let '(f, X, K, r) := p in
  let T := rol (A ⊞ f B C D ⊞ X ⊞ K) r ⊞ E in
  (E, T, B, rol C 10, D).

Definition rmd_left (X : list Z) : list ((Z -> Z -> Z -> Z) * Z * Z * Z) :=
  map (fun j => (rmd_f j, nth (nth j rmd_r 0%nat) X 0, rmd_K j, nth j rmd_s 0)) (seq 0 80).

Definition rmd_right (X : list Z) : list ((Z -> Z -> Z -> Z) * Z * Z * Z) :=
  map (fun j => (rmd_f (79 - j), nth (nth j rmd_r' 0%nat) X 0, rmd_K' j, nth j rmd_s' 0)) (seq 0 80).

Definition rmd_words (M : list Z) : list Z := map (fun t => ReadLE32 (drop (4 * t) M)) (seq 0 16).

Definition rmd_combine (h s s' : State) : State :=
  let '(h0, h1, h2, h3, h4) := h in
  let '(A, B, C, D, E) := s in
  let '(A', B', C', D', E') := s' in
  (h1 ⊞ C ⊞ D', h2 ⊞ D ⊞ E', h3 ⊞ E ⊞ A', h4 ⊞ A ⊞ B', h0 ⊞ B ⊞ C').

Definition rmd_compress (h : State) (M : list Z) : State :=
  let X := rmd_words M in
  rmd_combine h (foldl rmd_step h (rmd_left X)) (foldl rmd_step h (rmd_right X)).

Definition rmd160 (m : list Z) : list Z :=
  let p := padded 64 (WriteLE64 (8 * zlen m)) m in
  State_bytes (absorb 64 rmd_compress (length p / 64) Initialize p).

(** ** The code's rounds *)

Lemma rmd_step_code f X K r l a b c d e a' c' :
  Round a b c d e (f b c d) X K r = (a', c') ->
  foldl rmd_step (a, b, c, d, e) ((f, X, K, r) :: l) = foldl rmd_step (e, a', b, c', d) l.
Proof. by intros [= <- <-]. Qed.

(** One statement of the unrolled code against one step of the line it belongs to. *)
Ltac line_step R f X K r line a b c d e :=
  let HR := fresh in
  destruct R as [? ?] eqn:HR; unfold R11, R12, R21, R22, R31, R32, R41, R42, R51, R52 in HR; rewrite (rmd_step_code f X K r line a b c d e _ _ HR); clear HR.

Ltac round_step :=
  lazymatch goal with
  | |- assign ?E ?body = _ => rewrite (assign_eq E body); cbv beta
  | |- (let '(_, _) := ?R ?a ?b ?c ?d ?e ?x ?r in _) =
       rmd_combine _ (foldl rmd_step (?a, ?b, ?c, ?d, ?e) ((?f, ?X, ?K, ?s) :: ?line)) _ =>
      line_step (R a b c d e x r) f X K s line a b c d e
  | |- (let '(_, _) := ?R ?a ?b ?c ?d ?e ?x ?r in _) =
       rmd_combine _ _ (foldl rmd_step (?a, ?b, ?c, ?d, ?e) ((?f, ?X, ?K, ?s) :: ?line)) =>
      line_step (R a b c d e x r) f X K s line a b c d e
  end.

Lemma Transform_rmd s chunk : Transform s chunk = rmd_compress s chunk.
Proof.
  destruct s as [[[[s0 s1] s2] s3] s4]. unfold rmd_compress, Transform.
  cbv beta iota zeta delta [rmd_words map seq Nat.mul Nat.add].
  generalize (ReadLE32 (drop 0 chunk)), (ReadLE32 (drop 4 chunk)), (ReadLE32 (drop 8 chunk)),
    (ReadLE32 (drop 12 chunk)), (ReadLE32 (drop 16 chunk)), (ReadLE32 (drop 20 chunk)),
    (ReadLE32 (drop 24 chunk)), (ReadLE32 (drop 28 chunk)), (ReadLE32 (drop 32 chunk)),
    (ReadLE32 (drop 36 chunk)), (ReadLE32 (drop 40 chunk)), (ReadLE32 (drop 44 chunk)),
    (ReadLE32 (drop 48 chunk)), (ReadLE32 (drop 52 chunk)), (ReadLE32 (drop 56 chunk)),
    (ReadLE32 (drop 60 chunk)). intros.
  cbv beta iota delta [rmd_left rmd_right map seq nth rmd_r rmd_r' rmd_s rmd_s' Nat.sub
    rmd_f rmd_K rmd_K' Nat.div Nat.divmod fst].
  repeat round_step.
  reflexivity.
Qed.

Lemma CRIPEMD160_digest h m : Absorbs 64 Transform Initialize h m -> CRIPEMD160_Finalize h = rmd160 m.
Proof.
  intros Ha. unfold CRIPEMD160_Finalize, rmd160, CRIPEMD160_Write. f_equal.
  rewrite (ab_bytes _ _ _ _ _ Ha), WriteLE64_bits.
  rewrite (finish_absorbs 64 Transform Initialize ltac:(lia) block64_divides _ _ _ Ha)
    by (unfold WriteLE64; rewrite le_bytes_length; lia).
  apply absorb_ext, Transform_rmd.
Qed.

(** The class CRIPEMD160 computes RIPEMD-160: whatever the uninitialised buffer holds and however the
    message is cut into calls of [Write], [Finalize] returns the digest of the whole message. *)
Theorem CRIPEMD160_is_RIPEMD160 junk ds :
  length junk = 64%nat ->
  CRIPEMD160_Finalize (foldl CRIPEMD160_Write (CRIPEMD160_new junk) ds) = rmd160 (concat ds).
Proof. intros Hj. apply CRIPEMD160_digest, Absorbs_pieces; [lia|apply block64_divides|done]. Qed.

(** The published digest of "abc", written in two pieces. *)
Lemma CRIPEMD160_is_RIPEMD160_witness :
  CRIPEMD160_Finalize (foldl CRIPEMD160_Write (CRIPEMD160_new (replicate 64 0xcc)) [[0x61]; [0x62; 0x63]]) =
  rmd160 [0x61; 0x62; 0x63] /\
  rmd160 [0x61; 0x62; 0x63] =
  [0x8e; 0xb2; 0x08; 0xf7; 0xe0; 0x5d; 0x98; 0x7a; 0x9b; 0x04; 0x4a; 0x8e; 0x98; 0xc6; 0xb0; 0x87;
   0xf1; 0x5a; 0x0b; 0xfc].
Proof.
  split; [|vm_compute; reflexivity].
  apply (CRIPEMD160_is_RIPEMD160 (replicate 64 0xcc) [[0x61]; [0x62; 0x63]]). reflexivity.
Defined.
