(* ===== verification/Sha512Spec.v ===== *)
(** * SHA-512 as specified, and the code's hash

    The algorithm of FIPS 180-4, sections 4.1.3, 4.2.3, 5.1.2 and 6.4.2; the unrolled [Transform] and the
    streaming class CSHA512 compute it. *)

From S2P Require Import Prelude Hasher Sha512.

Open Scope word_scope.

(** ** FIPS 180-4 *)

Definition fips5_K : list Z := map (cbrt_fraction 64) (take 80 primes).

(** The initial hash value. *)
Definition fips5_H0 : State :=
  match map (sqrt_fraction 64) (take 8 primes) with
  | [H0; H1; H2; H3; H4; H5; H6; H7] => (H0, H1, H2, H3, H4, H5, H6, H7)
  | _ => (0, 0, 0, 0, 0, 0, 0, 0)
  end.

Definition ROTR64 (n x : Z) : Z := x ⟖ n .| x ⟕⟕ (64 - n).
Definition fips5_Ch (x y z : Z) : Z := (x .& y) .^ (Z.lnot x .& z).
Definition fips5_Maj (x y z : Z) : Z := (x .& y) .^ (x .& z) .^ (y .& z).
Definition fips5_Sigma0 (x : Z) : Z := ROTR64 28 x .^ ROTR64 34 x .^ ROTR64 39 x.
Definition fips5_Sigma1 (x : Z) : Z := ROTR64 14 x .^ ROTR64 18 x .^ ROTR64 41 x.
Definition fips5_sigma0 (x : Z) : Z := ROTR64 1 x .^ ROTR64 8 x .^ x ⟖ 7.
Definition fips5_sigma1 (x : Z) : Z := ROTR64 19 x .^ ROTR64 61 x .^ x ⟖ 6.

(** The message schedule, from the last sixteen words W(t-16), ..., W(t-1). *)
Definition fips5_next (W : list Z) : Z :=
  fips5_sigma1 (nth 14 W 0) ⊞⊞ nth 9 W 0 ⊞⊞ fips5_sigma0 (nth 1 W 0) ⊞⊞ nth 0 W 0.

Fixpoint fips5_schedule (n : nat) (W : list Z) : list Z :=
  match n with
  | O => []
  | S n => nth 0 W 0 :: fips5_schedule n (tail W ++ [fips5_next W])
  end.

Definition fips5_step (s : State) (KW : Z * Z) : State :=
  let '(a, b, c, d, e, f, g, h) := s in
  let T1 := h ⊞⊞ fips5_Sigma1 e ⊞⊞ fips5_Ch e f g ⊞⊞ fst KW ⊞⊞ snd KW in
  let T2 := fips5_Sigma0 a ⊞⊞ fips5_Maj a b c in
  (T1 ⊞⊞ T2, a, b, c, d ⊞⊞ T1, e, f, g).

Definition fips5_words (M : list Z) : list Z := map (fun t => ReadBE64 (drop (8 * t) M)) (seq 0 16).

Definition fips5_add (H s : State) : State :=
  let '(H0, H1, H2, H3, H4, H5, H6, H7) := H in
  let '(a, b, c, d, e, f, g, h) := s in
  (a ⊞⊞ H0, b ⊞⊞ H1, c ⊞⊞ H2, d ⊞⊞ H3, e ⊞⊞ H4, f ⊞⊞ H5, g ⊞⊞ H6, h ⊞⊞ H7).

Definition fips5_compress (H : State) (M : list Z) : State :=
  fips5_add H (foldl fips5_step H (zip fips5_K (fips5_schedule 80 (fips5_words M)))).

(** The bit count is a 128-bit number; that of a message in memory fits its low half. *)
Definition fips_sha512 (m : list Z) : list Z :=
  let p := padded 128 (replicate 8 0 ++ WriteBE64 (8 * zlen m)) m in
  State_bytes (absorb 128 fips5_compress (length p / 128) fips5_H0 p).

(** The state and the constants of the code are these. *)
Lemma Initialize_fips5 : Initialize = fips5_H0.
Proof. vm_compute. reflexivity. Qed.

Definition fips5_K_values : list Z := Eval vm_compute in fips5_K.

Lemma fips5_K_eq : fips5_K = fips5_K_values.
Proof. vm_compute. reflexivity. Qed.

(** ** The code's rounds *)

Lemma Ch_fips5 x y z : Ch x y z = fips5_Ch x y z.
Proof. unfold Ch, fips5_Ch. word_bits. Qed.

Lemma Maj_fips5 x y z : Maj x y z = fips5_Maj x y z.
Proof. unfold Maj, fips5_Maj. word_bits. Qed.

Lemma fips5_step_code k w l a b c d e f g h d' h' :
  Round a b c d e f g h k w = (d', h') ->
  foldl fips5_step (a, b, c, d, e, f, g, h) ((k, w) :: l) = foldl fips5_step (h', a, b, c, d', e, f, g) l.
Proof.
  intros [= <- <-]. cbn [foldl]. f_equal. unfold fips5_step. cbn [fst snd].
  by rewrite <- Ch_fips5, <- Maj_fips5.
Qed.

Lemma fips5_schedule_step n w0 w1 w2 w3 w4 w5 w6 w7 w8 w9 w10 w11 w12 w13 w14 w15 w16 :
  w16 = w0 ⊞⊞ (sigma1 w14 ⊞⊞ w9 ⊞⊞ sigma0 w1) ->
  fips5_schedule (S n) [w0; w1; w2; w3; w4; w5; w6; w7; w8; w9; w10; w11; w12; w13; w14; w15] =
  w0 :: fips5_schedule n [w1; w2; w3; w4; w5; w6; w7; w8; w9; w10; w11; w12; w13; w14; w15; w16].
Proof.
  intros ->. change (sigma1 w14) with (fips5_sigma1 w14). change (sigma0 w1) with (fips5_sigma0 w1).
  cbn [fips5_schedule]. do 2 f_equal. cbn [tail app]. do 15 f_equal. unfold fips5_next. cbn [nth]. f_equal.
  generalize (fips5_sigma1 w14), (fips5_sigma0 w1). intros. word_sum.
Qed.

Ltac schedule_word :=
  match goal with
  | |- context [fips5_schedule (S ?n) [?w0; ?w1; ?w2; ?w3; ?w4; ?w5; ?w6; ?w7; ?w8; ?w9; ?w10; ?w11; ?w12; ?w13; ?w14; ?w15]] =>
      let w := fresh "w" in let Hw := fresh "Hw" in
      remember (w0 ⊞⊞ (sigma1 w14 ⊞⊞ w9 ⊞⊞ sigma0 w1)) as w eqn:Hw;
      rewrite (fips5_schedule_step n w0 w1 w2 w3 w4 w5 w6 w7 w8 w9 w10 w11 w12 w13 w14 w15 w Hw)
  end.

Ltac rewrite_word x w :=
  first [ constr_eq x w | match goal with H : w = _ |- _ => rewrite <- H end
        | let H := fresh in assert (H : x = w) by (match goal with H : w = _ |- _ => rewrite H; clear end; word_sum);
          rewrite H; clear H ].

(** One statement of the unrolled code against one step of the reference. *)
Ltac round_step :=
  lazymatch goal with
  | |- assign ?E ?body = fips5_add _ (foldl fips5_step _ ((_, ?w) :: _)) =>
      rewrite_word E w; rewrite assign_eq; cbv beta
  | |- (let '(_, _) := Round ?a ?b ?c ?d ?e ?f ?g ?h ?k ?x in _) = fips5_add _ (foldl fips5_step _ ((_, ?w) :: ?l)) =>
      rewrite_word x w;
      let HR := fresh in
      destruct (Round a b c d e f g h k w) as [? ?] eqn:HR; rewrite (fips5_step_code k w l a b c d e f g h _ _ HR);
      clear HR
  end.

Lemma add64_comm x y : x ⊞⊞ y = y ⊞⊞ x.
Proof. unfold add64. by rewrite Z.add_comm. Qed.

Lemma Transform_fips5 s chunk : Transform s chunk = fips5_compress s chunk.
Proof.
  destruct s as [[[[[[[s0 s1] s2] s3] s4] s5] s6] s7]. unfold fips5_compress, Transform.
  cbv beta iota delta [fips5_words map seq Nat.mul Nat.add].
  do 80 schedule_word. cbn [fips5_schedule]. rewrite fips5_K_eq. unfold fips5_K_values. cbn [zip zip_with].
  repeat round_step. unfold fips5_add. cbn [foldl]. repeat apply (f_equal2 pair); apply add64_comm.
Qed.

Lemma block128_divides : (Z.of_nat 128 | 2 ^ 64).
Proof. by exists (2 ^ 57). Qed.

Lemma CSHA512_digest h m : Absorbs 128 Transform Initialize h m -> CSHA512_Finalize h = fips_sha512 m.
Proof.
  intros Ha. unfold CSHA512_Finalize, fips_sha512, CSHA512_Write. rewrite <- Initialize_fips5. f_equal.
  rewrite (ab_bytes _ _ _ _ _ Ha), WriteBE64_bits.
  rewrite (finish_absorbs 128 Transform Initialize ltac:(lia) block128_divides _ _ _ Ha)
    by (rewrite length_app, length_WriteBE64; simpl; lia).
  apply absorb_ext, Transform_fips5.
Qed.

(** The class CSHA512 computes SHA-512: whatever the uninitialised buffer holds and however the message
    is cut into calls of [Write], [Finalize] returns the digest of FIPS 180-4 of the whole message. *)
Theorem CSHA512_is_SHA512 junk ds :
  length junk = 128%nat -> CSHA512_Finalize (foldl CSHA512_Write (CSHA512_new junk) ds) = fips_sha512 (concat ds).
Proof. intros Hj. apply CSHA512_digest, Absorbs_pieces; [lia|apply block128_divides|done]. Qed.

(** The first bytes of the digest of "abc" published with the standard, written in two pieces. *)
Lemma CSHA512_is_SHA512_witness :
  CSHA512_Finalize (foldl CSHA512_Write (CSHA512_new (replicate 128 0xcc)) [[0x61]; [0x62; 0x63]]) =
  fips_sha512 [0x61; 0x62; 0x63] /\
  take 16 (fips_sha512 [0x61; 0x62; 0x63]) =
  [0xdd; 0xaf; 0x35; 0xa1; 0x93; 0x61; 0x7a; 0xba; 0xcc; 0x41; 0x73; 0x49; 0xae; 0x20; 0x41; 0x31].
Proof.
  split; [|vm_compute; reflexivity].
  apply (CSHA512_is_SHA512 (replicate 128 0xcc) [[0x61]; [0x62; 0x63]]). reflexivity.
Defined.
