(* ===== verification/Hashes.v ===== *)
(** * The hashers built on the digests

    [StreamHash] is what a hash class promises to its users: a message written in pieces to a new object
    and finished gives the digest of the message.  CSHA256, CSHA512 and CRIPEMD160 are instances.
    Against this interface are modelled CHMAC_SHA256 and CHMAC_SHA512 (src/src/crypto/hmac_sha256.cpp,
    hmac_sha512.cpp), CHKDF_HMAC_SHA256_L32 (hkdf_sha256_32.cpp), CHash256, CHash160, CHashWriter,
    BIP32Hash and SHA256Uint256 (src/src/hash.h, hash.cpp).  [core_crypto] is the instance of the
    interface of Crypto.v whose digests are those of the standards. *)

From S2P Require Import Prelude Script Crypto Hasher Sha256 Sha256Spec Sha1 Sha1Spec Ripemd160.
From S2P Require Import Ripemd160Spec Sha512 Sha512Spec.

(** ** The interface *)

Class StreamHash : Type := {
  sh_type : Type;
  sh_block : nat;
  (** The constructor, on the uninitialised buffer it finds. *)
  sh_new : list Z -> sh_type;
  sh_Write : sh_type -> list Z -> sh_type;
  sh_Finalize : sh_type -> list Z;
  (** The function the class computes. *)
  sh_digest : list Z -> list Z;
  (** The object has been given the message. *)
  sh_holds : sh_type -> list Z -> Prop
}.

Class StreamHashLaws (HS : StreamHash) : Prop := {
  holds_new junk : length junk = sh_block -> sh_holds (sh_new junk) [];
  holds_Write h m d : sh_holds h m -> sh_holds (sh_Write h d) (m ++ d);
  holds_Finalize h m : sh_holds h m -> sh_Finalize h = sh_digest m;
  digest_size m : (length (sh_digest m) <= sh_block)%nat
}.

Definition CSHA256_stream : StreamHash := {|
  sh_type := Hasher Sha256.State;
  sh_block := 64;
  sh_new := CSHA256_new;
  sh_Write := CSHA256_Write;
  sh_Finalize := CSHA256_Finalize;
  sh_digest := fips_sha256;
  sh_holds := Absorbs 64 fips_compress Sha256.Initialize
|}.

Definition CSHA512_stream : StreamHash := {|
  sh_type := Hasher Sha512.State;
  sh_block := 128;
  sh_new := CSHA512_new;
  sh_Write := CSHA512_Write;
  sh_Finalize := CSHA512_Finalize;
  sh_digest := fips_sha512;
  sh_holds := Absorbs 128 Sha512.Transform Sha512.Initialize
|}.

Definition CRIPEMD160_stream : StreamHash := {|
  sh_type := Hasher Ripemd160.State;
  sh_block := 64;
  sh_new := CRIPEMD160_new;
  sh_Write := CRIPEMD160_Write;
  sh_Finalize := CRIPEMD160_Finalize;
  sh_digest := rmd160;
  sh_holds := Absorbs 64 Ripemd160.Transform Ripemd160.Initialize
|}.

Lemma fips_sha256_length m : length (fips_sha256 m) = 32%nat.
Proof. apply State_bytes_length. Qed.

Lemma fips_sha512_length m : length (fips_sha512 m) = 64%nat.
Proof.
  unfold fips_sha512. generalize (absorb 128 fips5_compress
    (length (padded 128 (replicate 8 0 ++ WriteBE64 (8 * zlen m)) m) / 128) fips5_H0
    (padded 128 (replicate 8 0 ++ WriteBE64 (8 * zlen m)) m)).
  intros [[[[[[[? ?] ?] ?] ?] ?] ?] ?]. cbn [Sha512.State_bytes].
  by rewrite !length_app, !length_WriteBE64.
Qed.

Lemma rmd160_length m : length (rmd160 m) = 20%nat.
Proof.
  unfold rmd160. generalize (absorb 64 rmd_compress (length (padded 64 (WriteLE64 (8 * zlen m)) m) / 64)
    Ripemd160.Initialize (padded 64 (WriteLE64 (8 * zlen m)) m)).
  intros [[[[? ?] ?] ?] ?]. cbn [Ripemd160.State_bytes]. unfold WriteLE32. by rewrite !length_app, !le_bytes_length.
Qed.

#[export] Instance CSHA256_stream_laws : StreamHashLaws CSHA256_stream.
Proof.
  constructor; cbn [sh_type sh_block sh_new sh_Write sh_Finalize sh_digest sh_holds CSHA256_stream].
  - intros junk Hj. by apply Absorbs_new.
  - intros h m d Ha. pose proof (CSHA256_Writes_absorb h m [d] Ha) as Hw. simpl in Hw. by rewrite app_nil_r in Hw.
  - apply CSHA256_Finalize_absorbs.
  - intros m. rewrite fips_sha256_length. lia.
Qed.

#[export] Instance CSHA512_stream_laws : StreamHashLaws CSHA512_stream.
Proof.
  constructor; cbn [sh_type sh_block sh_new sh_Write sh_Finalize sh_digest sh_holds CSHA512_stream].
  - intros junk Hj. by apply Absorbs_new.
  - intros h m d Ha. apply Write_absorbs; [lia|apply block128_divides|done].
  - apply CSHA512_digest.
  - intros m. rewrite fips_sha512_length. lia.
Qed.

#[export] Instance CRIPEMD160_stream_laws : StreamHashLaws CRIPEMD160_stream.
Proof.
  constructor; cbn [sh_type sh_block sh_new sh_Write sh_Finalize sh_digest sh_holds CRIPEMD160_stream].
  - intros junk Hj. by apply Absorbs_new.
  - intros h m d Ha. apply Write_absorbs; [lia|apply block64_divides|done].
  - apply CRIPEMD160_digest.
  - intros m. rewrite rmd160_length. lia.
Qed.

(** ** HMAC *)

Section hmac.
Context {HS : StreamHash}.

(** CHMAC_SHA256 and CHMAC_SHA512: the two hashers. *)
Record CHMAC := mkCHMAC { outer : sh_type; inner : sh_type }.

(** The constructor, on the uninitialised buffers of [outer], [inner] and of the hasher of a long key. *)
Definition CHMAC_new (junk_o junk_i junk_k key : list Z) : CHMAC :=
  let rkey :=
    if (length key <=? sh_block)%nat then key ++ replicate (sh_block - length key) 0
    else let digest := sh_Finalize (sh_Write (sh_new junk_k) key) in
         digest ++ replicate (sh_block - length digest) 0 in
  let rkey := map (fun b => Z.lxor b 0x5c) rkey in
  let outer := sh_Write (sh_new junk_o) rkey in
  let rkey := map (fun b => Z.lxor b (Z.lxor 0x5c 0x36)) rkey in
  let inner := sh_Write (sh_new junk_i) rkey in
  mkCHMAC outer inner.

Definition CHMAC_Write (c : CHMAC) (data : list Z) : CHMAC := mkCHMAC (outer c) (sh_Write (inner c) data).

Definition CHMAC_Finalize (c : CHMAC) : list Z :=
  let temp := sh_Finalize (inner c) in
  sh_Finalize (sh_Write (outer c) temp).

(** RFC 2104. *)
Definition hmac (key m : list Z) : list Z :=
  let K := if (length key <=? sh_block)%nat then key else sh_digest key in
  let K0 := K ++ replicate (sh_block - length K) 0 in
  sh_digest (map (Z.lxor 0x5c) K0 ++ sh_digest (map (Z.lxor 0x36) K0 ++ m)).

Context {HL : StreamHashLaws HS}.

Lemma holds_message junk m : length junk = sh_block -> sh_holds (sh_Write (sh_new junk) m) m.
Proof. intros Hj. apply (holds_Write _ []), (holds_new _ Hj). Qed.

Lemma CHMAC_digest junk_o junk_i junk_k key ds :
  length junk_o = sh_block -> length junk_i = sh_block -> length junk_k = sh_block ->
  CHMAC_Finalize (foldl CHMAC_Write (CHMAC_new junk_o junk_i junk_k key) ds) = hmac key (concat ds).
Proof.
  intros Ho Hi Hk. unfold hmac, CHMAC_new.
  rewrite (holds_Finalize _ _ (holds_message junk_k key Hk)).
  set (K0 := if (length key <=? sh_block)%nat then _ else _).
  replace (_ ++ replicate _ 0) with K0 by (unfold K0; by case_bool).
  rewrite map_map.
  rewrite (map_ext (fun b => Z.lxor (Z.lxor b 0x5c) (Z.lxor 0x5c 0x36)) (Z.lxor 0x36)) by (intros b; word_bits).
  rewrite (map_ext (fun b => Z.lxor b 0x5c) (Z.lxor 0x5c)) by (intros b; apply Z.lxor_comm).
  assert (Hin : forall ds o i m, sh_holds i m ->
    exists i', foldl CHMAC_Write (mkCHMAC o i) ds = mkCHMAC o i' /\ sh_holds i' (m ++ concat ds)).
  { clear - HL. intros ds o. induction ds as [|d ds IH]; intros i m Hm; simpl; [exists i; by rewrite app_nil_r|].
    rewrite app_assoc. by apply IH, holds_Write. }
  destruct (Hin ds (sh_Write (sh_new junk_o) (map (Z.lxor 0x5c) K0)) _ _
    (holds_message junk_i (map (Z.lxor 0x36) K0) Hi)) as (i' & -> & Hi').
  unfold CHMAC_Finalize. cbn [outer inner]. rewrite (holds_Finalize _ _ Hi').
  apply holds_Finalize, holds_Write, holds_message, Ho.
Qed.

End hmac.

(** The classes of hmac_sha256.cpp and hmac_sha512.cpp. *)
Definition CHMAC_SHA256_new := CHMAC_new (HS := CSHA256_stream).
Definition CHMAC_SHA256_Write := CHMAC_Write (HS := CSHA256_stream).
Definition CHMAC_SHA256_Finalize := CHMAC_Finalize (HS := CSHA256_stream).
Definition CHMAC_SHA512_new := CHMAC_new (HS := CSHA512_stream).
Definition CHMAC_SHA512_Write := CHMAC_Write (HS := CSHA512_stream).
Definition CHMAC_SHA512_Finalize := CHMAC_Finalize (HS := CSHA512_stream).

(** hash.cpp: one fresh buffer per hasher. *)
Definition BIP32Hash (junk_o junk_i junk_k chainCode : list Z) (nChild header : Z) (data : list Z) : list Z :=
  let num := WriteBE32 nChild in
  let h := CHMAC_SHA512_new junk_o junk_i junk_k chainCode in
  let h := CHMAC_SHA512_Write h [header] in
  let h := CHMAC_SHA512_Write h data in
  let h := CHMAC_SHA512_Write h num in
  CHMAC_SHA512_Finalize h.

(** CHKDF_HMAC_SHA256_L32: [m_prk] after the constructor, and [Expand32]. *)
Definition CHKDF_new (junk_o junk_i junk_k ikm salt : list Z) : list Z :=
  CHMAC_SHA256_Finalize (CHMAC_SHA256_Write (CHMAC_SHA256_new junk_o junk_i junk_k salt) ikm).

Definition Expand32 (junk_o junk_i junk_k m_prk info : list Z) : res unit (list Z) :=
  _ ← assertb (length info <=? 128)%nat;
  let h := CHMAC_SHA256_new junk_o junk_i junk_k m_prk in
  let h := CHMAC_SHA256_Write h info in
  let h := CHMAC_SHA256_Write h [1] in
  mret (CHMAC_SHA256_Finalize h).

Definition buffers (B : nat) (js : list (list Z)) : Prop := Forall (fun j => length j = B) js.

(** CHMAC_SHA256 and CHMAC_SHA512 compute HMAC of RFC 2104 over SHA-256 and SHA-512 for every key, a key
    longer than a block included, however the message is cut into calls of [Write]. *)
Theorem CHMAC_is_HMAC key ds :
  (forall jo ji jk, buffers 64 [jo; ji; jk] ->
     CHMAC_SHA256_Finalize (foldl CHMAC_SHA256_Write (CHMAC_SHA256_new jo ji jk key) ds) =
     hmac (HS := CSHA256_stream) key (concat ds)) /\
  (forall jo ji jk, buffers 128 [jo; ji; jk] ->
     CHMAC_SHA512_Finalize (foldl CHMAC_SHA512_Write (CHMAC_SHA512_new jo ji jk key) ds) =
     hmac (HS := CSHA512_stream) key (concat ds)).
Proof.
  split; intros jo ji jk Hb; unfold buffers in Hb; rewrite !Forall_cons in Hb; destruct Hb as (? & ? & ? & _);
    by apply CHMAC_digest.
Qed.

(** Test case 1 of RFC 4231: the key is twenty bytes 0x0b, the message "Hi There". *)
Lemma CHMAC_is_HMAC_witness :
  let key := replicate 20 0x0b in
  let ds := [[0x48; 0x69; 0x20]; [0x54; 0x68; 0x65; 0x72; 0x65]] in
  let j64 := replicate 64 0xcc in let j128 := replicate 128 0xcc in
  CHMAC_SHA256_Finalize (foldl CHMAC_SHA256_Write (CHMAC_SHA256_new j64 j64 j64 key) ds) =
    hmac (HS := CSHA256_stream) key (concat ds) /\
  CHMAC_SHA512_Finalize (foldl CHMAC_SHA512_Write (CHMAC_SHA512_new j128 j128 j128 key) ds) =
    hmac (HS := CSHA512_stream) key (concat ds) /\
  take 8 (hmac (HS := CSHA256_stream) key (concat ds)) = [0xb0; 0x34; 0x4c; 0x61; 0xd8; 0xdb; 0x38; 0x53] /\
  take 8 (hmac (HS := CSHA512_stream) key (concat ds)) = [0x87; 0xaa; 0x7c; 0xde; 0xa5; 0xef; 0x61; 0x9d].
Proof.
  intros key ds j64 j128. split; [|split; [|split; vm_compute; reflexivity]].
  - apply (proj1 (CHMAC_is_HMAC key ds)). by repeat constructor.
  - apply (proj2 (CHMAC_is_HMAC key ds)). by repeat constructor.
Defined.

(** ** CHash256, CHash160 and CHashWriter *)

(** [Finalize] of CHash256, and [GetHash] of CHashWriter: finish, reset the same object, hash the digest. *)
Definition CHash256_Finalize (h : Hasher Sha256.State) : list Z :=
  let h := CSHA256_finish h in
  let buf := Sha256.State_bytes (hs h) in
  CSHA256_Finalize (CSHA256_Write (CSHA256_Reset h) buf).

(** [Finalize] of CHash160, on a new CRIPEMD160. *)
Definition CHash160_Finalize (junk : list Z) (h : Hasher Sha256.State) : list Z :=
  let buf := CSHA256_Finalize h in
  CRIPEMD160_Finalize (CRIPEMD160_Write (CRIPEMD160_new junk) buf).

Definition CHashWriter_GetHash (ctx : Hasher Sha256.State) : list Z := CHash256_Finalize ctx.
Definition CHashWriter_GetCheapHash (ctx : Hasher Sha256.State) : Z := ReadLE64 (CHashWriter_GetHash ctx).
Definition SHA256Uint256 (junk input : list Z) : list Z :=
  CSHA256_Finalize (CSHA256_Write (CSHA256_new junk) input).

(** The interface of Crypto.v with the digests of the standards; the elliptic curve and scrypt remain
    those of [ecc]. *)
Definition core_crypto (ecc : CryptoOps) : CryptoOps :=
  {| sha256 := fips_sha256; ripemd160 := rmd160; sha1 := fips_sha1; scrypt := @scrypt ecc;
     secp256k1_verify := @secp256k1_verify ecc; secp256k1_low_s := @secp256k1_low_s ecc;
     secp256k1_pubkey_parse := @secp256k1_pubkey_parse ecc;
     secp256k1_pubkey_uncompress := @secp256k1_pubkey_uncompress ecc |}.

Lemma fips_sha1_State m : exists s, fips_sha1 m = Sha1.State_bytes s.
Proof. by eexists. Qed.

Lemma rmd160_State m : exists s, rmd160 m = Ripemd160.State_bytes s.
Proof. by eexists. Qed.

(** The digests have the sizes and the bytes the users of the interface rely on. *)
#[export] Instance core_crypto_laws ecc : CryptoLaws ecc -> CryptoLaws (core_crypto ecc).
Proof.
  intros HL. constructor; cbn [sha256 ripemd160 sha1 core_crypto].
  - apply fips_sha256_length.
  - intros v. apply State_bytes_ok.
  - apply rmd160_length.
  - intros v. destruct (rmd160_State v) as [[[[[? ?] ?] ?] ?] ->]. cbn [Ripemd160.State_bytes].
    rewrite !bytes_ok_app. split_and!; apply le_bytes_ok.
  - intros v. destruct (fips_sha1_State v) as [[[[[? ?] ?] ?] ?] ->]. cbn [Sha1.State_bytes].
    by rewrite !length_app, !length_WriteBE32.
  - intros v. destruct (fips_sha1_State v) as [[[[[? ?] ?] ?] ?] ->]. cbn [Sha1.State_bytes].
    rewrite !bytes_ok_app. split_and!; apply WriteBE32_bytes.
  - apply (@secp256k1_compressed ecc HL).
Qed.

Lemma CHash256_Finalize_holds h m :
  Absorbs 64 fips_compress Sha256.Initialize h m -> CHash256_Finalize h = fips_sha256 (fips_sha256 m).
Proof.
  intros Ha. unfold CHash256_Finalize. pose proof (CSHA256_finish_absorbs h m Ha) as Hf.
  change (Sha256.State_bytes (hs (CSHA256_finish h))) with (CSHA256_Finalize h).
  rewrite (CSHA256_Finalize_absorbs h m Ha).
  apply CSHA256_Finalize_absorbs. apply (holds_Write (StreamHashLaws := CSHA256_stream_laws) _ []).
  by eapply Absorbs_Reset.
Qed.

(** The hashers CHash256 (and CHashWriter::GetHash) and CHash160 compute the functions the model of the
    script interpreter and of the chain uses, double SHA-256 and RIPEMD-160 of SHA-256, of everything
    written to them, whatever their uninitialised buffers hold; the object is reset and used twice. *)
Theorem hashers_compute_Hash ecc junk junk' ds :
  length junk = 64%nat -> length junk' = 64%nat ->
  let h := foldl CSHA256_Write (CSHA256_new junk) ds in
  CHash256_Finalize h = CHash256 (crypto := core_crypto ecc) (concat ds) /\
  CHash160_Finalize junk' h = CHash160 (crypto := core_crypto ecc) (concat ds).
Proof.
  intros Hj Hj' h.
  assert (Ha : Absorbs 64 fips_compress Sha256.Initialize h (concat ds)).
  { apply (CSHA256_Writes_absorb _ []). by apply Absorbs_new. }
  split; [by apply CHash256_Finalize_holds|].
  unfold CHash160_Finalize. rewrite (CSHA256_Finalize_absorbs _ _ Ha).
  by apply CRIPEMD160_digest, (holds_message (HL := CRIPEMD160_stream_laws)).
Qed.

(** The hashes of the empty message. *)
Lemma hashers_compute_Hash_witness :
  let h := foldl CSHA256_Write (CSHA256_new (replicate 64 1)) [] in
  CHash256_Finalize h = CHash256 (crypto := core_crypto sum_crypto) [] /\
  CHash160_Finalize (replicate 64 2) h = CHash160 (crypto := core_crypto sum_crypto) [] /\
  take 4 (CHash256 (crypto := core_crypto sum_crypto) []) = [0x5d; 0xf6; 0xe0; 0xe2] /\
  take 4 (CHash160 (crypto := core_crypto sum_crypto) []) = [0xb4; 0x72; 0xa2; 0x66].
Proof.
  pose proof (hashers_compute_Hash sum_crypto (replicate 64 1) (replicate 64 2) [] eq_refl eq_refl) as [H1 H2].
  split; [exact H1|]. split; [exact H2|]. split; vm_compute; reflexivity.
Defined.
