(* ===== verification/Interpreter.v ===== *)
(** * The script interpreter

    Models src/src/script/interpreter.cpp up to VerifyScript (the signature hash is in SigHash.v),
    interpreter.h and script_error.h.

    The evaluation state is a record of the locals of [EvalScript]: the iterators [pc] and
    [pbegincodehash] as suffixes of the script, the two stacks with the top of the stack (the back of
    the C++ vector) at the head of the list, the condition stack [vfExec] likewise, and [nOpCount].
    Each group of cases of the [switch] is a function from states to [res ScriptError]; what throws
    inside the [try] block reports [SCRIPT_ERR_UNKNOWN_ERROR], as its [catch] does, and a failed
    [assert] is [Abort].  On failure the C++ code leaves the caller's stack in an unspecified state that
    no caller reads, so an error carries no stack. *)

From stdpp Require Import base list numbers strings.
From S2P Require Import Prelude Script Crypto.

Open Scope Z_scope.

(** ** Errors and flags *)

Inductive ScriptError : Type :=
| SCRIPT_ERR_OK | SCRIPT_ERR_UNKNOWN_ERROR | SCRIPT_ERR_EVAL_FALSE | SCRIPT_ERR_OP_RETURN
| SCRIPT_ERR_SCRIPT_SIZE | SCRIPT_ERR_PUSH_SIZE | SCRIPT_ERR_OP_COUNT | SCRIPT_ERR_STACK_SIZE
| SCRIPT_ERR_SIG_COUNT | SCRIPT_ERR_PUBKEY_COUNT
| SCRIPT_ERR_VERIFY | SCRIPT_ERR_EQUALVERIFY | SCRIPT_ERR_CHECKMULTISIGVERIFY
| SCRIPT_ERR_CHECKSIGVERIFY | SCRIPT_ERR_CHECKDATASIGVERIFY | SCRIPT_ERR_NUMEQUALVERIFY
| SCRIPT_ERR_BAD_OPCODE | SCRIPT_ERR_DISABLED_OPCODE | SCRIPT_ERR_INVALID_STACK_OPERATION
| SCRIPT_ERR_INVALID_ALTSTACK_OPERATION | SCRIPT_ERR_UNBALANCED_CONDITIONAL
| SCRIPT_ERR_INVALID_SPLIT_RANGE | SCRIPT_ERR_INVALID_OPERAND_SIZE
| SCRIPT_ERR_INVALID_NUMBER_RANGE | SCRIPT_ERR_IMPOSSIBLE_ENCODING
| SCRIPT_ERR_DIV_BY_ZERO | SCRIPT_ERR_MOD_BY_ZERO
| SCRIPT_ERR_NEGATIVE_LOCKTIME | SCRIPT_ERR_UNSATISFIED_LOCKTIME
| SCRIPT_ERR_SIG_HASHTYPE | SCRIPT_ERR_SIG_DER | SCRIPT_ERR_MINIMALDATA | SCRIPT_ERR_SIG_PUSHONLY
| SCRIPT_ERR_SIG_HIGH_S | SCRIPT_ERR_SIG_NULLDUMMY | SCRIPT_ERR_PUBKEYTYPE | SCRIPT_ERR_CLEANSTACK
| SCRIPT_ERR_SIG_NULLFAIL
| SCRIPT_ERR_DISCOURAGE_UPGRADABLE_NOPS
| SCRIPT_ERR_OP_CODESEPARATOR | SCRIPT_ERR_SIG_FINDANDDELETE
| SCRIPT_ERR_ERROR_COUNT.

Definition ScriptErrorString (serror : ScriptError) : string :=
  (match serror with
   | SCRIPT_ERR_OK => "No error"
   | SCRIPT_ERR_EVAL_FALSE =>
       "Script evaluated without error but finished with a false/empty top stack element"
   | SCRIPT_ERR_VERIFY => "Script failed an OP_VERIFY operation"
   | SCRIPT_ERR_EQUALVERIFY => "Script failed an OP_EQUALVERIFY operation"
   | SCRIPT_ERR_CHECKMULTISIGVERIFY => "Script failed an OP_CHECKMULTISIGVERIFY operation"
   | SCRIPT_ERR_CHECKSIGVERIFY => "Script failed an OP_CHECKSIGVERIFY operation"
   | SCRIPT_ERR_CHECKDATASIGVERIFY => "Script failed an OP_CHECKDATASIGVERIFY operation"
   | SCRIPT_ERR_NUMEQUALVERIFY => "Script failed an OP_NUMEQUALVERIFY operation"
   | SCRIPT_ERR_SCRIPT_SIZE => "Script is too big"
   | SCRIPT_ERR_PUSH_SIZE => "Push value size limit exceeded"
   | SCRIPT_ERR_OP_COUNT => "Operation limit exceeded"
   | SCRIPT_ERR_STACK_SIZE => "Stack size limit exceeded"
   | SCRIPT_ERR_SIG_COUNT => "Signature count negative or greater than pubkey count"
   | SCRIPT_ERR_PUBKEY_COUNT => "Pubkey count negative or limit exceeded"
   | SCRIPT_ERR_BAD_OPCODE => "Opcode missing or not understood"
   | SCRIPT_ERR_DISABLED_OPCODE => "Attempted to use a disabled opcode"
   | SCRIPT_ERR_INVALID_STACK_OPERATION => "Operation not valid with the current stack size"
   | SCRIPT_ERR_INVALID_ALTSTACK_OPERATION => "Operation not valid with the current altstack size"
   | SCRIPT_ERR_OP_RETURN => "OP_RETURN was encountered"
   | SCRIPT_ERR_UNBALANCED_CONDITIONAL => "Invalid OP_IF construction"
   | SCRIPT_ERR_INVALID_SPLIT_RANGE => "Invalid OP_SPLIT range"
   | SCRIPT_ERR_INVALID_OPERAND_SIZE => "Invalid operand size"
   | SCRIPT_ERR_INVALID_NUMBER_RANGE =>
       "Given operand is not a number within the valid range [-2^31...2^31]"
   | SCRIPT_ERR_IMPOSSIBLE_ENCODING => "The requested encoding is impossible to satisfy"
   | SCRIPT_ERR_DIV_BY_ZERO => "Division by zero error"
   | SCRIPT_ERR_MOD_BY_ZERO => "Modulo by zero error"
   | SCRIPT_ERR_NEGATIVE_LOCKTIME => "Negative locktime"
   | SCRIPT_ERR_UNSATISFIED_LOCKTIME => "Locktime requirement not satisfied"
   | SCRIPT_ERR_SIG_HASHTYPE => "Signature hash type missing or not understood"
   | SCRIPT_ERR_SIG_DER => "Non-canonical DER signature"
   | SCRIPT_ERR_MINIMALDATA => "Data push larger than necessary"
   | SCRIPT_ERR_SIG_PUSHONLY => "Only push operators allowed in signatures"
   | SCRIPT_ERR_SIG_HIGH_S => "Non-canonical signature: S value is unnecessarily high"
   | SCRIPT_ERR_SIG_NULLDUMMY => "Dummy CHECKMULTISIG argument must be zero"
   | SCRIPT_ERR_SIG_NULLFAIL => "Signature must be zero for failed CHECK(MULTI)SIG operation"
   | SCRIPT_ERR_DISCOURAGE_UPGRADABLE_NOPS => "NOPx reserved for soft-fork upgrades"
   | SCRIPT_ERR_PUBKEYTYPE => "Public key is neither compressed or uncompressed"
   | SCRIPT_ERR_CLEANSTACK => "Extra items left on stack after execution"
   | SCRIPT_ERR_OP_CODESEPARATOR => "Using OP_CODESEPARATOR"
   | SCRIPT_ERR_SIG_FINDANDDELETE => "Signature is found in scriptCode"
   | SCRIPT_ERR_UNKNOWN_ERROR | SCRIPT_ERR_ERROR_COUNT => "unknown error"
   end)%string.

Definition SIGHASH_ALL : Z := 1.
Definition SIGHASH_NONE : Z := 2.
Definition SIGHASH_SINGLE : Z := 3.
Definition SIGHASH_ANYONECANPAY : Z := 0x80.

Definition SCRIPT_VERIFY_P2SH : Z := Z.shiftl 1 0.
Definition SCRIPT_VERIFY_STRICTENC : Z := Z.shiftl 1 1.
Definition SCRIPT_VERIFY_DERSIG : Z := Z.shiftl 1 2.
Definition SCRIPT_VERIFY_LOW_S : Z := Z.shiftl 1 3.
Definition SCRIPT_VERIFY_NULLDUMMY : Z := Z.shiftl 1 4.
Definition SCRIPT_VERIFY_SIGPUSHONLY : Z := Z.shiftl 1 5.
Definition SCRIPT_VERIFY_MINIMALDATA : Z := Z.shiftl 1 6.
Definition SCRIPT_VERIFY_DISCOURAGE_UPGRADABLE_NOPS : Z := Z.shiftl 1 7.
Definition SCRIPT_VERIFY_CLEANSTACK : Z := Z.shiftl 1 8.
Definition SCRIPT_VERIFY_CHECKLOCKTIMEVERIFY : Z := Z.shiftl 1 9.
Definition SCRIPT_VERIFY_CHECKSEQUENCEVERIFY : Z := Z.shiftl 1 10.
Definition SCRIPT_VERIFY_NULLFAIL : Z := Z.shiftl 1 14.
Definition SCRIPT_ENABLE_DIP0020_OPCODES : Z := Z.shiftl 1 15.
Definition SCRIPT_VERIFY_CONST_SCRIPTCODE : Z := Z.shiftl 1 16.

Inductive SigVersion : Type := BASE.

(** ** BaseSignatureChecker: the virtual operations *)
Record SignatureChecker : Type := {
  CheckSig : list Z -> list Z -> list Z -> SigVersion -> bool;
  CheckLockTime : Z -> bool;
  CheckSequence : Z -> bool
}.

(** The base class answers [false] to everything. *)
Definition BaseSignatureChecker : SignatureChecker :=
  {| CheckSig := fun _ _ _ _ => false; CheckLockTime := fun _ => false;
     CheckSequence := fun _ => false |}.

(** CTxIn::SEQUENCE_LOCKTIME_DISABLE_FLAG (primitives/transaction.h). *)
Definition SEQUENCE_LOCKTIME_DISABLE_FLAG : Z := Z.shiftl 1 31.

(** ** Truth values, signature and key encodings *)

Fixpoint CastToBool (vch : valtype) : bool :=
  match vch with
  | [] => false
  | b :: vch =>
      if negb (b =? 0) then negb ((zlen vch =? 0) && (b =? 0x80)) else CastToBool vch
  end.

Definition IsCompressedOrUncompressedPubKey (vchPubKey : valtype) : bool :=
  if zlen vchPubKey <? PubKey_COMPRESSED_SIZE then false
  else if vget vchPubKey 0 =? 0x04 then zlen vchPubKey =? PubKey_SIZE
  else if (vget vchPubKey 0 =? 0x02) || (vget vchPubKey 0 =? 0x03)
       then zlen vchPubKey =? PubKey_COMPRESSED_SIZE
  else false.

Definition IsCompressedPubKey (vchPubKey : valtype) : bool :=
  if negb (zlen vchPubKey =? PubKey_COMPRESSED_SIZE) then false
  else if negb (vget vchPubKey 0 =? 0x02) && negb (vget vchPubKey 0 =? 0x03) then false
  else true.

Definition IsValidSignatureEncoding (sig : list Z) : bool :=
  if zlen sig <? 9 then false else
  if 73 <? zlen sig then false else
  if negb (vget sig 0 =? 0x30) then false else
  if negb (vget sig 1 =? zlen sig - 3) then false else
  let lenR := vget sig 3 in
  if zlen sig <=? 5 + lenR then false else
  let lenS := vget sig (Z.to_nat (5 + lenR)) in
  if negb (lenR + lenS + 7 =? zlen sig) then false else
  if negb (vget sig 2 =? 0x02) then false else
  if lenR =? 0 then false else
  if flag (vget sig 4) 0x80 then false else
  if (1 <? lenR) && (vget sig 4 =? 0x00) && negb (flag (vget sig 5) 0x80) then false else
  if negb (vget sig (Z.to_nat (lenR + 4)) =? 0x02) then false else
  if lenS =? 0 then false else
  if flag (vget sig (Z.to_nat (lenR + 6))) 0x80 then false else
  if (1 <? lenS) && (vget sig (Z.to_nat (lenR + 6)) =? 0x00) &&
     negb (flag (vget sig (Z.to_nat (lenR + 7))) 0x80) then false else
  true.

Definition IsDefinedHashtypeSignature (vchSig : valtype) : bool :=
  if zlen vchSig =? 0 then false else
  let nHashType := Z.land (back vchSig) (u8 (Z.lnot SIGHASH_ANYONECANPAY)) in
  if (nHashType <? SIGHASH_ALL) || (SIGHASH_SINGLE <? nHashType) then false else true.

(** The caller's range check makes the assertion hold. *)
Definition CheckMinimalPush (data : valtype) (opcode : opcodetype) : res ScriptError bool :=
  if negb ((0 <=? opcode_val opcode) && op_leb opcode OP_PUSHDATA4) then Abort
  else if zlen data =? 0 then Ok (op_eqb opcode OP_0)
  else if (zlen data =? 1) && (1 <=? vget data 0) && (vget data 0 <=? 16) then Ok false
  else if (zlen data =? 1) && (vget data 0 =? 0x81) then Ok false
  else if zlen data <=? 75 then Ok (opcode_val opcode =? zlen data)
  else if zlen data <=? 255 then Ok (op_eqb opcode OP_PUSHDATA1)
  else if zlen data <=? 65535 then Ok (op_eqb opcode OP_PUSHDATA2)
  else Ok true.

(** ** FindAndDelete *)

(** [std::equal(b.begin(), b.end(), pc)] with [end - pc >= b.size()]. *)
Definition at_prefix (b pc : list Z) : bool :=
  (zlen b <=? zlen pc) && bool_decide (take (length b) pc = b).

Fixpoint skip_matches (fuel : nat) (b pc : list Z) (nFound : Z) : list Z * Z :=
  match fuel with
  | O => (pc, nFound)
  | S fuel =>
      if at_prefix b pc then skip_matches fuel b (drop (length b) pc) (nFound + 1)
      else (pc, nFound)
  end.

(** The [do ... while] loop: found count, kept bytes and [pc2]. *)
Fixpoint FindAndDelete_loop (fuel : nat) (b result pc2 pc : list Z) (nFound : Z)
    : Z * list Z * list Z :=
  let result := result ++ take (length pc2 - length pc) pc2 in
  let '(pc, nFound) := skip_matches (length pc) b pc nFound in
  match fuel with
  | O => (nFound, result, pc)
  | S fuel =>
      match GetOp pc with
      | Some (pc', _, _) => FindAndDelete_loop fuel b result pc pc' nFound
      | None => (nFound, result, pc)
      end
  end.

Definition FindAndDelete (script b : list Z) : Z * list Z :=
  match b with
  | [] => (0, script)
  | _ =>
      let '(nFound, result, pc2) := FindAndDelete_loop (length script) b [] script script 0 in
      if 0 <? nFound then (nFound, result ++ pc2) else (nFound, script)
  end.

(** ** The evaluation state *)

Record EvalState : Type := {
  es_pc : list Z;
  es_pbegincodehash : list Z;
  es_stack : list valtype;
  es_altstack : list valtype;
  es_vfExec : list bool;
  es_nOpCount : Z
}.

Definition with_stack (st : EvalState) (s : list valtype) : EvalState :=
  {| es_pc := es_pc st; es_pbegincodehash := es_pbegincodehash st; es_stack := s;
     es_altstack := es_altstack st; es_vfExec := es_vfExec st; es_nOpCount := es_nOpCount st |}.
Definition with_altstack (st : EvalState) (a : list valtype) : EvalState :=
  {| es_pc := es_pc st; es_pbegincodehash := es_pbegincodehash st; es_stack := es_stack st;
     es_altstack := a; es_vfExec := es_vfExec st; es_nOpCount := es_nOpCount st |}.
Definition with_vfExec (st : EvalState) (v : list bool) : EvalState :=
  {| es_pc := es_pc st; es_pbegincodehash := es_pbegincodehash st; es_stack := es_stack st;
     es_altstack := es_altstack st; es_vfExec := v; es_nOpCount := es_nOpCount st |}.
Definition with_nOpCount (st : EvalState) (n : Z) : EvalState :=
  {| es_pc := es_pc st; es_pbegincodehash := es_pbegincodehash st; es_stack := es_stack st;
     es_altstack := es_altstack st; es_vfExec := es_vfExec st; es_nOpCount := n |}.
Definition with_pc (st : EvalState) (pc : list Z) : EvalState :=
  {| es_pc := pc; es_pbegincodehash := es_pbegincodehash st; es_stack := es_stack st;
     es_altstack := es_altstack st; es_vfExec := es_vfExec st; es_nOpCount := es_nOpCount st |}.
Definition with_codehash (st : EvalState) (pc : list Z) : EvalState :=
  {| es_pc := es_pc st; es_pbegincodehash := pc; es_stack := es_stack st;
     es_altstack := es_altstack st; es_vfExec := es_vfExec st; es_nOpCount := es_nOpCount st |}.

Abbreviation M := (res ScriptError).

Definition vchFalse : valtype := [].
Definition vchTrue : valtype := [1].
Definition vchBool (b : bool) : valtype := if b then vchTrue else vchFalse.

Definition bad_stack {A} : M A := Err SCRIPT_ERR_INVALID_STACK_OPERATION.

(** [stacktop(-i)]: [vector::at] throws when there is no such element. *)
Definition stacktop (stack : list valtype) (i : Z) : M valtype :=
  match stack !! Z.to_nat (i - 1) with Some v => Ok v | None => Err SCRIPT_ERR_UNKNOWN_ERROR end.

Definition popstack (stack : list valtype) : M (list valtype) :=
  match stack with [] => Err SCRIPT_ERR_UNKNOWN_ERROR | _ :: stack => Ok stack end.

(** ** The cases of the switch *)

Section eval.
Context {crypto : CryptoOps}.
Variable flags : Z.
Variable checker : SignatureChecker.
Variable sigversion : SigVersion.

Definition fRequireMinimal : bool := flag flags SCRIPT_VERIFY_MINIMALDATA.

(** [CScriptNum(v, fRequireMinimal, nMaxNumSize)] inside the try block. *)
Definition script_num (v : valtype) (nMaxNumSize : Z) : M Z :=
  match CScriptNum_of v fRequireMinimal nMaxNumSize with
  | Some n => Ok n
  | None => Err SCRIPT_ERR_UNKNOWN_ERROR
  end.

Definition IsLowDERSignature (vchSig : valtype) : M unit :=
  if negb (IsValidSignatureEncoding vchSig) then Err SCRIPT_ERR_SIG_DER
  else if negb (PubKey_CheckLowS (take (length vchSig - 1) vchSig)) then Err SCRIPT_ERR_SIG_HIGH_S
  else Ok tt.

Definition CheckSignatureEncoding (vchSig : valtype) : M unit :=
  if zlen vchSig =? 0 then Ok tt
  else if flag flags (Z.lor (Z.lor SCRIPT_VERIFY_DERSIG SCRIPT_VERIFY_LOW_S) SCRIPT_VERIFY_STRICTENC) &&
          negb (IsValidSignatureEncoding vchSig)
       then Err SCRIPT_ERR_SIG_DER
  else if flag flags SCRIPT_VERIFY_LOW_S && negb (is_ok (IsLowDERSignature vchSig))
       then IsLowDERSignature vchSig
  else if flag flags SCRIPT_VERIFY_STRICTENC && negb (IsDefinedHashtypeSignature vchSig)
       then Err SCRIPT_ERR_SIG_HASHTYPE
  else Ok tt.

Definition CheckPubKeyEncoding (vchPubKey : valtype) : M unit :=
  if flag flags SCRIPT_VERIFY_STRICTENC && negb (IsCompressedOrUncompressedPubKey vchPubKey)
  then Err SCRIPT_ERR_PUBKEYTYPE else Ok tt.

(** OP_1NEGATE, OP_1 to OP_16. *)
Definition eval_push_number (op : opcodetype) (st : EvalState) : M EvalState :=
  let bn := opcode_val op - (opcode_val OP_1 - 1) in
  Ok (with_stack st (getvch bn :: es_stack st)).

Definition eval_checklocktimeverify (st : EvalState) : M EvalState :=
  if negb (flag flags SCRIPT_VERIFY_CHECKLOCKTIMEVERIFY) then Ok st else
  match es_stack st with
  | [] => bad_stack
  | top :: _ =>
      nLockTime ← script_num top 5;
      if nLockTime <? 0 then Err SCRIPT_ERR_NEGATIVE_LOCKTIME else
      if negb (CheckLockTime checker nLockTime) then Err SCRIPT_ERR_UNSATISFIED_LOCKTIME else
      Ok st
  end.

Definition eval_checksequenceverify (st : EvalState) : M EvalState :=
  if negb (flag flags SCRIPT_VERIFY_CHECKSEQUENCEVERIFY) then Ok st else
  match es_stack st with
  | [] => bad_stack
  | top :: _ =>
      nSequence ← script_num top 5;
      if nSequence <? 0 then Err SCRIPT_ERR_NEGATIVE_LOCKTIME else
      if flag nSequence SEQUENCE_LOCKTIME_DISABLE_FLAG then Ok st else
      if negb (CheckSequence checker nSequence) then Err SCRIPT_ERR_UNSATISFIED_LOCKTIME else
      Ok st
  end.

(** OP_NOP1, OP_NOP4 to OP_NOP10. *)
Definition eval_nop_upgradable (st : EvalState) : M EvalState :=
  if flag flags SCRIPT_VERIFY_DISCOURAGE_UPGRADABLE_NOPS
  then Err SCRIPT_ERR_DISCOURAGE_UPGRADABLE_NOPS else Ok st.

(** OP_IF, OP_NOTIF, OP_ELSE, OP_ENDIF, OP_VERIFY, OP_RETURN. *)
Definition eval_control (op : opcodetype) (fExec : bool) (st : EvalState) : M EvalState :=
  match op with
  | OP_IF | OP_NOTIF =>
      if fExec then
        match es_stack st with
        | [] => Err SCRIPT_ERR_UNBALANCED_CONDITIONAL
        | vch :: stack =>
            let fValue := CastToBool vch in
            let fValue := if op_eqb op OP_NOTIF then negb fValue else fValue in
            Ok (with_vfExec (with_stack st stack) (fValue :: es_vfExec st))
        end
      else Ok (with_vfExec st (false :: es_vfExec st))
  | OP_ELSE =>
      match es_vfExec st with
      | [] => Err SCRIPT_ERR_UNBALANCED_CONDITIONAL
      | b :: v => Ok (with_vfExec st (negb b :: v))
      end
  | OP_ENDIF =>
      match es_vfExec st with
      | [] => Err SCRIPT_ERR_UNBALANCED_CONDITIONAL
      | _ :: v => Ok (with_vfExec st v)
      end
  | OP_VERIFY =>
      match es_stack st with
      | [] => bad_stack
      | vch :: stack =>
          if CastToBool vch then Ok (with_stack st stack) else Err SCRIPT_ERR_VERIFY
      end
  | OP_RETURN => Err SCRIPT_ERR_OP_RETURN
  | _ => Err SCRIPT_ERR_BAD_OPCODE
  end.

(** OP_PICK and OP_ROLL. *)
Definition eval_pick_roll (op : opcodetype) (st : EvalState) : M EvalState :=
  match es_stack st with
  | top :: ((_ :: _) as stack) =>
      bn ← script_num top 4;
      let n := getint bn in
      if (n <? 0) || (zlen stack <=? n) then bad_stack else
      match stack !! Z.to_nat n with
      | None => Err SCRIPT_ERR_UNKNOWN_ERROR
      | Some vch =>
          Ok (with_stack st
                (vch :: if op_eqb op OP_ROLL then delete (Z.to_nat n) stack else stack))
      end
  | _ => bad_stack
  end.

(** OP_TOALTSTACK to OP_TUCK, and OP_SIZE. *)
Definition eval_stack_op (op : opcodetype) (st : EvalState) : M EvalState :=
  match op, es_stack st with
  | OP_TOALTSTACK, x :: s => Ok (with_altstack (with_stack st s) (x :: es_altstack st))
  | OP_FROMALTSTACK, s =>
      match es_altstack st with
      | [] => Err SCRIPT_ERR_INVALID_ALTSTACK_OPERATION
      | x :: a => Ok (with_altstack (with_stack st (x :: s)) a)
      end
  | OP_2DROP, _ :: _ :: s => Ok (with_stack st s)
  | OP_2DUP, x2 :: x1 :: s => Ok (with_stack st (x2 :: x1 :: x2 :: x1 :: s))
  | OP_3DUP, x3 :: x2 :: x1 :: s => Ok (with_stack st (x3 :: x2 :: x1 :: x3 :: x2 :: x1 :: s))
  | OP_2OVER, x4 :: x3 :: x2 :: x1 :: s =>
      Ok (with_stack st (x2 :: x1 :: x4 :: x3 :: x2 :: x1 :: s))
  | OP_2ROT, x6 :: x5 :: x4 :: x3 :: x2 :: x1 :: s =>
      Ok (with_stack st (x2 :: x1 :: x6 :: x5 :: x4 :: x3 :: s))
  | OP_2SWAP, x4 :: x3 :: x2 :: x1 :: s => Ok (with_stack st (x2 :: x1 :: x4 :: x3 :: s))
  | OP_IFDUP, x :: s => Ok (with_stack st (if CastToBool x then x :: x :: s else x :: s))
  | OP_DEPTH, s => Ok (with_stack st (getvch (zlen s) :: s))
  | OP_DROP, _ :: s => Ok (with_stack st s)
  | OP_DUP, x :: s => Ok (with_stack st (x :: x :: s))
  | OP_NIP, x2 :: _ :: s => Ok (with_stack st (x2 :: s))
  | OP_OVER, x2 :: x1 :: s => Ok (with_stack st (x1 :: x2 :: x1 :: s))
  | OP_ROT, x3 :: x2 :: x1 :: s => Ok (with_stack st (x1 :: x3 :: x2 :: s))
  | OP_SWAP, x2 :: x1 :: s => Ok (with_stack st (x1 :: x2 :: s))
  | OP_TUCK, x2 :: x1 :: s => Ok (with_stack st (x2 :: x1 :: x2 :: s))
  | OP_SIZE, x :: s => Ok (with_stack st (getvch (zlen x) :: x :: s))
  | _, _ => bad_stack
  end.

(** OP_EQUAL and OP_EQUALVERIFY. *)
Definition eval_equal (op : opcodetype) (st : EvalState) : M EvalState :=
  match es_stack st with
  | x2 :: x1 :: s =>
      let fEqual := bool_decide (x1 = x2) in
      if op_eqb op OP_EQUALVERIFY then
        if fEqual then Ok (with_stack st s) else Err SCRIPT_ERR_EQUALVERIFY
      else Ok (with_stack st (vchBool fEqual :: s))
  | _ => bad_stack
  end.

(** OP_AND, OP_OR, OP_XOR. *)
Definition eval_bitwise (op : opcodetype) (st : EvalState) : M EvalState :=
  match es_stack st with
  | x2 :: x1 :: s =>
      if negb (zlen x1 =? zlen x2) then Err SCRIPT_ERR_INVALID_OPERAND_SIZE else
      let f := match op with
               | OP_AND => Z.land | OP_OR => Z.lor | OP_XOR => Z.lxor | _ => fun a _ => a
               end in
      Ok (with_stack st (zip_with f x1 x2 :: s))
  | _ => bad_stack
  end.

(** CScriptNum's unary minus and compound assignments, with their assertions. *)
Definition num_opp (n : Z) : M Z := if n =? - 2 ^ 63 then Abort else Ok (- n).
Definition num_add_assign (m rhs : Z) : M Z :=
  if (rhs =? 0) || ((0 <? rhs) && (m <=? 2 ^ 63 - 1 - rhs)) ||
     ((rhs <? 0) && (- 2 ^ 63 - rhs <=? m))
  then Ok (m + rhs) else Abort.
Definition num_sub_assign (m rhs : Z) : M Z :=
  if (rhs =? 0) || ((0 <? rhs) && (- 2 ^ 63 + rhs <=? m)) ||
     ((rhs <? 0) && (m <=? 2 ^ 63 - 1 + rhs))
  then Ok (m - rhs) else Abort.

(** OP_1ADD, OP_1SUB, OP_NEGATE, OP_ABS, OP_NOT, OP_0NOTEQUAL. *)
Definition unary_num (op : opcodetype) (bn : Z) : M Z :=
  match op with
  | OP_1ADD => num_add_assign bn 1
  | OP_1SUB => num_sub_assign bn 1
  | OP_NEGATE => num_opp bn
  | OP_ABS => if bn <? 0 then num_opp bn else Ok bn
  | OP_NOT => Ok (b2z (bn =? 0))
  | OP_0NOTEQUAL => Ok (b2z (negb (bn =? 0)))
  | _ => Abort
  end.

Definition eval_unary_num (op : opcodetype) (st : EvalState) : M EvalState :=
  match es_stack st with
  | x :: s =>
      bn ← script_num x 4;
      bn ← unary_num op bn;
      Ok (with_stack st (getvch bn :: s))
  | _ => bad_stack
  end.

(** OP_ADD to OP_MAX; [/] and [%] of int64_t truncate towards zero. *)
Definition binary_num (op : opcodetype) (bn1 bn2 : Z) : M Z :=
  match op with
  | OP_ADD => Ok (bn1 + bn2)
  | OP_SUB => Ok (bn1 - bn2)
  | OP_DIV => if bn2 =? 0 then Err SCRIPT_ERR_DIV_BY_ZERO else Ok (Z.quot bn1 bn2)
  | OP_MOD => if bn2 =? 0 then Err SCRIPT_ERR_MOD_BY_ZERO else Ok (Z.rem bn1 bn2)
  | OP_BOOLAND => Ok (b2z (negb (bn1 =? 0) && negb (bn2 =? 0)))
  | OP_BOOLOR => Ok (b2z (negb (bn1 =? 0) || negb (bn2 =? 0)))
  | OP_NUMEQUAL | OP_NUMEQUALVERIFY => Ok (b2z (bn1 =? bn2))
  | OP_NUMNOTEQUAL => Ok (b2z (negb (bn1 =? bn2)))
  | OP_LESSTHAN => Ok (b2z (bn1 <? bn2))
  | OP_GREATERTHAN => Ok (b2z (bn2 <? bn1))
  | OP_LESSTHANOREQUAL => Ok (b2z (bn1 <=? bn2))
  | OP_GREATERTHANOREQUAL => Ok (b2z (bn2 <=? bn1))
  | OP_MIN => Ok (if bn1 <? bn2 then bn1 else bn2)
  | OP_MAX => Ok (if bn2 <? bn1 then bn1 else bn2)
  | _ => Abort
  end.

Definition eval_binary_num (op : opcodetype) (st : EvalState) : M EvalState :=
  match es_stack st with
  | x2 :: x1 :: s =>
      bn1 ← script_num x1 4;
      bn2 ← script_num x2 4;
      bn ← binary_num op bn1 bn2;
      if op_eqb op OP_NUMEQUALVERIFY then
        if CastToBool (getvch bn) then Ok (with_stack st s) else Err SCRIPT_ERR_NUMEQUALVERIFY
      else Ok (with_stack st (getvch bn :: s))
  | _ => bad_stack
  end.

Definition eval_within (st : EvalState) : M EvalState :=
  match es_stack st with
  | x3 :: x2 :: x1 :: s =>
      bn1 ← script_num x1 4;
      bn2 ← script_num x2 4;
      bn3 ← script_num x3 4;
      Ok (with_stack st (vchBool ((bn2 <=? bn1) && (bn1 <? bn3)) :: s))
  | _ => bad_stack
  end.

(** OP_RIPEMD160 to OP_HASH256. *)
Definition eval_hash (op : opcodetype) (st : EvalState) : M EvalState :=
  match es_stack st with
  | vch :: s =>
      let vchHash :=
        match op with
        | OP_RIPEMD160 => ripemd160 vch
        | OP_SHA1 => sha1 vch
        | OP_SHA256 => sha256 vch
        | OP_HASH160 => CHash160 vch
        | _ => CHash256 vch
        end in
      Ok (with_stack st (vchHash :: s))
  | _ => bad_stack
  end.

(** FindAndDelete of one signature from the script code, with the CONST_SCRIPTCODE check. *)
Definition drop_signature (scriptCode vchSig : list Z) : M (list Z) :=
  match sigversion with
  | BASE =>
      let '(found, scriptCode) := FindAndDelete scriptCode (push_data [] vchSig) in
      if (0 <? found) && flag flags SCRIPT_VERIFY_CONST_SCRIPTCODE
      then Err SCRIPT_ERR_SIG_FINDANDDELETE else Ok scriptCode
  end.

(** Push the outcome of a check, or consume it for the VERIFY variant. *)
Definition push_or_verify (verify fSuccess : bool) (e : ScriptError) (s : list valtype)
    : M (list valtype) :=
  if verify then if fSuccess then Ok s else Err e else Ok (vchBool fSuccess :: s).

(** OP_CHECKSIG and OP_CHECKSIGVERIFY. *)
Definition eval_checksig (op : opcodetype) (st : EvalState) : M EvalState :=
  match es_stack st with
  | vchPubKey :: vchSig :: s =>
      scriptCode ← drop_signature (es_pbegincodehash st) vchSig;
      _ ← CheckSignatureEncoding vchSig;
      _ ← CheckPubKeyEncoding vchPubKey;
      let fSuccess := CheckSig checker vchSig vchPubKey scriptCode sigversion in
      if negb fSuccess && flag flags SCRIPT_VERIFY_NULLFAIL && negb (zlen vchSig =? 0)
      then Err SCRIPT_ERR_SIG_NULLFAIL else
      s ← push_or_verify (op_eqb op OP_CHECKSIGVERIFY) fSuccess SCRIPT_ERR_CHECKSIGVERIFY s;
      Ok (with_stack st s)
  | _ => bad_stack
  end.

(** OP_CHECKDATASIG and OP_CHECKDATASIGVERIFY. *)
Definition eval_checkdatasig (op : opcodetype) (st : EvalState) : M EvalState :=
  match es_stack st with
  | vchPubKey :: vchMessage :: vchSig :: s =>
      _ ← CheckSignatureEncoding vchSig;
      _ ← CheckPubKeyEncoding vchPubKey;
      let fSuccess :=
        if negb (zlen vchSig =? 0)
        then PubKey_Verify (CPubKey vchPubKey) (sha256 vchMessage) vchSig else false in
      if negb fSuccess && flag flags SCRIPT_VERIFY_NULLFAIL && negb (zlen vchSig =? 0)
      then Err SCRIPT_ERR_SIG_NULLFAIL else
      s ← push_or_verify (op_eqb op OP_CHECKDATASIGVERIFY) fSuccess
            SCRIPT_ERR_CHECKDATASIGVERIFY s;
      Ok (with_stack st s)
  | _ => bad_stack
  end.

(** OP_CHECKMULTISIG: [FindAndDelete] of every signature, [k] from 0 to [nSigsCount - 1]. *)
Fixpoint drop_signatures (n : nat) (stack : list valtype) (isig k : Z) (scriptCode : list Z)
    : M (list Z) :=
  match n with
  | O => Ok scriptCode
  | S n =>
      vchSig ← stacktop stack (isig + k);
      scriptCode ← drop_signature scriptCode vchSig;
      drop_signatures n stack isig (k + 1) scriptCode
  end.

(** The signature checking loop; every round uses up a key, so [nKeysCount + 1] is fuel enough. *)
Fixpoint multisig_loop (fuel : nat) (stack : list valtype) (scriptCode : list Z)
    (isig ikey nSigsCount nKeysCount : Z) : M bool :=
  if nSigsCount <=? 0 then Ok true else
  match fuel with
  | O => Abort
  | S fuel =>
      vchSig ← stacktop stack isig;
      vchPubKey ← stacktop stack ikey;
      _ ← CheckSignatureEncoding vchSig;
      _ ← CheckPubKeyEncoding vchPubKey;
      let fOk := CheckSig checker vchSig vchPubKey scriptCode sigversion in
      let isig := if fOk then isig + 1 else isig in
      let nSigsCount := if fOk then nSigsCount - 1 else nSigsCount in
      let ikey := ikey + 1 in
      let nKeysCount := nKeysCount - 1 in
      if nKeysCount <? nSigsCount then Ok false
      else multisig_loop fuel stack scriptCode isig ikey nSigsCount nKeysCount
  end.

(** The clean-up loop [while (i-- > 1)], [n] rounds of it. *)
Fixpoint multisig_cleanup (n : nat) (fSuccess : bool) (ikey2 : Z) (stack : list valtype)
    : M (list valtype) :=
  match n with
  | O => Ok stack
  | S n =>
      top ← stacktop stack 1;
      if negb fSuccess && flag flags SCRIPT_VERIFY_NULLFAIL && (ikey2 =? 0) &&
         negb (zlen top =? 0)
      then Err SCRIPT_ERR_SIG_NULLFAIL else
      let ikey2 := if 0 <? ikey2 then ikey2 - 1 else ikey2 in
      stack ← popstack stack;
      multisig_cleanup n fSuccess ikey2 stack
  end.

(** OP_CHECKMULTISIG and OP_CHECKMULTISIGVERIFY. *)
Definition eval_checkmultisig (op : opcodetype) (st : EvalState) : M EvalState :=
  let stack := es_stack st in
  if zlen stack <? 1 then bad_stack else
  vKeys ← stacktop stack 1;
  bnKeys ← script_num vKeys 4;
  let nKeysCount := getint bnKeys in
  if (nKeysCount <? 0) || (MAX_PUBKEYS_PER_MULTISIG <? nKeysCount)
  then Err SCRIPT_ERR_PUBKEY_COUNT else
  let nOpCount := es_nOpCount st + nKeysCount in
  if MAX_OPS_PER_SCRIPT <? nOpCount then Err SCRIPT_ERR_OP_COUNT else
  let ikey := 2 in
  let ikey2 := nKeysCount + 2 in
  let i := 2 + nKeysCount in
  if zlen stack <? i then bad_stack else
  vSigs ← stacktop stack i;
  bnSigs ← script_num vSigs 4;
  let nSigsCount := getint bnSigs in
  if (nSigsCount <? 0) || (nKeysCount <? nSigsCount) then Err SCRIPT_ERR_SIG_COUNT else
  let isig := i + 1 in
  let i := i + 1 + nSigsCount in
  if zlen stack <? i then bad_stack else
  scriptCode ← drop_signatures (Z.to_nat nSigsCount) stack isig 0 (es_pbegincodehash st);
  fSuccess ← multisig_loop (Z.to_nat nKeysCount + 1) stack scriptCode isig ikey
               nSigsCount nKeysCount;
  stack ← multisig_cleanup (Z.to_nat (i - 1)) fSuccess ikey2 stack;
  match stack with
  | [] => bad_stack
  | dummy :: stack =>
      if flag flags SCRIPT_VERIFY_NULLDUMMY && negb (zlen dummy =? 0)
      then Err SCRIPT_ERR_SIG_NULLDUMMY else
      stack ← push_or_verify (op_eqb op OP_CHECKMULTISIGVERIFY) fSuccess
                SCRIPT_ERR_CHECKMULTISIGVERIFY stack;
      Ok (with_nOpCount (with_stack st stack) nOpCount)
  end.

Definition eval_cat (st : EvalState) : M EvalState :=
  match es_stack st with
  | x2 :: x1 :: s =>
      if MAX_SCRIPT_ELEMENT_SIZE <? zlen x1 + zlen x2 then Err SCRIPT_ERR_PUSH_SIZE else
      Ok (with_stack st ((x1 ++ x2) :: s))
  | _ => bad_stack
  end.

Definition eval_split (st : EvalState) : M EvalState :=
  match es_stack st with
  | vpos :: vch :: s =>
      bn ← script_num vpos 4;
      let nPosition := getint bn in
      if (nPosition <? 0) || (zlen vch <? nPosition) then Err SCRIPT_ERR_INVALID_SPLIT_RANGE else
      Ok (with_stack st
            (if nPosition =? 0 then vch :: [] :: s
             else if nPosition =? zlen vch then [] :: vch :: s
             else drop (Z.to_nat nPosition) vch :: take (Z.to_nat nPosition) vch :: s))
  | _ => bad_stack
  end.

(** [size] is a uint64_t, so a negative operand becomes a huge one. *)
Definition eval_num2bin (st : EvalState) : M EvalState :=
  match es_stack st with
  | vsize :: rawnum :: s =>
      bn ← script_num vsize 4;
      let size := u64 (getint bn) in
      if MAX_SCRIPT_ELEMENT_SIZE <? size then Err SCRIPT_ERR_PUSH_SIZE else
      let rawnum := snd (MinimallyEncode rawnum) in
      if size <? zlen rawnum then Err SCRIPT_ERR_IMPOSSIBLE_ENCODING else
      if zlen rawnum =? size then Ok (with_stack st (rawnum :: s)) else
      let '(signbit, rawnum) :=
        if 0 <? zlen rawnum
        then (Z.land (back rawnum) 0x80, alter_back (fun b => Z.land b 0x7f) rawnum)
        else (0, rawnum) in
      Ok (with_stack st
            ((rawnum ++ replicate (Z.to_nat (size - 1 - zlen rawnum)) 0 ++ [signbit]) :: s))
  | _ => bad_stack
  end.

Definition eval_bin2num (st : EvalState) : M EvalState :=
  match es_stack st with
  | n :: s =>
      let n := snd (MinimallyEncode n) in
      if negb (IsMinimallyEncoded n nDefaultMaxNumSize) then Err SCRIPT_ERR_INVALID_NUMBER_RANGE
      else Ok (with_stack st (n :: s))
  | _ => bad_stack
  end.

(** The [switch]. *)
Definition eval_opcode (op : opcodetype) (fExec : bool) (st : EvalState) : M EvalState :=
  match op with
  | OP_1NEGATE | OP_1 | OP_2 | OP_3 | OP_4 | OP_5 | OP_6 | OP_7 | OP_8 | OP_9 | OP_10
  | OP_11 | OP_12 | OP_13 | OP_14 | OP_15 | OP_16 => eval_push_number op st
  | OP_NOP => Ok st
  | OP_CHECKLOCKTIMEVERIFY => eval_checklocktimeverify st
  | OP_CHECKSEQUENCEVERIFY => eval_checksequenceverify st
  | OP_NOP1 | OP_NOP4 | OP_NOP5 | OP_NOP6 | OP_NOP7 | OP_NOP8 | OP_NOP9 | OP_NOP10 =>
      eval_nop_upgradable st
  | OP_IF | OP_NOTIF | OP_ELSE | OP_ENDIF | OP_VERIFY | OP_RETURN => eval_control op fExec st
  | OP_PICK | OP_ROLL => eval_pick_roll op st
  | OP_TOALTSTACK | OP_FROMALTSTACK | OP_2DROP | OP_2DUP | OP_3DUP | OP_2OVER | OP_2ROT
  | OP_2SWAP | OP_IFDUP | OP_DEPTH | OP_DROP | OP_DUP | OP_NIP | OP_OVER | OP_ROT | OP_SWAP
  | OP_TUCK | OP_SIZE => eval_stack_op op st
  | OP_EQUAL | OP_EQUALVERIFY => eval_equal op st
  | OP_AND | OP_OR | OP_XOR => eval_bitwise op st
  | OP_1ADD | OP_1SUB | OP_NEGATE | OP_ABS | OP_NOT | OP_0NOTEQUAL => eval_unary_num op st
  | OP_ADD | OP_SUB | OP_DIV | OP_MOD | OP_BOOLAND | OP_BOOLOR | OP_NUMEQUAL
  | OP_NUMEQUALVERIFY | OP_NUMNOTEQUAL | OP_LESSTHAN | OP_GREATERTHAN | OP_LESSTHANOREQUAL
  | OP_GREATERTHANOREQUAL | OP_MIN | OP_MAX => eval_binary_num op st
  | OP_WITHIN => eval_within st
  | OP_RIPEMD160 | OP_SHA1 | OP_SHA256 | OP_HASH160 | OP_HASH256 => eval_hash op st
  | OP_CODESEPARATOR => Ok (with_codehash st (es_pc st))
  | OP_CHECKSIG | OP_CHECKSIGVERIFY => eval_checksig op st
  | OP_CHECKDATASIG | OP_CHECKDATASIGVERIFY => eval_checkdatasig op st
  | OP_CHECKMULTISIG | OP_CHECKMULTISIGVERIFY => eval_checkmultisig op st
  | OP_CAT => eval_cat st
  | OP_SPLIT => eval_split st
  | OP_NUM2BIN => eval_num2bin st
  | OP_BIN2NUM => eval_bin2num st
  | _ => Err SCRIPT_ERR_BAD_OPCODE
  end.

(** Opcodes behind SCRIPT_ENABLE_DIP0020_OPCODES, and the ones that are always disabled. *)
Definition is_dip0020 (op : opcodetype) : bool :=
  match op with
  | OP_CAT | OP_SPLIT | OP_AND | OP_OR | OP_XOR | OP_DIV | OP_MOD | OP_NUM2BIN | OP_BIN2NUM
  | OP_CHECKDATASIG | OP_CHECKDATASIGVERIFY => true
  | _ => false
  end.

Definition is_disabled (op : opcodetype) : bool :=
  match op with
  | OP_INVERT | OP_2MUL | OP_2DIV | OP_MUL | OP_LSHIFT | OP_RSHIFT => true
  | _ => false
  end.

(** [pushes or executes] part of the loop body. *)
Definition eval_exec (op : opcodetype) (vchPushValue : valtype) (st : EvalState) : M EvalState :=
  let fExec := forallb id (es_vfExec st) in
  if fExec && (0 <=? opcode_val op) && op_leb op OP_PUSHDATA4 then
    minimal ← (if fRequireMinimal then CheckMinimalPush vchPushValue op else Ok true);
    if negb minimal then Err SCRIPT_ERR_MINIMALDATA
    else Ok (with_stack st (vchPushValue :: es_stack st))
  else if fExec || (op_leb OP_IF op && op_leb op OP_ENDIF) then eval_opcode op fExec st
  else Ok st.

(** The body of the [while] loop. *)
Definition EvalStep (st : EvalState) : M EvalState :=
  match GetOp (es_pc st) with
  | None => Err SCRIPT_ERR_BAD_OPCODE
  | Some (pc, op, vchPushValue) =>
      let st := with_pc st pc in
      if MAX_SCRIPT_ELEMENT_SIZE <? zlen vchPushValue then Err SCRIPT_ERR_PUSH_SIZE else
      let nOpCount := if op_ltb OP_16 op then es_nOpCount st + 1 else es_nOpCount st in
      if op_ltb OP_16 op && (MAX_OPS_PER_SCRIPT <? nOpCount) then Err SCRIPT_ERR_OP_COUNT else
      let st := with_nOpCount st nOpCount in
      if negb (flag flags SCRIPT_ENABLE_DIP0020_OPCODES) && is_dip0020 op
      then Err SCRIPT_ERR_DISABLED_OPCODE else
      if is_disabled op then Err SCRIPT_ERR_DISABLED_OPCODE else
      if op_eqb op OP_CODESEPARATOR && (match sigversion with BASE => true end) &&
         flag flags SCRIPT_VERIFY_CONST_SCRIPTCODE
      then Err SCRIPT_ERR_OP_CODESEPARATOR else
      st ← eval_exec op vchPushValue st;
      if MAX_STACK_SIZE <? zlen (es_stack st) + zlen (es_altstack st)
      then Err SCRIPT_ERR_STACK_SIZE else Ok st
  end.

(** The [while (pc < pend)] loop; a step consumes at least a byte, so the length of the script is
    fuel enough. *)
Fixpoint EvalLoop (fuel : nat) (st : EvalState) : M EvalState :=
  match es_pc st with
  | [] => Ok st
  | _ =>
      match fuel with
      | O => Abort
      | S fuel => st ← EvalStep st; EvalLoop fuel st
      end
  end.

Definition EvalScript (stack : list valtype) (script : list Z) : M (list valtype) :=
  if MAX_SCRIPT_SIZE <? zlen script then Err SCRIPT_ERR_SCRIPT_SIZE else
  st ← EvalLoop (length script)
         {| es_pc := script; es_pbegincodehash := script; es_stack := stack; es_altstack := [];
            es_vfExec := []; es_nOpCount := 0 |};
  match es_vfExec st with
  | [] => Ok (es_stack st)
  | _ => Err SCRIPT_ERR_UNBALANCED_CONDITIONAL
  end.

End eval.

(** ** VerifyScript *)

Section verify.
Context {crypto : CryptoOps}.
Variable flags : Z.
Variable checker : SignatureChecker.

(** The top of the stack after an evaluation: there must be one, and it must be true. *)
Definition require_true (stack : list valtype) : M unit :=
  match stack with
  | [] => Err SCRIPT_ERR_EVAL_FALSE
  | top :: _ => if negb (CastToBool top) then Err SCRIPT_ERR_EVAL_FALSE else Ok tt
  end.

(** Additional validation for pay-to-script-hash outputs, on the stack that [scriptSig] left. *)
Definition verify_p2sh (scriptSig : list Z) (stackCopy : list valtype) : M (list valtype) :=
  if negb (IsPushOnly scriptSig) then Err SCRIPT_ERR_SIG_PUSHONLY else
  match stackCopy with
  | [] => Abort
  | pubKeySerialized :: stack =>
      stack ← EvalScript flags checker BASE stack pubKeySerialized;
      _ ← require_true stack;
      Ok stack
  end.

Definition VerifyScript (scriptSig scriptPubKey : list Z) : M unit :=
  if flag flags SCRIPT_VERIFY_SIGPUSHONLY && negb (IsPushOnly scriptSig)
  then Err SCRIPT_ERR_SIG_PUSHONLY else
  stack ← EvalScript flags checker BASE [] scriptSig;
  let stackCopy := if flag flags SCRIPT_VERIFY_P2SH then stack else [] in
  stack ← EvalScript flags checker BASE stack scriptPubKey;
  _ ← require_true stack;
  stack ← (if flag flags SCRIPT_VERIFY_P2SH && IsPayToScriptHash scriptPubKey
           then verify_p2sh scriptSig stackCopy else Ok stack);
  if flag flags SCRIPT_VERIFY_CLEANSTACK then
    if negb (flag flags SCRIPT_VERIFY_P2SH) then Abort else
    if negb (zlen stack =? 1) then Err SCRIPT_ERR_CLEANSTACK else Ok tt
  else Ok tt.

End verify.
