(* ===== verification/InterpreterSafety.v ===== *)
(** * Safety of the script interpreter

    The invariant of the evaluation state (element sizes, number of elements, operation count), that
    every case of the switch keeps it, and that no evaluation of any script stops the process: the
    assertions of CScriptNum and of [VerifyScript] cannot fail. *)

From stdpp Require Import base list numbers.
From S2P Require Import Prelude Script Crypto Interpreter.

Open Scope Z_scope.

Definition elem_ok (v : valtype) : Prop := bytes_ok v /\ zlen v <= MAX_SCRIPT_ELEMENT_SIZE.

(** What every case keeps. *)
Record good (st : EvalState) : Prop := {
  good_stack : Forall elem_ok (es_stack st);
  good_altstack : Forall elem_ok (es_altstack st);
  good_pc : bytes_ok (es_pc st);
  good_ops : 0 <= es_nOpCount st <= MAX_OPS_PER_SCRIPT
}.

(** The invariant of the loop: the size limit is checked at the end of the body. *)
Definition wf (st : EvalState) : Prop :=
  good st /\ zlen (es_stack st) + zlen (es_altstack st) <= MAX_STACK_SIZE.

(** A case does not move the iterator. *)
Definition kept (st st' : EvalState) : Prop := good st' /\ es_pc st' = es_pc st.

Lemma good_with_stack st s : good st -> Forall elem_ok s -> good (with_stack st s).
Proof. intros []; constructor; auto. Qed.

Lemma kept_with_stack st s : good st -> Forall elem_ok s -> kept st (with_stack st s).
Proof. intros; split; [by apply good_with_stack|done]. Qed.

Lemma kept_refl st : good st -> kept st st.
Proof. by split. Qed.

Lemma elem_ok_nil : elem_ok [].
Proof. split; [constructor|done]. Qed.

Lemma elem_ok_vchBool b : elem_ok (vchBool b).
Proof. destruct b; [|apply elem_ok_nil]. split; [|done]. repeat constructor; lia. Qed.

Lemma elem_ok_getvch n : - 2 ^ 63 < n < 2 ^ 63 -> elem_ok (getvch n).
Proof.
  intros Hn. split; [by apply CScriptNum_serialize_ok|]. unfold getvch.
  destruct (Z.eq_dec n 0) as [->|Hz]; [done|].
  destruct (serialize_shape n Hz Hn) as (w & b & _ & _ & _ & _ & Hl & ->).
  unfold zlen, MAX_SCRIPT_ELEMENT_SIZE. repeat case_bool; rewrite !length_app; simpl; lia.
Qed.

#[export] Hint Resolve elem_ok_nil elem_ok_vchBool kept_refl good_with_stack : piratecash.

Section safety.
Context {crypto : CryptoOps} {laws : CryptoLaws crypto}.
Variable flags : Z.
Variable checker : SignatureChecker.
Variable sigversion : SigVersion.

Lemma script_num_post v k :
  bytes_ok v -> 1 <= k -> post (fun n => Z.abs n < 128 * 256 ^ (k - 1)) (script_num flags v k).
Proof.
  intros Hv Hk. unfold script_num, CScriptNum_of. repeat case_bool; simpl; [done..|].
  bprop. by apply set_vch_range.
Qed.

Lemma script_num_post4 v :
  elem_ok v -> post (fun n => Z.abs n < 2 ^ 31) (script_num flags v 4).
Proof. intros [Hv _]. by apply (script_num_post v 4). Qed.

(** Splits the matches of a case, leaving the [Ok] branches. *)
Ltac cases := repeat (case_match; simpl; try done; simplify_eq).

Lemma unary_num_post op n :
  (op = OP_1ADD \/ op = OP_1SUB \/ op = OP_NEGATE \/ op = OP_ABS \/ op = OP_NOT \/
   op = OP_0NOTEQUAL) ->
  Z.abs n < 2 ^ 31 -> post (fun m => - 2 ^ 63 < m < 2 ^ 63) (unary_num op n).
Proof.
  intros Hop Hn.
  destruct Hop as [->|[->|[->|[->|[->| ->]]]]]; simpl;
    unfold num_add_assign, num_sub_assign, num_opp, b2z; repeat case_bool; simpl; try lia;
    repeat (match goal with H : _ || _ = true |- _ => apply orb_true_iff in H as [H|H] end);
    bprop; lia.
Qed.

Lemma binary_num_post op n1 n2 :
  Z.abs n1 < 2 ^ 31 -> Z.abs n2 < 2 ^ 31 ->
  binary_num op n1 n2 <> Abort -> post (fun m => - 2 ^ 63 < m < 2 ^ 63) (binary_num op n1 n2).
Proof.
  intros H1 H2 Ha. destruct op; simpl in *; try done; unfold b2z; repeat case_bool; simpl; try lia; bprop.
  - pose proof (Z.quot_abs n1 n2 ltac:(done)).
    assert (Z.abs n1 ÷ Z.abs n2 <= Z.abs n1) by (apply Z.quot_le_upper_bound; nia). lia.
  - pose proof (Z.rem_bound_abs n1 n2 ltac:(done)). lia.
Qed.

(** Takes a case apart: binds, matches, and the elements of the stacks. *)
Ltac post_case :=
  repeat first
    [ done
    | progress simpl
    | progress decompose_Forall_hyps
    | apply kept_with_stack
    | apply kept_refl
    | eapply post_bind; [apply script_num_post4; done | intros ? ?]
    | match goal with |- post _ (match ?x with _ => _ end) => destruct x eqn:? end ].

Ltac elems := repeat case_bool; repeat apply Forall_cons_2; auto with piratecash.

Lemma eval_push_number_post op st :
  good st -> 0 <= opcode_val op < 256 -> post (kept st) (eval_push_number op st).
Proof.
  intros Hg Ho. apply kept_with_stack; [done|]. constructor; [|apply Hg].
  apply elem_ok_getvch. unfold opcode_val at 2 4. lia.
Qed.

Lemma eval_checklocktimeverify_post st :
  good st -> post (kept st) (eval_checklocktimeverify flags checker st).
Proof.
  intros Hg. pose proof (good_stack st Hg). unfold eval_checklocktimeverify.
  destruct (negb _); [by apply kept_refl|]. destruct (es_stack st) as [|x s]; [done|].
  decompose_Forall_hyps. eapply post_bind; [apply script_num_post; [apply H|lia]|].
  intros n _; repeat case_bool; simpl; auto with piratecash.
Qed.

Lemma eval_control_post op fExec st : good st -> post (kept st) (eval_control op fExec st).
Proof.
  intros Hg. destruct st, Hg; simpl in *. destruct op; simpl; try done; post_case;
    split; try done; constructor; done.
Qed.

Lemma eval_checksequenceverify_post st :
  good st -> post (kept st) (eval_checksequenceverify flags checker st).
Proof.
  intros Hg. pose proof (good_stack st Hg). unfold eval_checksequenceverify.
  destruct (negb _); [by apply kept_refl|]. destruct (es_stack st) as [|x s]; [done|].
  decompose_Forall_hyps. eapply post_bind; [apply script_num_post; [apply H|lia]|].
  intros n _; repeat case_bool; simpl; auto with piratecash.
Qed.

Lemma eval_pick_roll_post op st : good st -> post (kept st) (eval_pick_roll flags op st).
Proof.
  intros Hg. pose proof (good_stack st Hg). unfold eval_pick_roll.
  destruct (es_stack st) as [|x [|y s]]; post_case.
  pose proof (Forall_lookup_1 _ (y :: s) _ _ ltac:(by constructor) Heqo).
  constructor; [done|]. case_bool; [apply Forall_delete|]; by constructor.
Qed.

Lemma eval_stack_op_post op st : wf st -> post (kept st) (eval_stack_op op st).
Proof.
  intros [Hg Hlen]. pose proof (good_stack st Hg) as Hs. pose proof (good_altstack st Hg) as Ha.
  pose proof (zlen_nonneg (es_altstack st)). pose proof (zlen_nonneg (es_stack st)).
  unfold MAX_STACK_SIZE in Hlen. unfold eval_stack_op.
  assert (Hd : elem_ok (getvch (zlen (es_stack st)))) by (apply elem_ok_getvch; lia).
  assert (Hsz : forall x, elem_ok x -> elem_ok (getvch (zlen x))).
  { intros x [_ Hx]. unfold MAX_SCRIPT_ELEMENT_SIZE in Hx. pose proof (zlen_nonneg x).
    apply elem_ok_getvch; lia. }
  revert Hd Hs Ha. clear Hlen H H0. generalize (es_stack st) as s, (es_altstack st) as a.
  intros s a Hd Hs Ha. destruct op; try done; post_case; elems;
    by split; [destruct Hg; constructor; simpl; elems|].
Qed.

Lemma eval_equal_post op st : good st -> post (kept st) (eval_equal op st).
Proof.
  intros Hg. pose proof (good_stack st Hg). unfold eval_equal.
  destruct (es_stack st) as [|x [|y s]]; post_case; elems.
Qed.

Lemma zip_with_elem_ok f x y :
  f = Z.land \/ f = Z.lor \/ f = Z.lxor ->
  elem_ok x -> elem_ok y -> elem_ok (zip_with f x y).
Proof.
  intros Hf [Hx Hlx] [Hy Hly]. split.
  - clear Hlx Hly. revert y Hy. induction Hx; intros [|] Hy; simpl; try constructor;
      decompose_Forall_hyps; auto. by apply byte_bitwise.
  - unfold zlen in *. rewrite length_zip_with. lia.
Qed.

Lemma eval_bitwise_post op st :
  op = OP_AND \/ op = OP_OR \/ op = OP_XOR -> good st -> post (kept st) (eval_bitwise op st).
Proof.
  intros Hop Hg. pose proof (good_stack st Hg). unfold eval_bitwise.
  destruct (es_stack st) as [|x [|y s]]; post_case. elems.
  apply zip_with_elem_ok; [|done..]. destruct Hop as [->|[->| ->]]; auto.
Qed.

Lemma eval_unary_num_post op st :
  (op = OP_1ADD \/ op = OP_1SUB \/ op = OP_NEGATE \/ op = OP_ABS \/ op = OP_NOT \/
   op = OP_0NOTEQUAL) -> good st -> post (kept st) (eval_unary_num flags op st).
Proof.
  intros Hop Hg. pose proof (good_stack st Hg). unfold eval_unary_num.
  destruct (es_stack st) as [|x s]; post_case.
  eapply post_bind; [by apply unary_num_post|]. intros m Hm. apply kept_with_stack; [done|].
  elems. by apply elem_ok_getvch.
Qed.

Lemma eval_binary_num_post op st :
  (forall a b, binary_num op a b <> Abort) -> good st ->
  post (kept st) (eval_binary_num flags op st).
Proof.
  intros Hop Hg. pose proof (good_stack st Hg). unfold eval_binary_num.
  destruct (es_stack st) as [|x [|y s]]; post_case.
  eapply post_bind; [by apply binary_num_post|]. intros m Hm. post_case. elems.
  by apply elem_ok_getvch.
Qed.

Lemma eval_within_post st : good st -> post (kept st) (eval_within flags st).
Proof.
  intros Hg. pose proof (good_stack st Hg). unfold eval_within.
  destruct (es_stack st) as [|x [|y [|z s]]]; post_case. elems.
Qed.

Lemma elem_ok_digest v n : bytes_ok v -> length v = n -> (n <= 32)%nat -> elem_ok v.
Proof. intros Hv Hl Hn. split; [done|]. unfold zlen, MAX_SCRIPT_ELEMENT_SIZE. lia. Qed.

Lemma eval_hash_post op st : good st -> post (kept st) (eval_hash op st).
Proof.
  intros Hg. pose proof (good_stack st Hg). unfold eval_hash.
  destruct (es_stack st) as [|x s]; post_case. elems.
  destruct op; simpl; unfold CHash160, CHash256; (eapply elem_ok_digest;
    [first [apply ripemd160_bytes|apply sha1_bytes|apply sha256_bytes]
    |first [apply ripemd160_size|apply sha1_size|apply sha256_size]|lia]).
Qed.

Lemma CheckSignatureEncoding_post v : never_aborts (CheckSignatureEncoding flags v).
Proof. unfold CheckSignatureEncoding, IsLowDERSignature. by repeat case_bool. Qed.

Lemma CheckPubKeyEncoding_post v : never_aborts (CheckPubKeyEncoding flags v).
Proof. unfold CheckPubKeyEncoding. by case_bool. Qed.

Lemma drop_signature_post code v : never_aborts (drop_signature flags sigversion code v).
Proof. unfold drop_signature. destruct sigversion, (FindAndDelete _ _). by case_bool. Qed.

Lemma drop_signatures_post n s isig k code :
  never_aborts (drop_signatures flags sigversion n s isig k code).
Proof.
  revert k code; induction n as [|n IH]; intros k code; simpl; [done|].
  eapply post_bind with (P := fun _ => True); [unfold stacktop; by case_match|]. intros v _.
  eapply post_bind; [apply drop_signature_post|]. auto.
Qed.

Lemma push_or_verify_post v b e s :
  Forall elem_ok s -> post (Forall elem_ok) (push_or_verify v b e s).
Proof. intros Hs. unfold push_or_verify. repeat case_bool; simpl; auto. elems. Qed.

Lemma eval_checksig_post op st :
  good st -> post (kept st) (eval_checksig flags checker sigversion op st).
Proof.
  intros Hg. pose proof (good_stack st Hg). unfold eval_checksig.
  destruct (es_stack st) as [|x [|y s]]; try done. decompose_Forall_hyps.
  eapply post_bind; [apply drop_signature_post|intros code _].
  eapply post_bind; [apply CheckSignatureEncoding_post|intros _ _].
  eapply post_bind; [apply CheckPubKeyEncoding_post|intros _ _]. case_bool; [done|].
  eapply post_bind; [by apply push_or_verify_post|]. intros s' Hs'. by apply kept_with_stack.
Qed.

Lemma eval_checkdatasig_post op st :
  good st -> post (kept st) (eval_checkdatasig flags op st).
Proof.
  intros Hg. pose proof (good_stack st Hg). unfold eval_checkdatasig.
  destruct (es_stack st) as [|x [|y [|z s]]]; try done. decompose_Forall_hyps.
  eapply post_bind; [apply CheckSignatureEncoding_post|intros _ _].
  eapply post_bind; [apply CheckPubKeyEncoding_post|intros _ _]. case_bool; [done|].
  eapply post_bind; [by apply push_or_verify_post|]. intros s' Hs'. by apply kept_with_stack.
Qed.

(** The fuel of the signature loop is enough: every round uses up a key. *)
Lemma multisig_loop_post fuel s code isig ikey nSigs nKeys :
  nSigs <= nKeys -> nKeys < Z.of_nat fuel ->
  never_aborts (multisig_loop flags checker sigversion fuel s code isig ikey nSigs nKeys).
Proof.
  revert isig ikey nSigs nKeys; induction fuel as [|fuel IH]; intros isig ikey nSigs nKeys Hle Hf;
    cbn [multisig_loop]; (case_bool; [done|bprop]); [lia|].
  eapply post_bind with (P := fun _ => True); [unfold stacktop; by case_match|intros sig _].
  eapply post_bind with (P := fun _ => True); [unfold stacktop; by case_match|intros key _].
  eapply post_bind; [apply CheckSignatureEncoding_post|intros _ _].
  eapply post_bind; [apply CheckPubKeyEncoding_post|intros _ _].
  destruct (_ <? _) eqn:Hlt; [done|bprop]. apply IH; lia.
Qed.

Lemma multisig_cleanup_post n b ikey2 s :
  Forall elem_ok s -> post (Forall elem_ok) (multisig_cleanup flags n b ikey2 s).
Proof.
  revert ikey2 s; induction n as [|n IH]; intros ikey2 s Hs; [done|]. cbn [multisig_cleanup].
  destruct s as [|x s]; [done|]. decompose_Forall_hyps. destruct (_ && _); [done|]. by apply IH.
Qed.

Lemma eval_checkmultisig_post op st :
  good st -> post (kept st) (eval_checkmultisig flags checker sigversion op st).
Proof.
  intros Hg. pose proof (good_stack st Hg) as Hs. destruct (good_ops st Hg). unfold eval_checkmultisig.
  assert (Htop : forall i, post elem_ok (stacktop (es_stack st) i)).
  { intros i. unfold stacktop. destruct (_ !! _) eqn:Hl; [|done]. exact (Forall_lookup_1 _ _ _ _ Hs Hl). }
  case_bool; [done|].
  eapply post_bind; [apply Htop|intros vk Hvk].
  eapply post_bind; [by apply script_num_post4|intros bk _].
  do 3 (case_bool; [done|]). bprop.
  eapply post_bind; [apply Htop|intros vs Hvs].
  eapply post_bind; [by apply script_num_post4|intros bs _].
  do 2 (case_bool; [done|]). bprop.
  eapply post_bind; [apply drop_signatures_post|intros code _].
  eapply post_bind; [apply multisig_loop_post; lia|intros ok _].
  eapply post_bind; [by apply multisig_cleanup_post|intros s' Hs'].
  destruct s' as [|d s']; [done|]. decompose_Forall_hyps. case_bool; [done|].
  eapply post_bind; [by apply push_or_verify_post|]. intros s'' Hs''.
  split; [|done]. destruct Hg. constructor; simpl; try done. lia.
Qed.

Lemma elem_ok_take n y : elem_ok y -> elem_ok (take n y).
Proof.
  intros [Hb Hl]. split; [auto with piratecash|]. unfold zlen in *. rewrite length_take. lia.
Qed.

Lemma elem_ok_drop n y : elem_ok y -> elem_ok (drop n y).
Proof.
  intros [Hb Hl]. split; [auto with piratecash|]. unfold zlen in *. rewrite length_drop. lia.
Qed.

Lemma eval_cat_post st : good st -> post (kept st) (eval_cat st).
Proof.
  intros Hg. pose proof (good_stack st Hg). unfold eval_cat.
  destruct (es_stack st) as [|x [|y s]]; post_case. bprop. elems.
  destruct H, H0. split; [by apply Forall_app|]. rewrite zlen_app. lia.
Qed.

Lemma eval_split_post st : good st -> post (kept st) (eval_split flags st).
Proof.
  intros Hg. pose proof (good_stack st Hg). unfold eval_split.
  destruct (es_stack st) as [|x [|y s]]; post_case.
  elems; by (apply elem_ok_take || apply elem_ok_drop).
Qed.

(** The sign byte of OP_NUM2BIN and the element it is split from. *)
Lemma num2bin_split_ok r :
  bytes_ok r ->
  let p := if 0 <? zlen r then (Z.land (back r) 0x80, alter_back (fun b => Z.land b 0x7f) r)
           else (0, r) in
  is_byte (fst p) /\ bytes_ok (snd p) /\ zlen (snd p) = zlen r.
Proof.
  intros Hr. destruct (vector_snoc_inv r Hr) as [->|(w & b & -> & Hw & Hb)]; simpl.
  { split; [unfold is_byte; lia|done]. }
  rewrite (proj2 (Z.ltb_lt 0 (zlen (w ++ [b])))) by (rewrite zlen_snoc; pose proof (zlen_nonneg w); lia).
  simpl. rewrite back_snoc, alter_back_snoc, !zlen_snoc.
  assert (forall m, is_byte m -> is_byte (Z.land b m)) by (intros; apply byte_bitwise; auto).
  unfold is_byte in *. split; [|split; [apply bytes_ok_snoc; [done|]|done]]; by apply H.
Qed.

Lemma eval_num2bin_post st : good st -> post (kept st) (eval_num2bin flags st).
Proof.
  intros Hg. pose proof (good_stack st Hg) as Hs. unfold eval_num2bin.
  destruct (es_stack st) as [|x [|y s]]; try done.
  apply Forall_cons in Hs as [Hx Hs]. apply Forall_cons in Hs as [[Hy Hyl] Hs].
  destruct (MinimallyEncode_correct y Hy) as (Hb & _ & _ & Hl).
  set (r := snd (MinimallyEncode y)) in *.
  eapply post_bind; [by apply script_num_post4|intros n _].
  case_bool; [done|]. case_bool; [done|]. bprop.
  case_bool; [by apply kept_with_stack; elems; split; [|lia]|bprop].
  pose proof (num2bin_split_ok r Hb) as Hp. simpl in Hp. destruct (if 0 <? zlen r then _ else _) as [sb r'].
  simpl in Hp. destruct Hp as (Hsb & Hr' & Hlr). apply kept_with_stack; [done|]. elems. split.
  - apply Forall_app. split; [done|]. apply bytes_ok_snoc; [|done].
    apply Forall_replicate. unfold is_byte; lia.
  - rewrite !zlen_app. unfold zlen in *. rewrite length_replicate. simpl. lia.
Qed.

Lemma eval_bin2num_post st : good st -> post (kept st) (eval_bin2num st).
Proof.
  intros Hg. pose proof (good_stack st Hg) as Hs. unfold eval_bin2num.
  destruct (es_stack st) as [|y s]; [done|]. apply Forall_cons in Hs as [[Hy Hyl] Hs].
  destruct (MinimallyEncode_correct y Hy) as (Hb & _ & _ & Hl).
  case_bool; [done|]. apply kept_with_stack; [done|]. elems. split; [done|lia].
Qed.

Lemma eval_opcode_post op fExec st :
  0 <= opcode_val op < 256 -> wf st ->
  post (kept st) (eval_opcode flags checker sigversion op fExec st).
Proof.
  intros Hop Hwf. pose proof (proj1 Hwf) as Hg.
  destruct op; cbn [eval_opcode]; try done;
    first [ by apply kept_refl | by apply eval_push_number_post | by apply eval_checklocktimeverify_post
          | by apply eval_checksequenceverify_post | by apply eval_control_post
          | by apply eval_pick_roll_post | by apply eval_stack_op_post | by apply eval_equal_post
          | apply eval_bitwise_post; by auto | apply eval_unary_num_post; [by auto 8|done]
          | apply eval_binary_num_post; [intros ??; simpl; repeat case_bool; done|done]
          | by apply eval_within_post | by apply eval_hash_post | by apply eval_checksig_post
          | by apply eval_checkdatasig_post | by apply eval_checkmultisig_post
          | by apply eval_cat_post | by apply eval_split_post | by apply eval_num2bin_post
          | by apply eval_bin2num_post
          | by (unfold eval_nop_upgradable; case_bool; [done|apply kept_refl])
          | idtac ].
  by split; [destruct Hg; constructor|].
Qed.

Lemma eval_exec_post op v st :
  0 <= opcode_val op < 256 -> elem_ok v -> wf st ->
  post (kept st) (eval_exec flags checker sigversion op v st).
Proof.
  intros Hop Hv Hwf. pose proof (proj1 Hwf) as Hg. unfold eval_exec.
  destruct (forallb id (es_vfExec st) && _ && _) eqn:Hc.
  - eapply post_bind with (P := fun _ => True).
    + case_bool; [|done]. unfold CheckMinimalPush.
      apply andb_true_iff in Hc as [[_ Hc1]%andb_true_iff Hc2]. rewrite Hc1, Hc2.
      simpl. by repeat case_bool.
    + intros b _. case_bool; [done|]. apply kept_with_stack; [done|]. elems. apply Hg.
  - case_bool; [by apply eval_opcode_post|by apply kept_refl].
Qed.

(** A step keeps the invariant and consumes a part of the script. *)
Lemma EvalStep_post st :
  wf st ->
  post (fun st' => wf st' /\ (length (es_pc st') < length (es_pc st))%nat)
       (EvalStep flags checker sigversion st).
Proof.
  intros Hwf. pose proof (proj1 Hwf) as Hg. unfold EvalStep.
  destruct (GetOp (es_pc st)) as [[[pc op] v]|] eqn:Hop; [|done].
  destruct (GetOp_bytes_ok _ _ _ _ Hop (good_pc st Hg)) as [Hpc Hv].
  pose proof (GetOp_length _ _ _ _ Hop) as Hlen.
  assert (Hr : 0 <= opcode_val op < 256).
  { apply GetOp_inv in Hop as (b & pre & Heq & -> & _). rewrite opcode_val_of.
    pose proof (good_pc st Hg) as Hb. rewrite Heq in Hb. apply Forall_cons in Hb as [Hb _]. exact Hb. }
  case_bool; [done|]. simpl. destruct (op_ltb OP_16 op && _) eqn:Hcount; [done|].
  do 3 (case_bool; [done|]). bprop.
  eapply post_bind; [apply eval_exec_post; [done|done|]|].
  - destruct Hwf as [_ Hsz]. split; [|done]. destruct Hg. constructor; simpl; try done.
    destruct (op_ltb OP_16 op); simpl in Hcount; bprop; lia.
  - intros st' [Hg' Hpc']. case_bool; [done|]. bprop. simpl. split; [by split|].
    by rewrite Hpc'.
Qed.

(** The fuel is enough. *)
Lemma EvalLoop_post fuel st :
  wf st -> (length (es_pc st) <= fuel)%nat ->
  post (fun st' => wf st' /\ es_pc st' = []) (EvalLoop flags checker sigversion fuel st).
Proof.
  revert st; induction fuel as [|fuel IH]; intros st Hwf Hl; cbn [EvalLoop];
    destruct (es_pc st) as [|b pc] eqn:Hpc; simpl; auto; [simpl in Hl; lia|].
  eapply post_bind; [by apply EvalStep_post|]. intros st' [Hwf' Hl'].
  apply IH; [done|]. rewrite Hpc in Hl'. simpl in *. lia.
Qed.

Definition stack_ok (stack : list valtype) : Prop :=
  Forall elem_ok stack /\ zlen stack <= MAX_STACK_SIZE.

Lemma EvalScript_post stack script :
  stack_ok stack -> bytes_ok script ->
  post stack_ok (EvalScript flags checker sigversion stack script).
Proof.
  intros [Hs Hl] Hb. unfold EvalScript. case_bool; [done|].
  eapply post_bind; [apply EvalLoop_post; [|done]|].
  - split; [constructor; simpl; try done; unfold MAX_OPS_PER_SCRIPT; lia|]. simpl.
    unfold zlen in *. simpl. lia.
  - intros st [[Hg Hsz] _]. destruct (es_vfExec st); [|done]. split; [apply Hg|].
    pose proof (zlen_nonneg (es_altstack st)). lia.
Qed.

End safety.

(** ** Main properties *)

(** The states an evaluation goes through: the initial one, and those the loop body leads to. *)
Inductive Reachable {crypto : CryptoOps} (flags : Z) (checker : SignatureChecker)
    (sigversion : SigVersion) (stack : list valtype) (script : list Z) : EvalState -> Prop :=
| Reachable_init :
    Reachable flags checker sigversion stack script
      {| es_pc := script; es_pbegincodehash := script; es_stack := stack; es_altstack := [];
         es_vfExec := []; es_nOpCount := 0 |}
| Reachable_step st st' :
    Reachable flags checker sigversion stack script st ->
    EvalStep flags checker sigversion st = Ok st' ->
    Reachable flags checker sigversion stack script st'.

(** C2: in every state [EvalScript] goes through, the stacks hold at most 1000 elements in total, each
    element is a byte vector of at most 520 bytes, and at most 201 operations have been counted. *)
Theorem EvalScript_invariant {crypto : CryptoOps} {laws : CryptoLaws crypto}
    flags checker sigversion stack script st :
  stack_ok stack -> bytes_ok script ->
  Reachable flags checker sigversion stack script st ->
  Forall elem_ok (es_stack st) /\ Forall elem_ok (es_altstack st) /\
  zlen (es_stack st) + zlen (es_altstack st) <= MAX_STACK_SIZE /\
  0 <= es_nOpCount st <= MAX_OPS_PER_SCRIPT.
Proof.
  intros [Hs Hl] Hb Hr. enough (wf st) as [[] ?] by done.
  induction Hr as [|st st' _ IH Hstep].
  - split; [constructor; simpl; try done; unfold MAX_OPS_PER_SCRIPT; lia|].
    simpl. change (zlen []) with 0. lia.
  - pose proof (EvalStep_post flags checker sigversion st IH) as Hp. rewrite Hstep in Hp. apply Hp.
Qed.

Lemma EvalScript_invariant_witness :
  exists st, Reachable (crypto := sum_crypto) 0 BaseSignatureChecker BASE [] [0x51; 0x76] st /\
    es_stack st = [[1]; [1]] /\ zlen (es_stack st) + zlen (es_altstack st) <= MAX_STACK_SIZE.
Proof.
  exists {| es_pc := []; es_pbegincodehash := [0x51; 0x76]; es_stack := [[1]; [1]]; es_altstack := [];
            es_vfExec := []; es_nOpCount := 1 |}.
  match goal with |- ?R /\ _ => assert (Hr : R) end.
  { eapply Reachable_step; [eapply Reachable_step; [apply Reachable_init|]|]; reflexivity. }
  split; [exact Hr|]. split; [reflexivity|].
  eapply (EvalScript_invariant (laws := sum_crypto_laws) 0 BaseSignatureChecker BASE [] [0x51; 0x76]);
    [split; [constructor|vm_compute; discriminate]|repeat constructor; lia|exact Hr].
Defined.

(** C3: evaluating any script on any stack within the limits terminates within the fuel, with a stack
    within the limits or with an error; no assertion of the interpreter or of CScriptNum fails. *)
Theorem EvalScript_total {crypto : CryptoOps} {laws : CryptoLaws crypto}
    flags checker sigversion stack script :
  stack_ok stack -> bytes_ok script ->
  match EvalScript flags checker sigversion stack script with
  | Ok stack' => stack_ok stack'
  | Err _ => True
  | Abort => False
  end.
Proof. apply EvalScript_post. Qed.

Lemma EvalScript_total_witness :
  EvalScript (crypto := sum_crypto) 0 BaseSignatureChecker BASE [] [0x52; 0x53; 0x93] = Ok [[5]] /\
  match EvalScript (crypto := sum_crypto) 0 BaseSignatureChecker BASE [] [0x52; 0x53; 0x93] with
  | Ok stack' => stack_ok stack'
  | Err _ => True
  | Abort => False
  end.
Proof.
  split; [reflexivity|].
  apply (EvalScript_total (laws := sum_crypto_laws) 0 BaseSignatureChecker BASE [] [0x52; 0x53; 0x93]);
    [split; [constructor|vm_compute; discriminate]|repeat constructor; lia].
Defined.
