(* ===== verification/InterpreterSpec.v ===== *)
(** * What the interpreter computes

    Functional behaviour of [EvalScript] and [VerifyScript]: truth values as numbers, unspendable
    scripts, pushed integers, the pay-to-script-hash and pay-to-public-key-hash templates, signature
    removal, and the matching that OP_CHECKMULTISIG decides. *)

From stdpp Require Import base list numbers.
From S2P Require Import Prelude Script Crypto Interpreter InterpreterSafety.

Open Scope Z_scope.

(** ** Truth values *)

Lemma CastToBool_nonzero v :
  bytes_ok v -> CastToBool v = negb (set_vch v =? 0).
Proof.
  intros Hv. destruct (vector_snoc_inv v Hv) as [->|(w & b & -> & Hw & Hb)]; [done|].
  rewrite set_vch_snoc by done. clear Hv.
  assert (Hm : CastToBool (w ++ [b]) = negb (magnitude w b =? 0)).
  { induction Hw as [|a w Ha Hw IH].
    - replace (magnitude [] b) with (Z.land b 0x7f) by (unfold magnitude; change (256 ^ zlen []) with 1; cbn [le_val]; lia).
      rewrite land_0x7f by done. unfold is_byte in Hb. simpl.
      destruct (b <? 128) eqn:E; bprop.
      + destruct (Z.eqb_spec b 0); simpl; [done|]. by rewrite (proj2 (Z.eqb_neq b 128)) by lia.
      + rewrite (proj2 (Z.eqb_neq b 0)) by lia. simpl.
        destruct (Z.eqb_spec b 128); [by subst|]. rewrite (proj2 (Z.eqb_neq _ 0)); [done|lia].
    - simpl. rewrite IH. pose proof (magnitude_bound w b Hw Hb).
      replace (magnitude (a :: w) b) with (a + 256 * magnitude w b); cycle 1.
      { unfold magnitude, zlen. simpl length. simpl le_val.
        rewrite Nat2Z.inj_succ, Z.pow_succ_r by lia. ring. }
      unfold is_byte in Ha. destruct (Z.eqb_spec a 0) as [->|]; simpl.
      + f_equal. apply eq_bool_prop_intro. rewrite !Is_true_true, !Z.eqb_eq. lia.
      + rewrite (proj2 (Z.eqb_neq (a + _) 0)) by lia. destruct w; done. }
  rewrite Hm. f_equal. apply eq_bool_prop_intro. rewrite !Is_true_true, !Z.eqb_eq. case_bool; lia.
Qed.

(** ** FindAndDelete *)

(** [b] is at no opcode boundary of [pc]. *)
Inductive Absent (b : list Z) : list Z -> Prop :=
| Absent_end pc : at_prefix b pc = false -> GetOp pc = None -> Absent b pc
| Absent_next pc pc' op v :
    at_prefix b pc = false -> GetOp pc = Some (pc', op, v) -> Absent b pc' -> Absent b pc.

Lemma skip_matches_none fuel b pc n : at_prefix b pc = false -> skip_matches fuel b pc n = (pc, n).
Proof. destruct fuel; [done|]. simpl. by intros ->. Qed.

Lemma FindAndDelete_loop_absent b pc :
  Absent b pc -> forall fuel result pc2 n,
  fst (fst (FindAndDelete_loop fuel b result pc2 pc n)) = n.
Proof.
  induction 1 as [pc Hat Hop|pc pc' op v Hat Hop _ IH]; intros fuel result pc2 n;
    destruct fuel; simpl; rewrite ?skip_matches_none, ?Hop by done; auto.
Qed.

Lemma FindAndDelete_absent b script : Absent b script -> FindAndDelete script b = (0, script).
Proof.
  intros H. unfold FindAndDelete. destruct b; [done|].
  pose proof (FindAndDelete_loop_absent _ _ H (length script) [] script 0) as Hn.
  destruct (FindAndDelete_loop _ _ _ _ _ _) as [[n r] pc2]. simpl in Hn. by subst n.
Qed.

(** Every occurrence found is removed from the script, and nothing else. *)
Lemma skip_matches_length fuel b pc n pc' n' :
  skip_matches fuel b pc n = (pc', n') -> n <= n' /\ zlen pc = zlen pc' + (n' - n) * zlen b.
Proof.
  revert pc n; induction fuel as [|fuel IH]; intros pc n H; simpl in H; [simplify_eq; lia|].
  destruct (at_prefix b pc) eqn:Hat; [|simplify_eq; lia].
  apply IH in H as [Hle H]. apply andb_true_iff in Hat as [Hl _]. bprop.
  unfold zlen in *. rewrite length_drop in H. nia.
Qed.

Lemma FindAndDelete_loop_length fuel b result pc2 pc n n' r pc' :
  (exists pre, pc2 = pre ++ pc) ->
  FindAndDelete_loop fuel b result pc2 pc n = (n', r, pc') ->
  n <= n' /\ zlen r + zlen pc' + (n' - n) * zlen b = zlen result + zlen pc2.
Proof.
  revert result pc2 pc n; induction fuel as [|fuel IH]; intros result pc2 pc n [pre ->] H;
    cbn [FindAndDelete_loop] in H; rewrite length_app, Nat.add_sub, take_app_length in H;
    destruct (skip_matches _ _ _ _) as [pc1 n1] eqn:Hs; apply skip_matches_length in Hs as [Hle Hs].
  - simplify_eq. rewrite !zlen_app in *. lia.
  - destruct (GetOp pc1) as [[[pc3 op] v]|] eqn:Hop; [|simplify_eq; rewrite !zlen_app; lia].
    apply GetOp_inv in Hop as (c & q & -> & _).
    apply IH in H as [Hle' H]; [|exists (c :: q ++ v); by rewrite app_comm_cons, app_assoc].
    rewrite !zlen_app in *. nia.
Qed.

Lemma FindAndDelete_length script b n r :
  FindAndDelete script b = (n, r) -> 0 <= n /\ zlen r + n * zlen b = zlen script.
Proof.
  unfold FindAndDelete. destruct b as [|c b]; [intros; simplify_eq; lia|].
  destruct (FindAndDelete_loop _ _ _ _ _ _) as [[n' r'] pc2] eqn:Hl.
  apply FindAndDelete_loop_length in Hl as [Hle Hl]; [|by exists []].
  rewrite Z.sub_0_r in Hl. change (zlen []) with 0 in Hl.
  case_bool; intros; simplify_eq; rewrite ?zlen_app; bprop; [lia|].
  assert (n = 0) as -> by lia. lia.
Qed.

(** ** Single steps *)

Section eval.
Context {crypto : CryptoOps}.
Variable flags : Z.
Variable checker : SignatureChecker.
Variable sigversion : SigVersion.

Abbreviation Step := (EvalStep flags checker sigversion).
Abbreviation Loop := (EvalLoop flags checker sigversion).
Abbreviation Eval := (EvalScript flags checker sigversion).

Lemma EvalLoop_step fuel st :
  es_pc st <> [] -> Loop (S fuel) st = (Step st ≫= Loop fuel).
Proof. intros H. cbn [EvalLoop]. by destruct (es_pc st). Qed.

Lemma EvalLoop_nil fuel st : es_pc st = [] -> Loop fuel st = Ok st.
Proof. intros H. by destruct fuel; cbn [EvalLoop]; rewrite H. Qed.

(** The size check at the end of the body. *)
Definition check_size (st : EvalState) : M EvalState :=
  if MAX_STACK_SIZE <? zlen (es_stack st) + zlen (es_altstack st)
  then Err SCRIPT_ERR_STACK_SIZE else Ok st.
#[local] Arguments check_size : simpl never.

(** An opcode that is neither a push, nor disabled, nor OP_CODESEPARATOR, within the limits. *)
Lemma EvalStep_opcode st b pc op :
  es_pc st = b :: pc -> 0x4e < b -> opcode_of b = op ->
  es_nOpCount st < MAX_OPS_PER_SCRIPT ->
  is_dip0020 op = false -> is_disabled op = false -> op_eqb op OP_CODESEPARATOR = false ->
  Step st =
  (eval_exec flags checker sigversion op []
     (with_nOpCount (with_pc st pc) (if op_ltb OP_16 op then es_nOpCount st + 1 else es_nOpCount st))
   ≫= check_size).
Proof.
  intros Hpc Hb Hop Hn Hd Hdis Hcs. unfold EvalStep. rewrite Hpc.
  assert (GetOp (b :: pc) = Some (pc, op, [])) as ->.
  { unfold GetOp, GetScriptOp. change (opcode_val OP_PUSHDATA4) with 0x4e.
    rewrite (proj2 (Z.leb_gt _ _) Hb). by rewrite Hop. }
  rewrite Hd, Hdis, Hcs, andb_false_r. simpl. case_bool; [|done]. exfalso.
  destruct (op_ltb _ _); simpl in *; [bprop; lia|done].
Qed.

(** A push of at most 520 bytes in an executed branch. *)
Lemma EvalStep_push st pc op v :
  GetOp (es_pc st) = Some (pc, op, v) -> 0 <= opcode_val op <= opcode_val OP_PUSHDATA4 ->
  zlen v <= MAX_SCRIPT_ELEMENT_SIZE -> forallb id (es_vfExec st) = true ->
  (fRequireMinimal flags = true -> CheckMinimalPush v op = Ok true) ->
  Step st = check_size (with_stack (with_pc st pc) (v :: es_stack st)).
Proof.
  intros Hop [H0 Hpush] Hv Hex Hmin. unfold EvalStep. rewrite Hop. simpl.
  rewrite (proj2 (Z.ltb_ge _ _) Hv).
  assert (op_ltb OP_16 op = false) as -> by (unfold op_ltb; simpl in *; lia).
  assert (is_dip0020 op = false) as -> by (destruct op; simpl in *; done || lia).
  assert (is_disabled op = false) as -> by (destruct op; simpl in *; done || lia).
  assert (op_eqb op OP_CODESEPARATOR = false) as -> by (unfold op_eqb; simpl in *; lia).
  rewrite andb_false_r. simpl. unfold eval_exec. simpl. rewrite Hex.
  rewrite (proj2 (Z.leb_le _ _) H0). assert (op_leb op OP_PUSHDATA4 = true) as -> by (unfold op_leb; lia).
  simpl. destruct (fRequireMinimal flags); [rewrite Hmin by done|]; done.
Qed.

Lemma EvalScript_large stack script :
  MAX_SCRIPT_SIZE < zlen script -> Eval stack script = Err SCRIPT_ERR_SCRIPT_SIZE.
Proof. intros H. unfold EvalScript. by rewrite (proj2 (Z.ltb_lt _ _) H). Qed.

Lemma EvalScript_op_return stack script :
  vget script 0 = opcode_val OP_RETURN -> Eval stack script = Err SCRIPT_ERR_OP_RETURN \/
  Eval stack script = Err SCRIPT_ERR_SCRIPT_SIZE.
Proof.
  intros H. destruct script as [|b pc]; [done|]. change (b = opcode_val OP_RETURN) in H. subst b.
  unfold EvalScript. case_bool; [by right|left].
  simpl length. rewrite EvalLoop_step by done.
  by erewrite EvalStep_opcode by done.
Qed.

Lemma unspendable_fails stack script :
  IsUnspendable script = true -> exists e, Eval stack script = Err e.
Proof.
  unfold IsUnspendable. intros [H|H]%orb_true_iff.
  - bprop. destruct (EvalScript_op_return stack script); eauto.
  - bprop. rewrite EvalScript_large; eauto.
Qed.

(** ** Pay to script hash *)

Lemma IsPayToScriptHash_shape script :
  IsPayToScriptHash script = true <->
  exists h, length h = 20%nat /\ script = 0xa9 :: 0x14 :: h ++ [0x87].
Proof.
  unfold IsPayToScriptHash, zlen, vget. split.
  - intros H. bprop. simpl in *. destruct script as [|a [|b l]]; simpl in *; try lia.
    destruct (last l) as [c|] eqn:Hl; [|apply last_None in Hl; subst; simpl in *; lia].
    apply last_Some in Hl as [h ->]. rewrite length_app in H. simpl in H.
    assert (length h = 20%nat) as Hh by lia. exists h. split; [done|].
    rewrite lookup_app_r in H0 by lia. rewrite Hh in H0. simpl in H0. by subst.
  - intros (h & Hh & ->). simpl. rewrite length_app, Hh, lookup_app_r, Hh by lia. done.
Qed.

(** A direct push of [v] (2 to 75 bytes) in front of [pc]. *)
Lemma EvalStep_direct_push st v pc :
  es_pc st = zlen v :: v ++ pc -> 2 <= zlen v <= 75 -> es_vfExec st = [] ->
  Step st = check_size (with_stack (with_pc st pc) (v :: es_stack st)).
Proof.
  intros Hpc Hv Hex.
  apply EvalStep_push with (op := opcode_of (zlen v)).
  - rewrite Hpc. apply GetOp_push; [simpl; lia|]. unfold read_push_size. simpl.
    by rewrite (proj2 (Z.ltb_lt _ _)) by lia.
  - rewrite opcode_val_of. simpl. lia.
  - unfold MAX_SCRIPT_ELEMENT_SIZE. lia.
  - by rewrite Hex.
  - intros _. unfold CheckMinimalPush, op_leb. rewrite opcode_val_of.
    repeat case_bool; bprop; simpl in *; try lia; try done. f_equal. by apply Z.eqb_refl.
Qed.

Lemma check_size_ok st :
  zlen (es_stack st) + zlen (es_altstack st) <= MAX_STACK_SIZE -> check_size st = Ok st.
Proof. intros H. unfold check_size. by rewrite (proj2 (Z.ltb_ge _ _) H). Qed.

(** The states of a script without conditionals: iterator, script code, stack, operation count. *)
Definition St (pc code : list Z) (s : list valtype) (n : Z) : EvalState :=
  {| es_pc := pc; es_pbegincodehash := code; es_stack := s; es_altstack := []; es_vfExec := [];
     es_nOpCount := n |}.

Definition plain_opcode (b : Z) (op : opcodetype) : Prop :=
  0x60 < b /\ opcode_of b = op /\ is_dip0020 op = false /\ is_disabled op = false /\
  op_eqb op OP_CODESEPARATOR = false.

Lemma Loop_opcode fuel b pc code s n op :
  plain_opcode b op -> n < MAX_OPS_PER_SCRIPT ->
  Loop (S fuel) (St (b :: pc) code s n) =
  ((eval_opcode flags checker sigversion op true (St pc code s (n + 1)) ≫= check_size)
   ≫= Loop fuel).
Proof.
  intros (Hb & Hop & Hd & Hdis & Hcs) Hn.
  rewrite EvalLoop_step, (EvalStep_opcode _ b pc op) by (done || lia). f_equal.
  assert (op_ltb OP_16 op = true) as ->.
  { subst op. unfold op_ltb. rewrite opcode_val_of. by apply Z.ltb_lt. }
  unfold eval_exec. simpl forallb. cbn [es_vfExec St with_nOpCount with_pc forallb].
  assert (op_leb op OP_PUSHDATA4 = false) as ->; [|by rewrite andb_false_r].
  subst op. unfold op_leb. rewrite opcode_val_of. simpl. lia.
Qed.

Lemma Loop_opcode_ok fuel b pc code s n op s' :
  plain_opcode b op -> n < MAX_OPS_PER_SCRIPT ->
  eval_opcode flags checker sigversion op true (St pc code s (n + 1)) = Ok (St pc code s' (n + 1)) ->
  zlen s' <= MAX_STACK_SIZE ->
  Loop (S fuel) (St (b :: pc) code s n) = Loop fuel (St pc code s' (n + 1)).
Proof.
  intros Hb Hn He Hs. erewrite Loop_opcode, He by done. simpl.
  by rewrite check_size_ok by (simpl; change (zlen []) with 0; lia).
Qed.

Lemma Loop_push fuel v pc code s n :
  2 <= zlen v <= 75 -> zlen s < MAX_STACK_SIZE ->
  Loop (S fuel) (St (zlen v :: v ++ pc) code s n) = Loop fuel (St pc code (v :: s) n).
Proof.
  intros Hv Hs. rewrite EvalLoop_step by done. erewrite EvalStep_direct_push by done.
  by rewrite check_size_ok by (simpl; change (zlen []) with 0; unfold zlen in *; simpl; lia).
Qed.

Lemma EvalScript_p2sh x s h :
  length h = 20%nat -> zlen s < MAX_STACK_SIZE - 1 ->
  Eval (x :: s) (0xa9 :: 0x14 :: h ++ [0x87]) =
  Ok (vchBool (bool_decide (CHash160 x = h)) :: s).
Proof.
  intros Hh Hs. unfold MAX_STACK_SIZE, zlen in Hs.
  unfold EvalScript, MAX_SCRIPT_SIZE, zlen. simpl length. rewrite length_app, Hh. simpl Z.of_nat.
  cbn [Z.ltb Z.compare Pos.compare Pos.compare_cont]. simpl plus.
  rewrite EvalLoop_step by done. erewrite EvalStep_opcode by done.
  unfold eval_exec. simpl. rewrite check_size_ok by (unfold MAX_STACK_SIZE, zlen; simpl; lia).
  simpl. rewrite (EvalStep_direct_push _ h [0x87]); [|simpl; unfold zlen; by rewrite Hh|unfold zlen; lia|done].
  rewrite check_size_ok by (unfold MAX_STACK_SIZE, zlen; simpl; lia). simpl.
  erewrite EvalStep_opcode by done. unfold eval_exec. simpl.
  rewrite check_size_ok by (unfold MAX_STACK_SIZE, zlen; simpl; lia). done.
Qed.

(** On an empty or a full stack the template fails. *)
Lemma EvalScript_p2sh_empty h :
  length h = 20%nat -> Eval [] (0xa9 :: 0x14 :: h ++ [0x87]) = Err SCRIPT_ERR_INVALID_STACK_OPERATION.
Proof.
  intros Hh. unfold EvalScript, MAX_SCRIPT_SIZE, zlen. simpl length. rewrite length_app, Hh.
  simpl Z.of_nat. cbn [Z.ltb Z.compare Pos.compare Pos.compare_cont]. simpl plus.
  rewrite EvalLoop_step by done. by erewrite EvalStep_opcode by done.
Qed.

Lemma EvalScript_p2sh_full x s h :
  length h = 20%nat -> MAX_STACK_SIZE - 1 <= zlen s ->
  Eval (x :: s) (0xa9 :: 0x14 :: h ++ [0x87]) = Err SCRIPT_ERR_STACK_SIZE.
Proof.
  intros Hh Hs. unfold MAX_STACK_SIZE, zlen in Hs.
  unfold EvalScript, MAX_SCRIPT_SIZE, zlen. simpl length. rewrite length_app, Hh. simpl Z.of_nat.
  cbn [Z.ltb Z.compare Pos.compare Pos.compare_cont]. simpl plus.
  rewrite EvalLoop_step by done. erewrite EvalStep_opcode by done.
  unfold eval_exec. simpl. unfold check_size at 1. case_bool; [done|]. simpl.
  rewrite (EvalStep_direct_push _ h [0x87]); [|simpl; unfold zlen; by rewrite Hh|unfold zlen; lia|done].
  unfold check_size at 1. simpl. rewrite (proj2 (Z.ltb_lt _ _)); [done|].
  unfold MAX_STACK_SIZE, zlen; simpl; lia.
Qed.

Lemma push_data_small v : zlen v <= 75 -> push_data [] v = zlen v :: v.
Proof.
  intros Hv. pose proof (zlen_nonneg v). unfold push_data. simpl.
  rewrite (proj2 (Z.ltb_lt _ _)) by lia. unfold u8. by rewrite Z.mod_small by lia.
Qed.

(** ** Pushed integers *)

Lemma EvalScript_small_int s n :
  n = -1 \/ 1 <= n <= 16 -> zlen s < MAX_STACK_SIZE ->
  Eval s (push_int64 [] n) = Ok (getvch n :: s).
Proof.
  intros Hn Hs. unfold push_int64. change (zlen []) with 0.
  replace ((n =? -1) || ((1 <=? n) && (n <=? 16))) with true.
  2: { symmetry. destruct Hn as [->|Hn]; [done|]. apply orb_true_iff. right. lia. }
  assert (Hsz : forall st, es_stack st = getvch n :: s -> es_altstack st = [] -> check_size st = Ok st).
  { intros st Hst Ha. apply check_size_ok. rewrite Hst, Ha. unfold zlen in *. simpl. lia. }
  assert (n = -1 \/ n = 1 \/ n = 2 \/ n = 3 \/ n = 4 \/ n = 5 \/ n = 6 \/ n = 7 \/ n = 8 \/ n = 9 \/
          n = 10 \/ n = 11 \/ n = 12 \/ n = 13 \/ n = 14 \/ n = 15 \/ n = 16) as Hcases by lia.
  clear Hn. unfold EvalScript. repeat destruct Hcases as [->|Hcases]; try subst n;
    cbn [length app]; rewrite EvalLoop_step by done; erewrite EvalStep_opcode by done;
    unfold eval_exec; simpl; rewrite Hsz by done; done.
Qed.

Lemma CheckMinimalPush_serialize n :
  - 2 ^ 63 < n < 2 ^ 63 -> n <> 0 -> n <> -1 -> ~ 1 <= n <= 16 ->
  let v := CScriptNum_serialize n in
  1 <= zlen v <= 9 /\ CheckMinimalPush v (opcode_of (zlen v)) = Ok true.
Proof.
  intros Hr H0 H1 H16 v.
  assert (Hl : 1 <= zlen v <= 9).
  { unfold v. destruct (serialize_shape n H0 Hr) as (w & b & _ & _ & _ & _ & Hw & ->).
    unfold zlen. repeat case_bool; rewrite !length_app; simpl; lia. }
  split; [done|].
  assert (Hone : zlen v = 1 -> (1 <= vget v 0 <= 16 \/ vget v 0 = 0x81) -> False).
  { intros Hv1 Hcase. pose proof (set_vch_serialize n Hr) as Hval. fold v in Hval.
    pose proof (CScriptNum_serialize_ok n Hr) as Hb. fold v in Hb.
    destruct v as [|b [|]]; try (unfold zlen in Hv1; simpl in Hv1; lia).
    change (vget [b] 0) with b in Hcase. apply Forall_cons in Hb as [Hb _].
    change [b] with ([] ++ [b]) in Hval. rewrite set_vch_snoc in Hval; [|apply Forall_nil_2|done].
    unfold magnitude in Hval. change (256 ^ zlen []) with 1 in Hval. cbn [le_val] in Hval.
    rewrite land_0x7f in Hval by done.
    destruct (128 <=? b) eqn:E1, (b <? 128) eqn:E2; bprop; lia. }
  unfold CheckMinimalPush, op_leb, op_eqb. rewrite opcode_val_of.
  repeat case_bool; bprop; simpl in *; try lia; try (exfalso; apply Hone; [done|lia]).
  all: by rewrite Z.eqb_refl.
Qed.

Lemma EvalScript_push_int64 s n :
  - 2 ^ 63 < n < 2 ^ 63 -> zlen s < MAX_STACK_SIZE ->
  Eval s (push_int64 [] n) = Ok (getvch n :: s).
Proof.
  intros Hr Hs. destruct (decide (n = -1 \/ 1 <= n <= 16)) as [Hsmall|Hn];
    [by apply EvalScript_small_int|].
  assert (Hnr : ~ 1 <= n <= 16) by (intros ?; apply Hn; by right).
  assert (Hsz : forall st v, es_stack st = v :: s -> es_altstack st = [] -> check_size st = Ok st).
  { intros st v Hst Ha. apply check_size_ok. rewrite Hst, Ha. unfold zlen in *. simpl. lia. }
  unfold push_int64. replace ((n =? -1) || ((1 <=? n) && (n <=? 16))) with false by lia.
  destruct (Z.eqb_spec n 0) as [->|H0].
  - unfold EvalScript. simpl. erewrite EvalStep_push by done. by erewrite Hsz.
  - destruct (CheckMinimalPush_serialize n Hr H0 ltac:(lia) Hnr) as [Hl Hm].
    set (v := CScriptNum_serialize n) in *. rewrite push_data_small by lia.
    unfold EvalScript. rewrite (proj2 (Z.ltb_ge _ _)) by (unfold MAX_SCRIPT_SIZE, zlen in *; simpl; lia).
    simpl length. rewrite EvalLoop_step by done.
    erewrite (EvalStep_push _ [] (opcode_of (zlen v)) v).
    + erewrite Hsz by done. simpl. by rewrite EvalLoop_nil.
    + simpl. rewrite <- (app_nil_r v) at 2. apply GetOp_push; [simpl; lia|]. unfold read_push_size. simpl.
      by rewrite (proj2 (Z.ltb_lt _ _)) by lia.
    + rewrite opcode_val_of. simpl. lia.
    + unfold MAX_SCRIPT_ELEMENT_SIZE. lia.
    + done.
    + done.
Qed.

(** ** Pay to public key hash *)

Definition p2pkh (h : list Z) : list Z := 0x76 :: 0xa9 :: 0x14 :: h ++ [0x88; 0xac].

Lemma at_prefix_head b c pc d : at_prefix (c :: b) (d :: pc) = true -> c = d.
Proof. intros H. unfold at_prefix in H. bprop. simpl in *. congruence. Qed.

Lemma at_prefix_nil b c : at_prefix (c :: b) [] = false.
Proof. done. Qed.

(** A push starts with an opcode that the template has only in front of the hash. *)
Lemma push_data_head v : exists d rest, push_data [] v = d :: rest /\ (d = 20 /\ zlen v = 20 /\ rest = v \/ 0 <= d <= 78 /\ d <> 20).
Proof.
  pose proof (zlen_nonneg v). unfold push_data. repeat (case_match; [|]); cbn [app]; eexists _, _; (split; [reflexivity|]);
    cbn in *; bprop; try (right; lia). unfold u8. rewrite Z.mod_small by lia. destruct (decide (zlen v = 20)); [by left|right; lia].
Qed.

Lemma Absent_p2pkh v h : length h = 20%nat -> v <> h -> Absent (push_data [] v) (p2pkh h).
Proof.
  intros Hh Hv. destruct (push_data_head v) as (d & rest & -> & Hd).
  assert (Hno : forall d' pc, 78 < d' -> at_prefix (d :: rest) (d' :: pc) = false).
  { intros d' pc Hd'. destruct (at_prefix _ _) eqn:E; [|done]. apply at_prefix_head in E. lia. }
  do 2 (eapply Absent_next; [apply Hno; lia|done|]).
  eapply Absent_next with (pc' := [0x88; 0xac]).
  { destruct (at_prefix _ _) eqn:E; [|done]. pose proof (at_prefix_head _ _ _ _ E). destruct Hd as [(-> & Hl & ->)|Hd]; [|lia].
    apply andb_true_iff in E as [_ E%bool_decide_eq_true]. cbn in E. injection E as E. exfalso. apply Hv. rewrite <- E.
    rewrite take_app_le, firstn_all2 by (unfold zlen in Hl; lia). done. }
  { apply GetOp_push with (n := h); [done|]. simpl. unfold zlen. by rewrite Hh. }
  do 2 (eapply Absent_next; [apply Hno; lia|done|]). by apply Absent_end.
Qed.

Lemma drop_signature_p2pkh v h :
  length h = 20%nat -> v <> h -> drop_signature flags sigversion (p2pkh h) v = Ok (p2pkh h).
Proof. intros. unfold drop_signature. destruct sigversion. by rewrite FindAndDelete_absent by by apply Absent_p2pkh. Qed.

(** The first three steps of the template, as far as the size of the stack allows. *)
Lemma Loop_p2pkh_start pk s h code : length h = 20%nat ->
  Loop 25 (St (p2pkh h) code (pk :: s) 0) =
  if zlen s <=? MAX_STACK_SIZE - 3 then Loop 22 (St [0x88; 0xac] code (h :: CHash160 pk :: pk :: s) 2) else Err SCRIPT_ERR_STACK_SIZE.
Proof.
  intros Hh. assert (Hh20 : zlen h = 20) by (unfold zlen; lia). pose proof (zlen_nonneg s) as Hs0. unfold p2pkh.
  assert (Hfull : forall st, MAX_STACK_SIZE < zlen (es_stack st) -> es_altstack st = [] -> check_size st = Err SCRIPT_ERR_STACK_SIZE).
  { intros st Hn Ha. unfold check_size. rewrite Ha. change (zlen []) with 0. by rewrite (proj2 (Z.ltb_lt _ _)) by lia. }
  destruct (Z.leb_spec (zlen s) (MAX_STACK_SIZE - 2)) as [Hle|Hgt].
  2: { rewrite (Loop_opcode _ _ _ _ _ _ OP_DUP) by done. cbn -[check_size MAX_STACK_SIZE]. rewrite Hfull by (done || unfold zlen in *; simpl; lia). simpl.
       by rewrite (proj2 (Z.leb_gt _ _)) by lia. }
  rewrite (Loop_opcode_ok _ _ _ _ _ _ OP_DUP (pk :: pk :: s)) by (done || unfold zlen, MAX_STACK_SIZE in *; simpl; lia).
  rewrite (Loop_opcode_ok _ _ _ _ _ _ OP_HASH160 (CHash160 pk :: pk :: s)) by (done || unfold zlen, MAX_STACK_SIZE in *; simpl; lia).
  rewrite <- Hh20 at 1. case_bool; bprop.
  - by rewrite Loop_push by (done || unfold zlen, MAX_STACK_SIZE in *; simpl; lia).
  - rewrite EvalLoop_step by done. erewrite EvalStep_direct_push by (done || lia). by rewrite Hfull by (done || unfold zlen in *; simpl; lia).
Qed.

Lemma EvalScript_p2pkh_loop s h : length h = 20%nat ->
  Eval s (p2pkh h) = (st ← Loop 25 (St (p2pkh h) (p2pkh h) s 0); match es_vfExec st with [] => Ok (es_stack st) | _ => Err SCRIPT_ERR_UNBALANCED_CONDITIONAL end).
Proof.
  intros Hh. unfold EvalScript. assert (length (p2pkh h) = 25%nat) as Hlen by (simpl; rewrite length_app, Hh; done).
  by rewrite (proj2 (Z.ltb_ge _ _)), Hlen by (unfold zlen, MAX_SCRIPT_SIZE; lia).
Qed.

(** What the template makes of a stack. *)
Lemma EvalScript_p2pkh stack h : length h = 20%nat ->
  (exists e, Eval stack (p2pkh h) = Err e) /\
    ~ (exists pk sig s, stack = pk :: sig :: s /\ zlen s <= MAX_STACK_SIZE - 4 /\ CHash160 pk = h) \/
  exists pk sig s, stack = pk :: sig :: s /\ zlen s <= MAX_STACK_SIZE - 4 /\ CHash160 pk = h /\
    Eval stack (p2pkh h) =
    (code ← drop_signature flags sigversion (p2pkh h) sig; _ ← CheckSignatureEncoding flags sig; _ ← CheckPubKeyEncoding flags pk;
     let fSuccess := CheckSig checker sig pk code sigversion in
     if negb fSuccess && flag flags SCRIPT_VERIFY_NULLFAIL && negb (zlen sig =? 0)
     then Err SCRIPT_ERR_SIG_NULLFAIL else Ok (vchBool fSuccess :: s)).
Proof.
  intros Hh. rewrite EvalScript_p2pkh_loop by done. destruct stack as [|pk s0].
  { left. split; [|by intros (? & ? & ? & ? & _)]. unfold p2pkh at 1. rewrite (Loop_opcode _ _ _ _ _ _ OP_DUP) by done. by eexists. }
  rewrite Loop_p2pkh_start by done. case_bool; bprop.
  2: { left. split; [by eexists|]. intros (? & ? & s & [= -> ->] & Hl & _). unfold zlen in *. simpl in *. lia. }
  destruct (bool_decide (CHash160 pk = h)) eqn:Hd.
  2: { left. rewrite (Loop_opcode _ _ _ _ _ _ OP_EQUALVERIFY) by done. cbn. rewrite Hd. split; [by eexists|].
       bprop. intros (? & ? & s & [= -> ->] & _ & ?). done. }
  rewrite (Loop_opcode_ok _ _ _ _ _ _ OP_EQUALVERIFY (pk :: s0)) by (done || (by cbn; rewrite Hd) || unfold zlen, MAX_STACK_SIZE in *; simpl; lia).
  rewrite (Loop_opcode _ _ _ _ _ _ OP_CHECKSIG) by done. bprop. cbn [eval_opcode]. unfold eval_checksig. cbn [es_stack St es_pbegincodehash].
  destruct s0 as [|sig s]; [left; split; [by eexists|]; by intros (? & ? & ? & ? & _)|].
  right. exists pk, sig, s. assert (zlen s <= MAX_STACK_SIZE - 4) as Hs by (unfold zlen in *; simpl in *; lia). split_and!; [done..|].
  destruct (drop_signature _ _ _ sig) as [code| |]; [simpl|done..].
  destruct (CheckSignatureEncoding _ _); [simpl|done..]. destruct (CheckPubKeyEncoding _ _); [simpl|done..].
  case_bool; [done|]. simpl. rewrite check_size_ok by (unfold zlen, MAX_STACK_SIZE in *; simpl; lia). done.
Qed.

End eval.

Section verify.
Context {crypto : CryptoOps}.
Variable flags : Z.
Variable checker : SignatureChecker.

Abbreviation Eval := (EvalScript flags checker BASE).
Abbreviation Verify := (VerifyScript flags checker).

(** The top of the stack exists and is true. *)
Definition true_top (s : list valtype) : Prop :=
  exists x s', s = x :: s' /\ CastToBool x = true.

Lemma require_true_Ok s u : require_true s = Ok u <-> true_top s.
Proof.
  unfold require_true, true_top. destruct u, s as [|x s].
  - split; [done|]. by intros (? & ? & ? & ?).
  - destruct (CastToBool x) eqn:E; simpl; split; try done; eauto.
    intros (? & ? & ? & ?). simplify_eq. congruence.
Qed.

Lemma require_true_not_Abort s : require_true s <> Abort.
Proof. unfold require_true. destruct s; [done|]. by case_bool. Qed.

Lemma VerifyScript_p2sh_iff scriptSig h :
  flag flags SCRIPT_VERIFY_P2SH = true -> length h = 20%nat ->
  let scriptPubKey := 0xa9 :: 0x14 :: h ++ [0x87] in
  Verify scriptSig scriptPubKey = Ok tt <->
  IsPushOnly scriptSig = true /\
  exists redeem s s', Eval [] scriptSig = Ok (redeem :: s) /\ zlen s < MAX_STACK_SIZE - 1 /\
    CHash160 redeem = h /\ Eval s redeem = Ok s' /\ true_top s' /\
    (flag flags SCRIPT_VERIFY_CLEANSTACK = true -> zlen s' = 1).
Proof.
  intros Hp Hh spk. unfold VerifyScript. rewrite Hp.
  assert (IsPayToScriptHash spk = true) as -> by (apply IsPayToScriptHash_shape; eauto).
  subst spk. unfold verify_p2sh. destruct (IsPushOnly scriptSig) eqn:Hpo; simpl.
  2: { rewrite andb_true_r. split; [|by intros [??]]. case_bool; [done|]. intros. by inv_ok. }
  rewrite andb_false_r. destruct (Eval [] scriptSig) as [s| |] eqn:He; simpl;
    [|split; [done|]; by intros (_ & ? & ? & ? & ? & _)..].
  destruct s as [|x s]; simpl.
  { rewrite EvalScript_p2sh_empty by done. split; [done|]. by intros (_ & ? & ? & ? & ? & _). }
  destruct (Z.lt_ge_cases (zlen s) (MAX_STACK_SIZE - 1)) as [Hl|Hl]; cycle 1.
  { rewrite EvalScript_p2sh_full by (done || lia). simpl. split; [done|].
    intros (_ & ? & ? & ? & ? & ? & _). simplify_eq. lia. }
  rewrite EvalScript_p2sh by done. simpl. destruct (bool_decide _) eqn:Hd; bprop; simpl.
  2: { split; [done|]. intros (_ & ? & ? & ? & ? & _ & ? & _). by simplify_eq. }
  split.
  - intros H. inv_ok. split; [done|]. apply require_true_Ok in H1. subst x1.
    exists x, s, x0. split_and!; try done. intros Hc. rewrite Hc in H0. case_bool; [done|]. by bprop.
  - intros (_ & r & s0 & s' & Heq & _ & _ & Hev & Ht & Hc). simplify_eq. rewrite Hev. simpl.
    rewrite (proj2 (require_true_Ok s' tt) Ht). simpl.
    case_bool; [|done]. by rewrite Hc.
Qed.

Lemma VerifyScript_p2pkh_iff scriptSig h : length h = 20%nat ->
  Verify scriptSig (p2pkh h) = Ok tt <->
  (flag flags SCRIPT_VERIFY_SIGPUSHONLY = true -> IsPushOnly scriptSig = true) /\
  exists pk sig s code, Eval [] scriptSig = Ok (pk :: sig :: s) /\ zlen s <= MAX_STACK_SIZE - 4 /\ CHash160 pk = h /\
    drop_signature flags BASE (p2pkh h) sig = Ok code /\ (sig <> h -> code = p2pkh h) /\
    CheckSignatureEncoding flags sig = Ok tt /\ CheckPubKeyEncoding flags pk = Ok tt /\ CheckSig checker sig pk code BASE = true /\
    (flag flags SCRIPT_VERIFY_CLEANSTACK = true -> flag flags SCRIPT_VERIFY_P2SH = true /\ s = []).
Proof.
  intros Hh. unfold VerifyScript.
  assert (IsPayToScriptHash (p2pkh h) = false) as -> by (unfold IsPayToScriptHash, zlen; simpl; by rewrite length_app, Hh).
  rewrite andb_false_r. split.
  - intros H. case_bool; [done|]. apply bind_Ok in H as (stack & He & H). apply bind_Ok in H as (s' & Hp & H).
    apply bind_Ok in H as ([] & Ht & H). apply require_true_Ok in Ht as (x & sx & -> & Hx). cbn [mbind res_bind] in H.
    destruct (EvalScript_p2pkh flags checker BASE stack h Hh) as [[[e He'] _]|(pk & sig & s & -> & Hs & Hk & He')]; [congruence|].
    rewrite He' in Hp. apply bind_Ok in Hp as (code & Hcode & Hp). apply bind_Ok in Hp as ([] & Hse & Hp). apply bind_Ok in Hp as ([] & Hpe & Hp).
    cbv zeta in Hp. destruct (negb _ && _ && _); [done|]. injection Hp as <- <-.
    split; [intros Hf; by rewrite Hf in *; destruct (IsPushOnly scriptSig)|]. exists pk, sig, s, code. split_and!; try done.
    + intros Hne. rewrite drop_signature_p2pkh in Hcode by done. by injection Hcode.
    + by destruct (CheckSig checker sig pk code BASE).
    + intros Hf. rewrite Hf in H. destruct (flag flags SCRIPT_VERIFY_P2SH); [|done]. cbn [negb] in H. case_bool; [done|]. split; [done|].
      destruct s; [done|]. bprop. unfold zlen in *. simpl in *. lia.
  - intros (Hpo & pk & sig & s & code & He & Hs & Hk & Hcode & _ & Hse & Hpe & Hsig & Hcl).
    assert (flag flags SCRIPT_VERIFY_SIGPUSHONLY && negb (IsPushOnly scriptSig) = false) as ->.
    { destruct (flag flags SCRIPT_VERIFY_SIGPUSHONLY); [by rewrite Hpo|done]. }
    rewrite He. cbn [mbind res_bind].
    destruct (EvalScript_p2pkh flags checker BASE (pk :: sig :: s) h Hh) as [[_ Hno]|(? & ? & ? & [= <- <- <-] & _ & _ & ->)]; [exfalso; eauto 10|].
    rewrite Hcode, Hse, Hpe. cbn [mbind res_bind]. rewrite Hsig. cbn.
    destruct (flag flags SCRIPT_VERIFY_CLEANSTACK); [|done]. by destruct (Hcl eq_refl) as [-> ->].
Qed.

(** No assertion of [VerifyScript] fails. *)
Lemma VerifyScript_post {laws : CryptoLaws crypto} scriptSig scriptPubKey :
  bytes_ok scriptSig -> bytes_ok scriptPubKey ->
  (flag flags SCRIPT_VERIFY_CLEANSTACK = true -> flag flags SCRIPT_VERIFY_P2SH = true) ->
  never_aborts (Verify scriptSig scriptPubKey).
Proof.
  intros Hs Hp Hclean. unfold VerifyScript. case_bool; [done|].
  eapply post_bind; [by apply EvalScript_post|intros s0 Hs0].
  pose proof (EvalScript_post flags checker BASE s0 scriptPubKey Hs0 Hp) as Hpost.
  destruct (Eval s0 scriptPubKey) as [s1| |] eqn:He; simpl; [|done..].
  destruct (require_true s1) eqn:Hr; simpl; [|done|by apply require_true_not_Abort in Hr].
  eapply post_bind with (P := fun _ => True).
  - destruct (flag flags SCRIPT_VERIFY_P2SH && _) eqn:Hc; [|done]. bprop.
    rewrite H. unfold verify_p2sh. case_bool; [done|]. destruct s0 as [|x s0].
    + apply IsPayToScriptHash_shape in H0 as (h & Hh & ->). by rewrite EvalScript_p2sh_empty in He.
    + destruct Hs0 as [Hf Hl]. apply Forall_cons in Hf as [[Hx _] Hf].
      eapply post_bind; [apply EvalScript_post; [|done]|].
      * split; [done|]. unfold zlen in *. simpl in *. lia.
      * intros s2 _. destruct (require_true s2) eqn:Hr2; [done..|by apply require_true_not_Abort in Hr2].
  - intros s2 _. case_bool; [|done]. rewrite Hclean by done. simpl. by case_bool.
Qed.

End verify.

(** ** Main properties *)



(** C5: a pay-to-script-hash output is spent exactly by a push-only [scriptSig] whose last element
    hashes to the committed value and, run as a script on the remaining elements, leaves a true top
    (and nothing else under CLEANSTACK). *)
Theorem VerifyScript_pay_to_script_hash {crypto : CryptoOps} flags checker scriptSig h :
  flag flags SCRIPT_VERIFY_P2SH = true -> length h = 20%nat ->
  VerifyScript flags checker scriptSig (0xa9 :: 0x14 :: h ++ [0x87]) = Ok tt <->
  IsPushOnly scriptSig = true /\
  exists redeem s s', EvalScript flags checker BASE [] scriptSig = Ok (redeem :: s) /\
    zlen s < MAX_STACK_SIZE - 1 /\ CHash160 redeem = h /\
    EvalScript flags checker BASE s redeem = Ok s' /\ true_top s' /\
    (flag flags SCRIPT_VERIFY_CLEANSTACK = true -> zlen s' = 1).
Proof. apply VerifyScript_p2sh_iff. Qed.

Lemma VerifyScript_pay_to_script_hash_witness :
  let spk := 0xa9 :: 0x14 :: replicate 20 0x20 ++ [0x87] in
  VerifyScript (crypto := sum_crypto) 0x101 BaseSignatureChecker [0x01; 0x51] spk = Ok tt <->
  IsPushOnly [0x01; 0x51] = true /\
  exists redeem s s',
    EvalScript (crypto := sum_crypto) 0x101 BaseSignatureChecker BASE [] [0x01; 0x51] = Ok (redeem :: s) /\
    zlen s < MAX_STACK_SIZE - 1 /\ CHash160 (crypto := sum_crypto) redeem = replicate 20 0x20 /\
    EvalScript (crypto := sum_crypto) 0x101 BaseSignatureChecker BASE s redeem = Ok s' /\ true_top s' /\
    (flag 0x101 SCRIPT_VERIFY_CLEANSTACK = true -> zlen s' = 1).
Proof. intros spk. apply VerifyScript_pay_to_script_hash; reflexivity. Defined.

(** C6: a pay-to-public-key-hash output is spent exactly by a [scriptSig] (push-only where the flags ask for it) that
    runs and leaves a signature and, on top, a public key, with room for two more elements: the key hashes to
    the committed value, both encodings pass the flags, and the checker accepts the signature over the
    output script, unmodified unless the signature is the committed hash itself; under CLEANSTACK, which the
    callers set with P2SH only, nothing else is left. *)
Theorem VerifyScript_pay_to_public_key_hash {crypto : CryptoOps} flags checker scriptSig h :
  length h = 20%nat ->
  VerifyScript flags checker scriptSig (p2pkh h) = Ok tt <->
  (flag flags SCRIPT_VERIFY_SIGPUSHONLY = true -> IsPushOnly scriptSig = true) /\
  exists pk sig s code, EvalScript flags checker BASE [] scriptSig = Ok (pk :: sig :: s) /\ zlen s <= MAX_STACK_SIZE - 4 /\
    CHash160 pk = h /\ drop_signature flags BASE (p2pkh h) sig = Ok code /\ (sig <> h -> code = p2pkh h) /\
    CheckSignatureEncoding flags sig = Ok tt /\ CheckPubKeyEncoding flags pk = Ok tt /\ CheckSig checker sig pk code BASE = true /\
    (flag flags SCRIPT_VERIFY_CLEANSTACK = true -> flag flags SCRIPT_VERIFY_P2SH = true /\ s = []).
Proof. apply VerifyScript_p2pkh_iff. Qed.

Lemma VerifyScript_pay_to_public_key_hash_witness :
  let checker := {| CheckSig := fun _ _ _ _ => true; CheckLockTime := fun _ => false;
                    CheckSequence := fun _ => false |} in
  VerifyScript (crypto := sum_crypto) 0 checker (push_data (push_data [] [1; 2]) [3; 4])
    (p2pkh (replicate 20 0xe0)) = Ok tt.
Proof.
  intros checker.
  apply (VerifyScript_pay_to_public_key_hash (crypto := sum_crypto) 0 checker _ (replicate 20 0xe0) eq_refl).
  split; [discriminate|]. exists [3; 4], [1; 2], [], (p2pkh (replicate 20 0xe0)).
  split_and!; (reflexivity || discriminate || (intros _; reflexivity) || (vm_compute; discriminate)).
Defined.

(** C8: an output script that [IsUnspendable] reports can never be spent: evaluating it fails on
    every stack, so [VerifyScript] fails for every [scriptSig]. *)
Theorem IsUnspendable_sound {crypto : CryptoOps} flags checker scriptSig scriptPubKey :
  IsUnspendable scriptPubKey = true ->
  VerifyScript flags checker scriptSig scriptPubKey <> Ok tt.
Proof.
  intros Hu H. unfold VerifyScript in H. case_bool; [done|]. inv_ok.
  destruct (unspendable_fails flags checker BASE x scriptPubKey Hu) as [e He]. congruence.
Qed.

Lemma IsUnspendable_sound_witness :
  VerifyScript (crypto := sum_crypto) 0 BaseSignatureChecker [0x51] [0x6a; 0x01; 0x02] <> Ok tt.
Proof. apply IsUnspendable_sound. reflexivity. Defined.

(** The script [CScript() << n] pushes the encoding of [n], under every combination of flags
    (in particular it satisfies MINIMALDATA). *)
Theorem push_int64_evaluates {crypto : CryptoOps} flags checker sigversion s n :
  - 2 ^ 63 < n < 2 ^ 63 -> zlen s < MAX_STACK_SIZE ->
  EvalScript flags checker sigversion s (push_int64 [] n) = Ok (getvch n :: s).
Proof. apply EvalScript_push_int64. Qed.

Lemma push_int64_evaluates_witness :
  EvalScript (crypto := sum_crypto) 0x40 BaseSignatureChecker BASE [] (push_int64 [] (-1000)) =
  Ok [getvch (-1000)].
Proof. apply (push_int64_evaluates (crypto := sum_crypto)); [lia|reflexivity]. Defined.

(** A stack element is true, as OP_IF and OP_VERIFY see it, exactly when the number it encodes is
    not zero, whatever its length and whether or not it is minimally encoded. *)
Theorem CastToBool_iff_nonzero v : bytes_ok v -> CastToBool v = negb (set_vch v =? 0).
Proof. apply CastToBool_nonzero. Qed.

Lemma CastToBool_iff_nonzero_witness : CastToBool [0; 0x80] = negb (set_vch [0; 0x80] =? 0).
Proof. apply CastToBool_iff_nonzero. repeat constructor; lia. Defined.

(** [FindAndDelete] accounts for every byte: what it returns is shorter by exactly the number of
    occurrences it reports, and a count of zero means the script is unchanged. *)
Theorem FindAndDelete_accounting script b n r :
  FindAndDelete script b = (n, r) ->
  0 <= n /\ zlen r + n * zlen b = zlen script /\ (n = 0 -> r = script).
Proof.
  intros H. destruct (FindAndDelete_length script b n r H) as [Hn Hl].
  refine (conj Hn (conj Hl _)). intros ->. unfold FindAndDelete in H. destruct b; [by simplify_eq|].
  destruct (FindAndDelete_loop _ _ _ _ _ _) as [[m ?] ?]. case_bool; bprop; simplify_eq; [lia|done].
Qed.

Lemma FindAndDelete_accounting_witness :
  0 <= 2 /\ zlen [0x52] + 2 * zlen [0x51] = zlen [0x51; 0x52; 0x51] /\ (2 = 0 -> [0x52] = [0x51; 0x52; 0x51]).
Proof. apply (FindAndDelete_accounting [0x51; 0x52; 0x51] [0x51]). reflexivity. Defined.
