(* ===== verification/Multisig.v ===== *)
(** * OP_CHECKMULTISIG decides an order-preserving matching

    The checking loop of src/src/script/interpreter.cpp walks signatures and keys once, in order.
    Here it is shown to decide whether every signature can be assigned a key of its own, in the same
    order ([Matched]), and the whole case is shown to push that answer. *)

From stdpp Require Import base list numbers.
From S2P Require Import Prelude Script Crypto Interpreter InterpreterSafety InterpreterSpec.

Open Scope Z_scope.

Section matching.
Context {A B : Type} (valid : A -> B -> bool).

(** The specification: signatures are assigned to distinct keys, in order. *)
Inductive Matched : list A -> list B -> Prop :=
| Matched_nil keys : Matched [] keys
| Matched_use sig sigs key keys :
    valid sig key = true -> Matched sigs keys -> Matched (sig :: sigs) (key :: keys)
| Matched_skip sigs key keys : Matched sigs keys -> Matched sigs (key :: keys).

(** The strategy of the loop. *)
Fixpoint greedy (sigs : list A) (keys : list B) : bool :=
  match keys with
  | [] => match sigs with [] => true | _ => false end
  | key :: keys =>
      match sigs with
      | [] => true
      | sig :: sigs' => if valid sig key then greedy sigs' keys else greedy sigs keys
      end
  end.

Lemma Matched_tail sig sigs keys : Matched (sig :: sigs) keys -> Matched sigs keys.
Proof.
  intros H. remember (sig :: sigs) as l eqn:Hl. revert sig sigs Hl.
  induction H as [|s ss k ks Hv Hm IH|ss k ks Hm IH]; intros; simplify_eq; constructor; eauto.
Qed.

Lemma greedy_Matched sigs keys : greedy sigs keys = true <-> Matched sigs keys.
Proof.
  revert sigs; induction keys as [|key keys IH]; intros [|sig sigs]; simpl; split; intros H;
    try done; try (by constructor); try (by inversion H).
  - destruct (valid sig key) eqn:E; [by apply Matched_use, IH|by apply Matched_skip, IH].
  - destruct (valid sig key) eqn:E; apply IH; inversion H; subst; try done; try congruence;
      by eapply Matched_tail.
Qed.

Lemma greedy_too_many sigs keys : (length keys < length sigs)%nat -> greedy sigs keys = false.
Proof.
  revert sigs; induction keys as [|key keys IH]; intros [|sig sigs] Hl; simpl in *; try done; try lia.
  case_bool; apply IH; simpl; lia.
Qed.

End matching.

Section multisig.
Context {crypto : CryptoOps}.
Variable flags : Z.
Variable checker : SignatureChecker.
Variable sigversion : SigVersion.

(** The elements of [l] are on the stack, the first at position [i] from the top (top = 1). *)
Definition at_pos (stack : list valtype) (i : Z) (l : list valtype) : Prop :=
  1 <= i /\ exists rest, drop (Z.to_nat (i - 1)) stack = l ++ rest.

Lemma at_pos_cons stack i x l :
  at_pos stack i (x :: l) -> stacktop stack i = Ok x /\ at_pos stack (i + 1) l.
Proof.
  intros [Hi [rest Hd]]. split.
  - unfold stacktop. rewrite <- (Nat.add_0_r (Z.to_nat _)), <- lookup_drop, Hd. done.
  - split; [lia|]. exists rest. replace (Z.to_nat (i + 1 - 1)) with (Z.to_nat (i - 1) + 1)%nat by lia.
    by rewrite <- drop_drop, Hd.
Qed.

Lemma multisig_loop_greedy code stack keys sigs isig ikey fuel :
  Forall (fun s => CheckSignatureEncoding flags s = Ok tt) sigs ->
  Forall (fun k => CheckPubKeyEncoding flags k = Ok tt) keys ->
  at_pos stack isig sigs -> at_pos stack ikey keys ->
  (length keys < fuel)%nat -> (length sigs <= length keys)%nat ->
  multisig_loop flags checker sigversion fuel stack code isig ikey (zlen sigs) (zlen keys) =
  Ok (greedy (fun s k => CheckSig checker s k code sigversion) sigs keys).
Proof.
  revert sigs isig ikey fuel; induction keys as [|key keys IH];
    intros [|sig sigs] isig ikey fuel Hes Hek Hs Hk Hf Hl; simpl in Hl; try lia;
    destruct fuel as [|fuel]; simpl in Hf; try lia; try done.
  pose proof Hes as [He1 He2]%Forall_cons. apply Forall_cons in Hek as [Hk1' Hk2'].
  pose proof Hs as [Hs1 Hs2]%at_pos_cons. apply at_pos_cons in Hk as [Hk1 Hk2].
  cbn [multisig_loop greedy]. rewrite Hs1. cbn [mbind res_bind]. rewrite Hk1. cbn [mbind res_bind].
  rewrite He1, Hk1'. cbn [mbind res_bind].
  assert (Hz : forall {A} (x : A) l, zlen (x :: l) = zlen l + 1) by (intros; unfold zlen; simpl; lia).
  rewrite (proj2 (Z.leb_gt _ _)) by (unfold zlen; simpl; lia).
  replace (zlen (key :: keys) - 1) with (zlen keys) by (rewrite Hz; lia).
  destruct (CheckSig checker sig key code sigversion).
  - replace (zlen (sig :: sigs) - 1) with (zlen sigs) by (rewrite Hz; lia).
    rewrite (proj2 (Z.ltb_ge _ _)) by (unfold zlen; lia). apply IH; try done; lia.
  - destruct (zlen keys <? zlen (sig :: sigs)) eqn:Hlt; bprop; unfold zlen in Hlt; simpl in Hlt.
    + f_equal. symmetry. apply greedy_too_many. simpl. lia.
    + apply IH; try done; simpl; lia.
Qed.

(** Without NULLFAIL the clean-up only pops. *)
Lemma multisig_cleanup_pops b ikey2 l stack :
  b = true \/ flag flags SCRIPT_VERIFY_NULLFAIL = false ->
  multisig_cleanup flags (length l) b ikey2 (l ++ stack) = Ok stack.
Proof.
  intros Hb. revert ikey2; induction l as [|x l IH]; intros ikey2; [done|].
  cbn [multisig_cleanup length app]. cbn [stacktop]. unfold stacktop. simpl Z.to_nat. cbn [lookup list_lookup].
  destruct Hb as [->|Hb]; simpl; [apply IH; by left|]. rewrite Hb, andb_false_r. simpl. apply IH; by right.
Qed.

(** The arguments of OP_CHECKMULTISIG as the interpreter finds them, the top of the stack first. *)
Definition multisig_args (keys sigs : list valtype) (dummy : valtype) (s : list valtype)
    : list valtype :=
  getvch (zlen keys) :: keys ++ getvch (zlen sigs) :: sigs ++ dummy :: s.

Lemma script_num_small n :
  0 <= n <= 20 -> script_num flags (getvch n) 4 = Ok n.
Proof.
  intros Hn. unfold script_num, CScriptNum_of.
  assert (zlen (getvch n) <= 4).
  { assert (n = 0 \/ 1 <= n <= 20) as [->|?] by lia; [done|]. unfold getvch.
    assert (forallb (fun n => zlen (CScriptNum_serialize n) <=? 4) (seqZ 1 20) = true) as Hall by done.
    rewrite forallb_forall in Hall. apply Z.leb_le, Hall, list_elem_of_In, elem_of_seqZ. lia. }
  rewrite (proj2 (Z.ltb_ge _ _)) by lia. unfold getvch.
  rewrite serialize_minimal, andb_false_r, set_vch_serialize by (done || lia). done.
Qed.

Lemma eval_checkmultisig_pushes op st keys sigs dummy s code :
  es_stack st = multisig_args keys sigs dummy s ->
  zlen keys <= MAX_PUBKEYS_PER_MULTISIG -> zlen sigs <= zlen keys ->
  es_nOpCount st + zlen keys <= MAX_OPS_PER_SCRIPT ->
  flag flags SCRIPT_VERIFY_NULLFAIL = false ->
  (flag flags SCRIPT_VERIFY_NULLDUMMY = true -> dummy = []) ->
  Forall (fun s => CheckSignatureEncoding flags s = Ok tt) sigs ->
  Forall (fun k => CheckPubKeyEncoding flags k = Ok tt) keys ->
  drop_signatures flags sigversion (length sigs) (es_stack st) (zlen keys + 3) 0
    (es_pbegincodehash st) = Ok code ->
  let ok := greedy (fun s k => CheckSig checker s k code sigversion) sigs keys in
  op_eqb op OP_CHECKMULTISIGVERIFY = false ->
  eval_checkmultisig flags checker sigversion op st =
  Ok (with_nOpCount (with_stack st (vchBool ok :: s)) (es_nOpCount st + zlen keys)).
Proof.
  intros Hst Hk Hs Hops Hnf Hnd Hes Hek Hdrop ok Hop. unfold MAX_PUBKEYS_PER_MULTISIG in Hk.
  pose proof (zlen_nonneg keys). pose proof (zlen_nonneg sigs).
  assert (Hgi : forall n, 0 <= n <= 20 -> getint n = n).
  { intros n Hn. unfold getint. by rewrite !(proj2 (Z.ltb_ge _ _)) by lia. }
  set (stack := multisig_args keys sigs dummy s) in *.
  assert (Hlen : zlen stack = zlen keys + zlen sigs + zlen s + 3).
  { unfold stack, multisig_args, zlen. simpl. rewrite !length_app. simpl. rewrite length_app. simpl. lia. }
  assert (Hpk : at_pos stack 2 keys) by (split; [lia|]; by eexists).
  assert (Hps : at_pos stack (zlen keys + 2) (getvch (zlen sigs) :: sigs)).
  { split; [lia|]. exists (dummy :: s). replace (Z.to_nat _) with (S (length keys)) by (unfold zlen; lia).
    simpl. by rewrite drop_app_length. }
  apply at_pos_cons in Hps as [Hts Hps].
  assert (Hclean : forall b, multisig_cleanup flags (Z.to_nat (zlen keys + 3 + zlen sigs - 1)) b
                             (zlen keys + 2) stack = Ok (dummy :: s)).
  { intros b. set (l := getvch (zlen keys) :: keys ++ getvch (zlen sigs) :: sigs).
    replace (Z.to_nat _) with (length l) by (unfold l, zlen; simpl; rewrite length_app; simpl; lia).
    replace stack with (l ++ dummy :: s) by (unfold l, stack, multisig_args; simpl; by rewrite <- app_assoc).
    apply multisig_cleanup_pops. by right. }
  unfold eval_checkmultisig. rewrite Hst, Hlen in *. unfold MAX_PUBKEYS_PER_MULTISIG.
  pose proof (zlen_nonneg s). rewrite (proj2 (Z.ltb_ge _ _)) by lia.
  change (stacktop stack 1) with (Ok (E:=ScriptError) (getvch (zlen keys))).
  cbn [mbind res_bind]. rewrite script_num_small by lia. cbn [mbind res_bind].
  rewrite !Hgi, !(proj2 (Z.ltb_ge _ _)) by lia. cbn [orb]. rewrite (Z.add_comm 2), Hts.
  cbn [mbind res_bind]. rewrite script_num_small by lia. cbn [mbind res_bind].
  rewrite !Hgi, !(proj2 (Z.ltb_ge _ _)) by lia. cbn [orb].
  replace (zlen keys + 2 + 1) with (zlen keys + 3) in * by lia.
  replace (Z.to_nat (zlen sigs)) with (length sigs) by (unfold zlen; lia).
  rewrite Hdrop. cbn [mbind res_bind].
  rewrite multisig_loop_greedy by (done || unfold zlen in *; lia). cbn [mbind res_bind].
  rewrite Hclean. cbn [mbind res_bind]. fold ok.
  destruct (flag flags SCRIPT_VERIFY_NULLDUMMY); [rewrite Hnd by done|]; simpl;
    unfold push_or_verify; by rewrite Hop.
Qed.

End multisig.

(** ** Main property *)

(** C7: OP_CHECKMULTISIG pushes true exactly when every signature can be assigned a public key that
    it verifies under, distinct keys for distinct signatures and in the same order (for signatures and
    keys whose encoding the flags accept, and without NULLFAIL, which turns false into an error). *)
Theorem CHECKMULTISIG_matches {crypto : CryptoOps} flags checker sigversion st keys sigs dummy s code :
  es_stack st = multisig_args keys sigs dummy s ->
  zlen keys <= MAX_PUBKEYS_PER_MULTISIG -> zlen sigs <= zlen keys ->
  es_nOpCount st + zlen keys <= MAX_OPS_PER_SCRIPT ->
  flag flags SCRIPT_VERIFY_NULLFAIL = false ->
  (flag flags SCRIPT_VERIFY_NULLDUMMY = true -> dummy = []) ->
  Forall (fun s => CheckSignatureEncoding flags s = Ok tt) sigs ->
  Forall (fun k => CheckPubKeyEncoding flags k = Ok tt) keys ->
  drop_signatures flags sigversion (length sigs) (es_stack st) (zlen keys + 3) 0
    (es_pbegincodehash st) = Ok code ->
  exists ok : bool,
    eval_checkmultisig flags checker sigversion OP_CHECKMULTISIG st =
    Ok (with_nOpCount (with_stack st (vchBool ok :: s)) (es_nOpCount st + zlen keys)) /\
    (ok = true <-> Matched (fun sig key => CheckSig checker sig key code sigversion) sigs keys).
Proof.
  intros. eexists. split; [by eapply eval_checkmultisig_pushes|]. apply greedy_Matched.
Qed.

(** Two of three keys, where signature [k] verifies under key [k]. *)
Lemma CHECKMULTISIG_matches_witness :
  let checker := {| CheckSig := fun sig key _ _ => bool_decide (sig = key);
                    CheckLockTime := fun _ => false; CheckSequence := fun _ => false |} in
  let st := St [] [] (multisig_args [[7]; [8]; [9]] [[7]; [9]] [] []) 1 in
  exists ok : bool,
    eval_checkmultisig (crypto := sum_crypto) 0 checker BASE OP_CHECKMULTISIG st =
    Ok (with_nOpCount (with_stack st [vchBool ok]) 4) /\
    (ok = true <-> Matched (fun sig key => bool_decide (sig = key)) [[7]; [9]] [[7]; [8]; [9]]).
Proof.
  intros checker st.
  apply (CHECKMULTISIG_matches (crypto := sum_crypto) 0 checker BASE st
           [[7]; [8]; [9]] [[7]; [9]] [] [] []);
    try reflexivity; try (vm_compute; discriminate); try discriminate; repeat constructor.
Defined.
