(* ===== verification/InterpreterFlags.v ===== *)
(** * Verification flags are soft forks

    src/src/script/interpreter.h says of the verification flags that all of them are intended to be
    soft forks: the set of acceptable scripts under flags (A | B) is a subset of the one under (A).
    Here it is proved for every flag except SCRIPT_ENABLE_DIP0020_OPCODES, which enables opcodes, and
    shown to fail for that one. *)

From stdpp Require Import base list numbers.
From S2P Require Import Prelude Script Crypto Interpreter.

Open Scope Z_scope.

(** [le_ok m' m]: whatever [m'] returns, [m] returns too. *)
Definition le_ok {E A} (m' m : res E A) : Prop := forall a, m' = Ok a -> m = Ok a.

#[export] Instance le_ok_preorder {E A} : PreOrder (@le_ok E A).
Proof. split; [by intros m a|]. intros m1 m2 m3 H1 H2 a H. by apply H2, H1. Qed.

Lemma le_refl {E A} (m : res E A) : le_ok m m.
Proof. done. Qed.

Lemma le_bind {E A B} (m' m : res E A) (k' k : A -> res E B) :
  le_ok m' m -> (forall a, le_ok (k' a) (k a)) -> le_ok (m' ≫= k') (m ≫= k).
Proof. intros Hm Hk b (a & Ha & Hb)%bind_Ok. rewrite (Hm a Ha). by apply Hk. Qed.

(** A guard that rejects more often. *)
Lemma le_guard {E A} (b' b : bool) (e e' : E) (m' m : res E A) :
  (b = true -> b' = true) -> le_ok m' m ->
  le_ok (if b' then Err e' else m') (if b then Err e else m).
Proof. intros Hb Hm. destruct b; [by rewrite Hb|]. by destruct b'. Qed.

Lemma le_err {E A} (e : E) (m : res E A) : le_ok (Err e) m.
Proof. done. Qed.

#[export] Hint Resolve le_refl le_err : piratecash.

Section flags.
Context {crypto : CryptoOps}.
Variables f f' : Z.
Variable checker : SignatureChecker.
Variable sigversion : SigVersion.

(** The flags [f'] contain the flags [f], and agree on the DIP0020 opcodes. *)
Hypothesis Hsub : Z.land f f' = f.
Hypothesis Hdip : flag f SCRIPT_ENABLE_DIP0020_OPCODES = flag f' SCRIPT_ENABLE_DIP0020_OPCODES.

Lemma flag_sub mask : flag f mask = true -> flag f' mask = true.
Proof.
  unfold flag. rewrite !negb_true_iff, !Z.eqb_neq. intros H H'. apply H.
  by rewrite <- Hsub, <- Z.land_assoc, H', Z.land_0_r.
Qed.

Lemma guard_sub mask (b : bool) : flag f mask && b = true -> flag f' mask && b = true.
Proof. rewrite !andb_true_iff. intros [H ->]. by rewrite flag_sub. Qed.

(** Guards of the shape [x && flags && y]. *)
Lemma guard_sub3 mask (a b : bool) :
  a && flag f mask && b = true -> a && flag f' mask && b = true.
Proof. rewrite !andb_true_iff. intros [[-> H] ->]. by rewrite flag_sub. Qed.

Lemma script_num_le v k : le_ok (script_num f' v k) (script_num f v k).
Proof.
  unfold script_num, CScriptNum_of, fRequireMinimal. case_bool; [done|].
  destruct (flag f _ && _) eqn:E; [by rewrite (guard_sub _ _ E)|].
  destruct (flag f' _ && _); [by intros ?|done].
Qed.

Lemma CheckSignatureEncoding_le v :
  le_ok (CheckSignatureEncoding f' v) (CheckSignatureEncoding f v).
Proof.
  unfold CheckSignatureEncoding. case_bool; [done|]. apply le_guard; [apply guard_sub|].
  destruct (is_ok (IsLowDERSignature v)) eqn:E; rewrite ?andb_false_r, ?andb_true_r.
  - by apply le_guard; [apply guard_sub|].
  - destruct (flag f SCRIPT_VERIFY_LOW_S) eqn:Ef; [by rewrite (flag_sub _ Ef)|]. simpl.
    destruct (flag f' SCRIPT_VERIFY_LOW_S); [|by apply le_guard; [apply guard_sub|]].
    intros u Hu. by rewrite Hu in E.
Qed.

Lemma CheckPubKeyEncoding_le v : le_ok (CheckPubKeyEncoding f' v) (CheckPubKeyEncoding f v).
Proof. unfold CheckPubKeyEncoding. apply le_guard; [apply guard_sub|done]. Qed.

Lemma drop_signature_le code v :
  le_ok (drop_signature f' sigversion code v) (drop_signature f sigversion code v).
Proof.
  unfold drop_signature. destruct sigversion, (FindAndDelete _ _) as [n c].
  apply le_guard; [|done]. rewrite !andb_true_iff. intros [-> H]. by rewrite flag_sub.
Qed.

Lemma drop_signatures_le n s i k code :
  le_ok (drop_signatures f' sigversion n s i k code) (drop_signatures f sigversion n s i k code).
Proof.
  revert k code; induction n as [|n IH]; intros k code; simpl; [done|].
  apply le_bind; [done|intros v]. apply le_bind; [apply drop_signature_le|auto].
Qed.

Lemma multisig_loop_le fuel s code isig ikey nSigs nKeys :
  le_ok (multisig_loop f' checker sigversion fuel s code isig ikey nSigs nKeys)
        (multisig_loop f checker sigversion fuel s code isig ikey nSigs nKeys).
Proof.
  revert isig ikey nSigs nKeys; induction fuel as [|fuel IH]; intros; cbn [multisig_loop];
    (case_bool; [done|]); [done|].
  do 2 (apply le_bind; [done|intros ?]).
  apply le_bind; [apply CheckSignatureEncoding_le|intros _].
  apply le_bind; [apply CheckPubKeyEncoding_le|intros _].
  destruct (_ <? _); [done|apply IH].
Qed.

Lemma multisig_cleanup_le n b i s : le_ok (multisig_cleanup f' n b i s) (multisig_cleanup f n b i s).
Proof.
  revert i s; induction n as [|n IH]; intros i s; [done|]. cbn [multisig_cleanup].
  apply le_bind; [done|intros v]. rewrite <- !andb_assoc, !(andb_assoc _ _ (_ && _)).
  apply le_guard; [apply guard_sub3|]. apply le_bind; [done|auto].
Qed.

(** Steps of the proofs below: the flag-dependent calls, and matches on both sides at once. *)
Ltac le_step :=
  first
    [ apply le_refl | apply le_err
    | apply script_num_le | apply CheckSignatureEncoding_le | apply CheckPubKeyEncoding_le
    | apply drop_signature_le | apply drop_signatures_le | apply multisig_loop_le
    | apply multisig_cleanup_le
    | apply le_guard; [first [by apply guard_sub | by apply guard_sub3 | by intros ->]|]
    | apply le_bind; [|intros ?]
    | match goal with
      | |- le_ok (if ?b then _ else _) (if ?b then _ else _) => destruct b
      | |- le_ok (match ?x with _ => _ end) (match ?x with _ => _ end) => destruct x
      end ].

(** A disabled locktime check does nothing, and an enabled one that passes leaves the state alone. *)
Lemma eval_checklocktimeverify_le st :
  le_ok (eval_checklocktimeverify f' checker st) (eval_checklocktimeverify f checker st).
Proof.
  unfold eval_checklocktimeverify.
  destruct (flag f SCRIPT_VERIFY_CHECKLOCKTIMEVERIFY) eqn:Ef; [rewrite (flag_sub _ Ef)|]; simpl.
  - repeat le_step.
  - case_bool; [done|]. intros st' H. destruct (es_stack st); [done|]. inv_ok.
    repeat case_bool; by inv_ok; subst.
Qed.

Lemma eval_checksequenceverify_le st :
  le_ok (eval_checksequenceverify f' checker st) (eval_checksequenceverify f checker st).
Proof.
  unfold eval_checksequenceverify.
  destruct (flag f SCRIPT_VERIFY_CHECKSEQUENCEVERIFY) eqn:Ef; [rewrite (flag_sub _ Ef)|]; simpl.
  - repeat le_step.
  - case_bool; [done|]. intros st' H. destruct (es_stack st); [done|]. inv_ok.
    repeat case_bool; by inv_ok; subst.
Qed.

Lemma eval_opcode_le op fExec st :
  le_ok (eval_opcode f' checker sigversion op fExec st)
        (eval_opcode f checker sigversion op fExec st).
Proof.
  destruct op; cbn [eval_opcode]; try done;
    try apply eval_checklocktimeverify_le; try apply eval_checksequenceverify_le;
    try (unfold eval_nop_upgradable; by apply le_guard; [apply flag_sub|]);
    unfold eval_pick_roll, eval_unary_num, eval_binary_num, eval_within, eval_checksig,
      eval_checkdatasig, eval_checkmultisig, eval_split, eval_num2bin; repeat le_step.
Qed.

Lemma eval_exec_le op v st :
  le_ok (eval_exec f' checker sigversion op v st) (eval_exec f checker sigversion op v st).
Proof.
  unfold eval_exec. case_bool.
  - intros st' H. inv_ok. destruct x; simpl in H0; [|done]. inv_ok.
    assert ((if fRequireMinimal f then CheckMinimalPush v op else Ok true) = Ok true) as ->; [|by subst].
    unfold fRequireMinimal in *. destruct (flag f SCRIPT_VERIFY_MINIMALDATA) eqn:Ef; [|done]. by rewrite (flag_sub _ Ef) in H.
  - case_bool; [apply eval_opcode_le|done].
Qed.

Lemma EvalStep_le st :
  le_ok (EvalStep f' checker sigversion st) (EvalStep f checker sigversion st).
Proof.
  unfold EvalStep. rewrite Hdip. destruct (GetOp _) as [[[pc op] v]|]; [|done].
  do 4 (case_bool; [done|]). apply le_guard.
  - rewrite !andb_true_iff. intros [[-> ->] H]. by rewrite flag_sub.
  - apply le_bind; [apply eval_exec_le|done].
Qed.

Lemma EvalLoop_le fuel st :
  le_ok (EvalLoop f' checker sigversion fuel st) (EvalLoop f checker sigversion fuel st).
Proof.
  revert st; induction fuel as [|fuel IH]; intros st; cbn [EvalLoop]; case_match; try done.
  apply le_bind; [apply EvalStep_le|auto].
Qed.

Lemma EvalScript_le stack script :
  le_ok (EvalScript f' checker sigversion stack script) (EvalScript f checker sigversion stack script).
Proof.
  unfold EvalScript. case_bool; [done|]. apply le_bind; [apply EvalLoop_le|done].
Qed.

End flags.

Section verify_flags.
Context {crypto : CryptoOps}.
Variables f f' : Z.
Variable checker : SignatureChecker.

Lemma VerifyScript_le scriptSig scriptPubKey :
  Z.land f f' = f ->
  flag f SCRIPT_ENABLE_DIP0020_OPCODES = flag f' SCRIPT_ENABLE_DIP0020_OPCODES ->
  (flag f SCRIPT_VERIFY_CLEANSTACK = true -> flag f SCRIPT_VERIFY_P2SH = true) ->
  le_ok (VerifyScript f' checker scriptSig scriptPubKey)
        (VerifyScript f checker scriptSig scriptPubKey).
Proof.
  intros Hsub Hdip Hclean. pose proof (EvalScript_le f f' checker BASE Hsub Hdip) as Hle.
  unfold VerifyScript. apply le_guard; [by apply guard_sub|].
  apply le_bind; [apply Hle|intros s0]. apply le_bind; [apply Hle|intros s1].
  apply le_bind; [done|intros _].
  destruct (flag f SCRIPT_VERIFY_P2SH) eqn:Ep.
  - rewrite (flag_sub _ _ Hsub _ Ep). simpl. apply le_bind.
    + case_bool; [|done]. unfold verify_p2sh. case_bool; [done|]. destruct s0; [done|].
      apply le_bind; [apply Hle|done].
    + intros s2. destruct (flag f SCRIPT_VERIFY_CLEANSTACK) eqn:Ec; [by rewrite (flag_sub _ _ Hsub _ Ec)|].
      intros [] _. done.
  - simpl. destruct (flag f SCRIPT_VERIFY_CLEANSTACK); [by discriminate Hclean|]. by intros [] _.
Qed.

End verify_flags.

(** ** Main properties *)

(** C4: verification flags are soft forks: scripts accepted under more flags are accepted under fewer
    (the DIP0020 opcodes being enabled in both or in neither, and CLEANSTACK being used with P2SH only). *)
Theorem VerifyScript_soft_fork {crypto : CryptoOps} f f' checker scriptSig scriptPubKey :
  Z.land f f' = f ->
  flag f SCRIPT_ENABLE_DIP0020_OPCODES = flag f' SCRIPT_ENABLE_DIP0020_OPCODES ->
  (flag f SCRIPT_VERIFY_CLEANSTACK = true -> flag f SCRIPT_VERIFY_P2SH = true) ->
  VerifyScript f' checker scriptSig scriptPubKey = Ok tt ->
  VerifyScript f checker scriptSig scriptPubKey = Ok tt.
Proof. intros H1 H2 H3 H. by eapply VerifyScript_le. Qed.

Lemma VerifyScript_soft_fork_witness :
  VerifyScript (crypto := sum_crypto) 0 BaseSignatureChecker [0x51] [0x51; 0x87] = Ok tt.
Proof.
  apply (VerifyScript_soft_fork (crypto := sum_crypto) 0 0x141); reflexivity || discriminate.
Defined.

(** SCRIPT_ENABLE_DIP0020_OPCODES is not one: there are scripts that verify only with it. *)
Theorem DIP0020_is_not_a_soft_fork {crypto : CryptoOps} checker :
  VerifyScript SCRIPT_ENABLE_DIP0020_OPCODES checker [0x51; 0x51] [0x7e] = Ok tt /\
  VerifyScript 0 checker [0x51; 0x51] [0x7e] = Err SCRIPT_ERR_DISABLED_OPCODE.
Proof. split; reflexivity. Qed.
