(* ===== verification/ArithUint256.v ===== *)
(** * 256-bit unsigned arithmetic

    Models src/src/arith_uint256.h and src/src/arith_uint256.cpp at base_uint<256>: a number is its
    array [pn] of eight 32-bit limbs, the least significant first, and the operators are the loops of
    the source over that array, with the widths of the intermediate values written out.  [lval] is the
    number an array stands for, and every operator is related to the operation on [Z].  The conversion
    to double and the hexadecimal text format are not modelled. *)

From stdpp Require Import base list numbers.
From S2P Require Import Prelude Script.

Open Scope Z_scope.

Definition WIDTH : nat := 8.
Definition LIMB : Z := 2 ^ 32.
#[global] Arguments LIMB : simpl never.

(** ** Constructors and bitwise operators *)

Definition uint_zero : list Z := replicate WIDTH 0.

(** [base_uint(uint64_t b)] and [operator=(uint64_t b)]. *)
Definition of_u64 (b : Z) : list Z := u32 b :: u32 (Z.shiftr b 32) :: replicate (WIDTH - 2) 0.

Definition uint_not (pn : list Z) : list Z := map (fun x => u32 (Z.lnot x)) pn.

Definition uint_and (a b : list Z) : list Z := zip_with Z.land a b.
Definition uint_or (a b : list Z) : list Z := zip_with Z.lor a b.
Definition uint_xor (a b : list Z) : list Z := zip_with Z.lxor a b.

Definition GetLow64 (pn : list Z) : Z := Z.lor (vget pn 0) (Z.shiftl (vget pn 1) 32).

(** ** Addition and subtraction *)

(** [operator++]: [while (i < WIDTH && ++pn[i] == 0) i++]. *)
Fixpoint uint_inc (pn : list Z) : list Z :=
  match pn with
  | [] => []
  | x :: pn => let x := u32 (x + 1) in if x =? 0 then x :: uint_inc pn else x :: pn
  end.

(** [operator--]: the borrow stops at the first limb that does not wrap. *)
Fixpoint uint_dec (pn : list Z) : list Z :=
  match pn with
  | [] => []
  | x :: pn => let x := u32 (x - 1) in if x =? LIMB - 1 then x :: uint_dec pn else x :: pn
  end.

Definition uint_neg (pn : list Z) : list Z := uint_inc (uint_not pn).

(** The loop of [operator+=] from some limb on. *)
Fixpoint add_loop (carry : Z) (a b : list Z) : list Z :=
  match a, b with
  | x :: a, y :: b =>
      let n := u64 (carry + x + y) in
      Z.land n 0xffffffff :: add_loop (Z.shiftr n 32) a b
  | _, _ => []
  end.

Definition uint_add (a b : list Z) : list Z := add_loop 0 a b.
Definition uint_sub (a b : list Z) : list Z := uint_add a (uint_neg b).

(** ** Multiplication *)

(** [operator*=(uint32_t b32)]. *)
Fixpoint mul32_loop (carry b32 : Z) (pn : list Z) : list Z :=
  match pn with
  | [] => []
  | x :: pn =>
      let n := u64 (carry + u64 (b32 * x)) in
      Z.land n 0xffffffff :: mul32_loop (Z.shiftr n 32) b32 pn
  end.
Definition uint_mul32 (pn : list Z) (b32 : Z) : list Z := mul32_loop 0 b32 pn.

(** The inner loop of [operator*=(const base_uint& b)] for one limb [p] of [*this]: [a] is the
    accumulator from index [j] on, so the loop ends with it. *)
Fixpoint mul_inner (carry p : Z) (a b : list Z) : list Z :=
  match a, b with
  | x :: a, y :: b =>
      let n := u64 (carry + x + u64 (p * y)) in
      Z.land n 0xffffffff :: mul_inner (Z.shiftr n 32) p a b
  | _, _ => a
  end.

(** The outer loop: limb [j] of the accumulator is final once round [j] is over. *)
Fixpoint mul_outer (pn a b : list Z) : list Z :=
  match pn with
  | [] => a
  | p :: pn =>
      match mul_inner 0 p a b with
      | [] => []
      | x :: a => x :: mul_outer pn a b
      end
  end.

Definition uint_mul (pn b : list Z) : list Z := mul_outer pn uint_zero b.

(** ** Shifts *)

(** One round of the loop of [operator<<=], [k] limbs and [shift < 32] bits. *)
Definition shl_round (k : nat) (shift : Z) (a pn : list Z) (i : nat) : list Z :=
  let pn :=
    if (i + k + 1 <? WIDTH)%nat && negb (shift =? 0)
    then alter (fun x => Z.lor x (Z.shiftr (vget a i) (32 - shift))) (i + k + 1)%nat pn else pn in
  if (i + k <? WIDTH)%nat
  then alter (fun x => Z.lor x (u32 (Z.shiftl (vget a i) shift))) (i + k)%nat pn else pn.

Definition uint_shl (a : list Z) (shift : Z) : list Z :=
  fold_left (shl_round (Z.to_nat (shift / 32)) (shift mod 32) a) (seq 0 WIDTH) uint_zero.

Definition shr_round (k : nat) (shift : Z) (a pn : list Z) (i : nat) : list Z :=
  let pn :=
    if (k + 1 <=? i)%nat && negb (shift =? 0)
    then alter (fun x => Z.lor x (u32 (Z.shiftl (vget a i) (32 - shift)))) (i - k - 1)%nat pn else pn in
  if (k <=? i)%nat
  then alter (fun x => Z.lor x (Z.shiftr (vget a i) shift)) (i - k)%nat pn else pn.

Definition uint_shr (a : list Z) (shift : Z) : list Z :=
  fold_left (shr_round (Z.to_nat (shift / 32)) (shift mod 32) a) (seq 0 WIDTH) uint_zero.

(** ** Comparison and bit length *)

Fixpoint compare_loop (a b : list Z) : Z :=
  match a, b with
  | x :: a, y :: b => if x <? y then -1 else if y <? x then 1 else compare_loop a b
  | _, _ => 0
  end.
Definition CompareTo (a b : list Z) : Z := compare_loop (rev a) (rev b).

Definition uint_ltb (a b : list Z) : bool := CompareTo a b <? 0.
Definition uint_leb (a b : list Z) : bool := CompareTo a b <=? 0.
Definition uint_gtb (a b : list Z) : bool := 0 <? CompareTo a b.
Definition uint_geb (a b : list Z) : bool := 0 <=? CompareTo a b.
Definition uint_eqb (a b : list Z) : bool := bool_decide (a = b).

Definition EqualTo (pn : list Z) (b : Z) : bool :=
  forallb (fun x => x =? 0) (drop 2 pn) && (vget pn 1 =? Z.shiftr b 32) &&
  (vget pn 0 =? Z.land b 0xffffffff).

(** The loop over [nbits] from 31 down to 1 at a non-zero limb. *)
Fixpoint limb_bits (nbits : nat) (x : Z) : Z :=
  match nbits with
  | O => 1
  | S n => if flag x (u32 (Z.shiftl 1 (Z.of_nat nbits))) then Z.of_nat nbits + 1 else limb_bits n x
  end.

Fixpoint bits_loop (pos : nat) (pn : list Z) : Z :=
  match pos with
  | O => 0
  | S pos =>
      if negb (vget pn pos =? 0) then 32 * Z.of_nat pos + limb_bits 31 (vget pn pos)
      else bits_loop pos pn
  end.
Definition uint_bits (pn : list Z) : Z := bits_loop WIDTH pn.

(** ** Division *)

(** The loop of [operator/=], for [shift] from [n - 1] down to 0. *)
Fixpoint div_loop (n : nat) (num div q : list Z) : list Z :=
  match n with
  | O => q
  | S shift =>
      let s := Z.of_nat shift in
      let '(num, q) :=
        if uint_geb num div
        then (uint_sub num div,
              alter (fun x => Z.lor x (u32 (Z.shiftl 1 (Z.land s 31)))) (Z.to_nat (s / 32)) q)
        else (num, q) in
      div_loop shift num (uint_shr div 1) q
  end.

(** [None]: uint_error (division by zero). *)
Definition uint_div (a b : list Z) : option (list Z) :=
  let num_bits := uint_bits a in
  let div_bits := uint_bits b in
  if div_bits =? 0 then None
  else if num_bits <? div_bits then Some uint_zero
  else
    let shift := num_bits - div_bits in
    Some (div_loop (Z.to_nat (shift + 1)) a (uint_shl b shift) uint_zero).

(** ** The compact format *)

(** [SetCompact]: the number, [*pfNegative] and [*pfOverflow]. *)
Definition SetCompact (nCompact : Z) : list Z * bool * bool :=
  let nSize := Z.shiftr nCompact 24 in
  let nWord := Z.land nCompact 0x007fffff in
  let '(nWord, r) :=
    if nSize <=? 3 then
      let nWord := Z.shiftr nWord (8 * (3 - nSize)) in (nWord, of_u64 nWord)
    else (nWord, uint_shl (of_u64 nWord) (8 * (nSize - 3))) in
  (r,
   negb (nWord =? 0) && flag nCompact 0x00800000,
   negb (nWord =? 0) && ((34 <? nSize) || ((0xff <? nWord) && (33 <? nSize)) ||
                         ((0xffff <? nWord) && (32 <? nSize)))).

Definition GetCompact (pn : list Z) (fNegative : bool) : res unit Z :=
  let nSize := (uint_bits pn + 7) / 8 in
  let nCompact :=
    if nSize <=? 3 then u32 (u64 (Z.shiftl (GetLow64 pn) (8 * (3 - nSize))))
    else u32 (GetLow64 (uint_shr pn (8 * (nSize - 3)))) in
  let '(nCompact, nSize) :=
    if flag nCompact 0x00800000 then (Z.shiftr nCompact 8, nSize + 1) else (nCompact, nSize) in
  if negb (Z.land nCompact (u32 (Z.lnot 0x007fffff)) =? 0) then Abort else
  if negb (nSize <? 256) then Abort else
  let nCompact := Z.lor nCompact (Z.shiftl nSize 24) in
  Ok (Z.lor nCompact (if fNegative && flag nCompact 0x007fffff then 0x00800000 else 0)).

(** ** Conversion from and to uint256 (32 bytes, the least significant first) *)

Definition ArithToUint256 (a : list Z) : list Z := flat_map WriteLE32 a.

Fixpoint UintToArith256_loop (n : nat) (a : list Z) : list Z :=
  match n with
  | O => []
  | S n => ReadLE32 a :: UintToArith256_loop n (drop 4 a)
  end.
Definition UintToArith256 (a : list Z) : list Z := UintToArith256_loop WIDTH a.

(** ** The number an array stands for *)

Fixpoint lval (l : list Z) : Z := match l with [] => 0 | x :: l => x + LIMB * lval l end.

Definition limb_ok (x : Z) : Prop := 0 <= x < LIMB.
Definition uint_ok (a : list Z) : Prop := length a = WIDTH /\ Forall limb_ok a.

(** ** Limb arithmetic *)

Lemma LIMB_pos : 0 < LIMB.
Proof. done. Qed.

Lemma LIMB_pow_pos n : 0 < LIMB ^ Z.of_nat n.
Proof. apply Z.pow_pos_nonneg; [done|lia]. Qed.

Lemma LIMB_pow_S n : LIMB ^ Z.of_nat (S n) = LIMB * LIMB ^ Z.of_nat n.
Proof. by rewrite Nat2Z.inj_succ, Z.pow_succ_r by lia. Qed.

Lemma land_limb n : Z.land n 0xffffffff = n mod LIMB.
Proof. change 0xffffffff with (Z.ones 32). by rewrite Z.land_ones. Qed.

Lemma shiftr_limb n : Z.shiftr n 32 = n / LIMB.
Proof. by rewrite Z.shiftr_div_pow2. Qed.

Lemma limb_ok_mod n : limb_ok (n mod LIMB).
Proof. apply Z.mod_pos_bound. done. Qed.

(** Splits a sum that fits into 64 bits into limb and carry. *)
Lemma split_limb n :
  0 <= n < LIMB * LIMB ->
  Z.land (u64 n) 0xffffffff = n mod LIMB /\ Z.shiftr (u64 n) 32 = n / LIMB /\
  n = n mod LIMB + LIMB * (n / LIMB) /\ limb_ok (n mod LIMB) /\ limb_ok (n / LIMB).
Proof.
  intros Hn. unfold u64. rewrite (Z.mod_small n) by done. rewrite land_limb, shiftr_limb.
  refine (conj eq_refl (conj eq_refl (conj _ (conj (limb_ok_mod n) _)))).
  - rewrite Z.add_comm. by apply Z.div_mod.
  - split; [apply Z.div_pos; [lia|done]|apply Z.div_lt_upper_bound; [done|lia]].
Qed.

Lemma lval_app l k : lval (l ++ k) = lval l + LIMB ^ zlen l * lval k.
Proof.
  unfold zlen. induction l as [|x l IH]; [simpl; lia|].
  cbn [app lval length]. rewrite IH, LIMB_pow_S. ring.
Qed.

Lemma lval_bound l : Forall limb_ok l -> 0 <= lval l < LIMB ^ zlen l.
Proof.
  unfold zlen. induction 1 as [|x l Hx Hl IH]; [simpl; lia|].
  cbn [lval length]. rewrite LIMB_pow_S. unfold limb_ok in Hx. nia.
Qed.

Lemma lval_zeros n : lval (replicate n 0) = 0.
Proof. induction n as [|n IH]; [done|]. simpl. rewrite IH. lia. Qed.

Lemma limbs_ok_zeros n : Forall limb_ok (replicate n 0).
Proof. apply Forall_replicate. by split. Qed.

Lemma lval_take_drop n l : lval l = lval (take n l) + LIMB ^ zlen (take n l) * lval (drop n l).
Proof. rewrite <- lval_app. by rewrite take_drop. Qed.

Lemma lval_take n l : Forall limb_ok l -> (n <= length l)%nat -> lval (take n l) = lval l mod LIMB ^ Z.of_nat n.
Proof.
  intros Hl Hn. rewrite (lval_take_drop n l). unfold zlen. rewrite length_take_le by done.
  rewrite (Z.mul_comm _ (lval (drop n l))), Z.mod_add by (pose proof (LIMB_pow_pos n); lia).
  symmetry. apply Z.mod_small. pose proof (lval_bound (take n l)) as H.
  unfold zlen in H. rewrite length_take_le in H by done. apply H. by apply Forall_take.
Qed.

(** An array determined up to a multiple of its modulus is determined. *)
Lemma lval_mod r x c :
  Forall limb_ok r -> lval r + LIMB ^ zlen r * c = x -> lval r = x mod LIMB ^ zlen r.
Proof.
  intros Hr <-. pose proof (lval_bound r Hr). rewrite (Z.mul_comm _ c), Z.mod_add by lia.
  symmetry. by apply Z.mod_small.
Qed.

Lemma add_loop_spec carry a b :
  Forall limb_ok a -> Forall limb_ok b -> length a = length b -> 0 <= carry <= 1 ->
  Forall limb_ok (add_loop carry a b) /\ length (add_loop carry a b) = length a /\
  exists c, lval (add_loop carry a b) + LIMB ^ zlen a * c = carry + lval a + lval b.
Proof.
  intros Ha. revert carry b; induction Ha as [|x a Hx Ha IH]; intros carry [|y b] Hb Hl Hc; try done.
  { simpl. split; [constructor|]. split; [done|]. exists carry. unfold zlen. simpl. lia. }
  apply Forall_cons in Hb as [Hy Hb]. cbn [add_loop]. unfold limb_ok in Hx, Hy.
  destruct (split_limb (carry + x + y)) as (-> & -> & Hdm & Hm & Hq); [unfold LIMB in *; lia|].
  destruct (IH ((carry + x + y) / LIMB) b) as (Hok & Hlen & c & Hc'); [done|by injection Hl| |].
  { split; [apply Hq|]. apply Z.lt_succ_r, Z.div_lt_upper_bound; [done|]. unfold LIMB in *. lia. }
  split; [by constructor|]. split; [cbn [length]; by rewrite Hlen|]. exists c.
  unfold zlen in *. cbn [lval length]. rewrite LIMB_pow_S. lia.
Qed.

Lemma mul32_loop_spec carry b32 a :
  Forall limb_ok a -> limb_ok carry -> limb_ok b32 ->
  Forall limb_ok (mul32_loop carry b32 a) /\ length (mul32_loop carry b32 a) = length a /\
  exists c, lval (mul32_loop carry b32 a) + LIMB ^ zlen a * c = carry + b32 * lval a.
Proof.
  intros Ha. revert carry; induction Ha as [|x a Hx Ha IH]; intros carry Hc Hb.
  { simpl. split; [constructor|]. split; [done|]. exists carry. unfold zlen. simpl. lia. }
  cbn [mul32_loop]. unfold limb_ok in *.
  assert (u64 (b32 * x) = b32 * x) as -> by (apply Z.mod_small; unfold LIMB in *; nia).
  destruct (split_limb (carry + b32 * x)) as (-> & -> & Hdm & Hm & Hq); [nia|].
  destruct (IH ((carry + b32 * x) / LIMB)) as (Hok & Hlen & c & Hc'); [done..|].
  split; [by constructor|]. split; [cbn [length]; by rewrite Hlen|]. exists c.
  unfold zlen in *. cbn [lval length]. rewrite LIMB_pow_S. nia.
Qed.

Lemma mul_inner_spec carry p a b :
  Forall limb_ok a -> Forall limb_ok b -> (length a <= length b)%nat -> limb_ok carry -> limb_ok p ->
  Forall limb_ok (mul_inner carry p a b) /\ length (mul_inner carry p a b) = length a /\
  exists c, lval (mul_inner carry p a b) + LIMB ^ zlen a * c = carry + lval a + p * lval b.
Proof.
  intros Ha. revert carry b; induction Ha as [|x a Hx Ha IH]; intros carry [|y b] Hb Hl Hc Hp;
    simpl in Hl; try lia; try done.
  { simpl. split; [constructor|]. split; [done|]. exists carry. unfold zlen. simpl. lia. }
  { simpl. split; [constructor|]. split; [done|]. eexists. unfold zlen. simpl. rewrite Z.mul_1_l. reflexivity. }
  apply Forall_cons in Hb as [Hy Hb]. cbn [mul_inner]. unfold limb_ok in *.
  assert (u64 (p * y) = p * y) as -> by (apply Z.mod_small; unfold LIMB in *; nia).
  destruct (split_limb (carry + x + p * y)) as (-> & -> & Hdm & Hm & Hq); [unfold LIMB in *; nia|].
  destruct (IH ((carry + x + p * y) / LIMB) b) as (Hok & Hlen & c & Hc'); [done|lia|done|done|].
  split; [by constructor|]. split; [cbn [length]; by rewrite Hlen|]. exists c.
  unfold zlen in *. cbn [lval length]. rewrite LIMB_pow_S. nia.
Qed.

Lemma mul_outer_spec pn a b :
  Forall limb_ok pn -> Forall limb_ok a -> Forall limb_ok b ->
  length pn = length a -> (length a <= length b)%nat ->
  Forall limb_ok (mul_outer pn a b) /\ length (mul_outer pn a b) = length a /\
  exists c, lval (mul_outer pn a b) + LIMB ^ zlen a * c = lval a + lval pn * lval b.
Proof.
  intros Hpn. revert a; induction Hpn as [|p pn Hp Hpn IH]; intros a Ha Hb Hl Hlb.
  { destruct a; [|done]. split; [constructor|]. split; [done|]. exists 0. unfold zlen. simpl. lia. }
  cbn [mul_outer].
  destruct (mul_inner_spec 0 p a b) as (Hok & Hlen & c & Hc); [done..|by split|done|].
  destruct (mul_inner 0 p a b) as [|x a']; [by rewrite <- Hl in Hlen|].
  apply Forall_cons in Hok as [Hx Ha']. simpl in Hl, Hlen.
  destruct (IH a') as (Hok' & Hlen' & c' & Hc'); [done|done|lia|lia|].
  split; [by constructor|]. split; [simpl; lia|]. exists (c + c').
  unfold zlen in *. rewrite <- Hlen in *. cbn [lval length] in *. rewrite LIMB_pow_S in *. nia.
Qed.

Lemma uint_inc_spec a :
  Forall limb_ok a -> Forall limb_ok (uint_inc a) /\ length (uint_inc a) = length a /\
  exists c, lval (uint_inc a) + LIMB ^ zlen a * c = lval a + 1.
Proof.
  induction 1 as [|x a Hx Ha IH]; [split; [constructor|]; split; [done|]; exists 1; unfold zlen; simpl; lia|].
  cbn [uint_inc]. pose proof (limb_ok_mod (x + 1)) as Hm. change (u32 (x + 1)) with ((x + 1) mod LIMB).
  unfold limb_ok in Hx. destruct (Z.eqb_spec ((x + 1) mod LIMB) 0) as [He|He].
  - destruct IH as (Hok & Hlen & c & Hc). split; [by constructor|]. split; [cbn [length]; by rewrite Hlen|].
    exists c. assert (x + 1 = LIMB).
    { destruct (Z.lt_ge_cases (x + 1) LIMB); [rewrite Z.mod_small in He by lia; lia|lia]. }
    unfold zlen in *. cbn [lval length]. rewrite LIMB_pow_S, He. nia.
  - split; [by constructor|]. split; [done|]. exists 0.
    assert (x + 1 < LIMB) by (destruct (Z.eq_dec (x + 1) LIMB) as [Heq|]; [rewrite Heq, Z.mod_same in He by done; done|lia]).
    cbn [lval]. rewrite Z.mod_small by lia. lia.
Qed.

Lemma uint_dec_spec a :
  Forall limb_ok a -> Forall limb_ok (uint_dec a) /\ length (uint_dec a) = length a /\
  exists c, lval (uint_dec a) + LIMB ^ zlen a * c = lval a - 1.
Proof.
  induction 1 as [|x a Hx Ha IH]; [split; [constructor|]; split; [done|]; exists (-1); unfold zlen; simpl; lia|].
  cbn [uint_dec]. pose proof (limb_ok_mod (x - 1)) as Hm. change (u32 (x - 1)) with ((x - 1) mod LIMB).
  unfold limb_ok in Hx. destruct (Z.eq_dec x 0) as [->|Hx0].
  - change ((0 - 1) mod LIMB) with (LIMB - 1). rewrite Z.eqb_refl.
    destruct IH as (Hok & Hlen & c & Hc). split; [by constructor|]. split; [cbn [length]; by rewrite Hlen|].
    exists c. unfold zlen in *. cbn [lval length]. rewrite LIMB_pow_S. nia.
  - rewrite (Z.mod_small (x - 1)) in * by lia. rewrite (proj2 (Z.eqb_neq _ _)) by lia.
    split; [by constructor|]. split; [done|]. exists 0. cbn [lval]. lia.
Qed.

Lemma uint_not_spec a :
  Forall limb_ok a -> Forall limb_ok (uint_not a) /\ length (uint_not a) = length a /\
  lval (uint_not a) = LIMB ^ zlen a - 1 - lval a.
Proof.
  induction 1 as [|x a Hx Ha (Hok & Hlen & Hv)]; [done|]. cbn [uint_not map]. fold (uint_not a).
  assert (u32 (Z.lnot x) = LIMB - 1 - x) as Hn.
  { unfold Z.lnot, u32, limb_ok in *. change (2 ^ 32) with LIMB.
    replace (Z.pred (- x)) with ((LIMB - 1 - x) + (-1) * LIMB) by lia.
    rewrite Z.mod_add by done. apply Z.mod_small. lia. }
  rewrite Hn. unfold limb_ok in Hx. split; [constructor; [unfold limb_ok; lia|done]|].
  split; [cbn [length]; by rewrite Hlen|]. unfold zlen in *. cbn [lval length]. rewrite Hv, LIMB_pow_S. lia.
Qed.

(** ** The operators on eight limbs *)

Definition MOD256 : Z := 2 ^ 256.

Lemma uint_zlen a : uint_ok a -> LIMB ^ zlen a = MOD256.
Proof. intros [H _]. unfold zlen. by rewrite H. Qed.

Lemma uint_bound a : uint_ok a -> 0 <= lval a < MOD256.
Proof. intros H. rewrite <- (uint_zlen a H). apply lval_bound, H. Qed.

(** Turns a loop specification into one of the operator. *)
Lemma uint_result r a x :
  uint_ok a ->
  Forall limb_ok r /\ length r = length a /\ (exists c, lval r + LIMB ^ zlen a * c = x) ->
  uint_ok r /\ lval r = x mod MOD256.
Proof.
  intros Ha (Hok & Hlen & c & Hc). assert (Hr : uint_ok r) by (split; [rewrite Hlen; apply Ha|done]).
  split; [done|]. rewrite <- (uint_zlen r Hr). apply lval_mod with c; [done|].
  by rewrite (uint_zlen r Hr), <- (uint_zlen a Ha).
Qed.

Lemma uint_zero_ok : uint_ok uint_zero.
Proof. split; [done|]. apply limbs_ok_zeros. Qed.

Lemma uint_add_spec a b :
  uint_ok a -> uint_ok b -> uint_ok (uint_add a b) /\ lval (uint_add a b) = (lval a + lval b) mod MOD256.
Proof.
  intros Ha Hb. apply (uint_result _ a); [done|]. destruct Ha, Hb.
  apply (add_loop_spec 0 a b); [done|done|congruence|lia].
Qed.

Lemma uint_not_val a :
  uint_ok a -> uint_ok (uint_not a) /\ lval (uint_not a) = MOD256 - 1 - lval a.
Proof.
  intros Ha. destruct (uint_not_spec a (proj2 Ha)) as (Hok & Hlen & Hv).
  rewrite (uint_zlen a Ha) in Hv. by split; [split; [rewrite Hlen; apply Ha|]|].
Qed.

Lemma uint_inc_val a : uint_ok a -> uint_ok (uint_inc a) /\ lval (uint_inc a) = (lval a + 1) mod MOD256.
Proof. intros Ha. apply (uint_result _ a); [done|]. apply uint_inc_spec, Ha. Qed.

Lemma uint_dec_val a : uint_ok a -> uint_ok (uint_dec a) /\ lval (uint_dec a) = (lval a - 1) mod MOD256.
Proof. intros Ha. apply (uint_result _ a); [done|]. apply uint_dec_spec, Ha. Qed.

Lemma uint_neg_val a : uint_ok a -> uint_ok (uint_neg a) /\ lval (uint_neg a) = (- lval a) mod MOD256.
Proof.
  intros Ha. destruct (uint_not_val a Ha) as [Hn Hv]. destruct (uint_inc_val _ Hn) as [Hi Hw].
  split; [done|]. unfold uint_neg. rewrite Hw. rewrite Hv. replace (MOD256 - 1 - lval a + 1) with (- lval a + 1 * MOD256) by lia.
  by rewrite Z.mod_add.
Qed.

Lemma uint_sub_val a b :
  uint_ok a -> uint_ok b -> uint_ok (uint_sub a b) /\ lval (uint_sub a b) = (lval a - lval b) mod MOD256.
Proof.
  intros Ha Hb. destruct (uint_neg_val b Hb) as [Hn Hv].
  destruct (uint_add_spec a (uint_neg b) Ha Hn) as [Hs Hw]. split; [done|].
  unfold uint_sub. by rewrite Hw, Hv, Z.add_mod_idemp_r by done.
Qed.

Lemma uint_mul32_val a b32 :
  uint_ok a -> limb_ok b32 ->
  uint_ok (uint_mul32 a b32) /\ lval (uint_mul32 a b32) = (b32 * lval a) mod MOD256.
Proof.
  intros Ha Hb. apply (uint_result _ a); [done|].
  apply (mul32_loop_spec 0 b32 a); [apply Ha|by split|done].
Qed.

Lemma uint_mul_val a b :
  uint_ok a -> uint_ok b -> uint_ok (uint_mul a b) /\ lval (uint_mul a b) = (lval a * lval b) mod MOD256.
Proof.
  intros [Hla Ha] [Hlb Hb]. apply (uint_result _ uint_zero); [apply uint_zero_ok|].
  pose proof (mul_outer_spec a uint_zero b Ha (limbs_ok_zeros _) Hb) as H.
  rewrite (lval_zeros WIDTH : lval uint_zero = 0), Z.add_0_l in H. apply H; [done|by rewrite Hlb].
Qed.

Lemma of_u64_ok b : 0 <= b < 2 ^ 64 -> uint_ok (of_u64 b) /\ lval (of_u64 b) = b.
Proof.
  intros Hb. unfold of_u64. assert (Hl : limb_ok (b / LIMB)).
  { split; [apply Z.div_pos; [lia|done]|]. apply Z.div_lt_upper_bound; [done|]. unfold LIMB. lia. }
  split.
  - split; [done|]. constructor; [apply limb_ok_mod|]. constructor; [apply limb_ok_mod|]. apply limbs_ok_zeros.
  - cbn [lval]. rewrite lval_zeros, shiftr_limb. unfold u32. change (2 ^ 32) with LIMB.
    rewrite (Z.mod_small (b / LIMB)) by done. pose proof (Z.div_mod b LIMB ltac:(done)). lia.
Qed.

(** ** Shifts *)

(** The limbs of a left shift by less than a limb, without the last carry. *)
Fixpoint shl_limbs (shift carry : Z) (l : list Z) : list Z :=
  match l with
  | [] => []
  | x :: l =>
      Z.lor carry (u32 (Z.shiftl x shift)) ::
      shl_limbs shift (if shift =? 0 then 0 else Z.shiftr x (32 - shift)) l
  end.

Fixpoint shr_limbs (shift : Z) (l : list Z) : list Z :=
  match l with
  | [] => []
  | x :: l =>
      (match l with
       | [] => Z.shiftr x shift
       | y :: _ => if shift =? 0 then Z.shiftr x shift
                   else Z.lor (Z.shiftr x shift) (u32 (Z.shiftl y (32 - shift)))
       end) :: shr_limbs shift l
  end.

(** The array loops compute them, [k] limbs further. *)
Lemma shl_fold k shift a :
  length a = WIDTH ->
  fold_left (shl_round k shift a) (seq 0 WIDTH) uint_zero =
  take WIDTH (replicate k 0 ++ shl_limbs shift 0 a).
Proof.
  intros Hl. do 9 (destruct a as [|? a]; [try done|]); [|done]. clear Hl.
  unfold shl_round.
  do 8 (destruct k as [|k]; [destruct (shift =? 0) eqn:Hs; simpl; rewrite ?Hs; simpl; rewrite ?Z.lor_0_l; reflexivity|]).
  assert (Hz : forall i, (i + S (S (S (S (S (S (S (S k))))))) <? WIDTH)%nat = false).
  { intros i. apply Nat.ltb_ge. unfold WIDTH. lia. }
  assert (Hz1 : forall i, (i + S (S (S (S (S (S (S (S k))))))) + 1 <? WIDTH)%nat = false).
  { intros i. apply Nat.ltb_ge. unfold WIDTH. lia. }
  cbn [seq fold_left WIDTH]. by rewrite !Hz, !Hz1.
Qed.

Lemma shr_fold k shift a :
  length a = WIDTH ->
  fold_left (shr_round k shift a) (seq 0 WIDTH) uint_zero =
  take WIDTH (shr_limbs shift (drop k a) ++ replicate k 0).
Proof.
  intros Hl. do 9 (destruct a as [|? a]; [try done|]); [|done]. clear Hl.
  unfold shr_round.
  do 8 (destruct k as [|k]; [destruct (shift =? 0) eqn:Hs; simpl; rewrite ?Hs; simpl; rewrite ?Z.lor_0_l; reflexivity|]).
  simpl. rewrite drop_nil. reflexivity.
Qed.

Lemma LIMB_split s : 0 <= s <= 32 -> LIMB = 2 ^ s * 2 ^ (32 - s).
Proof. intros H. rewrite <- Z.pow_add_r by lia. by replace (s + (32 - s)) with 32 by lia. Qed.

Lemma u32_shiftl x s :
  0 <= s <= 32 -> u32 (Z.shiftl x s) = Z.shiftl (x mod 2 ^ (32 - s)) s.
Proof.
  intros Hs. unfold u32. rewrite !Z.shiftl_mul_pow2 by lia. change (2 ^ 32) with LIMB.
  rewrite (LIMB_split s Hs), (Z.mul_comm x), (Z.mul_comm _ (2 ^ s)).
  rewrite Z.mul_mod_distr_l; [done| |]; apply Z.pow_nonzero; lia.
Qed.

Lemma shl_limbs_spec s carry l :
  0 <= s < 32 -> Forall limb_ok l -> 0 <= carry < 2 ^ s ->
  Forall limb_ok (shl_limbs s carry l) /\ length (shl_limbs s carry l) = length l /\
  exists c, lval (shl_limbs s carry l) + LIMB ^ zlen l * c = carry + 2 ^ s * lval l.
Proof.
  intros Hs Hl. revert carry; induction Hl as [|x l Hx Hl IH]; intros carry Hc.
  { split; [constructor|]. split; [done|]. exists carry. unfold zlen. simpl. lia. }
  cbn [shl_limbs]. set (P := 2 ^ (32 - s)). assert (HP : 0 < P) by (apply Z.pow_pos_nonneg; lia).
  assert (H2s : 0 < 2 ^ s) by (apply Z.pow_pos_nonneg; lia).
  assert (HL : LIMB = 2 ^ s * P) by (apply LIMB_split; lia). unfold limb_ok in Hx.
  pose proof (Z.mod_pos_bound x P HP) as Hm. pose proof (Z.div_mod x P ltac:(lia)) as Hdm.
  rewrite u32_shiftl, lor_shiftl_add by lia. fold P.
  replace (if s =? 0 then 0 else Z.shiftr x (32 - s)) with (x / P); cycle 1.
  { destruct (Z.eqb_spec s 0) as [->|]; [|by rewrite Z.shiftr_div_pow2 by lia].
    apply Z.div_small. unfold P, LIMB in *. simpl. lia. }
  destruct (IH (x / P)) as (Hok & Hlen & c & Hv).
  { split; [apply Z.div_pos; lia|]. apply Z.div_lt_upper_bound; lia. }
  split; [constructor; [unfold limb_ok; nia|done]|]. split; [cbn [length]; by rewrite Hlen|].
  exists c. unfold zlen in *. cbn [lval length]. rewrite LIMB_pow_S.
  replace (LIMB * LIMB ^ Z.of_nat (length l) * c) with (LIMB * (LIMB ^ Z.of_nat (length l) * c)) by ring.
  assert (LIMB * (x / P) = 2 ^ s * (P * (x / P))) as Hx2 by (rewrite HL; ring). nia.
Qed.

Lemma shr_limbs_spec s l :
  0 <= s < 32 -> Forall limb_ok l ->
  Forall limb_ok (shr_limbs s l) /\ length (shr_limbs s l) = length l /\
  lval (shr_limbs s l) = lval l / 2 ^ s.
Proof.
  intros Hs. assert (H2s : 0 < 2 ^ s) by (apply Z.pow_pos_nonneg; lia).
  set (P := 2 ^ (32 - s)). assert (HP : 0 < P) by (apply Z.pow_pos_nonneg; lia).
  assert (HL : LIMB = 2 ^ s * P) by (apply LIMB_split; lia).
  assert (Hsh : forall x, limb_ok x -> limb_ok (Z.shiftr x s)).
  { intros x [Hx1 Hx2]. rewrite Z.shiftr_div_pow2 by lia. split; [apply Z.div_pos; lia|].
    apply Z.div_lt_upper_bound; [lia|]. nia. }
  induction 1 as [|x l Hx Hl (Hok & Hlen & Hv)]; [by rewrite Z.div_0_l by lia|].
  assert (Hval : forall y t, l = y :: t ->
    Z.lor (Z.shiftr x s) (u32 (Z.shiftl y (32 - s))) = x / 2 ^ s + P * (y mod 2 ^ s)).
  { intros y t ->. rewrite u32_shiftl by lia. replace (32 - (32 - s)) with s by lia.
    rewrite lor_shiftl_add; [|lia|]; rewrite Z.shiftr_div_pow2 by lia; [done|]. fold P.
    unfold limb_ok in Hx. split; [apply Z.div_pos; lia|]. apply Z.div_lt_upper_bound; lia. }
  assert (Hhead : (match l with [] => Z.shiftr x s
     | y :: _ => if s =? 0 then Z.shiftr x s else Z.lor (Z.shiftr x s) (u32 (Z.shiftl y (32 - s))) end)
     = x / 2 ^ s + P * (lval l mod 2 ^ s)).
  { destruct l as [|y t]; [rewrite Z.shiftr_div_pow2 by lia; simpl; rewrite Z.mod_0_l by lia; lia|].
    cbn [lval]. rewrite (Z.mul_comm LIMB), HL, (Z.mul_comm (2 ^ s)), Z.mul_assoc, Z.mod_add by lia.
    destruct (Z.eqb_spec s 0) as [->|]; [|by erewrite Hval].
    rewrite Z.shiftr_0_r, Z.mod_1_r, Z.div_1_r. lia. }
  cbn [shr_limbs]. rewrite Hhead. pose proof (Z.mod_pos_bound (lval l) _ H2s) as Hm.
  assert (Hxs : 0 <= x / 2 ^ s < P).
  { unfold limb_ok in Hx. split; [apply Z.div_pos; lia|apply Z.div_lt_upper_bound; lia]. }
  split; [constructor; [unfold limb_ok; nia|done]|]. split; [cbn [length]; by rewrite Hlen|].
  cbn [lval]. rewrite Hv. pose proof (Z.div_mod (lval l) (2 ^ s) ltac:(lia)).
  rewrite HL. replace (2 ^ s * P * lval l) with (P * lval l * 2 ^ s) by ring.
  rewrite Z.div_add by lia. nia.
Qed.

Lemma uint_shl_val a shift :
  uint_ok a -> 0 <= shift ->
  uint_ok (uint_shl a shift) /\ lval (uint_shl a shift) = (lval a * 2 ^ shift) mod MOD256.
Proof.
  intros [Hl Ha] Hs. unfold uint_shl. rewrite shl_fold by done.
  pose proof (Z.mod_pos_bound shift 32 ltac:(lia)) as Hm. set (s := shift mod 32) in *.
  set (k := Z.to_nat (shift / 32)).
  assert (H2s : 0 < 2 ^ s) by (apply Z.pow_pos_nonneg; lia).
  destruct (shl_limbs_spec s 0 a Hm Ha ltac:(lia)) as (Hok & Hlen & c & Hv).
  assert (Hall : Forall limb_ok (replicate k 0 ++ shl_limbs s 0 a)).
  { apply Forall_app. split; [apply limbs_ok_zeros|done]. }
  assert (Hlong : (WIDTH <= length (replicate k 0%Z ++ shl_limbs s 0%Z a))%nat) by (rewrite length_app, Hlen, Hl; lia).
  split; [split; [by rewrite length_take_le|by apply Forall_take]|].
  rewrite lval_take by done. change (LIMB ^ Z.of_nat WIDTH) with MOD256.
  rewrite lval_app, lval_zeros. unfold zlen in *. rewrite length_replicate. rewrite Hl in Hv.
  change (LIMB ^ Z.of_nat WIDTH) with MOD256 in Hv.
  replace (2 ^ shift) with (LIMB ^ Z.of_nat k * 2 ^ s).
  - replace (lval a * (LIMB ^ Z.of_nat k * 2 ^ s))
      with (LIMB ^ Z.of_nat k * lval (shl_limbs s 0 a) + LIMB ^ Z.of_nat k * c * MOD256) by nia.
    by rewrite Z.mod_add.
  - unfold LIMB, k. rewrite <- Z.pow_mul_r, <- Z.pow_add_r by lia. f_equal.
    rewrite Z2Nat.id by (apply Z.div_pos; lia). unfold s. pose proof (Z.div_mod shift 32). lia.
Qed.

Lemma uint_shr_val a shift :
  uint_ok a -> 0 <= shift ->
  uint_ok (uint_shr a shift) /\ lval (uint_shr a shift) = lval a / 2 ^ shift.
Proof.
  intros [Hl Ha] Hs. unfold uint_shr. rewrite shr_fold by done.
  pose proof (Z.mod_pos_bound shift 32 ltac:(lia)) as Hm. set (s := shift mod 32) in *.
  set (k := Z.to_nat (shift / 32)).
  destruct (shr_limbs_spec s (drop k a) Hm (Forall_drop _ _ _ Ha)) as (Hok & Hlen & Hv).
  rewrite length_drop in Hlen.
  assert (Hall : Forall limb_ok (shr_limbs s (drop k a) ++ replicate k 0)).
  { apply Forall_app. split; [done|apply limbs_ok_zeros]. }
  assert (Hlong : (WIDTH <= length (shr_limbs s (drop k a) ++ replicate k 0%Z))%nat).
  { rewrite length_app, length_replicate, Hlen, Hl. lia. }
  split; [split; [by rewrite length_take_le|by apply Forall_take]|].
  rewrite lval_take by done. change (LIMB ^ Z.of_nat WIDTH) with MOD256.
  rewrite lval_app, lval_zeros, Z.mul_0_r, Z.add_0_r, Hv.
  assert (H2s : 0 < 2 ^ s) by (apply Z.pow_pos_nonneg; lia).
  assert (Hdrop : lval (drop k a) = lval a / LIMB ^ Z.of_nat k).
  { destruct (Nat.le_gt_cases k (length a)) as [Hk|Hk].
    - rewrite (lval_take_drop k a). unfold zlen. rewrite length_take_le by done.
      rewrite (Z.mul_comm _ (lval (drop k a))), Z.div_add by (pose proof (LIMB_pow_pos k); lia).
      rewrite Z.div_small; [done|]. pose proof (lval_bound (take k a) (Forall_take _ _ _ Ha)) as H.
      unfold zlen in H. by rewrite length_take_le in H.
    - rewrite drop_ge by lia. symmetry. apply Z.div_small. pose proof (lval_bound a Ha) as H.
      unfold zlen in H. split; [lia|]. eapply Z.lt_le_trans; [apply H|].
      apply Z.pow_le_mono_r; [done|lia]. }
  rewrite Hdrop, Z.div_div by (pose proof (LIMB_pow_pos k); lia).
  replace (LIMB ^ Z.of_nat k * 2 ^ s) with (2 ^ shift).
  - apply Z.mod_small. pose proof (uint_bound a (conj Hl Ha)).
    assert (0 < 2 ^ shift) by (apply Z.pow_pos_nonneg; lia).
    split; [apply Z.div_pos; lia|]. apply Z.div_lt_upper_bound; nia.
  - unfold LIMB, k. rewrite <- Z.pow_mul_r, <- Z.pow_add_r by lia. f_equal.
    rewrite Z2Nat.id by (apply Z.div_pos; lia). unfold s. pose proof (Z.div_mod shift 32). lia.
Qed.

(** ** Comparison *)

Definition sign_of (c : comparison) : Z := match c with Lt => -1 | Eq => 0 | Gt => 1 end.

Lemma CompareTo_spec a b :
  Forall limb_ok a -> Forall limb_ok b -> length a = length b ->
  CompareTo a b = sign_of (lval a ?= lval b).
Proof.
  unfold CompareTo. revert b. induction a as [|x a IH] using rev_ind; intros b Ha Hb Hl.
  { by destruct b. }
  destruct b as [|y b _] using rev_ind; [by rewrite length_app, Nat.add_1_r in Hl|].
  rewrite !length_app in Hl. simpl in Hl. assert (Hl' : length a = length b) by lia.
  apply Forall_app in Ha as [Ha Hx], Hb as [Hb Hy].
  rewrite !rev_unit. cbn [compare_loop]. rewrite !lval_app. cbn [lval]. rewrite !Z.mul_0_r, !Z.add_0_r.
  pose proof (lval_bound a Ha). pose proof (lval_bound b Hb).
  assert (zlen a = zlen b) as Hz by (unfold zlen; lia). rewrite Hz in *.
  repeat case_bool; bprop.
  - rewrite (proj2 (Z.compare_lt_iff _ _)); [done|nia].
  - rewrite (proj2 (Z.compare_gt_iff _ _)); [done|nia].
  - assert (x = y) as -> by lia. rewrite IH by done. f_equal.
    destruct (Z.compare_spec (lval a) (lval b)); symmetry;
      [apply Z.compare_eq_iff|apply Z.compare_lt_iff|apply Z.compare_gt_iff]; lia.
Qed.

Lemma uint_compare a b : uint_ok a -> uint_ok b -> CompareTo a b = sign_of (lval a ?= lval b).
Proof. intros [Hla Ha] [Hlb Hb]. apply CompareTo_spec; [done..|congruence]. Qed.

Lemma uint_ltb_val a b : uint_ok a -> uint_ok b -> uint_ltb a b = (lval a <? lval b).
Proof. intros. unfold uint_ltb. rewrite uint_compare by done. destruct (Z.compare_spec (lval a) (lval b)); simpl; lia. Qed.

Lemma uint_leb_val a b : uint_ok a -> uint_ok b -> uint_leb a b = (lval a <=? lval b).
Proof. intros. unfold uint_leb. rewrite uint_compare by done. destruct (Z.compare_spec (lval a) (lval b)); simpl; lia. Qed.

Lemma uint_gtb_val a b : uint_ok a -> uint_ok b -> uint_gtb a b = (lval b <? lval a).
Proof. intros. unfold uint_gtb. rewrite uint_compare by done. destruct (Z.compare_spec (lval a) (lval b)); simpl; lia. Qed.

Lemma uint_geb_val a b : uint_ok a -> uint_ok b -> uint_geb a b = (lval b <=? lval a).
Proof. intros. unfold uint_geb. rewrite uint_compare by done. destruct (Z.compare_spec (lval a) (lval b)); simpl; lia. Qed.

Lemma lval_inj a b :
  Forall limb_ok a -> Forall limb_ok b -> length a = length b -> lval a = lval b -> a = b.
Proof.
  intros Ha. revert b; induction Ha as [|x a Hx Ha IH]; intros [|y b] Hb Hl Hv; try done.
  apply Forall_cons in Hb as [Hy Hb]. cbn [lval] in Hv. unfold limb_ok in *.
  assert (lval a = lval b) as Hv' by (unfold LIMB in *; lia).
  f_equal; [lia|]. apply IH; [done| |done]. by injection Hl.
Qed.

(** ** Bit length *)

Definition bit_length (v : Z) : Z := if v =? 0 then 0 else Z.log2 v + 1.

Lemma flag_bit x n : 0 <= n < 32 -> flag x (u32 (Z.shiftl 1 n)) = Z.testbit x n.
Proof.
  intros Hn. unfold u32. rewrite Z.shiftl_1_l, Z.mod_small by (split; [lia|apply Z.pow_lt_mono_r; lia]).
  apply flag_pow2. lia.
Qed.

Lemma limb_bits_spec n x :
  (n < 32)%nat -> 0 < x < 2 ^ Z.succ (Z.of_nat n) -> limb_bits n x = Z.log2 x + 1.
Proof.
  induction n as [|n IH]; intros Hn Hx.
  { assert (x = 1) as -> by (simpl in Hx; lia). done. }
  cbn [limb_bits]. rewrite flag_bit by lia. destruct (Z.testbit x _) eqn:E.
  - f_equal. symmetry. apply Z.log2_unique; [lia|]. split; [|apply Hx].
    destruct (Z.le_gt_cases (2 ^ Z.of_nat (S n)) x) as [|Hlt]; [done|].
    by rewrite (testbit_small x (Z.of_nat (S n))) in E by lia.
  - apply IH; [lia|]. split; [lia|]. replace (Z.succ (Z.of_nat n)) with (Z.of_nat (S n)) by lia.
    destruct (Z.lt_ge_cases x (2 ^ Z.of_nat (S n))) as [|Hge]; [done|].
    rewrite <- (Z.log2_unique x (Z.of_nat (S n))) in E by lia.
    by rewrite Z.bit_log2 in E by lia.
Qed.

Lemma bits_loop_spec pos a :
  Forall limb_ok a -> (pos <= length a)%nat -> bits_loop pos a = bit_length (lval (take pos a)).
Proof.
  intros Ha. induction pos as [|pos IH]; intros Hp; [done|]. cbn [bits_loop].
  destruct (lookup_lt_is_Some_2 a pos ltac:(lia)) as [x Hx].
  rewrite (take_S_r a pos x Hx), lval_app.
  assert (vget a pos = x) as -> by (unfold vget; by rewrite Hx). cbn [lval].
  pose proof (Forall_lookup_1 _ _ _ _ Ha Hx) as Hok. unfold limb_ok in Hok.
  pose proof (lval_bound (take pos a) (Forall_take _ _ _ Ha)) as Hb. unfold zlen in *.
  rewrite length_take_le in * by lia. rewrite Z.mul_0_r, Z.add_0_r.
  destruct (Z.eqb_spec x 0) as [->|Hx0]; cbn [negb].
  { rewrite Z.mul_0_r, Z.add_0_r. apply IH. lia. }
  pose proof (LIMB_pow_pos pos) as HP. unfold bit_length.
  rewrite (proj2 (Z.eqb_neq (lval (take pos a) + LIMB ^ Z.of_nat pos * x) 0)) by nia.
  rewrite limb_bits_spec; [|lia|change (2 ^ Z.succ (Z.of_nat 31)) with LIMB; lia].
  rewrite (Z.log2_unique (lval (take pos a) + LIMB ^ Z.of_nat pos * x) (32 * Z.of_nat pos + Z.log2 x)); [lia| |].
  { pose proof (Z.log2_nonneg x). lia. }
  destruct (Z.log2_spec x ltac:(lia)) as [Hlo Hhi]. pose proof (Z.log2_nonneg x).
  assert (Hpw : LIMB ^ Z.of_nat pos = 2 ^ (32 * Z.of_nat pos)) by (unfold LIMB; by rewrite <- Z.pow_mul_r by lia).
  rewrite <- Z.add_succ_r, !Z.pow_add_r, <- Hpw by lia. nia.
Qed.

Lemma uint_bits_val a : uint_ok a -> uint_bits a = bit_length (lval a).
Proof.
  intros [Hl Ha]. unfold uint_bits. rewrite bits_loop_spec by (done || by rewrite Hl).
  by rewrite take_ge by (by rewrite Hl).
Qed.

(** ** Division *)

Lemma lval_alter f i a x :
  a !! i = Some x -> lval (alter f i a) = lval a + LIMB ^ Z.of_nat i * (f x - x).
Proof.
  revert i; induction a as [|y a IH]; intros [|i] H; try done.
  - injection H as ->. simpl. lia.
  - change (alter f (S i) (y :: a)) with (y :: alter f i a). cbn [lval].
    rewrite (IH i H), LIMB_pow_S. ring.
Qed.

(** Bit [s] of an array, and the limb it is in. *)
Lemma lval_testbit a i x s :
  Forall limb_ok a -> a !! i = Some x -> 0 <= s < 32 ->
  Z.testbit (lval a) (32 * Z.of_nat i + s) = Z.testbit x s.
Proof.
  intros Ha. revert i; induction Ha as [|y a Hy Ha IH]; intros [|i] H Hs; try done; cbn [lval].
  - injection H as ->. unfold LIMB. rewrite Z.mul_comm, <- Z.shiftl_mul_pow2, Z.add_comm by lia.
    rewrite Z.mul_0_r, Z.add_0_l.
    rewrite <- (Z.mod_pow2_bits_low (Z.shiftl (lval a) 32 + x) 32 s) by lia.
    rewrite Z.shiftl_mul_pow2, Z.add_comm, Z.mod_add, Z.mod_small by (done || lia). done.
  - rewrite <- (IH i H Hs). replace (32 * Z.of_nat (S i) + s) with ((32 * Z.of_nat i + s) + 32) by lia.
    rewrite <- Z.div_pow2_bits by lia. f_equal. change (2 ^ 32) with LIMB.
    rewrite (Z.mul_comm LIMB), Z.div_add by done. unfold limb_ok in Hy. rewrite Z.div_small by lia. lia.
Qed.

(** [pn[shift / 32] |= (1 << (shift & 31))] adds [2 ^ shift] when the bit is clear. *)
Lemma uint_setbit q s :
  uint_ok q -> 0 <= s < 256 -> Z.testbit (lval q) s = false ->
  let q' := alter (fun x => Z.lor x (u32 (Z.shiftl 1 (Z.land s 31)))) (Z.to_nat (s / 32)) q in
  uint_ok q' /\ lval q' = lval q + 2 ^ s.
Proof.
  intros [Hl Hq] Hs Hbit.
  assert (Z.land s 31 = s mod 32) as -> by (change 31 with (Z.ones 5); by rewrite Z.land_ones by lia).
  intros q'. pose proof (Z.mod_pos_bound s 32 ltac:(lia)) as Hm.
  pose proof (Z.div_mod s 32 ltac:(lia)) as Hdm. assert (0 <= s / 32 < 8) as Hd by lia.
  destruct (lookup_lt_is_Some_2 q (Z.to_nat (s / 32)) ltac:(rewrite Hl; unfold WIDTH; lia)) as [x Hx].
  pose proof (lval_testbit q _ x (s mod 32) Hq Hx Hm) as Ht.
  rewrite Z2Nat.id, <- Hdm, Hbit in Ht by lia.
  pose proof (Forall_lookup_1 _ _ _ _ Hq Hx) as Hok. unfold limb_ok in Hok.
  assert (Hp : 0 < 2 ^ (s mod 32) < LIMB).
  { split; [apply Z.pow_pos_nonneg; lia|]. apply Z.pow_lt_mono_r; lia. }
  assert (Hlor : Z.lor x (u32 (Z.shiftl 1 (s mod 32))) = x + 2 ^ (s mod 32)).
  { unfold u32. rewrite Z.shiftl_1_l, Z.mod_small by (unfold LIMB in Hp; lia).
    apply lor_disjoint_add, Z.bits_inj'. intros i Hi. rewrite Z.land_spec, Z.bits_0, Z.pow2_bits_eqb by lia.
    destruct (Z.eqb_spec (s mod 32) i) as [<-|]; [by rewrite <- Ht|by rewrite andb_false_r]. }
  assert (Hlt : x + 2 ^ (s mod 32) < LIMB).
  { rewrite <- Hlor. apply Z.log2_lt_cancel.
    destruct (Z.eq_dec (Z.log2 (Z.lor x (u32 (Z.shiftl 1 (s mod 32))))) 0) as [->|]; [done|].
    rewrite Z.log2_lor by (unfold u32; try lia; apply Z.mod_pos_bound; lia). change (Z.log2 LIMB) with 32.
    unfold u32. rewrite Z.shiftl_1_l, Z.mod_small, Z.log2_pow2 by (unfold LIMB in Hp; lia).
    apply Z.max_lub_lt; [|lia]. destruct (Z.eq_dec x 0) as [->|]; [done|]. apply Z.log2_lt_pow2; [lia|].
    unfold LIMB in Hok. lia. }
  split.
  - split; [unfold q'; by rewrite length_alter|]. apply Forall_alter; [done|].
    intros y Hy _. rewrite Hx in Hy. injection Hy as <-. rewrite Hlor. unfold limb_ok. lia.
  - unfold q'. rewrite (lval_alter _ _ _ x Hx), Hlor, Z2Nat.id by lia.
    replace (2 ^ s) with (LIMB ^ (s / 32) * 2 ^ (s mod 32)); [ring|].
    unfold LIMB. rewrite <- Z.pow_mul_r, <- Z.pow_add_r by lia. f_equal. lia.
Qed.

(** With [num < 2 div] the loop adds the quotient to [q], whose low bits are clear. *)
Lemma div_loop_spec n num div q B :
  uint_ok num -> uint_ok div -> uint_ok q -> 0 < B -> (n <= 256)%nat ->
  (n <> 0%nat -> lval div = B * 2 ^ (Z.of_nat n - 1)) ->
  lval num < B * 2 ^ Z.of_nat n -> (2 ^ Z.of_nat n | lval q) ->
  uint_ok (div_loop n num div q) /\ lval (div_loop n num div q) = lval q + lval num / B.
Proof.
  revert num div q; induction n as [|s IH]; intros num div q Hnum Hdiv Hq HB Hn Hd Hlt Hdvd.
  { simpl. split; [done|]. rewrite Z.div_small; [lia|]. pose proof (uint_bound num Hnum). simpl in Hlt. lia. }
  specialize (Hd ltac:(lia)). replace (Z.of_nat (S s) - 1) with (Z.of_nat s) in Hd by lia.
  rewrite Nat2Z.inj_succ, Z.pow_succ_r in Hlt, Hdvd by lia.
  set (P := 2 ^ Z.of_nat s) in *. assert (HP : 0 < P) by (apply Z.pow_pos_nonneg; lia).
  destruct (uint_shr_val div 1 Hdiv ltac:(lia)) as [Hdok Hdval].
  assert (Hdiv' : s <> 0%nat -> lval (uint_shr div 1) = B * 2 ^ (Z.of_nat s - 1)).
  { intros Hs. rewrite Hdval, Hd. unfold P. replace (Z.of_nat s) with (Z.succ (Z.of_nat s - 1)) at 1 by lia.
    rewrite Z.pow_succ_r, Z.mul_assoc, (Z.mul_comm B 2), <- Z.mul_assoc by lia.
    rewrite Z.mul_comm, Z.pow_1_r. by rewrite Z.div_mul. }
  pose proof (uint_bound num Hnum) as Hnb. destruct Hdvd as [m Hm].
  cbn [div_loop]. rewrite uint_geb_val by done. destruct (lval div <=? lval num) eqn:Hge; bprop.
  - destruct (uint_sub_val num div Hnum Hdiv) as [Hsok Hsv].
    rewrite Z.mod_small in Hsv by (pose proof (uint_bound div Hdiv); lia).
    destruct (uint_setbit q (Z.of_nat s) Hq ltac:(lia)) as [Hqok Hqv].
    { rewrite Hm. fold P. replace (m * (2 * P)) with (2 * m * P) by ring. unfold P.
      rewrite <- Z.shiftl_mul_pow2, Z.shiftl_spec, Z.sub_diag by lia. apply Z.testbit_even_0. }
    destruct (IH (uint_sub num div) (uint_shr div 1) _ Hsok Hdok Hqok HB ltac:(lia) Hdiv') as [Hok Hv].
    + rewrite Hsv, Hd. fold P. nia.
    + rewrite Hqv, Hm. fold P. exists (2 * m + 1). ring.
    + split; [done|]. rewrite Hv, Hqv, Hsv, Hd. fold P.
      replace (lval num) with (lval num - B * P + P * B) at 2 by ring.
      rewrite Z.div_add by lia. lia.
  - apply IH; try done; try lia. rewrite Hm. fold P. exists (2 * m). ring.
Qed.

Lemma uint_div_val a b :
  uint_ok a -> uint_ok b ->
  if lval b =? 0 then uint_div a b = None
  else exists q, uint_div a b = Some q /\ uint_ok q /\ lval q = lval a / lval b.
Proof.
  intros Ha Hb. unfold uint_div. rewrite !uint_bits_val by done.
  pose proof (uint_bound a Ha) as Hab. pose proof (uint_bound b Hb) as Hbb.
  unfold bit_length at 1. destruct (Z.eqb_spec (lval b) 0) as [Hz|Hnz]; [done|].
  assert (Hlb : bit_length (lval b) = Z.log2 (lval b) + 1) by (unfold bit_length; by rewrite (proj2 (Z.eqb_neq _ _) Hnz)).
  pose proof (Z.log2_nonneg (lval b)). rewrite (proj2 (Z.eqb_neq _ 0)) by lia.
  destruct (Z.log2_spec (lval b) ltac:(lia)) as [Hlo Hhi].
  destruct (Z.eq_dec (lval a) 0) as [Ha0|Ha0].
  { unfold bit_length at 1. rewrite Ha0. rewrite (proj2 (Z.ltb_lt _ _)) by (simpl; lia).
    exists uint_zero. split; [done|]. split; [apply uint_zero_ok|]. by rewrite Z.div_0_l. }
  assert (Hla : bit_length (lval a) = Z.log2 (lval a) + 1) by (unfold bit_length; by rewrite (proj2 (Z.eqb_neq _ _) Ha0)).
  destruct (Z.log2_spec (lval a) ltac:(lia)) as [Hlo' Hhi']. rewrite Hla, Hlb. case_bool; bprop.
  { exists uint_zero. split; [done|]. split; [apply uint_zero_ok|].
    rewrite Z.div_small; [apply lval_zeros|]. split; [lia|]. apply Z.log2_lt_cancel. lia. }
  set (shift := Z.log2 (lval a) + 1 - (Z.log2 (lval b) + 1)).
  assert (Hlog : Z.log2 (lval a) < 256) by (apply Z.log2_lt_pow2; [lia|apply Hab]).
  destruct (uint_shl_val b shift Hb ltac:(lia)) as [Hsok Hsv].
  assert (Hsmall : lval b * 2 ^ shift < MOD256).
  { apply Z.lt_le_trans with (2 ^ Z.succ (Z.log2 (lval b)) * 2 ^ shift).
    - apply Z.mul_lt_mono_pos_r; [apply Z.pow_pos_nonneg; lia|done].
    - rewrite <- Z.pow_add_r by lia. apply Z.pow_le_mono_r; lia. }
  assert (0 < 2 ^ shift) by (apply Z.pow_pos_nonneg; lia).
  rewrite Z.mod_small in Hsv by nia.
  destruct (div_loop_spec (Z.to_nat (shift + 1)) a (uint_shl b shift) uint_zero (lval b)) as [Hok Hv];
    try done; try lia.
  - apply uint_zero_ok.
  - intros _. rewrite Hsv. do 2 f_equal. lia.
  - rewrite Z2Nat.id by lia. apply Z.lt_le_trans with (2 ^ Z.succ (Z.log2 (lval a))); [done|].
    apply Z.le_trans with (2 ^ Z.log2 (lval b) * 2 ^ (shift + 1)).
    + rewrite <- Z.pow_add_r by lia. apply Z.pow_le_mono_r; lia.
    + apply Z.mul_le_mono_nonneg_r; [apply Z.pow_nonneg; lia|done].
  - rewrite (lval_zeros WIDTH : lval uint_zero = 0). apply Z.divide_0_r.
  - eexists. split; [done|]. split; [done|]. by rewrite Hv, (lval_zeros WIDTH : lval uint_zero = 0).
Qed.

(** ** Main properties *)

(** The operators on eight 32-bit limbs are arithmetic modulo 2^256: addition, subtraction,
    negation, both multiplications and the shifts, and the comparison is that of the numbers. *)
Theorem uint256_arithmetic a b b32 shift :
  uint_ok a -> uint_ok b -> limb_ok b32 -> 0 <= shift ->
  lval (uint_add a b) = (lval a + lval b) mod MOD256 /\
  lval (uint_sub a b) = (lval a - lval b) mod MOD256 /\
  lval (uint_neg a) = (- lval a) mod MOD256 /\
  lval (uint_mul a b) = (lval a * lval b) mod MOD256 /\
  lval (uint_mul32 a b32) = (b32 * lval a) mod MOD256 /\
  lval (uint_shl a shift) = (lval a * 2 ^ shift) mod MOD256 /\
  lval (uint_shr a shift) = lval a / 2 ^ shift /\
  CompareTo a b = sign_of (lval a ?= lval b).
Proof.
  intros Ha Hb H32 Hs. refine (conj _ (conj _ (conj _ (conj _ (conj _ (conj _ (conj _ _))))))).
  - by apply uint_add_spec.
  - by apply uint_sub_val.
  - by apply uint_neg_val.
  - by apply uint_mul_val.
  - by apply uint_mul32_val.
  - by apply uint_shl_val.
  - by apply uint_shr_val.
  - by apply uint_compare.
Qed.

Lemma uint256_arithmetic_witness :
  let a := of_u64 5 in let b := of_u64 7 in
  lval (uint_add a b) = (lval a + lval b) mod MOD256 /\
  lval (uint_sub a b) = (lval a - lval b) mod MOD256 /\
  lval (uint_neg a) = (- lval a) mod MOD256 /\
  lval (uint_mul a b) = (lval a * lval b) mod MOD256 /\
  lval (uint_mul32 a 9) = (9 * lval a) mod MOD256 /\
  lval (uint_shl a 40) = (lval a * 2 ^ 40) mod MOD256 /\
  lval (uint_shr a 40) = lval a / 2 ^ 40 /\
  CompareTo a b = sign_of (lval a ?= lval b).
Proof.
  intros a b. apply uint256_arithmetic; [apply of_u64_ok; lia|apply of_u64_ok; lia|by split|lia].
Defined.

(** [operator/=] returns the quotient of the numbers, and throws exactly for a zero divisor. *)
Theorem uint256_division a b :
  uint_ok a -> uint_ok b ->
  if lval b =? 0 then uint_div a b = None
  else exists q, uint_div a b = Some q /\ uint_ok q /\ lval q = lval a / lval b.
Proof. apply uint_div_val. Qed.

Lemma uint256_division_witness :
  exists q, uint_div (of_u64 (2 ^ 40)) (of_u64 3) = Some q /\ uint_ok q /\ lval q = lval (of_u64 (2 ^ 40)) / lval (of_u64 3).
Proof. apply (uint256_division (of_u64 (2 ^ 40)) (of_u64 3)); apply of_u64_ok; lia. Defined.
