(* ===== verification/ArithCompact.v ===== *)
(** * The compact format of targets

    [SetCompact] and [GetCompact] of src/src/arith_uint256.cpp, related to the number
    mantissa * 256^(exponent - 3) that the comment of arith_uint256.h describes. *)

From stdpp Require Import base list numbers.
From S2P Require Import Prelude Script ArithUint256.

Open Scope Z_scope.

(** The value of a compact number, sign bit apart. *)
Definition compact_val (c : Z) : Z :=
  let n := c / 2 ^ 24 in
  let m := c mod 2 ^ 23 in
  if n <=? 3 then m / 256 ^ (3 - n) else m * 256 ^ (n - 3).

Lemma pow256 k : 0 <= k -> 2 ^ (8 * k) = 256 ^ k.
Proof. intros. change 256 with (2 ^ 8). by rewrite <- Z.pow_mul_r by lia. Qed.

Lemma pow256_pos k : 0 <= k -> 0 < 256 ^ k.
Proof. intros. apply Z.pow_pos_nonneg; lia. Qed.

Lemma flag_sign c : flag c 0x00800000 = Z.testbit c 23.
Proof. by rewrite <- (flag_bit c 23) by lia. Qed.

Lemma pow256_32 : 256 ^ 32 = MOD256.
Proof. done. Qed.

(** [pfOverflow] is set exactly when the value does not fit. *)
Lemma overflow_iff n m :
  0 <= n < 256 -> 0 <= m < 2 ^ 23 ->
  (let nWord := if n <=? 3 then m / 256 ^ (3 - n) else m in
   negb (nWord =? 0) && ((34 <? n) || ((0xff <? nWord) && (33 <? n)) || ((0xffff <? nWord) && (32 <? n)))) =
  (MOD256 <=? if n <=? 3 then m / 256 ^ (3 - n) else m * 256 ^ (n - 3)).
Proof.
  intros Hn Hm. destruct (n <=? 3) eqn:Hs; bprop; simpl.
  - rewrite (proj2 (Z.ltb_ge 34 n)), (proj2 (Z.ltb_ge 33 n)), (proj2 (Z.ltb_ge 32 n)) by lia.
    rewrite !andb_false_r. symmetry. apply Z.leb_gt. pose proof (pow256_pos (3 - n) ltac:(lia)).
    apply Z.le_lt_trans with m; [apply Z.div_le_upper_bound; nia|]. unfold MOD256. lia.
  - assert (n <= 32 \/ n = 33 \/ n = 34 \/ 35 <= n) as [H|[->|[->|H]]] by lia.
    + rewrite (proj2 (Z.ltb_ge 34 n)), (proj2 (Z.ltb_ge 33 n)), (proj2 (Z.ltb_ge 32 n)) by lia.
      rewrite !andb_false_r. symmetry. apply Z.leb_gt.
      apply Z.le_lt_trans with (m * 256 ^ 29); [|unfold MOD256; simpl; lia].
      apply Z.mul_le_mono_nonneg_l; [lia|]. apply Z.pow_le_mono_r; lia.
    + unfold MOD256. simpl. lia.
    + unfold MOD256. simpl. lia.
    + rewrite (proj2 (Z.ltb_lt 34 n)) by lia. simpl. rewrite andb_true_r.
      destruct (Z.eqb_spec m 0) as [->|]; simpl; [by rewrite Z.mul_0_l|]. symmetry. apply Z.leb_le.
      apply Z.le_trans with (1 * 256 ^ 32); [unfold MOD256; simpl; lia|].
      apply Z.mul_le_mono_nonneg; try lia. apply Z.pow_le_mono_r; lia.
Qed.

Lemma SetCompact_val c :
  0 <= c < 2 ^ 32 ->
  let '(r, fNegative, fOverflow) := SetCompact c in
  uint_ok r /\ lval r = compact_val c mod MOD256 /\ fOverflow = (MOD256 <=? compact_val c) /\
  (Z.testbit c 23 = false -> fNegative = false).
Proof.
  intros Hc. unfold SetCompact. rewrite Z.shiftr_div_pow2 by lia.
  change 0x007fffff with (Z.ones 23). rewrite Z.land_ones by lia.
  unfold compact_val. set (n := c / 2 ^ 24). set (m := c mod 2 ^ 23).
  assert (Hn : 0 <= n < 256) by (unfold n; split; [apply Z.div_pos; lia|apply Z.div_lt_upper_bound; lia]).
  assert (Hm : 0 <= m < 2 ^ 23) by (apply Z.mod_pos_bound; lia).
  pose proof (overflow_iff n m Hn Hm) as Hov. simpl in Hov.
  destruct (n <=? 3) eqn:Hs; bprop; rewrite flag_sign.
  - rewrite Z.shiftr_div_pow2, pow256 by lia.
    pose proof (pow256_pos (3 - n) ltac:(lia)).
    assert (0 <= m / 256 ^ (3 - n) <= m).
    { split; [apply Z.div_pos; lia|]. apply Z.div_le_upper_bound; nia. }
    destruct (of_u64_ok (m / 256 ^ (3 - n))) as [Hok Hv]; [lia|].
    split; [done|]. split; [rewrite Hv; symmetry; apply Z.mod_small; unfold MOD256; lia|].
    split; [exact Hov|]. intros ->. by rewrite andb_false_r.
  - destruct (of_u64_ok m) as [Hok Hv]; [lia|].
    destruct (uint_shl_val (of_u64 m) (8 * (n - 3)) Hok ltac:(lia)) as [Hsok Hsv].
    split; [done|]. rewrite pow256 in Hsv by lia. split; [by rewrite Hsv, Hv|].
    split; [exact Hov|]. intros ->. by rewrite andb_false_r.
Qed.

(** ** Encoding *)

(** Exponent and mantissa that [GetCompact] chooses for a value. *)
Definition byte_length (v : Z) : Z := (bit_length v + 7) / 8.

Definition top_bytes (v : Z) : Z :=
  if byte_length v <=? 3 then v * 256 ^ (3 - byte_length v) else v / 256 ^ (byte_length v - 3).

Definition compact_parts (v : Z) : Z * Z :=
  if 2 ^ 23 <=? top_bytes v then (top_bytes v / 256, byte_length v + 1) else (top_bytes v, byte_length v).

Lemma byte_length_spec v k :
  0 < v -> 1 <= k -> 256 ^ (k - 1) <= v < 256 ^ k -> byte_length v = k.
Proof.
  intros Hv Hk H. unfold byte_length, bit_length. rewrite (proj2 (Z.eqb_neq v 0)) by lia.
  rewrite <- !pow256 in H by lia.
  assert (8 * (k - 1) <= Z.log2 v) by (apply Z.log2_le_pow2; lia).
  assert (Z.log2 v < 8 * k) by (apply Z.log2_lt_pow2; lia).
  symmetry. apply Z.div_unique with (Z.log2 v - 8 * (k - 1)); lia.
Qed.

Lemma byte_length_bounds v :
  0 < v -> 1 <= byte_length v /\ 256 ^ (byte_length v - 1) <= v < 256 ^ byte_length v.
Proof.
  intros Hv. pose proof (Z.log2_nonneg v). destruct (Z.log2_spec v Hv) as [Hlo Hhi].
  set (k := Z.log2 v / 8 + 1). assert (Hk : 1 <= k) by (unfold k; pose proof (Z.div_pos (Z.log2 v) 8); lia).
  pose proof (Z.div_mod (Z.log2 v) 8 ltac:(lia)). pose proof (Z.mod_pos_bound (Z.log2 v) 8 ltac:(lia)).
  assert (Hb : 256 ^ (k - 1) <= v < 256 ^ k).
  { rewrite <- !pow256 by lia. split.
    - eapply Z.le_trans; [|apply Hlo]. apply Z.pow_le_mono_r; lia.
    - eapply Z.lt_le_trans; [apply Hhi|]. apply Z.pow_le_mono_r; lia. }
  by rewrite (byte_length_spec v k).
Qed.

Lemma top_bytes_bounds v : 0 < v -> 2 ^ 16 <= top_bytes v < 2 ^ 24.
Proof.
  intros Hv. destruct (byte_length_bounds v Hv) as [Hk Hb]. unfold top_bytes.
  set (k := byte_length v) in *. change (2 ^ 16) with (256 ^ 2). change (2 ^ 24) with (256 ^ 3).
  case_bool; bprop.
  - replace (256 ^ 2) with (256 ^ (k - 1) * 256 ^ (3 - k)) by (rewrite <- Z.pow_add_r by lia; f_equal; lia).
    replace (256 ^ 3) with (256 ^ k * 256 ^ (3 - k)) by (rewrite <- Z.pow_add_r by lia; f_equal; lia).
    pose proof (pow256_pos (3 - k) ltac:(lia)). nia.
  - pose proof (pow256_pos (k - 3) ltac:(lia)). split.
    + apply Z.div_le_lower_bound; [lia|]. rewrite <- Z.pow_add_r by lia.
      replace (k - 3 + 2) with (k - 1) by lia. lia.
    + apply Z.div_lt_upper_bound; [lia|]. rewrite <- Z.pow_add_r by lia.
      replace (k - 3 + 3) with k by lia. lia.
Qed.

Lemma compact_parts_bounds v :
  0 <= v < MOD256 -> let '(m, n) := compact_parts v in 0 <= m < 2 ^ 23 /\ 0 <= n <= 33 /\
  (0 < v -> 2 ^ 15 <= m /\ 1 <= n).
Proof.
  intros Hv. destruct (Z.eq_dec v 0) as [->|Hz]; [done|].
  pose proof (top_bytes_bounds v ltac:(lia)). destruct (byte_length_bounds v ltac:(lia)) as [Hk Hb].
  assert (byte_length v <= 32).
  { destruct (Z.le_gt_cases (byte_length v) 32) as [|Hgt]; [done|].
    pose proof (Z.pow_le_mono_r 256 32 (byte_length v - 1) ltac:(lia) ltac:(lia)) as Hp.
    rewrite pow256_32 in Hp. lia. }
  unfold compact_parts. case_bool; bprop; [|lia].
  pose proof (Z.div_mod (top_bytes v) 256 ltac:(lia)). pose proof (Z.mod_pos_bound (top_bytes v) 256 ltac:(lia)). lia.
Qed.

Lemma GetLow64_val a : uint_ok a -> GetLow64 a = lval a mod 2 ^ 64.
Proof.
  intros [Hl Ha]. destruct a as [|x [|y a]]; [done..|].
  apply Forall_cons in Ha as [Hx Ha]. apply Forall_cons in Ha as [Hy Ha].
  unfold GetLow64, limb_ok, LIMB in *. change (vget (x :: y :: a) 0) with x.
  change (vget (x :: y :: a) 1) with y. rewrite lor_shiftl_add by lia. cbn [lval].
  unfold LIMB. replace (x + 2 ^ 32 * (y + 2 ^ 32 * lval a)) with (x + 2 ^ 32 * y + lval a * 2 ^ 64) by ring.
  rewrite Z.mod_add by lia. symmetry. apply Z.mod_small. lia.
Qed.

Lemma land_low m k : 0 <= k -> 0 <= m < 2 ^ k -> Z.land m (2 ^ 32 - 2 ^ k) = 0 \/ 32 < k.
Proof.
  intros Hk Hm. destruct (Z.le_gt_cases k 32) as [Hle|]; [left|by right].
  replace (2 ^ 32 - 2 ^ k) with (Z.shiftl (2 ^ (32 - k) - 1) k).
  - apply Z.bits_inj'. intros i Hi. rewrite Z.land_spec, Z.bits_0.
    destruct (Z.lt_ge_cases i k); [by rewrite Z.shiftl_spec_low, andb_false_r by lia|].
    by rewrite (testbit_small m k) by lia.
  - rewrite Z.shiftl_mul_pow2, Z.mul_sub_distr_r, <- Z.pow_add_r by lia.
    replace (32 - k + k) with 32 by lia. lia.
Qed.

Lemma GetCompact_val a :
  uint_ok a -> GetCompact a false = Ok (let '(m, n) := compact_parts (lval a) in m + 2 ^ 24 * n).
Proof.
  intros Ha. pose proof (uint_bound a Ha) as Hb. unfold GetCompact. rewrite uint_bits_val by done.
  change ((bit_length (lval a) + 7) / 8) with (byte_length (lval a)).
  set (nC := if byte_length (lval a) <=? 3 then _ else _).
  assert (HnC : nC = top_bytes (lval a)).
  { unfold nC, top_bytes. destruct (Z.eq_dec (lval a) 0) as [Hz|Hz].
    { rewrite Hz. change (byte_length 0 <=? 3) with true. cbn iota.
      rewrite GetLow64_val, Hz by done. done. }
    pose proof (top_bytes_bounds (lval a) ltac:(lia)) as Ht. unfold top_bytes in Ht.
    destruct (byte_length_bounds (lval a) ltac:(lia)) as [Hk Hv].
    destruct (byte_length (lval a) <=? 3) eqn:Hs; bprop.
    - assert (lval a < 256 ^ 3) by (eapply Z.lt_le_trans; [apply Hv|]; apply Z.pow_le_mono_r; lia).
      rewrite GetLow64_val by done. rewrite (Z.mod_small (lval a)) by (simpl in *; lia).
      rewrite Z.shiftl_mul_pow2, pow256 by lia. unfold u32, u64.
      by rewrite (Z.mod_small _ (2 ^ 64)), Z.mod_small by lia.
    - destruct (uint_shr_val a (8 * (byte_length (lval a) - 3)) Ha ltac:(lia)) as [Hok Hsv].
      rewrite GetLow64_val, Hsv, pow256 by (done || lia). unfold u32.
      rewrite (Z.mod_small _ (2 ^ 64)), Z.mod_small by lia. done. }
  rewrite HnC. clear nC HnC. pose proof (compact_parts_bounds (lval a) Hb) as Hparts.
  assert (Ht : flag (top_bytes (lval a)) 0x00800000 = (2 ^ 23 <=? top_bytes (lval a))).
  { rewrite flag_sign. destruct (Z.eq_dec (lval a) 0) as [->|]; [done|].
    pose proof (top_bytes_bounds (lval a) ltac:(lia)) as Htb.
    set (t := top_bytes (lval a)) in *.
    rewrite <- (Z.add_0_l 23), <- Z.div_pow2_bits by lia. simpl Z.add.
    assert (t / 2 ^ 23 = if 2 ^ 23 <=? t then 1 else 0) as ->; [|by case_bool].
    case_bool; bprop; symmetry; [apply Z.div_unique with (t - 2 ^ 23)|apply Z.div_unique with t]; lia. }
  rewrite Ht. unfold compact_parts in *.
  assert (Hfin : forall m n, 0 <= m < 2 ^ 23 -> 0 <= n <= 33 ->
    (if negb (Z.land m (u32 (Z.lnot 0x007fffff)) =? 0) then Abort
     else if negb (n <? 256) then Abort
     else Ok (Z.lor (Z.lor m (Z.shiftl n 24)) 0)) = Ok (E := unit) (m + 2 ^ 24 * n)).
  { intros m n Hm Hn. destruct (land_low m 23) as [Hl|]; [lia|done| |lia].
    change (u32 (Z.lnot 0x007fffff)) with (2 ^ 32 - 2 ^ 23). rewrite Hl. cbn [negb Z.eqb].
    rewrite (proj2 (Z.ltb_lt n 256)) by lia. cbn [negb].
    by rewrite Z.lor_0_r, lor_shiftl_add by lia. }
  destruct (2 ^ 23 <=? top_bytes (lval a)); destruct Hparts as (Hm & Hn & _).
  - rewrite shiftr_8. by apply Hfin.
  - by apply Hfin.
Qed.

(** ** Decoding what was encoded *)

(** What a value loses in the compact format. *)
Definition compact_trunc (v : Z) : Z :=
  let k := Z.max 0 (snd (compact_parts v) - 3) in v / 256 ^ k * 256 ^ k.

Lemma compact_val_parts m n :
  0 <= m < 2 ^ 23 -> 0 <= n -> compact_val (m + 2 ^ 24 * n) = if n <=? 3 then m / 256 ^ (3 - n) else m * 256 ^ (n - 3).
Proof.
  intros Hm Hn. unfold compact_val. rewrite (Z.mul_comm (2 ^ 24)), Z.div_add, Z.div_small by lia.
  replace (m + n * 2 ^ 24) with (m + (2 * n) * 2 ^ 23) by ring. by rewrite Z.mod_add, Z.mod_small by lia.
Qed.

Lemma compact_val_encode v :
  0 <= v < MOD256 ->
  compact_val (let '(m, n) := compact_parts v in m + 2 ^ 24 * n) = compact_trunc v.
Proof.
  intros Hv. pose proof (compact_parts_bounds v Hv) as Hb. unfold compact_trunc.
  destruct (Z.eq_dec v 0) as [->|Hz]; [done|].
  destruct (byte_length_bounds v ltac:(lia)) as [Hk Hbl].
  unfold compact_parts, top_bytes in *. set (k := byte_length v) in *.
  destruct (k <=? 3) eqn:Hk3; bprop.
  - set (t := v * 256 ^ (3 - k)) in *. destruct (2 ^ 23 <=? t) eqn:Ht; destruct Hb as (Hm & Hn & _);
      rewrite compact_val_parts by lia; simpl snd.
    + assert (k = 1 \/ k = 2 \/ k = 3) as [Hk1|[Hk1|Hk1]] by lia; rewrite Hk1 in *; unfold t; simpl;
        rewrite ?Z.div_1_r, ?Z.mul_1_r; try done.
      * rewrite Hk1. change (256 ^ (3 - 1)) with (256 * 256). by rewrite Z.mul_assoc, !Z.div_mul.
      * rewrite Hk1. change (256 ^ (3 - 2)) with 256. by rewrite Z.div_mul.
      * rewrite Hk1. change (256 ^ (3 - 3)) with 1. by rewrite Z.mul_1_r.
    + rewrite (proj2 (Z.leb_le k 3)) by lia. rewrite Z.max_l by lia. unfold t.
      rewrite Z.div_mul by (pose proof (pow256_pos (3 - k)); lia). by rewrite Z.div_1_r, Z.mul_1_r.
  - pose proof (pow256_pos (k - 3) ltac:(lia)).
    destruct (2 ^ 23 <=? _) eqn:Ht; destruct Hb as (Hm & Hn & _);
      rewrite compact_val_parts by lia; simpl snd; rewrite Z.max_r by lia.
    + rewrite (proj2 (Z.leb_gt _ 3)) by lia. replace (k + 1 - 3) with (Z.succ (k - 3)) by lia.
      rewrite Z.pow_succ_r, (Z.mul_comm 256), <- Z.div_div by lia. done.
    + by rewrite (proj2 (Z.leb_gt _ 3)) by lia.
Qed.

(** Normalised parts are read back as they are. *)
Lemma compact_parts_normal m n :
  2 ^ 15 <= m < 2 ^ 23 -> 4 <= n -> compact_parts (m * 256 ^ (n - 3)) = (m, n).
Proof.
  intros Hm Hn. set (v := m * 256 ^ (n - 3)). pose proof (pow256_pos (n - 3) ltac:(lia)) as HP.
  assert (Hsplit : forall e, 0 <= e -> 256 ^ (n - 3 + e) = 256 ^ (n - 3) * 256 ^ e)
    by (intros; by apply Z.pow_add_r; lia).
  destruct (Z.le_gt_cases (2 ^ 16) m) as [Hbig|Hsmall].
  - assert (byte_length v = n) as Hl.
    { apply byte_length_spec; [unfold v; nia|lia|].
      replace (n - 1) with (n - 3 + 2) by lia. replace (256 ^ n) with (256 ^ (n - 3 + 3)) by (f_equal; lia).
      rewrite !Hsplit by lia. unfold v. change (256 ^ 2) with (2 ^ 16). change (256 ^ 3) with (2 ^ 24). nia. }
    unfold compact_parts, top_bytes. rewrite Hl, (proj2 (Z.leb_gt n 3)) by lia.
    unfold v. rewrite Z.div_mul by lia. by rewrite (proj2 (Z.leb_gt _ _)) by lia.
  - replace v with (m * 256 * 256 ^ (n - 4)) in *.
    2: { unfold v. replace (n - 3) with (Z.succ (n - 4)) by lia. rewrite Z.pow_succ_r by lia. ring. }
    pose proof (pow256_pos (n - 4) ltac:(lia)) as HP4.
    assert (byte_length (m * 256 * 256 ^ (n - 4)) = n - 1) as Hl.
    { apply byte_length_spec; [nia|lia|]. replace (n - 1 - 1) with (n - 4 + 2) by lia.
      replace (n - 1) with (n - 4 + 3) by lia. rewrite !Z.pow_add_r by lia. change (256 ^ 2) with (2 ^ 16). change (256 ^ 3) with (2 ^ 24). nia. }
    unfold compact_parts, top_bytes. rewrite Hl.
    assert ((if n - 1 <=? 3 then m * 256 * 256 ^ (n - 4) * 256 ^ (3 - (n - 1))
             else m * 256 * 256 ^ (n - 4) / 256 ^ (n - 1 - 3)) = m * 256) as ->.
    { case_bool; bprop.
      - replace n with 4 by lia. simpl. lia.
      - replace (n - 1 - 3) with (n - 4) by lia. by rewrite Z.div_mul by lia. }
    rewrite (proj2 (Z.leb_le _ _)) by lia. rewrite Z.div_mul by lia. f_equal. lia.
Qed.

Lemma compact_trunc_spec v :
  0 <= v < MOD256 ->
  0 <= compact_trunc v <= v /\ (v - compact_trunc v) * 2 ^ 15 <= compact_trunc v /\
  compact_parts (compact_trunc v) = compact_parts v.
Proof.
  intros Hv. pose proof (compact_parts_bounds v Hv) as Hb. pose proof (compact_val_encode v Hv) as He.
  unfold compact_trunc in *. destruct (compact_parts v) as [m n] eqn:Hp. simpl snd in *.
  destruct Hb as (Hm & Hn & Hpos). rewrite compact_val_parts in He by lia.
  destruct (Z.le_gt_cases n 3) as [Hn3|Hn3].
  - rewrite Z.max_l in * by lia. rewrite Z.pow_0_r, Z.div_1_r, Z.mul_1_r. split; [lia|]. split; [lia|done].
  - rewrite Z.max_r in * by lia. rewrite (proj2 (Z.leb_gt n 3)) in He by lia.
    pose proof (pow256_pos (n - 3) ltac:(lia)) as HP.
    pose proof (Z.div_mod v (256 ^ (n - 3)) ltac:(lia)). pose proof (Z.mod_pos_bound v (256 ^ (n - 3)) HP).
    rewrite <- He. assert (Hm15 : 2 ^ 15 <= m).
    { apply Hpos. destruct (Z.eq_dec v 0) as [->|]; [change (compact_parts 0) with (0, 0) in Hp; simplify_eq; lia|lia]. }
    split; [nia|]. split; [nia|]. by apply compact_parts_normal; lia.
Qed.

Lemma sign_bit_clear m n : 0 <= m < 2 ^ 23 -> 0 <= n -> Z.testbit (n * 2 ^ 24 + m) 23 = false.
Proof.
  intros Hm Hn. replace (n * 2 ^ 24 + m) with (m + (2 * n) * 2 ^ 23) by ring.
  rewrite <- (Z.add_0_l 23), <- Z.div_pow2_bits by lia. rewrite Z.div_add, Z.div_small by lia.
  rewrite Z.add_0_l. apply Z.testbit_even_0.
Qed.

(** ** Main properties *)

(** [SetCompact] computes mantissa * 256^(exponent - 3) modulo 2^256, reports an overflow exactly
    when that number does not fit into 256 bits, and a negative number only when the sign bit is set. *)
Theorem SetCompact_correct c :
  0 <= c < 2 ^ 32 ->
  let '(r, fNegative, fOverflow) := SetCompact c in
  uint_ok r /\ lval r = compact_val c mod MOD256 /\ fOverflow = (MOD256 <=? compact_val c) /\
  (Z.testbit c 23 = false -> fNegative = false).
Proof. apply SetCompact_val. Qed.

Lemma SetCompact_correct_witness :
  let '(r, fNegative, fOverflow) := SetCompact 0x1d00ffff in
  uint_ok r /\ lval r = compact_val 0x1d00ffff mod MOD256 /\
  fOverflow = (MOD256 <=? compact_val 0x1d00ffff) /\
  (Z.testbit 0x1d00ffff 23 = false -> fNegative = false).
Proof. apply (SetCompact_correct 0x1d00ffff). lia. Defined.

(** Every 256-bit number has a compact encoding (the assertions of [GetCompact] hold), which
    decodes without sign or overflow to a number that is at most the original and at least the
    original less one part in 2^15; encoding the decoded number gives the same compact value. *)
Theorem compact_roundtrip a :
  uint_ok a ->
  exists c r, GetCompact a false = Ok c /\ SetCompact c = (r, false, false) /\ uint_ok r /\
    lval r <= lval a /\ (lval a - lval r) * 2 ^ 15 <= lval r /\ GetCompact r false = Ok c.
Proof.
  intros Ha. pose proof (uint_bound a Ha) as Hb. pose proof (compact_parts_bounds _ Hb) as Hp.
  pose proof (compact_val_encode _ Hb) as He. destruct (compact_trunc_spec _ Hb) as (Ht & Hprec & Hsame).
  rewrite (GetCompact_val a Ha). destruct (compact_parts (lval a)) as [m n] eqn:Hmn.
  destruct Hp as (Hm & Hn & _). set (c := m + 2 ^ 24 * n) in *.
  assert (Hc : 0 <= c < 2 ^ 32) by (unfold c; lia).
  pose proof (SetCompact_val c Hc) as Hs. rewrite He in Hs.
  destruct (SetCompact c) as [[r neg] ovf] eqn:Hsc. destruct Hs as (Hr & Hrv & Hov & Hneg).
  rewrite Z.mod_small in Hrv by lia. exists c, r. split; [done|].
  assert (ovf = false) as -> by (rewrite Hov; apply Z.leb_gt; lia).
  assert (neg = false) as -> by (apply Hneg; unfold c; replace (m + 2 ^ 24 * n) with (n * 2 ^ 24 + m) by ring; apply sign_bit_clear; lia).
  split; [by rewrite Hsc|]. split; [done|]. rewrite Hrv. split; [lia|]. split; [lia|].
  by rewrite (GetCompact_val r Hr), Hrv, Hsame.
Qed.

Lemma compact_roundtrip_witness :
  exists c r, GetCompact (of_u64 0x12345678) false = Ok c /\ SetCompact c = (r, false, false) /\
    uint_ok r /\ lval r <= lval (of_u64 0x12345678) /\
    (lval (of_u64 0x12345678) - lval r) * 2 ^ 15 <= lval r /\ GetCompact r false = Ok c.
Proof. apply compact_roundtrip. apply of_u64_ok. lia. Defined.
