(* ===== verification/Serialize.v ===== *)
(** * Serialization

    Models the primitives of src/src/serialize.h: fixed-width integers, CompactSize, VarInt, byte
    strings, vectors and the bit set formats.  A writer is a function to bytes; a reader takes the
    stream and returns the value with the rest of the stream, [Err] where the code throws
    std::ios_base::failure and [Abort] where it would write outside a buffer.  The chunked allocation of
    the vector readers has no effect on what is read and is left out.

    [Codec ser unser ok] is the contract between a writer and its reader, used by the formats built on
    top of these primitives. *)

From stdpp Require Import base list numbers.
From S2P Require Import Prelude Script.

Open Scope Z_scope.

(** ** Readers *)

Definition Parser (A : Type) : Type := list Z -> res unit (A * list Z).

#[export] Instance Parser_ret : MRet Parser := fun A a s => Ok (a, s).
#[export] Instance Parser_bind : MBind Parser := fun A B f p s =>
  match p s with Ok (a, s') => f a s' | Err e => Err e | Abort => Abort end.

Definition failure {A} : Parser A := fun _ => Err tt.

(** [s.read(buf, n)]. *)
Definition read_bytes (n : nat) : Parser (list Z) :=
  fun s => if (length s <? n)%nat then Err tt else Ok (take n s, drop n s).

Class Codec {A} (ser : A -> list Z) (unser : Parser A) (ok : A -> Prop) : Prop :=
  codec_roundtrip x rest : ok x -> unser (ser x ++ rest) = Ok (x, rest).

(** The other direction: what is accepted is exactly what is written for the value read. *)
Class Canonical {A} (ser : A -> list Z) (unser : Parser A) (ok : A -> Prop) : Prop :=
  canonical s x rest : bytes_ok s -> unser s = Ok (x, rest) -> s = ser x ++ rest /\ ok x.

(** ** Integers *)

Definition ser_writedata8 (obj : Z) : list Z := [u8 obj].
Definition ser_writedata16 (obj : Z) : list Z := WriteLE16 obj.
Definition ser_writedata32 (obj : Z) : list Z := WriteLE32 obj.
Definition ser_writedata64 (obj : Z) : list Z := WriteLE64 obj.
Definition ser_writedata16be (obj : Z) : list Z := rev (WriteLE16 obj).
Definition ser_writedata32be (obj : Z) : list Z := rev (WriteLE32 obj).

Definition ser_readdata8 : Parser Z := b ← read_bytes 1; mret (le_val b).
Definition ser_readdata16 : Parser Z := b ← read_bytes 2; mret (le_val b).
Definition ser_readdata32 : Parser Z := b ← read_bytes 4; mret (le_val b).
Definition ser_readdata64 : Parser Z := b ← read_bytes 8; mret (le_val b).
Definition ser_readdata16be : Parser Z := b ← read_bytes 2; mret (le_val (rev b)).
Definition ser_readdata32be : Parser Z := b ← read_bytes 4; mret (le_val (rev b)).

(** [Unserialize] of int16_t, int32_t and int64_t. *)
Definition read_int16 : Parser Z := x ← ser_readdata16; mret (s16 x).
Definition read_int32 : Parser Z := x ← ser_readdata32; mret (s32 x).
Definition read_int64 : Parser Z := x ← ser_readdata64; mret (s64 x).

(** ** CompactSize *)

Definition MAX_SIZE : Z := 0x02000000.

Definition GetSizeOfCompactSize (nSize : Z) : Z :=
  if nSize <? 253 then 1
  else if nSize <=? 0xffff then 3
  else if nSize <=? 0xffffffff then 5
  else 9.

Definition WriteCompactSize (nSize : Z) : list Z :=
  if nSize <? 253 then ser_writedata8 nSize
  else if nSize <=? 0xffff then ser_writedata8 253 ++ ser_writedata16 nSize
  else if nSize <=? 0xffffffff then ser_writedata8 254 ++ ser_writedata32 nSize
  else ser_writedata8 255 ++ ser_writedata64 nSize.

Definition ReadCompactSize (range_check : bool) : Parser Z :=
  chSize ← ser_readdata8;
  nSizeRet ←
    (if chSize <? 253 then mret chSize
     else if chSize =? 253 then
       n ← ser_readdata16; if n <? 253 then failure else mret n
     else if chSize =? 254 then
       n ← ser_readdata32; if n <? 0x10000 then failure else mret n
     else
       n ← ser_readdata64; if n <? 0x100000000 then failure else mret n);
  if range_check && (MAX_SIZE <? nSizeRet) then failure else mret nSizeRet.

(** ** VarInt, for an unsigned type of [bits] bits *)

(** The first loop of [WriteVarInt]: the digits [tmp[len], tmp[len+1], ...]; the fuel is the size of
    the array. *)
Fixpoint WriteVarInt_tmp (fuel : nat) (n : Z) (first : bool) : list Z :=
  match fuel with
  | O => []
  | S fuel =>
      Z.lor (Z.land n 0x7f) (if first then 0x00 else 0x80) ::
      if n <=? 0x7f then [] else WriteVarInt_tmp fuel (Z.shiftr n 7 - 1) false
  end.

Definition WriteVarInt (bits n : Z) : list Z :=
  rev (WriteVarInt_tmp (Z.to_nat ((bits + 6) / 7)) n true).

Fixpoint GetSizeOfVarInt_loop (fuel : nat) (n nRet : Z) : Z :=
  match fuel with
  | O => nRet
  | S fuel => if n <=? 0x7f then nRet + 1 else GetSizeOfVarInt_loop fuel (Z.shiftr n 7 - 1) (nRet + 1)
  end.
Definition GetSizeOfVarInt (bits n : Z) : Z := GetSizeOfVarInt_loop (Z.to_nat bits) n 0.

(** The reading loop, structural on the stream: every round reads a byte. *)
Fixpoint ReadVarInt_loop (bits n : Z) (s : list Z) : res unit (Z * list Z) :=
  match s with
  | [] => Err tt
  | chData :: s =>
      let max := 2 ^ bits - 1 in
      if Z.shiftr max 7 <? n then Err tt else
      let n := Z.lor (Z.shiftl n 7) (Z.land chData 0x7f) in
      if flag chData 0x80 then
        if n =? max then Err tt else ReadVarInt_loop bits (n + 1) s
      else Ok (n, s)
  end.
Definition ReadVarInt (bits : Z) : Parser Z := ReadVarInt_loop bits 0.

(** ** Byte strings and vectors *)

Definition write_bytes (v : list Z) : list Z := WriteCompactSize (zlen v) ++ v.
Definition read_byte_vector : Parser (list Z) :=
  nSize ← ReadCompactSize true; read_bytes (Z.to_nat nSize).

Definition write_vector {A} (ser : A -> list Z) (v : list A) : list Z :=
  WriteCompactSize (zlen v) ++ flat_map ser v.

Fixpoint read_elems {A} (unser : Parser A) (n : nat) : Parser (list A) :=
  match n with
  | O => mret []
  | S n => x ← unser; l ← read_elems unser n; mret (x :: l)
  end.
Definition read_vector {A} (unser : Parser A) : Parser (list A) :=
  size ← ReadCompactSize true; read_elems unser (Z.to_nat size).

(** ** Bit sets *)

Definition GetSizeOfFixedBitSet (size : Z) : Z := (size + 7) / 8.

(** [vBytes[p / 8] |= vec[p] << (p % 8)] for [p < min(size, vec.size())]. *)
Definition WriteFixedBitSet (vec : list bool) (size : nat) : list Z :=
  fold_left
    (fun vBytes p =>
       alter (fun x => Z.lor x (Z.shiftl (b2z (default false (vec !! p))) (Z.of_nat (p mod 8))))
             (p / 8)%nat vBytes)
    (seq 0 (min size (length vec))) (replicate ((size + 7) / 8) 0).

Definition ReadFixedBitSet (size : nat) : Parser (list bool) :=
  vBytes ← read_bytes ((size + 7) / 8);
  let vec := (fun p => flag (vget vBytes (p / 8)) (Z.shiftl 1 (Z.of_nat (p mod 8)))) <$> seq 0 size in
  if negb (zlen vBytes * 8 =? Z.of_nat size) then
    let rem := zlen vBytes * 8 - Z.of_nat size in
    let m := u8 (Z.lnot (Z.shiftr 0xff rem)) in
    if flag (vget vBytes (length vBytes - 1)) m then failure else mret vec
  else mret vec.

Fixpoint WriteFixedVarIntsBitSet_loop (vec : list bool) (i last : Z) : list Z :=
  match vec with
  | [] => WriteVarInt 32 0
  | b :: vec =>
      if b then WriteVarInt 32 (u32 (i - last)) ++ WriteFixedVarIntsBitSet_loop vec (i + 1) i
      else WriteFixedVarIntsBitSet_loop vec (i + 1) last
  end.
Definition WriteFixedVarIntsBitSet (vec : list bool) : list Z := WriteFixedVarIntsBitSet_loop vec 0 (-1).

(** [vec[idx] = true] outside the vector is undefined behaviour: [Abort].  A round consumes at least a
    byte, so the length of the stream is fuel enough. *)
Fixpoint ReadFixedVarIntsBitSet_loop (fuel : nat) (size : Z) (vec : list bool) (last : Z)
    (s : list Z) : res unit (list bool * list Z) :=
  match fuel with
  | O => Err tt
  | S fuel =>
      match ReadVarInt 32 s with
      | Ok (offset, s) =>
          if offset =? 0 then Ok (vec, s) else
          let idx := s32 (u32 (last + offset)) in
          if s32 size <=? idx then Err tt
          else if negb (last =? -1) && (idx <=? last) then Err tt
          else if idx <? 0 then Abort
          else ReadFixedVarIntsBitSet_loop fuel size (<[Z.to_nat idx := true]> vec) idx s
      | Err e => Err e
      | Abort => Abort
      end
  end.
Definition ReadFixedVarIntsBitSet (size : nat) : Parser (list bool) := fun s =>
  ReadFixedVarIntsBitSet_loop (S (length s)) (Z.of_nat size) (replicate size false) (-1) s.

Definition WriteAutoBitSet (vec : list bool) : list Z :=
  if zlen (WriteFixedBitSet vec (length vec)) <? zlen (WriteFixedVarIntsBitSet vec)
  then ser_writedata8 0 ++ WriteFixedBitSet vec (length vec)
  else ser_writedata8 1 ++ WriteFixedVarIntsBitSet vec.

Definition ReadAutoBitSet (size : nat) : Parser (list bool) :=
  isVarInts ← ser_readdata8;
  if negb (isVarInts =? 0) && negb (isVarInts =? 1) then failure
  else if isVarInts =? 0 then ReadFixedBitSet size else ReadFixedVarIntsBitSet size.

(** ** Integers and CompactSize are read back *)

Lemma read_bytes_app n l rest : length l = n -> read_bytes n (l ++ rest) = Ok (l, rest).
Proof.
  intros <-. unfold read_bytes. rewrite length_app.
  rewrite (proj2 (Nat.ltb_ge _ _)) by lia. by rewrite take_app_length, drop_app_length.
Qed.

Lemma read_bytes_inv n s l rest : read_bytes n s = Ok (l, rest) -> s = l ++ rest /\ length l = n.
Proof.
  unfold read_bytes. case_bool; [done|]. apply Nat.ltb_ge in Heqb. intros [= <- <-].
  rewrite take_drop. split; [done|]. rewrite length_take. lia.
Qed.

Lemma parser_bind_Ok {A B} (p : Parser A) (f : A -> Parser B) s r :
  (p ≫= f) s = Ok r <-> exists a s', p s = Ok (a, s') /\ f a s' = Ok r.
Proof.
  unfold mbind, Parser_bind. destruct (p s) as [[a s']| |]; split; try done; intros H.
  - eauto.
  - by destruct H as (? & ? & [= <- <-] & ?).
  - by destruct H as (? & ? & ? & ?).
  - by destruct H as (? & ? & ? & ?).
Qed.

Lemma parser_ret_bind {A B} (x : A) (f : A -> Parser B) s : (mret x ≫= f) s = f x s.
Proof. done. Qed.

Lemma le_val_read n x : 0 <= x < 256 ^ Z.of_nat n -> le_val (le_bytes n x) = x.
Proof. intros H. rewrite le_val_bytes. by apply Z.mod_small. Qed.

Definition unsigned (bits x : Z) : Prop := 0 <= x < 2 ^ bits.
Definition signed (bits x : Z) : Prop := - 2 ^ (bits - 1) <= x < 2 ^ (bits - 1).

#[export] Instance codec_u8 : Codec ser_writedata8 ser_readdata8 (unsigned 8).
Proof.
  intros x rest Hx. unfold ser_readdata8, ser_writedata8, mbind, Parser_bind.
  rewrite read_bytes_app by done. unfold mret, Parser_ret. cbn [le_val]. unfold u8, unsigned in *.
  rewrite Z.mod_small by done. do 2 f_equal. lia.
Qed.

(** The three wider unsigned types. *)
Lemma codec_le n x rest :
  0 <= x < 256 ^ Z.of_nat n ->
  (b ← read_bytes n; mret (le_val b) : Parser Z) (le_bytes n x ++ rest) = Ok (x, rest).
Proof.
  intros Hx. unfold mbind, Parser_bind. rewrite read_bytes_app by apply le_bytes_length.
  unfold mret, Parser_ret. by rewrite le_val_read.
Qed.

#[export] Instance codec_u16 : Codec ser_writedata16 ser_readdata16 (unsigned 16).
Proof. intros x rest Hx. by apply (codec_le 2). Qed.

#[export] Instance codec_u32 : Codec ser_writedata32 ser_readdata32 (unsigned 32).
Proof. intros x rest Hx. by apply (codec_le 4). Qed.

#[export] Instance codec_u64 : Codec ser_writedata64 ser_readdata64 (unsigned 64).
Proof. intros x rest Hx. by apply (codec_le 8). Qed.

Lemma codec_be n x rest :
  0 <= x < 256 ^ Z.of_nat n ->
  (b ← read_bytes n; mret (le_val (rev b)) : Parser Z) (rev (le_bytes n x) ++ rest) = Ok (x, rest).
Proof.
  intros Hx. unfold mbind, Parser_bind.
  rewrite read_bytes_app by (by rewrite length_rev, le_bytes_length).
  unfold mret, Parser_ret. by rewrite rev_involutive, le_val_read.
Qed.

#[export] Instance codec_u16be : Codec ser_writedata16be ser_readdata16be (unsigned 16).
Proof. intros x rest Hx. by apply (codec_be 2). Qed.

#[export] Instance codec_u32be : Codec ser_writedata32be ser_readdata32be (unsigned 32).
Proof. intros x rest Hx. by apply (codec_be 4). Qed.

Lemma swrap_mod w x : 0 < w -> signed w x -> swrap w (x mod 2 ^ w) = x.
Proof.
  intros Hw Hx. unfold signed in Hx. assert (2 ^ w = 2 * 2 ^ (w - 1)) as Hp.
  { rewrite <- Z.pow_succ_r by lia. f_equal. lia. }
  unfold swrap. rewrite Z.mod_mod by lia. destruct (Z.lt_ge_cases x 0) as [Hn|Hn].
  - assert (x mod 2 ^ w = x + 2 ^ w) as -> by (symmetry; apply Z.mod_unique with (-1); lia).
    rewrite (proj2 (Z.ltb_ge _ _)) by lia. lia.
  - rewrite Z.mod_small by lia. by rewrite (proj2 (Z.ltb_lt _ _)) by lia.
Qed.

(** Two's complement: a signed integer is written as its residue. *)
Lemma codec_signed n x rest :
  (0 < n)%nat -> signed (8 * Z.of_nat n) x ->
  ((b ← read_bytes n; mret (le_val b) : Parser Z) ≫= fun y => mret (swrap (8 * Z.of_nat n) y))
    (le_bytes n x ++ rest) = Ok (x, rest).
Proof.
  intros Hn Hx. unfold mbind, Parser_bind. rewrite read_bytes_app by apply le_bytes_length.
  unfold mret, Parser_ret. rewrite le_val_bytes.
  replace (256 ^ Z.of_nat n) with (2 ^ (8 * Z.of_nat n)) by (rewrite Z.pow_mul_r by lia; done).
  by rewrite swrap_mod by (done || lia).
Qed.

#[export] Instance codec_i16 : Codec ser_writedata16 read_int16 (signed 16).
Proof. intros x rest Hx. apply (codec_signed 2); [lia|done]. Qed.

#[export] Instance codec_i32 : Codec ser_writedata32 read_int32 (signed 32).
Proof. intros x rest Hx. apply (codec_signed 4); [lia|done]. Qed.

#[export] Instance codec_i64 : Codec ser_writedata64 read_int64 (signed 64).
Proof. intros x rest Hx. apply (codec_signed 8); [lia|done]. Qed.

(** Runs a reader on what its writer wrote. *)
Lemma codec_bind {A B} ser unser ok (k : A -> Parser B) x rest :
  Codec ser unser ok -> ok x -> (unser ≫= k) (ser x ++ rest) = k x rest.
Proof. intros H Hx. unfold mbind, Parser_bind. by rewrite (codec_roundtrip x rest Hx). Qed.

Lemma ReadCompactSize_write rc n rest :
  0 <= n < 2 ^ 64 -> (rc = true -> n <= MAX_SIZE) ->
  ReadCompactSize rc (WriteCompactSize n ++ rest) = Ok (n, rest).
Proof.
  intros Hn Hrc. unfold ReadCompactSize, WriteCompactSize.
  assert (Hfin : forall s, (if rc && (MAX_SIZE <? n) then failure else mret n : Parser Z) s = Ok (n, s)).
  { intros s. destruct rc; [|done]. by rewrite (proj2 (Z.ltb_ge _ _)) by auto. }
  destruct (n <? 253) eqn:E1; [|destruct (n <=? 0xffff) eqn:E2; [|destruct (n <=? 0xffffffff) eqn:E3]];
    bprop; rewrite <- ?app_assoc.
  - rewrite (codec_bind _ _ _ _ n _ codec_u8) by (unfold unsigned; lia).
    rewrite (proj2 (Z.ltb_lt n 253)) by lia. apply Hfin.
  - rewrite (codec_bind _ _ _ _ 253 _ codec_u8) by done. cbn [Z.ltb Z.compare Z.eqb Pos.compare Pos.compare_cont Pos.eqb].
    unfold mbind at 1, Parser_bind at 1. rewrite (codec_bind _ _ _ _ n _ codec_u16) by (unfold unsigned; lia).
    rewrite (proj2 (Z.ltb_ge n 253)) by lia. apply Hfin.
  - rewrite (codec_bind _ _ _ _ 254 _ codec_u8) by done. cbn [Z.ltb Z.compare Z.eqb Pos.compare Pos.compare_cont Pos.eqb].
    unfold mbind at 1, Parser_bind at 1. rewrite (codec_bind _ _ _ _ n _ codec_u32) by (unfold unsigned; lia).
    rewrite (proj2 (Z.ltb_ge n 0x10000)) by lia. apply Hfin.
  - rewrite (codec_bind _ _ _ _ 255 _ codec_u8) by done. cbn [Z.ltb Z.compare Z.eqb Pos.compare Pos.compare_cont Pos.eqb].
    unfold mbind at 1, Parser_bind at 1. rewrite (codec_bind _ _ _ _ n _ codec_u64) by (unfold unsigned; lia).
    rewrite (proj2 (Z.ltb_ge n 0x100000000)) by lia. apply Hfin.
Qed.

#[export] Instance codec_CompactSize :
  Codec WriteCompactSize (ReadCompactSize true) (fun n => 0 <= n <= MAX_SIZE).
Proof. intros n rest Hn. apply ReadCompactSize_write; [unfold MAX_SIZE in Hn; lia|]. intros _; apply Hn. Qed.

(** A fixed-width read determines the bytes it read. *)
Lemma read_le_inv n s x rest :
  bytes_ok s -> (b ← read_bytes n; mret (le_val b) : Parser Z) s = Ok (x, rest) ->
  s = le_bytes n x ++ rest /\ 0 <= x < 256 ^ Z.of_nat n /\ bytes_ok rest.
Proof.
  intros Hs (b & s' & Hb & H)%parser_bind_Ok. apply read_bytes_inv in Hb as [-> Hl].
  injection H as <- <-. apply Forall_app in Hs as [Hb Hr]. split; [|split; [|done]].
  - f_equal. rewrite <- Hl. symmetry. by apply le_bytes_val.
  - rewrite <- Hl. by apply le_val_bound.
Qed.

(** Only canonical encodings are accepted. *)
Lemma ReadCompactSize_canonical rc s n rest :
  bytes_ok s -> ReadCompactSize rc s = Ok (n, rest) -> s = WriteCompactSize n ++ rest /\ 0 <= n < 2 ^ 64.
Proof.
  intros Hs (ch & s1 & Hch & H)%parser_bind_Ok.
  apply (read_le_inv 1) in Hch as (-> & Hchr & Hs1); [|done]. clear Hs. simpl in Hchr.
  apply parser_bind_Ok in H as (m & s2 & Hm & H).
  assert (m = n /\ s2 = rest) as [-> ->] by (destruct (_ && _); [done|]; by injection H as <- <-).
  clear H. assert (Hle1 : le_bytes 1 ch = ser_writedata8 ch) by (simpl; unfold ser_writedata8, u8; done).
  rewrite Hle1. clear Hle1. unfold WriteCompactSize.
  destruct (ch <? 253) eqn:E; [|destruct (Z.eqb_spec ch 253) as [->|]; [|destruct (Z.eqb_spec ch 254) as [->|]]]; bprop.
  - injection Hm as <- <-. rewrite (proj2 (Z.ltb_lt ch 253)) by lia. split; [done|lia].
  - apply parser_bind_Ok in Hm as (k & s3 & Hk & H).
    apply (read_le_inv 2) in Hk as (-> & Hkr & _); [|done]. destruct (k <? 253) eqn:E2; [done|].
    bprop. simpl in Hkr. injection H as <- <-. rewrite (proj2 (Z.ltb_ge k 253)), (proj2 (Z.leb_le k 0xffff)) by lia.
    split; [by rewrite <- app_assoc|lia].
  - apply parser_bind_Ok in Hm as (k & s3 & Hk & H).
    apply (read_le_inv 4) in Hk as (-> & Hkr & _); [|done]. destruct (k <? 0x10000) eqn:E2; [done|].
    bprop. simpl in Hkr. injection H as <- <-.
    rewrite (proj2 (Z.ltb_ge k 253)), (proj2 (Z.leb_gt k 0xffff)), (proj2 (Z.leb_le k 0xffffffff)) by lia.
    split; [by rewrite <- app_assoc|lia].
  - apply parser_bind_Ok in Hm as (k & s3 & Hk & H).
    apply (read_le_inv 8) in Hk as (-> & Hkr & _); [|done]. destruct (k <? 0x100000000) eqn:E2; [done|].
    bprop. simpl in Hkr. injection H as <- <-. assert (ch = 255) as -> by lia.
    rewrite (proj2 (Z.ltb_ge k 253)), (proj2 (Z.leb_gt k 0xffff)), (proj2 (Z.leb_gt k 0xffffffff)) by lia.
    split; [by rewrite <- app_assoc|lia].
Qed.

Lemma WriteCompactSize_length n : 0 <= n < 2 ^ 64 -> zlen (WriteCompactSize n) = GetSizeOfCompactSize n.
Proof. intros Hn. unfold WriteCompactSize, GetSizeOfCompactSize. by repeat case_bool. Qed.

(** ** VarInt *)

(** The bytes of [n] with the continuation bit [c] (0 or 0x80) on the last one. *)
Fixpoint varint (fuel : nat) (n c : Z) : list Z :=
  match fuel with
  | O => []
  | S fuel => if n <=? 0x7f then [n + c] else varint fuel (n / 128 - 1) 0x80 ++ [n mod 128 + c]
  end.

Lemma lor_digit d c : 0 <= d < 128 -> c = 0 \/ c = 0x80 -> Z.lor d c = d + c.
Proof.
  intros Hd [->| ->]; [by rewrite Z.lor_0_r, Z.add_0_r|].
  change 0x80 with (Z.shiftl 1 7). by rewrite lor_shiftl_add by lia.
Qed.

Lemma WriteVarInt_tmp_varint fuel n first :
  0 <= n -> rev (WriteVarInt_tmp fuel n first) = varint fuel n (if first then 0 else 0x80).
Proof.
  revert n first; induction fuel as [|fuel IH]; intros n first Hn; [done|]. cbn [WriteVarInt_tmp varint].
  change 0x7f with (Z.ones 7) at 1. rewrite Z.land_ones, Z.shiftr_div_pow2 by lia. change (2 ^ 7) with 128.
  assert (Z.lor (n mod 128) (if first then 0 else 0x80) = n mod 128 + (if first then 0 else 0x80)) as ->.
  { apply lor_digit; [apply Z.mod_pos_bound; lia|]. destruct first; auto. }
  destruct (n <=? 0x7f) eqn:E; bprop; cbn [rev app]; [by rewrite Z.mod_small by lia|].
  rewrite IH; [done|]. assert (1 <= n / 128) by (apply Z.div_le_lower_bound; lia). lia.
Qed.

(** The digits of the number read so far. *)
Lemma read_digit n ch : 0 <= n -> is_byte ch ->
  Z.lor (Z.shiftl n 7) (Z.land ch 0x7f) = n * 128 + ch mod 128 /\ flag ch 0x80 = (128 <=? ch).
Proof.
  intros Hn Hch. split; [|by apply flag_0x80]. change 0x7f with (Z.ones 7). rewrite Z.land_ones by lia.
  rewrite Z.lor_comm, lor_shiftl_add; [|lia|apply Z.mod_pos_bound; lia]. change (2 ^ 7) with 128. lia.
Qed.

Lemma varint_bound fuel n : 0 <= n < 128 ^ Z.of_nat (S fuel) -> 0x7f < n -> 0 <= n / 128 - 1 < 128 ^ Z.of_nat fuel.
Proof.
  intros Hn Hgt. rewrite Nat2Z.inj_succ, Z.pow_succ_r in Hn by lia. split.
  - assert (1 <= n / 128) by (apply Z.div_le_lower_bound; lia). lia.
  - assert (n / 128 < 128 ^ Z.of_nat fuel) by (apply Z.div_lt_upper_bound; lia). lia.
Qed.

Lemma shiftr_max bits : 7 <= bits -> Z.shiftr (2 ^ bits - 1) 7 = 2 ^ (bits - 7) - 1.
Proof.
  intros Hb. rewrite Z.shiftr_div_pow2 by lia. symmetry. apply Z.div_unique with (2 ^ 7 - 1); [lia|].
  replace bits with (7 + (bits - 7)) at 1 by lia. rewrite Z.pow_add_r by lia. lia.
Qed.

(** Reading the bytes of [n]: the end of the number, or one more digit to come. *)
Lemma ReadVarInt_loop_varint bits fuel n rest :
  7 <= bits -> 0 <= n < 2 ^ bits -> n < 128 ^ Z.of_nat fuel -> (0 < fuel)%nat ->
  ReadVarInt_loop bits 0 (varint fuel n 0 ++ rest) = Ok (n, rest) /\
  (n <> 2 ^ bits - 1 -> ReadVarInt_loop bits 0 (varint fuel n 0x80 ++ rest) = ReadVarInt_loop bits (n + 1) rest).
Proof.
  intros Hbits. revert n rest; induction fuel as [|fuel IH]; intros n rest Hn Hf Hfuel; [lia|].
  assert (Hsplit : 2 ^ bits = 128 * 2 ^ (bits - 7)) by (replace bits with (7 + (bits - 7)) at 1 by lia; by rewrite Z.pow_add_r by lia).
  assert (0 < 2 ^ (bits - 7)) by (apply Z.pow_pos_nonneg; lia).
  (* one round, from the digits before the last one *)
  assert (Hround : forall acc c, c = 0 \/ c = 0x80 -> acc = n / 128 ->
    ReadVarInt_loop bits acc ([n mod 128 + c] ++ rest) =
    if c =? 0 then Ok (n, rest) else if n =? 2 ^ bits - 1 then Err tt else ReadVarInt_loop bits (n + 1) rest).
  { intros acc c Hc ->. cbn [app ReadVarInt_loop]. pose proof (Z.mod_pos_bound n 128 ltac:(lia)).
    pose proof (Z.div_mod n 128 ltac:(lia)). assert (0 <= n / 128) by (apply Z.div_pos; lia).
    rewrite shiftr_max, (proj2 (Z.ltb_ge _ _)) by lia.
    destruct (read_digit (n / 128) (n mod 128 + c)) as [-> ->]; [lia|unfold is_byte; lia|].
    assert ((n mod 128 + c) mod 128 = n mod 128) as ->.
    { destruct Hc as [->| ->]; [by rewrite Z.add_0_r, Z.mod_mod|].
      replace (n mod 128 + 128) with (n mod 128 + 1 * 128) by lia. by rewrite Z.mod_add, Z.mod_mod by lia. }
    replace (n / 128 * 128 + n mod 128) with n by lia.
    destruct Hc as [->| ->]; [rewrite (proj2 (Z.leb_gt _ _)) by lia; done|].
    rewrite (proj2 (Z.leb_le _ _)) by lia. done. }
  cbn [varint]. destruct (n <=? 0x7f) eqn:Hle; bprop.
  - assert (n / 128 = 0) as Hd by (apply Z.div_small; lia). assert (n mod 128 = n) as Hm by (apply Z.mod_small; lia).
    rewrite Hm in Hround. split; [rewrite Hround by auto; done|]. intros Hne. rewrite Hround by auto.
    cbn [Z.eqb]. by rewrite (proj2 (Z.eqb_neq _ _) Hne).
  - destruct (varint_bound fuel n ltac:(lia) Hle) as [Hb1 Hb2].
    assert (n / 128 - 1 < 2 ^ bits - 1).
    { assert (n / 128 < 2 ^ (bits - 7)) by (apply Z.div_lt_upper_bound; lia). lia. }
    assert (Hpre : forall rest', ReadVarInt_loop bits 0 (varint fuel (n / 128 - 1) 0x80 ++ rest') = ReadVarInt_loop bits (n / 128) rest').
    { intros rest'. assert (0 < fuel)%nat by (destruct fuel; [simpl in Hf; lia|lia]).
      destruct (IH (n / 128 - 1) rest' ltac:(lia) ltac:(lia) ltac:(lia)) as [_ Hr].
      rewrite Hr by lia. f_equal. lia. }
    split; [|intros Hne]; rewrite <- app_assoc, Hpre, Hround by auto; [done|].
    cbn [Z.eqb]. by rewrite (proj2 (Z.eqb_neq _ _) Hne).
Qed.

(** The array of [WriteVarInt] is long enough. *)
Lemma varint_fuel bits : 1 <= bits -> 2 ^ bits <= 128 ^ Z.of_nat (Z.to_nat ((bits + 6) / 7)) /\ (0 < Z.to_nat ((bits + 6) / 7))%nat.
Proof.
  intros Hb. assert (1 <= (bits + 6) / 7) by (apply Z.div_le_lower_bound; lia).
  split; [|lia]. rewrite Z2Nat.id by lia. change 128 with (2 ^ 7). rewrite <- Z.pow_mul_r by lia.
  apply Z.pow_le_mono_r; [lia|]. pose proof (Z.div_mod (bits + 6) 7). pose proof (Z.mod_pos_bound (bits + 6) 7). lia.
Qed.

Lemma WriteVarInt_varint bits n : 0 <= n -> WriteVarInt bits n = varint (Z.to_nat ((bits + 6) / 7)) n 0.
Proof. intros Hn. unfold WriteVarInt. by rewrite WriteVarInt_tmp_varint. Qed.

Lemma ReadVarInt_write bits n rest :
  7 <= bits -> 0 <= n < 2 ^ bits -> ReadVarInt bits (WriteVarInt bits n ++ rest) = Ok (n, rest).
Proof.
  intros Hb Hn. rewrite WriteVarInt_varint by lia. destruct (varint_fuel bits) as [Hp Hf]; [lia|].
  apply ReadVarInt_loop_varint; [done..|lia|done].
Qed.

#[export] Instance codec_VarInt bits :
  Codec (WriteVarInt bits) (ReadVarInt bits) (fun n => 7 <= bits /\ 0 <= n < 2 ^ bits).
Proof. intros n rest [Hb Hn]. by apply ReadVarInt_write. Qed.

(** Fuel beyond what a number needs does not change its digits. *)
Lemma varint_enough f f' n c :
  0 <= n < 128 ^ Z.of_nat f -> (0 < f)%nat -> (f <= f')%nat -> varint f' n c = varint f n c.
Proof.
  revert f' n c; induction f as [|f IH]; intros [|f'] n c Hn H0 Hle; try lia.
  cbn [varint]. destruct (n <=? 0x7f) eqn:E; [done|]. bprop. f_equal.
  apply IH; [by apply varint_bound| |lia]. destruct f; [simpl in Hn; lia|lia].
Qed.

(** What has been read so far is the encoding of the accumulator. *)
Lemma ReadVarInt_loop_inv bits acc s n rest :
  7 <= bits -> 0 <= acc -> bytes_ok s -> ReadVarInt_loop bits acc s = Ok (n, rest) ->
  acc <= n < 2 ^ bits /\
  forall f pre, n < 128 ^ Z.of_nat f -> (0 < f)%nat ->
    (if acc =? 0 then pre = [] else pre = varint f (acc - 1) 0x80) -> pre ++ s = varint f n 0 ++ rest.
Proof.
  intros Hbits. revert acc. induction s as [|b s IH]; intros acc Hacc Hs H; [done|].
  apply Forall_cons in Hs as [Hb Hs]. cbn [ReadVarInt_loop] in H.
  destruct (read_digit acc b Hacc Hb) as [Hd Hf]. rewrite Hd, Hf in H. unfold is_byte in Hb.
  rewrite shiftr_max in H by done. destruct (_ <? acc) eqn:Hmax; [done|]. bprop.
  assert (Hsplit : 2 ^ bits = 128 * 2 ^ (bits - 7)) by (replace bits with (7 + (bits - 7)) at 1 by lia; by rewrite Z.pow_add_r by lia).
  pose proof (Z.mod_pos_bound b 128 ltac:(lia)). set (m := acc * 128 + b mod 128) in *.
  assert (Hm1 : m / 128 = acc) by (symmetry; apply Z.div_unique with (b mod 128); unfold m; lia).
  assert (Hm2 : m mod 128 = b mod 128) by (symmetry; apply Z.mod_unique with acc; unfold m; lia).
  (* the bytes up to and including this one *)
  assert (Hpre : forall f pre c, m < 128 ^ Z.of_nat f -> (0 < f)%nat -> b = b mod 128 + c ->
    (if acc =? 0 then pre = [] else pre = varint f (acc - 1) 0x80) -> pre ++ [b] = varint f m c).
  { intros [|f] pre c Hmf Hf0 Hbc Hp; [lia|]. cbn [varint]. destruct (Z.eqb_spec acc 0) as [->|Hne].
    - subst pre. rewrite (proj2 (Z.leb_le m _)) by (unfold m; lia). by replace (m + c) with b by (unfold m; lia).
    - rewrite (proj2 (Z.leb_gt m _)) by (unfold m; lia). rewrite Hm1, Hm2, <- Hbc. subst pre. f_equal.
      assert (0x7f < m) by (unfold m; lia). pose proof (varint_bound f m ltac:(lia) ltac:(done)) as Hvb.
      rewrite Hm1 in Hvb. apply varint_enough; [done| |lia]. destruct f; [simpl in Hmf; lia|lia]. }
  destruct (128 <=? b) eqn:Hc; bprop.
  - destruct (m =? 2 ^ bits - 1) eqn:Hme; [done|]. bprop.
    apply IH in H as [Hn Hrest]; [|unfold m; lia|done]. split; [unfold m in *; lia|].
    intros f pre Hnf Hf0 Hp.
    assert (b = b mod 128 + 0x80) as Hbc.
    { assert (b / 128 = 1) by (symmetry; apply Z.div_unique with (b - 128); lia). pose proof (Z.div_mod b 128). lia. }
    rewrite <- (Hrest f (pre ++ [b]) Hnf Hf0); [by rewrite <- app_assoc|].
    rewrite (proj2 (Z.eqb_neq _ 0)) by (unfold m; lia). rewrite Z.add_simpl_r.
    apply Hpre; [lia|done|done|done].
  - injection H as <- <-. split; [unfold m in *; lia|]. intros f pre Hnf Hf0 Hp.
    rewrite <- (Hpre f pre 0 Hnf Hf0); [by rewrite <- app_assoc|rewrite Z.mod_small by lia; lia|done].
Qed.

(** Every byte sequence that is read as a VarInt is the one that is written for it. *)
Lemma ReadVarInt_canonical bits s n rest :
  7 <= bits -> bytes_ok s -> ReadVarInt bits s = Ok (n, rest) ->
  s = WriteVarInt bits n ++ rest /\ 0 <= n < 2 ^ bits.
Proof.
  intros Hb Hs H. destruct (ReadVarInt_loop_inv bits 0 s n rest Hb ltac:(lia) Hs H) as [Hn Hpre].
  split; [|lia]. rewrite WriteVarInt_varint by lia. destruct (varint_fuel bits ltac:(lia)) as [Hp Hf].
  by rewrite <- (Hpre (Z.to_nat ((bits + 6) / 7)) [] ltac:(lia) Hf).
Qed.

(** ** Byte strings and vectors *)

#[export] Instance codec_bytes :
  Codec write_bytes read_byte_vector (fun v => zlen v <= MAX_SIZE).
Proof.
  intros v rest Hv. unfold read_byte_vector, write_bytes. rewrite <- app_assoc.
  rewrite (codec_bind _ _ _ _ (zlen v) _ codec_CompactSize) by (split; [apply zlen_nonneg|done]).
  apply read_bytes_app. unfold zlen. lia.
Qed.

Lemma read_elems_flat_map {A} (ser : A -> list Z) unser ok v rest :
  Codec ser unser ok -> Forall ok v -> read_elems unser (length v) (flat_map ser v ++ rest) = Ok (v, rest).
Proof.
  intros Hc Hv. induction Hv as [|x v Hx Hv IH]; [done|]. cbn [length read_elems flat_map].
  rewrite <- app_assoc, (codec_bind ser unser ok) by done.
  unfold mbind, Parser_bind. by rewrite IH.
Qed.

#[export] Instance codec_vector {A} (ser : A -> list Z) unser ok :
  Codec ser unser ok ->
  Codec (write_vector ser) (read_vector unser) (fun v => zlen v <= MAX_SIZE /\ Forall ok v).
Proof.
  intros Hc v rest [Hl Hv]. unfold read_vector, write_vector. rewrite <- app_assoc.
  rewrite (codec_bind _ _ _ _ (zlen v) _ codec_CompactSize) by (split; [apply zlen_nonneg|done]).
  unfold zlen. rewrite Nat2Z.id. by eapply read_elems_flat_map.
Qed.

(** ** Bit sets *)

(** Bit [q] of byte [j]. *)
Definition byte_bit (v : list Z) (j q : nat) : bool := Z.testbit (vget v j) (Z.of_nat q).

(** The state of the writing loop after the first [k] positions. *)
Definition bitset_state (vec : list bool) (n k : nat) (vBytes : list Z) : Prop :=
  length vBytes = n /\ bytes_ok vBytes /\
  forall j q, (j < n)%nat -> (q < 8)%nat ->
    byte_bit vBytes j q = (8 * j + q <? k)%nat && default false (vec !! (8 * j + q)%nat).

Lemma bitset_round vec n k vBytes :
  (k < length vec)%nat -> (k / 8 < n)%nat -> bitset_state vec n k vBytes ->
  bitset_state vec n (S k)
    (alter (fun x => Z.lor x (Z.shiftl (b2z (default false (vec !! k))) (Z.of_nat (k mod 8)))) (k / 8)%nat vBytes).
Proof.
  intros Hk Hkn (Hl & Hok & Hbit). pose proof (Nat.div_mod_eq k 8) as Hdm.
  pose proof (Nat.mod_upper_bound k 8 ltac:(lia)) as Hm.
  destruct (lookup_lt_is_Some_2 vBytes (k / 8) ltac:(lia)) as [x Hx].
  set (bit := Z.shiftl (b2z (default false (vec !! k))) (Z.of_nat (k mod 8))).
  assert (Hbits : forall i, (0 <= i) -> Z.testbit bit i = (i =? Z.of_nat (k mod 8)) && default false (vec !! k)).
  { intros i Hi. unfold bit. destruct (default false (vec !! k)); simpl b2z.
    - rewrite Z.shiftl_1_l, Z.pow2_bits_eqb, andb_true_r, Z.eqb_sym by lia. done.
    - by rewrite Z.shiftl_0_l, Z.bits_0, andb_false_r. }
  split; [by rewrite length_alter|]. split.
  - apply Forall_alter; [done|]. intros y Hy Hyb. apply byte_bitwise; [by auto|done|].
    unfold bit, is_byte. destruct (default false (vec !! k)); simpl b2z; [|rewrite Z.shiftl_0_l; lia].
    rewrite Z.shiftl_1_l. split; [lia|]. apply (Z.pow_lt_mono_r 2 _ 8); lia.
  - intros j q Hj Hq. unfold byte_bit, vget. destruct (decide (j = k / 8)%nat) as [->|Hne].
    + rewrite list_lookup_alter_eq, Hx. cbn [fmap option_fmap option_map default from_option id].
      rewrite Z.lor_spec, Hbits by lia.
      specialize (Hbit (k / 8)%nat q Hj Hq). unfold byte_bit, vget in Hbit. rewrite Hx in Hbit.
      cbn [default from_option id] in Hbit. rewrite Hbit. destruct (decide (q = k mod 8)%nat) as [->|Hq'].
      * rewrite Z.eqb_refl. replace (8 * (k / 8) + k mod 8)%nat with k by lia.
        rewrite Nat.ltb_irrefl. rewrite (proj2 (Nat.ltb_lt k (S k))) by lia. done.
      * rewrite (proj2 (Z.eqb_neq _ _)), orb_false_r by lia. f_equal. apply eq_bool_prop_intro.
        rewrite !Is_true_true, !Nat.ltb_lt. lia.
    + rewrite list_lookup_alter_ne by done. fold (vget vBytes j). fold (byte_bit vBytes j q).
      rewrite Hbit by done. f_equal. apply eq_bool_prop_intro. rewrite !Is_true_true, !Nat.ltb_lt.
      assert (8 * j + q <> k)%nat; [|lia]. intros <-. apply Hne.
      rewrite Nat.mul_comm, Nat.div_add_l, Nat.div_small by lia. lia.
Qed.

Lemma bitset_write vec n k :
  (k <= length vec)%nat -> (k <= 8 * n)%nat ->
  bitset_state vec n k
    (fold_left (fun vBytes p => alter (fun x => Z.lor x (Z.shiftl (b2z (default false (vec !! p)))
       (Z.of_nat (p mod 8)))) (p / 8)%nat vBytes) (seq 0 k) (replicate n 0)).
Proof.
  induction k as [|k IH]; intros Hk Hn.
  - simpl. split; [apply length_replicate|]. split; [apply Forall_replicate; unfold is_byte; lia|].
    intros j q Hj Hq. unfold byte_bit, vget. by rewrite lookup_replicate_2, Z.bits_0 by done.
  - rewrite seq_S, fold_left_app. simpl. apply bitset_round; [lia| |apply IH; lia].
    apply Nat.Div0.div_lt_upper_bound. lia.
Qed.


(** A mask of the high bits meets only bits that are set there. *)
Lemma high_bits_clear x rem :
  is_byte x -> 0 < rem < 8 -> (forall q, 8 - rem <= q < 8 -> Z.testbit x q = false) ->
  flag x (u8 (Z.lnot (Z.shiftr 0xff rem))) = false.
Proof.
  intros Hx Hrem Hclear. apply negb_false_iff, Z.eqb_eq, Z.bits_inj'. intros i Hi.
  rewrite Z.land_spec, Z.bits_0. unfold u8. destruct (Z.lt_ge_cases i 8) as [Hlt|Hge].
  - rewrite Z.mod_pow2_bits_low, Z.lnot_spec, Z.shiftr_spec by lia.
    destruct (Z.lt_ge_cases i (8 - rem)) as [Hlow|Hhigh]; [|by rewrite Hclear by lia].
    change 0xff with (Z.ones 8). rewrite Z.ones_spec_low by lia. apply andb_false_r.
  - by rewrite (testbit_small x 8) by (unfold is_byte in Hx; lia).
Qed.

Lemma bitset_bytes size : (size <= 8 * ((size + 7) / 8) < size + 8)%nat.
Proof.
  pose proof (Nat.div_mod_eq (size + 7) 8). pose proof (Nat.mod_upper_bound (size + 7) 8 ltac:(lia)). lia.
Qed.

Lemma ReadFixedBitSet_write vec rest :
  ReadFixedBitSet (length vec) (WriteFixedBitSet vec (length vec) ++ rest) = Ok (vec, rest).
Proof.
  unfold ReadFixedBitSet, WriteFixedBitSet. rewrite Nat.min_id.
  pose proof (bitset_bytes (length vec)) as Hsz. set (n := ((length vec + 7) / 8)%nat) in *.
  pose proof (bitset_write vec n (length vec) ltac:(lia) ltac:(lia)) as Hst.
  set (v := fold_left _ _ _) in *. destruct Hst as (Hl & Hok & Hbit).
  unfold mbind, Parser_bind. rewrite read_bytes_app by done.
  assert (Hvec : ((fun p => flag (vget v (p / 8)) (Z.shiftl 1 (Z.of_nat (p mod 8)))) <$> seq 0 (length vec)) = vec).
  { apply list_eq_same_length with (length vec); [done|by rewrite length_fmap, length_seq|].
    intros p b b' Hp Hb Hb'. rewrite list_lookup_fmap, lookup_seq_lt in Hb by done. injection Hb as <-.
    rewrite Z.shiftl_1_l, flag_pow2 by lia. pose proof (Nat.div_mod_eq p 8).
    pose proof (Nat.mod_upper_bound p 8 ltac:(lia)).
    change (byte_bit v (p / 8) (p mod 8) = b'). rewrite Hbit by lia.
    replace (8 * (p / 8) + p mod 8)%nat with p by lia. rewrite (proj2 (Nat.ltb_lt _ _) Hp). by rewrite Hb'. }
  rewrite Hvec. destruct (Z.eqb_spec (zlen v * 8) (Z.of_nat (length vec))) as [|Hne]; [done|]. simpl negb. cbn iota.
  unfold zlen in *. rewrite Hl in *. rewrite high_bits_clear; [done| |lia|].
  - unfold vget. destruct (lookup_lt_is_Some_2 v (n - 1) ltac:(lia)) as [x Hx]. rewrite Hx.
    by apply (Forall_lookup_1 _ _ _ _ Hok Hx).
  - intros q Hq. replace q with (Z.of_nat (Z.to_nat q)) by lia. change (byte_bit v (n - 1) (Z.to_nat q) = false).
    rewrite Hbit by lia. by rewrite (proj2 (Nat.ltb_ge _ _)) by lia.
Qed.

Lemma s32_small x : 0 <= x < 2 ^ 31 -> s32 x = x.
Proof.
  intros Hx. unfold s32, swrap. rewrite Z.mod_small by lia. by rewrite (proj2 (Z.ltb_lt _ _)) by lia.
Qed.

Lemma WriteVarInt_nonempty bits n : 1 <= bits -> (0 < length (WriteVarInt bits n))%nat.
Proof.
  intros Hb. unfold WriteVarInt. rewrite length_rev. destruct (varint_fuel bits Hb) as [_ Hf].
  destruct (Z.to_nat _); [lia|]. simpl. lia.
Qed.

(** The reader rebuilds the part of the vector that is still to come. *)
Lemma ReadFixedVarIntsBitSet_loop_write vec pre last rest fuel :
  Z.of_nat (length pre + length vec) < 2 ^ 31 -> -1 <= last < Z.of_nat (length pre) ->
  (length (WriteFixedVarIntsBitSet_loop vec (Z.of_nat (length pre)) last) <= fuel)%nat ->
  ReadFixedVarIntsBitSet_loop fuel (Z.of_nat (length pre + length vec))
    (pre ++ replicate (length vec) false) last
    (WriteFixedVarIntsBitSet_loop vec (Z.of_nat (length pre)) last ++ rest) = Ok (pre ++ vec, rest).
Proof.
  revert pre last fuel; induction vec as [|b vec IH]; intros pre last fuel Hsz Hlast Hf.
  - cbn [WriteFixedVarIntsBitSet_loop replicate length] in *.
    destruct fuel as [|fuel]; [pose proof (WriteVarInt_nonempty 32 0); lia|].
    cbn [ReadFixedVarIntsBitSet_loop]. by rewrite ReadVarInt_write by lia.
  - cbn [WriteFixedVarIntsBitSet_loop length] in *.
    replace (Z.of_nat (length pre) + 1) with (Z.of_nat (length (pre ++ [b]))) in * by (rewrite length_app; simpl; lia).
    replace (length pre + S (length vec))%nat with (length (pre ++ [b]) + length vec)%nat in * by (rewrite length_app; simpl; lia).
    change (replicate (S (length vec)) false) with ([false] ++ replicate (length vec) false).
    destruct b.
    + rewrite length_app in Hf. pose proof (WriteVarInt_nonempty 32 (u32 (Z.of_nat (length pre) - last))).
      destruct fuel as [|fuel]; [lia|]. cbn [ReadFixedVarIntsBitSet_loop].
      rewrite length_app in Hsz. simpl in Hsz.
      assert (u32 (Z.of_nat (length pre) - last) = Z.of_nat (length pre) - last) as Hu by (apply Z.mod_small; lia).
      rewrite Hu, <- app_assoc, ReadVarInt_write by lia. rewrite (proj2 (Z.eqb_neq _ 0)) by lia.
      replace (last + (Z.of_nat (length pre) - last)) with (Z.of_nat (length pre)) by lia.
      assert (u32 (Z.of_nat (length pre)) = Z.of_nat (length pre)) as -> by (apply Z.mod_small; lia).
      rewrite length_app, !s32_small by (simpl; lia). simpl length.
      rewrite (proj2 (Z.leb_gt _ _)), (proj2 (Z.leb_gt _ last)), andb_false_r, (proj2 (Z.ltb_ge _ 0)) by lia.
      rewrite Nat2Z.id, insert_app_r_alt, Nat.sub_diag by lia.
      change (<[0%nat := true]> ([false] ++ replicate (length vec) false)) with ([true] ++ replicate (length vec) false).
      rewrite (app_assoc pre [true]). change (length pre + 1 + length vec)%nat with (length pre + length [true] + length vec)%nat.
      rewrite <- (length_app pre [true]). replace (length pre + 1)%nat with (length (pre ++ [true])) by (rewrite length_app; done). rewrite IH; [by rewrite <- app_assoc|rewrite length_app; simpl; lia|rewrite length_app; simpl; lia|lia].
    + rewrite (app_assoc pre [false]), IH; [by rewrite <- app_assoc|done|rewrite length_app; simpl; lia|done].
Qed.

Lemma ReadFixedVarIntsBitSet_write vec rest :
  Z.of_nat (length vec) < 2 ^ 31 ->
  ReadFixedVarIntsBitSet (length vec) (WriteFixedVarIntsBitSet vec ++ rest) = Ok (vec, rest).
Proof.
  intros Hl. unfold ReadFixedVarIntsBitSet, WriteFixedVarIntsBitSet.
  apply (ReadFixedVarIntsBitSet_loop_write vec [] (-1)); [done|simpl; lia|].
  rewrite length_app. cbn [length]. change (Z.of_nat 0) with 0. lia.
Qed.

Lemma ReadAutoBitSet_write vec rest :
  Z.of_nat (length vec) < 2 ^ 31 ->
  ReadAutoBitSet (length vec) (WriteAutoBitSet vec ++ rest) = Ok (vec, rest).
Proof.
  intros Hl. unfold ReadAutoBitSet, WriteAutoBitSet. case_bool; rewrite <- app_assoc.
  - rewrite (codec_bind _ _ _ _ 0 _ codec_u8) by done. apply ReadFixedBitSet_write.
  - rewrite (codec_bind _ _ _ _ 1 _ codec_u8) by done. by apply ReadFixedVarIntsBitSet_write.
Qed.

(** ** Main properties *)

(** ** Canonical readers *)

Lemma canonical_bind {A B} ser unser ok (k : A -> Parser B) s r :
  Canonical ser unser ok -> bytes_ok s -> (unser ≫= k) s = Ok r ->
  exists x s', s = ser x ++ s' /\ ok x /\ bytes_ok s' /\ k x s' = Ok r.
Proof.
  intros Hc Hs (x & s' & Hx & H)%parser_bind_Ok. destruct (canonical s x s' Hs Hx) as [-> Hok].
  apply Forall_app in Hs as [_ Hs]. eauto 6.
Qed.

#[export] Instance canonical_u16 : Canonical ser_writedata16 ser_readdata16 (unsigned 16).
Proof. intros s x rest Hs H. by apply (read_le_inv 2) in H as (-> & Hx & _). Qed.

#[export] Instance canonical_u32 : Canonical ser_writedata32 ser_readdata32 (unsigned 32).
Proof. intros s x rest Hs H. by apply (read_le_inv 4) in H as (-> & Hx & _). Qed.

#[export] Instance canonical_u64 : Canonical ser_writedata64 ser_readdata64 (unsigned 64).
Proof. intros s x rest Hs H. by apply (read_le_inv 8) in H as (-> & Hx & _). Qed.

Lemma le_bytes_mod n x y : x mod 256 ^ Z.of_nat n = y mod 256 ^ Z.of_nat n -> le_bytes n x = le_bytes n y.
Proof.
  intros H. apply le_val_inj; [apply le_bytes_ok..|by rewrite !le_bytes_length|by rewrite !le_val_bytes].
Qed.

Lemma swrap_spec w x : 0 < w -> signed w (swrap w x) /\ swrap w x mod 2 ^ w = x mod 2 ^ w.
Proof.
  intros Hw. unfold signed. assert (2 ^ w = 2 * 2 ^ (w - 1)) as Hp.
  { rewrite <- Z.pow_succ_r by lia. f_equal. lia. }
  assert (0 < 2 ^ (w - 1)) by (apply Z.pow_pos_nonneg; lia).
  pose proof (Z.mod_pos_bound x (2 ^ w) ltac:(lia)). unfold swrap.
  destruct (_ <? _) eqn:E; bprop; (split; [lia|]); [by rewrite Z.mod_mod by lia|].
  replace (x mod 2 ^ w - 2 ^ w) with (x mod 2 ^ w + -1 * 2 ^ w) by lia. by rewrite Z.mod_add, Z.mod_mod by lia.
Qed.

Lemma canonical_signed n s x rest :
  (0 < n)%nat -> bytes_ok s ->
  ((b ← read_bytes n; mret (le_val b) : Parser Z) ≫= fun y => mret (swrap (8 * Z.of_nat n) y)) s = Ok (x, rest) ->
  s = le_bytes n x ++ rest /\ signed (8 * Z.of_nat n) x.
Proof.
  intros Hn Hs (y & s' & Hy & H)%parser_bind_Ok. apply read_le_inv in Hy as (-> & Hy & _); [|done].
  injection H as <- <-. destruct (swrap_spec (8 * Z.of_nat n) y ltac:(lia)) as [Hsig Hm]. split; [|done].
  f_equal. apply le_bytes_mod.
  by replace (256 ^ Z.of_nat n) with (2 ^ (8 * Z.of_nat n)) by (rewrite Z.pow_mul_r by lia; done).
Qed.

#[export] Instance canonical_i32 : Canonical ser_writedata32 read_int32 (signed 32).
Proof. intros s x rest Hs H. apply (canonical_signed 4); [lia|done..]. Qed.

#[export] Instance canonical_i64 : Canonical ser_writedata64 read_int64 (signed 64).
Proof. intros s x rest Hs H. apply (canonical_signed 8); [lia|done..]. Qed.

#[export] Instance canonical_CompactSize :
  Canonical WriteCompactSize (ReadCompactSize true) (fun n => 0 <= n <= MAX_SIZE).
Proof.
  intros s n rest Hs H. destruct (ReadCompactSize_canonical true s n rest Hs H) as [-> Hn]. split; [done|].
  apply parser_bind_Ok in H as (ch & s1 & _ & (m & s2 & _ & H)%parser_bind_Ok).
  cbn [andb] in H. destruct (MAX_SIZE <? m) eqn:E; [done|]. injection H as <- <-. bprop. lia.
Qed.

#[export] Instance canonical_bytes : Canonical write_bytes read_byte_vector (fun v => zlen v <= MAX_SIZE).
Proof.
  intros s v rest Hs (n & s' & -> & Hn & _ & H)%(canonical_bind _ _ _ _ _ _ canonical_CompactSize); [|done].
  apply read_bytes_inv in H as [-> Hl]. unfold write_bytes, zlen. rewrite Hl, Z2Nat.id by lia.
  split; [by rewrite app_assoc|apply Hn].
Qed.

Lemma canonical_elems {A} (ser : A -> list Z) unser ok n s v rest :
  Canonical ser unser ok -> bytes_ok s -> read_elems unser n s = Ok (v, rest) ->
  s = flat_map ser v ++ rest /\ length v = n /\ Forall ok v.
Proof.
  intros Hc. revert s v. induction n as [|n IH]; intros s v Hs H.
  - injection H as <- <-. by split; [|split; [|constructor]].
  - apply (canonical_bind ser unser ok) in H as (x & s' & -> & Hx & Hs' & H); [|done..].
    apply parser_bind_Ok in H as (l & s2 & Hl & [= <- <-]). apply IH in Hl as (-> & Hn & Hf); [|done].
    split; [by simpl; rewrite app_assoc|]. split; [simpl; by rewrite Hn|by constructor].
Qed.

#[export] Instance canonical_vector {A} (ser : A -> list Z) unser ok :
  Canonical ser unser ok ->
  Canonical (write_vector ser) (read_vector unser) (fun v => zlen v <= MAX_SIZE /\ Forall ok v).
Proof.
  intros Hc s v rest Hs (n & s' & -> & Hn & Hs' & H)%(canonical_bind _ _ _ _ _ _ canonical_CompactSize); [|done].
  apply (canonical_elems ser unser ok) in H as (-> & Hl & Hf); [|done..]. unfold write_vector, zlen.
  rewrite Hl, Z2Nat.id by lia. split; [by rewrite app_assoc|]. split; [apply Hn|done].
Qed.

(** CompactSize is a bijection between numbers and accepted byte prefixes: what is written is read
    back, and whatever is accepted is exactly what is written for the number read. *)
Theorem CompactSize_canonical s n rest :
  bytes_ok s -> 0 <= n < 2 ^ 64 ->
  ReadCompactSize false s = Ok (n, rest) <-> s = WriteCompactSize n ++ rest.
Proof.
  intros Hs Hn. split.
  - intros H. by apply ReadCompactSize_canonical in H as [H _].
  - intros ->. by apply ReadCompactSize_write.
Qed.

Lemma CompactSize_canonical_witness :
  ReadCompactSize false [0xfd; 0xfd; 0x00; 7] = Ok (253, [7]) <->
  [0xfd; 0xfd; 0x00; 7] = WriteCompactSize 253 ++ [7].
Proof. apply CompactSize_canonical; [repeat constructor; lia|lia]. Defined.

(** VarInt is a bijection too: as its description in serialize.h says, every integer has exactly
    one encoding, and it is the one that is accepted; the buffer of [WriteVarInt] is long enough. *)
Theorem VarInt_canonical bits s n rest :
  7 <= bits -> bytes_ok s -> 0 <= n < 2 ^ bits ->
  ReadVarInt bits s = Ok (n, rest) <-> s = WriteVarInt bits n ++ rest.
Proof.
  intros Hb Hs Hn. split.
  - intros H. by apply ReadVarInt_canonical in H as [H _].
  - intros ->. by apply ReadVarInt_write.
Qed.

Lemma VarInt_canonical_witness :
  ReadVarInt 64 [0x82; 0xfe; 0x7f; 9] = Ok (65535, [9]) <->
  [0x82; 0xfe; 0x7f; 9] = WriteVarInt 64 65535 ++ [9].
Proof. apply VarInt_canonical; [lia|repeat constructor; lia|lia]. Defined.

(** A bit set is read back from either of its two formats, whichever is chosen for being shorter. *)
Theorem AutoBitSet_roundtrip vec rest :
  Z.of_nat (length vec) < 2 ^ 31 ->
  ReadAutoBitSet (length vec) (WriteAutoBitSet vec ++ rest) = Ok (vec, rest).
Proof. apply ReadAutoBitSet_write. Qed.

Lemma AutoBitSet_roundtrip_witness :
  ReadAutoBitSet 3 (WriteAutoBitSet [true; false; true] ++ [5]) = Ok ([true; false; true], [5]).
Proof. apply (AutoBitSet_roundtrip [true; false; true]). reflexivity. Defined.

(** The reader of the offset format does not reject a first offset above 2^31: the index becomes
    negative, passes both range checks, and is used to write outside the bit set. *)
Theorem ReadFixedVarIntsBitSet_negative_index offset size rest :
  2 ^ 31 < offset < 2 ^ 32 -> Z.of_nat size < 2 ^ 31 ->
  ReadFixedVarIntsBitSet size (WriteVarInt 32 offset ++ rest) = Abort.
Proof.
  intros Ho Hs. unfold ReadFixedVarIntsBitSet. cbn [ReadFixedVarIntsBitSet_loop].
  rewrite ReadVarInt_write by lia. rewrite (proj2 (Z.eqb_neq offset 0)) by lia.
  assert (s32 (u32 (-1 + offset)) = offset - 1 - 2 ^ 32) as ->.
  { unfold u32, s32, swrap. rewrite Z.mod_mod, Z.mod_small by lia.
    rewrite (proj2 (Z.ltb_ge _ _)) by lia. lia. }
  rewrite s32_small by lia. rewrite (proj2 (Z.leb_gt _ _)) by lia. simpl negb. cbn [andb].
  by rewrite (proj2 (Z.ltb_lt _ 0)) by lia.
Qed.

Lemma ReadFixedVarIntsBitSet_negative_index_witness :
  ReadFixedVarIntsBitSet 8 (WriteVarInt 32 (2 ^ 31 + 1) ++ [0]) = Abort.
Proof. apply ReadFixedVarIntsBitSet_negative_index; [lia|reflexivity]. Defined.
