(* ===== verification/Transaction.v ===== *)
(** * Transactions

    Models src/src/primitives/transaction.h and .cpp: outpoints, inputs, outputs, transactions with
    their byte format, and the comparators; the comparison of src/src/uint256.h and src/src/prevector.h
    they use; and src/src/amount.h.  A [uint256] is the list of its 32 bytes. *)

From stdpp Require Import base list numbers.
From S2P Require Import Prelude Script Crypto Serialize.

Open Scope Z_scope.

(** ** Amounts *)

Definition COIN : Z := 100000000.
Definition MAX_MONEY : Z := 105000000 * COIN.
Definition MoneyRange (nValue : Z) : bool := (0 <=? nValue) && (nValue <=? MAX_MONEY).

(** Addition of [int64_t], undefined when it overflows. *)
Definition add_s64 {E} (a b : Z) : res E Z :=
  if (- 2 ^ 63 <=? a + b) && (a + b <? 2 ^ 63) then Ok (a + b) else Abort.

(** ** uint256 *)

Definition null_hash : list Z := replicate 32 0.
Definition hash_IsNull (h : list Z) : bool := forallb (fun b => b =? 0) h.

(** [memcmp] on buffers of the same size. *)
Fixpoint memcmp (a b : list Z) : Z :=
  match a, b with
  | x :: a, y :: b => if x <? y then -1 else if y <? x then 1 else memcmp a b
  | _, _ => 0
  end.

(** [std::lexicographical_compare]. *)
Fixpoint lexicographical_compare (a b : list Z) : bool :=
  match a, b with
  | _, [] => false
  | [], _ :: _ => true
  | x :: a, y :: b => if x <? y then true else if y <? x then false else lexicographical_compare a b
  end.

(** [prevector::operator<], the order of scripts: the shorter one first. *)
Definition prevector_lt (a b : list Z) : bool :=
  if zlen a <? zlen b then true else if zlen b <? zlen a then false else lexicographical_compare a b.

(** ** Outpoints, inputs and outputs *)

Record COutPoint : Type := MkOutPoint { op_hash : list Z; op_n : Z }.

#[export] Instance COutPoint_eq_dec : EqDecision COutPoint.
Proof. solve_decision. Defined.

Definition NULL_INDEX : Z := 2 ^ 32 - 1.
Definition outpoint_SetNull : COutPoint := MkOutPoint null_hash NULL_INDEX.
Definition outpoint_IsNull (o : COutPoint) : bool := hash_IsNull (op_hash o) && (op_n o =? NULL_INDEX).

Definition outpoint_lt (a b : COutPoint) : bool :=
  let cmp := memcmp (op_hash a) (op_hash b) in
  (cmp <? 0) || ((cmp =? 0) && (op_n a <? op_n b)).

Definition ser_outpoint (o : COutPoint) : list Z := op_hash o ++ ser_writedata32 (op_n o).
Definition unser_outpoint : Parser COutPoint :=
  hash ← read_bytes 32; n ← ser_readdata32; mret (MkOutPoint hash n).

Record CTxIn : Type := MkTxIn { prevout : COutPoint; scriptSig : list Z; nSequence : Z }.

#[export] Instance CTxIn_eq_dec : EqDecision CTxIn.
Proof. solve_decision. Defined.

Definition SEQUENCE_FINAL : Z := 0xffffffff.
Definition SEQUENCE_LOCKTIME_TYPE_FLAG : Z := 2 ^ 22.
Definition SEQUENCE_LOCKTIME_MASK : Z := 0x0000ffff.
Definition SEQUENCE_LOCKTIME_GRANULARITY : Z := 9.

Definition ser_txin (i : CTxIn) : list Z :=
  ser_outpoint (prevout i) ++ write_bytes (scriptSig i) ++ ser_writedata32 (nSequence i).
Definition unser_txin : Parser CTxIn :=
  o ← unser_outpoint; s ← read_byte_vector; n ← ser_readdata32; mret (MkTxIn o s n).

Record CTxOut : Type := MkTxOut { nValue : Z; scriptPubKey : list Z }.

#[export] Instance CTxOut_eq_dec : EqDecision CTxOut.
Proof. solve_decision. Defined.

Definition txout_SetNull : CTxOut := MkTxOut (-1) [].
Definition txout_IsNull (o : CTxOut) : bool := nValue o =? -1.
Definition txout_SetEmpty : CTxOut := MkTxOut 0 [].
Definition txout_IsEmpty (o : CTxOut) : bool :=
  (nValue o =? 0) && match scriptPubKey o with [] => true | _ => false end.

Definition ser_txout (o : CTxOut) : list Z := ser_writedata64 (nValue o) ++ write_bytes (scriptPubKey o).
Definition unser_txout : Parser CTxOut :=
  v ← read_int64; s ← read_byte_vector; mret (MkTxOut v s).

Definition CompareInputBIP69 (a b : CTxIn) : bool :=
  if bool_decide (op_hash (prevout a) = op_hash (prevout b)) then op_n (prevout a) <? op_n (prevout b)
  else lexicographical_compare (rev (op_hash (prevout a))) (rev (op_hash (prevout b))).

Definition CompareOutputBIP69 (a b : CTxOut) : bool :=
  (nValue a <? nValue b) || ((nValue a =? nValue b) && prevector_lt (scriptPubKey a) (scriptPubKey b)).

(** ** Transactions *)

Definition TRANSACTION_NORMAL : Z := 0.
Definition TRANSACTION_PROVIDER_REGISTER : Z := 1.
Definition TRANSACTION_PROVIDER_UPDATE_SERVICE : Z := 2.
Definition TRANSACTION_PROVIDER_UPDATE_REGISTRAR : Z := 3.
Definition TRANSACTION_PROVIDER_UPDATE_REVOKE : Z := 4.
Definition TRANSACTION_COINBASE : Z := 5.
Definition TRANSACTION_QUORUM_COMMITMENT : Z := 6.
Definition TRANSACTION_MNHF_SIGNAL : Z := 7.

(** The fields of CTransaction and of CMutableTransaction. *)
Record CTransaction : Type := MkTransaction {
  vin : list CTxIn;
  vout : list CTxOut;
  nVersion : Z;
  nType : Z;
  nLockTime : Z;
  nTime : Z;
  vExtraPayload : list Z
}.
Abbreviation CMutableTransaction := CTransaction.

#[export] Instance CTransaction_eq_dec : EqDecision CTransaction.
Proof. solve_decision. Defined.

Definition CURRENT_VERSION : Z := 4.

Definition n32bitVersion (nVersion nType : Z) : Z := s32 (Z.lor nVersion (Z.shiftl nType 16)).

Definition has_time (nVersion : Z) : bool := (nVersion =? 1) || (nVersion =? 2).
Definition has_payload (nVersion nType : Z) : bool := (nVersion =? 3) && negb (nType =? TRANSACTION_NORMAL).

Definition tx_Serialize (tx : CTransaction) : list Z :=
  ser_writedata32 (n32bitVersion (nVersion tx) (nType tx)) ++
  (if has_time (nVersion tx) then ser_writedata32 (nTime tx) else []) ++
  write_vector ser_txin (vin tx) ++ write_vector ser_txout (vout tx) ++ ser_writedata32 (nLockTime tx) ++
  (if has_payload (nVersion tx) (nType tx) then write_bytes (vExtraPayload tx) else []).

(** The deserializing constructor: it leaves [nTime] uninitialised when the version has none, so the
    value [nTime0] found there is an argument. *)
Definition tx_Unserialize (nTime0 : Z) : Parser CMutableTransaction :=
  n32 ← read_int32;
  let version := s16 (Z.land n32 0xffff) in
  let type := u16 (Z.land (Z.shiftr n32 16) 0xffff) in
  time ← (if has_time version then ser_readdata32 else mret nTime0);
  ins ← read_vector unser_txin;
  outs ← read_vector unser_txout;
  locktime ← ser_readdata32;
  payload ← (if has_payload version type then read_byte_vector else mret []);
  mret (MkTransaction ins outs version type locktime time payload).

(** [CMutableTransaction()] and [CMutableTransaction(const CTransaction&)]: neither sets [nTime]. *)
Definition CMutableTransaction_default (nTime0 : Z) : CMutableTransaction :=
  MkTransaction [] [] CURRENT_VERSION TRANSACTION_NORMAL 0 nTime0 [].
Definition CMutableTransaction_of (nTime0 : Z) (tx : CTransaction) : CMutableTransaction :=
  MkTransaction (vin tx) (vout tx) (nVersion tx) (nType tx) (nLockTime tx) nTime0 (vExtraPayload tx).
(** [CTransaction()] and [CTransaction(const CMutableTransaction&)]. *)
Definition CTransaction_default : CTransaction :=
  MkTransaction [] [] CURRENT_VERSION TRANSACTION_NORMAL 0 0 [].
Definition CTransaction_of (tx : CMutableTransaction) : CTransaction :=
  MkTransaction (vin tx) (vout tx) (nVersion tx) (nType tx) (nLockTime tx) (nTime tx) (vExtraPayload tx).

Definition ComputeHash {crypto : CryptoOps} (tx : CTransaction) : list Z := Hash (tx_Serialize tx).

Definition tx_IsNull (tx : CTransaction) : bool :=
  match vin tx, vout tx with [], [] => true | _, _ => false end.

Definition IsCoinBase (tx : CTransaction) : bool :=
  match vin tx with [i] => outpoint_IsNull (prevout i) | _ => false end.

Definition IsCoinStake (tx : CTransaction) : bool :=
  match vin tx with
  | [] => false
  | i :: _ =>
      if outpoint_IsNull (prevout i) then false
      else match vout tx with o :: _ :: _ => txout_IsEmpty o | _ => false end
  end.

(** [Err] is the exception. *)
Fixpoint GetValueOut_loop (outs : list CTxOut) (nValueOut : Z) : res unit Z :=
  match outs with
  | [] => Ok nValueOut
  | tx_out :: outs =>
      if negb (MoneyRange (nValue tx_out)) then Err tt else
      sum ← add_s64 nValueOut (nValue tx_out);
      if negb (MoneyRange sum) then Err tt else GetValueOut_loop outs sum
  end.

Definition GetValueOut (tx : CTransaction) : res unit Z :=
  nValueOut ← GetValueOut_loop (vout tx) 0;
  if negb (MoneyRange nValueOut) then Abort else Ok nValueOut.

Definition GetTotalSize (tx : CTransaction) : Z := u32 (zlen (tx_Serialize tx)).

(** ** The byte format *)

Definition outpoint_ok (o : COutPoint) : Prop := length (op_hash o) = 32%nat /\ unsigned 32 (op_n o).
Definition txin_ok (i : CTxIn) : Prop :=
  outpoint_ok (prevout i) /\ zlen (scriptSig i) <= MAX_SIZE /\ unsigned 32 (nSequence i).
Definition txout_ok (o : CTxOut) : Prop := signed 64 (nValue o) /\ zlen (scriptPubKey o) <= MAX_SIZE.

#[export] Instance codec_outpoint : Codec ser_outpoint unser_outpoint outpoint_ok.
Proof.
  intros [h n] rest [Hh Hn]. unfold ser_outpoint, unser_outpoint. cbn [op_hash op_n] in *. rewrite <- app_assoc.
  unfold mbind at 1, Parser_bind at 1. rewrite read_bytes_app by done.
  by rewrite (codec_bind _ _ _ _ n _ codec_u32).
Qed.

#[export] Instance canonical_outpoint : Canonical ser_outpoint unser_outpoint outpoint_ok.
Proof.
  intros s o rest Hs (h & s1 & Hh & H)%parser_bind_Ok. apply read_bytes_inv in Hh as [-> Hl].
  apply Forall_app in Hs as [_ Hs].
  apply (canonical_bind _ _ _ _ _ _ canonical_u32) in H as (n & s2 & -> & Hn & _ & [= <- <-]); [|done].
  unfold ser_outpoint. by rewrite <- app_assoc.
Qed.

#[export] Instance codec_txin : Codec ser_txin unser_txin txin_ok.
Proof.
  intros [o s n] rest (Ho & Hs & Hn). unfold ser_txin, unser_txin. cbn [prevout scriptSig nSequence] in *.
  rewrite <- !app_assoc, (codec_bind _ _ _ _ o _ codec_outpoint), (codec_bind _ _ _ _ s _ codec_bytes) by done.
  by rewrite (codec_bind _ _ _ _ n _ codec_u32).
Qed.

#[export] Instance canonical_txin : Canonical ser_txin unser_txin txin_ok.
Proof.
  intros s i rest Hs H. apply (canonical_bind _ _ _ _ _ _ canonical_outpoint) in H as (o & s1 & -> & Ho & Hs1 & H); [|done].
  apply (canonical_bind _ _ _ _ _ _ canonical_bytes) in H as (sc & s2 & -> & Hsc & Hs2 & H); [|done].
  apply (canonical_bind _ _ _ _ _ _ canonical_u32) in H as (n & s3 & -> & Hn & _ & [= <- <-]); [|done].
  unfold ser_txin. by rewrite <- !app_assoc.
Qed.

#[export] Instance codec_txout : Codec ser_txout unser_txout txout_ok.
Proof.
  intros [v s] rest [Hv Hs]. unfold ser_txout, unser_txout. cbn [nValue scriptPubKey] in *.
  by rewrite <- app_assoc, (codec_bind _ _ _ _ v _ codec_i64), (codec_bind _ _ _ _ s _ codec_bytes).
Qed.

#[export] Instance canonical_txout : Canonical ser_txout unser_txout txout_ok.
Proof.
  intros s i rest Hs H. apply (canonical_bind _ _ _ _ _ _ canonical_i64) in H as (v & s1 & -> & Hv & Hs1 & H); [|done].
  apply (canonical_bind _ _ _ _ _ _ canonical_bytes) in H as (sc & s2 & -> & Hsc & _ & [= <- <-]); [|done].
  unfold ser_txout. by rewrite <- !app_assoc.
Qed.

(** The version and the type share one integer. *)
Lemma land_ffff x : Z.land x 0xffff = x mod 2 ^ 16.
Proof. apply (Z.land_ones x 16). lia. Qed.

Lemma s16_small v : 0 <= v < 2 ^ 15 -> s16 v = v.
Proof. intros Hv. unfold s16, swrap. rewrite Z.mod_small by lia. by rewrite (proj2 (Z.ltb_lt _ _)) by lia. Qed.

Lemma u16_mod x : u16 (x mod 2 ^ 16) = x mod 2 ^ 16.
Proof. unfold u16. by rewrite Z.mod_mod by lia. Qed.

Lemma n32bitVersion_signed v t : signed 32 (n32bitVersion v t).
Proof. apply swrap_spec. lia. Qed.

Lemma version_written v t :
  0 <= v < 2 ^ 15 -> unsigned 16 t ->
  s16 (Z.land (n32bitVersion v t) 0xffff) = v /\
  u16 (Z.land (Z.shiftr (n32bitVersion v t) 16) 0xffff) = t.
Proof.
  intros Hv Ht. unfold unsigned in Ht. unfold n32bitVersion. rewrite lor_shiftl_add by lia.
  destruct (swrap_spec 32 (v + 2 ^ 16 * t) ltac:(lia)) as [_ Hm]. fold (s32 (v + 2 ^ 16 * t)) in Hm.
  set (n := s32 _) in *. rewrite (Z.mod_small (v + _)) in Hm by lia.
  pose proof (Z.div_mod n (2 ^ 32) ltac:(lia)) as Hn. rewrite Hm in Hn. set (q := n / 2 ^ 32) in *.
  rewrite !land_ffff, u16_mod, Z.shiftr_div_pow2 by lia. split.
  - replace n with (v + (2 ^ 16 * q + t) * 2 ^ 16) by lia. rewrite Z.mod_add, Z.mod_small by lia.
    apply s16_small. lia.
  - replace n with (v + (t + q * 2 ^ 16) * 2 ^ 16) by lia.
    rewrite Z.div_add, (Z.div_small v), Z.add_0_l, Z.mod_add, Z.mod_small by lia. done.
Qed.

Lemma version_read n :
  signed 32 n -> 0 <= s16 (Z.land n 0xffff) ->
  n32bitVersion (s16 (Z.land n 0xffff)) (u16 (Z.land (Z.shiftr n 16) 0xffff)) = n.
Proof.
  intros Hn Hv. rewrite !land_ffff, Z.shiftr_div_pow2 in * by lia. rewrite u16_mod.
  pose proof (Z.mod_pos_bound n (2 ^ 16) ltac:(lia)) as Hb.
  assert (Hlow : s16 (n mod 2 ^ 16) = n mod 2 ^ 16).
  { unfold s16, swrap in *. rewrite Z.mod_mod in * by lia. destruct (_ <? _) eqn:E; [done|lia]. }
  rewrite Hlow. unfold n32bitVersion. rewrite lor_shiftl_add by lia.
  transitivity (s32 (n mod 2 ^ 32)); [|by apply swrap_mod]. f_equal.
  change (2 ^ 32) with (2 ^ 16 * 2 ^ 16). by rewrite Z.rem_mul_r by lia.
Qed.

Lemma version_negative v t : - 2 ^ 15 <= v < 0 -> unsigned 16 t -> n32bitVersion v t = v.
Proof.
  intros Hv Ht. unfold n32bitVersion.
  assert (Z.lor v (Z.shiftl t 16) = v) as ->.
  { apply Z.bits_inj'. intros i Hi. rewrite Z.lor_spec, Z.shiftl_spec by done.
    destruct (Z.lt_ge_cases i 16); [by rewrite (Z.testbit_neg_r t), orb_false_r by lia|].
    replace v with (Z.lnot (- v - 1)) by (unfold Z.lnot; lia).
    by rewrite Z.lnot_spec, (testbit_small _ 15) by lia. }
  unfold s32. rewrite <- (swrap_mod 32 v) at 2 by (unfold signed; lia).
  unfold swrap. by rewrite Z.mod_mod by lia.
Qed.

(** A transaction as the deserializing constructor can leave it: fields within their types, and the
    fields the version does not have at their initial value. *)
Record tx_ok (nTime0 : Z) (tx : CTransaction) : Prop := {
  tx_ok_vin : zlen (vin tx) <= MAX_SIZE /\ Forall txin_ok (vin tx);
  tx_ok_vout : zlen (vout tx) <= MAX_SIZE /\ Forall txout_ok (vout tx);
  tx_ok_type : unsigned 16 (nType tx);
  tx_ok_lock : unsigned 32 (nLockTime tx);
  tx_ok_time : if has_time (nVersion tx) then unsigned 32 (nTime tx) else nTime tx = nTime0;
  tx_ok_payload :
    if has_payload (nVersion tx) (nType tx) then zlen (vExtraPayload tx) <= MAX_SIZE else vExtraPayload tx = []
}.

Lemma tx_roundtrip nTime0 tx rest :
  tx_ok nTime0 tx -> 0 <= nVersion tx < 2 ^ 15 ->
  tx_Unserialize nTime0 (tx_Serialize tx ++ rest) = Ok (tx, rest).
Proof.
  destruct tx as [ins outs v t lock time pay]. intros [Hin Hout Ht Hl Htm Hp] Hv. cbn in *.
  unfold tx_Serialize, tx_Unserialize. cbn. rewrite <- !app_assoc.
  rewrite (codec_bind _ _ _ _ _ _ codec_i32) by apply n32bitVersion_signed.
  destruct (version_written v t Hv Ht) as [-> ->].
  assert (forall B (k : Z -> Parser B) r, ((if has_time v then ser_readdata32 else mret nTime0) ≫= k)
    ((if has_time v then ser_writedata32 time else []) ++ r) = k time r) as ->.
  { intros B k r. destruct (has_time v); [by apply (codec_bind _ _ _ _ _ _ codec_u32)|by subst]. }
  rewrite (codec_bind _ _ _ _ _ _ (codec_vector _ _ _ codec_txin)) by done.
  rewrite (codec_bind _ _ _ _ _ _ (codec_vector _ _ _ codec_txout)) by done.
  rewrite (codec_bind _ _ _ _ _ _ codec_u32) by done.
  destruct (has_payload v t); [by rewrite (codec_bind _ _ _ _ _ _ codec_bytes)|by subst].
Qed.

Lemma tx_canonical nTime0 s tx rest :
  bytes_ok s -> tx_Unserialize nTime0 s = Ok (tx, rest) ->
  tx_ok nTime0 tx /\ (0 <= nVersion tx -> s = tx_Serialize tx ++ rest).
Proof.
  intros Hs H. apply (canonical_bind _ _ _ _ _ _ canonical_i32) in H as (n & s1 & -> & Hn & Hs1 & H); [|done].
  set (v := s16 (Z.land n 0xffff)) in *. set (t := u16 (Z.land (Z.shiftr n 16) 0xffff)) in *. cbv zeta in H.
  apply parser_bind_Ok in H as (time & s2 & Htime & H).
  assert (Ht : s1 = (if has_time v then ser_writedata32 time else []) ++ s2 /\
    (if has_time v then unsigned 32 time else time = nTime0) /\ bytes_ok s2).
  { destruct (has_time v); [|injection Htime as <- <-; done].
    apply canonical in Htime as [-> Hu]; [|done]. by apply Forall_app in Hs1 as [_ Hs2]. }
  destruct Ht as (-> & Ht & Hs2). clear Htime Hs Hs1.
  apply (canonical_bind _ _ _ _ _ _ (canonical_vector _ _ _ canonical_txin)) in H as (ins & s3 & -> & Hin & Hs3 & H); [|done].
  apply (canonical_bind _ _ _ _ _ _ (canonical_vector _ _ _ canonical_txout)) in H as (outs & s4 & -> & Hout & Hs4 & H); [|done].
  apply (canonical_bind _ _ _ _ _ _ canonical_u32) in H as (lock & s5 & -> & Hl & Hs5 & H); [|done].
  apply parser_bind_Ok in H as (pay & s6 & Hpay & [= <- <-]).
  assert (Hp : s5 = (if has_payload v t then write_bytes pay else []) ++ s6 /\
    (if has_payload v t then zlen pay <= MAX_SIZE else pay = [])).
  { destruct (has_payload v t); [by apply canonical in Hpay|injection Hpay as <- <-; done]. }
  destruct Hp as [-> Hp]. split.
  - constructor; try done. unfold t. rewrite land_ffff, u16_mod. apply Z.mod_pos_bound. lia.
  - intros Hv. unfold tx_Serialize. cbn. rewrite <- !app_assoc. by replace (n32bitVersion v t) with n by (symmetry; by apply version_read).
Qed.

(** A transaction whose fields are within their types and whose version is not negative is read
    back from its bytes, for the versions with a time field and the special transactions with a payload
    alike. *)
Theorem transaction_roundtrip nTime0 tx rest :
  tx_ok nTime0 tx -> 0 <= nVersion tx < 2 ^ 15 ->
  tx_Unserialize nTime0 (tx_Serialize tx ++ rest) = Ok (tx, rest).
Proof. apply tx_roundtrip. Qed.

Definition sample_tx : CTransaction :=
  MkTransaction [MkTxIn (MkOutPoint (replicate 32 7) 1) [0x51] SEQUENCE_FINAL] [MkTxOut 5000 [0x51; 0x87]]
    3 TRANSACTION_PROVIDER_REGISTER 17 99 [1; 2; 3].

Lemma transaction_roundtrip_witness :
  tx_Unserialize 99 (tx_Serialize sample_tx ++ [1]) = Ok (sample_tx, [1]).
Proof.
  apply transaction_roundtrip; [|simpl; lia].
  constructor; simpl; unfold unsigned; repeat (split || constructor); simpl; lia || done.
Defined.

(** The bytes of a transaction are not malleable: whatever the reader accepts, with a version that
    is not negative, is exactly what is written for the transaction, so that equal transactions have
    equal bytes and the hash commits to all of them; and the fields read are within their types. *)
Theorem transaction_canonical nTime0 s tx rest :
  bytes_ok s -> tx_Unserialize nTime0 s = Ok (tx, rest) ->
  tx_ok nTime0 tx /\ (0 <= nVersion tx -> s = tx_Serialize tx ++ rest).
Proof. apply tx_canonical. Qed.

Lemma transaction_canonical_witness :
  tx_ok 99 sample_tx /\ (0 <= nVersion sample_tx -> tx_Serialize sample_tx ++ [1] = tx_Serialize sample_tx ++ [1]).
Proof.
  apply (transaction_canonical 99 (tx_Serialize sample_tx ++ [1]) sample_tx [1]);
    [|vm_compute; reflexivity].
  apply (bool_decide_unpack (Forall (fun b => 0 <= b < 256) _)). vm_compute. exact I.
Defined.

(** A negative version is sign-extended over the type: whatever the type, the bytes are those of
    type 0xffff, and the transaction read back has that type.  The bytes of another type are accepted,
    but they are not the bytes that are written (and hashed) for the transaction. *)
Theorem negative_version_loses_type nTime0 tx rest :
  tx_ok nTime0 tx -> - 2 ^ 15 <= nVersion tx < 0 ->
  exists tx', tx_Unserialize nTime0 (tx_Serialize tx ++ rest) = Ok (tx', rest) /\
    nVersion tx' = nVersion tx /\ nType tx' = 0xffff.
Proof.
  destruct tx as [ins outs v t lock time pay]. intros [Hin Hout Ht Hl Htm Hp] Hv. cbn in *.
  exists (MkTransaction ins outs v 0xffff lock time pay). split; [|done].
  unfold tx_Serialize, tx_Unserialize. cbn. rewrite <- !app_assoc.
  assert (has_time v = false) as Hnt by (unfold has_time; by rewrite !(proj2 (Z.eqb_neq v _)) by lia).
  assert (forall t', has_payload v t' = false) as Hnp by (intros; unfold has_payload; by rewrite (proj2 (Z.eqb_neq v _)) by lia).
  rewrite Hnp, Hnt in *. subst. rewrite version_negative by done.
  rewrite (codec_bind _ _ _ _ _ _ codec_i32) by (unfold signed; lia).
  assert (s16 (Z.land v 0xffff) = v) as -> by (rewrite land_ffff; apply swrap_mod; [lia|unfold signed; lia]).
  assert (Z.shiftr v 16 = -1) as -> by (rewrite Z.shiftr_div_pow2 by lia; symmetry; apply Z.div_unique with (v + 2 ^ 16); lia).
  rewrite Hnt, Hnp. cbn [app].
  rewrite parser_ret_bind.
  rewrite (codec_bind _ _ _ _ _ _ (codec_vector _ _ _ codec_txin)) by done.
  rewrite (codec_bind _ _ _ _ _ _ (codec_vector _ _ _ codec_txout)) by done.
  by rewrite (codec_bind _ _ _ _ _ _ codec_u32).
Qed.

Definition negative_tx : CTransaction := MkTransaction [] [] (-1) TRANSACTION_NORMAL 0 0 [].

Lemma negative_version_loses_type_witness :
  exists tx', tx_Unserialize 0 (tx_Serialize negative_tx ++ []) = Ok (tx', []) /\
    nVersion tx' = -1 /\ nType tx' = 0xffff.
Proof.
  apply (negative_version_loses_type 0 negative_tx []); [|simpl; lia].
  constructor; simpl; unfold unsigned; repeat (split || constructor); simpl; lia || done.
Defined.

(** The conversion of a transaction of version 1 or 2 to a mutable one keeps whatever value [nTime]
    had in memory: unless it happens to be the time of the transaction, the copy serializes, and hashes,
    differently. *)
Theorem CMutableTransaction_loses_time nTime0 tx :
  has_time (nVersion tx) = true -> unsigned 32 nTime0 -> unsigned 32 (nTime tx) ->
  tx_Serialize (CMutableTransaction_of nTime0 tx) = tx_Serialize tx <-> nTime0 = nTime tx.
Proof.
  intros Hv H0 Ht. unfold tx_Serialize. cbn. rewrite Hv. split; [|by intros <-].
  intros [H _]%(app_inv_head _ _ _)%app_inj_1; [|done].
  rewrite <- (Z.mod_small nTime0 (2 ^ 32)), <- (Z.mod_small (nTime tx) (2 ^ 32)) by done.
  pose proof (f_equal le_val H) as Hl. unfold ser_writedata32, WriteLE32 in Hl. by rewrite !le_val_bytes in Hl.
Qed.

Lemma CMutableTransaction_loses_time_witness :
  tx_Serialize (CMutableTransaction_of 1 (MkTransaction [] [] 1 0 0 5 [])) =
    tx_Serialize (MkTransaction [] [] 1 0 0 5 []) <-> 1 = 5.
Proof. apply (CMutableTransaction_loses_time 1 (MkTransaction [] [] 1 0 0 5 [])); [reflexivity|unfold unsigned; simpl; lia..]. Defined.

(** ** The value of the outputs *)

Lemma MoneyRange_spec v : MoneyRange v = true <-> 0 <= v <= MAX_MONEY.
Proof. unfold MoneyRange. rewrite andb_true_iff, !Z.leb_le. lia. Qed.

Definition sum_values (outs : list CTxOut) : Z := foldr (fun o => Z.add (nValue o)) 0 outs.

Lemma sum_values_nonneg outs : Forall (fun o => 0 <= nValue o) outs -> 0 <= sum_values outs.
Proof. induction 1; simpl; lia. Qed.

Lemma GetValueOut_loop_spec outs acc :
  0 <= acc <= MAX_MONEY ->
  GetValueOut_loop outs acc =
    if bool_decide (Forall (fun o => 0 <= nValue o <= MAX_MONEY) outs /\ acc + sum_values outs <= MAX_MONEY)
    then Ok (acc + sum_values outs) else Err tt.
Proof.
  revert acc; induction outs as [|o outs IH]; intros acc Ha; cbn [GetValueOut_loop sum_values foldr].
  { rewrite bool_decide_true by (split; [constructor|lia]). by rewrite Z.add_0_r. }
  fold (sum_values outs). destruct (MoneyRange (nValue o)) eqn:E; cbn [negb].
  2: { rewrite bool_decide_false; [done|]. intros [[Hv _]%Forall_cons _]. apply MoneyRange_spec in Hv. congruence. }
  apply MoneyRange_spec in E. assert (MAX_MONEY < 2 ^ 62) by done. unfold add_s64.
  rewrite (proj2 (Z.leb_le (- 2 ^ 63) _)), (proj2 (Z.ltb_lt _ _)) by lia. cbn [andb mbind res_bind].
  destruct (MoneyRange (acc + nValue o)) eqn:E2; cbn [negb].
  - apply MoneyRange_spec in E2. rewrite IH, Z.add_assoc by done.
    erewrite bool_decide_ext; [done|]. rewrite Forall_cons. tauto.
  - rewrite bool_decide_false; [done|]. intros [[_ Hf]%Forall_cons Hs].
    assert (0 <= sum_values outs) by (apply sum_values_nonneg; eapply Forall_impl; [exact Hf|]; intros ? [? _]; done).
    assert (Hr : MoneyRange (acc + nValue o) = true) by (apply MoneyRange_spec; lia). congruence.
Qed.

Lemma GetValueOut_spec tx :
  GetValueOut tx =
    if bool_decide (Forall (fun o => 0 <= nValue o <= MAX_MONEY) (vout tx) /\ sum_values (vout tx) <= MAX_MONEY)
    then Ok (sum_values (vout tx)) else Err tt.
Proof.
  unfold GetValueOut. rewrite GetValueOut_loop_spec by done. rewrite Z.add_0_l.
  case_bool_decide as H; [|done]. cbn. destruct H as [Hf Hs].
  rewrite (proj2 (MoneyRange_spec (sum_values (vout tx)))); [done|]. split; [|done].
  apply sum_values_nonneg. eapply Forall_impl; [exact Hf|]. intros ? [? _]. done.
Qed.

(** ** The comparators *)

Lemma lex_irrefl a : lexicographical_compare a a = false.
Proof. induction a as [|x a IH]; [done|]. simpl. by rewrite Z.ltb_irrefl. Qed.

Lemma lex_cons x a y b :
  lexicographical_compare (x :: a) (y :: b) = true <-> x < y \/ (x = y /\ lexicographical_compare a b = true).
Proof.
  cbn [lexicographical_compare]. destruct (Z.ltb_spec x y); [by split; [left|]|].
  destruct (Z.ltb_spec y x); (split; [|intros [?|[? ?]]]; try done; try lia). intros ?. right. split; [lia|done].
Qed.

Lemma lex_trans a b c :
  lexicographical_compare a b = true -> lexicographical_compare b c = true -> lexicographical_compare a c = true.
Proof.
  revert b c; induction a as [|x a IH]; intros [|y b] [|z c]; try done.
  rewrite !lex_cons. intros [?|[-> Hab]] [?|[-> Hbc]]; [left; lia|by left|by left|right; eauto].
Qed.

Lemma lex_total a b : lexicographical_compare a b = true \/ a = b \/ lexicographical_compare b a = true.
Proof.
  revert b; induction a as [|x a IH]; intros [|y b]; auto. rewrite !lex_cons.
  destruct (Z.lt_trichotomy x y) as [?|[->|?]]; auto. destruct (IH b) as [?|[->|?]]; auto 6.
Qed.

Lemma prevector_lt_spec a b :
  prevector_lt a b = true <-> zlen a < zlen b \/ (zlen a = zlen b /\ lexicographical_compare a b = true).
Proof.
  unfold prevector_lt. destruct (Z.ltb_spec (zlen a) (zlen b)); [by split; [left|]|].
  destruct (Z.ltb_spec (zlen b) (zlen a)); (split; [|intros [?|[? ?]]]; try done; try lia). intros ?. right. split; [lia|done].
Qed.

Lemma CompareOutputBIP69_spec a b :
  CompareOutputBIP69 a b = true <->
  nValue a < nValue b \/ (nValue a = nValue b /\
    (zlen (scriptPubKey a) < zlen (scriptPubKey b) \/ (zlen (scriptPubKey a) = zlen (scriptPubKey b) /\
      lexicographical_compare (scriptPubKey a) (scriptPubKey b) = true))).
Proof.
  unfold CompareOutputBIP69. by rewrite orb_true_iff, andb_true_iff, Z.ltb_lt, Z.eqb_eq, prevector_lt_spec.
Qed.

(** The comparator the outputs are sorted with is a strict total order, so the sorted transaction
    does not depend on the order its outputs came in; but it is not the order of BIP69, which compares
    the scripts as byte strings: a shorter script comes first whatever its bytes. *)
Theorem CompareOutputBIP69_order :
  (forall a, CompareOutputBIP69 a a = false) /\
  (forall a b c, CompareOutputBIP69 a b = true -> CompareOutputBIP69 b c = true -> CompareOutputBIP69 a c = true) /\
  (forall a b, CompareOutputBIP69 a b = true \/ a = b \/ CompareOutputBIP69 b a = true) /\
  (exists a b, nValue a = nValue b /\ lexicographical_compare (scriptPubKey a) (scriptPubKey b) = true /\
     CompareOutputBIP69 b a = true).
Proof.
  split; [|split; [|split]].
  - intros a. apply not_true_iff_false. rewrite CompareOutputBIP69_spec, lex_irrefl. intuition lia || done.
  - intros a b c. rewrite !CompareOutputBIP69_spec. pose proof (lex_trans (scriptPubKey a) (scriptPubKey b) (scriptPubKey c)).
    intros Hab Hbc. destruct Hab as [?|[? [?|[? ?]]]], Hbc as [?|[? [?|[? ?]]]]; try (left; lia);
      right; (split; [lia|]); try (left; lia). right. split; [lia|auto].
  - intros [v s] [w t]. rewrite !CompareOutputBIP69_spec. cbn [nValue scriptPubKey].
    destruct (Z.lt_trichotomy v w) as [?|[->|?]]; auto.
    destruct (Z.lt_trichotomy (zlen s) (zlen t)) as [?|[?|?]]; auto 6.
    destruct (lex_total s t) as [?|[->|?]]; auto 8.
  - exists (MkTxOut 1 [0x51; 0x51]), (MkTxOut 1 [0x6a]). done.
Qed.
