(* ===== verification/Compressor.v ===== *)
(** * Compression of amounts and scripts

    Models src/src/compressor.cpp and the serializers of src/src/compressor.h, which the coin database
    is written with. *)

From stdpp Require Import base list numbers.
From S2P Require Import Prelude Script Crypto Serialize Transaction.

Open Scope Z_scope.

(** ** Amounts *)

(** [while (((n % 10) == 0) && e < 9)]: at most nine rounds. *)
Fixpoint CompressAmount_loop (fuel : nat) (n e : Z) : Z * Z :=
  match fuel with
  | O => (n, e)
  | S fuel =>
      if (n mod 10 =? 0) && (e <? 9) then CompressAmount_loop fuel (n / 10) (e + 1) else (n, e)
  end.

Definition CompressAmount (n : Z) : res unit Z :=
  if n =? 0 then Ok 0 else
  let '(n, e) := CompressAmount_loop 9 n 0 in
  if e <? 9 then
    let d := n mod 10 in
    if negb ((1 <=? d) && (d <=? 9)) then Abort else
    let n := n / 10 in
    Ok (u64 (1 + u64 (u64 (n * 9 + d - 1) * 10) + e))
  else Ok (u64 (1 + u64 (u64 (n - 1) * 10) + 9)).

Fixpoint DecompressAmount_loop (e : nat) (n : Z) : Z :=
  match e with O => n | S e => DecompressAmount_loop e (u64 (n * 10)) end.

Definition DecompressAmount (x : Z) : Z :=
  if x =? 0 then 0 else
  let x := x - 1 in
  let e := x mod 10 in
  let x := x / 10 in
  let n :=
    if e <? 9 then
      let d := x mod 9 + 1 in u64 (x / 9 * 10 + d)
    else u64 (x + 1) in
  DecompressAmount_loop (Z.to_nat e) n.

(** ** Scripts *)

Definition IsToKeyID (script : list Z) : option (list Z) :=
  if (zlen script =? 25) && (vget script 0 =? opcode_val OP_DUP) &&
     (vget script 1 =? opcode_val OP_HASH160) && (vget script 2 =? 20) &&
     (vget script 23 =? opcode_val OP_EQUALVERIFY) && (vget script 24 =? opcode_val OP_CHECKSIG)
  then Some (take 20 (drop 3 script)) else None.

Definition IsToScriptID (script : list Z) : option (list Z) :=
  if (zlen script =? 23) && (vget script 0 =? opcode_val OP_HASH160) && (vget script 1 =? 20) &&
     (vget script 22 =? opcode_val OP_EQUAL)
  then Some (take 20 (drop 2 script)) else None.

Section compressor.
Context {crypto : CryptoOps}.

Definition IsToPubKey (script : list Z) : option (list Z) :=
  if (zlen script =? 35) && (vget script 0 =? 33) && (vget script 34 =? opcode_val OP_CHECKSIG) &&
     ((vget script 1 =? 0x02) || (vget script 1 =? 0x03))
  then Some (CPubKey (take 33 (drop 1 script)))
  else if (zlen script =? 67) && (vget script 0 =? 65) && (vget script 66 =? opcode_val OP_CHECKSIG) &&
          (vget script 1 =? 0x04)
  then
    let pubkey := CPubKey (take 65 (drop 1 script)) in
    if PubKey_IsFullyValid pubkey then Some pubkey else None
  else None.

Definition CompressScript (script : list Z) : option (list Z) :=
  match IsToKeyID script with
  | Some keyID => Some (0x00 :: keyID)
  | None =>
      match IsToScriptID script with
      | Some scriptID => Some (0x01 :: scriptID)
      | None =>
          match IsToPubKey script with
          | Some pubkey =>
              if (vget pubkey 0 =? 0x02) || (vget pubkey 0 =? 0x03)
              then Some (vget pubkey 0 :: take 32 (drop 1 pubkey))
              else if vget pubkey 0 =? 0x04
              then Some (Z.lor 0x04 (Z.land (vget pubkey 64) 0x01) :: take 32 (drop 1 pubkey))
              else None
          | None => None
          end
      end
  end.

Definition GetSpecialScriptSize (nSize : Z) : Z :=
  if (nSize =? 0) || (nSize =? 1) then 20
  else if (nSize =? 2) || (nSize =? 3) || (nSize =? 4) || (nSize =? 5) then 32
  else 0.

(** The script, or [None] when it is left alone and [false] is returned. *)
Definition DecompressScript (nSize : Z) (in_ : list Z) : res unit (option (list Z)) :=
  if nSize =? 0x00 then
    Ok (Some ([opcode_val OP_DUP; opcode_val OP_HASH160; 20] ++ take 20 in_ ++
              [opcode_val OP_EQUALVERIFY; opcode_val OP_CHECKSIG]))
  else if nSize =? 0x01 then
    Ok (Some ([opcode_val OP_HASH160; 20] ++ take 20 in_ ++ [opcode_val OP_EQUAL]))
  else if (nSize =? 0x02) || (nSize =? 0x03) then
    Ok (Some ([33; nSize] ++ take 32 in_ ++ [opcode_val OP_CHECKSIG]))
  else if (nSize =? 0x04) || (nSize =? 0x05) then
    match PubKey_Decompress (CPubKey ((nSize - 2) :: take 32 in_)) with
    | None => Ok None
    | Some pubkey =>
        if negb (zlen pubkey =? 65) then Abort
        else Ok (Some (65 :: pubkey ++ [opcode_val OP_CHECKSIG]))
    end
  else Ok None.

Definition lift_res {A} (r : res unit A) : Parser A := fun s => a ← r; Ok (a, s).

Definition nSpecialScripts : Z := 6.

Definition ScriptCompression_Ser (script : list Z) : list Z :=
  match CompressScript script with
  | Some compr => compr
  | None => WriteVarInt 32 (u32 (zlen script + nSpecialScripts)) ++ script
  end.

(** Into an empty script; [s.ignore] fails at the end of the stream like a read. *)
Definition ScriptCompression_Unser : Parser (list Z) :=
  nSize ← ReadVarInt 32;
  if nSize <? nSpecialScripts then
    vch ← read_bytes (Z.to_nat (GetSpecialScriptSize nSize));
    script ← lift_res (DecompressScript nSize vch); mret (default [] script)
  else
    let nSize := nSize - nSpecialScripts in
    if MAX_SCRIPT_SIZE <? nSize then
      _ ← read_bytes (Z.to_nat nSize); mret [opcode_val OP_RETURN]
    else read_bytes (Z.to_nat nSize).

Definition AmountCompression_Ser (val : Z) : res unit (list Z) :=
  x ← CompressAmount (u64 val); Ok (WriteVarInt 64 x).
Definition AmountCompression_Unser : Parser Z := v ← ReadVarInt 64; mret (s64 (DecompressAmount v)).

Definition TxOutCompression_Ser (obj : CTxOut) : res unit (list Z) :=
  v ← AmountCompression_Ser (nValue obj); Ok (v ++ ScriptCompression_Ser (scriptPubKey obj)).
Definition TxOutCompression_Unser : Parser CTxOut :=
  v ← AmountCompression_Unser; script ← ScriptCompression_Unser; mret (MkTxOut v script).

End compressor.

(** ** Amounts are read back *)

Lemma u64_small x : 0 <= x < 2 ^ 64 -> u64 x = x.
Proof. apply Z.mod_small. Qed.

Lemma CompressAmount_loop_spec fuel n e :
  0 < n -> 0 <= e -> e + Z.of_nat fuel = 9 ->
  let '(n', e') := CompressAmount_loop fuel n e in
  0 < n' <= n /\ e <= e' <= 9 /\ n = n' * 10 ^ (e' - e) /\ (e' < 9 -> n' mod 10 <> 0).
Proof.
  revert n e; induction fuel as [|fuel IH]; intros n e Hn He Hf; cbn [CompressAmount_loop].
  { split; [lia|]. split; [lia|]. split; [rewrite Z.sub_diag; lia|lia]. }
  destruct ((n mod 10 =? 0) && (e <? 9)) eqn:E.
  - bprop. pose proof (Z.div_mod n 10 ltac:(lia)). assert (0 < n / 10) by lia.
    specialize (IH (n / 10) (e + 1) ltac:(lia) ltac:(lia) ltac:(lia)).
    destruct (CompressAmount_loop fuel (n / 10) (e + 1)) as [n' e']. destruct IH as (Ha & Hb & Hc & Hd).
    split; [lia|]. split; [lia|]. split; [|done].
    replace (e' - e) with (Z.succ (e' - (e + 1))) by lia. rewrite Z.pow_succ_r by lia. lia.
  - split; [lia|]. split; [lia|]. split; [rewrite Z.sub_diag; lia|].
    intros _ Hm. rewrite Hm in E. simpl in E. bprop. lia.
Qed.

Lemma DecompressAmount_loop_val e n :
  0 <= n -> n * 10 ^ Z.of_nat e < 2 ^ 64 -> DecompressAmount_loop e n = n * 10 ^ Z.of_nat e.
Proof.
  revert n; induction e as [|e IH]; intros n Hn Hb; [simpl; lia|]. cbn [DecompressAmount_loop].
  rewrite Nat2Z.inj_succ, Z.pow_succ_r in * by lia. assert (1 <= 10 ^ Z.of_nat e) by (assert (0 < 10 ^ Z.of_nat e) by (apply Z.pow_pos_nonneg; lia); lia).
  rewrite u64_small by nia. rewrite IH by nia. ring.
Qed.

Lemma amount_roundtrip n :
  0 <= n < 2 ^ 60 -> exists x, CompressAmount n = Ok x /\ 0 <= x < 2 ^ 64 /\ DecompressAmount x = n.
Proof.
  intros Hn. unfold CompressAmount. destruct (Z.eqb_spec n 0) as [->|Hz]; [by exists 0|].
  pose proof (CompressAmount_loop_spec 9 n 0 ltac:(lia) ltac:(lia) ltac:(lia)) as Hl.
  destruct (CompressAmount_loop 9 n 0) as [m e]. destruct Hl as (Hm & He & Hv & Hd). rewrite Z.sub_0_r in Hv.
  pose proof (Z.div_mod m 10 ltac:(lia)) as Hdm. pose proof (Z.mod_pos_bound m 10 ltac:(lia)) as Hmb.
  destruct (e <? 9) eqn:E; bprop.
  - specialize (Hd E). rewrite (proj2 (Z.leb_le 1 (m mod 10))), (proj2 (Z.leb_le (m mod 10) 9)) by lia. cbn [negb andb].
    assert (0 <= m / 10) by lia. set (q := m / 10 * 9 + m mod 10 - 1).
    assert (0 <= q < 2 ^ 60) by lia. rewrite (u64_small q), (u64_small (q * 10)), u64_small by lia. eexists. split; [done|]. split; [lia|].
    unfold DecompressAmount. rewrite (proj2 (Z.eqb_neq _ 0)) by lia.
    replace (1 + q * 10 + e - 1) with (e + q * 10) by lia.
    rewrite Z.mod_add, Z.div_add, (Z.mod_small e), (Z.div_small e), Z.add_0_l, (proj2 (Z.ltb_lt e 9)) by lia.
    assert (q mod 9 = m mod 10 - 1) as -> by (symmetry; apply Z.mod_unique with (m / 10); unfold q; lia).
    assert (q / 9 = m / 10) as -> by (symmetry; apply Z.div_unique with (m mod 10 - 1); unfold q; lia).
    rewrite u64_small by lia. replace (m / 10 * 10 + (m mod 10 - 1 + 1)) with m by lia.
    rewrite DecompressAmount_loop_val; rewrite ?Z2Nat.id by lia; lia.
  - assert (e = 9) as -> by lia. rewrite (u64_small (m - 1)), (u64_small ((m - 1) * 10)), u64_small by lia. eexists. split; [done|]. split; [lia|].
    unfold DecompressAmount. rewrite (proj2 (Z.eqb_neq _ 0)) by lia.
    replace (1 + (m - 1) * 10 + 9 - 1) with (9 + (m - 1) * 10) by lia.
    rewrite Z.mod_add, Z.div_add by lia. change (9 mod 10) with 9. change (9 / 10) with 0.
    cbn [Z.ltb Z.compare Pos.compare Pos.compare_cont]. rewrite u64_small by lia.
    replace (0 + (m - 1) + 1) with m by lia. rewrite DecompressAmount_loop_val; change (Z.of_nat (Z.to_nat 9)) with 9; lia.
Qed.

(** ** Scripts are read back *)

Lemma list_bracket (s : list Z) n :
  length s = S (S n) -> s = vget s 0 :: take n (drop 1 s) ++ [vget s (S n)].
Proof.
  destruct s as [|a s]; [done|]. intros [= Hl]. change (vget (a :: s) 0) with a. f_equal.
  change (drop 1 (a :: s)) with (drop 0 s). rewrite drop_0.
  destruct (lookup_lt_is_Some_2 s n) as [b Hb]; [lia|].
  rewrite <- (take_drop n s) at 1. f_equal. rewrite (drop_S s b n Hb), drop_ge by lia. f_equal.
  unfold vget. change ((a :: s) !! S n) with (s !! n). by rewrite Hb.
Qed.

Lemma IsToKeyID_shape script keyID :
  IsToKeyID script = Some keyID ->
  length keyID = 20%nat /\
  script = [opcode_val OP_DUP; opcode_val OP_HASH160; 20] ++ keyID ++
           [opcode_val OP_EQUALVERIFY; opcode_val OP_CHECKSIG].
Proof.
  unfold IsToKeyID. case_bool; [|done]. intros [= <-]. bprop. unfold zlen in *.
  do 25 (destruct script as [|? script]; [simpl in *; lia|]).
  destruct script; [|simpl in *; lia]. unfold vget in *. simpl in *. by subst.
Qed.

Lemma IsToScriptID_shape script scriptID :
  IsToScriptID script = Some scriptID ->
  length scriptID = 20%nat /\
  script = [opcode_val OP_HASH160; 20] ++ scriptID ++ [opcode_val OP_EQUAL].
Proof.
  unfold IsToScriptID. case_bool; [|done]. intros [= <-]. bprop. unfold zlen in *.
  do 23 (destruct script as [|? script]; [simpl in *; lia|]).
  destruct script; [|simpl in *; lia]. unfold vget in *. simpl in *. by subst.
Qed.

Lemma key_part (s : list Z) n :
  length s = S (S (S n)) ->
  exists x, length x = n /\ s = vget s 0 :: (vget s 1 :: x) ++ [vget s (S (S n))] /\
    take (S n) (drop 1 s) = vget s 1 :: x.
Proof.
  intros Hl. pose proof (list_bracket s (S n) Hl) as Hs. destruct s as [|a [|b s]]; [done..|].
  exists (take n s). change (vget (a :: b :: s) 1) with b. simpl in Hl.
  split; [rewrite length_take; lia|]. by split.
Qed.

Lemma CPubKey_id h x : PubKey_GetLen h = zlen (h :: x) -> CPubKey (h :: x) = h :: x.
Proof.
  intros H. apply CPubKey_valid_id. unfold PubKey_ValidSize. change (vget (h :: x) 0) with h.
  rewrite H, Z.eqb_refl. unfold zlen. simpl length. by rewrite (proj2 (Z.ltb_lt _ _)) by lia.
Qed.

Lemma IsToPubKey_shape {crypto : CryptoOps} script pubkey :
  IsToPubKey script = Some pubkey ->
  (exists h x, (h = 2 \/ h = 3) /\ length x = 32%nat /\ pubkey = h :: x /\
     script = 33 :: pubkey ++ [opcode_val OP_CHECKSIG]) \/
  (exists x y, length x = 32%nat /\ length y = 32%nat /\ pubkey = 4 :: x ++ y /\
     secp256k1_pubkey_parse pubkey = true /\ script = 65 :: pubkey ++ [opcode_val OP_CHECKSIG]).
Proof.
  unfold IsToPubKey. destruct (_ && _ && _ && (_ || _)) eqn:E1.
  - intros [= <-]. left. apply andb_true_iff in E1 as [E1 Eh]. bprop. unfold zlen in *.
    destruct (key_part script 32 ltac:(lia)) as (x & Hx & Hs & ->). rewrite H0, H1 in Hs.
    assert (Hh : vget script 1 = 2 \/ vget script 1 = 3) by (apply orb_true_iff in Eh as [?|?]; bprop; auto).
    exists (vget script 1), x. rewrite CPubKey_id; [done|].
    unfold zlen. simpl length. rewrite Hx. by destruct Hh as [-> | ->].
  - clear E1. destruct (_ && _) eqn:E1; [|done]. bprop. unfold zlen in *.
    destruct (key_part script 64 ltac:(lia)) as (k & Hk & Hs & ->).
    assert (Hv : CPubKey (vget script 1 :: k) = 4 :: k).
    { rewrite H0. apply CPubKey_id. unfold zlen. simpl length. by rewrite Hk. }
    rewrite Hv. unfold PubKey_IsFullyValid. simpl. case_bool; [|done]. intros [= <-]. right.
    exists (take 32 k), (drop 32 k). rewrite take_drop, length_take, length_drop, Hk.
    repeat split; try done. by rewrite Hs at 1; rewrite H2, H0, H1.
Qed.

Section script_codec.
Context {crypto : CryptoOps} {laws : CryptoLaws crypto}.

(** A special script: the first byte is the tag, which reads as a one-byte VARINT. *)
Lemma Unser_special tag vch script rest :
  0 <= tag < 6 -> zlen vch = GetSpecialScriptSize tag -> DecompressScript tag vch = Ok (Some script) ->
  ScriptCompression_Unser ((tag :: vch) ++ rest) = Ok (script, rest).
Proof.
  intros Ht Hl Hd. unfold ScriptCompression_Unser.
  assert (Hv : tag :: vch ++ rest = WriteVarInt 32 tag ++ vch ++ rest).
  { assert (tag = 0 \/ tag = 1 \/ tag = 2 \/ tag = 3 \/ tag = 4 \/ tag = 5) as Hc by lia.
    by destruct Hc as [-> | [-> | [-> | [-> | [-> | ->]]]]]. }
  cbn [app]. rewrite Hv. rewrite (codec_bind _ _ _ _ tag _ (codec_VarInt 32)) by (unfold unsigned; lia).
  rewrite (proj2 (Z.ltb_lt tag nSpecialScripts)) by (unfold nSpecialScripts; lia).
  unfold mbind, Parser_bind. rewrite read_bytes_app by (unfold zlen in Hl; lia).
  unfold lift_res. by rewrite Hd.
Qed.

Lemma Decompress_uncompressed tag x y :
  tag = 4 \/ tag = 5 -> length x = 32%nat -> length y = 32%nat ->
  secp256k1_pubkey_parse (tag - 2 :: x) = true -> secp256k1_pubkey_uncompress (tag - 2 :: x) = 4 :: x ++ y ->
  DecompressScript tag x = Ok (Some (65 :: (4 :: x ++ y) ++ [opcode_val OP_CHECKSIG])).
Proof.
  intros Ht Hx Hy Hc Hu. assert (Hk : CPubKey (tag - 2 :: x) = tag - 2 :: x).
  { apply CPubKey_id. unfold zlen. simpl length. rewrite Hx. by destruct Ht as [-> | ->]. }
  assert (Hd : PubKey_Decompress (tag - 2 :: x) = Some (4 :: x ++ y)).
  { unfold PubKey_Decompress. rewrite Hc, Hu, CPubKey_id; [done|]. unfold zlen. simpl length. by rewrite length_app, Hx, Hy. }
  assert (Hz : (zlen (4 :: x ++ y) =? 65) = true) by (unfold zlen; simpl length; by rewrite length_app, Hx, Hy).
  unfold DecompressScript. rewrite (take_ge x 32), Hk, Hd, Hz by lia. by destruct Ht as [-> | ->].
Qed.

Lemma ScriptCompression_special script compr rest :
  CompressScript script = Some compr -> ScriptCompression_Unser (compr ++ rest) = Ok (script, rest).
Proof.
  unfold CompressScript. destruct (IsToKeyID script) as [keyID|] eqn:E1.
  { intros [= <-]. apply IsToKeyID_shape in E1 as [Hl ->]. apply Unser_special; [lia|unfold zlen; by rewrite Hl|].
    unfold DecompressScript. simpl Z.eqb. by rewrite take_ge by lia. }
  destruct (IsToScriptID script) as [scriptID|] eqn:E2.
  { intros [= <-]. apply IsToScriptID_shape in E2 as [Hl ->]. apply Unser_special; [lia|unfold zlen; by rewrite Hl|].
    unfold DecompressScript. simpl Z.eqb. by rewrite take_ge by lia. }
  destruct (IsToPubKey script) as [pubkey|] eqn:E3; [|done].
  apply IsToPubKey_shape in E3 as [(h & x & Hh & Hx & -> & ->)|(x & y & Hx & Hy & -> & Hp & ->)].
  - change (vget (h :: x) 0) with h. change (drop 1 (h :: x)) with (drop 0 x). rewrite drop_0, take_ge by lia.
    destruct Hh as [-> | ->]; intros [= <-]; (apply Unser_special; [lia|unfold zlen; by rewrite Hx|]);
      unfold DecompressScript; simpl Z.eqb; by rewrite (take_ge x 32) by lia.
  - change (vget (4 :: x ++ y) 0) with 4. intros [= <-].
    change (drop 1 (4 :: x ++ y)) with (drop 0 (x ++ y)). rewrite drop_0, take_app_length' by done.
    assert (Hv : vget (4 :: x ++ y) 64 = vget y 31).
    { unfold vget. change ((4 :: x ++ y) !! 64%nat) with ((x ++ y) !! 63%nat). rewrite lookup_app_r by lia. by rewrite Hx. }
    rewrite Hv. destruct (secp256k1_compressed x y Hx Hy Hp) as [Hc Hu].
    assert (Hb : Z.land (vget y 31) 1 = 0 \/ Z.land (vget y 31) 1 = 1).
    { pose proof (Z.land_ones (vget y 31) 1 ltac:(lia)) as Hq. change (Z.ones 1) with 1 in Hq.
      pose proof (Z.mod_pos_bound (vget y 31) (2 ^ 1) ltac:(lia)). lia. }
    destruct Hb as [Hb|Hb]; rewrite Hb in *; (apply Unser_special; [done|unfold zlen; by rewrite Hx|]).
    + apply (Decompress_uncompressed 4); [auto|done..].
    + apply (Decompress_uncompressed 5); [auto|done..].
Qed.

Lemma ScriptCompression_roundtrip script rest :
  zlen script <= MAX_SCRIPT_SIZE ->
  ScriptCompression_Unser (ScriptCompression_Ser script ++ rest) = Ok (script, rest).
Proof.
  intros Hl. unfold ScriptCompression_Ser. destruct (CompressScript script) as [compr|] eqn:E.
  { by apply ScriptCompression_special. }
  pose proof (zlen_nonneg script). unfold MAX_SCRIPT_SIZE, nSpecialScripts in *. unfold u32. rewrite Z.mod_small by lia.
  unfold ScriptCompression_Unser. rewrite <- app_assoc.
  rewrite (codec_bind _ _ _ _ (zlen script + 6) _ (codec_VarInt 32)) by lia. unfold nSpecialScripts, MAX_SCRIPT_SIZE.
  rewrite (proj2 (Z.ltb_ge (zlen script + 6) 6)) by lia. cbv zeta. rewrite Z.add_simpl_r, (proj2 (Z.ltb_ge 10000 (zlen script))) by lia.
  apply read_bytes_app. unfold zlen. lia.
Qed.

#[export] Instance codec_ScriptCompression :
  Codec ScriptCompression_Ser ScriptCompression_Unser (fun script => zlen script <= MAX_SCRIPT_SIZE).
Proof. intros script rest Hl. by apply ScriptCompression_roundtrip. Qed.

(** The amounts that can be in a coin: [amount_roundtrip] needs less than 2^60. *)
Lemma MAX_MONEY_bound v : 0 <= v <= MAX_MONEY -> 0 <= v < 2 ^ 60.
Proof. unfold MAX_MONEY, COIN. lia. Qed.

Lemma TxOutCompression_roundtrip obj :
  0 <= nValue obj <= MAX_MONEY -> zlen (scriptPubKey obj) <= MAX_SCRIPT_SIZE ->
  exists bytes, TxOutCompression_Ser obj = Ok bytes /\
    forall rest, TxOutCompression_Unser (bytes ++ rest) = Ok (obj, rest).
Proof.
  destruct obj as [v script]. cbn [nValue scriptPubKey]. intros Hv%MAX_MONEY_bound Hs.
  destruct (amount_roundtrip v Hv) as (x & Hc & Hx & Hd).
  unfold TxOutCompression_Ser, AmountCompression_Ser. cbn [nValue scriptPubKey]. rewrite u64_small, Hc by lia. cbn.
  eexists. split; [done|]. intros rest. rewrite <- app_assoc. unfold TxOutCompression_Unser, AmountCompression_Unser.
  unfold mbind at 1, Parser_bind at 1. rewrite (codec_bind _ _ _ _ x _ (codec_VarInt 64)) by lia. cbn.
  rewrite (codec_bind _ _ _ _ script _ codec_ScriptCompression), Hd by done.
  assert (s64 v = v) as ->; [|done].
  rewrite <- (u64_small v) at 1 by lia. apply swrap_mod; [lia|unfold signed; lia].
Qed.

End script_codec.

