(* ===== verification/Coin.v ===== *)
(** * Coins and their database format

    Models the class Coin of src/src/coins.h and the undo records of src/src/undo.h. *)

From stdpp Require Import base list numbers.
From S2P Require Import Prelude Script Crypto Serialize Transaction Compressor.

Open Scope Z_scope.

(** [fCoinBase] is one bit and [nHeight] 31 bits wide. *)
Record Coin : Type := MkCoin { out : CTxOut; fCoinBase : bool; fCoinStake : bool; nHeight : Z }.

#[export] Instance Coin_eq_dec : EqDecision Coin.
Proof. solve_decision. Defined.

Definition u31 (x : Z) : Z := x mod 2 ^ 31.

Definition Coin_make (outIn : CTxOut) (nHeightIn : Z) (fCoinBaseIn fCoinStakeIn : bool) : Coin :=
  MkCoin outIn fCoinBaseIn fCoinStakeIn (u31 nHeightIn).
Definition Coin_Clear : Coin := MkCoin txout_SetNull false false 0.
(** [coinEmpty], default constructed. *)
Definition Coin_empty : Coin := MkCoin txout_SetNull false false 0.
Definition Coin_IsSpent (c : Coin) : bool := txout_IsNull (out c).

Definition Coin_code (c : Coin) : Z :=
  u32 (u32 (nHeight c * 4) + Z.b2z (fCoinBase c) * 2 + Z.b2z (fCoinStake c)).

Section coin.
Context {crypto : CryptoOps}.

Definition Coin_Serialize (c : Coin) : res unit (list Z) :=
  if Coin_IsSpent c then Abort else
  o ← TxOutCompression_Ser (out c); Ok (WriteVarInt 32 (Coin_code c) ++ o).

Definition Coin_Unserialize : Parser Coin :=
  code ← ReadVarInt 32;
  let height := Z.shiftr code 2 in
  let base := Z.testbit (Z.shiftr code 1) 0 in
  let stake := negb (Z.land code 1 =? 0) in
  o ← TxOutCompression_Unser;
  mret (MkCoin o base stake height).

Definition TxInUndo_Ser (txout : Coin) : res unit (list Z) :=
  o ← TxOutCompression_Ser (out txout);
  Ok (WriteVarInt 32 (Coin_code txout) ++ (if 0 <? nHeight txout then ser_writedata8 0 else []) ++ o).

Definition TxInUndo_Unser : Parser Coin :=
  nCode ← ReadVarInt 32;
  let height := Z.shiftr nCode 2 in
  let base := Z.testbit (Z.shiftr nCode 1) 0 in
  let stake := negb (Z.land nCode 1 =? 0) in
  _ ← (if 0 <? height then ReadVarInt 32 else mret 0);
  o ← TxOutCompression_Unser;
  mret (MkCoin o base stake height).

End coin.

Definition coin_ok (c : Coin) : Prop :=
  0 <= nValue (out c) <= MAX_MONEY /\ zlen (scriptPubKey (out c)) <= MAX_SCRIPT_SIZE /\ 0 <= nHeight c < 2 ^ 31.

Lemma Coin_code_bound c : 0 <= Coin_code c < 2 ^ 32.
Proof. apply Z.mod_pos_bound. lia. Qed.

(** The three fields can be told apart as long as the height fits in 30 bits. *)
Lemma Coin_code_fields c :
  0 <= nHeight c < 2 ^ 30 ->
  Z.shiftr (Coin_code c) 2 = nHeight c /\ Z.testbit (Z.shiftr (Coin_code c) 1) 0 = fCoinBase c /\
  negb (Z.land (Coin_code c) 1 =? 0) = fCoinStake c.
Proof.
  destruct c as [o b k h]. cbn. intros Hh. unfold Coin_code, u32. cbn.
  assert (0 <= Z.b2z b <= 1 /\ 0 <= Z.b2z k <= 1) as [Hb Hk] by (destruct b, k; simpl; lia).
  rewrite (Z.mod_small (h * 4)), (Z.mod_small (h * 4 + _ + _)) by lia.
  rewrite !Z.shiftr_div_pow2 by lia. split; [|split].
  - symmetry. apply Z.div_unique with (Z.b2z b * 2 + Z.b2z k); lia.
  - replace ((h * 4 + Z.b2z b * 2 + Z.b2z k) / 2 ^ 1) with (2 * h + Z.b2z b) by (apply Z.div_unique with (Z.b2z k); lia).
    rewrite Z.odd_add, Z.odd_mul. by destruct b.
  - pose proof (Z.land_ones (h * 4 + Z.b2z b * 2 + Z.b2z k) 1 ltac:(lia)) as Hl. change (Z.ones 1) with 1 in Hl. rewrite Hl.
    replace ((h * 4 + Z.b2z b * 2 + Z.b2z k) mod 2 ^ 1) with (Z.b2z k); [by destruct k|].
    apply Z.mod_unique with (2 * h + Z.b2z b); lia.
Qed.

(** A coin of the database is read back as it was written, and so is an undo record, when its value
    is in the money range, its script is within the size limit and its height is below 2^30. *)
Theorem coin_roundtrip {crypto : CryptoOps} (laws : CryptoLaws crypto) c rest :
  coin_ok c -> nHeight c < 2 ^ 30 ->
  exists bytes undo, Coin_Serialize c = Ok bytes /\ TxInUndo_Ser c = Ok undo /\
    Coin_Unserialize (bytes ++ rest) = Ok (c, rest) /\ TxInUndo_Unser (undo ++ rest) = Ok (c, rest).
Proof.
  intros (Hv & Hs & Hh) Hh'. destruct (TxOutCompression_roundtrip (out c) Hv Hs) as (ob & Ho & Hu).
  destruct (Coin_code_fields c) as (H1 & H2 & H3); [lia|]. pose proof (Coin_code_bound c).
  exists (WriteVarInt 32 (Coin_code c) ++ ob),
    (WriteVarInt 32 (Coin_code c) ++ (if 0 <? nHeight c then ser_writedata8 0 else []) ++ ob).
  unfold Coin_Serialize, TxInUndo_Ser, Coin_IsSpent, txout_IsNull.
  rewrite Ho, (proj2 (Z.eqb_neq (nValue (out c)) (-1))) by lia. split; [done|]. split; [done|].
  unfold Coin_Unserialize, TxInUndo_Unser. rewrite <- !app_assoc.
  rewrite !(codec_bind _ _ _ _ (Coin_code c) _ (codec_VarInt 32)) by lia. cbv zeta. rewrite H1, H2, H3.
  assert (Hk : forall r, (o ← TxOutCompression_Unser; mret (MkCoin o (fCoinBase c) (fCoinStake c) (nHeight c)) : Parser Coin) (ob ++ r) = Ok (c, r)).
  { intros r. unfold mbind, Parser_bind. rewrite Hu. by destruct c. }
  rewrite Hk. split; [done|]. destruct (0 <? nHeight c); [|apply Hk].
  change (ser_writedata8 0) with (WriteVarInt 32 0).
  by rewrite (codec_bind _ _ _ _ 0 _ (codec_VarInt 32)) by lia.
Qed.

Definition sample_coin : Coin := MkCoin (MkTxOut (5 * COIN) [0x51; 0x87]) true false 1000.

Lemma coin_roundtrip_witness :
  exists bytes undo, Coin_Serialize (crypto := sum_crypto) sample_coin = Ok bytes /\
    TxInUndo_Ser (crypto := sum_crypto) sample_coin = Ok undo /\
    Coin_Unserialize (crypto := sum_crypto) (bytes ++ [7]) = Ok (sample_coin, [7]) /\
    TxInUndo_Unser (crypto := sum_crypto) (undo ++ [7]) = Ok (sample_coin, [7]).
Proof. apply (coin_roundtrip sum_crypto_laws sample_coin [7]); [repeat split; simpl; done || lia|simpl; lia]. Defined.
