(* ===== verification/Coins.v ===== *)
(** * The set of unspent outputs: database, caches, flushes

    Models src/src/coins.h and coins.cpp (the hierarchy of views on the unspent outputs, each cache on
    top of another view) and CCoinsViewDB of src/src/txdb.cpp at the bottom of the hierarchy.  A view is
    the list of its caches down to the database, so that a lookup that fills the caches on its way, as
    the code does from methods declared const, returns the view it leaves. *)

From stdpp Require Import base list numbers gmap countable.
From S2P Require Import Prelude Script Crypto Serialize Transaction Compressor Coin.

Open Scope Z_scope.

#[export] Instance COutPoint_countable : Countable COutPoint.
Proof.
  apply (inj_countable' (fun o => (op_hash o, op_n o)) (fun p => MkOutPoint p.1 p.2)). by intros [].
Defined.

(** ** Data *)

(** The two bits of [flags]. *)
Record CCoinsCacheEntry : Type := MkEntry { coin : Coin; DIRTY : bool; FRESH : bool }.

Abbreviation CCoinsMap := (gmap COutPoint CCoinsCacheEntry).

Record CCoinsViewCache : Type := MkCache {
  cacheCoins : CCoinsMap;
  hashBlock : list Z;
  cachedCoinsUsage : Z
}.

(** The key-value store: the coins under DB_COIN, and the values of DB_BEST_BLOCK and DB_HEAD_BLOCKS. *)
Record CCoinsViewDB : Type := MkDB {
  db_coins : gmap COutPoint Coin;
  db_best_block : option (list Z);
  db_head_blocks : option (list (list Z))
}.

Inductive CCoinsView : Type :=
  | ViewDB (db : CCoinsViewDB)
  | ViewCache (cache : CCoinsViewCache) (base : CCoinsView).

(** [size_t] arithmetic. *)
Definition usage_add (u x : Z) : Z := u64 (u + x).
Definition usage_sub (u x : Z) : Z := u64 (u - x).

Inductive coins_error : Type :=
  | OverwriteUnspent   (** Attempted to overwrite an unspent coin *)
  | FreshMisapplied.   (** FRESH flag misapplied to coin that exists in parent cache *)

(** ** CCoinsViewDB *)

Inductive db_op : Type :=
  | EraseCoin (o : COutPoint)
  | WriteCoin (o : COutPoint) (c : Coin)
  | EraseBestBlock
  | WriteBestBlock (h : list Z)
  | EraseHeadBlocks
  | WriteHeadBlocks (l : list (list Z)).

Definition db_apply (db : CCoinsViewDB) (op : db_op) : CCoinsViewDB :=
  match op with
  | EraseCoin o => MkDB (delete o (db_coins db)) (db_best_block db) (db_head_blocks db)
  | WriteCoin o c => MkDB (<[o := c]> (db_coins db)) (db_best_block db) (db_head_blocks db)
  | EraseBestBlock => MkDB (db_coins db) None (db_head_blocks db)
  | WriteBestBlock h => MkDB (db_coins db) (Some h) (db_head_blocks db)
  | EraseHeadBlocks => MkDB (db_coins db) (db_best_block db) None
  | WriteHeadBlocks l => MkDB (db_coins db) (db_best_block db) (Some l)
  end.

(** [db.WriteBatch]: atomic. *)
Definition WriteBatch (db : CCoinsViewDB) (batch : list db_op) : CCoinsViewDB := foldl db_apply db batch.

Definition db_GetCoin (db : CCoinsViewDB) (outpoint : COutPoint) : option Coin := db_coins db !! outpoint.
Definition db_GetBestBlock (db : CCoinsViewDB) : list Z := default null_hash (db_best_block db).
Definition db_GetHeadBlocks (db : CCoinsViewDB) : list (list Z) := default [] (db_head_blocks db).

Section views.

(** When [batch.SizeEstimate() > batch_size], and the bytes allocated for a coin. *)
Context (batch_full : list db_op -> bool) (DynamicMemoryUsage : Coin -> Z).

(** The operations one entry of the map adds to the batch. *)
Definition entry_ops (o : COutPoint) (e : CCoinsCacheEntry) : list db_op :=
  if DIRTY e then [if Coin_IsSpent (coin e) then EraseCoin o else WriteCoin o (coin e)] else [].

(** The states of the database after each partial batch, and the batch that is left. *)
Fixpoint db_BatchWrite_loop (db : CCoinsViewDB) (batch : list db_op) (mapCoins : list (COutPoint * CCoinsCacheEntry)) :
    list CCoinsViewDB * CCoinsViewDB * list db_op :=
  match mapCoins with
  | [] => ([], db, batch)
  | (o, e) :: mapCoins =>
      let batch := batch ++ entry_ops o e in
      if batch_full batch then
        let db := WriteBatch db batch in
        let '(trace, db', batch') := db_BatchWrite_loop db [] mapCoins in (db :: trace, db', batch')
      else db_BatchWrite_loop db batch mapCoins
  end.

(** The states of the database the writes go through, where a crash can leave it, and the last one. *)
Definition db_BatchWrite (db : CCoinsViewDB) (mapCoins : list (COutPoint * CCoinsCacheEntry)) (hashBlock : list Z) :
    res coins_error (list CCoinsViewDB * CCoinsViewDB) :=
  if hash_IsNull hashBlock then Abort else
  old_tip ←
    (let old_tip := db_GetBestBlock db in
     if hash_IsNull old_tip then
       match db_GetHeadBlocks db with
       | [new; old] => if bool_decide (new = hashBlock) then Ok old else Abort
       | _ => Ok old_tip
       end
     else Ok old_tip);
  let '(trace, db, batch) :=
    db_BatchWrite_loop db [EraseBestBlock; WriteHeadBlocks [hashBlock; old_tip]] mapCoins in
  Ok (trace, WriteBatch db (batch ++ [EraseHeadBlocks; WriteBestBlock hashBlock])).

(** ** CCoinsViewCache *)

(** [FetchCoin], given the base view and its [GetCoin]. *)
Definition FetchCoin_with (base : CCoinsView) (base_GetCoin : COutPoint -> option Coin * CCoinsView)
    (c : CCoinsViewCache) (outpoint : COutPoint) : option CCoinsCacheEntry * CCoinsViewCache * CCoinsView :=
  match cacheCoins c !! outpoint with
  | Some it => (Some it, c, base)
  | None =>
      match base_GetCoin outpoint with
      | (None, base) => (None, c, base)
      | (Some tmp, base) =>
          let ret := MkEntry tmp false (Coin_IsSpent tmp) in
          (Some ret,
           MkCache (<[outpoint := ret]> (cacheCoins c)) (hashBlock c)
             (usage_add (cachedCoinsUsage c) (DynamicMemoryUsage tmp)),
           base)
      end
  end.

(** The coin of an entry, when it is not spent. *)
Definition unspent (it : option CCoinsCacheEntry) : option Coin :=
  match it with
  | Some e => if Coin_IsSpent (coin e) then None else Some (coin e)
  | None => None
  end.

(** [Some coin]: the method returns true. *)
Fixpoint GetCoin (v : CCoinsView) (outpoint : COutPoint) : option Coin * CCoinsView :=
  match v with
  | ViewDB db => (db_GetCoin db outpoint, v)
  | ViewCache c base =>
      let '(it, c, base) := FetchCoin_with base (GetCoin base) c outpoint in
      (unspent it, ViewCache c base)
  end.

Definition FetchCoin (base : CCoinsView) (c : CCoinsViewCache) (outpoint : COutPoint) :
    option CCoinsCacheEntry * CCoinsViewCache * CCoinsView :=
  FetchCoin_with base (GetCoin base) c outpoint.

(** HaveCoin of the cache; the database tests the key, the other views call [GetCoin]. *)
Definition HaveCoin (v : CCoinsView) (outpoint : COutPoint) : bool * CCoinsView :=
  match v with
  | ViewDB db => (bool_decide (is_Some (db_coins db !! outpoint)), v)
  | ViewCache c base =>
      let '(it, c, base) := FetchCoin base c outpoint in
      (match it with Some e => negb (Coin_IsSpent (coin e)) | None => false end, ViewCache c base)
  end.

Definition HaveCoinInCache (c : CCoinsViewCache) (outpoint : COutPoint) : bool :=
  match cacheCoins c !! outpoint with Some e => negb (Coin_IsSpent (coin e)) | None => false end.

Definition AccessCoin (base : CCoinsView) (c : CCoinsViewCache) (outpoint : COutPoint) :
    Coin * CCoinsViewCache * CCoinsView :=
  let '(it, c, base) := FetchCoin base c outpoint in
  (match it with None => Coin_empty | Some e => coin e end, c, base).

Definition AddCoin (c : CCoinsViewCache) (outpoint : COutPoint) (coin_ : Coin) (possible_overwrite : bool) :
    res coins_error CCoinsViewCache :=
  if Coin_IsSpent coin_ then Abort else
  if IsUnspendable (scriptPubKey (out coin_)) then Ok c else
  let found := cacheCoins c !! outpoint in
  let it := default (MkEntry Coin_empty false false) found in
  let usage := match found with
               | Some e => usage_sub (cachedCoinsUsage c) (DynamicMemoryUsage (coin e))
               | None => cachedCoinsUsage c
               end in
  fresh ←
    (if negb possible_overwrite then
       if negb (Coin_IsSpent (coin it)) then Err OverwriteUnspent else Ok (negb (DIRTY it))
     else Ok false);
  let it := MkEntry coin_ true (FRESH it || fresh) in
  Ok (MkCache (<[outpoint := it]> (cacheCoins c)) (hashBlock c) (usage_add usage (DynamicMemoryUsage coin_))).

(** The coin moved out when it returns true. *)
Definition SpendCoin (base : CCoinsView) (c : CCoinsViewCache) (outpoint : COutPoint) :
    option Coin * CCoinsViewCache * CCoinsView :=
  let '(it, c, base) := FetchCoin base c outpoint in
  match it with
  | None => (None, c, base)
  | Some e =>
      let usage := usage_sub (cachedCoinsUsage c) (DynamicMemoryUsage (coin e)) in
      if FRESH e then (Some (coin e), MkCache (delete outpoint (cacheCoins c)) (hashBlock c) usage, base)
      else (Some (coin e),
            MkCache (<[outpoint := MkEntry Coin_Clear true (FRESH e)]> (cacheCoins c)) (hashBlock c) usage, base)
  end.

Fixpoint GetBestBlock (v : CCoinsView) : list Z * CCoinsView :=
  match v with
  | ViewDB db => (db_GetBestBlock db, v)
  | ViewCache c base =>
      if hash_IsNull (hashBlock c) then
        let '(h, base) := GetBestBlock base in
        (h, ViewCache (MkCache (cacheCoins c) h (cachedCoinsUsage c)) base)
      else (hashBlock c, v)
  end.

Definition SetBestBlock (c : CCoinsViewCache) (hashBlockIn : list Z) : CCoinsViewCache :=
  MkCache (cacheCoins c) hashBlockIn (cachedCoinsUsage c).

(** One entry of the child's map. *)
Definition BatchWrite_entry (c : CCoinsViewCache) (o : COutPoint) (it : CCoinsCacheEntry) :
    res coins_error CCoinsViewCache :=
  if negb (DIRTY it) then Ok c else
  match cacheCoins c !! o with
  | None =>
      if FRESH it && Coin_IsSpent (coin it) then Ok c
      else Ok (MkCache (<[o := MkEntry (coin it) true (FRESH it)]> (cacheCoins c)) (hashBlock c)
                 (usage_add (cachedCoinsUsage c) (DynamicMemoryUsage (coin it))))
  | Some itUs =>
      if FRESH it && negb (Coin_IsSpent (coin itUs)) then Err FreshMisapplied else
      let usage := usage_sub (cachedCoinsUsage c) (DynamicMemoryUsage (coin itUs)) in
      if FRESH itUs && Coin_IsSpent (coin it)
      then Ok (MkCache (delete o (cacheCoins c)) (hashBlock c) usage)
      else Ok (MkCache (<[o := MkEntry (coin it) true (FRESH itUs)]> (cacheCoins c)) (hashBlock c)
                 (usage_add usage (DynamicMemoryUsage (coin it))))
  end.

Fixpoint cache_BatchWrite_loop (c : CCoinsViewCache) (mapCoins : list (COutPoint * CCoinsCacheEntry)) :
    res coins_error CCoinsViewCache :=
  match mapCoins with
  | [] => Ok c
  | (o, it) :: mapCoins => c ← BatchWrite_entry c o it; cache_BatchWrite_loop c mapCoins
  end.

Definition cache_BatchWrite (c : CCoinsViewCache) (mapCoins : list (COutPoint * CCoinsCacheEntry))
    (hashBlockIn : list Z) : res coins_error CCoinsViewCache :=
  c ← cache_BatchWrite_loop c mapCoins; Ok (SetBestBlock c hashBlockIn).

(** The virtual method, on the map in the order it is iterated. *)
Definition BatchWrite (v : CCoinsView) (mapCoins : list (COutPoint * CCoinsCacheEntry)) (hashBlock : list Z) :
    res coins_error CCoinsView :=
  match v with
  | ViewDB db => r ← db_BatchWrite db mapCoins hashBlock; Ok (ViewDB r.2)
  | ViewCache c base => c ← cache_BatchWrite c mapCoins hashBlock; Ok (ViewCache c base)
  end.

(** [order]: the iteration order of the hash table. *)
Definition Flush (order : CCoinsMap -> list (COutPoint * CCoinsCacheEntry)) (base : CCoinsView) (c : CCoinsViewCache) :
    res coins_error (CCoinsViewCache * CCoinsView) :=
  base ← BatchWrite base (order (cacheCoins c)) (hashBlock c);
  Ok (MkCache ∅ (hashBlock c) 0, base).

Definition Uncache (c : CCoinsViewCache) (hash : COutPoint) : CCoinsViewCache :=
  match cacheCoins c !! hash with
  | Some e =>
      if negb (DIRTY e) && negb (FRESH e)
      then MkCache (delete hash (cacheCoins c)) (hashBlock c) (usage_sub (cachedCoinsUsage c) (DynamicMemoryUsage (coin e)))
      else c
  | None => c
  end.

Definition GetCacheSize (c : CCoinsViewCache) : Z := u32 (Z.of_nat (size (cacheCoins c))).

Fixpoint GetValueIn_loop (base : CCoinsView) (c : CCoinsViewCache) (ins : list CTxIn) (nResult : Z) :
    res unit (Z * CCoinsViewCache * CCoinsView) :=
  match ins with
  | [] => Ok (nResult, c, base)
  | i :: ins =>
      let '(e, c, base) := AccessCoin base c (prevout i) in
      nResult ← add_s64 nResult (nValue (out e)); GetValueIn_loop base c ins nResult
  end.

Definition GetValueIn (base : CCoinsView) (c : CCoinsViewCache) (tx : CTransaction) :
    res unit (Z * CCoinsViewCache * CCoinsView) :=
  if IsCoinBase tx then Ok (0, c, base) else GetValueIn_loop base c (vin tx) 0.

Fixpoint HaveInputs_loop (v : CCoinsView) (ins : list CTxIn) : bool * CCoinsView :=
  match ins with
  | [] => (true, v)
  | i :: ins =>
      let '(have, v) := HaveCoin v (prevout i) in
      if negb have then (false, v) else HaveInputs_loop v ins
  end.

Definition HaveInputs (v : CCoinsView) (tx : CTransaction) : bool * CCoinsView :=
  if negb (IsCoinBase tx) then HaveInputs_loop v (vin tx) else (true, v).

(** ** AddCoins, AccessByTxid *)

Fixpoint AddCoins_loop (base : CCoinsView) (c : CCoinsViewCache) (txid : list Z) (outs : list CTxOut) (i nHeight : Z)
    (fCoinbase fCoinstake check_for_overwrite : bool) : res coins_error (CCoinsViewCache * CCoinsView) :=
  match outs with
  | [] => Ok (c, base)
  | o :: outs =>
      let outpoint := MkOutPoint txid (u32 i) in
      let '(overwrite, c, base) :=
        (if check_for_overwrite then
           let '(it, c, base) := FetchCoin base c outpoint in
           (match it with Some e => negb (Coin_IsSpent (coin e)) | None => false end, c, base)
         else (fCoinbase, c, base)) in
      c ← AddCoin c outpoint (Coin_make o nHeight fCoinbase fCoinstake) overwrite;
      AddCoins_loop base c txid outs (i + 1) nHeight fCoinbase fCoinstake check_for_overwrite
  end.

Definition AddCoins {crypto : CryptoOps} (base : CCoinsView) (c : CCoinsViewCache) (tx : CTransaction) (nHeight : Z)
    (check_for_overwrite : bool) : res coins_error (CCoinsViewCache * CCoinsView) :=
  AddCoins_loop base c (ComputeHash tx) (vout tx) 0 nHeight (IsCoinBase tx) (IsCoinStake tx) check_for_overwrite.

Definition MAX_DIP0001_BLOCK_SIZE : Z := 6000000.
Definition MAX_OUTPUTS_PER_BLOCK : Z := MAX_DIP0001_BLOCK_SIZE / zlen (ser_txout txout_SetNull).

Fixpoint AccessByTxid_loop (fuel : nat) (base : CCoinsView) (c : CCoinsViewCache) (txid : list Z) (n : Z) :
    Coin * CCoinsViewCache * CCoinsView :=
  match fuel with
  | O => (Coin_empty, c, base)
  | S fuel =>
      let '(alternate, c, base) := AccessCoin base c (MkOutPoint txid n) in
      if negb (Coin_IsSpent alternate) then (alternate, c, base)
      else AccessByTxid_loop fuel base c txid (n + 1)
  end.

(** The index takes [MAX_OUTPUTS_PER_BLOCK] values. *)
Definition AccessByTxid (base : CCoinsView) (c : CCoinsViewCache) (txid : list Z) :
    Coin * CCoinsViewCache * CCoinsView :=
  AccessByTxid_loop (Z.to_nat MAX_OUTPUTS_PER_BLOCK) base c txid 0.

End views.
