(* ===== verification/CoinsSpec.v ===== *)
(** * The caches implement the set of unspent outputs

    The view of src/src/coins.cpp is related to the finite map of the coins that can be spent: every
    operation keeps the invariant documented at CCoinsCacheEntry and acts on the map as its description
    says, whatever has been cached, flushed or evicted before. *)

From stdpp Require Import base list numbers gmap countable fin_maps.
From S2P Require Import Prelude Script Crypto Serialize Transaction Compressor Coin Coins.

Open Scope Z_scope.

(** The coin an outpoint has in a view. *)
Fixpoint utxo (v : CCoinsView) (o : COutPoint) : option Coin :=
  match v with
  | ViewDB db => db_coins db !! o
  | ViewCache c base =>
      match cacheCoins c !! o with Some e => unspent (Some e) | None => utxo base o end
  end.

(** An entry against the coin [b] of the parent. *)
Definition entry_ok (b : option Coin) (e : CCoinsCacheEntry) : Prop :=
  (FRESH e = true -> b = None) /\ (DIRTY e = false -> unspent (Some e) = b).

(** The combinations of flags listed in coins.h: spent entries are FRESH or DIRTY but not both, and an
    unspent FRESH entry is DIRTY. *)
Definition valid_entry (e : CCoinsCacheEntry) : Prop :=
  if Coin_IsSpent (coin e) then FRESH e = negb (DIRTY e) else FRESH e = true -> DIRTY e = true.

Section spec.
Context (batch_full : list db_op -> bool) (DynamicMemoryUsage : Coin -> Z).
Hypothesis usage_Clear : DynamicMemoryUsage Coin_Clear = 0.

Definition usage_sum (m : CCoinsMap) : Z := map_fold (fun _ e s => DynamicMemoryUsage (coin e) + s) 0 m.

Definition cache_ok (base : COutPoint -> option Coin) (c : CCoinsViewCache) : Prop :=
  (forall o e, cacheCoins c !! o = Some e -> entry_ok (base o) e /\ valid_entry e) /\
  cachedCoinsUsage c = u64 (usage_sum (cacheCoins c)).

Fixpoint inv (v : CCoinsView) : Prop :=
  match v with
  | ViewDB db =>
      db_head_blocks db = None /\ forall o c, db_coins db !! o = Some c -> Coin_IsSpent c = false
  | ViewCache c base => cache_ok (utxo base) c /\ inv base
  end.

(** ** Memory accounting *)

Lemma usage_sum_insert m o e :
  m !! o = None -> usage_sum (<[o := e]> m) = DynamicMemoryUsage (coin e) + usage_sum m.
Proof. intros H. unfold usage_sum. rewrite map_fold_insert_L; [done| |done]. intros. lia. Qed.

Lemma usage_sum_delete m o e :
  m !! o = Some e -> usage_sum (delete o m) = usage_sum m - DynamicMemoryUsage (coin e).
Proof.
  intros H. rewrite <- (insert_delete_id m o e H) at 2.
  rewrite usage_sum_insert by apply lookup_delete_eq. lia.
Qed.

Lemma usage_sum_replace m o e e' :
  m !! o = Some e ->
  usage_sum (<[o := e']> m) = usage_sum m - DynamicMemoryUsage (coin e) + DynamicMemoryUsage (coin e').
Proof.
  intros H. rewrite <- insert_delete_eq, usage_sum_insert, (usage_sum_delete m o e H) by apply lookup_delete_eq. lia.
Qed.

Lemma usage_add_u64 a b : usage_add (u64 a) b = u64 (a + b).
Proof. unfold usage_add, u64. by rewrite Z.add_mod_idemp_l by lia. Qed.

Lemma usage_sub_u64 a b : usage_sub (u64 a) b = u64 (a - b).
Proof. unfold usage_sub, u64. by rewrite Zminus_mod_idemp_l. Qed.

(** ** Changing one entry *)

Lemma cache_ok_ext base base' c : (forall o, base o = base' o) -> cache_ok base c -> cache_ok base' c.
Proof. intros He [H Hu]. split; [|done]. intros o e Ho. rewrite <- He. by apply H. Qed.

Lemma cache_ok_insert base c o e u :
  cache_ok base c -> entry_ok (base o) e -> valid_entry e ->
  u = u64 (usage_sum (<[o := e]> (cacheCoins c))) ->
  cache_ok base (MkCache (<[o := e]> (cacheCoins c)) (hashBlock c) u).
Proof.
  intros [H _] He Hv Hu. split; [|done]. intros o' e'. cbn.
  rewrite lookup_insert. case_decide; [intros [= <-]; by subst|apply H].
Qed.

Lemma cache_ok_delete base c o u :
  cache_ok base c -> u = u64 (usage_sum (delete o (cacheCoins c))) ->
  cache_ok base (MkCache (delete o (cacheCoins c)) (hashBlock c) u).
Proof. intros [H _] Hu. split; [|done]. intros o' e'. cbn. intros [_ He]%lookup_delete_Some. by apply H. Qed.

Lemma utxo_insert c base o e h u o' :
  utxo (ViewCache (MkCache (<[o := e]> (cacheCoins c)) h u) base) o' =
  if decide (o = o') then unspent (Some e) else utxo (ViewCache c base) o'.
Proof. cbn. rewrite lookup_insert. by case_decide. Qed.

Lemma utxo_delete c base o h u o' :
  utxo (ViewCache (MkCache (delete o (cacheCoins c)) h u) base) o' =
  if decide (o = o') then utxo base o else utxo (ViewCache c base) o'.
Proof. cbn. rewrite lookup_delete. by case_decide; subst. Qed.

(** ** Lookups *)

Definition same_utxo (v v' : CCoinsView) : Prop := forall o, utxo v' o = utxo v o.

Lemma inv_unspent v o c : inv v -> utxo v o = Some c -> Coin_IsSpent c = false.
Proof.
  revert c; induction v as [db|c0 base IH]; cbn [inv utxo]; intros c Hi.
  - apply Hi.
  - destruct Hi as [_ Hb]. destruct (cacheCoins c0 !! o) as [e|]; [|by apply IH].
    unfold unspent. destruct (Coin_IsSpent (coin e)) eqn:E; [done|]. by intros [= <-].
Qed.

Lemma FetchCoin_with_spec c base get o it c' base' :
  inv (ViewCache c base) ->
  (forall r b, get o = (r, b) -> r = utxo base o /\ same_utxo base b /\ inv b) ->
  FetchCoin_with DynamicMemoryUsage base get c o = (it, c', base') ->
  inv (ViewCache c' base') /\ same_utxo (ViewCache c base) (ViewCache c' base') /\
  unspent it = utxo (ViewCache c base) o /\ cacheCoins c' !! o = it /\ hashBlock c' = hashBlock c /\
  same_utxo base base'.
Proof.
  intros [Hc Hb] Hget. unfold FetchCoin_with. destruct (cacheCoins c !! o) as [e|] eqn:Eo.
  { intros [= <- <- <-]. split; [done|]. split; [done|]. cbn. by rewrite Eo. }
  destruct (get o) as [[tmp|] b] eqn:Eg; destruct (Hget _ _ eq_refl) as (Hr & Hs & Hib); intros [= <- <- <-].
  - assert (Hsp : Coin_IsSpent tmp = false) by (by apply (inv_unspent base o tmp Hb)). rewrite Hsp.
    split; [split; [|done]|split; [|split; [|split; [|split; [done|done]]]]].
    + apply (cache_ok_ext (utxo base)); [done|]. apply cache_ok_insert; [done| | |].
      * split; [done|]. intros _. unfold unspent. cbn. by rewrite Hsp.
      * unfold valid_entry. cbn. by rewrite Hsp.
      * destruct Hc as [_ ->]. rewrite usage_add_u64, usage_sum_insert by done. cbn. f_equal. lia.
    + intros o'. rewrite utxo_insert. cbn. rewrite Hsp, Hr. case_decide; [by subst; rewrite Eo|].
      by rewrite (Hs o').
    + cbn. by rewrite Hsp, Eo.
    + cbn. apply lookup_insert_eq.
  - split; [split; [by apply (cache_ok_ext (utxo base))|done]|]. split; [intros o'; cbn; by rewrite (Hs o')|].
    cbn. by rewrite Eo.
Qed.

Lemma GetCoin_spec v o r v' :
  inv v -> GetCoin DynamicMemoryUsage v o = (r, v') -> r = utxo v o /\ same_utxo v v' /\ inv v'.
Proof.
  revert o r v'; induction v as [db|c base IH]; intros o r v' Hi; [by intros [= <- <-]|]. cbn [GetCoin].
  destruct (FetchCoin_with _ _ _ c o) as [[it c'] base'] eqn:E. intros [= <- <-].
  apply FetchCoin_with_spec in E as (Hi' & Hs & Hr & _); [done|done|]. intros r b. apply IH. apply Hi.
Qed.

Lemma FetchCoin_spec c base o it c' base' :
  inv (ViewCache c base) -> FetchCoin DynamicMemoryUsage base c o = (it, c', base') ->
  inv (ViewCache c' base') /\ same_utxo (ViewCache c base) (ViewCache c' base') /\
  unspent it = utxo (ViewCache c base) o /\ cacheCoins c' !! o = it /\ hashBlock c' = hashBlock c /\
  same_utxo base base'.
Proof. intros Hi. apply FetchCoin_with_spec; [done|]. intros r b. apply GetCoin_spec. apply Hi. Qed.

(** ** Updates *)

Lemma AddCoin_spec c base o coin_ overwrite :
  inv (ViewCache c base) -> Coin_IsSpent coin_ = false -> IsUnspendable (scriptPubKey (out coin_)) = false ->
  overwrite = true \/ utxo (ViewCache c base) o = None ->
  exists c', AddCoin DynamicMemoryUsage c o coin_ overwrite = Ok c' /\ inv (ViewCache c' base) /\
    hashBlock c' = hashBlock c /\
    forall o', utxo (ViewCache c' base) o' = if decide (o = o') then Some coin_ else utxo (ViewCache c base) o'.
Proof.
  intros [Hc Hb] Hsp Hun Hov. unfold AddCoin. rewrite Hsp, Hun.
  set (it := default _ _). set (usage := match _ with Some _ => _ | None => _ end).
  assert (Hit : entry_ok (utxo base o) it \/ cacheCoins c !! o = None /\ it = MkEntry Coin_empty false false).
  { destruct (cacheCoins c !! o) as [e|] eqn:E; [left; by apply Hc|by right]. }
  assert (Hfresh : exists fresh, (if negb overwrite then
      if negb (Coin_IsSpent (coin it)) then Err OverwriteUnspent else Ok (negb (DIRTY it)) else Ok false) = Ok fresh
      /\ (FRESH it || fresh = true -> utxo base o = None)).
  { destruct Hit as [[Hf Hd]|[Hn ->]]; (destruct overwrite; cbn [negb]; [exists false; split; [done|]|]).
    - rewrite orb_false_r. apply Hf.
    - destruct Hov as [|Hov]; [done|]. cbn in Hov. unfold it in *. destruct (cacheCoins c !! o) as [e|]; cbn in *.
      + destruct (Coin_IsSpent (coin e)) eqn:E; [|done]. cbn. eexists. split; [done|].
        intros [?|?]%orb_true_iff; [by apply Hf|]. symmetry. apply Hd. by apply negb_true_iff.
      + eauto.
    - done.
    - destruct Hov as [|Hov]; [done|]. cbn in *. rewrite Hn in Hov. eauto. }
  destruct Hfresh as (fresh & -> & Hfr). cbn [mbind res_bind]. eexists. split; [done|]. split; [split; [|done]|split; [done|]].
  - apply cache_ok_insert; [done|by split|unfold valid_entry; cbn; by rewrite Hsp|].
    unfold usage. destruct Hc as [_ ->]. destruct (cacheCoins c !! o) as [e|] eqn:E.
    + rewrite usage_sub_u64, usage_add_u64, (usage_sum_replace _ o e) by done. done.
    + rewrite usage_add_u64, usage_sum_insert by done. f_equal. cbn. lia.
  - intros o'. rewrite utxo_insert. cbn. by rewrite Hsp.
Qed.

Lemma SpendCoin_spec c base o r c' base' :
  inv (ViewCache c base) -> SpendCoin DynamicMemoryUsage base c o = (r, c', base') ->
  inv (ViewCache c' base') /\ hashBlock c' = hashBlock c /\ same_utxo base base' /\
  (forall coin_, utxo (ViewCache c base) o = Some coin_ -> r = Some coin_) /\
  forall o', utxo (ViewCache c' base') o' = if decide (o = o') then None else utxo (ViewCache c base) o'.
Proof.
  intros Hi. unfold SpendCoin. destruct (FetchCoin _ base c o) as [[it c1] base1] eqn:E.
  apply FetchCoin_spec in E as ([[Hc Hu] Hb] & Hs & Hr & Hl & Hh & Hsb); [|done].
  destruct it as [e|].
  2: { intros [= <- <- <-]. repeat (split; [done|]). split; [intros ? H; rewrite H in Hr; done|].
       intros o'. case_decide; [subst|apply Hs]. by rewrite Hs. }
  assert (Hcoin : forall coin_, utxo (ViewCache c base) o = Some coin_ -> Some (coin e) = Some coin_).
  { intros ? H. rewrite H in Hr. cbn in Hr. by destruct (Coin_IsSpent _). }
  destruct (Hc o e Hl) as [[Hf _] _]. destruct (FRESH e) eqn:Ef; intros [= <- <- <-].
  - split; [split; [|done]|]. { apply cache_ok_delete; [by split|]. by rewrite Hu, usage_sub_u64, (usage_sum_delete _ o e). }
    repeat (split; [done|]). intros o'. rewrite utxo_delete. case_decide; [by apply Hf|apply Hs].
  - split; [split; [|done]|].
    { apply cache_ok_insert; [by split|by split|done|].
      rewrite Hu, usage_sub_u64, (usage_sum_replace _ o e) by done. cbn. rewrite usage_Clear. f_equal. lia. }
    repeat (split; [done|]). intros o'. rewrite utxo_insert. case_decide; [done|apply Hs].
Qed.

Lemma Uncache_spec c base o :
  inv (ViewCache c base) ->
  inv (ViewCache (Uncache DynamicMemoryUsage c o) base) /\
  same_utxo (ViewCache c base) (ViewCache (Uncache DynamicMemoryUsage c o) base).
Proof.
  intros [Hc Hb]. unfold Uncache. destruct (cacheCoins c !! o) as [e|] eqn:E; [|done].
  destruct (negb (DIRTY e) && negb (FRESH e)) eqn:Ef; [|done]. apply andb_true_iff in Ef as [Hd _].
  apply negb_true_iff in Hd. split; [split; [|done]|].
  - apply cache_ok_delete; [done|]. destruct Hc as [_ ->]. by rewrite usage_sub_u64, (usage_sum_delete _ o e).
  - intros o'. rewrite utxo_delete. case_decide; [subst|done]. destruct (proj1 Hc o' e E) as [[_ He] _].
    cbn. rewrite E. symmetry. by apply He.
Qed.

(** ** Flushing *)

Lemma BatchWrite_entry_spec c base o it :
  inv (ViewCache c base) -> entry_ok (utxo (ViewCache c base) o) it -> valid_entry it ->
  exists c', BatchWrite_entry DynamicMemoryUsage c o it = Ok c' /\ inv (ViewCache c' base) /\
    forall o', utxo (ViewCache c' base) o' = if decide (o = o') then unspent (Some it) else utxo (ViewCache c base) o'.
Proof.
  intros [Hc Hb] [Hf Hd] Hv. unfold BatchWrite_entry. destruct (DIRTY it) eqn:Ed; cbn [negb].
  2: { exists c. repeat (split; [done|]). intros o'. case_decide; [subst; symmetry; by apply Hd|done]. }
  assert (HvD : forall fresh, fresh && Coin_IsSpent (coin it) = false ->
    valid_entry (MkEntry (coin it) true fresh)).
  { intros fresh H. unfold valid_entry in *. cbn. destruct (Coin_IsSpent (coin it)); [|done]. by rewrite andb_true_r in H. }
  cbn in Hf. destruct (cacheCoins c !! o) as [us|] eqn:E.
  - destruct (FRESH it && negb (Coin_IsSpent (coin us))) eqn:Em.
    { apply andb_true_iff in Em as [Hfr Hus]. specialize (Hf Hfr). cbn in Hf. by destruct (Coin_IsSpent (coin us)). }
    destruct (proj1 Hc o us E) as [[Hfu Hdu] _]. destruct (FRESH us && Coin_IsSpent (coin it)) eqn:Ee.
    + apply andb_true_iff in Ee as [Hfus Hsp]. eexists. split; [done|]. split; [split; [|done]|].
      * apply cache_ok_delete; [done|]. destruct Hc as [_ ->]. by rewrite usage_sub_u64, (usage_sum_delete _ o us).
      * intros o'. rewrite utxo_delete. case_decide; [|done]. cbn. rewrite Hsp. by apply Hfu.
    + eexists. split; [done|]. split; [split; [|done]|].
      * apply cache_ok_insert; [done|by split| |].
        { by apply HvD. }
        destruct Hc as [_ ->]. by rewrite usage_sub_u64, usage_add_u64, (usage_sum_replace _ o us).
      * intros o'. by rewrite utxo_insert.
  - destruct (FRESH it && Coin_IsSpent (coin it)) eqn:Em.
    { apply andb_true_iff in Em as [Hfr Hsp]. exists c. repeat (split; [done|]). intros o'. case_decide; [subst|done].
      cbn. rewrite Hsp, E. by apply Hf. }
    eexists. split; [done|]. split; [split; [|done]|].
    + apply cache_ok_insert; [done|by split| |].
      { by apply HvD. }
      destruct Hc as [_ ->]. rewrite usage_add_u64, usage_sum_insert by done. f_equal. cbn. lia.
    + intros o'. by rewrite utxo_insert.
Qed.

(** What a list of entries makes of a view. *)
Fixpoint overlay (l : list (COutPoint * CCoinsCacheEntry)) (f : COutPoint -> option Coin) (o : COutPoint) : option Coin :=
  match l with
  | [] => f o
  | (k, e) :: l => if decide (k = o) then unspent (Some e) else overlay l f o
  end.

Lemma overlay_ext l f g o : f o = g o -> overlay l f o = overlay l g o.
Proof. intros H. induction l as [|[k e] l IH]; [done|]. cbn. by case_decide. Qed.

Lemma overlay_not_in l f o : o ∉ l.*1 -> overlay l f o = f o.
Proof.
  induction l as [|[k e] l IH]; [done|]. intros H. cbn in *. apply not_elem_of_cons in H as [Hk Hl].
  rewrite decide_False by congruence. by apply IH.
Qed.

Lemma cache_BatchWrite_loop_spec l c base :
  inv (ViewCache c base) -> NoDup l.*1 ->
  (forall o e, (o, e) ∈ l -> entry_ok (utxo (ViewCache c base) o) e /\ valid_entry e) ->
  exists c', cache_BatchWrite_loop DynamicMemoryUsage c l = Ok c' /\ inv (ViewCache c' base) /\
    forall o, utxo (ViewCache c' base) o = overlay l (utxo (ViewCache c base)) o.
Proof.
  revert c; induction l as [|[k e] l IH]; intros c Hi Hnd Hl; [by exists c|]. cbn [cache_BatchWrite_loop].
  apply NoDup_cons in Hnd as [Hk Hnd]. destruct (Hl k e) as [He Hv]; [by left|].
  destruct (BatchWrite_entry_spec c base k e Hi He Hv) as (c1 & -> & Hi1 & Hu1). cbn [mbind res_bind].
  destruct (IH c1 Hi1 Hnd) as (c2 & -> & Hi2 & Hu2).
  - intros o e' Ho. rewrite Hu1, decide_False; [apply Hl; by right|]. intros ->.
    apply Hk. apply list_elem_of_fmap. by exists (o, e').
  - exists c2. split; [done|]. split; [done|]. intros o. rewrite Hu2. cbn [overlay]. case_decide as Ho.
    + subst. rewrite overlay_not_in, Hu1, decide_True by done. done.
    + apply overlay_ext. by rewrite Hu1, decide_False.
Qed.

(** ** The database *)

Definition all_ops (l : list (COutPoint * CCoinsCacheEntry)) : list db_op := flat_map (fun p => entry_ops p.1 p.2) l.

Lemma WriteBatch_app db a b : WriteBatch db (a ++ b) = WriteBatch (WriteBatch db a) b.
Proof. apply foldl_app. Qed.

Lemma db_BatchWrite_loop_spec db batch l trace db' batch' :
  db_BatchWrite_loop batch_full db batch l = (trace, db', batch') ->
  WriteBatch db' batch' = WriteBatch db (batch ++ all_ops l) /\
  Forall (fun s => exists l1 l2, l = l1 ++ l2 /\ s = WriteBatch db (batch ++ all_ops l1)) trace.
Proof.
  revert db batch trace; induction l as [|[k e] l IH]; intros db batch trace; cbn [db_BatchWrite_loop].
  { intros [= <- <- <-]. split; [by rewrite app_nil_r|constructor]. }
  change (all_ops ((k, e) :: l)) with (entry_ops k e ++ all_ops l). rewrite app_assoc.
  destruct (batch_full (batch ++ entry_ops k e)).
  - destruct (db_BatchWrite_loop _ (WriteBatch db _) [] l) as [[tr d] b] eqn:E. intros [= <- <- <-].
    apply IH in E as [Hw Ht]. split; [rewrite Hw; symmetry; apply WriteBatch_app|].
    constructor; [exists [(k, e)], l; split; [done|]; cbn; by rewrite app_nil_r|].
    eapply Forall_impl; [exact Ht|]. intros s (l1 & l2 & -> & ->). exists ((k, e) :: l1), l2. split; [done|].
    change (all_ops ((k, e) :: l1)) with (entry_ops k e ++ all_ops l1). rewrite app_assoc. symmetry. apply WriteBatch_app.
  - intros [Hw Ht]%IH. split; [done|]. eapply Forall_impl; [exact Ht|]. intros s (l1 & l2 & -> & ->).
    exists ((k, e) :: l1), l2. split; [done|]. change (all_ops ((k, e) :: l1)) with (entry_ops k e ++ all_ops l1).
    by rewrite app_assoc.
Qed.

(** The coins after the writes of a list of entries: only those of the dirty ones change. *)
Lemma WriteBatch_ops l db :
  NoDup l.*1 ->
  db_best_block (WriteBatch db (all_ops l)) = db_best_block db /\
  db_head_blocks (WriteBatch db (all_ops l)) = db_head_blocks db /\
  forall o, db_coins (WriteBatch db (all_ops l)) !! o =
    overlay (filter (fun p => DIRTY p.2 = true) l) (fun o => db_coins db !! o) o.
Proof.
  revert db; induction l as [|[k e] l IH]; intros db Hnd; [done|]. apply NoDup_cons in Hnd as [Hk Hnd].
  change (all_ops ((k, e) :: l)) with (entry_ops k e ++ all_ops l). rewrite WriteBatch_app.
  destruct (IH (WriteBatch db (entry_ops k e)) Hnd) as (-> & -> & Hc). rewrite filter_cons. cbn [snd].
  unfold entry_ops in *. destruct (DIRTY e); [rewrite decide_True by done|by rewrite decide_False by done].
  split; [by destruct (Coin_IsSpent _)|]. split; [by destruct (Coin_IsSpent _)|]. intros o. rewrite Hc. cbn [overlay].
  assert (Hsub : k ∉ (filter (fun p => DIRTY p.2 = true) l).*1).
  { intros ([k' e'] & -> & Hin)%list_elem_of_fmap. apply list_elem_of_filter in Hin as [_ Hin].
    apply Hk, list_elem_of_fmap. by exists (k', e'). }
  case_decide as Ho.
  - subst. rewrite overlay_not_in by done. cbn. destruct (Coin_IsSpent (coin e)); cbn; [apply lookup_delete_eq|apply lookup_insert_eq].
  - apply overlay_ext. cbn. destruct (Coin_IsSpent (coin e)); cbn; [by apply lookup_delete_ne|by apply lookup_insert_ne].
Qed.

Lemma overlay_dirty l f o :
  NoDup l.*1 -> (forall o e, (o, e) ∈ l -> entry_ok (f o) e) ->
  overlay (filter (fun p => DIRTY p.2 = true) l) f o = overlay l f o.
Proof.
  induction l as [|[k e] l IH]; intros Hnd Hl; [done|]. apply NoDup_cons in Hnd as [Hk Hnd].
  rewrite filter_cons. cbn [snd].
  assert (IH' : overlay (filter (fun p => DIRTY p.2 = true) l) f o = overlay l f o) by (apply IH; [done|intros; apply Hl; by right]).
  case_decide as Hd; cbn [overlay]; rewrite IH'; [done|]. case_decide as Ho; [|done]. subst.
  destruct (Hl o e) as [_ He]; [by left|]. rewrite overlay_not_in by exact Hk.
  symmetry. apply He.
  by destruct (DIRTY e).
Qed.

Lemma db_BatchWrite_spec db l h :
  hash_IsNull h = false -> db_head_blocks db = None -> NoDup l.*1 ->
  exists trace final, db_BatchWrite batch_full db l h = Ok (trace, final) /\
    db_best_block final = Some h /\ db_head_blocks final = None /\
    forall o, db_coins final !! o = overlay (filter (fun p => DIRTY p.2 = true) l) (fun o => db_coins db !! o) o.
Proof.
  intros Hh Hheads Hnd. unfold db_BatchWrite. rewrite Hh. unfold db_GetHeadBlocks. rewrite Hheads. cbn [default].
  assert (Hret : (if hash_IsNull (db_GetBestBlock db) then Ok (db_GetBestBlock db) else Ok (db_GetBestBlock db))
    = Ok (E := coins_error) (db_GetBestBlock db)) by (by destruct (hash_IsNull (db_GetBestBlock db))).
  cbv zeta. cbn. rewrite Hret. cbn [mbind res_bind].
  destruct (db_BatchWrite_loop _ _ _ l) as [[trace db'] batch'] eqn:E. apply db_BatchWrite_loop_spec in E as [Hw _].
  eexists _, _. split; [done|]. rewrite WriteBatch_app, Hw, WriteBatch_app.
  destruct (WriteBatch_ops l (WriteBatch db [EraseBestBlock; WriteHeadBlocks [h; db_GetBestBlock db]]) Hnd) as (_ & _ & Hc).
  split; [done|]. split; [done|]. intros o. apply Hc.
Qed.

Lemma entries_of_map (m : CCoinsMap) l :
  l ≡ₚ map_to_list m -> NoDup l.*1 /\ forall o e, (o, e) ∈ l <-> m !! o = Some e.
Proof.
  intros Hp. split; [rewrite Hp; apply NoDup_fst_map_to_list|]. intros o e. rewrite Hp. apply elem_of_map_to_list.
Qed.

Lemma overlay_map (m : CCoinsMap) l f o :
  l ≡ₚ map_to_list m -> overlay l f o = match m !! o with Some e => unspent (Some e) | None => f o end.
Proof.
  intros [Hnd Hl]%entries_of_map. destruct (m !! o) as [e|] eqn:E.
  - apply Hl in E. clear Hl. induction l as [|[k e'] l IH]; [by apply elem_of_nil in E|].
    apply NoDup_cons in Hnd as [Hk Hnd]. cbn. apply elem_of_cons in E as [[= -> ->]|E]; [by rewrite decide_True|].
    rewrite decide_False; [by apply IH|]. intros ->. apply Hk, list_elem_of_fmap. by exists (o, e).
  - apply overlay_not_in. intros ([k e] & -> & Hin)%list_elem_of_fmap. apply Hl in Hin. cbn in E. congruence.
Qed.

Lemma BatchWrite_spec v l h :
  inv v -> hash_IsNull h = false -> NoDup l.*1 ->
  (forall o e, (o, e) ∈ l -> entry_ok (utxo v o) e /\ valid_entry e) ->
  exists v', BatchWrite batch_full DynamicMemoryUsage v l h = Ok v' /\ inv v' /\
    forall o, utxo v' o = overlay l (utxo v) o.
Proof.
  intros Hi Hh Hnd Hl. destruct v as [db|c base]; cbn [BatchWrite].
  - destruct Hi as [Hheads Hun]. destruct (db_BatchWrite_spec db l h Hh Hheads Hnd) as (tr & final & -> & _ & Hf & Hc).
    cbn [mbind res_bind snd]. eexists. split; [done|].
    assert (Hov : forall o, db_coins final !! o = overlay l (utxo (ViewDB db)) o).
    { intros o. rewrite Hc. apply overlay_dirty; [done|]. intros o' e' He. by apply Hl. }
    split; [|done]. split; [done|]. intros o c Ho. rewrite Hov in Ho. clear Hnd Hl Hc Hov.
    induction l as [|[k e] l IH]; cbn in Ho; [by apply (Hun o)|]. case_decide; [|by apply IH].
    destruct (Coin_IsSpent (coin e)) eqn:E; [done|]. by injection Ho as <-.
  - unfold cache_BatchWrite. destruct (cache_BatchWrite_loop_spec l c base Hi Hnd Hl) as (c' & -> & Hi' & Hu).
    cbn [mbind res_bind]. eexists. split; [done|]. split; [exact Hi'|exact Hu].
Qed.

Lemma Flush_spec order c base :
  inv (ViewCache c base) -> hash_IsNull (hashBlock c) = false ->
  order (cacheCoins c) ≡ₚ map_to_list (cacheCoins c) ->
  exists c' base', Flush batch_full DynamicMemoryUsage order base c = Ok (c', base') /\ inv (ViewCache c' base') /\
    same_utxo (ViewCache c base) (ViewCache c' base') /\ same_utxo (ViewCache c base) base'.
Proof.
  intros [Hc Hb] Hh Hp. unfold Flush. destruct (entries_of_map _ _ Hp) as [Hnd Hl].
  destruct (BatchWrite_spec base (order (cacheCoins c)) (hashBlock c) Hb Hh Hnd) as (base' & -> & Hib & Hu).
  { intros o e Ho%Hl. by apply Hc. }
  cbn [mbind res_bind]. assert (Hs : same_utxo (ViewCache c base) base').
  { intros o. rewrite Hu. by apply overlay_map. }
  eexists _, base'. split; [done|]. split; [split; [|done]|by split].
  split; [|done]. intros o e He. cbn in He. by apply lookup_empty_Some in He.
Qed.

(** ** Refinement *)

(** A view with its caches, against a stack of finite maps: one for each level. *)
Fixpoint refines (v : CCoinsView) (ms : list (gmap COutPoint Coin)) : Prop :=
  match v, ms with
  | ViewDB db, [m] => db_coins db = m
  | ViewCache c base, m :: ms => (forall o, utxo (ViewCache c base) o = m !! o) /\ refines base ms
  | _, _ => False
  end.

Inductive coins_op : Type :=
  | OpGetCoin (o : COutPoint)
  | OpAddCoin (o : COutPoint) (c : Coin) (possible_overwrite : bool)
  | OpSpendCoin (o : COutPoint)
  | OpUncache (o : COutPoint)
  | OpSetBestBlock (h : list Z)
  | OpFlush
  | OpPush   (** [CCoinsViewCache view(&base)] *)
  | OpPop.   (** the cache goes out of scope *)

Definition step (order : CCoinsMap -> list (COutPoint * CCoinsCacheEntry)) (op : coins_op) (v : CCoinsView) :
    res coins_error CCoinsView :=
  match op, v with
  | OpPush, _ => Ok (ViewCache (MkCache ∅ null_hash 0) v)
  | OpGetCoin o, _ => Ok (GetCoin DynamicMemoryUsage v o).2
  | OpAddCoin o coin_ overwrite, ViewCache c base =>
      c ← AddCoin DynamicMemoryUsage c o coin_ overwrite; Ok (ViewCache c base)
  | OpSpendCoin o, ViewCache c base =>
      let '(_, c, base) := SpendCoin DynamicMemoryUsage base c o in Ok (ViewCache c base)
  | OpUncache o, ViewCache c base => Ok (ViewCache (Uncache DynamicMemoryUsage c o) base)
  | OpSetBestBlock h, ViewCache c base => Ok (ViewCache (SetBestBlock c h) base)
  | OpFlush, ViewCache c base =>
      r ← Flush batch_full DynamicMemoryUsage order base c; Ok (ViewCache r.1 r.2)
  | OpPop, ViewCache _ base => Ok base
  | _, ViewDB _ => Abort
  end.

(** What the operation means on the maps. *)
Definition spec_step (op : coins_op) (ms : list (gmap COutPoint Coin)) : list (gmap COutPoint Coin) :=
  match op, ms with
  | OpAddCoin o c _, m :: ms => (if IsUnspendable (scriptPubKey (out c)) then m else <[o := c]> m) :: ms
  | OpSpendCoin o, m :: ms => delete o m :: ms
  | OpFlush, m :: _ :: ms => m :: m :: ms
  | OpPush, m :: ms => m :: m :: ms
  | OpPop, _ :: ms => ms
  | _, _ => ms
  end.

(** The best blocks of the caches, from the top, and what the operation does to them. *)
Fixpoint best_blocks (v : CCoinsView) : list (list Z) :=
  match v with ViewDB _ => [] | ViewCache c base => hashBlock c :: best_blocks base end.

Definition spec_best (op : coins_op) (hs : list (list Z)) : list (list Z) :=
  match op, hs with
  | OpSetBestBlock h, _ :: hs => h :: hs
  | OpFlush, h :: _ :: hs => h :: h :: hs
  | OpPush, _ => null_hash :: hs
  | OpPop, _ :: hs => hs
  | _, _ => hs
  end.

(** The callers' side, in terms of the maps and the best blocks only: there is a cache to work on, a coin that
    is added is unspent and overwrites another one only when that is announced, and a cache that is
    flushed has a best block. *)
Definition legal (op : coins_op) (hs : list (list Z)) (ms : list (gmap COutPoint Coin)) : bool :=
  match op, hs, ms with
  | OpPush, _, _ | OpGetCoin _, _, _ => true
  | OpAddCoin o c overwrite, _ :: _, m :: _ =>
      negb (Coin_IsSpent c) && (overwrite || bool_decide (m !! o = None))
  | OpFlush, h :: _, _ => negb (hash_IsNull h)
  | _, _ :: _, _ => true
  | _, _, _ => false
  end.

Lemma GetCoin_refines v o ms : inv v -> refines v ms -> refines (GetCoin DynamicMemoryUsage v o).2 ms.
Proof.
  revert ms; induction v as [db|c base IH]; intros ms Hi Hr; [done|]. destruct ms as [|m ms]; [done|].
  destruct (GetCoin _ (ViewCache c base) o) as [r v'] eqn:E. pose proof E as E'.
  apply GetCoin_spec in E as (_ & Hs & _); [|done]. cbn [snd]. cbn [GetCoin] in E'.
  destruct Hi as [_ Hb]. destruct Hr as [Hm Hr]. specialize (IH ms Hb Hr). unfold FetchCoin_with in E'.
  destruct (cacheCoins c !! o); [injection E' as <- <-; done|].
  destruct (GetCoin _ base o) as [[tmp|] b]; injection E' as <- <-; (split; [intros o'; by rewrite Hs, Hm|done]).
Qed.

Lemma FetchCoin_refines c base o it c' base' ms :
  inv base -> refines base ms -> FetchCoin DynamicMemoryUsage base c o = (it, c', base') -> refines base' ms.
Proof.
  intros Hi Hr. pose proof (GetCoin_refines base o ms Hi Hr) as Hg. unfold FetchCoin, FetchCoin_with.
  destruct (cacheCoins c !! o); [by intros [= <- <- <-]|].
  destruct (GetCoin _ base o) as [[tmp|] b]; by intros [= <- <- <-].
Qed.

Lemma refines_utxo v m ms o : refines v (m :: ms) -> utxo v o = m !! o.
Proof. destruct v; cbn; [by destruct ms; [intros ->|]|intros [H _]; apply H]. Qed.

Lemma BatchWrite_refines v l h v' m0 m ms :
  BatchWrite batch_full DynamicMemoryUsage v l h = Ok v' -> refines v (m0 :: ms) ->
  (forall o, utxo v' o = m !! o) -> refines v' (m :: ms).
Proof.
  destruct v as [db|c base]; cbn [BatchWrite]; intros H Hr Hu.
  - destruct (db_BatchWrite _ db l h) as [[tr final]| |]; cbn in H; [|done..]. injection H as <-.
    destruct ms; [|done]. cbn. by apply map_eq.
  - destruct (cache_BatchWrite _ c l h) as [c'| |]; cbn in H; [|done..]. injection H as <-. split; [done|apply Hr].
Qed.

Lemma empty_cache_ok f h : cache_ok f (MkCache ∅ h 0).
Proof. split; [|done]. intros o e He. cbn in He. by apply lookup_empty_Some in He. Qed.

Lemma step_AddCoin order o coin_ overwrite c base m ms :
  inv (ViewCache c base) -> refines (ViewCache c base) (m :: ms) ->
  legal (OpAddCoin o coin_ overwrite) (best_blocks (ViewCache c base)) (m :: ms) = true ->
  exists v', step order (OpAddCoin o coin_ overwrite) (ViewCache c base) = Ok v' /\ inv v' /\
    refines v' (spec_step (OpAddCoin o coin_ overwrite) (m :: ms)).
Proof.
  intros Hi [Hm Hr] Hl. cbn in Hl. apply andb_true_iff in Hl as [Hsp%negb_true_iff Hov].
  cbn [step spec_step]. destruct (IsUnspendable (scriptPubKey (out coin_))) eqn:Hun.
  { unfold AddCoin. rewrite Hsp, Hun. cbn [mbind res_bind]. eexists. split; [done|]. split; [done|]. by split. }
  destruct (AddCoin_spec c base o coin_ overwrite Hi Hsp Hun) as (c' & -> & Hi' & _ & Hu).
  { apply orb_true_iff in Hov as [?|?%bool_decide_eq_true]; [by left|right]. by rewrite Hm. }
  cbn [mbind res_bind]. eexists. split; [done|]. split; [done|]. split; [|done].
  intros o'. rewrite Hu, lookup_insert, Hm. done.
Qed.

Lemma step_refines order op v ms :
  (forall m, order m ≡ₚ map_to_list m) -> inv v -> refines v ms -> legal op (best_blocks v) ms = true ->
  exists v', step order op v = Ok v' /\ inv v' /\ refines v' (spec_step op ms).
Proof.
  intros Hord Hi Hr Hl. assert (exists m ms', ms = m :: ms') as (m & ms' & ->) by (destruct v, ms; cbn in Hr; eauto; done).
  destruct op as [o|o coin_ overwrite|o|o|h| | |].
  - cbn [step spec_step]. eexists. split; [done|]. split; [|by apply GetCoin_refines].
    destruct (GetCoin _ v o) eqn:E. by apply GetCoin_spec in E as (_ & _ & ?).
  - destruct v as [|c base]; [done|]. by apply step_AddCoin.
  - destruct v as [|c base]; [done|]. cbn [step spec_step]. destruct Hr as [Hm Hr].
    destruct (SpendCoin _ base c o) as [[r c'] base'] eqn:E. pose proof E as E'.
    apply SpendCoin_spec in E as (Hi' & _ & _ & _ & Hu); [|done]. eexists. split; [done|]. split; [done|]. split.
    + intros o'. rewrite Hu, lookup_delete, Hm. done.
    + unfold SpendCoin in E'. destruct (FetchCoin _ base c o) as [[it c1] base1] eqn:Ef.
      apply (FetchCoin_refines _ _ _ _ _ _ ms') in Ef; [|apply Hi|done].
      destruct it as [e|]; [destruct (FRESH e)|]; by injection E' as <- <- <-.
  - destruct v as [|c base]; [done|]. destruct (Uncache_spec c base o Hi) as [Hi' Hs]. destruct Hr as [Hm Hr].
    eexists. split; [done|]. split; [done|]. split; [|done]. intros o'. by rewrite Hs.
  - destruct v as [|c base]; [done|]. eexists. split; [done|]. by split.
  - destruct v as [|c base]; [done|]. destruct Hr as [Hm Hr]. apply negb_true_iff in Hl. cbn in Hl.
    destruct (Flush_spec order c base Hi Hl (Hord _)) as (c' & base' & Hf & Hi' & Hs & Hsb).
    cbn [step]. rewrite Hf. cbn [mbind res_bind fst snd]. eexists. split; [done|]. split; [done|].
    destruct ms' as [|m1 ms']; [by destruct base|]. split; [intros o; by rewrite Hs|].
    unfold Flush in Hf. destruct (BatchWrite _ _ base _ _) as [b| |] eqn:Eb; cbn in Hf; [|done..].
    injection Hf as <- <-. eapply BatchWrite_refines; [done..|]. intros o. by rewrite Hsb.
  - eexists. split; [done|]. split; [split; [apply empty_cache_ok|done]|]. cbn [spec_step]. split; [|done].
    intros o. cbn. rewrite lookup_empty. by apply (refines_utxo _ _ ms').
  - destruct v as [|c base]; [done|]. eexists. split; [done|]. split; [apply Hi|apply Hr].
Qed.

Fixpoint run (order : CCoinsMap -> list (COutPoint * CCoinsCacheEntry)) (ops : list coins_op) (v : CCoinsView) :
    res coins_error CCoinsView :=
  match ops with
  | [] => Ok v
  | op :: ops => v ← step order op v; run order ops v
  end.

Fixpoint legal_run (ops : list coins_op) (hs : list (list Z)) (ms : list (gmap COutPoint Coin)) : bool :=
  match ops with
  | [] => true
  | op :: ops => legal op hs ms && legal_run ops (spec_best op hs) (spec_step op ms)
  end.

Lemma GetCoin_best v o : best_blocks (GetCoin DynamicMemoryUsage v o).2 = best_blocks v.
Proof.
  induction v as [db|c base IH]; [done|]. cbn [GetCoin]. unfold FetchCoin_with. destruct (cacheCoins c !! o); [done|].
  destruct (GetCoin _ base o) as [[tmp|] b]; cbn in *; by rewrite IH.
Qed.

Lemma FetchCoin_best c base o it c' base' : FetchCoin DynamicMemoryUsage base c o = (it, c', base') ->
  hashBlock c' = hashBlock c /\ best_blocks base' = best_blocks base.
Proof.
  unfold FetchCoin, FetchCoin_with. destruct (cacheCoins c !! o); [by intros [= <- <- <-]|].
  pose proof (GetCoin_best base o) as H. destruct (GetCoin _ base o) as [[tmp|] b]; by intros [= <- <- <-].
Qed.

Lemma BatchWrite_best v l h v' : BatchWrite batch_full DynamicMemoryUsage v l h = Ok v' ->
  best_blocks v' = match best_blocks v with [] => [] | _ :: hs => h :: hs end.
Proof.
  destruct v as [db|c base]; cbn [BatchWrite]; intros (r & Hr & [= <-])%bind_Ok; [done|].
  unfold cache_BatchWrite in Hr. apply bind_Ok in Hr as (c1 & _ & [= <-]). done.
Qed.

Lemma step_best order op v v' : step order op v = Ok v' -> best_blocks v' = spec_best op (best_blocks v).
Proof.
  destruct op as [o|o coin_ overwrite|o|o|h| | |]; destruct v as [db|c base]; cbn [step]; try done.
  1-2: intros [= <-]; first [done|exact (GetCoin_best (ViewCache c base) o)].
  - intros (c1 & Hc & [= <-])%bind_Ok. unfold AddCoin in Hc. case_bool; [done|]. case_bool; [by injection Hc as <-|].
    apply bind_Ok in Hc as (fresh & _ & Hc). by injection Hc as <-.
  - unfold SpendCoin. destruct (FetchCoin _ base c o) as [[it c1] base1] eqn:Ef. destruct (FetchCoin_best _ _ _ _ _ _ Ef) as [E1 E2].
    destruct it as [e|]; [destruct (FRESH e)|]; intros [= <-]; cbn; by rewrite E1, E2.
  - intros [= <-]. unfold Uncache. by repeat case_match.
  - by intros [= <-].
  - intros (r & Hr & [= <-])%bind_Ok. unfold Flush in Hr. apply bind_Ok in Hr as (b & Hb%BatchWrite_best & [= <-]).
    cbn [best_blocks fst snd hashBlock]. rewrite Hb. cbn [spec_best]. by destruct (best_blocks base).
  - by intros [= <-].
  - by intros [= <-].
  - by intros [= <-].
Qed.

(** C11: for any number of caches on top of each other and any sequence of lookups, additions, spends,
    evictions, flushes and scopes of caches that respects the callers' side, which is stated of the finite maps
    and the best blocks that were set, no operation throws or fails an assertion, and every level of the result shows exactly the coins that the operations leave
    in the finite maps: caching, FRESH and DIRTY flags and the order of the hash table are invisible.
    The invariant that is kept includes the combinations of flags documented at CCoinsCacheEntry and
    the exactness of [cachedCoinsUsage]. *)
Theorem coins_cache_refinement order ops v ms :
  (forall m, order m ≡ₚ map_to_list m) -> inv v -> refines v ms -> legal_run ops (best_blocks v) ms = true ->
  exists v', run order ops v = Ok v' /\ inv v' /\ refines v' (foldl (fun ms op => spec_step op ms) ms ops) /\
    forall o m, head (foldl (fun ms op => spec_step op ms) ms ops) = Some m ->
      (GetCoin DynamicMemoryUsage v' o).1 = m !! o.
Proof.
  intros Hord. revert v ms; induction ops as [|op ops IH]; intros v ms Hi Hr Hl; cbn [run foldl].
  - exists v. split; [done|]. split; [done|]. split; [done|]. intros o m Hh. destruct ms as [|m' ms]; [done|].
    injection Hh as ->. destruct (GetCoin _ v o) as [r v'] eqn:E. apply GetCoin_spec in E as (-> & _); [|done].
    by apply (refines_utxo _ _ ms).
  - cbn [legal_run] in Hl. apply andb_true_iff in Hl as [Hop Hl].
    destruct (step_refines order op v ms Hord Hi Hr Hop) as (v1 & Hst & Hi1 & Hr1). rewrite Hst. cbn [mbind res_bind].
    apply IH; [done..|]. by rewrite (step_best order op v v1 Hst).
Qed.

End spec.

Definition sample_utxo : COutPoint := MkOutPoint (replicate 32 1) 0.
Definition sample_ops : list coins_op :=
  [OpPush; OpAddCoin sample_utxo sample_coin false; OpSetBestBlock (replicate 32 2); OpPush; OpGetCoin sample_utxo;
   OpSpendCoin sample_utxo; OpSetBestBlock (replicate 32 3); OpFlush; OpPop; OpFlush].

Lemma coins_cache_refinement_witness :
  exists v', run (fun _ => false) (fun c => zlen (scriptPubKey (out c))) map_to_list sample_ops (ViewDB (MkDB ∅ None None)) = Ok v' /\
    inv (fun c => zlen (scriptPubKey (out c))) v' /\
    refines v' (foldl (fun ms op => spec_step op ms) [∅] sample_ops) /\
    forall o m, head (foldl (fun ms op => spec_step op ms) [∅] sample_ops) = Some m ->
      (GetCoin (fun c => zlen (scriptPubKey (out c))) v' o).1 = m !! o.
Proof.
  apply (coins_cache_refinement (fun _ => false) (fun c => zlen (scriptPubKey (out c))) eq_refl map_to_list);
    [done|split; [done|intros o c H; cbn in H; by apply lookup_empty_Some in H]|done|vm_compute; reflexivity].
Defined.

(** ** Crashes *)

Lemma db_BatchWrite_Ok bf db l h trace final :
  db_BatchWrite bf db l h = Ok (trace, final) -> NoDup l.*1 ->
  exists old_tip, hash_IsNull h = false /\
    (db_best_block db = None -> db_head_blocks db = Some [h; old_tip] \/ length (db_GetHeadBlocks db) <> 2%nat) /\
    db_best_block final = Some h /\ db_head_blocks final = None /\
    (forall o, db_coins final !! o =
      overlay (filter (fun p => DIRTY p.2 = true) l) (fun o => db_coins db !! o) o) /\
    forall s, s ∈ trace -> exists l1 l2, l = l1 ++ l2 /\
      db_best_block s = None /\ db_head_blocks s = Some [h; old_tip] /\
      forall o, db_coins s !! o = overlay (filter (fun p => DIRTY p.2 = true) l1) (fun o => db_coins db !! o) o.
Proof.
  unfold db_BatchWrite. destruct (hash_IsNull h) eqn:Hh; [done|]. intros H Hnd.
  destruct (if hash_IsNull (db_GetBestBlock db) then _ else _) as [old| |] eqn:Eold; cbn [mbind res_bind] in H; [|done..].
  destruct (db_BatchWrite_loop _ _ _ l) as [[tr db'] batch'] eqn:E. injection H as <- <-.
  apply db_BatchWrite_loop_spec in E as [Hw Ht]. exists old. split; [done|]. split.
  { unfold db_GetBestBlock, db_GetHeadBlocks in *. intros Hb. rewrite Hb in Eold. cbn in Eold.
    destruct (db_head_blocks db) as [hs|]; [|by right]. cbn in *.
    destruct hs as [|a [|b [|]]]; try (by right). case_bool_decide; [left|done]. by injection Eold as <-; subst. }
  set (db1 := WriteBatch db [EraseBestBlock; WriteHeadBlocks [h; old]]) in *.
  rewrite WriteBatch_app, Hw, WriteBatch_app. fold db1.
  destruct (WriteBatch_ops l db1 Hnd) as (Hb & Hhd & Hc). split; [done|]. split; [done|]. split; [intros o; apply Hc|].
  intros s Hs. rewrite Forall_forall in Ht. destruct (Ht s Hs) as (l1 & l2 & -> & ->). exists l1, l2. split; [done|].
  rewrite fmap_app in Hnd. apply NoDup_app in Hnd as [Hnd _]. rewrite WriteBatch_app. fold db1.
  by destruct (WriteBatch_ops l1 db1 Hnd) as (-> & -> & Hc1).
Qed.

Lemma overlay_app l1 l2 f o : overlay (l1 ++ l2) f o = overlay l1 (overlay l2 f) o.
Proof. induction l1 as [|[k e] l1 IH]; [done|]. cbn. by case_decide. Qed.

Lemma overlay_idem l1 l2 f o : overlay (l1 ++ l2) (overlay l1 f) o = overlay (l1 ++ l2) f o.
Proof.
  rewrite !overlay_app. destruct (decide (o ∈ l1.*1)) as [Hin|Hout].
  - clear -Hin. set (g := overlay l2 _). set (g' := overlay l2 f). clearbody g g'.
    induction l1 as [|[k e] l1 IH]; [by apply elem_of_nil in Hin|]. cbn in *. case_decide; [done|].
    apply IH. by apply elem_of_cons in Hin as [->|?].
  - rewrite (overlay_not_in l1 (overlay l2 f)), (overlay_not_in l1 (overlay l2 _)) by done. apply overlay_ext. by apply overlay_not_in.
Qed.

(** C14: a flush to the database that is interrupted by a crash can be recovered: every state between
    its partial batches is marked with the block the database is being moved to and the one it comes
    from, and writing the same entries again from there ends in the very state that the flush would have
    reached, whatever the sizes of the batches in either run. *)
Theorem db_flush_crash_recovery bf bf' db l h trace final s :
  NoDup l.*1 -> db_BatchWrite bf db l h = Ok (trace, final) -> s ∈ trace ->
  (exists old_tip, db_best_block s = None /\ db_head_blocks s = Some [h; old_tip]) /\
  exists trace', db_BatchWrite bf' s l h = Ok (trace', final).
Proof.
  intros Hnd H Hs. destruct (db_BatchWrite_Ok _ _ _ _ _ _ H Hnd) as (old & Hh & _ & Hb & Hhd & Hc & Ht).
  destruct (Ht s Hs) as (l1 & l2 & Hl & Hsb & Hsh & Hsc). split; [by exists old|].
  assert (Hre : exists trace' final', db_BatchWrite bf' s l h = Ok (trace', final')).
  { unfold db_BatchWrite. rewrite Hh. unfold db_GetBestBlock, db_GetHeadBlocks. rewrite Hsb, Hsh. cbn.
    rewrite bool_decide_true by done. cbn. destruct (db_BatchWrite_loop _ _ _ l) as [[? ?] ?]. eauto. }
  destruct Hre as (trace' & final' & Hre). exists trace'. rewrite Hre. do 2 f_equal.
  destruct (db_BatchWrite_Ok _ _ _ _ _ _ Hre Hnd) as (_ & _ & _ & Hb' & Hhd' & Hc' & _).
  assert (db_coins final' = db_coins final) as Hcs.
  { apply map_eq. intros o. rewrite Hc, Hc', Hl, filter_app.
    rewrite <- (overlay_idem _ _ (fun o => db_coins db !! o)). apply overlay_ext. apply Hsc. }
  destruct final, final'. cbn in *. by subst.
Qed.

Definition crash_entries : list (COutPoint * CCoinsCacheEntry) :=
  [(sample_utxo, MkEntry Coin_Clear true false); (MkOutPoint (replicate 32 1) 1, MkEntry sample_coin true true)].
Definition crash_db : CCoinsViewDB := MkDB {[ sample_utxo := sample_coin ]} (Some (replicate 32 4)) None.

Lemma db_flush_crash_recovery_witness :
  let s := MkDB ∅ None (Some [replicate 32 5; replicate 32 4]) in
  (exists old_tip, db_best_block s = None /\ db_head_blocks s = Some [replicate 32 5; old_tip]) /\
  exists trace', db_BatchWrite (fun _ => false) s crash_entries (replicate 32 5) =
    Ok (trace', MkDB {[ MkOutPoint (replicate 32 1) 1 := sample_coin ]} (Some (replicate 32 5)) None).
Proof.
  intros s. eapply (db_flush_crash_recovery (fun _ => true) (fun _ => false) crash_db);
    [apply (bool_decide_unpack _); vm_compute; exact I|vm_compute; reflexivity|left].
Defined.
