(* ===== verification/Block.v ===== *)
(** * Blocks

    Models src/src/primitives/block.h and the hashes of block.cpp: the header, whose byte format depends
    on the kind of block and on the type of the stream, and the block. *)

From stdpp Require Import base list numbers.
From S2P Require Import Prelude Script Crypto Serialize Transaction.

Open Scope Z_scope.

Definition POS_BIT : Z := 0x10000000.
Definition POSV2_BITS : Z := Z.lor POS_BIT 0x08000000.

Record CBlockHeader : Type := MkHeader {
  h_nVersion : Z;
  hashPrevBlock : list Z;
  hashMerkleRoot : list Z;
  h_nTime : Z;
  nBits : Z;
  nNonce : Z;
  posStakeHash : list Z;
  posStakeN : Z;
  vchBlockSig : list Z;
  nFlags : Z
}.

#[export] Instance CBlockHeader_eq_dec : EqDecision CBlockHeader.
Proof. solve_decision. Defined.

(** The bits of the stream type that matter: SER_GETHASH and SER_POSMARKER. *)
Record ser_type : Type := MkSerType { SER_GETHASH : bool; SER_POSMARKER : bool }.

Definition header_SetNull : CBlockHeader := MkHeader 0 null_hash null_hash 0 0 0 null_hash 0 [] 0.
Definition header_IsNull (h : CBlockHeader) : bool := nBits h =? 0.

(** [nVersion] is converted to [uint32_t] for the mask. *)
Definition version_PoSV2 (nVersion : Z) : bool := Z.land (u32 nVersion) POSV2_BITS =? POSV2_BITS.
Definition header_IsProofOfStakeV2 (h : CBlockHeader) : bool := version_PoSV2 (h_nVersion h).
Definition header_IsProofOfStake (h : CBlockHeader) : bool :=
  flag (nFlags h) 1 || negb (Z.land (u32 (h_nVersion h)) POS_BIT =? 0).
Definition header_IsProofOfWork (h : CBlockHeader) : bool := negb (header_IsProofOfStake h).

(** The 80 bytes from [nVersion] to [nNonce]. *)
Definition header_prefix (h : CBlockHeader) : list Z :=
  ser_writedata32 (h_nVersion h) ++ hashPrevBlock h ++ hashMerkleRoot h ++ ser_writedata32 (h_nTime h) ++
  ser_writedata32 (nBits h) ++ ser_writedata32 (nNonce h).

Definition ser_header (t : ser_type) (h : CBlockHeader) : list Z :=
  header_prefix h ++
  (if header_IsProofOfStakeV2 h then
     posStakeHash h ++ ser_writedata32 (posStakeN h) ++ (if negb (SER_GETHASH t) then write_bytes (vchBlockSig h) else [])
   else []) ++
  (if negb (SER_GETHASH t) && SER_POSMARKER t then ser_writedata32 (nFlags h) else []).

(** Into a null header. *)
Definition unser_header (t : ser_type) : Parser CBlockHeader :=
  version ← read_int32;
  prev ← read_bytes 32;
  root ← read_bytes 32;
  time ← ser_readdata32;
  bits ← ser_readdata32;
  nonce ← ser_readdata32;
  stake ←
    (if version_PoSV2 version then
       hash ← read_bytes 32;
       n ← ser_readdata32;
       sig ← (if negb (SER_GETHASH t) then read_byte_vector else mret []);
       mret (hash, n, sig)
     else mret (null_hash, 0, []));
  flags ← (if negb (SER_GETHASH t) && SER_POSMARKER t then ser_readdata32 else mret 0);
  mret (MkHeader version prev root time bits nonce stake.1.1 stake.1.2 stake.2 flags).

Record CBlock : Type := MkBlock {
  header : CBlockHeader;
  vtx : list CTransaction;
  oldVchBlockSig : list Z
}.

Definition ser_block (t : ser_type) (b : CBlock) : list Z :=
  ser_header t (header b) ++ write_vector tx_Serialize (vtx b) ++
  (if negb (header_IsProofOfStakeV2 (header b)) then write_bytes (oldVchBlockSig b) else []).

Definition unser_block (t : ser_type) (nTime0 : Z) : Parser CBlock :=
  h ← unser_header t;
  txs ← read_vector (tx_Unserialize nTime0);
  sig ← (if negb (header_IsProofOfStakeV2 h) then read_byte_vector else mret []);
  mret (MkBlock h txs sig).

(** [CBlock::GetBlockHeader]: the fields of the stake keep the values of a null header. *)
Definition block_GetBlockHeader (b : CBlock) : CBlockHeader :=
  let h := header b in
  MkHeader (h_nVersion h) (hashPrevBlock h) (hashMerkleRoot h) (h_nTime h) (nBits h) (nNonce h) null_hash 0 []
    (nFlags h).

Definition IsProofOfStakeTX (b : CBlock) : bool :=
  match vtx b with _ :: tx :: _ => IsCoinStake tx | _ => false end.

Definition HasCoinBase (b : CBlock) : bool :=
  match vtx b with [] => false | tx :: _ => IsCoinBase tx end.

Section hashes.
Context {crypto : CryptoOps}.

Definition header_GetPoWHash (h : CBlockHeader) : list Z := scrypt (header_prefix h).

Definition header_GetHash (h : CBlockHeader) : list Z :=
  if h_nVersion h <? 4 then header_GetPoWHash h else Hash (ser_header (MkSerType true false) h).

End hashes.

(** ** The byte format *)

(** A header as a stream of type [t] can carry it. *)
Record header_ok (t : ser_type) (h : CBlockHeader) : Prop := {
  header_ok_version : signed 32 (h_nVersion h);
  header_ok_prev : length (hashPrevBlock h) = 32%nat;
  header_ok_root : length (hashMerkleRoot h) = 32%nat;
  header_ok_time : unsigned 32 (h_nTime h);
  header_ok_bits : unsigned 32 (nBits h);
  header_ok_nonce : unsigned 32 (nNonce h);
  header_ok_stake :
    if header_IsProofOfStakeV2 h
    then length (posStakeHash h) = 32%nat /\ unsigned 32 (posStakeN h) /\
         (if SER_GETHASH t then vchBlockSig h = [] else zlen (vchBlockSig h) <= MAX_SIZE)
    else posStakeHash h = null_hash /\ posStakeN h = 0 /\ vchBlockSig h = [];
  header_ok_flags : if negb (SER_GETHASH t) && SER_POSMARKER t then unsigned 32 (nFlags h) else nFlags h = 0
}.

#[export] Instance codec_hash : Codec (fun h => h) (read_bytes 32) (fun h => length h = 32%nat).
Proof. intros h rest Hh. by apply read_bytes_app. Qed.

Lemma read_bytes_bind {B} n v (k : list Z -> Parser B) rest :
  length v = n -> (read_bytes n ≫= k) (v ++ rest) = k v rest.
Proof. intros H. unfold mbind, Parser_bind. by rewrite read_bytes_app. Qed.

Ltac header_fields := cbn [h_nVersion hashPrevBlock hashMerkleRoot h_nTime nBits nNonce posStakeHash posStakeN vchBlockSig nFlags] in *.

#[export] Instance codec_header t : Codec (ser_header t) (unser_header t) (header_ok t).
Proof.
  intros [v prev root time bits nonce sh sn sig fl] rest [Hv Hp Hr Ht Hb Hn Hs Hf].
  unfold header_IsProofOfStakeV2 in *. header_fields.
  unfold ser_header, unser_header, header_prefix, header_IsProofOfStakeV2. header_fields. rewrite <- !app_assoc.
  rewrite (codec_bind _ _ _ _ v _ codec_i32), !read_bytes_bind by done.
  rewrite (codec_bind _ _ _ _ time _ codec_u32), (codec_bind _ _ _ _ bits _ codec_u32), (codec_bind _ _ _ _ nonce _ codec_u32) by done.
  assert (Hflags : forall r stake, (flags ← (if negb (SER_GETHASH t) && SER_POSMARKER t then ser_readdata32 else mret 0);
    mret (MkHeader v prev root time bits nonce stake.1.1 stake.1.2 stake.2 flags) : Parser CBlockHeader)
    ((if negb (SER_GETHASH t) && SER_POSMARKER t then ser_writedata32 fl else []) ++ r)
    = Ok (MkHeader v prev root time bits nonce stake.1.1 stake.1.2 stake.2 fl, r)).
  { intros r stake. destruct (negb (SER_GETHASH t) && SER_POSMARKER t); [by rewrite (codec_bind _ _ _ _ fl _ codec_u32)|by subst]. }
  destruct (version_PoSV2 v).
  - destruct Hs as (Hsh & Hsn & Hsig). apply parser_bind_Ok. exists (sh, sn, sig). eexists. split; [|apply Hflags].
    rewrite <- !app_assoc, read_bytes_bind, (codec_bind _ _ _ _ sn _ codec_u32) by done.
    destruct (SER_GETHASH t); cbn [negb]; [by subst|]. by rewrite (codec_bind _ _ _ _ sig _ codec_bytes).
  - destruct Hs as (-> & -> & ->). rewrite parser_ret_bind. apply Hflags.
Qed.

#[export] Instance canonical_hash : Canonical (fun h => h) (read_bytes 32) (fun h => length h = 32%nat).
Proof. intros s h rest _ H. by apply read_bytes_inv in H. Qed.

Ltac read_field H :=
  first [apply (canonical_bind _ _ _ _ _ _ canonical_hash) in H | apply (canonical_bind _ _ _ _ _ _ canonical_u32) in H
        | apply (canonical_bind _ _ _ _ _ _ canonical_i32) in H];
  [destruct H as (? & ? & -> & ? & ? & H)|done].

#[export] Instance canonical_header t : Canonical (ser_header t) (unser_header t) (header_ok t).
Proof.
  intros s h rest Hs H. unfold unser_header in H. do 6 read_field H.
  apply parser_bind_Ok in H as ([[sh sn] sig] & s7 & Hst & (fl & s8 & Hfl & [= <- <-])%parser_bind_Ok). cbn [fst snd] in *.
  assert (Hstake : x6 = (if version_PoSV2 x then sh ++ ser_writedata32 sn ++
      (if negb (SER_GETHASH t) then write_bytes sig else []) else []) ++ s7 /\
    (if version_PoSV2 x then length sh = 32%nat /\ unsigned 32 sn /\
       (if SER_GETHASH t then sig = [] else zlen sig <= MAX_SIZE)
     else sh = null_hash /\ sn = 0 /\ sig = [])).
  { destruct (version_PoSV2 x); [|by injection Hst as <- <- <- <-]. do 2 read_field Hst.
    apply parser_bind_Ok in Hst as (sig' & s9 & Hsig & [= <- <- <- <-]).
    destruct (SER_GETHASH t); cbn [negb] in *; [injection Hsig as <- <-; by rewrite <- app_assoc|].
    apply canonical in Hsig as [-> ?]; [|done]. by rewrite <- !app_assoc. }
  destruct Hstake as [-> Hstake]. apply Forall_app in H11 as [_ Hs7].
  assert (Hflags : s7 = (if negb (SER_GETHASH t) && SER_POSMARKER t then ser_writedata32 fl else []) ++ s8 /\
    (if negb (SER_GETHASH t) && SER_POSMARKER t then unsigned 32 fl else fl = 0)).
  { destruct (negb (SER_GETHASH t) && SER_POSMARKER t); [by apply canonical in Hfl|by injection Hfl as <- <-]. }
  destruct Hflags as [-> Hflags]. split; [|by constructor].
  unfold ser_header, header_prefix, header_IsProofOfStakeV2. header_fields. by rewrite <- !app_assoc.
Qed.

(** A transaction as the reader leaves it, with a version that is not negative. *)
Definition versioned_tx_ok (nTime0 : Z) (tx : CTransaction) : Prop := tx_ok nTime0 tx /\ 0 <= nVersion tx < 2 ^ 15.

#[export] Instance codec_tx nTime0 : Codec tx_Serialize (tx_Unserialize nTime0) (versioned_tx_ok nTime0).
Proof. intros tx rest [Hok Hv]. by apply tx_roundtrip. Qed.

Definition block_ok (t : ser_type) (nTime0 : Z) (b : CBlock) : Prop :=
  header_ok t (header b) /\ (zlen (vtx b) <= MAX_SIZE /\ Forall (versioned_tx_ok nTime0) (vtx b)) /\
  (if header_IsProofOfStakeV2 (header b) then oldVchBlockSig b = [] else zlen (oldVchBlockSig b) <= MAX_SIZE).

Lemma block_codec t nTime0 b rest :
  block_ok t nTime0 b -> unser_block t nTime0 (ser_block t b ++ rest) = Ok (b, rest).
Proof.
  destruct b as [h txs sig]. intros (Hh & Htx & Hs). cbn [header vtx oldVchBlockSig] in *.
  unfold ser_block, unser_block. cbn [header vtx oldVchBlockSig]. rewrite <- !app_assoc.
  rewrite (codec_bind _ _ _ _ h _ (codec_header t)) by done.
  rewrite (codec_bind _ _ _ _ txs _ (codec_vector _ _ _ (codec_tx nTime0))) by done.
  destruct (header_IsProofOfStakeV2 h); cbn [negb]; [by subst|]. by rewrite (codec_bind _ _ _ _ sig _ codec_bytes).
Qed.

(** Blocks and headers are read back from their bytes on every type of stream, with the stake
    fields of the proof-of-stake headers, the block signature where it is carried, and the marker of the
    network messages; and an accepted header is exactly the bytes that are written for it. *)
Theorem block_roundtrip t nTime0 b s h rest rest' :
  block_ok t nTime0 b -> bytes_ok s -> unser_header t s = Ok (h, rest') ->
  unser_block t nTime0 (ser_block t b ++ rest) = Ok (b, rest) /\ s = ser_header t h ++ rest' /\ header_ok t h.
Proof. intros Hb Hs H. split; [by apply block_codec|by apply canonical]. Qed.

Definition sample_header : CBlockHeader :=
  MkHeader 0x18000004 (replicate 32 1) (replicate 32 2) 3 4 5 (replicate 32 6) 7 [8; 9] 1.
Definition sample_block : CBlock := MkBlock sample_header [sample_tx] [].
Definition network : ser_type := MkSerType false true.

Lemma block_roundtrip_witness :
  unser_block network 99 (ser_block network sample_block ++ [1]) = Ok (sample_block, [1]) /\
  ser_header network sample_header ++ [2] = ser_header network sample_header ++ [2] /\
  header_ok network sample_header.
Proof.
  apply (block_roundtrip network 99 sample_block (ser_header network sample_header ++ [2]) sample_header [1] [2]);
    [|apply (bool_decide_unpack (Forall (fun b => 0 <= b < 256) _)); vm_compute; exact I|vm_compute; reflexivity].
  split; [|split]; [constructor; vm_compute; repeat split; done| |done].
  split; [done|]. constructor; [|constructor]. split; [|simpl; lia].
  constructor; simpl; unfold unsigned; repeat (split || constructor); simpl; lia || done.
Defined.

(** [CBlock::GetBlockHeader] drops the stake of a proof-of-stake header: the bytes that are hashed
    for the header it returns are those of the block only if the stake was null. *)
Theorem GetBlockHeader_loses_stake b :
  header_ok (MkSerType false true) (header b) -> header_IsProofOfStakeV2 (header b) = true ->
  ser_header (MkSerType true false) (block_GetBlockHeader b) = ser_header (MkSerType true false) (header b) <->
  posStakeHash (header b) = null_hash /\ posStakeN (header b) = 0.
Proof.
  intros Hok Hv2. destruct Hok as [_ _ _ _ _ _ Hst _]. rewrite Hv2 in Hst. destruct Hst as (Hsh & Hsn & _).
  unfold ser_header. change (header_IsProofOfStakeV2 (block_GetBlockHeader b)) with (header_IsProofOfStakeV2 (header b)).
  rewrite Hv2. change (header_prefix (block_GetBlockHeader b)) with (header_prefix (header b)).
  cbn [SER_GETHASH negb andb]. split.
  - intros H%app_inv_head. rewrite !app_nil_r in H. apply app_inj_1 in H as [Hh Hn]; [|by rewrite Hsh].
    split; [by rewrite <- Hh|]. pose proof (f_equal le_val Hn) as Hl. unfold ser_writedata32, WriteLE32 in Hl.
    rewrite !le_val_bytes in Hl. cbn [block_GetBlockHeader posStakeN] in Hl. rewrite Z.mod_small in Hl by done. unfold unsigned in Hsn.
    rewrite Z.mod_small in Hl by done. done.
  - intros [-> ->]. done.
Qed.

Lemma GetBlockHeader_loses_stake_witness :
  ser_header (MkSerType true false) (block_GetBlockHeader sample_block) = ser_header (MkSerType true false) sample_header <->
  posStakeHash sample_header = null_hash /\ posStakeN sample_header = 0.
Proof. apply (GetBlockHeader_loses_stake sample_block); [constructor; vm_compute; repeat split; done|reflexivity]. Defined.
