(* ===== verification/Chain.v ===== *)
(** * The block index and the active chain

    Models CBlockIndex and CChain of src/src/chain.h and chain.cpp, and BlockManager::AddToBlockIndex of
    src/src/validation.cpp, which builds the index.  The index entries are allocated once and never
    freed, so the heap is the list of the entries in the order of their allocation and a pointer is a
    position in it; a null pointer is [None]. *)

From stdpp Require Import base list numbers gmap sorting.
From S2P Require Import Prelude Script Crypto Serialize Transaction Block ArithUint256 ArithCompact.

Open Scope Z_scope.

Abbreviation ptr := nat.

Record CBlockIndex : Type := MkIndex {
  blockHash : list Z;
  pprev : option ptr;
  pskip : option ptr;
  nHeight : Z;
  nChainWork : list Z;
  nStatus : Z;
  nTimeMax : Z;
  nSequenceId : Z;
  (** the header, with its [nVersion], [nTime], [nBits], [nNonce], [nFlags], ... *)
  index_header : CBlockHeader
}.

Abbreviation heap := (list CBlockIndex).

Definition BLOCK_VALID_TREE : Z := 2.
Definition BLOCK_VALID_MASK : Z := Z.lor (Z.lor (Z.lor (Z.lor 1 2) 3) 4) 5.
Definition BLOCK_CONFLICT_CHAINLOCK : Z := 128.
Definition BLOCK_FAILED_MASK : Z := Z.lor 32 64.
Definition BLOCK_PROOF_OF_STAKE : Z := 1.

Definition index_IsProofOfStake (b : CBlockIndex) : bool :=
  flag (nFlags (index_header b)) BLOCK_PROOF_OF_STAKE ||
  negb (Z.land (u32 (h_nVersion (index_header b))) POS_BIT =? 0).

Definition GetBlockTime (b : CBlockIndex) : Z := h_nTime (index_header b).

(** ** Ancestors *)

Definition InvertLowestOne (n : Z) : Z := Z.land n (n - 1).

Definition GetSkipHeight (height : Z) : Z :=
  if height <? 2 then 0
  else if flag height 1 then InvertLowestOne (InvertLowestOne (height - 1)) + 1
  else InvertLowestOne height.

(** The loop; every round lowers [heightWalk]. *)
Fixpoint GetAncestor_loop (fuel : nat) (t : heap) (pindexWalk : ptr) (heightWalk height : Z) : res unit ptr :=
  if heightWalk <=? height then Ok pindexWalk else
  match fuel with
  | O => Abort
  | S fuel =>
      match t !! pindexWalk with
      | None => Abort
      | Some walk =>
          let heightSkip := GetSkipHeight heightWalk in
          let heightSkipPrev := GetSkipHeight (heightWalk - 1) in
          let follow := (heightSkip =? height) ||
            ((height <? heightSkip) && negb ((heightSkipPrev <? heightSkip - 2) && (height <=? heightSkipPrev))) in
          let prev := match pprev walk with
                      | None => Abort
                      | Some p => GetAncestor_loop fuel t p (heightWalk - 1) height
                      end in
          match pskip walk with
          | Some skip => if follow then GetAncestor_loop fuel t skip heightSkip height else prev
          | None => prev
          end
      end
  end.

Definition GetAncestor (t : heap) (pindex : ptr) (height : Z) : res unit (option ptr) :=
  match t !! pindex with
  | None => Abort
  | Some b =>
      if (nHeight b <? height) || (height <? 0) then Ok None
      else p ← GetAncestor_loop (Z.to_nat (nHeight b)) t pindex (nHeight b) height; Ok (Some p)
  end.

(** [BuildSkip], for an entry whose predecessor is [prev] and whose height is [height]. *)
Definition BuildSkip (t : heap) (prev : option ptr) (height : Z) : res unit (option ptr) :=
  match prev with
  | None => Ok None
  | Some p => GetAncestor t p (GetSkipHeight height)
  end.

(** [while (pa != pb && pa && pb)]: both pointers go up together; the fuel is the height. *)
Fixpoint LastCommonAncestor_loop (fuel : nat) (t : heap) (pa pb : option ptr) : res unit (option ptr) :=
  match pa, pb with
  | Some a, Some b =>
      if (a =? b)%nat then Ok pa else
      match fuel with
      | O => Abort
      | S fuel =>
          match t !! a, t !! b with
          | Some ia, Some ib => LastCommonAncestor_loop fuel t (pprev ia) (pprev ib)
          | _, _ => Abort
          end
      end
  | None, None => Ok None
  | _, _ => Abort
  end.

Definition LastCommonAncestor (t : heap) (pa pb : ptr) : res unit (option ptr) :=
  match t !! pa, t !! pb with
  | Some ia, Some ib =>
      qa ← (if nHeight ib <? nHeight ia then GetAncestor t pa (nHeight ib) else Ok (Some pa));
      qb ← (if negb (nHeight ib <? nHeight ia) && (nHeight ia <? nHeight ib) then GetAncestor t pb (nHeight ia) else Ok (Some pb));
      LastCommonAncestor_loop (S (Z.to_nat (Z.min (nHeight ia) (nHeight ib)))) t qa qb
  | _, _ => Abort
  end.

(** ** Work *)

(** [(~bnTarget / (bnTarget + 1)) + 1]; the division throws for a zero divisor. *)
Definition GetBlockProof (nBits : Z) : res unit (list Z) :=
  let '(bnTarget, fNegative, fOverflow) := SetCompact nBits in
  if fNegative || fOverflow || EqualTo bnTarget 0 then Ok (of_u64 0) else
  match uint_div (uint_not bnTarget) (uint_add bnTarget (of_u64 1)) with
  | None => Err tt
  | Some q => Ok (uint_add q (of_u64 1))
  end.

(** ** Building the index *)

(** Raise the validity level; whether it was changed. *)
Definition RaiseValidity (status nUpTo : Z) : res unit (Z * bool) :=
  if negb (Z.ldiff nUpTo BLOCK_VALID_MASK =? 0) then Abort
  else if flag status BLOCK_FAILED_MASK then Ok (status, false)
  else if Z.land status BLOCK_VALID_MASK <? nUpTo then Ok (Z.lor (Z.ldiff status BLOCK_VALID_MASK) nUpTo, true)
  else Ok (status, false).

(** [m_block_index.find]. *)
Fixpoint find_block (t : heap) (hash : list Z) (i : nat) : option ptr :=
  match t with
  | [] => None
  | b :: t => if bool_decide (blockHash b = hash) then Some i else find_block t hash (S i)
  end.

(** [SetProofOfStake]. *)
Definition header_SetProofOfStake (h : CBlockHeader) : CBlockHeader :=
  MkHeader (h_nVersion h) (hashPrevBlock h) (hashMerkleRoot h) (h_nTime h) (nBits h) (nNonce h)
    (posStakeHash h) (posStakeN h) (vchBlockSig h) (Z.lor (nFlags h) BLOCK_PROOF_OF_STAKE).

(** The index with what is kept beside it: the best header, the entries to write to disk and the
    successors of each block. *)
Record BlockManager : Type := MkManager {
  m_block_index : heap;
  pindexBestHeader : option ptr;
  setDirtyBlockIndex : gset ptr;
  m_prev_block_index : list (list Z * ptr)
}.

(** The height of the new entry [p] and its skip pointer; the entry is in the heap [t] when its
    predecessor is looked up. *)
Definition link_prev (t : heap) (p : ptr) (hash : list Z) (block : CBlockHeader) : res unit (option ptr * Z * option ptr) :=
  let prev := find_block t (hashPrevBlock block) 0 in
  match prev with
  | None => Ok (None, 0, None)
  | Some q =>
      match t !! q with
      | None => Abort
      | Some b =>
          let height := nHeight b + 1 in
          skip ← BuildSkip (<[p := MkIndex hash prev None height (of_u64 0) 0 0 0 block]> t) prev height;
          Ok (prev, height, skip)
      end
  end.

(** [pindexBestHeader], after an entry with the given work. *)
Definition best_header (t : heap) (best : option ptr) (p : ptr) (work : list Z) : option ptr :=
  match best ≫= fun q => t !! q with
  | None => Some p
  | Some b => if uint_ltb (nChainWork b) work then Some p else best
  end.

Definition AddToBlockIndex {crypto : CryptoOps} (m : BlockManager) (block : CBlockHeader) (status : Z) :
    res unit (BlockManager * ptr) :=
  if flag status BLOCK_FAILED_MASK then Abort else
  let hash := header_GetHash block in
  match find_block (m_block_index m) hash 0 with
  | Some p => Ok (m, p)
  | None =>
      let p := length (m_block_index m) in
      let t := m_block_index m ++ [MkIndex hash None None 0 (of_u64 0) 0 0 0 block] in
      '(prev, height, skip) ← link_prev t p hash block;
      let ib := prev ≫= fun q => t !! q in
      let timemax := match ib with Some b => Z.max (nTimeMax b) (h_nTime block) | None => h_nTime block end in
      let header := if flag (nFlags block) BLOCK_PROOF_OF_STAKE then header_SetProofOfStake block else block in
      proof ← GetBlockProof (nBits block);
      let work := uint_add (match ib with Some b => nChainWork b | None => of_u64 0 end) proof in
      st ← (if flag status BLOCK_VALID_MASK then '(s, _) ← RaiseValidity 0 status; Ok s
            else '(s, _) ← RaiseValidity 0 BLOCK_VALID_TREE; Ok (Z.lor s status));
      let best := if flag status BLOCK_VALID_MASK then best_header t (pindexBestHeader m) p work else pindexBestHeader m in
      Ok (MkManager (m_block_index m ++ [MkIndex hash prev skip height work st timemax 0 header]) best
            ({[ p ]} ∪ setDirtyBlockIndex m)
            (m_prev_block_index m ++ match ib with Some b => [(blockHash b, p)] | None => [] end), p)
  end.

(** ** The active chain *)

Abbreviation CChain := (list (option ptr)).

Definition chain_at (c : CChain) (height : Z) : option ptr :=
  if (height <? 0) || (zlen c <=? height) then None else mjoin (c !! Z.to_nat height).
Definition Tip (c : CChain) : option ptr := mjoin (last c).
Definition Height (c : CChain) : Z := zlen c - 1.

Definition Contains (t : heap) (c : CChain) (pindex : ptr) : bool :=
  match t !! pindex with
  | Some b => bool_decide (chain_at c (nHeight b) = Some pindex)
  | None => false
  end.

Definition Next (t : heap) (c : CChain) (pindex : ptr) : option ptr :=
  match t !! pindex with
  | Some b => if Contains t c pindex then chain_at c (nHeight b + 1) else None
  | None => None
  end.

(** The loop of [SetTip]; an index out of the vector is undefined behaviour. *)
Fixpoint SetTip_loop (fuel : nat) (t : heap) (c : CChain) (pindex : option ptr) : res unit CChain :=
  match pindex with
  | None => Ok c
  | Some p =>
      match t !! p with
      | None => Abort
      | Some b =>
          if (nHeight b <? 0) || (zlen c <=? nHeight b) then Abort else
          if bool_decide (chain_at c (nHeight b) = Some p) then Ok c else
          match fuel with
          | O => Abort
          | S fuel => SetTip_loop fuel t (<[Z.to_nat (nHeight b) := Some p]> c) (pprev b)
          end
      end
  end.

Definition SetTip (t : heap) (c : CChain) (pindex : option ptr) : res unit CChain :=
  match pindex with
  | None => Ok []
  | Some p =>
      match t !! p with
      | None => Abort
      | Some b =>
          SetTip_loop (S (Z.to_nat (nHeight b))) t (resize (Z.to_nat (nHeight b + 1)) None c) pindex
      end
  end.

(** [while (pindex && !Contains(pindex))]. *)
Fixpoint FindFork_loop (fuel : nat) (t : heap) (c : CChain) (pindex : option ptr) : res unit (option ptr) :=
  match pindex with
  | None => Ok None
  | Some p =>
      if Contains t c p then Ok pindex else
      match fuel with
      | O => Abort
      | S fuel => match t !! p with Some b => FindFork_loop fuel t c (pprev b) | None => Abort end
      end
  end.

Definition FindFork (t : heap) (c : CChain) (pindex : option ptr) : res unit (option ptr) :=
  match pindex with
  | None => Ok None
  | Some p =>
      match t !! p with
      | None => Abort
      | Some b =>
          q ← (if Height c <? nHeight b then GetAncestor t p (Height c) else Ok pindex);
          FindFork_loop (S (Z.to_nat (nHeight b))) t c q
      end
  end.

Fixpoint GetLocator_loop (fuel : nat) (t : heap) (c : CChain) (pindex : option ptr) (nStep : Z) (vHave : list (list Z)) :
    res unit (list (list Z)) :=
  match pindex with
  | None => Ok vHave
  | Some p =>
      match t !! p, fuel with
      | None, _ | _, O => Abort
      | Some b, S fuel =>
          let vHave := vHave ++ [blockHash b] in
          if nHeight b =? 0 then Ok vHave else
          let height := Z.max (nHeight b - nStep) 0 in
          q ← (if Contains t c p then Ok (chain_at c height) else GetAncestor t p height);
          GetLocator_loop fuel t c q (if 10 <? zlen vHave then nStep * 2 else nStep) vHave
      end
  end.

Definition GetLocator (t : heap) (c : CChain) (pindex : option ptr) : res unit (list (list Z)) :=
  let pindex := match pindex with None => Tip c | Some _ => pindex end in
  let fuel := match pindex ≫= fun p => t !! p with Some b => S (Z.to_nat (nHeight b)) | None => O end in
  GetLocator_loop fuel t c pindex 1 [].

(** ** Times *)

Definition nMedianTimeSpan : nat := 11.

(** The times of the block and of up to ten predecessors. *)
Fixpoint past_times (n : nat) (t : heap) (pindex : option ptr) : list Z :=
  match n, pindex ≫= fun p => t !! p with
  | S n, Some b => GetBlockTime b :: past_times n t (pprev b)
  | _, _ => []
  end.

Definition GetMedianTimePast (t : heap) (pindex : ptr) : Z :=
  let times := merge_sort Z.le (past_times nMedianTimeSpan t (Some pindex)) in
  default 0 (times !! (length times / 2)%nat).

(** [while (pindex && pindex->pprev && (pindex->IsProofOfStake() != fProofOfStake))]. *)
Fixpoint GetLastBlockIndex_loop (fuel : nat) (t : heap) (pindex : ptr) (fProofOfStake : bool) : res unit ptr :=
  match t !! pindex with
  | None => Abort
  | Some b =>
      match pprev b with
      | None => Ok pindex
      | Some p =>
          if Bool.eqb (index_IsProofOfStake b) fProofOfStake then Ok pindex else
          match fuel with O => Abort | S fuel => GetLastBlockIndex_loop fuel t p fProofOfStake end
      end
  end.

Definition GetLastBlockIndex (t : heap) (pindex : option ptr) (fProofOfStake : bool) : res unit (option ptr) :=
  match pindex with
  | None => Ok None
  | Some p => q ← GetLastBlockIndex_loop (S p) t p fProofOfStake; Ok (Some q)
  end.
