(* ===== verification/ChainSpec.v ===== *)
(** * The skip list and the active chain are correct

    Theorems on the block index of Chain.v: ancestors through the skip list are the ancestors through
    the predecessors, the index that is built keeps that property, the last common ancestor of two
    blocks and the fork point of the active chain are what their names say. *)

From stdpp Require Import base list numbers sorting.
From S2P Require Import Prelude Script Crypto Serialize Transaction Block ArithUint256 ArithCompact Chain.

Open Scope Z_scope.

(** [n] steps to the predecessor. *)
Fixpoint walk (n : nat) (t : heap) (p : ptr) : option ptr :=
  match n with
  | O => Some p
  | S n => match t !! p with Some b => pprev b ≫= walk n t | None => None end
  end.

(** The ancestor of a given height, by predecessors only. *)
Definition ancestor (t : heap) (p : ptr) (height : Z) : option ptr :=
  match t !! p with
  | Some b => if (nHeight b <? height) || (height <? 0) then None else walk (Z.to_nat (nHeight b - height)) t p
  | None => None
  end.

(** What an entry of the index satisfies. *)
Definition entry_wf (t : heap) (p : ptr) (b : CBlockIndex) : Prop :=
  match pprev b with
  | None => nHeight b = 0
  | Some q => exists c, t !! q = Some c /\ (q < p)%nat /\ nHeight b = nHeight c + 1
  end /\
  0 <= nHeight b /\
  forall s, pskip b = Some s -> ancestor t p (GetSkipHeight (nHeight b)) = Some s.

Definition heap_wf (t : heap) : Prop := forall p b, t !! p = Some b -> entry_wf t p b.

(** ** Skip heights *)

Lemma land_le_r x y : 0 <= y -> Z.land x y <= y.
Proof.
  intros Hy. assert (Hd : Z.land (Z.land x y) (Z.ldiff y x) = 0).
  { apply Z.bits_inj'. intros i Hi. rewrite !Z.land_spec, Z.ldiff_spec, Z.bits_0.
    by destruct (Z.testbit x i), (Z.testbit y i). }
  pose proof (lor_disjoint_add _ _ Hd) as Ha. assert (Z.lor (Z.land x y) (Z.ldiff y x) = y) as Hy'.
  { apply Z.bits_inj'. intros i Hi. rewrite Z.lor_spec, Z.land_spec, Z.ldiff_spec.
    by destruct (Z.testbit x i), (Z.testbit y i). }
  assert (0 <= Z.ldiff y x) by (apply Z.ldiff_nonneg; by left). lia.
Qed.

Lemma InvertLowestOne_bound n : 0 <= n -> 0 <= InvertLowestOne n <= Z.max 0 (n - 1).
Proof.
  intros Hn. unfold InvertLowestOne. destruct (Z.eq_dec n 0) as [->|]; [done|].
  split; [apply Z.land_nonneg; lia|]. rewrite Z.max_r by lia. apply land_le_r; lia.
Qed.

Lemma GetSkipHeight_bound h : 1 <= h -> 0 <= GetSkipHeight h < h.
Proof.
  intros Hh. unfold GetSkipHeight. destruct (h <? 2) eqn:E; bprop; [lia|]. destruct (flag h 1).
  - pose proof (InvertLowestOne_bound (h - 1) ltac:(lia)). pose proof (InvertLowestOne_bound (InvertLowestOne (h - 1)) ltac:(lia)). lia.
  - pose proof (InvertLowestOne_bound h ltac:(lia)). lia.
Qed.

(** ** Walks *)

Lemma walk_add n m t p : walk (n + m) t p = walk n t p ≫= walk m t.
Proof.
  revert p; induction n as [|n IH]; intros p; [done|]. cbn [walk Nat.add].
  destruct (t !! p) as [b|]; [|done]. destruct (pprev b) as [q|]; [|done]. apply IH.
Qed.

Section wf.
Context (t : heap) (wf : heap_wf t).

(** An entry has predecessors down to height 0. *)
Lemma walk_height n p b :
  t !! p = Some b -> Z.of_nat n <= nHeight b ->
  exists q c, walk n t p = Some q /\ t !! q = Some c /\ nHeight c = nHeight b - Z.of_nat n /\ (q <= p)%nat.
Proof.
  revert p b; induction n as [|n IH]; intros p b Hp Hn; [exists p, b; repeat split; [done|lia|lia]|].
  cbn [walk]. rewrite Hp. destruct (wf p b Hp) as (Hprev & H0 & _). destruct (pprev b) as [q|]; [|lia].
  destruct Hprev as (c & Hc & Hlt & Hh). destruct (IH q c Hc) as (q' & c' & Hw & Hc' & Hh' & Hle); [lia|].
  exists q', c'. repeat split; [done|done|lia|lia].
Qed.

Lemma ancestor_Some p b height :
  t !! p = Some b -> 0 <= height <= nHeight b ->
  exists q c, ancestor t p height = Some q /\ t !! q = Some c /\ nHeight c = height /\ (q <= p)%nat.
Proof.
  intros Hp Hh. unfold ancestor. rewrite Hp, !(proj2 (Z.ltb_ge _ _)) by lia. cbn [orb].
  destruct (walk_height (Z.to_nat (nHeight b - height)) p b Hp) as (q & c & Hw & Hc & Hq & Hle); [lia|].
  exists q, c. repeat split; [done|done|lia|done].
Qed.

(** Ancestors of ancestors. *)
Lemma ancestor_trans p b h q height :
  t !! p = Some b -> ancestor t p h = Some q -> height <= h -> ancestor t q height = ancestor t p height.
Proof.
  intros Hp Hq Hle. unfold ancestor in *. rewrite Hp in *.
  destruct ((nHeight b <? h) || (h <? 0)) eqn:E; [done|]. apply orb_false_iff in E as [E1 E2]. bprop.
  destruct (walk_height (Z.to_nat (nHeight b - h)) p b Hp) as (q' & c & Hw & Hc & Hh & _); [lia|].
  rewrite Hw in Hq. injection Hq as ->. rewrite Hc.
  rewrite !(proj2 (Z.ltb_ge (nHeight _) height)) by lia. cbn [orb]. destruct (height <? 0) eqn:E0; [done|]. bprop.
  replace (Z.to_nat (nHeight b - height)) with (Z.to_nat (nHeight b - h) + Z.to_nat (nHeight c - height))%nat by lia.
  by rewrite walk_add, Hw.
Qed.

Lemma ancestor_self p b : t !! p = Some b -> ancestor t p (nHeight b) = Some p.
Proof.
  intros Hp. unfold ancestor. rewrite Hp. destruct (wf p b Hp) as (_ & H0 & _).
  rewrite !(proj2 (Z.ltb_ge _ _)) by lia. cbn [orb]. by rewrite Z.sub_diag.
Qed.

Lemma ancestor_prev p b q : t !! p = Some b -> pprev b = Some q -> ancestor t p (nHeight b - 1) = Some q.
Proof.
  intros Hp Hq. unfold ancestor. rewrite Hp. destruct (wf p b Hp) as (Hprev & H0 & _). rewrite Hq in Hprev.
  destruct Hprev as (c & Hc & _ & Hh). destruct (wf q c Hc) as (_ & Hc0 & _).
  rewrite !(proj2 (Z.ltb_ge _ _)) by lia. cbn [orb]. replace (Z.to_nat (nHeight b - (nHeight b - 1))) with 1%nat by lia.
  cbn [walk]. rewrite Hp, Hq. done.
Qed.

Lemma GetAncestor_loop_spec fuel p b height :
  t !! p = Some b -> 0 <= height <= nHeight b -> nHeight b <= Z.of_nat fuel ->
  exists q, GetAncestor_loop fuel t p (nHeight b) height = Ok q /\ ancestor t p height = Some q.
Proof.
  revert p b; induction fuel as [|fuel IH]; intros p b Hp Hh Hf; cbn [GetAncestor_loop].
  { assert (height = nHeight b) as -> by lia. rewrite Z.leb_refl. exists p. split; [done|by apply ancestor_self]. }
  destruct (nHeight b <=? height) eqn:E; bprop.
  { assert (height = nHeight b) as -> by lia. exists p. split; [done|by apply ancestor_self]. }
  rewrite Hp. destruct (wf p b Hp) as (Hprev & H0 & Hskip).
  assert (Hgo : forall q c, t !! q = Some c -> ancestor t p (nHeight c) = Some q -> height <= nHeight c < nHeight b ->
    exists r, GetAncestor_loop fuel t q (nHeight c) height = Ok r /\ ancestor t p height = Some r).
  { intros q c Hc Ha Hr. destruct (IH q c Hc) as (r & -> & Hanc); [lia..|]. exists r. split; [done|].
    by rewrite <- (ancestor_trans p b (nHeight c) q height Hp Ha ltac:(lia)). }
  assert (Hstep : exists r, match pprev b with None => Abort | Some p' => GetAncestor_loop fuel t p' (nHeight b - 1) height end
      = Ok r /\ ancestor t p height = Some r).
  { pose proof (ancestor_prev p b) as Hap. destruct (pprev b) as [q|]; [|lia]. destruct Hprev as (c & Hc & _ & Hn).
    assert (nHeight b - 1 = nHeight c) as Heq by lia. rewrite Heq. apply Hgo; [done| |lia]. rewrite <- Heq. by apply Hap. }
  destruct (pskip b) as [s|]; [|done]. destruct (_ || _) eqn:Ef; [|done].
  pose proof (GetSkipHeight_bound (nHeight b) ltac:(lia)) as Hs.
  assert (height <= GetSkipHeight (nHeight b)) by (apply orb_true_iff in Ef as [?|[? _]%andb_true_iff]; bprop; lia).
  specialize (Hskip s eq_refl). destruct (ancestor_Some p b (GetSkipHeight (nHeight b)) Hp) as (q & c & Hq & Hc & Hhc & _); [lia|].
  rewrite Hskip in Hq. injection Hq as <-. rewrite <- Hhc. apply Hgo; [done|by rewrite Hhc|lia].
Qed.

Lemma GetAncestor_spec p b height : t !! p = Some b -> GetAncestor t p height = Ok (ancestor t p height).
Proof.
  intros Hp. unfold GetAncestor. rewrite Hp. destruct (_ || _) eqn:E.
  { unfold ancestor. by rewrite Hp, E. }
  apply orb_false_iff in E as [E1 E2]. bprop. destruct (wf p b Hp) as (_ & H0 & _).
  destruct (GetAncestor_loop_spec (Z.to_nat (nHeight b)) p b height Hp) as (q & -> & ->); [lia..|done].
Qed.

End wf.

(** ** The index stays well-formed *)

Lemma walk_app n t t' p : heap_wf t -> (p < length t)%nat -> walk n (t ++ t') p = walk n t p.
Proof.
  intros wf. revert p; induction n as [|n IH]; intros p Hp; [done|]. cbn [walk]. rewrite lookup_app_l by done.
  destruct (t !! p) as [b|] eqn:E; [|done]. destruct (wf p b E) as (Hprev & _). destruct (pprev b) as [q|]; [|done].
  cbn. apply IH. destruct Hprev as (_ & _ & Hlt & _). lia.
Qed.

Lemma ancestor_app t t' p height : heap_wf t -> (p < length t)%nat -> ancestor (t ++ t') p height = ancestor t p height.
Proof.
  intros wf Hp. unfold ancestor. rewrite lookup_app_l by done. destruct (t !! p); [|done]. by rewrite walk_app.
Qed.

Lemma heap_wf_snoc t b : heap_wf t -> entry_wf (t ++ [b]) (length t) b -> heap_wf (t ++ [b]).
Proof.
  intros wf Hb p b' Hp. destruct (decide (p < length t)%nat) as [Hlt|Hge].
  - rewrite lookup_app_l in Hp by done. destruct (wf p b' Hp) as (Hprev & H0 & Hs). split; [|split; [done|]].
    + destruct (pprev b') as [q|]; [|done]. destruct Hprev as (c & Hc & Hq & Hh). exists c.
      split; [by apply lookup_app_l_Some|done].
    + intros s Hsk. rewrite ancestor_app by done. by apply Hs.
  - assert (p = length t) as ->.
    { apply lookup_lt_Some in Hp. rewrite length_app in Hp. simpl in Hp. lia. }
    rewrite list_lookup_middle in Hp by done. by injection Hp as <-.
Qed.

Lemma find_block_Some t hash i p : find_block t hash i = Some p -> exists b, t !! (p - i)%nat = Some b /\ (i <= p)%nat.
Proof.
  revert i; induction t as [|b t IH]; intros i; cbn; [done|]. case_bool_decide.
  - intros [= <-]. exists b. by rewrite Nat.sub_diag.
  - intros (b' & Hb & Hle)%IH. exists b'. split; [|lia]. by replace (p - i)%nat with (S (p - S i)) by lia.
Qed.

(** ** Work *)

Lemma lval_zero_iff a : Forall limb_ok a -> lval a = 0 <-> Forall (fun x => x = 0) a.
Proof.
  induction 1 as [|x a Hx Ha IH]; [done|]. cbn [lval]. rewrite Forall_cons. unfold limb_ok, LIMB in *.
  assert (0 <= lval a) by (apply lval_bound, Ha). rewrite <- IH. lia.
Qed.

Lemma forallb_zero l : forallb (fun x => x =? 0) l = true <-> Forall (fun x => x = 0) l.
Proof.
  rewrite forallb_forall, Forall_forall. setoid_rewrite list_elem_of_In. setoid_rewrite Z.eqb_eq. done.
Qed.

Lemma EqualTo_zero a : uint_ok a -> EqualTo a 0 = (lval a =? 0).
Proof.
  intros [Hl Ha]. apply eq_true_iff_eq. rewrite Z.eqb_eq, lval_zero_iff by done. unfold EqualTo.
  destruct a as [|x [|y a]]; [done|done|]. change (vget (x :: y :: a) 1) with y. change (vget (x :: y :: a) 0) with x.
  change (drop 2 (x :: y :: a)) with (drop 0 a). rewrite drop_0, !andb_true_iff, !Z.eqb_eq, forallb_zero, !Forall_cons.
  change (Z.shiftr 0 32) with 0. change (Z.land 0 0xffffffff) with 0. tauto.
Qed.

(** No compact number is 2^256 - 1. *)
Lemma compact_val_not_max c : 0 <= c < 2 ^ 32 -> compact_val c <> MOD256 - 1.
Proof.
  intros Hc. unfold compact_val. pose proof (Z.mod_pos_bound c (2 ^ 23) ltac:(lia)) as Hm.
  assert (0 <= c / 2 ^ 24) by (apply Z.div_pos; lia). destruct (c / 2 ^ 24 <=? 3) eqn:E; bprop.
  - assert (c mod 2 ^ 23 / 256 ^ (3 - c / 2 ^ 24) <= c mod 2 ^ 23).
    { apply Z.div_le_upper_bound; [apply Z.pow_pos_nonneg; lia|].
      assert (1 <= 256 ^ (3 - c / 2 ^ 24)) by (apply (Z.pow_le_mono_r 256 0); lia). nia. }
    unfold MOD256. lia.
  - replace (c / 2 ^ 24 - 3) with (Z.succ (c / 2 ^ 24 - 4)) by lia. rewrite Z.pow_succ_r by lia.
    intros Heq. assert (Hmod : (MOD256 - 1) mod 256 = 0); [|done]. rewrite <- Heq.
    replace (c mod 2 ^ 23 * (256 * 256 ^ (c / 2 ^ 24 - 4))) with (c mod 2 ^ 23 * 256 ^ (c / 2 ^ 24 - 4) * 256) by ring.
    apply Z.mod_mul. lia.
Qed.

(** The work of a target. *)
Definition work_of (nBits : Z) : Z :=
  let '(_, fNegative, fOverflow) := SetCompact nBits in
  if fNegative || fOverflow || (compact_val nBits =? 0) then 0 else 2 ^ 256 / (compact_val nBits + 1).

Lemma GetBlockProof_val nBits :
  0 <= nBits < 2 ^ 32 -> exists w, GetBlockProof nBits = Ok w /\ uint_ok w /\ lval w = work_of nBits.
Proof.
  intros Hb. unfold GetBlockProof, work_of. pose proof (SetCompact_val nBits Hb) as Hs.
  destruct (SetCompact nBits) as [[r neg] ovf]. destruct Hs as (Hok & Hv & Hovf & _).
  destruct (of_u64_ok 0 ltac:(lia)) as [Hz Hzv]. destruct (of_u64_ok 1 ltac:(lia)) as [Ho Hov].
  destruct neg; cbn [orb]; [by exists (of_u64 0)|]. destruct ovf; cbn [orb]; [by exists (of_u64 0)|].
  assert (Hnn : 0 <= compact_val nBits).
  { unfold compact_val. pose proof (Z.mod_pos_bound nBits (2 ^ 23) ltac:(lia)).
    case_bool; [apply Z.div_pos; [lia|apply Z.pow_pos_nonneg; lia]|apply Z.mul_nonneg_nonneg; [lia|apply Z.pow_nonneg; lia]]. }
  symmetry in Hovf. apply Z.leb_gt in Hovf. rewrite Z.mod_small in Hv by lia. rewrite EqualTo_zero, Hv by done.
  destruct (Z.eqb_spec (compact_val nBits) 0); [by exists (of_u64 0)|]. pose proof (compact_val_not_max nBits Hb).
  destruct (uint_not_val r Hok) as [Hnok Hnv]. destruct (uint_add_spec r (of_u64 1) Hok Ho) as [Haok Hav].
  rewrite Hv, Hov, Z.mod_small in Hav by lia. pose proof (uint_div_val _ _ Hnok Haok) as Hd.
  rewrite Hav, (proj2 (Z.eqb_neq _ 0)) in Hd by lia. destruct Hd as (q & -> & Hq & Hqv). exists (uint_add q (of_u64 1)).
  destruct (uint_add_spec q (of_u64 1) Hq Ho) as [Hrok Hrv]. split; [done|]. split; [done|]. rewrite Hrv, Hov, Hqv, Hnv, Hv.
  set (x := compact_val nBits + 1). replace (MOD256 - 1 - compact_val nBits) with (MOD256 + (-1) * x) by (unfold x; lia).
  change (2 ^ 256) with MOD256. rewrite Z.div_add by (unfold x; lia).
  replace (MOD256 / x + -1 + 1) with (MOD256 / x) by lia. apply Z.mod_small.
  split; [apply Z.div_pos; unfold x, MOD256; lia|]. apply Z.div_lt_upper_bound; unfold x in *; unfold MOD256 in *; lia.
Qed.

Lemma find_block_snoc t b hash i : blockHash b <> hash -> find_block (t ++ [b]) hash i = find_block t hash i.
Proof.
  intros Hne. revert i; induction t as [|c t IH]; intros i; cbn; [by rewrite bool_decide_false|]. by case_bool_decide.
Qed.

(** A child of [q] at the end of the heap, with the skip pointer of [BuildSkip] or none. *)
Lemma entry_wf_child t q c new :
  heap_wf t -> t !! q = Some c -> pprev new = Some q -> nHeight new = nHeight c + 1 ->
  (forall s, pskip new = Some s -> ancestor t q (GetSkipHeight (nHeight new)) = Some s) -> entry_wf (t ++ [new]) (length t) new.
Proof.
  intros wf Hc Hp Hh Hs. destruct (wf q c Hc) as (_ & H0 & _). pose proof (lookup_lt_Some _ _ _ Hc) as Hlt.
  unfold entry_wf. rewrite Hp, Hh. split; [exists c; split; [by apply lookup_app_l_Some|done]|]. split; [lia|].
  intros s Hsk. apply Hs in Hsk. rewrite Hh in Hsk. pose proof (GetSkipHeight_bound (nHeight c + 1) ltac:(lia)).
  unfold ancestor. rewrite list_lookup_middle by done. rewrite Hh, !(proj2 (Z.ltb_ge _ _)) by lia. cbn [orb].
  replace (Z.to_nat (nHeight c + 1 - GetSkipHeight (nHeight c + 1))) with (S (Z.to_nat (nHeight c - GetSkipHeight (nHeight c + 1)))) by lia.
  cbn [walk]. rewrite list_lookup_middle, Hp by done. cbn. rewrite walk_app by done.
  unfold ancestor in Hsk. rewrite Hc in Hsk. by destruct (_ || _).
Qed.

Lemma link_prev_spec t hash block :
  heap_wf t -> hashPrevBlock block <> hash ->
  exists prev height skip,
    link_prev (t ++ [MkIndex hash None None 0 (of_u64 0) 0 0 0 block]) (length t) hash block = Ok (prev, height, skip) /\
    match prev with
    | None => height = 0 /\ skip = None
    | Some q => exists c, t !! q = Some c /\ height = nHeight c + 1 /\ skip = ancestor t q (GetSkipHeight height)
    end.
Proof.
  intros wf Hne. unfold link_prev. rewrite find_block_snoc by done. destruct (find_block t (hashPrevBlock block) 0) as [q|] eqn:Eq.
  2: { by eexists _, _, _. }
  apply find_block_Some in Eq as (c & Hc & _). rewrite Nat.sub_0_r in Hc. rewrite (lookup_app_l_Some _ _ _ _ Hc).
  rewrite insert_app_r_alt, Nat.sub_diag by lia. cbn [insert list_insert]. set (new := MkIndex _ _ _ _ _ _ _ _ _).
  assert (wf' : heap_wf (t ++ [new])) by (apply heap_wf_snoc; [done|]; by eapply entry_wf_child).
  unfold BuildSkip. rewrite (GetAncestor_spec _ wf' q c) by by apply lookup_app_l_Some. cbn [mbind res_bind].
  rewrite ancestor_app by (done || by eapply lookup_lt_Some). exists (Some q), (nHeight c + 1), (ancestor t q (GetSkipHeight (nHeight c + 1))).
  split; [done|]. by exists c.
Qed.

(** ** Adding headers *)

(** What the new entry has from its predecessor. *)
Record extends (t : heap) (block : CBlockHeader) (status : Z) (new : CBlockIndex) : Prop := {
  ext_wf : entry_wf (t ++ [new]) (length t) new;
  ext_header : nBits (index_header new) = nBits block;
  ext_work : exists proof, GetBlockProof (nBits block) = Ok proof /\
    nChainWork new = uint_add (match pprev new ≫= fun q => t !! q with Some c => nChainWork c | None => of_u64 0 end) proof;
  ext_status : nStatus new = if flag status BLOCK_VALID_MASK then status else Z.lor BLOCK_VALID_TREE status
}.

(** The two ways the node calls [AddToBlockIndex], for a header with a hash that is not its own field. *)
Definition addable {crypto : CryptoOps} (block : CBlockHeader) (status : Z) : Prop :=
  (status = BLOCK_VALID_TREE \/ status = BLOCK_CONFLICT_CHAINLOCK) /\
  hashPrevBlock block <> header_GetHash block /\ 0 <= nBits block < 2 ^ 32.

Lemma AddToBlockIndex_spec {crypto : CryptoOps} m block status :
  heap_wf (m_block_index m) -> addable block status ->
  exists m' p, AddToBlockIndex m block status = Ok (m', p) /\
    (m' = m /\ find_block (m_block_index m) (header_GetHash block) 0 = Some p \/
     exists new, m_block_index m' = m_block_index m ++ [new] /\ p = length (m_block_index m) /\
       extends (m_block_index m) block status new /\
       pindexBestHeader m' = if flag status BLOCK_VALID_MASK
         then best_header (m_block_index m ++ [MkIndex (header_GetHash block) None None 0 (of_u64 0) 0 0 0 block]) (pindexBestHeader m) p (nChainWork new)
         else pindexBestHeader m).
Proof.
  intros wf (Hst & Hne & Hbits). unfold AddToBlockIndex. set (t := m_block_index m) in *. set (hash := header_GetHash block) in *.
  assert (flag status BLOCK_FAILED_MASK = false) as -> by by destruct Hst as [-> | ->].
  destruct (find_block t hash 0) as [p|] eqn:Ef; [exists m, p; by split; [|left]|].
  destruct (link_prev_spec t hash block wf Hne) as (prev & height & skip & -> & Hprev). cbn [mbind res_bind].
  destruct (GetBlockProof_val (nBits block) Hbits) as (proof & Hproof & _). rewrite Hproof. cbn [mbind res_bind].
  assert (Hst' : (if flag status BLOCK_VALID_MASK then '(s, _) ← RaiseValidity 0 status; Ok s
      else '(s, _) ← RaiseValidity 0 BLOCK_VALID_TREE; Ok (Z.lor s status)) =
    Ok (E := unit) (if flag status BLOCK_VALID_MASK then status else Z.lor BLOCK_VALID_TREE status)) by by destruct Hst as [-> | ->].
  rewrite Hst'. cbn [mbind res_bind]. eexists _, _. split; [done|]. right. eexists. cbn [m_block_index pindexBestHeader].
  split; [done|]. split; [done|]. split; [|done]. constructor; cbn [index_header nChainWork nStatus pprev].
  - destruct prev as [q|]; [destruct Hprev as (c & Hc & -> & ->)|by destruct Hprev as [-> ->]]. by eapply entry_wf_child.
  - by destruct (flag (nFlags block) _).
  - exists proof. split; [done|]. destruct prev as [q|]; [destruct Hprev as (c & Hc & _)|done].
    cbn [mbind option_bind]. by rewrite (lookup_app_l_Some _ _ _ _ Hc), Hc.
  - done.
Qed.

(** The indexes the node can have: built by adding headers. *)
Inductive Managed {crypto : CryptoOps} : BlockManager -> Prop :=
  | Managed_nil : Managed (MkManager [] None ∅ [])
  | Managed_add m block status m' p :
      Managed m -> addable block status -> AddToBlockIndex m block status = Ok (m', p) -> Managed m'.

Definition Built {crypto : CryptoOps} (t : heap) : Prop := exists m, Managed m /\ m_block_index m = t.

(** Induction on the entries that are really added. *)
Lemma Managed_inv {crypto : CryptoOps} (P : BlockManager -> Prop) :
  P (MkManager [] None ∅ []) ->
  (forall m block status m' new, heap_wf (m_block_index m) -> P m -> addable block status ->
     m_block_index m' = m_block_index m ++ [new] -> extends (m_block_index m) block status new ->
     pindexBestHeader m' = (if flag status BLOCK_VALID_MASK
         then best_header (m_block_index m ++ [MkIndex (header_GetHash block) None None 0 (of_u64 0) 0 0 0 block])
                (pindexBestHeader m) (length (m_block_index m)) (nChainWork new)
         else pindexBestHeader m) -> P m') ->
  forall m, Managed m -> heap_wf (m_block_index m) /\ P m.
Proof.
  intros H0 Hadd m. induction 1 as [|m block status m' p _ [wf HP] Ha He]; [done|].
  destruct (AddToBlockIndex_spec m block status wf Ha) as (m'' & p'' & He' & Hcase). rewrite He in He'. injection He' as <- <-.
  destruct Hcase as [[-> _]|(new & Ht & -> & Hext & Hbest)]; [done|]. split; [|by eapply Hadd].
  rewrite Ht. apply heap_wf_snoc; [done|]. by destruct Hext.
Qed.

Lemma Built_wf {crypto : CryptoOps} t : Built t -> heap_wf t.
Proof. intros (m & Hm & <-). by apply (Managed_inv (fun _ => True)). Qed.

(** C26: in every index built by adding headers, in whatever order and with whatever forks, the skip list
    finds the ancestor that following the predecessors one by one finds, and it never dereferences a
    null pointer; the ancestor exists and has the height asked for exactly when the height is between 0
    and that of the block. *)
Theorem GetAncestor_is_ancestor {crypto : CryptoOps} t p b height :
  Built t -> t !! p = Some b ->
  GetAncestor t p height = Ok (ancestor t p height) /\
  ((exists q c, ancestor t p height = Some q /\ t !! q = Some c /\ nHeight c = height) <-> 0 <= height <= nHeight b).
Proof.
  intros wf%Built_wf Hp. split; [by eapply GetAncestor_spec|]. split.
  - intros (q & c & Ha & _). unfold ancestor in Ha. rewrite Hp in Ha.
    destruct (_ || _) eqn:E; [done|]. apply orb_false_iff in E as [? ?]. bprop. lia.
  - intros Hh. destruct (ancestor_Some t wf p b height Hp Hh) as (q & c & ? & ? & ? & _). eauto.
Qed.


(** ** Common ancestors *)

(** The highest block that is an ancestor of both, or none if they have no common ancestor. *)
Definition is_last_common (t : heap) (a b : ptr) (r : option ptr) : Prop :=
  match r with
  | Some q => exists c, t !! q = Some c /\ ancestor t a (nHeight c) = Some q /\ ancestor t b (nHeight c) = Some q /\
      forall h, nHeight c < h -> ancestor t a h = ancestor t b h -> ancestor t a h = None
  | None => forall h, ancestor t a h = ancestor t b h -> ancestor t a h = None
  end.

Section common.
Context (t : heap) (wf : heap_wf t).

Lemma ancestor_above p b h : t !! p = Some b -> nHeight b < h -> ancestor t p h = None.
Proof. intros Hp Hh. unfold ancestor. by rewrite Hp, (proj2 (Z.ltb_lt _ _)) by lia. Qed.

Lemma ancestor_negative p h : h < 0 -> ancestor t p h = None.
Proof. intros Hh. unfold ancestor. destruct (t !! p); [|done]. by rewrite (proj2 (Z.ltb_lt h 0)), orb_true_r by lia. Qed.

Lemma ancestor_pprev p b q h :
  t !! p = Some b -> pprev b = Some q -> h < nHeight b -> ancestor t p h = ancestor t q h.
Proof.
  intros Hp Hq Hh. symmetry. eapply (ancestor_trans t wf); [done|by eapply ancestor_prev|lia].
Qed.

Lemma is_last_common_unique a b r r' : is_last_common t a b r -> is_last_common t a b r' -> r = r'.
Proof.
  destruct r as [q|], r' as [q'|]; [| | |done].
  - intros (c & Hc & Ha & Hb & Hm) (c' & Hc' & Ha' & Hb' & Hm').
    destruct (Z.lt_trichotomy (nHeight c) (nHeight c')) as [Hlt|[Heq|Hlt]].
    + specialize (Hm _ Hlt). rewrite Ha', Hb' in Hm. by specialize (Hm eq_refl).
    + congruence.
    + specialize (Hm' _ Hlt). rewrite Ha, Hb in Hm'. by specialize (Hm' eq_refl).
  - intros (c & Hc & Ha & Hb & _) Hn. specialize (Hn (nHeight c)). rewrite Ha, Hb in Hn. by specialize (Hn eq_refl).
  - intros Hn (c & Hc & Ha & Hb & _). specialize (Hn (nHeight c)). rewrite Ha, Hb in Hn. by specialize (Hn eq_refl).
Qed.

Lemma is_last_common_sym a b r : is_last_common t a b r -> is_last_common t b a r.
Proof.
  destruct r as [q|]; cbn.
  - intros (c & Hc & Ha & Hb & Hm). exists c. repeat split; [done..|]. intros h Hh Heq. rewrite Heq. by apply Hm.
  - intros Hm h Heq. rewrite Heq. by apply Hm.
Qed.

(** Going down to the height of the other block loses no common ancestor. *)
Lemma is_last_common_ancestor a ia b ib a' r :
  t !! a = Some ia -> t !! b = Some ib -> nHeight ib <= nHeight ia -> ancestor t a (nHeight ib) = Some a' ->
  is_last_common t a' b r -> is_last_common t a b r.
Proof.
  intros Ha Hb Hle Haa Hr.
  assert (Heq : forall h, h <= nHeight ib -> ancestor t a' h = ancestor t a h) by (intros; by apply (ancestor_trans t wf a ia (nHeight ib))).
  assert (Hup : forall h, nHeight ib < h -> ancestor t a h = ancestor t b h -> ancestor t a h = None).
  { intros h Hh E. rewrite E. by apply (ancestor_above b ib). }
  destruct r as [q|]; cbn in *.
  - destruct Hr as (c & Hc & Hqa & Hqb & Hm). assert (nHeight c <= nHeight ib).
    { destruct (Z.le_gt_cases (nHeight c) (nHeight ib)); [done|]. rewrite (ancestor_above b ib) in Hqb by done. done. }
    exists c. rewrite <- Heq by done. repeat split; [done..|]. intros h Hh E.
    destruct (Z.le_gt_cases h (nHeight ib)); [|by apply Hup]. rewrite <- Heq in * by done. by apply Hm.
  - intros h E. destruct (Z.le_gt_cases h (nHeight ib)); [|by apply Hup]. rewrite <- Heq in * by done. by apply Hr.
Qed.

Lemma LastCommonAncestor_loop_spec fuel a ia b ib :
  t !! a = Some ia -> t !! b = Some ib -> nHeight ia = nHeight ib -> nHeight ia < Z.of_nat fuel ->
  exists r, LastCommonAncestor_loop fuel t (Some a) (Some b) = Ok r /\ is_last_common t a b r.
Proof.
  revert a ia b ib; induction fuel as [|fuel IH]; intros a ia b ib Ha Hb Hh Hf.
  { destruct (wf a ia Ha) as (_ & ? & _). lia. }
  cbn [LastCommonAncestor_loop]. destruct (Nat.eqb_spec a b) as [->|Hne].
  { exists (Some b). split; [done|]. exists ib. rewrite (ancestor_self t wf b ib) by done. repeat split; [done..|].
    intros h Hlt _. by apply (ancestor_above b ib). }
  rewrite Ha, Hb. destruct (wf a ia Ha) as (Hpa & H0 & _), (wf b ib Hb) as (Hpb & _ & _).
  assert (Htop : forall h, nHeight ia <= h -> ancestor t a h = ancestor t b h -> ancestor t a h = None).
  { intros h Hle E. destruct (Z.eq_dec h (nHeight ia)) as [->|]; [|by apply (ancestor_above a ia); [|lia]].
    rewrite Hh in E at 2. rewrite (ancestor_self t wf a ia), (ancestor_self t wf b ib) in E by done. congruence. }
  destruct (pprev ia) as [qa|] eqn:Eqa, (pprev ib) as [qb|] eqn:Eqb.
  - destruct Hpa as (ca & Hca & _ & Hha), Hpb as (cb & Hcb & _ & Hhb).
    destruct (IH qa ca qb cb Hca Hcb) as (r & -> & Hr); [lia..|]. exists r. split; [done|].
    assert (HA : forall h, h < nHeight ia -> ancestor t a h = ancestor t qa h) by (intros; by apply (ancestor_pprev a ia)).
    assert (HB : forall h, h < nHeight ia -> ancestor t b h = ancestor t qb h) by (intros; apply (ancestor_pprev b ib); [done..|lia]).
    destruct r as [q|]; cbn in *.
    + destruct Hr as (c & Hc & Hqa & Hqb & Hm). assert (nHeight c < nHeight ia).
      { destruct (Z.lt_ge_cases (nHeight c) (nHeight ia)); [done|]. rewrite (ancestor_above qa ca) in Hqa by (done || lia). done. }
      exists c. rewrite HA, HB by done. repeat split; [done..|]. intros h Hlt E.
      destruct (Z.lt_ge_cases h (nHeight ia)); [|by apply Htop]. rewrite HA, HB in * by done. by apply Hm.
    + intros h E. destruct (Z.lt_ge_cases h (nHeight ia)); [|by apply Htop]. rewrite HA, HB in * by done. by apply Hr.
  - destruct Hpa as (ca & Hca & _ & Hha). destruct (wf qa ca Hca) as (_ & ? & _). lia.
  - destruct Hpb as (cb & Hcb & _ & Hhb). destruct (wf qb cb Hcb) as (_ & ? & _). lia.
  - exists None. split; [by destruct fuel|]. intros h E. destruct (Z.lt_ge_cases h 0); [by apply ancestor_negative|].
    apply Htop; [lia|done].
Qed.

Lemma LastCommonAncestor_spec a ia b ib :
  t !! a = Some ia -> t !! b = Some ib ->
  exists r, LastCommonAncestor t a b = Ok r /\ is_last_common t a b r.
Proof.
  intros Ha Hb. unfold LastCommonAncestor. rewrite Ha, Hb. destruct (wf a ia Ha) as (_ & ? & _), (wf b ib Hb) as (_ & ? & _).
  destruct (nHeight ib <? nHeight ia) eqn:E; bprop; cbn [negb andb].
  - rewrite (GetAncestor_spec t wf a ia) by done.
    destruct (ancestor_Some t wf a ia (nHeight ib) Ha) as (a' & ia' & Haa & Hia' & Hh & _); [lia|]. rewrite Haa. cbn [mbind res_bind].
    destruct (LastCommonAncestor_loop_spec (S (Z.to_nat (Z.min (nHeight ia) (nHeight ib)))) a' ia' b ib) as (r & -> & Hr); [done..|lia|].
    exists r. split; [done|]. eapply is_last_common_ancestor; [done..|lia|done|done].
  - cbn [mbind res_bind]. destruct (nHeight ia <? nHeight ib) eqn:E2; bprop.
    + rewrite (GetAncestor_spec t wf b ib) by done.
      destruct (ancestor_Some t wf b ib (nHeight ia) Hb) as (b' & ib' & Hbb & Hib' & Hh & _); [lia|]. rewrite Hbb. cbn [mbind res_bind].
      destruct (LastCommonAncestor_loop_spec (S (Z.to_nat (Z.min (nHeight ia) (nHeight ib)))) a ia b' ib') as (r & -> & Hr); [done..|lia|].
      exists r. split; [done|]. apply is_last_common_sym.
      eapply is_last_common_ancestor; [done..|lia|done|by apply is_last_common_sym].
    + cbn [mbind res_bind].
      destruct (LastCommonAncestor_loop_spec (S (Z.to_nat (Z.min (nHeight ia) (nHeight ib)))) a ia b ib) as (r & -> & Hr); [done|done|lia|lia|].
      by exists r.
Qed.

End common.

(** ** The active chain *)

(** The vector holds the ancestors of the tip [p], one for each height. *)
Definition chain_of (t : heap) (c : CChain) (p : ptr) : Prop :=
  exists b, t !! p = Some b /\ zlen c = nHeight b + 1 /\ forall i, 0 <= i <= nHeight b -> chain_at c i = ancestor t p i.

Lemma chain_at_insert c k x i :
  (k < length c)%nat -> chain_at (<[k := Some x]> c) i = if decide (i = Z.of_nat k) then Some x else chain_at c i.
Proof.
  intros Hk. unfold chain_at, zlen. rewrite length_insert. destruct (_ || _) eqn:E.
  - rewrite decide_False; [done|]. intros ->. apply orb_true_iff in E as [E|E]; bprop; lia.
  - apply orb_false_iff in E as [E1 E2]. bprop. case_decide as Hi.
    + subst. by rewrite Nat2Z.id, list_lookup_insert_eq.
    + by rewrite list_lookup_insert_ne by lia.
Qed.

Section chain.
Context (t : heap) (wf : heap_wf t).

(** Every block of the vector up to height [n] sits on its own ancestors. *)
Definition consistent (c : CChain) (n : Z) : Prop :=
  forall i y, 0 <= i <= n -> chain_at c i = Some y -> forall j, 0 <= j <= i -> chain_at c j = ancestor t y j.

Lemma SetTip_loop_spec fuel c p b x bx :
  t !! p = Some b -> t !! x = Some bx -> zlen c = nHeight b + 1 -> nHeight bx <= nHeight b ->
  ancestor t p (nHeight bx) = Some x -> nHeight bx < Z.of_nat fuel ->
  (forall i, nHeight bx < i <= nHeight b -> chain_at c i = ancestor t p i) -> consistent c (nHeight bx) ->
  exists c', SetTip_loop fuel t c (Some x) = Ok c' /\ chain_of t c' p.
Proof.
  intros Hp. revert c x bx; induction fuel as [|fuel IH]; intros c x bx Hx Hlen Hle Hanc Hf Habove Hcons;
    destruct (wf x bx Hx) as (Hprev & H0 & _); [lia|]. cbn [SetTip_loop]. rewrite Hx.
  rewrite (proj2 (Z.ltb_ge (nHeight bx) 0)), (proj2 (Z.leb_gt (zlen c) (nHeight bx))) by lia. cbn [orb].
  case_bool_decide as Hc.
  { exists c. split; [done|]. exists b. repeat split; [done..|]. intros i Hi.
    destruct (Z.le_gt_cases i (nHeight bx)); [|apply Habove; lia].
    rewrite (Hcons (nHeight bx) x) by (done || lia). by apply (ancestor_trans t wf p b (nHeight bx)). }
  set (c1 := <[Z.to_nat (nHeight bx) := Some x]> c).
  assert (Hat : forall i, chain_at c1 i = if decide (i = nHeight bx) then Some x else chain_at c i).
  { intros i. unfold c1. rewrite chain_at_insert by (unfold zlen in Hlen; lia). by rewrite Z2Nat.id by lia. }
  assert (Hlen1 : zlen c1 = nHeight b + 1) by (unfold c1, zlen; rewrite length_insert; done).
  assert (Habove1 : forall i, nHeight bx <= i <= nHeight b -> chain_at c1 i = ancestor t p i).
  { intros i Hi. rewrite Hat. case_decide; [by subst|apply Habove; lia]. }
  destruct (pprev bx) as [q|] eqn:Eq.
  - destruct Hprev as (bq & Hq & _ & Hh). apply (IH c1 q bq); [done|done|lia| |lia| |].
    + rewrite <- (ancestor_trans t wf p b (nHeight bx) x (nHeight bq)) by (done || lia).
      replace (nHeight bq) with (nHeight bx - 1) by lia. by apply (ancestor_prev t wf).
    + intros i Hi. apply Habove1. lia.
    + intros i y Hi Hy j Hj. rewrite Hat, decide_False in Hy by lia. rewrite Hat, decide_False by lia.
      apply (Hcons i y); [lia|done|lia].
  - exists c1. split; [by destruct fuel|]. exists b. repeat split; [done..|]. intros i Hi. apply Habove1. lia.
Qed.

Lemma chain_at_resize c n i :
  0 <= i < n -> chain_at (resize (Z.to_nat n) None c) i = if i <? zlen c then chain_at c i else None.
Proof.
  intros Hi. unfold chain_at, zlen. rewrite length_resize, Z2Nat.id by lia.
  rewrite (proj2 (Z.ltb_ge i 0)), (proj2 (Z.leb_gt n i)) by lia. cbn [orb]. destruct (i <? Z.of_nat (length c)) eqn:E; bprop.
  - rewrite (proj2 (Z.leb_gt _ _)), lookup_resize by lia. done.
  - by rewrite lookup_resize_new by lia.
Qed.

Lemma SetTip_spec c p b :
  t !! p = Some b -> c = [] \/ (exists p0, chain_of t c p0) ->
  exists c', SetTip t c (Some p) = Ok c' /\ chain_of t c' p.
Proof.
  intros Hp Hc. destruct (wf p b Hp) as (_ & H0 & _). unfold SetTip. rewrite Hp.
  assert (Hold : consistent c (zlen c - 1)).
  { intros i y Hi Hy j Hj. destruct Hc as [->|(p0 & b0 & Hp0 & Hlen & Hat)]; [unfold zlen in Hi; simpl in Hi; lia|].
    rewrite Hat in Hy |- * by lia. symmetry. by apply (ancestor_trans t wf p0 b0 i); [..|lia]. }
  apply (SetTip_loop_spec _ _ p b p b); [done|done| |lia|by apply ancestor_self|lia|lia|].
  - unfold zlen. rewrite length_resize. lia.
  - intros i y Hi Hy j Hj. rewrite chain_at_resize in Hy by lia. destruct (i <? zlen c) eqn:E; [|done]. bprop.
    rewrite chain_at_resize, (proj2 (Z.ltb_lt j _)) by lia. apply (Hold i y); [lia|done|lia].
Qed.

Lemma Contains_spec c tip bt q bq :
  chain_of t c tip -> t !! tip = Some bt -> t !! q = Some bq -> nHeight bq <= nHeight bt ->
  Contains t c q = bool_decide (ancestor t tip (nHeight bq) = Some q).
Proof.
  intros (bt' & Htip & Hlen & Hat) Ht Hq Hle. rewrite Htip in Ht. injection Ht as ->. destruct (wf q bq Hq) as (_ & ? & _).
  unfold Contains. rewrite Hq, Hat by lia. done.
Qed.

(** One block further down, when the block itself is not common. *)
Lemma is_last_common_pprev a ia q b r :
  t !! a = Some ia -> pprev ia = Some q -> ancestor t b (nHeight ia) <> Some a ->
  is_last_common t q b r -> is_last_common t a b r.
Proof.
  intros Ha Hq Hne Hr. destruct (wf a ia Ha) as (Hprev & H0 & _). rewrite Hq in Hprev. destruct Hprev as (c & Hc & _ & Hh).
  assert (HA : forall h, h < nHeight ia -> ancestor t a h = ancestor t q h) by (intros; by apply (ancestor_pprev t wf a ia)).
  assert (Htop : forall h, nHeight ia <= h -> ancestor t a h = ancestor t b h -> ancestor t a h = None).
  { intros h Hle E. destruct (Z.eq_dec h (nHeight ia)) as [->|]; [|by apply (ancestor_above t a ia); [|lia]].
    rewrite (ancestor_self t wf a ia) in E by done. congruence. }
  destruct r as [x|]; cbn in *.
  - destruct Hr as (cx & Hx & Hxa & Hxb & Hm). assert (nHeight cx < nHeight ia).
    { destruct (Z.lt_ge_cases (nHeight cx) (nHeight ia)); [done|]. rewrite (ancestor_above t q c) in Hxa by (done || lia). done. }
    exists cx. rewrite HA by done. repeat split; [done..|]. intros h Hlt E.
    destruct (Z.lt_ge_cases h (nHeight ia)); [|by apply Htop]. rewrite HA in * by done. by apply Hm.
  - intros h E. destruct (Z.lt_ge_cases h (nHeight ia)); [|by apply Htop]. rewrite HA in * by done. by apply Hr.
Qed.

Lemma FindFork_loop_spec fuel c tip bt q bq :
  chain_of t c tip -> t !! tip = Some bt -> t !! q = Some bq -> nHeight bq <= nHeight bt -> nHeight bq < Z.of_nat fuel ->
  exists r, FindFork_loop fuel t c (Some q) = Ok r /\ is_last_common t q tip r.
Proof.
  intros Hc Ht. revert q bq; induction fuel as [|fuel IH]; intros q bq Hq Hle Hf; destruct (wf q bq Hq) as (Hprev & H0 & _); [lia|].
  cbn [FindFork_loop]. rewrite (Contains_spec c tip bt q bq) by done. case_bool_decide as Hin.
  { exists (Some q). split; [done|]. exists bq. rewrite (ancestor_self t wf q bq) by done. repeat split; [done..|].
    intros h Hlt _. by apply (ancestor_above t q bq). }
  rewrite Hq. destruct (pprev bq) as [q'|] eqn:Eq.
  - destruct Hprev as (bq' & Hq' & _ & Hh). destruct (IH q' bq' Hq') as (r & -> & Hr); [lia..|]. exists r. split; [done|].
    by eapply is_last_common_pprev.
  - exists None. split; [by destruct fuel|]. intros h E. destruct (Z.lt_trichotomy h 0) as [?|[->|?]];
      [by apply ancestor_negative| |by apply (ancestor_above t q bq); [|lia]].
    rewrite <- Hprev in *. rewrite (ancestor_self t wf q bq) in E by done. congruence.
Qed.

Lemma FindFork_spec c tip p b :
  chain_of t c tip -> t !! p = Some b -> exists r, FindFork t c (Some p) = Ok r /\ is_last_common t p tip r.
Proof.
  intros Hc Hp. pose proof Hc as (bt & Ht & Hlen & _). destruct (wf p b Hp) as (_ & ? & _), (wf tip bt Ht) as (_ & ? & _).
  unfold FindFork, Height. rewrite Hp. replace (zlen c - 1) with (nHeight bt) by lia. destruct (nHeight bt <? nHeight b) eqn:E; bprop.
  - rewrite (GetAncestor_spec t wf p b) by done.
    destruct (ancestor_Some t wf p b (nHeight bt) Hp) as (q & bq & Hq & Hbq & Hh & _); [lia|]. rewrite Hq. cbn [mbind res_bind].
    destruct (FindFork_loop_spec (S (Z.to_nat (nHeight b))) c tip bt q bq) as (r & -> & Hr); [done..|lia|lia|].
    exists r. split; [done|]. eapply (is_last_common_ancestor t wf); [done|done|lia|done|done].
  - cbn [mbind res_bind]. destruct (FindFork_loop_spec (S (Z.to_nat (nHeight b))) c tip bt p b) as (r & -> & Hr); [done..|lia|].
    by exists r.
Qed.

End chain.

(** C27: the active chain follows its tip across any reorganisation: [SetTip], which stops at the first
    block that is already in place, leaves exactly the ancestors of the new tip; and the fork point that
    [FindFork] then reports for any block is the last common ancestor of the block and the tip, the same
    that [LastCommonAncestor] computes, the highest block that both descend from. *)
Theorem active_chain_fork_point {crypto : CryptoOps} t c tip tip' bt p b :
  Built t -> c = [] \/ chain_of t c tip -> t !! tip' = Some bt -> t !! p = Some b ->
  exists c' r, SetTip t c (Some tip') = Ok c' /\ chain_of t c' tip' /\
    FindFork t c' (Some p) = Ok r /\ LastCommonAncestor t p tip' = Ok r /\ is_last_common t p tip' r.
Proof.
  intros wf%Built_wf Hc Ht Hp. destruct (SetTip_spec t wf c tip' bt Ht) as (c' & Hset & Hc').
  { destruct Hc as [?|?]; [by left|right; eauto]. }
  destruct (FindFork_spec t wf c' tip' p b Hc' Hp) as (r & Hf & Hr).
  destruct (LastCommonAncestor_spec t wf p b tip' bt Hp Ht) as (r' & Hl & Hr').
  rewrite (is_last_common_unique t p tip' r' r Hr' Hr) in Hl. eauto 8.
Qed.

(** The work of a block is exactly 2^256 divided by the target plus one, although 2^256 does not fit
    in the type; it is zero for the negative, overflowing and zero targets, and the division never
    throws. *)
Theorem GetBlockProof_exact nBits :
  0 <= nBits < 2 ^ 32 -> exists w, GetBlockProof nBits = Ok w /\ uint_ok w /\ lval w = work_of nBits.
Proof. apply GetBlockProof_val. Qed.

Lemma GetBlockProof_exact_witness :
  exists w, GetBlockProof 0x1d00ffff = Ok w /\ uint_ok w /\ lval w = work_of 0x1d00ffff.
Proof. apply GetBlockProof_exact. lia. Defined.

(** A genesis block with two successors. *)
(** ** Accumulated work and the best header *)

(** The work of the block [k] steps before [p]. *)
Definition work_at (t : heap) (p : ptr) (k : nat) : Z :=
  match walk k t p ≫= fun q => t !! q with Some c => work_of (nBits (index_header c)) | None => 0 end.

(** The work of a block and all its ancestors. *)
Definition branch_work (t : heap) (p : ptr) : Z :=
  match t !! p with
  | Some b => foldr Z.add 0 (work_at t p <$> seq 0 (S (Z.to_nat (nHeight b))))
  | None => 0
  end.

Lemma walk_lt n t p q : heap_wf t -> (p < length t)%nat -> walk n t p = Some q -> (q < length t)%nat.
Proof.
  intros wf. revert p; induction n as [|n IH]; intros p Hp; cbn [walk]; [by intros [= <-]|].
  destruct (t !! p) as [b|] eqn:E; [|done]. destruct (pprev b) as [r|] eqn:Er; cbn; [|done]. apply IH.
  destruct (wf p b E) as (H & _). rewrite Er in H. destruct H as (c & Hc & _). by eapply lookup_lt_Some.
Qed.

Lemma work_at_app t t' p k : heap_wf t -> (p < length t)%nat -> work_at (t ++ t') p k = work_at t p k.
Proof.
  intros wf Hp. unfold work_at. rewrite walk_app by done. destruct (walk k t p) as [q|] eqn:E; cbn; [|done].
  by rewrite lookup_app_l by by eapply walk_lt.
Qed.

Lemma branch_work_app t t' p b : heap_wf t -> t !! p = Some b -> branch_work (t ++ t') p = branch_work t p.
Proof.
  intros wf Hp. pose proof (lookup_lt_Some _ _ _ Hp) as Hlt. unfold branch_work. rewrite (lookup_app_l_Some _ _ _ _ Hp), Hp. f_equal.
  apply list_fmap_ext. intros i k _. by apply work_at_app.
Qed.

Lemma branch_work_step t p b :
  heap_wf t -> t !! p = Some b ->
  branch_work t p = work_of (nBits (index_header b)) + match pprev b with Some q => branch_work t q | None => 0 end.
Proof.
  intros wf Hp. unfold branch_work at 1. rewrite Hp. cbn [seq]. rewrite fmap_cons. cbn [foldr].
  assert (work_at t p 0 = work_of (nBits (index_header b))) as -> by (unfold work_at; cbn; by rewrite Hp). f_equal.
  destruct (wf p b Hp) as (H & _). destruct (pprev b) as [q|] eqn:Eq; [|by rewrite H].
  destruct H as (c & Hc & _ & Hh). destruct (wf q c Hc) as (_ & H0 & _). unfold branch_work. rewrite Hc, <- (fmap_S_seq 0), <- list_fmap_compose.
  replace (Z.to_nat (nHeight b)) with (S (Z.to_nat (nHeight c))) by lia. f_equal. apply list_fmap_ext. intros i k _.
  unfold work_at. cbn [compose walk]. by rewrite Hp, Eq.
Qed.

Definition work_ok (t : heap) : Prop :=
  forall p b, t !! p = Some b -> uint_ok (nChainWork b) /\ lval (nChainWork b) = branch_work t p mod 2 ^ 256.

Lemma work_ok_snoc t block status new :
  heap_wf t -> work_ok t -> 0 <= nBits block < 2 ^ 32 -> extends t block status new -> work_ok (t ++ [new]).
Proof.
  intros wf Hw Hb [Hwf Hhdr (proof & Hproof & Hwork) _] p b Hp. assert (wf' : heap_wf (t ++ [new])) by by apply heap_wf_snoc.
  apply lookup_snoc_Some in Hp as [[Hlt Hp]|[-> <-]].
  { rewrite (branch_work_app t [new] p b) by done. by apply Hw. }
  destruct (GetBlockProof_val (nBits block) Hb) as (w & Hw' & Hok & Hval). rewrite Hproof in Hw'. injection Hw' as ->.
  rewrite (branch_work_step _ _ new wf') by by apply list_lookup_middle. rewrite Hhdr, <- Hval, Hwork.
  assert (Hbase : forall base x, uint_ok base -> lval base = x mod 2 ^ 256 ->
    uint_ok (uint_add base w) /\ lval (uint_add base w) = (lval w + x) mod 2 ^ 256).
  { intros base x Hbok Hx. destruct (uint_add_spec base w Hbok Hok) as [Ho Hv]. split; [done|].
    rewrite Hv, Hx. change MOD256 with (2 ^ 256). rewrite Z.add_mod_idemp_l by done. f_equal. lia. }
  destruct Hwf as (Hprev & _). destruct (pprev new) as [q|]; cbn [mbind option_bind].
  - destruct Hprev as (c & Hc & Hlt & _). rewrite lookup_app_l in Hc by done. rewrite Hc. destruct (Hw q c Hc) as [Hcok Hcv].
    rewrite (branch_work_app t [new] q c) by done. by apply Hbase.
  - destruct (of_u64_ok 0 ltac:(lia)) as [Hz Hzv]. apply Hbase; [done|]. by rewrite Hzv.
Qed.

Definition conflicting (b : CBlockIndex) : bool := flag (nStatus b) BLOCK_CONFLICT_CHAINLOCK.

(** The best header is an entry that is not in conflict, with the most work of those. *)
Definition best_ok (t : heap) (best : option ptr) : Prop :=
  (forall q, best = Some q -> exists c, t !! q = Some c /\ conflicting c = false) /\
  forall p b, t !! p = Some b -> conflicting b = false ->
    exists q c, best = Some q /\ t !! q = Some c /\ lval (nChainWork b) <= lval (nChainWork c).

Lemma uint_ltb_spec a b : uint_ok a -> uint_ok b -> uint_ltb a b = (lval a <? lval b).
Proof.
  intros Ha Hb. unfold uint_ltb. rewrite uint_compare by done. unfold sign_of, Z.ltb. by destruct (lval a ?= lval b).
Qed.

Lemma best_ok_conflict t best new : best_ok t best -> conflicting new = true -> best_ok (t ++ [new]) best.
Proof.
  intros [H1 H2] Hn. split.
  - intros q (c & Hc & ?)%H1. exists c. split; [by apply lookup_app_l_Some|done].
  - intros p b [[_ Hp]|[_ <-]]%lookup_snoc_Some Hb; [|congruence].
    destruct (H2 p b Hp Hb) as (q & c & ? & Hc & ?). exists q, c. split; [done|]. split; [by apply lookup_app_l_Some|done].
Qed.

Lemma best_ok_snoc t t0 best new :
  best_ok t best -> work_ok (t ++ [new]) -> conflicting new = false ->
  best_ok (t ++ [new]) (best_header (t ++ t0) best (length t) (nChainWork new)).
Proof.
  intros [H1 H2] Hw Hn. assert (Hnew : (t ++ [new]) !! length t = Some new) by by apply list_lookup_middle.
  assert (Hold : forall q c, t !! q = Some c -> (t ++ [new]) !! q = Some c) by (intros; by apply lookup_app_l_Some).
  unfold best_header. destruct best as [q|]; cbn [mbind option_bind].
  - destruct (H1 q eq_refl) as (c & Hc & Hcc). rewrite (lookup_app_l_Some _ _ _ _ Hc).
    rewrite uint_ltb_spec by (eapply Hw; eauto). destruct (Z.ltb_spec (lval (nChainWork c)) (lval (nChainWork new))) as [Hlt|Hge].
    + split; [intros ? [= <-]; eauto|]. intros p b [[_ Hp]|[_ <-]]%lookup_snoc_Some Hb; [|by eauto 8 using Z.le_refl].
      destruct (H2 p b Hp Hb) as (? & c' & [= <-] & Hc' & ?). rewrite Hc in Hc'. injection Hc' as <-.
      exists (length t), new. split; [done|]. split; [done|]. lia.
    + split; [intros ? [= <-]; eauto|]. intros p b [[_ Hp]|[_ <-]]%lookup_snoc_Some Hb; [|by eauto 8].
      destruct (H2 p b Hp Hb) as (? & c' & [= <-] & Hc' & ?). eauto 8.
  - split; [intros ? [= <-]; eauto|]. intros p b [[_ Hp]|[_ <-]]%lookup_snoc_Some Hb; [|by eauto 8 using Z.le_refl].
    by destruct (H2 p b Hp Hb) as (? & ? & ? & _).
Qed.

(** C33: in every index built by adding headers the chain work of an entry is the sum of the work of the
    block and of all its ancestors, modulo 2^256, and [pindexBestHeader] is a header that does not
    conflict with a chain lock and has at least the work of every other such header. *)
Theorem best_header_has_most_work {crypto : CryptoOps} m p b :
  Managed m -> m_block_index m !! p = Some b ->
  lval (nChainWork b) = branch_work (m_block_index m) p mod 2 ^ 256 /\
  (conflicting b = false -> exists q c, pindexBestHeader m = Some q /\ m_block_index m !! q = Some c /\
     conflicting c = false /\ lval (nChainWork b) <= lval (nChainWork c)).
Proof.
  intros Hm Hp. apply (Managed_inv (fun m => work_ok (m_block_index m) /\ best_ok (m_block_index m) (pindexBestHeader m))) in Hm
    as (_ & Hw & H1 & H2).
  - split; [by apply Hw|]. intros Hb. destruct (H2 p b Hp Hb) as (q & c & Hq & Hc & Hle).
    destruct (H1 q Hq) as (c' & Hc' & ?). rewrite Hc in Hc'. injection Hc' as <-. eauto 6.
  - split; [done|]. by split.
  - intros m0 block status m1 new wf [Hw0 Hb0] (Hst & _ & Hbits) Ht Hext Hbest.
    assert (Hw1 : work_ok (m_block_index m1)) by (rewrite Ht; by eapply work_ok_snoc). split; [done|]. rewrite Hbest, Ht in *.
    pose proof (ext_status _ _ _ _ Hext) as Hs. destruct Hst as [-> | ->]; cbn in Hs; cbn [flag].
    + apply best_ok_snoc; [done|done|]. unfold conflicting. by rewrite Hs.
    + apply best_ok_conflict; [done|]. unfold conflicting. by rewrite Hs.
Qed.


Definition genesis : CBlockHeader := MkHeader 1 null_hash null_hash 100 0x1d00ffff 0 null_hash 0 [] 0.
Definition child (n : Z) : CBlockHeader :=
  MkHeader 1 (header_GetHash (crypto := sum_crypto) genesis) null_hash (100 + n) 0x1d00ffff n null_hash 0 [] 0.
Definition grow (m : BlockManager) (h : CBlockHeader) : BlockManager :=
  match AddToBlockIndex (crypto := sum_crypto) m h BLOCK_VALID_TREE with Ok (m, _) => m | _ => m end.
Definition forked_manager : BlockManager := foldl grow (MkManager [] None ∅ []) [genesis; child 1; child 2].
Definition forked : heap := m_block_index forked_manager.

Lemma Managed_grow m h :
  Managed (crypto := sum_crypto) m -> bool_decide (hashPrevBlock h = header_GetHash (crypto := sum_crypto) h) = false ->
  0 <= nBits h < 2 ^ 32 -> Managed (crypto := sum_crypto) (grow m h).
Proof.
  intros Hm Hne%bool_decide_eq_false Hb. unfold grow.
  destruct (AddToBlockIndex m h BLOCK_VALID_TREE) as [[m' p]| |] eqn:E; [|done..].
  eapply Managed_add; [done| |exact E]. split; [by left|done].
Qed.

Lemma forked_managed : Managed (crypto := sum_crypto) forked_manager.
Proof. repeat (apply Managed_grow; [|vm_compute; reflexivity|vm_compute; split; [discriminate|reflexivity]]). constructor. Qed.

Lemma forked_built : Built (crypto := sum_crypto) forked.
Proof. exists forked_manager. by split; [apply forked_managed|]. Qed.

Lemma GetAncestor_is_ancestor_witness :
  exists b, forked !! 2%nat = Some b /\ GetAncestor forked 2 0 = Ok (ancestor forked 2 0) /\
    ((exists q c, ancestor forked 2 0 = Some q /\ forked !! q = Some c /\ nHeight c = 0) <-> 0 <= 0 <= nHeight b).
Proof.
  destruct (forked !! 2%nat) as [b|] eqn:E; [|vm_compute in E; discriminate]. exists b. split; [reflexivity|].
  apply (GetAncestor_is_ancestor forked 2 b 0 forked_built E).
Defined.

Lemma active_chain_fork_point_witness :
  exists c' r, SetTip forked [] (Some 2%nat) = Ok c' /\ chain_of forked c' 2 /\
    FindFork forked c' (Some 1%nat) = Ok r /\ LastCommonAncestor forked 1 2 = Ok r /\ is_last_common forked 1 2 r.
Proof.
  destruct (forked !! 2%nat) as [b|] eqn:E; [|vm_compute in E; discriminate].
  destruct (forked !! 1%nat) as [b1|] eqn:E1; [|vm_compute in E1; discriminate].
  apply (active_chain_fork_point forked [] 0 2 b 1 b1 forked_built); [by left|exact E|exact E1].
Defined.

Lemma best_header_has_most_work_witness :
  exists b, forked !! 1%nat = Some b /\ lval (nChainWork b) = branch_work forked 1 mod 2 ^ 256 /\
    (conflicting b = false -> exists q c, pindexBestHeader forked_manager = Some q /\ forked !! q = Some c /\
       conflicting c = false /\ lval (nChainWork b) <= lval (nChainWork c)).
Proof.
  destruct (forked !! 1%nat) as [b|] eqn:E; [|vm_compute in E; discriminate]. exists b. split; [reflexivity|].
  apply (best_header_has_most_work forked_manager 1 b forked_managed E).
Defined.
