(* ===== verification/Subsidy.v ===== *)
(** * Block rewards

    Model of GetBlockSubsidy and GetMasternodePayment (src/src/validation.cpp).  The coins created by the
    subsidies of any number of blocks stay within MAX_MONEY, and the masternode's share of a block is at
    most three fifths and, once the reallocation has started, never decreases with the height. *)

From S2P Require Import Prelude Serialize Transaction.

(** The members of Consensus::Params that are read. *)
Record SubsidyParams : Type := MkSubsidyParams {
  nRewForkDecreaseV18 : Z;
  nRestoreRewardV18 : Z;
  nSuperblockCycle : Z
}.

(** [nPrevBits] and [fSuperblockPartOnly] are not used. *)
Definition GetBlockSubsidy (nPrevHeight : Z) (consensusParams : SubsidyParams) : Z :=
  let nSubsidyBase := 50 * COIN in
  let halvings := Z.shiftr nPrevHeight 20 in
  if 34 <=? halvings then 0 else
  let nSubsidyBase := Z.shiftr nSubsidyBase halvings in
  if (nPrevHeight <=? nRestoreRewardV18 consensusParams) && (nRewForkDecreaseV18 consensusParams <? nPrevHeight)
  then 150 else nSubsidyBase.

Definition vecPeriods : list Z :=
  [10; 50; 100; 150; 200; 250; 300; 350; 400; 450; 500; 513; 526; 533; 540; 546; 552; 557; 562; 567; 572;
   577; 582; 585; 588; 591; 594; 597; 599; 600].

Definition realloc_start (nReallocActivationHeight nSuperblockCycle : Z) : Z :=
  nReallocActivationHeight - Z.rem nReallocActivationHeight nSuperblockCycle + nSuperblockCycle.

Definition GetMasternodePayment (nHeight blockValue nReallocActivationHeight : Z) (params : SubsidyParams) : Z :=
  let ret := if nHeight <? 917000 then Z.quot (s64 (blockValue * 3)) 5 else Z.quot blockValue 1000 in
  if nHeight <? nReallocActivationHeight then ret else
  let nReallocStart := realloc_start nReallocActivationHeight (nSuperblockCycle params) in
  if nHeight <? nReallocStart then ret else
  let nReallocCycle := nSuperblockCycle params * 3 in
  let nCurrentPeriod := Z.min (Z.quot (nHeight - nReallocStart) nReallocCycle) (zlen vecPeriods - 1) in
  Z.quot (s64 (blockValue * nth (Z.to_nat nCurrentPeriod) vecPeriods 0)) 1000.

(** ** The supply *)

(** The subsidies of the first [n] blocks after the genesis block: the block at height h + 1 is paid by its
    previous height h. *)
Fixpoint total_subsidy (n : nat) (params : SubsidyParams) : Z :=
  match n with O => 0 | S n => total_subsidy n params + GetBlockSubsidy (Z.of_nat n) params end.

(** The subsidy of an epoch of 2^20 blocks, ignoring the period of reduced rewards. *)
Definition epoch_subsidy (q : Z) : Z := if 34 <=? q then 0 else Z.shiftr (50 * COIN) q.

Fixpoint epochs_total (n : nat) : Z :=
  match n with O => 0 | S n => epochs_total n + epoch_subsidy (Z.of_nat n) end.

Definition EPOCH : Z := 2 ^ 20.

Lemma epoch_subsidy_nonneg q : 0 <= q -> 0 <= epoch_subsidy q.
Proof. intros Hq. unfold epoch_subsidy. case_bool; [done|]. by apply Z.shiftr_nonneg. Qed.

(** The period of reduced rewards lies where the regular subsidy is larger. *)
Definition reduced_early (params : SubsidyParams) : Prop := nRestoreRewardV18 params < 25 * EPOCH.

Lemma GetBlockSubsidy_bound h params :
  0 <= h -> reduced_early params -> 0 <= GetBlockSubsidy h params <= epoch_subsidy (h / EPOCH).
Proof.
  intros Hh Hr. unfold GetBlockSubsidy, epoch_subsidy, reduced_early, EPOCH in *.
  rewrite Z.shiftr_div_pow2 by lia. set (q := h / 2 ^ 20).
  assert (Hq : 0 <= q) by (apply Z.div_pos; lia).
  destruct (Z.leb_spec 34 q); [done|]. assert (Hs : 0 <= Z.shiftr (50 * COIN) q) by by apply Z.shiftr_nonneg.
  case_bool; [|lia]. bprop. split; [lia|].
  assert (Hq24 : q <= 24) by (apply Z.lt_succ_r, Z.div_lt_upper_bound; lia).
  rewrite Z.shiftr_div_pow2 by lia. transitivity (50 * COIN / 2 ^ 24); [vm_compute; discriminate|].
  apply Z.div_le_compat_l; [vm_compute; discriminate|]. split; [apply Z.pow_pos_nonneg; lia|].
  apply Z.pow_le_mono_r; lia.
Qed.

(** Epoch by epoch. *)
Lemma total_subsidy_epochs n params :
  reduced_early params ->
  total_subsidy n params <=
  EPOCH * epochs_total (Z.to_nat (Z.of_nat n / EPOCH)) + (Z.of_nat n mod EPOCH) * epoch_subsidy (Z.of_nat n / EPOCH).
Proof.
  intros Hr. induction n as [|n IH]; [done|]. cbn [total_subsidy].
  pose proof (GetBlockSubsidy_bound (Z.of_nat n) params ltac:(lia) Hr) as Hb.
  set (N := Z.of_nat n) in *. assert (HN : 0 <= N) by lia. replace (Z.of_nat (S n)) with (N + 1) by lia.
  assert (HE : 0 < EPOCH) by done. pose proof (Z.div_mod N EPOCH ltac:(lia)) as He.
  pose proof (Z.mod_pos_bound N EPOCH HE) as Hm. set (q := N / EPOCH) in *. set (r := N mod EPOCH) in *.
  assert (Hq : 0 <= q) by (apply Z.div_pos; lia).
  destruct (Z.eq_dec (r + 1) EPOCH) as [Hend|Hend].
  - assert ((N + 1) / EPOCH = q + 1) as -> by (symmetry; apply (Z.div_unique_pos _ _ _ 0); lia).
    assert ((N + 1) mod EPOCH = 0) as -> by (symmetry; apply (Z.mod_unique_pos _ _ (q + 1)); lia).
    replace (Z.to_nat (q + 1)) with (S (Z.to_nat q)) by lia. cbn [epochs_total]. rewrite Z2Nat.id by lia. nia.
  - assert ((N + 1) / EPOCH = q) as -> by (symmetry; apply (Z.div_unique_pos _ _ _ (r + 1)); lia).
    assert ((N + 1) mod EPOCH = r + 1) as -> by (symmetry; apply (Z.mod_unique_pos _ _ q); lia). lia.
Qed.

Lemma epochs_total_S n : epochs_total (S n) = epochs_total n + epoch_subsidy (Z.of_nat n).
Proof. done. Qed.

Lemma epochs_total_mono m n : (m <= n)%nat -> epochs_total m <= epochs_total n.
Proof.
  induction 1 as [|n _ IH]; [done|]. cbn [epochs_total]. pose proof (epoch_subsidy_nonneg (Z.of_nat n) ltac:(lia)). lia.
Qed.

Lemma epochs_total_bound n : epochs_total n <= epochs_total 34.
Proof.
  destruct (Nat.le_gt_cases n 34) as [H|H]; [by apply epochs_total_mono|].
  assert (Hlate : forall k, (34 <= k)%nat -> epochs_total (S k) = epochs_total k).
  { intros k Hk. rewrite epochs_total_S. unfold epoch_subsidy. rewrite (proj2 (Z.leb_le 34 (Z.of_nat k))) by lia. lia. }
  induction H as [|n H IH]; rewrite Hlate by lia; lia.
Qed.

Lemma epochs_supply : EPOCH * epochs_total 34 <= MAX_MONEY.
Proof. vm_compute. discriminate. Qed.

(** C15: the coins created by the subsidies of any number of blocks never exceed MAX_MONEY, so the total
    supply always is an amount the node accepts; the reduced rewards of the fork do not change this. *)
Theorem supply_within_MAX_MONEY n params :
  reduced_early params -> MoneyRange (total_subsidy n params) = true.
Proof.
  intros Hr. assert (H0 : 0 <= total_subsidy n params).
  { clear - Hr. induction n as [|n IH]; [done|]. cbn [total_subsidy].
    pose proof (GetBlockSubsidy_bound (Z.of_nat n) params ltac:(lia) Hr). lia. }
  pose proof (total_subsidy_epochs n params Hr) as Ht. set (q := Z.of_nat n / EPOCH) in *.
  assert (Hq : 0 <= q) by (apply Z.div_pos; [lia|done]).
  pose proof (Z.mod_pos_bound (Z.of_nat n) EPOCH ltac:(done)) as Hm. pose proof (epoch_subsidy_nonneg q Hq) as He.
  pose proof (epochs_total_bound (S (Z.to_nat q))) as Hb. rewrite epochs_total_S, Z2Nat.id in Hb by lia.
  pose proof epochs_supply. unfold MoneyRange. apply andb_true_iff. split; [lia|]. apply Z.leb_le.
  assert (0 < EPOCH) by done.
  pose proof (Z.mul_le_mono_nonneg_r (Z.of_nat n mod EPOCH) EPOCH _ He ltac:(lia)).
  pose proof (Z.mul_le_mono_nonneg_l _ _ EPOCH ltac:(lia) Hb). lia.
Qed.

(** The parameters of the main network; the subsidies of the two blocks around the first halving. *)
Definition main_subsidy : SubsidyParams := MkSubsidyParams 1265000 1268999 16616.

Lemma supply_within_MAX_MONEY_witness :
  MoneyRange (total_subsidy 100 main_subsidy) = true /\ total_subsidy 100 main_subsidy = 5000 * COIN /\
  GetBlockSubsidy 1048575 main_subsidy = 50 * COIN /\ GetBlockSubsidy 1048576 main_subsidy = 25 * COIN /\
  GetBlockSubsidy 1266000 main_subsidy = 150.
Proof.
  split; [|vm_compute; done]. apply (supply_within_MAX_MONEY 100 main_subsidy). unfold reduced_early. vm_compute. reflexivity.
Defined.

(** ** The masternode's share *)

Lemma vecPeriods_bound i : 0 <= nth i vecPeriods 0 <= 600.
Proof. do 30 (destruct i as [|i]; [vm_compute; split; discriminate|]). destruct i; vm_compute; split; discriminate. Qed.

Lemma vecPeriods_mono i j : (i <= j <= 29)%nat -> nth i vecPeriods 0 <= nth j vecPeriods 0.
Proof.
  intros Hij. assert (H : forallb (fun j => forallb (fun i => nth i vecPeriods 0 <=? nth j vecPeriods 0) (seq 0 (S j))) (seq 0 30) = true)
    by (vm_compute; reflexivity).
  rewrite forallb_forall in H. specialize (H j). rewrite in_seq in H. specialize (H ltac:(lia)).
  rewrite forallb_forall in H. specialize (H i). rewrite in_seq in H. apply Z.leb_le, H. lia.
Qed.

Lemma s64_money v k : 0 <= v <= MAX_MONEY -> 0 <= k <= 600 -> s64 (v * k) = v * k.
Proof.
  intros Hv Hk. unfold s64, swrap, MAX_MONEY, COIN in *. rewrite Z.mod_small by nia.
  by rewrite (proj2 (Z.ltb_lt _ _)) by nia.
Qed.

(** The share of a block from the reallocation on. *)
Lemma payment_realloc nHeight v a params :
  0 <= v <= MAX_MONEY -> a <= nHeight -> realloc_start a (nSuperblockCycle params) <= nHeight ->
  GetMasternodePayment nHeight v a params =
  v * nth (Z.to_nat (Z.min (Z.quot (nHeight - realloc_start a (nSuperblockCycle params)) (nSuperblockCycle params * 3)) 29))
        vecPeriods 0 / 1000.
Proof.
  intros Hv Ha Hs. unfold GetMasternodePayment. rewrite !(proj2 (Z.ltb_ge _ _)) by lia.
  change (zlen vecPeriods - 1) with 29. rewrite s64_money by (done || apply vecPeriods_bound).
  apply Z.quot_div_nonneg; [|lia]. pose proof (vecPeriods_bound (Z.to_nat (Z.min ((nHeight - realloc_start a (nSuperblockCycle params)) ÷ (nSuperblockCycle params * 3)) 29))).
  nia.
Qed.

(** The payment of a masternode lies between zero and three fifths of the value. *)
Lemma GetMasternodePayment_range nHeight v a params :
  0 <= v <= MAX_MONEY -> 0 <= GetMasternodePayment nHeight v a params <= v * 3 / 5.
Proof.
  intros Hv.
  assert (Hret : 0 <= (if nHeight <? 917000 then Z.quot (s64 (v * 3)) 5 else Z.quot v 1000) <= v * 3 / 5).
  { rewrite s64_money by lia. rewrite !Z.quot_div_nonneg by lia. case_bool.
    - split; [apply Z.div_pos; lia|lia].
    - split; [apply Z.div_pos; lia|]. Z.to_euclidean_division_equations; lia. }
  destruct (Z.ltb_spec nHeight a) as [H1|H1]; [unfold GetMasternodePayment; by rewrite (proj2 (Z.ltb_lt _ _) H1)|].
  destruct (Z.ltb_spec nHeight (realloc_start a (nSuperblockCycle params))) as [H2|H2].
  { unfold GetMasternodePayment. rewrite (proj2 (Z.ltb_ge _ _) H1). by rewrite (proj2 (Z.ltb_lt _ _) H2). }
  rewrite payment_realloc by done. match goal with |- context [nth ?i vecPeriods 0] => pose proof (vecPeriods_bound i) as Hp end.
  split; [apply Z.div_pos; nia|]. transitivity (v * 600 / 1000); [apply Z.div_le_mono; nia|].
  Z.to_euclidean_division_equations; lia.
Qed.

(** For every block value in the money range the masternode's payment lies between
    zero and three fifths of the value, and from the start of the reallocation on never decreases with
    the height. *)
Theorem GetMasternodePayment_bounds nHeight v a params :
  0 <= v <= MAX_MONEY -> 0 < nSuperblockCycle params ->
  0 <= GetMasternodePayment nHeight v a params <= v * 3 / 5 /\
  (forall later, a <= nHeight -> realloc_start a (nSuperblockCycle params) <= nHeight -> nHeight <= later ->
     GetMasternodePayment nHeight v a params <= GetMasternodePayment later v a params).
Proof.
  intros Hv Hc. split.
  - by apply GetMasternodePayment_range.
  - intros later Ha Hs Hl. rewrite !payment_realloc by (done || lia). apply Z.div_le_mono; [lia|].
    apply Z.mul_le_mono_nonneg_l; [lia|]. apply vecPeriods_mono.
    assert (Hq : forall h, realloc_start a (nSuperblockCycle params) <= h ->
      0 <= Z.quot (h - realloc_start a (nSuperblockCycle params)) (nSuperblockCycle params * 3)) by (intros; apply Z.quot_pos; lia).
    pose proof (Hq nHeight Hs). pose proof (Hq later ltac:(lia)).
    pose proof (Z.quot_le_mono (nHeight - realloc_start a (nSuperblockCycle params)) (later - realloc_start a (nSuperblockCycle params)) (nSuperblockCycle params * 3) ltac:(lia) ltac:(lia)).
    lia.
Qed.

Lemma GetMasternodePayment_bounds_witness :
  (0 <= GetMasternodePayment 2000000 (25 * COIN) 1500000 main_subsidy <= 25 * COIN * 3 / 5 /\
   GetMasternodePayment 2000000 (25 * COIN) 1500000 main_subsidy <= GetMasternodePayment 3500000 (25 * COIN) 1500000 main_subsidy) /\
  GetMasternodePayment 2000000 (25 * COIN) 1500000 main_subsidy = 1125000000 /\
  GetMasternodePayment 3500000 (25 * COIN) 1500000 main_subsidy = 1500000000.
Proof.
  split; [|vm_compute; done].
  destruct (GetMasternodePayment_bounds 2000000 (25 * COIN) 1500000 main_subsidy) as [H1 H2].
  - vm_compute. split; discriminate.
  - reflexivity.
  - split; [exact H1|]. apply H2; vm_compute; discriminate.
Defined.
