(* ===== verification/Pow.v ===== *)
(** * Proof-of-work targets

    Model of src/src/pow.cpp: the retargeting rules GetNextTargetRequired (proof of stake),
    KimotoGravityWell, DarkGravityWave, CalculateNextWorkRequired and GetNextWorkRequiredBTC, the choice
    between them in GetNextWorkRequired, and CheckProofOfWork.  [bnNew *= n] with a signed 64-bit [n]
    selects the overload for [uint32_t], so the factor is written [u32 n].  KimotoGravityWell computes
    with [double]: its operations are those of IEEE 754 binary64 (SpecFloat), and the library function
    [pow], whose rounding the C standard leaves open, is a parameter. *)

From Stdlib Require Import Floats.SpecFloat.
From S2P Require Import Prelude Script Crypto Serialize ArithUint256 ArithCompact Block Chain ChainSpec.

(** The members of Consensus::Params these rules read; the limits are byte strings. *)
Record PowParams : Type := MkPowParams {
  powLimit : list Z;
  posLimit : list Z;
  nPosTargetSpacingV1 : Z;
  nPosTargetSpacingV2 : Z;
  nSpecTargetFix : Z;
  fPowAllowMinDifficultyBlocks : bool;
  fPowNoRetargeting : bool;
  nPowTargetSpacing : Z;
  nPowTargetTimespan : Z;
  nMinimumDifficultyBlocks : Z;
  nPowKGWHeight : Z;
  nPowDGWHeight : Z
}.

Definition nTargetTimespan : Z := 10 * 60.

Definition DifficultyAdjustmentInterval (params : PowParams) : Z :=
  Z.quot (nPowTargetTimespan params) (nPowTargetSpacing params).

Definition deref (t : heap) (p : ptr) : res unit CBlockIndex :=
  match t !! p with Some b => Ok b | None => Abort end.

(** Division throws on zero. *)
Definition uint_div_assign (a b : list Z) : res unit (list Z) :=
  match uint_div a b with Some q => Ok q | None => Err tt end.

(** [bnNew.SetCompact(nBits)], without looking at the flags. *)
Definition SetCompact_ (nBits : Z) : list Z := fst (fst (SetCompact nBits)).

Definition clamp_limit (bnNew limit : list Z) : list Z := if uint_gtb bnNew limit then limit else bnNew.

Definition GetNextTargetRequired (t : heap) (pindexLast : option ptr) (fProofOfStake : bool) (params : PowParams)
  : res unit Z :=
  match pindexLast with
  | None => GetCompact (UintToArith256 (powLimit params)) false
  | Some pLast =>
      let bnTargetLimit := UintToArith256 (if fProofOfStake then posLimit params else powLimit params) in
      last ← deref t pLast;
      pPrev ← GetLastBlockIndex_loop (S pLast) t pLast fProofOfStake;
      prev ← deref t pPrev;
      match pprev prev with
      | None => GetCompact bnTargetLimit false
      | Some q =>
          pPrevPrev ← GetLastBlockIndex_loop (S q) t q fProofOfStake;
          prevprev ← deref t pPrevPrev;
          match pprev prevprev with
          | None => GetCompact bnTargetLimit false
          | Some _ =>
              let nActualSpacing := GetBlockTime prev - GetBlockTime prevprev in
              let nActualSpacing :=
                if (nHeight last <? nSpecTargetFix params) && (nActualSpacing <? 0) then nPosTargetSpacingV1 params
                else nActualSpacing in
              let bnNew := SetCompact_ (nBits (index_header prev)) in
              let spacing :=
                if nSpecTargetFix params <? nHeight last then nPosTargetSpacingV2 params
                else nPosTargetSpacingV1 params in
              let nInterval := Z.quot nTargetTimespan spacing in
              let bnNew := uint_mul32 bnNew (u32 ((nInterval - 1) * spacing + nActualSpacing + nActualSpacing)) in
              bnNew ← uint_div_assign bnNew (of_u64 (u64 ((nInterval + 1) * spacing)));
              let bnNew := if uint_leb bnNew (of_u64 0) || uint_gtb bnNew bnTargetLimit then bnTargetLimit else bnNew in
              GetCompact bnNew false
          end
      end
  end.

(** ** Kimoto gravity well *)

Section kimoto.

Context (pow : spec_float -> spec_float -> spec_float).

(** [double(n)] *)
Definition double (n : Z) : spec_float := binary_normalize 53 1024 n 0 false.

(** The conversion of a positive finite [double] to an integer. *)
Definition double_trunc (f : spec_float) : Z :=
  match f with
  | S754_finite s m e => (if s then -1 else 1) * Z.shiftl (Zpos m) e
  | _ => 0
  end.

(** The literals 0.025, 0.7084, 28.2 and -1.228. *)
Definition lit_0_025 : spec_float := S754_finite false 7205759403792794 (-58).
Definition lit_0_7084 : spec_float := S754_finite false 6380699952058519 (-53).
Definition lit_28_2 : spec_float := S754_finite false 7937594343240499 (-48).
Definition lit_m1_228 : spec_float := S754_finite true 5530420342410969 (-52).

(** [1 + (0.7084 * pow((double(PastBlocksMass)/double(28.2)), -1.228))] *)
Definition EventHorizonDeviation (PastBlocksMass : Z) : spec_float :=
  SFadd 53 1024 (double 1)
    (SFmul 53 1024 lit_0_7084 (pow (SFdiv 53 1024 (double PastBlocksMass) lit_28_2) lit_m1_228)).

(** The state of the loop that is read after it. *)
Record KGW : Type := MkKGW {
  PastDifficultyAverage : list Z;
  PastRateActualSeconds : Z;
  PastRateTargetSeconds : Z
}.

Definition kgw_average (i : Z) (bnTarget bnPrev : list Z) : res unit (list Z) :=
  if 1 <? i then
    if uint_geb bnTarget bnPrev
    then q ← uint_div_assign (uint_sub bnTarget bnPrev) (of_u64 i); Ok (uint_add q bnPrev)
    else q ← uint_div_assign (uint_sub bnPrev bnTarget) (of_u64 i); Ok (uint_sub bnPrev q)
  else Ok bnTarget.

Definition AdjustmentRatio (PastRateTargetSeconds PastRateActualSeconds : Z) : spec_float :=
  if negb (PastRateActualSeconds =? 0) && negb (PastRateTargetSeconds =? 0)
  then SFdiv 53 1024 (double PastRateTargetSeconds) (double PastRateActualSeconds) else double 1.

(** Iteration [i] of the loop at the block [BlockReading]; [PastBlocksMass] is [i - 1] before it. *)
Fixpoint KimotoGravityWell_loop (fuel : nat) (i PastBlocksMin PastBlocksMax : Z) (t : heap) (last : CBlockIndex)
    (BlockReading : ptr) (st : KGW) (params : PowParams) : res unit KGW :=
  b ← deref t BlockReading;
  if negb (0 <? nHeight b) then Ok st else
  if (0 <? PastBlocksMax) && (PastBlocksMax <? i) then Ok st else
  avg ← kgw_average i (SetCompact_ (nBits (index_header b))) (PastDifficultyAverage st);
  let actual := GetBlockTime last - GetBlockTime b in
  let target := s64 (nPowTargetSpacing params * i) in
  let actual := if actual <? 0 then 0 else actual in
  let st := MkKGW avg actual target in
  let ratio := AdjustmentRatio target actual in
  let fast := EventHorizonDeviation i in
  let slow := SFdiv 53 1024 (double 1) fast in
  if (PastBlocksMin <=? i) && (SFleb ratio slow || SFleb fast ratio) then Ok st else
  match pprev b, fuel with
  | None, _ => Ok st
  | Some _, O => Abort
  | Some p, S fuel => KimotoGravityWell_loop fuel (i + 1) PastBlocksMin PastBlocksMax t last p st params
  end.

Definition KimotoGravityWell (t : heap) (pindexLast : option ptr) (params : PowParams) : res unit Z :=
  let bnPowLimit := UintToArith256 (powLimit params) in
  let pastSecondsMin := double_trunc (SFmul 53 1024 (double (nPowTargetTimespan params)) lit_0_025) in
  let pastSecondsMax := u64 (nPowTargetTimespan params * 7) in
  let PastBlocksMin := pastSecondsMin / u64 (nPowTargetSpacing params) in
  let PastBlocksMax := pastSecondsMax / u64 (nPowTargetSpacing params) in
  match pindexLast with
  | None => GetCompact bnPowLimit false
  | Some p =>
      last ← deref t p;
      if (nHeight last =? 0) || (u64 (nHeight last) <? PastBlocksMin) then GetCompact bnPowLimit false else
      st ← KimotoGravityWell_loop (S p) 1 PastBlocksMin PastBlocksMax t last p (MkKGW uint_zero 0 0) params;
      bnNew ← (if negb (PastRateActualSeconds st =? 0) && negb (PastRateTargetSeconds st =? 0)
               then uint_div_assign (uint_mul32 (PastDifficultyAverage st) (u32 (PastRateActualSeconds st)))
                      (of_u64 (u64 (PastRateTargetSeconds st)))
               else Ok (PastDifficultyAverage st));
      GetCompact (clamp_limit bnNew bnPowLimit) false
  end.

End kimoto.

(** ** Dark gravity wave and the rule of Bitcoin *)

(** The loop of DarkGravityWave: [k] iterations are left, [nCountBlocks] is the current one. *)
Definition nPastBlocks : Z := 24.

Fixpoint DarkGravityWave_loop (k : nat) (nCountBlocks : Z) (t : heap) (pindex : ptr) (bnPastTargetAvg : list Z)
  : res unit (list Z * ptr) :=
  match k with
  | O => Ok (bnPastTargetAvg, pindex)
  | S k =>
      b ← deref t pindex;
      let bnTarget := SetCompact_ (nBits (index_header b)) in
      avg ← (if nCountBlocks =? 1 then Ok bnTarget
             else uint_div_assign (uint_add (uint_mul32 bnPastTargetAvg nCountBlocks) bnTarget)
                    (of_u64 (nCountBlocks + 1)));
      pindex ← (if nCountBlocks =? nPastBlocks then Ok pindex
                else match pprev b with Some p => Ok p | None => Abort end);
      DarkGravityWave_loop k (nCountBlocks + 1) t pindex avg
  end.

Definition DarkGravityWave (t : heap) (pindexLast : option ptr) (params : PowParams) : res unit Z :=
  let bnPowLimit := UintToArith256 (powLimit params) in
  let nTargetTimespan := nPastBlocks * nPowTargetSpacing params in
  match pindexLast with
  | None => GetCompact bnPowLimit false
  | Some p =>
      last ← deref t p;
      if nHeight last <? nPastBlocks then GetCompact bnPowLimit false else
      '(bnNew, pindex) ← DarkGravityWave_loop (Z.to_nat nPastBlocks) 1 t p uint_zero;
      first ← deref t pindex;
      let nActualTimespan := GetBlockTime last - GetBlockTime first in
      let nActualTimespan :=
        if nActualTimespan <? Z.quot nTargetTimespan 3 then Z.quot nTargetTimespan 3 else nActualTimespan in
      let nActualTimespan :=
        if nTargetTimespan * 3 <? nActualTimespan then nTargetTimespan * 3 else nActualTimespan in
      let bnNew := uint_mul32 bnNew (u32 nActualTimespan) in
      bnNew ← uint_div_assign bnNew (of_u64 (u64 nTargetTimespan));
      GetCompact (clamp_limit bnNew bnPowLimit) false
  end.

Definition CalculateNextWorkRequired (last : CBlockIndex) (nFirstBlockTime : Z) (params : PowParams) : res unit Z :=
  if fPowNoRetargeting params then Ok (nBits (index_header last)) else
  let T := nPowTargetTimespan params in
  let nActualTimespan := GetBlockTime last - nFirstBlockTime in
  let nActualTimespan := if nActualTimespan <? Z.quot T 4 then Z.quot T 4 else nActualTimespan in
  let nActualTimespan := if T * 4 <? nActualTimespan then T * 4 else nActualTimespan in
  let bnPowLimit := UintToArith256 (powLimit params) in
  let bnNew := SetCompact_ (nBits (index_header last)) in
  let bnNew := uint_mul32 bnNew (u32 nActualTimespan) in
  bnNew ← uint_div_assign bnNew (of_u64 (u64 T));
  GetCompact (clamp_limit bnNew bnPowLimit) false.

(** The last block that was not mined under the special rule. *)
Fixpoint last_regular_block (fuel : nat) (t : heap) (pindex : ptr) (interval nProofOfWorkLimit : Z) : res unit Z :=
  b ← deref t pindex;
  match pprev b with
  | Some p =>
      if negb (Z.rem (nHeight b) interval =? 0) && (nBits (index_header b) =? nProofOfWorkLimit) then
        match fuel with O => Abort | S fuel => last_regular_block fuel t p interval nProofOfWorkLimit end
      else Ok (nBits (index_header b))
  | None => Ok (nBits (index_header b))
  end.

(** [nTime] is the time of the block that is asked for. *)
Definition GetNextWorkRequiredBTC (t : heap) (pindexLast : ptr) (nTime : Z) (params : PowParams) : res unit Z :=
  last ← deref t pindexLast;
  nProofOfWorkLimit ← GetCompact (UintToArith256 (powLimit params)) false;
  let interval := DifficultyAdjustmentInterval params in
  if negb (Z.rem (nHeight last + 1) interval =? 0) then
    if fPowAllowMinDifficultyBlocks params then
      if GetBlockTime last + nPowTargetSpacing params * 2 <? nTime then Ok nProofOfWorkLimit
      else last_regular_block (S pindexLast) t pindexLast interval nProofOfWorkLimit
    else Ok (nBits (index_header last))
  else
    let nHeightFirst := nHeight last - (interval - 1) in
    _ ← assertb (0 <=? nHeightFirst);
    first ← GetAncestor t pindexLast nHeightFirst;
    match first with
    | None => Abort
    | Some p => b ← deref t p; CalculateNextWorkRequired last (GetBlockTime b) params
    end.

(** ** The choice of the rule *)

(** [nTime] is the time of the block that is asked for. *)
Definition GetNextWorkRequired (pow : spec_float -> spec_float -> spec_float) (t : heap) (pindexLast : option ptr)
    (nTime : Z) (params : PowParams) : res unit Z :=
  match pindexLast with
  | None => Abort
  | Some p =>
      last ← deref t p;
      let bnPowLimit := UintToArith256 (powLimit params) in
      if nHeight last <? nMinimumDifficultyBlocks params then GetCompact bnPowLimit false else
      if nHeight last + 1 <? nPowKGWHeight params then GetNextWorkRequiredBTC t p nTime params else
      if fPowAllowMinDifficultyBlocks params && (GetBlockTime last + 2 * 60 * 60 <? nTime)
      then GetCompact bnPowLimit false else
      if fPowAllowMinDifficultyBlocks params && (GetBlockTime last + nPowTargetSpacing params * 4 <? nTime)
      then GetCompact (clamp_limit (uint_mul32 (SetCompact_ (nBits (index_header last))) 10) bnPowLimit) false else
      if nHeight last + 1 <? nPowDGWHeight params then KimotoGravityWell pow t pindexLast params
      else DarkGravityWave t pindexLast params
  end.

Definition CheckProofOfWork (hash : list Z) (nBits : Z) (params : PowParams) : bool :=
  let '(bnTarget, fNegative, fOverflow) := SetCompact nBits in
  if fNegative || EqualTo bnTarget 0 || fOverflow || uint_gtb bnTarget (UintToArith256 (powLimit params)) then false
  else if uint_gtb (UintToArith256 hash) bnTarget then false
  else true.
