(* ===== verification/PowSpec.v ===== *)
(** * The retargeting rules keep the target within its bounds

    Every rule of Pow.v returns a target that decodes without sign or overflow to at most the limit (the rule
    of Bitcoin, which may repeat a target, when those of the index do);
    DarkGravityWave moves the target by at most a factor of three against the targets of the last 24
    blocks; a header that passes CheckProofOfWork has the work its target claims. *)

From S2P Require Import Prelude Script Crypto Serialize Transaction ArithUint256 ArithCompact Block Chain ChainSpec Pow.

(** The target a compact value stands for. *)
Definition target_of (nBits : Z) : Z := lval (SetCompact_ nBits).

(** [nBits] is the encoding of [n]: it decodes to [n] up to the precision of the format. *)
Definition encodes (nBits n : Z) : Prop :=
  exists r, SetCompact nBits = (r, false, false) /\ uint_ok r /\ lval r = target_of nBits /\
    target_of nBits <= n /\ (n - target_of nBits) * 2 ^ 15 <= target_of nBits.

Lemma GetCompact_encodes a : uint_ok a -> exists nBits, GetCompact a false = Ok nBits /\ encodes nBits (lval a).
Proof.
  intros Ha. destruct (compact_parts (lval a)) as [m n] eqn:Hmn.
  pose proof (uint_bound a Ha) as Hb. pose proof (compact_parts_bounds _ Hb) as Hp.
  pose proof (compact_val_encode _ Hb) as He. destruct (compact_trunc_spec _ Hb) as (Ht & Hprec & _).
  rewrite (GetCompact_val a Ha). rewrite Hmn in *. destruct Hp as (Hm & Hn & _). set (c := m + 2 ^ 24 * n) in *.
  assert (Hc : 0 <= c < 2 ^ 32) by (unfold c; lia).
  pose proof (SetCompact_val c Hc) as Hs. rewrite He in Hs. exists c. split; [done|].
  unfold encodes, target_of, SetCompact_. destruct (SetCompact c) as [[r neg] ovf]. cbn [fst].
  destruct Hs as (Hr & Hrv & Hov & Hneg). rewrite Z.mod_small in Hrv by lia. exists r.
  assert (ovf = false) as -> by (rewrite Hov; apply Z.leb_gt; lia).
  assert (neg = false) as ->.
  { apply Hneg. unfold c. rewrite Z.add_comm, Z.mul_comm. apply sign_bit_clear; lia. }
  rewrite Hrv. split_and!; try done; lia.
Qed.

Lemma SetCompact_ok nBits : 0 <= nBits < 2 ^ 32 -> uint_ok (SetCompact_ nBits).
Proof.
  intros H. unfold SetCompact_. pose proof (SetCompact_val nBits H) as Hs.
  destruct (SetCompact nBits) as [[r neg] ovf]. apply Hs.
Qed.

(** A limit as the parameters hold it: 32 bytes. *)
Definition limit_ok (l : list Z) : Prop := length l = 32%nat /\ bytes_ok l.

Lemma UintToArith256_val a : limit_ok a -> uint_ok (UintToArith256 a) /\ lval (UintToArith256 a) = le_val a.
Proof.
  intros [Hl Hb]. unfold UintToArith256.
  assert (H : forall n a, length a = (4 * n)%nat -> bytes_ok a ->
    length (UintToArith256_loop n a) = n /\ Forall limb_ok (UintToArith256_loop n a) /\
    lval (UintToArith256_loop n a) = le_val a).
  { clear. induction n as [|n IH]; intros a Hl Hb.
    { destruct a; [|done]. by repeat constructor. }
    destruct (IH (drop 4 a)) as (IHl & IHf & IHv); [rewrite length_drop; lia|by apply bytes_ok_drop|].
    assert (Ht : length (take 4 a) = 4%nat) by (rewrite length_take; lia).
    pose proof (le_val_bound (take 4 a) (bytes_ok_take 4 a Hb)) as Hr. rewrite Ht in Hr.
    cbn [UintToArith256_loop lval]. split_and!.
    - cbn [length]. by rewrite IHl.
    - constructor; [|done]. exact Hr.
    - rewrite IHv. replace (le_val a) with (le_val (take 4 a ++ drop 4 a)) by (by rewrite take_drop).
      by rewrite le_val_app, Ht. }
  destruct (H WIDTH a) as (H1 & H2 & H3); [done|done|]. by repeat split.
Qed.

(** Multiply and divide, as every rule does. *)
Lemma scale_val a num den :
  uint_ok a -> 0 < den < 2 ^ 64 ->
  exists q, uint_div_assign (uint_mul32 a (u32 num)) (of_u64 (u64 den)) = Ok q /\ uint_ok q /\
    lval q = ((u32 num * lval a) mod MOD256) / den.
Proof.
  intros Ha Hd. assert (Hn : limb_ok (u32 num)) by (apply Z.mod_pos_bound; done).
  destruct (uint_mul32_val a (u32 num) Ha Hn) as [Hm Hmv].
  unfold u64. rewrite Z.mod_small by lia. destruct (of_u64_ok den ltac:(lia)) as [Hdo Hdv].
  pose proof (uint_div_val _ _ Hm Hdo) as H. rewrite Hdv, (proj2 (Z.eqb_neq den 0)) in H by lia.
  destruct H as (q & Hq & Hqo & Hqv). exists q. unfold uint_div_assign. rewrite Hq.
  split_and!; try done. by rewrite Hqv, Hmv.
Qed.

Lemma clamp_limit_val a l :
  uint_ok a -> uint_ok l -> uint_ok (clamp_limit a l) /\ lval (clamp_limit a l) = Z.min (lval l) (lval a).
Proof.
  intros Ha Hl. unfold clamp_limit. rewrite uint_gtb_val by done.
  destruct (Z.ltb_spec (lval l) (lval a)); split; try done; lia.
Qed.

(** ** Proof of stake *)

Section target.
Context (t : heap) (wf : heap_wf t).

Lemma deref_Some p b : t !! p = Some b -> deref t p = Ok b.
Proof. unfold deref. by intros ->. Qed.

Lemma GetLastBlockIndex_loop_total fuel p b fPoS :
  t !! p = Some b -> (p < fuel)%nat ->
  exists q c, GetLastBlockIndex_loop fuel t p fPoS = Ok q /\ t !! q = Some c /\ (q <= p)%nat.
Proof.
  revert p b; induction fuel as [|fuel IH]; intros p b Hp Hf; [lia|]. cbn [GetLastBlockIndex_loop]. rewrite Hp.
  destruct (wf p b Hp) as (Hprev & _ & _). destruct (pprev b) as [q|]; [|by exists p, b].
  destruct (Bool.eqb _ _); [by exists p, b|]. destruct Hprev as (c & Hc & Hlt & _).
  destruct (IH q c Hc) as (q' & c' & Hq & Hc' & Hle); [lia|]. exists q', c'. split_and!; [done|done|lia].
Qed.

Definition headers_ok : Prop := forall p b, t !! p = Some b -> 0 <= nBits (index_header b) < 2 ^ 32.

Definition params_ok (params : PowParams) : Prop :=
  limit_ok (powLimit params) /\ limit_ok (posLimit params) /\
  0 < le_val (powLimit params) /\ 0 < le_val (posLimit params) /\
  0 < nPosTargetSpacingV1 params <= nTargetTimespan /\ 0 < nPosTargetSpacingV2 params <= nTargetTimespan.

(** The result of a rule: the encoding of a positive number that is at most the limit. *)
Definition within (r : res unit Z) (limit : Z) : Prop :=
  exists nBits n, r = Ok nBits /\ encodes nBits n /\ 0 < target_of nBits <= limit.

Lemma within_limit l : limit_ok l -> 0 < le_val l -> within (GetCompact (UintToArith256 l) false) (le_val l).
Proof.
  intros Hl Hp. destruct (UintToArith256_val l Hl) as [Ho Hv].
  destruct (GetCompact_encodes _ Ho) as (c & Hc & He). exists c, (le_val l). rewrite <- Hv in *. split_and!; try done.
  - destruct He as (r & _ & _ & _ & Hle & Hd). lia.
  - destruct He as (r & _ & _ & _ & Hle & Hd). lia.
Qed.

Lemma GetNextTargetRequired_within pindexLast fProofOfStake params :
  headers_ok -> params_ok params ->
  (forall p, pindexLast = Some p -> exists b, t !! p = Some b) ->
  within (GetNextTargetRequired t pindexLast fProofOfStake params)
    (le_val (match pindexLast with
             | Some _ => if fProofOfStake then posLimit params else powLimit params
             | None => powLimit params
             end)).
Proof.
  intros Hh (Hpw & Hps & Hpw0 & Hps0 & Hs1 & Hs2) Hp. destruct pindexLast as [p|]; [|by apply within_limit].
  destruct (Hp p eq_refl) as [last Hlast]. unfold GetNextTargetRequired.
  set (limit := if fProofOfStake then posLimit params else powLimit params).
  assert (Hl : limit_ok limit) by (unfold limit; by destruct fProofOfStake).
  assert (Hl0 : 0 < le_val limit) by (unfold limit; by destruct fProofOfStake).
  rewrite (deref_Some p last Hlast). cbn [mbind res_bind].
  destruct (GetLastBlockIndex_loop_total (S p) p last fProofOfStake Hlast) as (q & prev & -> & Hprev & _); [lia|].
  cbn [mbind res_bind]. rewrite (deref_Some q prev Hprev). cbn [mbind res_bind].
  destruct (wf q prev Hprev) as (Hpp & _ & _). destruct (pprev prev) as [q'|]; [|by apply within_limit].
  destruct Hpp as (c & Hc & _).
  destruct (GetLastBlockIndex_loop_total (S q') q' c fProofOfStake Hc) as (r & pp & -> & Hr & _); [lia|].
  cbn [mbind res_bind]. rewrite (deref_Some r pp Hr). cbn [mbind res_bind].
  destruct (pprev pp) as [?|]; [|by apply within_limit].
  cbv zeta. set (spacing := if nSpecTargetFix params <? nHeight last then _ else _).
  assert (Hsp : 0 < spacing <= nTargetTimespan) by (unfold spacing; by case_bool).
  assert (Hden : 0 < (Z.quot nTargetTimespan spacing + 1) * spacing < 2 ^ 64).
  { unfold nTargetTimespan in *. pose proof (Z.quot_pos (10 * 60) spacing ltac:(lia) ltac:(lia)).
    pose proof (Z.mul_quot_le (10 * 60) spacing ltac:(lia) ltac:(lia)). nia. }
  match goal with |- context [uint_mul32 ?a (u32 ?num)] =>
    destruct (scale_val a num _ (SetCompact_ok _ (Hh _ _ Hprev)) Hden) as (bn & -> & Hbo & _) end.
  cbn [mbind res_bind]. destruct (UintToArith256_val limit Hl) as [Hlo Hlv].
  destruct (of_u64_ok 0 ltac:(lia)) as [Hzo Hzv]. rewrite uint_leb_val, uint_gtb_val, Hzv, Hlv by done.
  destruct (Z.leb_spec (lval bn) 0); cbn [orb]; [by apply within_limit|].
  destruct (Z.ltb_spec (le_val limit) (lval bn)); [by apply within_limit|].
  destruct (GetCompact_encodes bn Hbo) as (nb & Hnb & He). exists nb, (lval bn). split_and!; try done.
  - destruct He as (? & _ & _ & _ & Hle & Hd). lia.
  - destruct He as (? & _ & _ & _ & Hle & Hd). lia.
Qed.

(** ** Dark gravity wave *)

(** The targets of the [k] blocks that end in [p] lie between [lo] and [hi]. *)
Definition recent_targets (k : nat) (p : ptr) (lo hi : Z) : Prop :=
  forall j q b, (j < k)%nat -> walk j t p = Some q -> t !! q = Some b -> lo <= target_of (nBits (index_header b)) <= hi.

Lemma recent_targets_prev k p b q lo hi :
  t !! p = Some b -> pprev b = Some q -> recent_targets (S k) p lo hi -> recent_targets k q lo hi.
Proof. intros Hp Hq Hr j r c Hj Hw Hc. apply (Hr (S j) r c); [lia| |done]. cbn [walk]. by rewrite Hp, Hq. Qed.

(** One step of the running average. *)
Lemma average_val avg x n lo hi :
  uint_ok avg -> uint_ok x -> 1 < n <= nPastBlocks -> 0 <= lo -> hi * 25 < MOD256 ->
  lo <= lval avg <= hi -> lo <= lval x <= hi ->
  exists q, uint_div_assign (uint_add (uint_mul32 avg n) x) (of_u64 (n + 1)) = Ok q /\ uint_ok q /\ lo <= lval q <= hi.
Proof.
  intros Ha Hx Hn Hlo Hhi Hba Hbx. unfold nPastBlocks in Hn.
  destruct (uint_mul32_val avg n Ha) as [Hm Hmv]; [split; unfold LIMB; lia|].
  rewrite Z.mod_small in Hmv by nia. destruct (uint_add_spec _ x Hm Hx) as [Hs Hsv].
  rewrite Hmv, Z.mod_small in Hsv by nia. destruct (of_u64_ok (n + 1) ltac:(lia)) as [Hd Hdv].
  pose proof (uint_div_val _ _ Hs Hd) as H. rewrite Hdv, (proj2 (Z.eqb_neq (n + 1) 0)) in H by lia.
  destruct H as (q & Hq & Hqo & Hqv). exists q. unfold uint_div_assign. rewrite Hq. split_and!; try done; rewrite Hqv, Hsv.
  - apply Z.div_le_lower_bound; nia.
  - apply Z.lt_succ_r, Z.div_lt_upper_bound; nia.
Qed.

Lemma DarkGravityWave_loop_spec k n p b avg lo hi :
  headers_ok -> t !! p = Some b -> Z.of_nat k <= nHeight b + 1 -> 1 <= n -> n + Z.of_nat k = nPastBlocks + 1 ->
  0 <= lo -> hi * 25 < MOD256 -> recent_targets k p lo hi ->
  n = 1 \/ (uint_ok avg /\ lo <= lval avg <= hi) -> (0 < k)%nat ->
  exists a q c, DarkGravityWave_loop k n t p avg = Ok (a, q) /\ uint_ok a /\ lo <= lval a <= hi /\ t !! q = Some c.
Proof.
  intros Hh. revert n p b avg. induction k as [|k IH]; intros n p b avg Hp Hk Hn Hnk Hlo Hhi Hr Ha Hpos; [lia|].
  cbn [DarkGravityWave_loop]. rewrite (deref_Some p b Hp). cbn [mbind res_bind].
  pose proof (Hr O p b ltac:(lia) eq_refl Hp) as Ht0. pose proof (SetCompact_ok _ (Hh p b Hp)) as Hto.
  assert (Hstep : exists a, (if n =? 1 then Ok (SetCompact_ (nBits (index_header b)))
     else uint_div_assign (uint_add (uint_mul32 avg n) (SetCompact_ (nBits (index_header b)))) (of_u64 (n + 1))) = Ok a
     /\ uint_ok a /\ lo <= lval a <= hi).
  { destruct (Z.eqb_spec n 1) as [->|Hn1]; [by eexists|]. destruct Ha as [?|[Hao Hav]]; [lia|].
    apply average_val; try done; lia. }
  destruct Hstep as (a & -> & Hao & Hav). cbn [mbind res_bind].
  destruct k as [|k].
  { rewrite (proj2 (Z.eqb_eq n nPastBlocks)) by lia. cbn. by exists a, p, b. }
  rewrite (proj2 (Z.eqb_neq n nPastBlocks)) by lia. destruct (wf p b Hp) as (Hprev & _ & _).
  destruct (pprev b) as [q|] eqn:Hq; [|lia]. destruct Hprev as (c & Hc & _ & Hhc). cbn [mbind res_bind].
  apply (IH (n + 1) q c a); [done|lia|lia|lia|done|done| |by right|lia].
  by apply (recent_targets_prev (S k) p b q lo hi Hp Hq).
Qed.

Lemma DarkGravityWave_spec p b params lo hi :
  headers_ok -> t !! p = Some b -> nPastBlocks <= nHeight b ->
  limit_ok (powLimit params) -> 0 < nPowTargetSpacing params -> nPowTargetSpacing params * 72 < 2 ^ 32 ->
  recent_targets 24 p lo hi -> 0 <= lo -> hi * (nPowTargetSpacing params * 72) < MOD256 ->
  exists nBits n, DarkGravityWave t (Some p) params = Ok nBits /\ encodes nBits n /\
    Z.min (le_val (powLimit params)) (lo / 3) <= n <= Z.min (le_val (powLimit params)) (hi * 3).
Proof.
  intros Hh Hp Hht Hl Hs Hs32 Hr Hlo Hhi. unfold DarkGravityWave. rewrite (deref_Some p b Hp).
  cbn [mbind res_bind]. rewrite (proj2 (Z.ltb_ge _ _)) by done.
  assert (Hhi0 : 0 <= hi).
  { destruct (Hr O p b) as [? ?]; try done; [lia|]. lia. }
  destruct (DarkGravityWave_loop_spec 24 1 p b uint_zero lo hi) as (a & q & c & He & Hao & Hav & Hc);
    try done; try lia; try (by left); try (unfold nPastBlocks in *; nia).
  change (Z.to_nat nPastBlocks) with 24%nat. rewrite He. cbn [mbind res_bind].
  rewrite (deref_Some q c Hc). cbn [mbind res_bind]. cbv zeta.
  unfold nPastBlocks. set (T := 24 * nPowTargetSpacing params).
  set (s1 := if GetBlockTime b - GetBlockTime c <? Z.quot T 3 then _ else _).
  set (s2 := if T * 3 <? s1 then _ else _).
  assert (HT3 : Z.quot T 3 = 8 * nPowTargetSpacing params).
  { unfold T. replace (24 * nPowTargetSpacing params) with (8 * nPowTargetSpacing params * 3) by lia. apply Z.quot_mul. lia. }
  assert (Hs2 : 8 * nPowTargetSpacing params <= s2 <= 72 * nPowTargetSpacing params).
  { unfold s2, s1. rewrite HT3. unfold T. repeat case_bool; bprop; lia. }
  destruct (scale_val a s2 T Hao) as (bn & -> & Hbo & Hbv); [unfold T; lia|]. cbn [mbind res_bind].
  destruct (UintToArith256_val _ Hl) as [Hlo' Hlv]. destruct (clamp_limit_val bn _ Hbo Hlo') as [Hco Hcv].
  destruct (GetCompact_encodes _ Hco) as (nb & Hnb & Hen). exists nb, (lval (clamp_limit bn (UintToArith256 (powLimit params)))).
  split; [done|]. split; [done|]. rewrite Hcv, Hlv, Hbv. unfold u32. rewrite (Z.mod_small s2) by lia.
  rewrite Z.mod_small by (pose proof (uint_bound a Hao); nia).
  assert (Hlow : lo / 3 <= s2 * lval a / T).
  { apply Z.div_le_lower_bound; [unfold T; lia|]. pose proof (Z.mul_div_le lo 3 ltac:(lia)). unfold T. nia. }
  assert (Hup : s2 * lval a / T <= hi * 3).
  { apply Z.lt_succ_r, Z.div_lt_upper_bound; [unfold T; lia|]. unfold T. nia. }
  lia.
Qed.

(** ** Every rule stays within the limit *)

(** A compact value the checks of a header accept under the limit. *)
Definition proper (limit nBits : Z) : Prop :=
  exists r, SetCompact nBits = (r, false, false) /\ uint_ok r /\ lval r <= limit.

Definition headers_proper (limit : Z) : Prop := forall p b, t !! p = Some b -> proper limit (nBits (index_header b)).

Lemma encodes_proper nBits n limit : encodes nBits n -> n <= limit -> proper limit nBits.
Proof. intros (r & Hs & Hr & Hv & Hle & _) Hn. exists r. split_and!; [done|done|lia]. Qed.

Lemma GetCompact_clamped a l :
  uint_ok a -> limit_ok l -> exists nBits, GetCompact (clamp_limit a (UintToArith256 l)) false = Ok nBits /\ proper (le_val l) nBits.
Proof.
  intros Ha Hl. destruct (UintToArith256_val l Hl) as [Hlo Hlv]. destruct (clamp_limit_val a _ Ha Hlo) as [Hco Hcv].
  destruct (GetCompact_encodes _ Hco) as (nb & Hnb & Hen). exists nb. split; [done|]. eapply encodes_proper; [done|]. lia.
Qed.

Lemma GetCompact_limit l :
  limit_ok l -> exists nBits, GetCompact (UintToArith256 l) false = Ok nBits /\ proper (le_val l) nBits.
Proof.
  intros Hl. destruct (UintToArith256_val l Hl) as [Hlo Hlv]. destruct (GetCompact_encodes _ Hlo) as (nb & Hnb & Hen).
  exists nb. split; [done|]. eapply encodes_proper; [done|]. lia.
Qed.

Lemma uint_div_assign_ok a n : uint_ok a -> 0 < n < 2 ^ 64 -> exists q, uint_div_assign a (of_u64 n) = Ok q /\ uint_ok q.
Proof.
  intros Ha Hn. destruct (of_u64_ok n ltac:(lia)) as [Hd Hdv]. pose proof (uint_div_val _ _ Ha Hd) as H.
  rewrite Hdv, (proj2 (Z.eqb_neq n 0)) in H by lia. destruct H as (q & Hq & Hqo & _). exists q. unfold uint_div_assign. by rewrite Hq.
Qed.

Lemma kgw_average_ok i a prev :
  uint_ok a -> uint_ok prev -> i < 2 ^ 64 -> exists r, kgw_average i a prev = Ok r /\ uint_ok r.
Proof.
  intros Ha Hp Hi. unfold kgw_average. destruct (Z.ltb_spec 1 i); [|by eexists]. destruct (uint_geb a prev).
  - destruct (uint_sub_val a prev Ha Hp) as [Hs _]. destruct (uint_div_assign_ok _ i Hs) as (q & -> & Hq); [lia|].
    eexists; split; [done|]. by apply uint_add_spec.
  - destruct (uint_sub_val prev a Hp Ha) as [Hs _]. destruct (uint_div_assign_ok _ i Hs) as (q & -> & Hq); [lia|].
    eexists; split; [done|]. by apply uint_sub_val.
Qed.

Lemma KimotoGravityWell_loop_total pow fuel i lo hi last p b st params :
  headers_ok -> t !! p = Some b -> (p < fuel)%nat -> 0 < i -> i + Z.of_nat p < 2 ^ 64 ->
  uint_ok (PastDifficultyAverage st) -> (exists n, PastRateTargetSeconds st = s64 n) ->
  exists st', KimotoGravityWell_loop pow fuel i lo hi t last p st params = Ok st' /\ uint_ok (PastDifficultyAverage st') /\
    exists n, PastRateTargetSeconds st' = s64 n.
Proof.
  intros Hh. revert i p b st; induction fuel as [|fuel IH]; intros i p b st Hp Hf Hi Hip Hst Hn; [lia|].
  cbn [KimotoGravityWell_loop]. rewrite (deref_Some p b Hp). cbn [mbind res_bind].
  destruct (negb _); [by exists st|]. destruct (_ && (hi <? i)); [by exists st|].
  destruct (kgw_average_ok i _ _ (SetCompact_ok _ (Hh _ _ Hp)) Hst) as (r & -> & Hr); [lia|]. cbn [mbind res_bind].
  destruct (_ && (_ || _)); [by eexists; split; [done|split; [done|eexists]]|]. destruct (wf p b Hp) as (Hprev & _ & _).
  destruct (pprev b) as [q|]; [|by eexists; split; [done|split; [done|eexists]]]. destruct Hprev as (c & Hc & Hlt & _).
  apply (IH (i + 1) q c); [done|lia..|done|by eexists].
Qed.

Lemma KimotoGravityWell_proper pow p b params :
  headers_ok -> t !! p = Some b -> Z.of_nat p < 2 ^ 63 -> limit_ok (powLimit params) ->
  exists nBits, KimotoGravityWell pow t (Some p) params = Ok nBits /\ proper (le_val (powLimit params)) nBits.
Proof.
  intros Hh Hp Hlt Hl. unfold KimotoGravityWell. rewrite (deref_Some p b Hp). cbn [mbind res_bind].
  destruct (_ || _); [by apply GetCompact_limit|]. cbv zeta.
  match goal with |- context [KimotoGravityWell_loop pow ?f ?i ?lo ?hi t b p ?s params] =>
    destruct (KimotoGravityWell_loop_total pow f i lo hi b p b s params Hh Hp) as (st & -> & Hst & n & Hn) end;
    [lia..|by split; repeat constructor|by exists 0|]. cbn [mbind res_bind].
  destruct (negb _ && negb _) eqn:E; [|by apply GetCompact_clamped].
  assert (Hnz : 0 < u64 (PastRateTargetSeconds st) < 2 ^ 64).
  { bprop. rewrite Hn in *. unfold u64, s64, swrap in *. pose proof (Z.mod_pos_bound n (2 ^ 64) ltac:(done)).
    destruct (_ <? _) eqn:E2; bprop; [rewrite Z.mod_small by lia; lia|].
    rewrite <- (Z.mod_unique (n mod 2 ^ 64 - 2 ^ 64) (2 ^ 64) (-1) (n mod 2 ^ 64)); [lia|left; lia|lia]. }
  assert (Hm : uint_ok (uint_mul32 (PastDifficultyAverage st) (u32 (PastRateActualSeconds st)))).
  { apply uint_mul32_val; [done|]. by apply Z.mod_pos_bound. }
  destruct (uint_div_assign_ok _ _ Hm Hnz) as (q & -> & Hq). by apply GetCompact_clamped.
Qed.

(** The rules that repeat a target of the index stay within the limit when the index does. *)
Lemma last_regular_block_proper fuel p b interval c limit :
  t !! p = Some b -> (p < fuel)%nat ->
  exists nBits, last_regular_block fuel t p interval c = Ok nBits /\ (headers_proper limit -> proper limit nBits).
Proof.
  revert p b; induction fuel as [|fuel IH]; intros p b Hp Hf; [lia|]. cbn [last_regular_block].
  rewrite (deref_Some p b Hp). cbn [mbind res_bind]. destruct (wf p b Hp) as (Hprev & _ & _).
  assert (headers_proper limit -> proper limit (nBits (index_header b))) as Hb by (intros Hh; by apply (Hh p b Hp)).
  destruct (pprev b) as [q|]; [|by eexists]. destruct Hprev as (d & Hd & Hlt & _).
  destruct (_ && _); [|by eexists]. apply (IH q d); [done|lia].
Qed.

Lemma CalculateNextWorkRequired_proper p b time params :
  headers_ok -> t !! p = Some b -> limit_ok (powLimit params) -> 0 < nPowTargetTimespan params < 2 ^ 64 ->
  exists nBits, CalculateNextWorkRequired b time params = Ok nBits /\
    (headers_proper (le_val (powLimit params)) -> proper (le_val (powLimit params)) nBits).
Proof.
  intros Hh Hp Hl HT. unfold CalculateNextWorkRequired. destruct (fPowNoRetargeting params).
  { eexists; split; [done|]. intros Hpr. by apply (Hpr p b). }
  match goal with |- context [uint_mul32 ?a (u32 ?num)] =>
    destruct (scale_val a num _ (SetCompact_ok _ (Hh _ _ Hp)) HT) as (bn & -> & Hbo & _) end.
  cbn [mbind res_bind]. destruct (GetCompact_clamped bn _ Hbo Hl) as (nb & Hnb & Hpr). by exists nb.
Qed.

Lemma GetNextWorkRequiredBTC_proper p b nTime params :
  headers_ok -> t !! p = Some b -> limit_ok (powLimit params) ->
  0 < nPowTargetSpacing params <= nPowTargetTimespan params -> nPowTargetTimespan params < 2 ^ 64 ->
  exists nBits, GetNextWorkRequiredBTC t p nTime params = Ok nBits /\
    (headers_proper (le_val (powLimit params)) -> proper (le_val (powLimit params)) nBits).
Proof.
  intros Hh Hp Hl Hs HT. unfold GetNextWorkRequiredBTC. rewrite (deref_Some p b Hp). cbn [mbind res_bind].
  destruct (GetCompact_limit _ Hl) as (lim & -> & Hlim). cbn [mbind res_bind]. cbv zeta.
  destruct (negb _) eqn:Ei.
  { destruct (fPowAllowMinDifficultyBlocks params); [|eexists; split; [done|]; intros Hpr; by apply (Hpr p b Hp)].
    case_bool; [by eexists|]. apply (last_regular_block_proper (S p) p b); [done|lia]. }
  apply negb_false_iff, Z.eqb_eq in Ei. destruct (wf p b Hp) as (_ & H0 & _).
  set (interval := DifficultyAdjustmentInterval params) in *.
  assert (Hint : 0 < interval <= nHeight b + 1).
  { assert (0 < interval).
    { unfold interval, DifficultyAdjustmentInterval. rewrite Z.quot_div_nonneg by lia. apply Z.div_str_pos. lia. }
    split; [done|]. rewrite Z.rem_mod_nonneg in Ei by lia. apply Z.mod_divide in Ei; [|lia].
    apply Z.divide_pos_le; [lia|done]. }
  unfold assertb. rewrite (proj2 (Z.leb_le 0 _)) by lia. cbn [mbind res_bind].
  rewrite (GetAncestor_spec t wf p b) by done. cbn [mbind res_bind].
  destruct (ancestor_Some t wf p b (nHeight b - (interval - 1)) Hp ltac:(lia)) as (q & c & -> & Hc & _).
  rewrite (deref_Some q c Hc). cbn [mbind res_bind]. apply (CalculateNextWorkRequired_proper p b); try done. lia.
Qed.

(** The average may wrap around when the limit is close to 2^256; it is computed all the same. *)
Lemma DarkGravityWave_loop_total k n p b avg :
  headers_ok -> t !! p = Some b -> Z.of_nat k <= nHeight b + 1 -> 1 <= n -> n + Z.of_nat k = nPastBlocks + 1 ->
  n = 1 \/ uint_ok avg -> (0 < k)%nat ->
  exists a q c, DarkGravityWave_loop k n t p avg = Ok (a, q) /\ uint_ok a /\ t !! q = Some c.
Proof.
  intros Hh. revert n p b avg. induction k as [|k IH]; intros n p b avg Hp Hk Hn Hnk Ha Hpos; [lia|].
  cbn [DarkGravityWave_loop]. rewrite (deref_Some p b Hp). cbn [mbind res_bind]. pose proof (SetCompact_ok _ (Hh p b Hp)) as Hto.
  assert (Hstep : exists a, (if n =? 1 then Ok (SetCompact_ (nBits (index_header b)))
     else uint_div_assign (uint_add (uint_mul32 avg n) (SetCompact_ (nBits (index_header b)))) (of_u64 (n + 1))) = Ok a /\ uint_ok a).
  { destruct (Z.eqb_spec n 1) as [->|Hn1]; [by eexists|]. destruct Ha as [?|Hao]; [lia|]. unfold nPastBlocks in *.
    apply uint_div_assign_ok; [|lia]. apply uint_add_spec; [|done]. apply uint_mul32_val; [done|]. split; unfold LIMB; lia. }
  destruct Hstep as (a & -> & Hao). cbn [mbind res_bind]. destruct k as [|k].
  { rewrite (proj2 (Z.eqb_eq n nPastBlocks)) by lia. cbn. by exists a, p, b. }
  rewrite (proj2 (Z.eqb_neq n nPastBlocks)) by lia. destruct (wf p b Hp) as (Hprev & _ & _).
  destruct (pprev b) as [q|] eqn:Hq; [|lia]. destruct Hprev as (c & Hc & _ & Hhc). cbn [mbind res_bind].
  apply (IH (n + 1) q c a); [done|lia|lia|lia|by right|lia].
Qed.

Lemma DarkGravityWave_proper p b params :
  headers_ok -> t !! p = Some b -> limit_ok (powLimit params) -> 0 < nPowTargetSpacing params -> nPowTargetSpacing params * 72 < 2 ^ 32 ->
  exists nBits, DarkGravityWave t (Some p) params = Ok nBits /\ proper (le_val (powLimit params)) nBits.
Proof.
  intros Hh Hp Hl Hs H72. unfold DarkGravityWave. rewrite (deref_Some p b Hp). cbn [mbind res_bind].
  case_bool; [by apply GetCompact_limit|]. bprop.
  destruct (DarkGravityWave_loop_total 24 1 p b uint_zero) as (a & q & c & He & Hao & Hc); try done; try lia; try (by left); try (unfold nPastBlocks in *; lia).
  change (Z.to_nat nPastBlocks) with 24%nat. rewrite He. cbn [mbind res_bind]. rewrite (deref_Some q c Hc). cbn [mbind res_bind]. cbv zeta.
  match goal with |- context [uint_mul32 a (u32 ?num)] =>
    destruct (scale_val a num (nPastBlocks * nPowTargetSpacing params) Hao) as (bn & -> & Hbo & _); [unfold nPastBlocks; lia|] end.
  cbn [mbind res_bind]. by apply GetCompact_clamped.
Qed.

End target.

(** ** Main properties *)

Definition limit_of (params : PowParams) (fProofOfStake : bool) (pindexLast : option ptr) : Z :=
  match pindexLast with
  | Some _ => le_val (if fProofOfStake then posLimit params else powLimit params)
  | None => le_val (powLimit params)
  end.

(** GetNextTargetRequired never aborts or divides by zero on an index built by AddToBlockIndex, and its
    result decodes without sign or overflow to a target that is positive and at most the limit, for
    every spacing of the last blocks, negative ones included. *)
Theorem GetNextTargetRequired_bounds {crypto : CryptoOps} t pindexLast fProofOfStake params :
  Built t -> headers_ok t -> params_ok params ->
  (forall p, pindexLast = Some p -> exists b, t !! p = Some b) ->
  exists nBits r, GetNextTargetRequired t pindexLast fProofOfStake params = Ok nBits /\
    SetCompact nBits = (r, false, false) /\ uint_ok r /\ 0 < lval r <= limit_of params fProofOfStake pindexLast.
Proof.
  intros Hb Hh Hpar Hp.
  destruct (GetNextTargetRequired_within t (Built_wf t Hb) pindexLast fProofOfStake params Hh Hpar Hp)
    as (nb & n & Hr & (r & Hs & Hro & Hrv & _) & Hlim).
  exists nb, r. rewrite Hrv. destruct Hlim as [Hlim0 Hlim]. split_and!; try done. by destruct pindexLast.
Qed.

(** DarkGravityWave never aborts on an index built by AddToBlockIndex; the target it asks for is, up to
    the precision of the compact format, at most the limit, at most three times the largest and at least
    a third of the smallest target of the last 24 blocks, whatever the times of the blocks are. *)
Theorem DarkGravityWave_bounds {crypto : CryptoOps} t p b params lo hi :
  Built t -> headers_ok t -> t !! p = Some b -> nPastBlocks <= nHeight b ->
  limit_ok (powLimit params) -> 0 < nPowTargetSpacing params -> nPowTargetSpacing params * 72 < 2 ^ 32 ->
  recent_targets t 24 p lo hi -> 0 <= lo -> hi * (nPowTargetSpacing params * 72) < MOD256 ->
  exists nBits n, DarkGravityWave t (Some p) params = Ok nBits /\ encodes nBits n /\
    Z.min (le_val (powLimit params)) (lo / 3) <= n <= Z.min (le_val (powLimit params)) (hi * 3).
Proof. intros wf%Built_wf. by apply DarkGravityWave_spec. Qed.

(** C36: GetNextWorkRequired always answers on an index built by AddToBlockIndex, whatever targets and times its
    headers have: no rule it may choose fails an assertion, follows a null pointer or divides by zero, for
    every function [pow].  The target it asks for is within the limit of proof of work, also where the
    arithmetic wraps around; before the height of the gravity wells, where the rule of Bitcoin may repeat
    a target of the index, that is so when the targets of the index are within the limit. *)
Theorem GetNextWorkRequired_bounds {crypto : CryptoOps} pow t p b nTime params :
  Built t -> t !! p = Some b -> headers_ok t ->
  limit_ok (powLimit params) -> 0 < nPowTargetSpacing params <= nPowTargetTimespan params ->
  nPowTargetTimespan params < 2 ^ 63 -> nPowTargetSpacing params * 72 < 2 ^ 32 -> Z.of_nat (length t) < 2 ^ 63 ->
  exists nBits, GetNextWorkRequired pow t (Some p) nTime params = Ok nBits /\
    ((nHeight b + 1 < nPowKGWHeight params -> headers_proper t (le_val (powLimit params))) -> proper (le_val (powLimit params)) nBits).
Proof.
  intros wf%Built_wf Hp Hh Hl Hs HT H72 Hlen. pose proof (lookup_lt_Some _ _ _ Hp).
  assert (forall r : res unit Z, (exists nb, r = Ok nb /\ proper (le_val (powLimit params)) nb) -> forall P : Prop,
    exists nb, r = Ok nb /\ (P -> proper (le_val (powLimit params)) nb)) as Hany by (intros r (nb & -> & ?) P; by exists nb).
  unfold GetNextWorkRequired. rewrite (deref_Some t p b Hp). cbn [mbind res_bind].
  case_bool; [by apply Hany, GetCompact_limit|].
  destruct (Z.ltb_spec (nHeight b + 1) (nPowKGWHeight params)) as [Hk|Hk].
  { destruct (GetNextWorkRequiredBTC_proper t wf p b nTime params) as (nb & Hnb & Hpr); try assumption; [lia|].
    exists nb. split; [done|]. intros Hi. by apply Hpr, Hi. }
  apply Hany. case_bool; [by apply GetCompact_limit|]. case_bool.
  { apply GetCompact_clamped; [|done]. apply uint_mul32_val; [by apply (SetCompact_ok _ (Hh p b Hp))|done]. }
  case_bool; [apply (KimotoGravityWell_proper t wf pow p b); (assumption || lia)|].
  apply (DarkGravityWave_proper t wf p b); (assumption || lia).
Qed.

(** A header that passes CheckProofOfWork claims a target within the limit, its hash is at most the
    target, and the work GetBlockProof credits for it is covered: the hash times the work is below 2^256. *)
Theorem CheckProofOfWork_work hash nBits params w :
  limit_ok hash -> limit_ok (powLimit params) -> 0 <= nBits < 2 ^ 32 ->
  CheckProofOfWork hash nBits params = true -> GetBlockProof nBits = Ok w ->
  le_val hash <= target_of nBits <= le_val (powLimit params) /\ 0 < target_of nBits /\
  0 < lval w /\ le_val hash * lval w < 2 ^ 256.
Proof.
  intros Hh Hl Hn Hc Hw. destruct (GetBlockProof_val nBits Hn) as (w' & Hw' & Hwo & Hwv).
  rewrite Hw in Hw'. injection Hw' as <-. unfold CheckProofOfWork in Hc. unfold work_of in Hwv.
  pose proof (SetCompact_val nBits Hn) as Hs. unfold target_of, SetCompact_.
  destruct (SetCompact nBits) as [[r neg] ovf]. destruct Hs as (Hro & Hrv & Hov & _). cbn [fst].
  destruct (UintToArith256_val _ Hl) as [Hlo Hlv]. destruct (UintToArith256_val _ Hh) as [Hho Hhv].
  rewrite EqualTo_zero, !uint_gtb_val, Hlv, Hhv in Hc by done.
  destruct (neg || _ || _ || _) eqn:Ef in Hc; [done|]. destruct (lval r <? le_val hash) eqn:Eh in Hc; [done|]. bprop.
  subst neg ovf. cbn [orb] in Hwv. symmetry in Hov. apply Z.leb_gt in Hov.
  assert (Hcv : 0 <= compact_val nBits).
  { unfold compact_val. pose proof (Z.mod_pos_bound nBits (2 ^ 23) ltac:(lia)).
    case_bool; [apply Z.div_pos; [lia|apply Z.pow_pos_nonneg; lia]|apply Z.mul_nonneg_nonneg; [lia|apply Z.pow_nonneg; lia]]. }
  rewrite Z.mod_small in Hrv by lia. rewrite (proj2 (Z.eqb_neq (compact_val nBits) 0)) in Hwv by lia.
  rewrite <- Hrv in *. pose proof (uint_bound r Hro) as Hrb. split; [lia|]. split; [lia|]. rewrite Hwv.
  pose proof (Z.mul_div_le (2 ^ 256) (lval r + 1) ltac:(lia)) as Hm.
  pose proof (le_val_bound hash (proj2 Hh)) as Hhb.
  assert (Hpos : 0 < 2 ^ 256 / (lval r + 1)) by (apply Z.div_str_pos; unfold MOD256 in Hrb; lia).
  split; [done|]. nia.
Qed.

(** ** A chain of 26 blocks for the witnesses *)

(** The header at position [k], its nonce chosen so that its hash in the model of Crypto.v is the byte [k]. *)
Definition link (k : Z) : CBlockHeader :=
  let h n := MkHeader 1 (replicate 32 (k - 1)) null_hash (100 + 10 * k) 0x1d00ffff n null_hash 0 [] 0 in
  h ((k - vget (header_GetHash (crypto := sum_crypto) (h 0)) 0) mod 256).

Definition straight_manager : BlockManager :=
  foldl grow (MkManager [] None ∅ []) (map (fun k => link (Z.of_nat k)) (seq 1 26)).
Definition straight : heap := m_block_index straight_manager.

Definition header_addable (h : CBlockHeader) : bool :=
  negb (bool_decide (hashPrevBlock h = header_GetHash (crypto := sum_crypto) h)) && (0 <=? nBits h) && (nBits h <? 2 ^ 32).

Lemma Managed_headers hs m :
  Managed (crypto := sum_crypto) m -> forallb header_addable hs = true -> Managed (crypto := sum_crypto) (foldl grow m hs).
Proof.
  revert m. induction hs as [|h hs IH]; intros m Hm Hc; [done|]. cbn [forallb foldl] in *.
  apply andb_true_iff in Hc as [Hh Hc]. unfold header_addable in Hh. apply IH; [|done].
  apply andb_true_iff in Hh as [[Hne Hlo]%andb_true_iff Hhi]. apply Managed_grow; [done| |lia].
  by apply negb_true_iff in Hne.
Qed.

Lemma straight_built : Built (crypto := sum_crypto) straight.
Proof.
  exists straight_manager. split; [|exact eq_refl]. unfold straight_manager.
  apply Managed_headers; [constructor|vm_compute; reflexivity].
Qed.

Definition same_bits (b : CBlockIndex) : bool := nBits (index_header b) =? 0x1d00ffff.

Lemma straight_checked : forallb same_bits straight = true.
Proof. vm_compute. reflexivity. Qed.

Lemma forallb_lookup {A : Type} (f : A -> bool) (l : list A) i x : forallb f l = true -> l !! i = Some x -> f x = true.
Proof.
  intros Hf Hi. apply (proj1 (forallb_forall f l) Hf), list_elem_of_In. by apply list_elem_of_lookup_2 in Hi.
Qed.

Opaque straight straight_manager.

Lemma straight_bits p b : straight !! p = Some b -> nBits (index_header b) = 0x1d00ffff.
Proof. intros Hb. exact (proj1 (Z.eqb_eq _ _) (forallb_lookup same_bits straight p b straight_checked Hb)). Qed.

Lemma straight_headers : headers_ok straight.
Proof.
  intros p b Hb. rewrite (straight_bits p b Hb). lia.
Qed.

Lemma straight_targets k p : recent_targets straight k p (target_of 0x1d00ffff) (target_of 0x1d00ffff).
Proof.
  intros j q b _ _ Hb. rewrite (straight_bits q b Hb). lia.
Qed.

(** The parameters of the main network. *)
Definition main_params : PowParams :=
  MkPowParams (replicate 30 0xff ++ [0; 0]) (replicate 29 0xff ++ [0x0f; 0; 0]) 90 120 310000 false false 120 28800 0 1266090 1266100.

Lemma main_limits : limit_ok (powLimit main_params) /\ limit_ok (posLimit main_params).
Proof. by split; split; [| |..]; repeat constructor. Qed.

Lemma GetNextTargetRequired_bounds_witness :
  exists nBits r, GetNextTargetRequired straight (Some 25%nat) false main_params = Ok nBits /\
    SetCompact nBits = (r, false, false) /\ uint_ok r /\ 0 < lval r <= limit_of main_params false (Some 25%nat).
Proof.
  apply (GetNextTargetRequired_bounds straight (Some 25%nat) false main_params straight_built straight_headers).
  - split_and!; try apply main_limits; vm_compute; done.
  - intros p [= <-]. destruct (straight !! 25%nat) eqn:E; [by eexists|vm_compute in E; discriminate].
Defined.

Lemma DarkGravityWave_bounds_witness :
  exists nBits n, DarkGravityWave straight (Some 25%nat) main_params = Ok nBits /\ encodes nBits n /\
    Z.min (le_val (powLimit main_params)) (target_of 0x1d00ffff / 3) <= n <=
    Z.min (le_val (powLimit main_params)) (target_of 0x1d00ffff * 3).
Proof.
  destruct (straight !! 25%nat) as [b|] eqn:E; [|vm_compute in E; discriminate].
  apply (DarkGravityWave_bounds straight 25 b main_params (target_of 0x1d00ffff) (target_of 0x1d00ffff)
    straight_built straight_headers E).
  - assert (Hb : nHeight <$> straight !! 25%nat = Some 25) by (vm_compute; reflexivity).
    rewrite E in Hb. injection Hb as ->. unfold nPastBlocks. lia.
  - apply main_limits.
  - reflexivity.
  - reflexivity.
  - apply straight_targets.
  - vm_compute. discriminate.
  - vm_compute. reflexivity.
Defined.

Lemma straight_proper : headers_proper straight (le_val (powLimit main_params)).
Proof.
  intros p b Hb. rewrite (straight_bits p b Hb). exists (SetCompact_ 0x1d00ffff).
  split; [vm_compute; reflexivity|]. split; [apply SetCompact_ok; lia|]. vm_compute. discriminate.
Qed.

(** After the change of the algorithm at height 20, with a function [pow] that returns its base. *)
Definition kgw_params : PowParams :=
  MkPowParams (powLimit main_params) (posLimit main_params) 90 120 310000 false false 120 28800 0 20 100.

Lemma GetNextWorkRequired_bounds_witness :
  (exists nBits, GetNextWorkRequired (fun x _ => x) straight (Some 25%nat) 400 kgw_params = Ok nBits /\
     proper (le_val (powLimit kgw_params)) nBits) /\
  GetNextWorkRequired (fun x _ => x) straight (Some 25%nat) 400 kgw_params = Ok 470927114 /\
  GetNextWorkRequired (fun x _ => x) straight (Some 25%nat) 400 main_params = Ok 0x1d00ffff.
Proof.
  split; [|split; vm_compute; reflexivity].
  destruct (straight !! 25%nat) as [b|] eqn:E; [|vm_compute in E; discriminate].
  destruct (GetNextWorkRequired_bounds (fun x _ => x) straight 25 b 400 kgw_params straight_built E straight_headers) as (nb & Hnb & Hpr).
  - apply main_limits.
  - vm_compute. split; [reflexivity|discriminate].
  - reflexivity.
  - reflexivity.
  - vm_compute. reflexivity.
  - exists nb. split; [exact Hnb|]. apply Hpr. intros _. exact straight_proper.
Defined.

Lemma CheckProofOfWork_work_witness :
  exists w, GetBlockProof 0x1d00ffff = Ok w /\ le_val (replicate 32 0) <= target_of 0x1d00ffff <= le_val (powLimit main_params) /\
    0 < target_of 0x1d00ffff /\ 0 < lval w /\ le_val (replicate 32 0) * lval w < 2 ^ 256.
Proof.
  destruct (GetBlockProof 0x1d00ffff) as [w| |] eqn:E; try (vm_compute in E; discriminate). exists w. split; [reflexivity|].
  apply (CheckProofOfWork_work (replicate 32 0) 0x1d00ffff main_params w).
  - split; [reflexivity|]. by repeat constructor.
  - apply main_limits.
  - lia.
  - vm_compute. reflexivity.
  - exact E.
Defined.
