(* ===== verification/PosKernel.v ===== *)
(** * The kernel of proof of stake

    Model of src/src/pos_kernel.cpp, of CBlockHeader::CheckBlockSignature (src/src/primitives/block.cpp),
    CPubKey::RecoverCompact (src/src/pubkey.cpp) and of GetTransaction and CheckProof
    (src/src/validation.cpp): the stake modifiers of both versions, the search and the check of a stake
    kernel, and the check of the proof of a header against the block index and the active chain.
    A [uint32_t] that takes a 64-bit value keeps its low 32 bits.  The recovery of a key from a
    signature is an operation of the curve library and a parameter. *)

From stdpp Require Import base list numbers gmap sorting.
From S2P Require Import Prelude Script Crypto Standard Serialize Transaction ArithUint256 ArithCompact Block Chain Pow.

Open Scope Z_scope.

Definition MODIFIER_INTERVAL : Z := 60.
Definition MODIFIER_INTERVAL_RATIO : Z := 3.
Definition MODIFIER_INTERVAL_SECTIONS_MAX : Z := 64.
Definition MIN_STAKE_AMOUNT : Z := COIN.
Definition MAX_POS_BLOCK_AHEAD_TIME : Z := 180.
Definition MAX_POS_BLOCK_AHEAD_SAFETY_MARGIN : Z := 5.
Definition BLOCK_VALID_SCRIPTS : Z := 5.
Definition BLOCK_STAKE_ENTROPY : Z := 2.
Definition COINBASE_MATURITY_STAKE : Z := 120.

(** ** The stake fields of an index entry *)

Definition index_nStakeModifier (b : CBlockIndex) : Z := nNonce (index_header b).
Definition StakeInput (h : CBlockHeader) : COutPoint := MkOutPoint (posStakeHash h) (posStakeN h).
Definition GetStakeEntropyBit (b : CBlockIndex) : Z := Z.shiftr (Z.land (nFlags (index_header b)) BLOCK_STAKE_ENTROPY) 1.

Definition IsGeneratedStakeModifier (t : heap) (b : CBlockIndex) : res unit bool :=
  match pprev b with
  | None => Ok false
  | Some p => prev ← deref t p;
      Ok (negb (index_IsProofOfStake prev) || negb (index_nStakeModifier prev =? index_nStakeModifier b))
  end.

Definition IsValid (status nUpTo : Z) : bool :=
  if flag status BLOCK_FAILED_MASK then false else nUpTo <=? Z.land status BLOCK_VALID_MASK.

(** ** The first stake modifier *)

(** [while (pindex && pindex->pprev && !pindex->IsGeneratedStakeModifier())]: the modifier and its time. *)
Fixpoint GetLastStakeModifier (fuel : nat) (t : heap) (pindex : ptr) : res unit (Z * Z) :=
  b ← deref t pindex;
  generated ← IsGeneratedStakeModifier t b;
  match pprev b, generated with
  | Some p, false => match fuel with O => Abort | S fuel => GetLastStakeModifier fuel t p end
  | _, _ => Ok (index_nStakeModifier b, GetBlockTime b)
  end.

Definition IntervalSection (section : Z) : Z :=
  let MI_1 := MODIFIER_INTERVAL_SECTIONS_MAX - 1 in
  (MODIFIER_INTERVAL * MI_1) / (MI_1 + (MI_1 - section) * (MODIFIER_INTERVAL_RATIO - 1)).

(** [StakeModifierSelectionIntervalHelper<Section>::value] *)
Fixpoint IntervalHelper (section : nat) : Z :=
  match section with
  | O => IntervalSection 0
  | S s => IntervalHelper s + IntervalSection (Z.of_nat section)
  end.

Definition GetStakeModifierSelectionInterval : Z := IntervalHelper (Z.to_nat (MODIFIER_INTERVAL_SECTIONS_MAX - 1)).

Section modifier.
Context {crypto : CryptoOps}.

(** The hash by which a candidate competes; a block with proof of stake is favoured. *)
Definition hashSelection (b : CBlockIndex) (nStakeModifierPrev : Z) : list Z :=
  let h := UintToArith256 (Hash (blockHash b ++ ser_writedata64 nStakeModifierPrev)) in
  if index_IsProofOfStake b then uint_shr h 32 else h.

(** The loop at position [i] of the vector; [best] is the selected block with its hash, [None] while
    fSelected is false.  The result is the selection and the vector that is left.  Selecting the first
    block starts the loop again at the second position. *)
Fixpoint SelectBlock_loop (fuel : nat) (t : heap) (v : list (Z * list Z)) (i : nat) (mapSelectedBlocks : list (list Z))
    (nSelectionIntervalStop nStakeModifierPrev : Z) (best : option (list Z * ptr))
  : res unit (option (list Z * ptr) * list (Z * list Z)) :=
  match fuel with
  | O => Abort
  | S fuel =>
      let next i best := SelectBlock_loop fuel t v i mapSelectedBlocks nSelectionIntervalStop nStakeModifierPrev best in
      match v !! i with
      | None => Ok (best, [])
      | Some (_, hash) =>
          match find_block t hash 0 with
          | None => Ok (None, v)
          | Some p =>
              b ← deref t p;
              match best with
              | Some (hashBest, _) =>
                  if nSelectionIntervalStop <? GetBlockTime b then Ok (best, drop (S i) v) else
                  if bool_decide (blockHash b ∈ mapSelectedBlocks) then next (S i) best else
                  let h := hashSelection b nStakeModifierPrev in
                  next (S i) (if uint_ltb h hashBest then Some (h, p) else best)
              | None =>
                  if bool_decide (blockHash b ∈ mapSelectedBlocks) then next (S i) None
                  else next 1%nat (Some (hashSelection b nStakeModifierPrev, p))
              end
          end
      end
  end.

(** The selected block, if any. *)
Definition SelectBlockFromCandidates (t : heap) (v : list (Z * list Z)) (mapSelectedBlocks : list (list Z))
    (nSelectionIntervalStop nStakeModifierPrev : Z) : res unit (option ptr * list (Z * list Z)) :=
  '(best, v) ← SelectBlock_loop (2 * length v + 2) t v 0 mapSelectedBlocks nSelectionIntervalStop nStakeModifierPrev None;
  Ok (option_map snd best, v).

(** [while (pindex && pindex->GetBlockTime() >= nSelectionIntervalStart)], the most recent block first. *)
Fixpoint candidates (fuel : nat) (t : heap) (pindex : option ptr) (nSelectionIntervalStart : Z) : res unit (list (Z * list Z)) :=
  match pindex with
  | None => Ok []
  | Some p =>
      b ← deref t p;
      if GetBlockTime b <? nSelectionIntervalStart then Ok [] else
      match fuel with
      | O => Abort
      | S fuel => v ← candidates fuel t (pprev b) nSelectionIntervalStart; Ok ((GetBlockTime b, blockHash b) :: v)
      end
  end.

(** [operator<] of a [uint256] is [memcmp]; of a pair it is lexicographic. *)
Fixpoint memcmp_le (a b : list Z) : bool :=
  match a, b with
  | [], _ => true
  | _, [] => false
  | x :: a, y :: b => if x <? y then true else if y <? x then false else memcmp_le a b
  end.

Definition pair_le (a b : Z * list Z) : bool :=
  if a.1 <? b.1 then true else if b.1 <? a.1 then false else memcmp_le a.2 b.2.

Definition pair_before (a b : Z * list Z) : Prop := pair_le a b = true.

#[export] Instance pair_before_dec : RelDecision pair_before.
Proof. intros a b. unfold pair_before. apply _. Defined.

(** Rounds [nRound], ... of the selection; [n] rounds are left. *)
Fixpoint modifier_rounds (n : nat) (nRound : Z) (t : heap) (v : list (Z * list Z)) (mapSelectedBlocks : list (list Z))
    (nSelectionIntervalStop nStakeModifier nStakeModifierNew : Z) : res unit Z :=
  match n with
  | O => Ok nStakeModifierNew
  | S n =>
      let stop := nSelectionIntervalStop + IntervalSection nRound in
      '(selected, v) ← SelectBlockFromCandidates t v mapSelectedBlocks stop nStakeModifier;
      match selected with
      | None => Ok nStakeModifierNew
      | Some p =>
          b ← deref t p;
          let new := u64 (Z.lor nStakeModifierNew (Z.shiftl (GetStakeEntropyBit b) nRound)) in
          modifier_rounds n (nRound + 1) t v (blockHash b :: mapSelectedBlocks) stop nStakeModifier new
      end
  end.

(** [nStakeModifier] is a [uint32_t]. *)
Definition ComputeNextStakeModifier_rounds (rounds : nat) (t : heap) (pindexPrev : option ptr) : res unit Z :=
  match pindexPrev with
  | None => Ok 0
  | Some p =>
      prev ← deref t p;
      if nHeight prev =? 0 then Ok (u32 0x1234567887654321) else
      '(nStakeModifier, nModifierTime) ← GetLastStakeModifier (S p) t p;
      if Z.quot (GetBlockTime prev) MODIFIER_INTERVAL <=? Z.quot nModifierTime MODIFIER_INTERVAL then Ok nStakeModifier else
      let start := Z.quot (GetBlockTime prev) MODIFIER_INTERVAL * MODIFIER_INTERVAL - GetStakeModifierSelectionInterval in
      v ← candidates (S p) t (Some p) start;
      new ← modifier_rounds rounds 0 t (merge_sort pair_before (reverse v)) [] start nStakeModifier 0;
      Ok (u32 new)
  end.

Definition ComputeNextStakeModifier : heap -> option ptr -> res unit Z :=
  ComputeNextStakeModifier_rounds (Z.to_nat MODIFIER_INTERVAL_SECTIONS_MAX).

(** ** The second stake modifier *)

(** [for (; p->pprev && (p->pprev->nTime > time); p = p->pprev);] *)
Fixpoint walk_back (fuel : nat) (t : heap) (p : ptr) (time : Z) : res unit ptr :=
  b ← deref t p;
  match pprev b with
  | None => Ok p
  | Some q =>
      c ← deref t q;
      if time <? h_nTime (index_header c) then
        match fuel with O => Abort | S fuel => walk_back fuel t q time end
      else Ok p
  end.

Definition MODIFIER_INTERVAL_V2 : Z := 3600.

Definition ComputeNextStakeModifierV2 (blockTime : Z) (t : heap) (pindexPrev : ptr) : res unit Z :=
  let timeMid := u32 (blockTime - MODIFIER_INTERVAL_V2 / 2) in
  let timeOld := u32 (blockTime - (MODIFIER_INTERVAL_V2 - MAX_POS_BLOCK_AHEAD_TIME)) in
  prev ← deref t pindexPrev;
  pmiddle ← walk_back (S pindexPrev) t pindexPrev timeMid;
  poldest ← walk_back (S pmiddle) t pmiddle timeOld;
  middle ← deref t pmiddle;
  oldest ← deref t poldest;
  let prevout := StakeInput (index_header prev) in
  Ok (u32 (ReadLE64 (Hash (op_hash prevout ++ ser_writedata32 (op_n prevout) ++ blockHash middle ++ blockHash oldest)))).

(** The static variables of CachedNextStakeModifierV2. *)
Record sm_cache_state : Type := MkCache { last_parent : list Z; sm_cache : gmap Z Z }.

Definition CachedNextStakeModifierV2 (cache : sm_cache_state) (blockTime : Z) (t : heap) (pindexPrev : ptr)
  : res unit (Z * sm_cache_state) :=
  prev ← deref t pindexPrev;
  let parent := blockHash prev in
  let cache := if bool_decide (last_parent cache = parent) then cache else MkCache parent ∅ in
  match sm_cache cache !! blockTime with
  | Some cached => Ok (u32 cached, cache)
  | None =>
      nStakeModifier ← ComputeNextStakeModifierV2 blockTime t pindexPrev;
      Ok (nStakeModifier, MkCache (last_parent cache) (<[blockTime := nStakeModifier]> (sm_cache cache)))
  end.

(** ** The kernel *)

(** [stakeHash] with the stream that holds the modifier. *)
Definition stakeHash (nTimeTx nStakeModifier prevoutIndex : Z) (prevoutHash : list Z) (nTimeBlockFrom : Z) : list Z :=
  Hash (ser_writedata32 nStakeModifier ++ ser_writedata32 nTimeBlockFrom ++ ser_writedata32 prevoutIndex ++ prevoutHash ++
        ser_writedata32 nTimeTx).

(** The target of a stake of [nValueIn]. *)
Definition stake_target (nValueIn nBits : Z) : res unit (list Z) :=
  let bnTargetPerCoinDay := SetCompact_ nBits in
  units ← uint_div_assign (of_u64 (u64 nValueIn)) (of_u64 100);
  let bnTarget := uint_mul units bnTargetPerCoinDay in
  Ok (if uint_ltb bnTarget bnTargetPerCoinDay then uint_not (of_u64 0) else bnTarget).

Definition with_time (h : CBlockHeader) (nTime : Z) : CBlockHeader :=
  MkHeader (h_nVersion h) (hashPrevBlock h) (hashMerkleRoot h) nTime (nBits h) (nNonce h) (posStakeHash h) (posStakeN h)
    (vchBlockSig h) (nFlags h).

Definition with_modifier (h : CBlockHeader) (nStakeModifier : Z) : CBlockHeader :=
  MkHeader (h_nVersion h) (hashPrevBlock h) (hashMerkleRoot h) (h_nTime h) (nBits h) nStakeModifier (posStakeHash h)
    (posStakeN h) (vchBlockSig h) (nFlags h).

(** What a call returns and leaves: the answer, the header, hashProofOfStake (which is null before the call
    at every call site) and the cache. *)
Record kernel_result : Type := MkKernel {
  found : bool;
  current : CBlockHeader;
  hashProofOfStake : list Z;
  cache : sm_cache_state
}.

(** [for (auto try_time = min_time; try_time < max_time; ++try_time)]: [k] times are left. *)
Fixpoint search_times (k : nat) (try_time : Z) (t : heap) (blockPrev : ptr) (h : CBlockHeader) (prevout : COutPoint)
    (nTimeBlockFrom : Z) (bnTarget proof : list Z) (c : sm_cache_state) : res unit kernel_result :=
  match k with
  | O => Ok (MkKernel false h proof c)
  | S k =>
      '(h, c) ← (if header_IsProofOfStakeV2 h
                 then '(m, c) ← CachedNextStakeModifierV2 c try_time t blockPrev; Ok (with_modifier h m, c)
                 else Ok (h, c));
      let proof := stakeHash try_time (nNonce h) (op_n prevout) (op_hash prevout) nTimeBlockFrom in
      if uint_geb (UintToArith256 proof) bnTarget
      then search_times k (try_time + 1) t blockPrev h prevout nTimeBlockFrom bnTarget proof c
      else Ok (MkKernel true (with_time h try_time) proof c)
  end.

(** [adjusted] is GetAdjustedTime() and [min_age] is Params().MinStakeAge(). *)
Definition CheckStakeKernelHash (adjusted min_age : Z) (t : heap) (h : CBlockHeader) (blockPrev blockFrom : ptr)
    (txPrev : CTransaction) (prevout : COutPoint) (nHashDrift : Z) (fCheck : bool) (c : sm_cache_state)
  : res unit kernel_result :=
  let stop h := Ok (MkKernel false h null_hash c) in
  from ← deref t blockFrom;
  nValueIn ← match vout txPrev !! Z.to_nat (op_n prevout) with Some o => Ok (nValue o) | None => Abort end;
  let nTimeBlockFrom := h_nTime (index_header from) in
  if nValueIn <? MIN_STAKE_AMOUNT then stop h else
  if h_nTime h <? nTimeBlockFrom then stop h else
  if h_nTime h <? nTimeBlockFrom + min_age then stop h else
  bnTarget ← stake_target nValueIn (nBits h);
  required ← (if header_IsProofOfStakeV2 h
              then (if fCheck then ComputeNextStakeModifierV2 (h_nTime h) t blockPrev else Ok 0)
              else ComputeNextStakeModifier t (Some blockFrom));
  if fCheck && negb (nNonce h =? required) then stop h else
  let h := if fCheck then h else with_modifier h required in
  let proof := stakeHash (h_nTime h) (nNonce h) (op_n prevout) (op_hash prevout) nTimeBlockFrom in
  if fCheck then Ok (MkKernel (uint_ltb (UintToArith256 proof) bnTarget) h proof c) else
  let min_time := h_nTime h in
  let max_time := Z.min (u32 (min_time + nHashDrift)) (adjusted + MAX_POS_BLOCK_AHEAD_TIME - MAX_POS_BLOCK_AHEAD_SAFETY_MARGIN) in
  search_times (Z.to_nat (max_time - min_time)) min_time t blockPrev h prevout nTimeBlockFrom bnTarget proof c.

End modifier.

(** ** The proof of a header *)

(** The reject reasons; the last group is reported as transient. *)
Inductive pos_error : Type :=
| bad_pow_proof | bad_pos_sig | bad_unkown_stake | bad_stake_mempool | bad_prev_header | bad_fork_point
| bad_stake_after_fork | bad_header_double_spent | bad_stake_coinbase_maturity | bad_pos_input | bad_blk_sig | bad_pos_proof
| tmp_bad_unkown_stake | tmp_bad_stake_mempool.

(** A call that does not reject; an exception is not caught here. *)
Definition lift {A : Type} (r : res unit A) : res pos_error A :=
  match r with Ok a => Ok a | _ => Abort end.

(** What CheckProofOfStake reads besides the header and the index. *)
Record pos_env : Type := MkPosEnv {
  chainActive : CChain;
  mempool_get : list Z -> option CTransaction;
  (** the transaction index, when it is enabled: the transaction and the hash of its block *)
  g_txindex : option (list Z -> option (CTransaction * list Z));
  min_age : Z;
  env_pow : PowParams;
  (** parse a compact signature with its recovery id and recover the key from the hash *)
  secp256k1_recover : list Z -> Z -> list Z -> bool -> option (list Z)
}.

(** GetTransaction without a block: a transaction of the memory pool leaves the hash of the block null. *)
Definition GetTransaction (env : pos_env) (hash : list Z) : option (CTransaction * list Z) :=
  match mempool_get env hash with
  | Some tx => Some (tx, null_hash)
  | None => match g_txindex env with Some FindTx => FindTx hash | None => None end
  end.

Definition COMPACT_SIGNATURE_SIZE : Z := 65.

(** The key is left as it was when no key is recovered. *)
Definition RecoverCompact (env : pos_env) (pubkey hash vchSig : list Z) : bool * list Z :=
  if negb (zlen vchSig =? COMPACT_SIGNATURE_SIZE) then (false, pubkey) else
  let recid := Z.land (vget vchSig 0 - 27) 3 in
  let fComp := negb (Z.land (vget vchSig 0 - 27) 4 =? 0) in
  match secp256k1_recover env (drop 1 vchSig) recid hash fComp with
  | None => (false, pubkey)
  | Some pub => (true, CPubKey pub)
  end.

Section proof_of_stake.
Context {crypto : CryptoOps}.

(** [posPubKey] is the memory-only key of the header. *)
Definition CheckBlockSignature (env : pos_env) (posPubKey : list Z) (h : CBlockHeader) (key_id : list Z) : bool :=
  if negb (header_IsProofOfStake h) then true else
  if zlen (vchBlockSig h) =? 0 then false else
  let posPubKey := snd (RecoverCompact env posPubKey (header_GetHash h) (vchBlockSig h)) in
  if negb (PubKey_IsValid posPubKey) then false else bool_decide (PubKey_GetID posPubKey = key_id).

(** Whether the block of [hash] is known and in the active chain. *)
Definition in_active_chain (env : pos_env) (t : heap) (hash : list Z) : option ptr :=
  match find_block t hash 0 with
  | Some p => if Contains t (chainActive env) p then Some p else None
  | None => None
  end.

(** Whether the previous block of the header is known and in the active chain. *)
Definition prev_active (env : pos_env) (t : heap) (h : CBlockHeader) : bool :=
  match in_active_chain env t (hashPrevBlock h) with Some _ => true | None => false end.

(** The loop over the headers of a fork.  After every turn the walker is the predecessor of the fork
    point, so it does not change after the first one and a third turn means that the loop does not end. *)
Fixpoint stake_walk (fuel : nat) (t : heap) (pindex_walk : option ptr) (pindex_fork : ptr) (prevout : COutPoint)
  : res pos_error unit :=
  if bool_decide (pindex_walk = Some pindex_fork) then Ok tt else
  match fuel, pindex_walk with
  | S fuel, Some w =>
      b ← lift (deref t w);
      if negb (index_IsProofOfStake b) || IsValid (nStatus b) BLOCK_VALID_SCRIPTS then Ok tt else
      if bool_decide (prevout = StakeInput (index_header b)) then Err bad_header_double_spent else
      fork ← lift (deref t pindex_fork);
      stake_walk fuel t (pprev fork) pindex_fork prevout
  | _, _ => Abort
  end.

(** The key the stake output pays to. *)
Definition stake_key_id (spk : list Z) : res pos_error (list Z) :=
  let '(whichType, vSolutions) := Solver spk in
  match whichType with
  | TX_PUBKEYHASH => v ← lift (solution vSolutions 0); lift (uint160 v)
  | TX_PUBKEY => v ← lift (solution vSolutions 0); Ok (PubKey_GetID (CPubKey v))
  | _ => Err bad_pos_input
  end.

(** Accepts with hashProofOfStake. *)
Definition CheckProofOfStake (env : pos_env) (t : heap) (posPubKey : list Z) (h : CBlockHeader) : res pos_error (list Z) :=
  if zlen (vchBlockSig h) =? 0 then Err bad_pos_sig else
  let prevout := StakeInput h in
  '(txinPrev, txinHashBlock) ← match GetTransaction env (op_hash prevout) with
    | Some r => Ok r
    | None => Err (if prev_active env t h then bad_unkown_stake else tmp_bad_unkown_stake)
    end;
  pindex_tx ← match in_active_chain env t txinHashBlock with
    | Some p => Ok p
    | None => Err (if prev_active env t h then bad_stake_mempool else tmp_bad_stake_mempool)
    end;
  pindex_prev ← match find_block t (hashPrevBlock h) 0 with Some p => Ok p | None => Err bad_prev_header end;
  fork ← lift (FindFork t (chainActive env) (Some pindex_prev));
  pindex_fork ← match fork with Some p => Ok p | None => Err bad_fork_point end;
  fork ← lift (deref t pindex_fork);
  tx ← lift (deref t pindex_tx);
  if nHeight fork <? nHeight tx then Err bad_stake_after_fork else
  _ ← stake_walk 3 t (Some pindex_prev) pindex_fork prevout;
  tip ← lift (match Tip (chainActive env) with Some p => deref t p | None => Abort end);
  if IsCoinBase txinPrev && (nHeight tip - nHeight tx <=? COINBASE_MATURITY_STAKE) then Err bad_stake_coinbase_maturity else
  out ← match vout txinPrev !! Z.to_nat (op_n prevout) with Some o => Ok o | None => Abort end;
  key_id ← stake_key_id (scriptPubKey out);
  if negb (CheckBlockSignature env posPubKey h key_id) then Err bad_blk_sig else
  r ← lift (CheckStakeKernelHash 0 (min_age env) t h pindex_prev pindex_tx txinPrev prevout 0 true (MkCache null_hash ∅));
  if negb (found r) then Err bad_pos_proof else Ok (hashProofOfStake r).

(** CheckProof of a header: the proof of a stake of the first version is not checked. *)
Definition CheckProof (env : pos_env) (t : heap) (posPubKey : list Z) (h : CBlockHeader) : res pos_error unit :=
  if negb (flag (nFlags h) BLOCK_PROOF_OF_STAKE || header_IsProofOfStakeV2 h) then
    if negb (CheckProofOfWork (header_GetPoWHash h) (nBits h) (env_pow env)) && negb (h_nTime h =? 1541202300)
    then Err bad_pow_proof else Ok tt
  else if header_IsProofOfStakeV2 h then _ ← CheckProofOfStake env t posPubKey h; Ok tt
  else Ok tt.

(** CBlockIndex::GetBlockHeader *)
Definition index_GetBlockHeader (t : heap) (b : CBlockIndex) : res unit CBlockHeader :=
  prev ← match pprev b with None => Ok null_hash | Some p => q ← deref t p; Ok (blockHash q) end;
  let h := index_header b in
  Ok (MkHeader (h_nVersion h) prev (hashMerkleRoot h) (h_nTime h) (nBits h) (nNonce h) (posStakeHash h) (posStakeN h)
        (vchBlockSig h) (nFlags h)).

(** CheckProof of an index entry. *)
Definition CheckProof_index (env : pos_env) (t : heap) (index : ptr) : res pos_error unit :=
  b ← lift (deref t index);
  if negb (index_IsProofOfStake b) then
    if negb (CheckProofOfWork (blockHash b) (nBits (index_header b)) (env_pow env)) && negb (GetBlockTime b =? 1541202300)
    then Err bad_pow_proof else Ok tt
  else
    h ← lift (index_GetBlockHeader t b);
    _ ← CheckProofOfStake env t [] h; Ok tt.

End proof_of_stake.
