(* ===== verification/PosKernelSpec.v ===== *)
(** * Properties of proof of stake

    The stake modifiers are computed on every index without following a null pointer; a stake that the
    search finds passes the check of a node, through the cache of modifiers; a header whose proof is
    accepted stakes an output of its own branch that is large and old enough, is signed by the owner of
    the output and meets the target for its value; the selection of blocks takes the candidate with the
    least hash, and only the first 32 of its 64 rounds count; the search for a second use of a stake in
    the headers of a fork looks at one header only. *)

From stdpp Require Import base list numbers gmap sorting.
From S2P Require Import Prelude Script Crypto Standard Serialize Transaction ArithUint256 ArithCompact Block Chain ChainSpec Pow PowSpec PosKernel.

Open Scope Z_scope.

(** ** The second modifier and its cache *)

Section modifier_v2.
Context {crypto : CryptoOps}.

Lemma walk_back_total t fuel p b time :
  heap_wf t -> t !! p = Some b -> (p < fuel)%nat ->
  exists q c, walk_back fuel t p time = Ok q /\ t !! q = Some c /\ (q <= p)%nat.
Proof.
  intros wf. revert p b; induction fuel as [|fuel IH]; intros p b Hp Hf; [lia|]. cbn [walk_back].
  rewrite (deref_Some t p b Hp). cbn [mbind res_bind]. destruct (wf p b Hp) as (Hprev & _ & _).
  destruct (pprev b) as [q|]; [|by exists p, b]. destruct Hprev as (c & Hc & Hlt & _).
  rewrite (deref_Some t q c Hc). cbn [mbind res_bind]. case_bool; [|by exists p, b].
  destruct (IH q c Hc) as (q' & c' & -> & Hc' & Hle); [lia|]. exists q', c'. split_and!; [done|done|lia].
Qed.

Lemma ComputeNextStakeModifierV2_total t p b time :
  heap_wf t -> t !! p = Some b -> exists m, ComputeNextStakeModifierV2 time t p = Ok m /\ unsigned 32 m.
Proof.
  intros wf Hp. unfold ComputeNextStakeModifierV2. rewrite (deref_Some t p b Hp). cbn [mbind res_bind].
  destruct (walk_back_total t (S p) p b (u32 (time - MODIFIER_INTERVAL_V2 / 2)) wf Hp) as (q & c & -> & Hc & _); [lia|].
  cbn [mbind res_bind]. rewrite (deref_Some t q c Hc).
  destruct (walk_back_total t (S q) q c (u32 (time - (MODIFIER_INTERVAL_V2 - MAX_POS_BLOCK_AHEAD_TIME))) wf Hc) as (r & d & -> & Hd & _); [lia|].
  cbn [mbind res_bind]. rewrite (deref_Some t r d Hd). cbn [mbind res_bind]. eexists. split; [done|]. by apply Z.mod_pos_bound.
Qed.

(** The index only grows at its end, and a modifier looks at ancestors only. *)
Lemma deref_app t t' p b : t !! p = Some b -> deref (t ++ t') p = deref t p.
Proof. intros Hp. rewrite !(deref_Some _ p b) by (done || by apply lookup_app_l_Some). done. Qed.

Lemma walk_back_app t t' fuel p b time :
  heap_wf t -> t !! p = Some b -> walk_back fuel (t ++ t') p time = walk_back fuel t p time.
Proof.
  intros wf. revert p b; induction fuel as [|fuel IH]; intros p b Hp; cbn [walk_back];
    rewrite (deref_app t t' p b Hp), (deref_Some t p b Hp); cbn [mbind res_bind]; destruct (wf p b Hp) as (Hprev & _ & _);
    (destruct (pprev b) as [q|]; [|done]); destruct Hprev as (c & Hc & _);
    rewrite (deref_app t t' q c Hc), (deref_Some t q c Hc); cbn [mbind res_bind]; case_bool; [done|done| |done].
  by apply (IH q c).
Qed.

Lemma ComputeNextStakeModifierV2_app t t' p b time :
  heap_wf t -> t !! p = Some b -> ComputeNextStakeModifierV2 time (t ++ t') p = ComputeNextStakeModifierV2 time t p.
Proof.
  intros wf Hp. unfold ComputeNextStakeModifierV2. rewrite (deref_app t t' p b Hp), (deref_Some t p b Hp). cbn [mbind res_bind].
  rewrite (walk_back_app t t' _ p b) by done.
  destruct (walk_back_total t (S p) p b (u32 (time - MODIFIER_INTERVAL_V2 / 2)) wf Hp) as (q & c & -> & Hc & _); [lia|].
  cbn [mbind res_bind]. rewrite (walk_back_app t t' _ q c) by done.
  destruct (walk_back_total t (S q) q c (u32 (time - (MODIFIER_INTERVAL_V2 - MAX_POS_BLOCK_AHEAD_TIME))) wf Hc) as (r & d & -> & Hd & _); [lia|].
  cbn [mbind res_bind]. by rewrite (deref_app t t' q c Hc), (deref_app t t' r d Hd).
Qed.

Lemma find_block_app t t' hash i p : find_block t hash i = Some p -> find_block (t ++ t') hash i = Some p.
Proof. revert i; induction t as [|b t IH]; intros i; cbn; [done|]. case_bool_decide; [done|]. apply IH. Qed.

(** The entry of the block map for a hash. *)
Definition indexed (t : heap) (p : ptr) (b : CBlockIndex) : Prop :=
  t !! p = Some b /\ find_block t (blockHash b) 0 = Some p.

(** The cache holds the modifiers of one block of the index. *)
Definition cache_ok (t : heap) (c : sm_cache_state) : Prop :=
  sm_cache c = ∅ \/
  exists p b, indexed t p b /\ blockHash b = last_parent c /\
    forall time m, sm_cache c !! time = Some m -> ComputeNextStakeModifierV2 time t p = Ok m.

Lemma modifier_cache_ok_app t t' c : heap_wf t -> cache_ok t c -> cache_ok (t ++ t') c.
Proof.
  intros wf [?|(p & b & [Hp Hf] & Hb & Hc)]; [by left|right]. exists p, b. split_and!; [|done|].
  - split; [by apply lookup_app_l_Some|by apply find_block_app].
  - intros time m Hm. rewrite (ComputeNextStakeModifierV2_app t t' p b) by done. by apply Hc.
Qed.

Lemma CachedNextStakeModifierV2_spec t c p b time :
  heap_wf t -> indexed t p b -> cache_ok t c ->
  exists m c', CachedNextStakeModifierV2 c time t p = Ok (m, c') /\ ComputeNextStakeModifierV2 time t p = Ok m /\
    unsigned 32 m /\ cache_ok t c'.
Proof.
  intros wf [Hp Hf] Hc. destruct (ComputeNextStakeModifierV2_total t p b time wf Hp) as (m & Hm & Hr).
  unfold CachedNextStakeModifierV2. rewrite (deref_Some t p b Hp). cbn [mbind res_bind].
  set (c0 := if bool_decide (last_parent c = blockHash b) then c else MkCache (blockHash b) ∅).
  assert (Hc0 : last_parent c0 = blockHash b /\ forall time m, sm_cache c0 !! time = Some m -> ComputeNextStakeModifierV2 time t p = Ok m).
  { unfold c0. case_bool_decide as Hl; [|split; [done|cbn; intros ? ?; by rewrite lookup_empty]]. split; [done|].
    destruct Hc as [He|(p' & b' & [Hp' Hf'] & Hb' & Hc)]; [intros ? ?; by rewrite He, lookup_empty|].
    rewrite Hb', Hl in Hf'. rewrite Hf in Hf'. by injection Hf' as ->. }
  destruct Hc0 as [Hl Hc0]. destruct (sm_cache c0 !! time) as [m'|] eqn:Em.
  - apply Hc0 in Em. rewrite Hm in Em. injection Em as ->. exists m', c0. split_and!; [|done|done|].
    + do 2 f_equal. by apply Z.mod_small.
    + right. exists p, b. done.
  - rewrite Hm. cbn [mbind res_bind]. eexists _, _. split_and!; [done|done|done|]. right. exists p, b. split_and!; [done|done|].
    cbn [sm_cache]. intros time' m' [[<- <-]|[_ H]]%lookup_insert_Some; [done|by apply Hc0].
Qed.

(** ** The search and the check *)

Lemma with_time_fields h time :
  header_IsProofOfStakeV2 (with_time h time) = header_IsProofOfStakeV2 h /\ nBits (with_time h time) = nBits h /\
  nNonce (with_time h time) = nNonce h /\ h_nTime (with_time h time) = time.
Proof. done. Qed.

(** The search changes the modifier and the time of the header, to a pair that belongs together. *)
Lemma search_times_spec t k try_time blockPrev b h prevout from target proof c r :
  heap_wf t -> indexed t blockPrev b -> cache_ok t c ->
  search_times k try_time t blockPrev h prevout from target proof c = Ok r ->
  cache_ok t (cache r) /\
  (found r = true -> exists time m,
     try_time <= time < try_time + Z.of_nat k /\ current r = with_time (with_modifier h m) time /\
     (if header_IsProofOfStakeV2 h then ComputeNextStakeModifierV2 time t blockPrev = Ok m else m = nNonce h) /\
     hashProofOfStake r = stakeHash time m (op_n prevout) (op_hash prevout) from /\
     uint_geb (UintToArith256 (hashProofOfStake r)) target = false).
Proof.
  intros wf Hb. revert try_time h proof c; induction k as [|k IH]; intros try_time h proof c Hc H; cbn [search_times] in H.
  { injection H as <-. by split. }
  assert (Hstep : exists m c', (if header_IsProofOfStakeV2 h
      then '(m, c) ← CachedNextStakeModifierV2 c try_time t blockPrev; Ok (with_modifier h m, c) else Ok (h, c)) =
      Ok (with_modifier h m, c') /\ cache_ok t c' /\
      (if header_IsProofOfStakeV2 h then ComputeNextStakeModifierV2 try_time t blockPrev = Ok m else m = nNonce h)).
  { destruct (header_IsProofOfStakeV2 h).
    - destruct (CachedNextStakeModifierV2_spec t c blockPrev b try_time wf Hb Hc) as (m & c' & -> & Hm & _ & Hc').
      exists m, c'. by cbn [mbind res_bind].
    - exists (nNonce h), c. by destruct h. }
  destruct Hstep as (m & c' & Hs & Hc' & Hm). rewrite Hs in H. cbn [mbind res_bind] in H. clear Hs.
  change (nNonce (with_modifier h m)) with m in H. destruct (uint_geb _ target) eqn:E in H.
  - destruct (IH _ _ _ _ Hc' H) as [Hr Hf]. split; [done|]. intros Hfound.
    destruct (Hf Hfound) as (time & m' & Ht & Hcur & Hm' & Hp & Hg). exists time, m'. split; [lia|]. split; [done|].
    change (header_IsProofOfStakeV2 (with_modifier h m)) with (header_IsProofOfStakeV2 h) in Hm'. split; [|done].
    destruct (header_IsProofOfStakeV2 h); [done|]. cbn in Hm'. congruence.
  - injection H as <-. split; [done|]. intros _. exists try_time, m. cbn [hashProofOfStake current]. split_and!; try done; lia.
Qed.

(** The result of the search, whatever its answer. *)
Lemma kernel_search_spec adjusted age t h blockPrev b blockFrom from txPrev prevout drift c r :
  heap_wf t -> indexed t blockPrev b -> t !! blockFrom = Some from -> cache_ok t c ->
  CheckStakeKernelHash adjusted age t h blockPrev blockFrom txPrev prevout drift false c = Ok r ->
  cache_ok t (cache r) /\
  (found r = true -> exists time m o target,
     vout txPrev !! Z.to_nat (op_n prevout) = Some o /\ MIN_STAKE_AMOUNT <= nValue o /\
     h_nTime (index_header from) <= h_nTime h <= time /\ h_nTime (index_header from) + age <= h_nTime h /\
     stake_target (nValue o) (nBits h) = Ok target /\ current r = with_time (with_modifier h m) time /\
     (if header_IsProofOfStakeV2 h then ComputeNextStakeModifierV2 time t blockPrev
      else ComputeNextStakeModifier t (Some blockFrom)) = Ok m /\
     hashProofOfStake r = stakeHash time m (op_n prevout) (op_hash prevout) (h_nTime (index_header from)) /\
     uint_ltb (UintToArith256 (hashProofOfStake r)) target = true).
Proof.
  intros wf Hb Hf Hc H. unfold CheckStakeKernelHash in H. rewrite (deref_Some t blockFrom from Hf) in H. cbn [mbind res_bind] in H.
  destruct (vout txPrev !! Z.to_nat (op_n prevout)) as [o|] eqn:Eo; [|done]. cbn [mbind res_bind] in H.
  destruct (nValue o <? MIN_STAKE_AMOUNT) eqn:E1 in H; [by injection H as <-|].
  destruct (h_nTime h <? h_nTime (index_header from)) eqn:E2 in H; [by injection H as <-|].
  destruct (h_nTime h <? h_nTime (index_header from) + age) eqn:E3 in H; [by injection H as <-|].
  destruct (stake_target (nValue o) (nBits h)) as [target| |] eqn:Et; try done. cbn [mbind res_bind andb] in H.
  set (req := if header_IsProofOfStakeV2 h then Ok 0 else ComputeNextStakeModifier t (Some blockFrom)) in H.
  destruct req as [required| |] eqn:Er; try done. cbn [mbind res_bind] in H.
  destruct (search_times_spec t _ _ _ b _ _ _ _ _ _ _ wf Hb Hc H) as [Hcache Hfound]. split; [done|]. intros Hr.
  destruct (Hfound Hr) as (time & m & Ht & Hcur & Hm & Hp & Hg). exists time, m, o, target. bprop.
  change (h_nTime (with_modifier h required)) with (h_nTime h) in Ht. split_and!; try done; try lia.
  - subst req. change (header_IsProofOfStakeV2 (with_modifier h required)) with (header_IsProofOfStakeV2 h) in Hm.
    destruct (header_IsProofOfStakeV2 h); [done|]. by rewrite Er, Hm.
  - unfold uint_geb in Hg. unfold uint_ltb. bprop. by apply Z.ltb_lt.
Qed.

End modifier_v2.

(** C13: a stake the wallet finds is a stake the nodes accept.  When the search of CheckStakeKernelHash
    succeeds, the header it leaves, with its new time and modifier, passes the check for the same coin at
    any later moment and with the same proof hash, for both versions of the modifier; the modifiers the
    search took from the cache are those the check computes, and the cache stays coherent. *)
Theorem stake_found_is_accepted {crypto : CryptoOps} adjusted adjusted' age t h blockPrev b blockFrom from txPrev prevout drift c c' r :
  heap_wf t -> indexed t blockPrev b -> t !! blockFrom = Some from -> cache_ok t c ->
  CheckStakeKernelHash adjusted age t h blockPrev blockFrom txPrev prevout drift false c = Ok r -> found r = true ->
  cache_ok t (cache r) /\
  CheckStakeKernelHash adjusted' age t (current r) blockPrev blockFrom txPrev prevout 0 true c' =
    Ok (MkKernel true (current r) (hashProofOfStake r) c').
Proof.
  intros wf Hb Hf Hc H Hr. destruct (kernel_search_spec _ _ _ _ _ _ _ _ _ _ _ _ _ wf Hb Hf Hc H) as [Hcache Hspec].
  split; [done|]. destruct (Hspec Hr) as (time & m & o & target & Ho & Hmin & Ht & Hage & Htg & -> & Hm & -> & Hlt).
  unfold CheckStakeKernelHash. rewrite (deref_Some t blockFrom from Hf). cbn [mbind res_bind]. rewrite Ho. cbn [mbind res_bind].
  cbn [with_time with_modifier h_nTime nBits nNonce andb negb]. rewrite !(proj2 (Z.ltb_ge _ _)) by lia. rewrite Htg. cbn [mbind res_bind].
  change (header_IsProofOfStakeV2 _) with (header_IsProofOfStakeV2 h). rewrite Hm. cbn [mbind res_bind].
  by rewrite Z.eqb_refl, Hlt.
Qed.

(** ** The proof of a header *)

(** The target for a stake of value [v] at the target [T] per hundred units: the product, or everything
    when the product does not fit. *)
Definition stake_limit (v T : Z) : Z :=
  let p := (v / 100 * T) mod MOD256 in if p <? T then MOD256 - 1 else p.

Lemma stake_target_val v bits :
  0 <= v < 2 ^ 63 -> 0 <= bits < 2 ^ 32 ->
  exists target, stake_target v bits = Ok target /\ uint_ok target /\ lval target = stake_limit v (target_of bits).
Proof.
  intros Hv Hb. unfold stake_target, u64. rewrite Z.mod_small by lia.
  destruct (of_u64_ok v ltac:(lia)) as [Hvo Hvv]. destruct (of_u64_ok 100 ltac:(lia)) as [Hho Hhv].
  pose proof (uint_div_val _ _ Hvo Hho) as Hd. rewrite Hhv, Hvv in Hd. destruct Hd as (q & Hq & Hqo & Hqv).
  unfold uint_div_assign. rewrite Hq. cbn [mbind res_bind]. pose proof (SetCompact_ok bits Hb) as Ho.
  destruct (uint_mul_val q _ Hqo Ho) as [Hmo Hmv]. destruct (of_u64_ok 0 ltac:(lia)) as [Hzo Hzv].
  destruct (uint_not_val _ Hzo) as [Hno Hnv]. eexists. split; [done|]. rewrite uint_ltb_val, Hmv, Hqv by done.
  unfold stake_limit, target_of. destruct (_ <? _); [split; [done|]; rewrite Hnv, Hzv; lia|]. split; [done|]. by rewrite Hmv, Hqv.
Qed.

(** What the proof of a header stands for: the staked transaction [tx] and its output [o], the block
    [p_tx] it is in, the previous block [p_prev] of the header and the key [pub] of its signature. *)
Record valid_stake {crypto : CryptoOps} (env : pos_env) (t : heap) (h : CBlockHeader) (tx : CTransaction) (o : CTxOut)
    (p_prev p_tx : ptr) (b_tx : CBlockIndex) (pub : list Z) : Prop := {
  stake_known : exists blk, GetTransaction env (posStakeHash h) = Some (tx, blk) /\ find_block t blk 0 = Some p_tx;
  stake_prev : find_block t (hashPrevBlock h) 0 = Some p_prev;
  (** the stake is in the branch that the header extends *)
  stake_branch : t !! p_tx = Some b_tx /\ ancestor t p_prev (nHeight b_tx) = Some p_tx;
  stake_output : vout tx !! Z.to_nat (posStakeN h) = Some o;
  stake_amount : MIN_STAKE_AMOUNT <= nValue o;
  stake_age : h_nTime (index_header b_tx) + min_age env <= h_nTime h;
  stake_mature : IsCoinBase tx = true -> forall tip b, Tip (chainActive env) = Some tip -> t !! tip = Some b ->
    COINBASE_MATURITY_STAKE < nHeight b - nHeight b_tx;
  stake_signed : RecoverCompact env [] (header_GetHash h) (vchBlockSig h) = (true, pub);
  stake_owner : scriptPubKey o = GetScriptForDestination (CKeyID (PubKey_GetID pub)) \/
    exists k, scriptPubKey o = GetScriptForRawPubKey k /\ PubKey_GetID k = PubKey_GetID pub;
  stake_modifier : ComputeNextStakeModifierV2 (h_nTime h) t p_prev = Ok (nNonce h);
  stake_work : le_val (stakeHash (h_nTime h) (nNonce h) (posStakeN h) (posStakeHash h) (h_nTime (index_header b_tx))) <
    stake_limit (nValue o) (target_of (nBits h))
}.

Lemma lift_Ok {A : Type} (r : res unit A) a : lift r = Ok a -> r = Ok a.
Proof. destruct r; cbn; by intros [= ->]. Qed.

Lemma CheckBlockSignature_spec {crypto : CryptoOps} env h id :
  header_IsProofOfStakeV2 h = true -> CheckBlockSignature env [] h id = true ->
  exists pub, RecoverCompact env [] (header_GetHash h) (vchBlockSig h) = (true, pub) /\ PubKey_GetID pub = id.
Proof.
  intros Hv2 H. unfold CheckBlockSignature in H.
  assert (Hpos : header_IsProofOfStake h = true).
  { unfold header_IsProofOfStake. apply orb_true_iff. right. unfold header_IsProofOfStakeV2, version_PoSV2 in Hv2. bprop.
    apply negb_true_iff, Z.eqb_neq. intros H0. apply (f_equal (fun x => Z.testbit x 28)) in H0, Hv2.
    rewrite Z.land_spec in H0, Hv2. change (Z.testbit POSV2_BITS 28) with true in Hv2. change (Z.testbit POS_BIT 28) with true in H0.
    rewrite andb_true_r in *. by rewrite Hv2 in H0. }
  rewrite Hpos in H. cbn [negb] in H. destruct (zlen (vchBlockSig h) =? 0); [done|].
  destruct (RecoverCompact env [] (header_GetHash h) (vchBlockSig h)) as [ok pub] eqn:Er. cbn [snd] in H.
  destruct (PubKey_IsValid pub) eqn:Ev; [|done]. cbn [negb] in H. apply bool_decide_eq_true in H. exists pub. split; [|done].
  revert Er. unfold RecoverCompact. destruct (negb _); [intros [= <- <-]; done|]. destruct (secp256k1_recover env _ _ _ _); intros [= <- <-]; done.
Qed.

Lemma stake_key_id_spec {crypto : CryptoOps} spk id :
  stake_key_id spk = Ok id ->
  spk = GetScriptForDestination (CKeyID id) \/ exists k, spk = GetScriptForRawPubKey k /\ PubKey_GetID k = id.
Proof.
  unfold stake_key_id. pose proof (Solver_solution_shape spk) as Hs. destruct (Solver spk) as [[] v]; cbn [solution_shape] in Hs; try done.
  - destruct Hs as (k & -> & Hk & ->). cbn. rewrite CPubKey_valid_id by done. intros [= <-]. right. by exists k.
  - destruct Hs as (h & -> & Hh & ->). cbn. unfold uint160, zlen. rewrite Hh. cbn. intros [= <-]. by left.
Qed.

(** The check of the kernel with [fCheck], for a header of the second version. *)
Lemma kernel_check_spec {crypto : CryptoOps} adjusted age t h blockPrev blockFrom from tx prevout c r :
  t !! blockFrom = Some from -> header_IsProofOfStakeV2 h = true ->
  CheckStakeKernelHash adjusted age t h blockPrev blockFrom tx prevout 0 true c = Ok r -> found r = true ->
  exists o target, vout tx !! Z.to_nat (op_n prevout) = Some o /\ MIN_STAKE_AMOUNT <= nValue o /\
    h_nTime (index_header from) + age <= h_nTime h /\ stake_target (nValue o) (nBits h) = Ok target /\
    ComputeNextStakeModifierV2 (h_nTime h) t blockPrev = Ok (nNonce h) /\
    uint_ltb (UintToArith256 (stakeHash (h_nTime h) (nNonce h) (op_n prevout) (op_hash prevout) (h_nTime (index_header from)))) target = true.
Proof.
  intros Hf Hv2 H Hr. unfold CheckStakeKernelHash in H. rewrite (deref_Some t blockFrom from Hf) in H. cbn [mbind res_bind] in H.
  destruct (vout tx !! Z.to_nat (op_n prevout)) as [o|] eqn:Eo; [|done]. cbn [mbind res_bind] in H.
  destruct (nValue o <? MIN_STAKE_AMOUNT) eqn:E1 in H; [by injection H as <-|].
  destruct (h_nTime h <? h_nTime (index_header from)) eqn:E2 in H; [by injection H as <-|].
  destruct (h_nTime h <? h_nTime (index_header from) + age) eqn:E3 in H; [by injection H as <-|].
  destruct (stake_target (nValue o) (nBits h)) as [target| |] eqn:Et; try done. cbn [mbind res_bind andb] in H.
  rewrite Hv2 in H. destruct (ComputeNextStakeModifierV2 (h_nTime h) t blockPrev) as [m| |] eqn:Em; try done. cbn [mbind res_bind] in H.
  destruct (nNonce h =? m) eqn:En; cbn [negb] in H; [|by injection H as <-]. injection H as <-. cbn [found] in Hr. bprop. subst m.
  exists o, target. done.
Qed.

(** A block of the active chain below the fork point is an ancestor on the other branch too. *)
Lemma fork_shares_ancestors t c tip p bp fork bf q bq :
  heap_wf t -> chain_of t c tip -> t !! p = Some bp -> is_last_common t p tip (Some fork) -> t !! fork = Some bf ->
  t !! q = Some bq -> Contains t c q = true -> nHeight bq <= nHeight bf -> ancestor t p (nHeight bq) = Some q.
Proof.
  intros wf Hc Hp (bf' & Hf' & Hfp & Hft & _) Hf Hq Hcont Hle. rewrite Hf in Hf'. injection Hf' as <-.
  pose proof Hc as (bt & Ht & _ & _). assert (Hfb : nHeight bf <= nHeight bt).
  { destruct (Z.le_gt_cases (nHeight bf) (nHeight bt)); [done|]. by rewrite (ancestor_above t tip bt) in Hft by done. }
  rewrite (Contains_spec t wf c tip bt q bq) in Hcont by (done || lia). apply bool_decide_eq_true in Hcont.
  rewrite <- (ancestor_trans t wf p bp (nHeight bf) fork) by done. by rewrite (ancestor_trans t wf tip bt (nHeight bf) fork).
Qed.

Lemma Hash_limit {crypto : CryptoOps} {laws : CryptoLaws crypto} v : limit_ok (Hash v).
Proof. split; [apply sha256_size|apply sha256_bytes]. Qed.

(** The guards of CheckProofOfStake that an accepted header has passed. *)
Lemma CheckProofOfStake_Ok {crypto : CryptoOps} env t h proof :
  heap_wf t -> CheckProofOfStake env t [] h = Ok proof ->
  exists tx blk p_tx b_tx p_prev fork bf o id r,
    GetTransaction env (posStakeHash h) = Some (tx, blk) /\
    find_block t blk 0 = Some p_tx /\ Contains t (chainActive env) p_tx = true /\ t !! p_tx = Some b_tx /\
    find_block t (hashPrevBlock h) 0 = Some p_prev /\
    FindFork t (chainActive env) (Some p_prev) = Ok (Some fork) /\ t !! fork = Some bf /\ nHeight b_tx <= nHeight bf /\
    (IsCoinBase tx = true -> forall tip b, Tip (chainActive env) = Some tip -> t !! tip = Some b ->
       COINBASE_MATURITY_STAKE < nHeight b - nHeight b_tx) /\
    vout tx !! Z.to_nat (posStakeN h) = Some o /\ stake_key_id (scriptPubKey o) = Ok id /\
    CheckBlockSignature env [] h id = true /\
    CheckStakeKernelHash 0 (min_age env) t h p_prev p_tx tx (StakeInput h) 0 true (MkCache null_hash ∅) = Ok r /\ found r = true.
Proof.
  intros wf H. unfold CheckProofOfStake in H. destruct (zlen (vchBlockSig h) =? 0); [done|].
  apply bind_Ok in H as ([tx blk] & Hg & H). cbn [StakeInput op_hash op_n] in Hg, H.
  destruct (GetTransaction env (posStakeHash h)) as [[tx' blk']|]; [|done]. injection Hg as -> ->.
  apply bind_Ok in H as (p_tx & Htx & H). unfold in_active_chain in Htx at 1.
  destruct (find_block t blk 0) as [p|] eqn:Ef; [|done]. destruct (Contains t (chainActive env) p) eqn:Ec; [|done]. injection Htx as ->.
  apply bind_Ok in H as (p_prev & Hprev & H). destruct (find_block t (hashPrevBlock h) 0) as [pp|] eqn:Epp; [|done]. injection Hprev as ->.
  apply bind_Ok in H as (fk & Hfk & H). apply lift_Ok in Hfk. apply bind_Ok in H as (fork & Hfork & H).
  destruct fk as [fk|]; [|done]. injection Hfork as ->. apply bind_Ok in H as (bf & Hbf & H). apply lift_Ok in Hbf.
  apply bind_Ok in H as (b_tx & Hbtx & H). apply lift_Ok in Hbtx. destruct (nHeight bf <? nHeight b_tx) eqn:Eh; [done|].
  apply bind_Ok in H as (_ & _ & H). apply bind_Ok in H as (tip & Htip & H). apply lift_Ok in Htip.
  destruct (IsCoinBase tx && (nHeight tip - nHeight b_tx <=? COINBASE_MATURITY_STAKE)) eqn:Em; [done|].
  apply bind_Ok in H as (o & Ho & H). destruct (vout tx !! Z.to_nat (posStakeN h)) as [o'|] eqn:Eo; [|done]. injection Ho as ->.
  apply bind_Ok in H as (id & Hid & H). destruct (CheckBlockSignature env [] h id) eqn:Es; [|done]. cbn [negb] in H.
  apply bind_Ok in H as (r & Hr & H). apply lift_Ok in Hr. destruct (found r) eqn:Efound; [|done].
  assert (Hd : forall q x, deref t q = Ok x -> t !! q = Some x) by (intros q x; unfold deref; destruct (t !! q); congruence).
  exists tx, blk, p_tx, b_tx, p_prev, fork, bf, o, id, r. bprop. split_and!; try done; try (by apply Hd).
  intros Hcb tp b Htp Hb. rewrite Htp in Htip. apply Hd in Htip. rewrite Hb in Htip. injection Htip as <-. rewrite Hcb in Em. cbn [andb] in Em. by apply Z.leb_gt.
Qed.

(** A stake of the first version is accepted as it is. *)
Lemma CheckProof_v1_unchecked {crypto : CryptoOps} env t posPubKey h :
  flag (nFlags h) BLOCK_PROOF_OF_STAKE = true -> header_IsProofOfStakeV2 h = false -> CheckProof env t posPubKey h = Ok tt.
Proof. intros Hf Hv. unfold CheckProof. by rewrite Hf, Hv. Qed.

(** C12: what CheckProof demands of a header that was read from a peer, so that no public key is cached with it.  A
    header without proof of stake has a proof of work, or the one time that is excepted.  A header of the
    second version of proof of stake stakes an output of the branch that it extends, at least
    MIN_STAKE_AMOUNT in value and of the required age and maturity; it is signed by the owner of that
    output, carries the modifier of its branch, and its stake hash is below the target weighted with the
    value of the output.  Of a stake of the first version nothing is demanded. *)
Theorem CheckProof_stake_valid {crypto : CryptoOps} {laws : CryptoLaws crypto} env t h tip :
  heap_wf t -> chain_of t (chainActive env) tip ->
  (forall hash tx blk, GetTransaction env hash = Some (tx, blk) -> Forall (fun o => nValue o < 2 ^ 63) (vout tx)) ->
  unsigned 32 (nBits h) ->
  CheckProof env t [] h = Ok tt ->
  (flag (nFlags h) BLOCK_PROOF_OF_STAKE = false -> header_IsProofOfStakeV2 h = false ->
   CheckProofOfWork (header_GetPoWHash h) (nBits h) (env_pow env) = true \/ h_nTime h = 1541202300) /\
  (header_IsProofOfStakeV2 h = true -> exists tx o p_prev p_tx b_tx pub, valid_stake env t h tx o p_prev p_tx b_tx pub).
Proof.
  intros wf Hc Hval Hbits H. unfold CheckProof in H. split.
  { intros Hf Hv. rewrite Hf, Hv in H. cbn [negb orb] in H. destruct (CheckProofOfWork _ _ _); [by left|right].
    destruct (Z.eqb_spec (h_nTime h) 1541202300); done. }
  intros Hv2. rewrite Hv2, orb_true_r in H. cbn [negb] in H.
  apply bind_Ok in H as (proof & H & _). destruct (CheckProofOfStake_Ok env t h proof wf H) as
    (tx & blk & p_tx & b_tx & p_prev & fork & bf & o & id & r & Hg & Hftx & Hcont & Hbtx & Hfp & Hfk & Hbf & Hle & Hmat & Ho & Hid & Hsig & Hk & Hfound).
  apply find_block_Some in Hfp as Hp. destruct Hp as (bp & Hp & _). rewrite Nat.sub_0_r in Hp.
  destruct (FindFork_spec t wf _ tip p_prev bp Hc Hp) as (fk & Hfk' & Hlast). rewrite Hfk in Hfk'. injection Hfk' as <-.
  destruct (CheckBlockSignature_spec env h id Hv2 Hsig) as (pub & Hpub & Hown).
  destruct (kernel_check_spec _ _ _ _ _ _ b_tx _ _ _ _ Hbtx Hv2 Hk Hfound) as (o' & target & Ho' & Hmin & Hage & Htg & Hmod & Hlt).
  cbn [StakeInput op_n op_hash] in *. rewrite Ho in Ho'. injection Ho' as <-.
  pose proof (Forall_lookup_1 _ _ _ _ (Hval _ _ _ Hg) Ho) as Hnv. cbn beta in Hnv.
  destruct (stake_target_val (nValue o) (nBits h)) as (target' & Htg' & Hto & Htv);
    [unfold MIN_STAKE_AMOUNT, COIN in Hmin; lia|done|]. rewrite Htg in Htg'. injection Htg' as <-.
  match type of Hlt with uint_ltb (UintToArith256 ?x) _ = _ => destruct (UintToArith256_val x (Hash_limit _)) as [Hxo Hxv] end.
  rewrite uint_ltb_val, Hxv, Htv in Hlt by done. bprop.
  exists tx, o, p_prev, p_tx, b_tx, pub. constructor; try done.
  - eauto.
  - split; [done|]. by apply (fork_shares_ancestors t (chainActive env) tip p_prev bp fork bf).
  - rewrite Hown. by apply stake_key_id_spec.
Qed.

(** ** The selection of blocks for the first modifier *)

Section selection.
Context {crypto : CryptoOps} {laws : CryptoLaws crypto}.

(** A candidate: the time and the hash of an entry of the block map. *)
Definition candidate (t : heap) (e : Z * list Z) : Prop := exists p b, indexed t p b /\ e = (GetBlockTime b, blockHash b).

Definition selection_value (b : CBlockIndex) (m : Z) : Z := lval (hashSelection b m).

Lemma hashSelection_ok b m : uint_ok (hashSelection b m).
Proof.
  unfold hashSelection. match goal with |- context [Hash ?x] => destruct (UintToArith256_val _ (Hash_limit x)) as [Ho _] end.
  destruct (index_IsProofOfStake b); [|done]. by apply uint_shr_val.
Qed.

(** The block [p] is selected so far: it is not in [sel], and its hash is the least of those at the first
    [i] positions. *)
Definition selected_upto (t : heap) (v : list (Z * list Z)) (i : nat) (sel : list (list Z)) (stop m : Z) (h : list Z) (p : ptr) : Prop :=
  exists b, indexed t p b /\ (GetBlockTime b, blockHash b) ∈ v /\ (blockHash b ∉ sel) /\ h = hashSelection b m /\
    (GetBlockTime b <= stop \/ (forall e, e ∈ v -> e.2 ∉ sel -> stop < e.1)) /\
    forall j c q, (j < i)%nat -> indexed t q c -> v !! j = Some (GetBlockTime c, blockHash c) -> blockHash c ∉ sel ->
      selection_value b m <= selection_value c m.

(** The result of the selection: nothing when every candidate is used, else the least of those in time. *)
Definition selection_result (t : heap) (v : list (Z * list Z)) (sel : list (list Z)) (stop m : Z) (r : option ptr) : Prop :=
  match r with
  | None => forall e, e ∈ v -> e.2 ∈ sel
  | Some p => exists b, indexed t p b /\ (GetBlockTime b, blockHash b) ∈ v /\ (blockHash b ∉ sel) /\
      (GetBlockTime b <= stop \/ (forall e, e ∈ v -> e.2 ∉ sel -> stop < e.1)) /\
      forall c q, indexed t q c -> (GetBlockTime c, blockHash c) ∈ v -> blockHash c ∉ sel -> GetBlockTime c <= stop ->
        selection_value b m <= selection_value c m
  end.

Definition by_time (a b : Z * list Z) : Prop := a.1 <= b.1.

Lemma sorted_lookup v i j a b :
  StronglySorted by_time v -> v !! i = Some a -> v !! j = Some b -> (i <= j)%nat -> a.1 <= b.1.
Proof.
  intros Hs Ha Hb Hij. destruct (Nat.eq_dec i j) as [->|Hne]; [rewrite Ha in Hb; injection Hb as <-; lia|].
  revert i j Ha Hb Hij Hne. induction Hs as [|x v Hs IH Hall]; intros i j Ha Hb Hij Hne; [done|].
  destruct j as [|j]; [lia|]. destruct i as [|i]; cbn in *.
  - injection Ha as <-. rewrite Forall_forall in Hall. apply Hall. by apply list_elem_of_lookup_2 in Hb.
  - apply (IH i j); try done; lia.
Qed.

Lemma indexed_unique t p q b c : indexed t p b -> indexed t q c -> blockHash b = blockHash c -> p = q /\ b = c.
Proof.
  intros [Hp Hf] [Hq Hg] He. rewrite He, Hg in Hf. injection Hf as ->. rewrite Hp in Hq. by injection Hq as <-.
Qed.

(** After the first selection the loop compares the rest with it. *)
Lemma SelectBlock_loop_some fuel t v i sel stop m h p :
  Forall (candidate t) v -> StronglySorted by_time v -> (i <= length v)%nat -> (length v < fuel + i)%nat ->
  selected_upto t v i sel stop m h p ->
  exists h' q v', SelectBlock_loop fuel t v i sel stop m (Some (h, p)) = Ok (Some (h', q), v') /\
    selection_result t v sel stop m (Some q) /\ v' `suffix_of` v.
Proof.
  intros Hv Hs. revert i h p; induction fuel as [|fuel IH]; intros i h p Hi Hf Hsel; [lia|]. cbn [SelectBlock_loop].
  destruct (v !! i) as [[time hash]|] eqn:Ei; destruct Hsel as (b & Hb & Hin & Hns & -> & Htime & Hleast).
  2: { exists (hashSelection b m), p, []. split_and!; [done| |by apply suffix_nil]. exists b. split_and!; try done.
       intros c q Hc Hcv Hcs Hct. apply list_elem_of_lookup in Hcv as (j & Hj). apply (Hleast j c q); try done.
       apply lookup_ge_None in Ei. apply lookup_lt_Some in Hj. lia. }
  apply lookup_lt_Some in Ei as Hlt. destruct (Forall_lookup_1 _ _ _ _ Hv Ei) as (q & c & Hc & [= -> ->]).
  rewrite (proj2 Hc). cbn [mbind res_bind]. rewrite (deref_Some t q c (proj1 Hc)). cbn [mbind res_bind].
  destruct (stop <? GetBlockTime c) eqn:Est.
  { eexists _, p, _. split_and!; [done| |by exists (take (S i) v); rewrite take_drop]. exists b. split_and!; try done.
    intros d r Hd Hdv Hds Hdt. apply list_elem_of_lookup in Hdv as (j & Hj). apply (Hleast j d r); try done.
    destruct (Nat.lt_ge_cases j i) as [?|Hge]; [done|]. pose proof (sorted_lookup v i j _ _ Hs Ei Hj Hge) as Ht. cbn in Ht. bprop. lia. }
  bprop. assert (Hskip : forall h p, selected_upto t v (S i) sel stop m h p ->
    exists h' q v', SelectBlock_loop fuel t v (S i) sel stop m (Some (h, p)) = Ok (Some (h', q), v') /\
      selection_result t v sel stop m (Some q) /\ v' `suffix_of` v) by (intros; apply IH; [lia|lia|done]).
  case_bool_decide as Hcs; [|rewrite uint_ltb_val by apply hashSelection_ok; destruct (Z.ltb_spec (lval (hashSelection c m)) (lval (hashSelection b m)))];
    apply Hskip.
  - exists b. split_and!; try done. intros j d r Hj Hd Hdv Hds.
    destruct (Nat.eq_dec j i) as [->|?]; [|by apply (Hleast j d r); [lia|..]]. rewrite Ei in Hdv. by injection Hdv as _ Hdh; rewrite <- Hdh in Hds.
  - exists c. split_and!; try done; [by apply list_elem_of_lookup_2 in Ei|by left|]. intros j d r Hj Hd Hdv Hds. unfold selection_value.
    destruct (Nat.eq_dec j i) as [->|?]; [|assert (selection_value b m <= selection_value d m) by (by apply (Hleast j d r); [lia|..]); unfold selection_value in *; lia].
    rewrite Ei in Hdv. injection Hdv as _ Hdh. destruct (indexed_unique t q r c d Hc Hd Hdh) as [-> ->]. lia.
  - exists b. split_and!; try done. intros j d r Hj Hd Hdv Hds.
    destruct (Nat.eq_dec j i) as [->|?]; [|by apply (Hleast j d r); [lia|..]]. rewrite Ei in Hdv. injection Hdv as _ Hdh.
    destruct (indexed_unique t q r c d Hc Hd Hdh) as [-> ->]. done.
Qed.

(** Before it, all candidates up to [i] are used. *)
Lemma SelectBlock_loop_none fuel t v i sel stop m :
  Forall (candidate t) v -> StronglySorted by_time v -> (i <= length v)%nat -> (2 * length v + 1 < fuel + i)%nat ->
  (forall j e, (j < i)%nat -> v !! j = Some e -> e.2 ∈ sel) ->
  exists best v', SelectBlock_loop fuel t v i sel stop m None = Ok (best, v') /\
    selection_result t v sel stop m (option_map snd best) /\ v' `suffix_of` v.
Proof.
  intros Hv Hs. revert i; induction fuel as [|fuel IH]; intros i Hi Hf Hused; [lia|]. cbn [SelectBlock_loop].
  destruct (v !! i) as [[time hash]|] eqn:Ei.
  2: { exists None, []. split_and!; [done| |by apply suffix_nil]. cbn. intros e He. apply list_elem_of_lookup in He as (j & Hj).
       apply (Hused j e); [|done]. apply lookup_ge_None in Ei. apply lookup_lt_Some in Hj. lia. }
  apply lookup_lt_Some in Ei as Hlt. destruct (Forall_lookup_1 _ _ _ _ Hv Ei) as (q & c & Hc & [= -> ->]).
  rewrite (proj2 Hc). cbn [mbind res_bind]. rewrite (deref_Some t q c (proj1 Hc)). cbn [mbind res_bind].
  case_bool_decide as Hcs.
  - apply IH; [lia|lia|]. intros j e Hj He. destruct (Nat.eq_dec j i) as [->|?]; [|apply (Hused j e); [lia|done]].
    rewrite Ei in He. by injection He as <-.
  - destruct (SelectBlock_loop_some fuel t v 1 sel stop m (hashSelection c m) q Hv Hs) as (h' & r & v' & -> & Hr & Hsuf); [lia|lia| |].
    + exists c. split_and!; try done; [by apply list_elem_of_lookup_2 in Ei| |].
      * destruct (Z.le_gt_cases (GetBlockTime c) stop); [by left|right]. intros e He Hes. apply list_elem_of_lookup in He as (j & Hj).
        destruct (Nat.lt_ge_cases j i) as [Hji|Hge]; [by destruct Hes; apply (Hused j e)|].
        pose proof (sorted_lookup v i j _ _ Hs Ei Hj Hge) as Ht. cbn in Ht. lia.
      * intros j d r Hj Hd Hdv Hds. destruct (Nat.eq_dec j i) as [->|?].
        -- rewrite Ei in Hdv. injection Hdv as _ Hdh. destruct (indexed_unique t q r c d Hc Hd Hdh) as [-> ->]. done.
        -- destruct Hds. apply (Hused j (GetBlockTime d, blockHash d)); [lia|done].
    + exists (Some (h', r)), v'. done.
Qed.

Lemma SelectBlockFromCandidates_spec t v sel stop m :
  Forall (candidate t) v -> StronglySorted by_time v ->
  exists r v', SelectBlockFromCandidates t v sel stop m = Ok (r, v') /\ selection_result t v sel stop m r /\ v' `suffix_of` v.
Proof.
  intros Hv Hs. unfold SelectBlockFromCandidates.
  destruct (SelectBlock_loop_none (2 * length v + 2) t v 0 sel stop m Hv Hs) as (best & v' & -> & Hr & Hsuf); [lia|lia|lia|].
  cbn [mbind res_bind]. eauto.
Qed.

(** ** The rounds *)

Lemma suffix_candidates t v v' :
  v' `suffix_of` v -> Forall (candidate t) v -> StronglySorted by_time v -> Forall (candidate t) v' /\ StronglySorted by_time v'.
Proof.
  intros [k ->] [_ Hv]%Forall_app Hs. split; [done|]. clear Hv. induction k as [|x k IH]; [done|]. apply IH. by inversion Hs.
Qed.

(** A round, as long as something is selected. *)
Lemma modifier_rounds_total n nRound t v sel stop m new :
  Forall (candidate t) v -> StronglySorted by_time v -> unsigned 64 new ->
  exists r, modifier_rounds n nRound t v sel stop m new = Ok r /\ unsigned 64 r.
Proof.
  revert nRound v sel stop new; induction n as [|n IH]; intros nRound v sel stop new Hv Hs Hn; cbn [modifier_rounds]; [by exists new|].
  destruct (SelectBlockFromCandidates_spec t v sel (stop + IntervalSection nRound) m Hv Hs) as (r & v' & -> & Hr & Hsuf).
  cbn [mbind res_bind]. destruct r as [p|]; [|by exists new]. destruct Hr as (b & Hb & _). rewrite (deref_Some t p b (proj1 Hb)).
  cbn [mbind res_bind]. destruct (suffix_candidates t v v' Hsuf Hv Hs) as [Hv' Hs']. apply IH; [done|done|]. by apply Z.mod_pos_bound.
Qed.

Lemma u32_lor_high x y k : 32 <= k -> 0 <= y -> u32 (u64 (Z.lor x (Z.shiftl y k))) = u32 x.
Proof.
  intros Hk Hy. unfold u32, u64. rewrite <- !Z.land_ones by lia. apply Z.bits_inj'. intros i Hi.
  rewrite !Z.land_spec, Z.lor_spec, !Z.testbit_ones_nonneg by lia.
  destruct (Z.ltb_spec i 32); [|by rewrite !andb_false_r]. rewrite (proj2 (Z.ltb_lt i 64)), !andb_true_r by lia.
  rewrite Z.shiftl_spec_low by lia. by rewrite orb_false_r.
Qed.

(** From round 32 on the low 32 bits do not change. *)
Lemma modifier_rounds_high n nRound t v sel stop m new r :
  32 <= nRound -> modifier_rounds n nRound t v sel stop m new = Ok r -> u32 r = u32 new.
Proof.
  revert nRound v sel stop new; induction n as [|n IH]; intros nRound v sel stop new Hk H; cbn [modifier_rounds] in H; [by injection H as ->|].
  apply bind_Ok in H as ([s v'] & _ & H). destruct s as [p|]; [|by injection H as ->]. apply bind_Ok in H as (b & _ & H).
  apply IH in H; [|lia]. rewrite H. apply u32_lor_high; [done|]. unfold GetStakeEntropyBit. apply Z.shiftr_nonneg, Z.land_nonneg. by right.
Qed.

Lemma modifier_rounds_32 n k nRound t v sel stop m new r r' :
  nRound + Z.of_nat n = 32 -> modifier_rounds (n + k) nRound t v sel stop m new = Ok r ->
  modifier_rounds n nRound t v sel stop m new = Ok r' -> u32 r = u32 r'.
Proof.
  revert nRound v sel stop new; induction n as [|n IH]; intros nRound v sel stop new Hn Hr Hr'; cbn [modifier_rounds Nat.add] in Hr, Hr'.
  { injection Hr' as <-. by apply modifier_rounds_high in Hr; [|lia]. }
  apply bind_Ok in Hr as ([s v'] & Hsel & Hr). rewrite Hsel in Hr'. cbn [mbind res_bind] in Hr'.
  destruct s as [p|]; [|congruence]. apply bind_Ok in Hr as (b & Hb & Hr). rewrite Hb in Hr'. cbn [mbind res_bind] in Hr'.
  eapply IH; [|exact Hr|exact Hr']. lia.
Qed.

(** The candidates are entries of the index, and sorted. *)
Lemma memcmp_le_total a b : memcmp_le a b = true \/ memcmp_le b a = true.
Proof.
  revert b; induction a as [|x a IH]; intros [|y b]; cbn; auto.
  destruct (Z.ltb_spec x y), (Z.ltb_spec y x); auto; lia.
Qed.

#[local] Instance pair_le_total : Total pair_before.
Proof.
  intros [x a] [y b]. unfold pair_before, pair_le. cbn. destruct (Z.ltb_spec x y), (Z.ltb_spec y x); auto using memcmp_le_total.
Qed.

Lemma merge_sort_by_time v : StronglySorted by_time (merge_sort pair_before v).
Proof.
  apply Sorted_StronglySorted; [intros ? ? ?; unfold by_time; lia|].
  pose proof (Sorted_merge_sort pair_before v) as Hs. induction Hs as [|a l _ IH Hhd]; [constructor|].
  constructor; [done|]. destruct Hhd as [|b l Hle]; constructor. unfold pair_before, pair_le, by_time in *.
  destruct (Z.ltb_spec a.1 b.1); [lia|]. destruct (Z.ltb_spec b.1 a.1); [done|lia].
Qed.

Definition all_indexed (t : heap) : Prop := forall p b, t !! p = Some b -> indexed t p b.

Lemma candidates_total fuel t p start :
  heap_wf t -> all_indexed t -> match p with Some p => (p < fuel)%nat /\ is_Some (t !! p) | None => True end ->
  exists v, candidates fuel t p start = Ok v /\ Forall (candidate t) v.
Proof.
  intros wf Hall. revert p; induction fuel as [|fuel IH]; intros [p|] Hp; cbn [candidates]; try (by exists []); [lia|].
  destruct Hp as [Hlt [b Hb]]. rewrite (deref_Some t p b Hb). cbn [mbind res_bind]. case_bool; [by exists []|].
  destruct (wf p b Hb) as (Hprev & _ & _). destruct (IH (pprev b)) as (v & -> & Hv).
  { destruct (pprev b) as [q|]; [|done]. destruct Hprev as (c & Hc & Hq & _). split; [lia|by exists c]. }
  cbn [mbind res_bind]. eexists. split; [done|]. constructor; [|done]. exists p, b. split; [by apply Hall|done].
Qed.

Lemma GetLastStakeModifier_total fuel t p b :
  heap_wf t -> t !! p = Some b -> (p < fuel)%nat ->
  exists m time, GetLastStakeModifier fuel t p = Ok (m, time) /\ exists c q, t !! q = Some c /\ m = index_nStakeModifier c.
Proof.
  intros wf. revert p b; induction fuel as [|fuel IH]; intros p b Hp Hf; [lia|]. cbn [GetLastStakeModifier].
  rewrite (deref_Some t p b Hp). cbn [mbind res_bind]. unfold IsGeneratedStakeModifier. destruct (wf p b Hp) as (Hprev & _ & _).
  destruct (pprev b) as [q|]; [|by cbn; eauto 8]. destruct Hprev as (c & Hc & Hlt & _). rewrite (deref_Some t q c Hc). cbn [mbind res_bind].
  destruct (_ || _); [by eauto 8|]. apply (IH q c Hc). lia.
Qed.

End selection.

(** The first stake modifier is computed on every index without following a null pointer, and only the
    first 32 of the 64 rounds of the selection count: the modifier is the same when the last 32 rounds
    are left out. *)
Theorem stake_modifier_32_rounds {crypto : CryptoOps} {laws : CryptoLaws crypto} t p b :
  heap_wf t -> all_indexed t -> (forall q c, t !! q = Some c -> unsigned 32 (index_nStakeModifier c)) -> t !! p = Some b ->
  exists m, ComputeNextStakeModifier t (Some p) = Ok m /\ unsigned 32 m /\ ComputeNextStakeModifier_rounds 32 t (Some p) = Ok m.
Proof.
  intros wf Hall Hmod Hp. unfold ComputeNextStakeModifier, ComputeNextStakeModifier_rounds. rewrite (deref_Some t p b Hp). cbn [mbind res_bind].
  case_bool; [by eexists|]. destruct (GetLastStakeModifier_total (S p) t p b wf Hp) as (m & time & -> & c & q & Hc & ->); [lia|].
  cbn [mbind res_bind]. case_bool; [by eexists; split; [done|]; split; [apply (Hmod q)|]|].
  match goal with |- context [candidates ?f t (Some p) ?s] => destruct (candidates_total f t (Some p) s wf Hall) as (v & -> & Hv) end.
  { split; [lia|by exists b]. }
  cbn [mbind res_bind]. set (sorted := merge_sort _ _).
  assert (Hsv : Forall (candidate t) sorted).
  { unfold sorted. by rewrite merge_sort_Permutation, reverse_Permutation. }
  assert (Hss : StronglySorted by_time sorted) by apply merge_sort_by_time.
  match goal with |- context [modifier_rounds 32 0 t sorted [] ?st ?k 0] =>
    destruct (modifier_rounds_total 32 0 t sorted [] st k 0 Hsv Hss ltac:(done)) as (r & Hr & _);
    destruct (modifier_rounds_total 64 0 t sorted [] st k 0 Hsv Hss ltac:(done)) as (r' & Hr' & _) end.
  change (Z.to_nat MODIFIER_INTERVAL_SECTIONS_MAX) with 64%nat. rewrite Hr, Hr'. cbn [mbind res_bind].
  rewrite (modifier_rounds_32 32 32 0 _ _ _ _ _ _ r' r eq_refl Hr' Hr). eexists. split_and!; [done| |done]. by apply Z.mod_pos_bound.
Qed.

(** SelectBlockFromCandidates always returns: it selects none only when every candidate is used, and
    otherwise a candidate that is not used and whose selection hash, divided by 2^32 for a block with proof
    of stake, is the least of all unused candidates up to the end of the interval. *)
Theorem SelectBlockFromCandidates_least {crypto : CryptoOps} {laws : CryptoLaws crypto} t v sel stop m :
  Forall (candidate t) v -> StronglySorted by_time v ->
  exists r v', SelectBlockFromCandidates t v sel stop m = Ok (r, v') /\ selection_result t v sel stop m r.
Proof.
  intros Hv Hs. destruct (SelectBlockFromCandidates_spec t v sel stop m Hv Hs) as (r & v' & Hr & Hres & _). eauto.
Qed.

(** ** The headers of a fork *)

(** C39: The loop that looks for a second use of a stake in the headers of a fork looks at the last header
    only: when the predecessor of the fork point is validated, as every block of the active chain is, the
    answer is that for the last header alone, whatever stakes the other headers of the fork use. *)
Theorem fork_walk_checks_last_header t p b fork bf q bq prevout :
  heap_wf t -> t !! p = Some b -> p <> fork -> t !! fork = Some bf -> pprev bf = Some q -> t !! q = Some bq ->
  IsValid (nStatus bq) BLOCK_VALID_SCRIPTS = true ->
  stake_walk 3 t (Some p) fork prevout =
  (if negb (index_IsProofOfStake b) || IsValid (nStatus b) BLOCK_VALID_SCRIPTS then Ok tt
   else if bool_decide (prevout = StakeInput (index_header b)) then Err bad_header_double_spent else Ok tt).
Proof.
  intros wf Hp Hne Hf Hq Hbq Hv. cbn [stake_walk]. rewrite (bool_decide_false (Some p = Some fork)) by congruence.
  rewrite (deref_Some t p b Hp), (deref_Some t fork bf Hf). cbn [lift mbind res_bind]. case_bool; [done|]. case_bool_decide; [done|].
  rewrite Hq. destruct (wf fork bf Hf) as (Hprev & _). rewrite Hq in Hprev. destruct Hprev as (? & _ & Hlt & _).
  rewrite (bool_decide_false (Some q = Some fork)) by (intros [= ->]; lia).
  rewrite (deref_Some t q bq Hbq). cbn [lift mbind res_bind]. by rewrite Hv, orb_true_r.
Qed.

(** C38: CheckProofOfStake reads the staked output without comparing its index with the number of outputs:
    a header that passes the checks of the fork and names an output that does not exist stops the node. *)
Theorem stake_index_unchecked {crypto : CryptoOps} env t h key tx blk p_tx b_tx p_prev fork bf tip bt :
  vchBlockSig h <> [] -> GetTransaction env (posStakeHash h) = Some (tx, blk) -> IsCoinBase tx = false ->
  in_active_chain env t blk = Some p_tx -> t !! p_tx = Some b_tx -> find_block t (hashPrevBlock h) 0 = Some p_prev ->
  FindFork t (chainActive env) (Some p_prev) = Ok (Some fork) -> t !! fork = Some bf -> nHeight b_tx <= nHeight bf ->
  stake_walk 3 t (Some p_prev) fork (StakeInput h) = Ok tt ->
  Tip (chainActive env) = Some tip -> t !! tip = Some bt -> zlen (vout tx) <= posStakeN h ->
  CheckProofOfStake env t key h = Abort.
Proof.
  intros Hsig Hg Hcb Hin Hbtx Hfp Hfk Hbf Hle Hw Htip Hbt Hn. unfold CheckProofOfStake.
  assert (Hz : (zlen (vchBlockSig h) =? 0) = false).
  { apply Z.eqb_neq. unfold zlen. destruct (vchBlockSig h); [done|]. cbn [length]. lia. }
  rewrite Hz. cbn [StakeInput op_hash op_n]. rewrite Hg. cbn [mbind res_bind]. rewrite Hin. cbn [mbind res_bind]. rewrite Hfp. cbn [mbind res_bind].
  rewrite Hfk. cbn [lift mbind res_bind]. rewrite (deref_Some t fork bf Hbf), (deref_Some t p_tx b_tx Hbtx). cbn [lift mbind res_bind].
  rewrite (proj2 (Z.ltb_ge _ _)) by done. change (MkOutPoint (posStakeHash h) (posStakeN h)) with (StakeInput h). rewrite Hw. cbn [mbind res_bind].
  rewrite Htip, (deref_Some t tip bt Hbt). cbn [lift mbind res_bind]. rewrite Hcb. cbn [andb].
  rewrite lookup_ge_None_2; [done|]. unfold zlen in Hn. lia.
Qed.

(** ** A fork of two headers for the witnesses

    Three validated blocks, and two headers with proof of stake on the second of them. *)

Definition pow_entry (k height time : Z) (prev : option ptr) : CBlockIndex :=
  MkIndex (replicate 32 k) prev None height (of_u64 0) 5 time 0
    (MkHeader 2 (replicate 32 (k - 1)) null_hash time 0x1d00ffff (7 * k) null_hash 0 [] (2 * (k mod 2))).

Definition stake_entry (k height time n : Z) (prev : option ptr) : CBlockIndex :=
  MkIndex (replicate 32 k) prev None height (of_u64 0) 2 time 0
    (MkHeader 0x18000000 (replicate 32 (k - 1)) null_hash time 0x2100ffff 28 (replicate 32 9) n [1] 3).

Definition staked : heap :=
  [pow_entry 1 0 0 None; pow_entry 2 1 1000 (Some 0%nat); pow_entry 3 2 2000 (Some 1%nat);
   stake_entry 4 2 2500 0 (Some 1%nat); stake_entry 5 3 3000 1 (Some 3%nat)].

Lemma staked_lookup (P : ptr -> CBlockIndex -> Prop) :
  P 0%nat (pow_entry 1 0 0 None) -> P 1%nat (pow_entry 2 1 1000 (Some 0%nat)) -> P 2%nat (pow_entry 3 2 2000 (Some 1%nat)) ->
  P 3%nat (stake_entry 4 2 2500 0 (Some 1%nat)) -> P 4%nat (stake_entry 5 3 3000 1 (Some 3%nat)) ->
  forall p b, staked !! p = Some b -> P p b.
Proof. intros ????? p b H. do 5 (destruct p as [|p]; [by injection H as <-|]). done. Qed.

Lemma staked_wf : heap_wf staked.
Proof.
  intros p b. apply (staked_lookup (entry_wf staked)); (split; [|split; [vm_compute; discriminate|done]]);
    [reflexivity|eexists; split; [reflexivity|split; [lia|reflexivity]]..].
Qed.

Lemma staked_indexed : all_indexed staked.
Proof. intros p b. apply (staked_lookup (indexed staked)); split; vm_compute; reflexivity. Qed.

(** The staked transaction: two outputs of one coin, in the genesis block. *)
Definition stake_key : list Z := 2 :: replicate 32 1.

Definition stake_tx : CTransaction :=
  let out := MkTxOut COIN (GetScriptForDestination (CKeyID (PubKey_GetID (crypto := sum_crypto) stake_key))) in
  MkTransaction [MkTxIn (MkOutPoint (replicate 32 8) 0) [] 0] [out; out] 2 0 0 0 [].

Definition stake_env : pos_env :=
  MkPosEnv [Some 0%nat; Some 1%nat; Some 2%nat] (fun _ => None)
    (Some (fun hash => if bool_decide (hash = replicate 32 9) then Some (stake_tx, replicate 32 1) else None))
    28800 main_params (fun _ _ _ _ => Some stake_key).

(** A header on the fork that uses the output [n]. *)
Definition stake_header (nonce n : Z) : CBlockHeader :=
  MkHeader 0x18000000 (replicate 32 5) null_hash 40000 0x2100ffff nonce (replicate 32 9) n (replicate 65 27) 1.

Definition staked_modifier : Z :=
  match ComputeNextStakeModifierV2 (crypto := sum_crypto) 40000 staked 4 with Ok m => m | _ => 0 end.

Lemma stake_chain : chain_of staked (chainActive stake_env) 2.
Proof.
  exists (pow_entry 3 2 2000 (Some 1%nat)). split_and!; [reflexivity|reflexivity|]. intros i Hi. cbn in Hi.
  assert (i = 0 \/ i = 1 \/ i = 2) as [->|[->| ->]] by lia; reflexivity.
Qed.

(** The proof of the header is accepted although it stakes the output of the first header of its fork. *)
Lemma CheckProof_stake_valid_witness :
  (exists tx o p_prev p_tx b_tx pub,
     valid_stake (crypto := sum_crypto) stake_env staked (stake_header staked_modifier 0) tx o p_prev p_tx b_tx pub) /\
  StakeInput (stake_header staked_modifier 0) = StakeInput (index_header (stake_entry 4 2 2500 0 (Some 1%nat))).
Proof.
  split; [|reflexivity].
  apply (CheckProof_stake_valid stake_env staked (stake_header staked_modifier 0) 2 staked_wf stake_chain).
  - intros hash tx blk. unfold GetTransaction. cbn [mempool_get g_txindex stake_env]. case_bool_decide; [|done].
    intros [= <- _]. by repeat constructor.
  - split; vm_compute; done.
  - vm_compute. reflexivity.
  - reflexivity.
Defined.

Lemma fork_walk_checks_last_header_witness :
  stake_walk 3 staked (Some 4%nat) 1 (StakeInput (stake_header 0 0)) = Ok tt /\
  stake_walk 3 staked (Some 4%nat) 1 (StakeInput (stake_header 0 1)) = Err bad_header_double_spent.
Proof.
  split; (etransitivity; [apply (fork_walk_checks_last_header staked 4 (stake_entry 5 3 3000 1 (Some 3%nat)) 1
    (pow_entry 2 1 1000 (Some 0%nat)) 0 (pow_entry 1 0 0 None)); [exact staked_wf|reflexivity|discriminate|reflexivity..]|reflexivity]).
Defined.

Lemma stake_index_unchecked_witness : CheckProofOfStake (crypto := sum_crypto) stake_env staked [] (stake_header 0 7) = Abort.
Proof.
  apply (stake_index_unchecked stake_env staked (stake_header 0 7) [] stake_tx (replicate 32 1) 0 (pow_entry 1 0 0 None) 4 1
    (pow_entry 2 1 1000 (Some 0%nat)) 2 (pow_entry 3 2 2000 (Some 1%nat))); try reflexivity; try (vm_compute; discriminate).
Defined.

Lemma stake_found_is_accepted_witness :
  exists r, CheckStakeKernelHash (crypto := sum_crypto) 41000 28800 staked (stake_header 0 1) 4 0 stake_tx
      (StakeInput (stake_header 0 1)) 60 false (MkCache [] ∅) = Ok r /\
    CheckStakeKernelHash (crypto := sum_crypto) 99000 28800 staked (current r) 4 0 stake_tx
      (StakeInput (stake_header 0 1)) 0 true (MkCache [] ∅) = Ok (MkKernel true (current r) (hashProofOfStake r) (MkCache [] ∅)) /\
    nNonce (current r) = staked_modifier.
Proof.
  destruct (CheckStakeKernelHash (crypto := sum_crypto) 41000 28800 staked (stake_header 0 1) 4 0 stake_tx
      (StakeInput (stake_header 0 1)) 60 false (MkCache [] ∅)) as [r| |] eqn:E; try (vm_compute in E; discriminate).
  exists r. split; [reflexivity|]. assert (Hr : found r = true /\ nNonce (current r) = staked_modifier).
  { vm_compute in E. injection E as <-. split; reflexivity. }
  split; [|apply Hr].
  apply (stake_found_is_accepted 41000 99000 28800 staked (stake_header 0 1) 4 (stake_entry 5 3 3000 1 (Some 3%nat)) 0
    (pow_entry 1 0 0 None) stake_tx (StakeInput (stake_header 0 1)) 60 (MkCache [] ∅) (MkCache [] ∅) r
    staked_wf (staked_indexed 4%nat _ eq_refl) eq_refl (or_introl eq_refl) E (proj1 Hr)).
Defined.

Lemma stake_modifier_32_rounds_witness :
  (exists m, ComputeNextStakeModifier (crypto := sum_crypto) staked (Some 4%nat) = Ok m /\ unsigned 32 m /\
     ComputeNextStakeModifier_rounds (crypto := sum_crypto) 32 staked (Some 4%nat) = Ok m) /\
  ComputeNextStakeModifier (crypto := sum_crypto) staked (Some 4%nat) = Ok 2.
Proof.
  split; [|vm_compute; reflexivity].
  apply (stake_modifier_32_rounds staked 4 (stake_entry 5 3 3000 1 (Some 3%nat)) staked_wf staked_indexed).
  - apply (staked_lookup (fun _ c => unsigned 32 (index_nStakeModifier c))); split; vm_compute; done.
  - reflexivity.
Defined.

Lemma SelectBlockFromCandidates_least_witness :
  exists r v', SelectBlockFromCandidates (crypto := sum_crypto) staked [(1000, replicate 32 2); (2500, replicate 32 4); (3000, replicate 32 5)]
      [replicate 32 4] 2000 7 = Ok (r, v') /\
    selection_result (crypto := sum_crypto) staked [(1000, replicate 32 2); (2500, replicate 32 4); (3000, replicate 32 5)]
      [replicate 32 4] 2000 7 r.
Proof.
  apply SelectBlockFromCandidates_least.
  - repeat constructor; eexists _, _; (split; [apply staked_indexed|]);
      [exact (eq_refl : staked !! 1%nat = Some _)|reflexivity|exact (eq_refl : staked !! 3%nat = Some _)|reflexivity
      |exact (eq_refl : staked !! 4%nat = Some _)|reflexivity].
  - repeat constructor; unfold by_time; cbn; lia.
Defined.
