(* ===== verification/Asmap.v ===== *)
(** * Maps from addresses to autonomous systems

    Model of src/src/util/asmap.cpp.  A map is a program of bits that is interpreted on the bits of an
    address.  The interpreter asserts that the program is well formed; the check that is made when a map
    is loaded is shown to imply that no assertion fails for any address. *)

From S2P Require Import Prelude.

Definition INVALID : Z := 0xFFFFFFFF.

(** An iterator into the map is the list of the bits from it to the end; the mantissa loop of DecodeBits. *)
Fixpoint DecodeMantissa (n : nat) (val : Z) (bitpos : list bool) : Z * list bool :=
  match n with
  | O => (val, bitpos)
  | S n =>
      match bitpos with
      | [] => (INVALID, [])
      | bit :: bitpos => DecodeMantissa n (u32 (val + Z.shiftl (b2z bit) (Z.of_nat n))) bitpos
      end
  end.

(** The last class has no exponent bit. *)
Fixpoint DecodeBits_loop (val : Z) (bit_sizes : list Z) (bitpos : list bool) : Z * list bool :=
  match bit_sizes with
  | [] => (INVALID, bitpos)
  | [size] => DecodeMantissa (Z.to_nat size) val bitpos
  | size :: bit_sizes =>
      match bitpos with
      | [] => (INVALID, [])
      | true :: bitpos => DecodeBits_loop (u32 (val + Z.shiftl 1 size)) bit_sizes bitpos
      | false :: bitpos => DecodeMantissa (Z.to_nat size) val bitpos
      end
  end.

Definition DecodeBits (minval : Z) (bit_sizes : list Z) (bitpos : list bool) : Z * list bool :=
  DecodeBits_loop minval bit_sizes bitpos.

Inductive Instruction : Type := RETURN | JUMP | MATCH | DEFAULT.

#[export] Instance Instruction_eq_dec : EqDecision Instruction.
Proof. solve_decision. Defined.

(** The conversion of a number that is no instruction gives a value that equals none of them. *)
Definition Instruction_of (x : Z) : option Instruction :=
  if x =? 0 then Some RETURN else if x =? 1 then Some JUMP else if x =? 2 then Some MATCH
  else if x =? 3 then Some DEFAULT else None.

Definition TYPE_BIT_SIZES : list Z := [0; 0; 1].
Definition DecodeType (bitpos : list bool) : option Instruction * list bool :=
  let '(x, bitpos) := DecodeBits 0 TYPE_BIT_SIZES bitpos in (Instruction_of x, bitpos).

Definition ASN_BIT_SIZES : list Z := [15; 16; 17; 18; 19; 20; 21; 22; 23; 24].
Definition DecodeASN : list bool -> Z * list bool := DecodeBits 1 ASN_BIT_SIZES.

Definition MATCH_BIT_SIZES : list Z := [1; 2; 3; 4; 5; 6; 7; 8].
Definition DecodeMatch : list bool -> Z * list bool := DecodeBits 2 MATCH_BIT_SIZES.

Definition JUMP_BIT_SIZES : list Z :=
  [5; 6; 7; 8; 9; 10; 11; 12; 13; 14; 15; 16; 17; 18; 19; 20; 21; 22; 23; 24; 25; 26; 27; 28; 29; 30].
Definition DecodeJump : list bool -> Z * list bool := DecodeBits 17 JUMP_BIT_SIZES.

(** crypto/common.h *)
Definition CountBits (x : Z) : Z := if x =? 0 then 0 else Z.log2 x + 1.

(** ** The interpreter *)

(** [ip[ip.size() - bits]], out of range undefined. *)
Definition ip_bit (ip : list bool) (bits : Z) : res unit bool :=
  match ip !! Z.to_nat (zlen ip - bits) with Some b => Ok b | None => Abort end.

(** The loop over the bits of a MATCH: [None] when a bit differs, and the number of bits that are left. *)
Fixpoint match_loop (n : nat) (ip : list bool) (mask bits : Z) : res unit (option Z) :=
  match n with
  | O => Ok (Some bits)
  | S n =>
      b ← ip_bit ip bits;
      if negb (Bool.eqb b (flag (Z.shiftr mask (Z.of_nat n)) 1)) then Ok None
      else match_loop n ip mask (bits - 1)
  end.

(** Every instruction consumes a bit of the map, so its length is fuel enough; [Abort] is the assertion at
    the end. *)
Fixpoint Interpret_loop (fuel : nat) (ip : list bool) (pos : list bool) (bits default_asn : Z) : res unit Z :=
  match fuel with
  | O => Abort
  | S fuel =>
      match pos with
      | [] => Abort
      | _ =>
          match DecodeType pos with
          | (Some RETURN, pos) =>
              let '(default_asn, pos) := DecodeASN pos in
              if default_asn =? INVALID then Abort else Ok default_asn
          | (Some JUMP, pos) =>
              let '(jump, pos) := DecodeJump pos in
              if jump =? INVALID then Abort else
              if bits =? 0 then Abort else
              if zlen pos <=? jump then Abort else
              b ← ip_bit ip bits;
              Interpret_loop fuel ip (if b : bool then drop (Z.to_nat jump) pos else pos) (bits - 1) default_asn
          | (Some MATCH, pos) =>
              let '(mask, pos) := DecodeMatch pos in
              if mask =? INVALID then Abort else
              let matchlen := CountBits mask - 1 in
              if bits <? matchlen then Abort else
              r ← match_loop (Z.to_nat matchlen) ip mask bits;
              match r with
              | None => Ok default_asn
              | Some bits => Interpret_loop fuel ip pos bits default_asn
              end
          | (Some DEFAULT, pos) =>
              let '(default_asn, pos) := DecodeASN pos in
              if default_asn =? INVALID then Abort else Interpret_loop fuel ip pos bits default_asn
          | (None, _) => Abort
          end
      end
  end.

Definition Interpret (asmap ip : list bool) : res unit Z :=
  Interpret_loop (S (length asmap)) ip asmap (u8 (zlen ip)) 0.

(** ** The check *)

(** [size] is the size of the map: the offset of an iterator is the size less what is left. *)
Fixpoint SanityCheckASMap_loop (fuel : nat) (size : Z) (pos : list bool) (bits : Z) (jumps : list (Z * Z))
    (prevopcode : Instruction) (had_incomplete_match : bool) : bool :=
  match fuel with
  | O => false
  | S fuel =>
      match pos with
      | [] => false
      | _ =>
          if match jumps with [] => false | (back, _) :: _ => back <=? u32 (size - zlen pos) end then false else
          match DecodeType pos with
          | (Some RETURN, pos) =>
              if bool_decide (prevopcode = DEFAULT) then false else
              let '(asn, pos) := DecodeASN pos in
              if asn =? INVALID then false else
              match jumps with
              | [] => if 7 <? zlen pos then false else forallb negb pos
              | (back, back_bits) :: jumps =>
                  if negb (u32 (size - zlen pos) =? back) then false
                  else SanityCheckASMap_loop fuel size pos back_bits jumps JUMP had_incomplete_match
              end
          | (Some JUMP, pos) =>
              let '(jump, pos) := DecodeJump pos in
              if jump =? INVALID then false else
              if zlen pos <? jump then false else
              if bits =? 0 then false else
              let bits := bits - 1 in
              let jump_offset := u32 (size - zlen pos + jump) in
              if match jumps with [] => false | (back, _) :: _ => back <=? jump_offset end then false
              else SanityCheckASMap_loop fuel size pos bits ((jump_offset, bits) :: jumps) JUMP had_incomplete_match
          | (Some MATCH, pos) =>
              let '(mask, pos) := DecodeMatch pos in
              if mask =? INVALID then false else
              let matchlen := CountBits mask - 1 in
              let had_incomplete_match := if bool_decide (prevopcode = MATCH) then had_incomplete_match else false in
              if (matchlen <? 8) && had_incomplete_match then false else
              if bits <? matchlen then false
              else SanityCheckASMap_loop fuel size pos (bits - matchlen) jumps MATCH (matchlen <? 8)
          | (Some DEFAULT, pos) =>
              if bool_decide (prevopcode = DEFAULT) then false else
              let '(asn, pos) := DecodeASN pos in
              if asn =? INVALID then false
              else SanityCheckASMap_loop fuel size pos bits jumps DEFAULT had_incomplete_match
          | (None, _) => false
          end
      end
  end.

Definition SanityCheckASMap (asmap : list bool) (bits : Z) : bool :=
  SanityCheckASMap_loop (S (length asmap)) (zlen asmap) asmap bits [] JUMP false.

(** ** Decoding *)

Lemma DecodeMantissa_spec n val pos :
  0 <= val -> val + 2 ^ Z.of_nat n < 2 ^ 32 ->
  let '(x, pos') := DecodeMantissa n val pos in
  pos' `suffix_of` pos /\ (x = INVALID \/ val <= x < val + 2 ^ Z.of_nat n).
Proof.
  revert val pos. induction n as [|n IH]; intros val pos Hv Hb; [cbn; split; [done|right; lia]|].
  cbn [DecodeMantissa]. destruct pos as [|b pos]; [by auto|].
  rewrite Nat2Z.inj_succ, Z.pow_succ_r in Hb |- * by lia. rewrite Z.shiftl_mul_pow2 by lia.
  pose proof (Z.pow_pos_nonneg 2 (Z.of_nat n) ltac:(lia) ltac:(lia)) as Hp.
  assert (Hw : u32 (val + b2z b * 2 ^ Z.of_nat n) = val + b2z b * 2 ^ Z.of_nat n).
  { unfold u32. apply Z.mod_small. destruct b; cbn [b2z]; lia. }
  rewrite Hw. specialize (IH (val + b2z b * 2 ^ Z.of_nat n) pos). destruct (DecodeMantissa _ _ _) as [x pos'].
  destruct IH as [Hs Hx]; [destruct b; cbn [b2z]; lia..|]. split; [by apply suffix_cons_r|].
  destruct Hx as [|Hx]; [by left|right]. destruct b; cbn [b2z] in Hx; lia.
Qed.

Definition sizes_total (bit_sizes : list Z) : Z := foldr (fun s t => 2 ^ s + t) 0 bit_sizes.

Lemma sizes_total_nonneg l : Forall (fun s => 0 <= s) l -> 0 <= sizes_total l.
Proof. induction 1 as [|s l Hs _ IH]; [done|]. cbn. pose proof (Z.pow_pos_nonneg 2 s). fold (sizes_total l). lia. Qed.

Lemma DecodeBits_loop_cons val s s' l pos :
  DecodeBits_loop val (s :: s' :: l) pos =
  match pos with
  | [] => (INVALID, [])
  | true :: pos => DecodeBits_loop (u32 (val + Z.shiftl 1 s)) (s' :: l) pos
  | false :: pos => DecodeMantissa (Z.to_nat s) val pos
  end.
Proof. done. Qed.

(** A number that is decoded is at least the smallest one and never looks like INVALID. *)
Lemma DecodeBits_spec val sizes pos :
  0 <= val -> Forall (fun s => 0 <= s) sizes -> val + sizes_total sizes < 2 ^ 32 ->
  let '(x, pos') := DecodeBits val sizes pos in pos' `suffix_of` pos /\ (x = INVALID \/ val <= x).
Proof.
  intros Hv Hs Hb. unfold DecodeBits. revert val pos Hv Hb. induction Hs as [|s l Hs Hl IH]; intros val pos Hv Hb; [cbn; auto|].
  cbn [sizes_total foldr] in Hb. fold (sizes_total l) in Hb. pose proof (sizes_total_nonneg l Hl) as Ht.
  assert (Hm : let '(x, pos') := DecodeMantissa (Z.to_nat s) val pos in pos' `suffix_of` pos /\ (x = INVALID \/ val <= x)).
  { pose proof (DecodeMantissa_spec (Z.to_nat s) val pos Hv) as H. rewrite Z2Nat.id in H by done.
    specialize (H ltac:(lia)). destruct (DecodeMantissa _ _ _) as [x pos']. destruct H as [H1 [H2|H2]]; [by auto|].
    split; [done|right; lia]. }
  pose proof (Z.pow_pos_nonneg 2 s ltac:(lia) Hs) as Hp.
  destruct l as [|s' l]; [exact Hm|]. rewrite DecodeBits_loop_cons. destruct pos as [|[|] pos]; [by auto| |].
  - rewrite Z.shiftl_1_l. assert (u32 (val + 2 ^ s) = val + 2 ^ s) as -> by (apply Z.mod_small; lia).
    specialize (IH (val + 2 ^ s) pos ltac:(lia) ltac:(lia)). destruct (DecodeBits_loop _ _ _) as [x pos'].
    destruct IH as [H1 H2]. split; [by apply suffix_cons_r|]. destruct H2; [by left|right; lia].
  - clear Hm. pose proof (DecodeMantissa_spec (Z.to_nat s) val pos Hv) as H. rewrite Z2Nat.id in H by done.
    specialize (H ltac:(lia)). destruct (DecodeMantissa _ _ _) as [x pos']. destruct H as [H1 H2]. split; [by apply suffix_cons_r|].
    destruct H2; [by left|right; lia].
Qed.

Ltac decode_spec := match goal with |- context [DecodeBits ?v ?l ?p] =>
  let H := fresh in pose proof (DecodeBits_spec v l p ltac:(lia)) as H; apply H;
  [repeat (constructor; [lia|]); constructor|vm_compute; reflexivity] end.

Lemma DecodeASN_spec pos : let '(x, pos') := DecodeASN pos in pos' `suffix_of` pos /\ (x = INVALID \/ 1 <= x).
Proof. unfold DecodeASN. decode_spec. Qed.
Lemma DecodeMatch_spec pos : let '(x, pos') := DecodeMatch pos in pos' `suffix_of` pos /\ (x = INVALID \/ 2 <= x).
Proof. unfold DecodeMatch. decode_spec. Qed.
Lemma DecodeJump_spec pos : let '(x, pos') := DecodeJump pos in pos' `suffix_of` pos /\ (x = INVALID \/ 17 <= x).
Proof. unfold DecodeJump. decode_spec. Qed.

(** An instruction takes at least one bit. *)
Lemma DecodeType_spec b pos : let '(_, pos') := DecodeType (b :: pos) in pos' `suffix_of` pos.
Proof.
  unfold DecodeType, DecodeBits, TYPE_BIT_SIZES. change (Z.to_nat 0) with O.
  destruct b, pos as [|[] [|b' pos]]; simpl; repeat first [reflexivity|apply suffix_nil|apply suffix_cons_r].
Qed.

(** ** What the check implies *)

Section sane.
Context (asmap ip : list bool) (Hsize : zlen asmap < 2 ^ 32).

(** The interpreter returns when it is started at [pos] with [bits] bits of the address left. *)
Definition runs (pos : list bool) (bits : Z) : Prop :=
  forall fuel d, (length pos < fuel)%nat -> exists asn, Interpret_loop fuel ip pos bits d = Ok asn.

Lemma ip_bit_ok bits : 0 < bits <= zlen ip -> exists b, ip_bit ip bits = Ok b.
Proof.
  intros Hb. unfold ip_bit, zlen in *. destruct (lookup_lt_is_Some_2 ip (Z.to_nat (Z.of_nat (length ip) - bits))) as [b ->]; [lia|].
  by exists b.
Qed.

Lemma match_loop_ok n mask bits :
  Z.of_nat n <= bits <= zlen ip ->
  match_loop n ip mask bits = Ok None \/ match_loop n ip mask bits = Ok (Some (bits - Z.of_nat n)).
Proof.
  revert bits. induction n as [|n IH]; intros bits Hb; [right; cbn; by rewrite Z.sub_0_r|].
  cbn [match_loop]. destruct (ip_bit_ok bits ltac:(lia)) as [b ->]. cbn [mbind res_bind]. case_bool; [by left|].
  destruct (IH (bits - 1) ltac:(lia)) as [->| ->]; [by left|right]. do 2 f_equal. lia.
Qed.

Lemma suffix_length_le {A} (l k : list A) : l `suffix_of` k -> (length l <= length k)%nat.
Proof. intros [p ->]. rewrite length_app. lia. Qed.

(** The offset of an iterator determines it. *)
Lemma suffix_offset pos : pos `suffix_of` asmap -> drop (Z.to_nat (u32 (zlen asmap - zlen pos))) asmap = pos.
Proof.
  intros [p ->]. unfold u32, zlen in *. rewrite length_app in *. rewrite Z.mod_small by lia.
  replace (Z.to_nat _) with (length p) by lia. apply drop_app_length.
Qed.

Lemma jump_offset pos jump :
  pos `suffix_of` asmap -> 0 <= jump <= zlen pos ->
  drop (Z.to_nat (u32 (zlen asmap - zlen pos + jump))) asmap = drop (Z.to_nat jump) pos.
Proof.
  intros [p ->] Hj. unfold u32, zlen in *. rewrite length_app in *. rewrite Z.mod_small by lia.
  replace (Z.to_nat _) with (length p + Z.to_nat jump)%nat by lia. by rewrite <- drop_drop, drop_app_length.
Qed.

Lemma runs_nonempty pos bits : runs pos bits -> pos <> [].
Proof. intros H ->. destruct (H 1%nat 0) as [? [=]]. cbn. lia. Qed.

(** One instruction of the interpreter. *)
Ltac run_step :=
  let fuel := fresh "fuel" in
  intros fuel ? ?; destruct fuel as [|fuel]; [lia|]; cbn [Interpret_loop];
  repeat match goal with
  | H : DecodeType _ = _ |- _ => rewrite H; clear H
  | H : ?f ?p = (_, _) |- context [?f ?p] => rewrite H; clear H
  | H : ?x <> ?y |- context [?x =? ?y] => rewrite (proj2 (Z.eqb_neq x y) H)
  end.

Lemma runs_RETURN b p bits pos asn pos' :
  DecodeType (b :: p) = (Some RETURN, pos) -> DecodeASN pos = (asn, pos') -> asn <> INVALID -> runs (b :: p) bits.
Proof. intros Ht Ha Hn. run_step. by eexists. Qed.

Lemma runs_DEFAULT b p bits pos asn pos' :
  DecodeType (b :: p) = (Some DEFAULT, pos) -> DecodeASN pos = (asn, pos') -> asn <> INVALID ->
  (length pos' <= length p)%nat -> runs pos' bits -> runs (b :: p) bits.
Proof. intros Ht Ha Hn Hl Hr. run_step. apply Hr. cbn [length] in *. lia. Qed.

Lemma runs_MATCH b p bits pos mask pos' :
  DecodeType (b :: p) = (Some MATCH, pos) -> DecodeMatch pos = (mask, pos') -> mask <> INVALID ->
  (length pos' <= length p)%nat -> 0 <= CountBits mask - 1 <= bits -> bits <= zlen ip ->
  runs pos' (bits - (CountBits mask - 1)) -> runs (b :: p) bits.
Proof.
  intros Ht Ha Hn Hl Hc Hb Hr. run_step. rewrite (proj2 (Z.ltb_ge _ _)) by lia.
  destruct (match_loop_ok (Z.to_nat (CountBits mask - 1)) mask bits ltac:(lia)) as [->| ->]; cbn [mbind res_bind]; [by eexists|].
  rewrite Z2Nat.id by lia. apply Hr. cbn [length] in *. lia.
Qed.

Lemma runs_JUMP b p bits pos jump pos' :
  DecodeType (b :: p) = (Some JUMP, pos) -> DecodeJump pos = (jump, pos') -> jump <> INVALID ->
  (length pos' <= length p)%nat -> 0 < bits <= zlen ip -> 0 <= jump <= zlen pos' ->
  runs pos' (bits - 1) -> runs (drop (Z.to_nat jump) pos') (bits - 1) -> runs (b :: p) bits.
Proof.
  intros Ht Ha Hn Hl Hb Hj Hr Hr'. pose proof (runs_nonempty _ _ Hr') as Hne. run_step. rewrite (proj2 (Z.eqb_neq bits 0)) by lia.
  assert (jump < zlen pos').
  { unfold zlen in *. destruct (Z.le_gt_cases (Z.of_nat (length pos')) jump); [|done]. destruct Hne. apply drop_ge. lia. }
  rewrite (proj2 (Z.leb_gt _ _)) by done. destruct (ip_bit_ok bits Hb) as [[] ->]; cbn [mbind res_bind].
  - apply Hr'. rewrite length_drop. cbn [length] in *. lia.
  - apply Hr. cbn [length] in *. lia.
Qed.

(** Every position from which the rest of the map was checked is one from which the interpreter returns. *)
Lemma SanityCheck_runs fuel pos bits jumps prevopcode had :
  SanityCheckASMap_loop fuel (zlen asmap) pos bits jumps prevopcode had = true ->
  pos `suffix_of` asmap -> 0 <= bits <= zlen ip -> Forall (fun j => 0 <= j.2 <= zlen ip) jumps ->
  runs pos bits /\ Forall (fun j => runs (drop (Z.to_nat j.1) asmap) j.2) jumps.
Proof.
  revert pos bits jumps prevopcode had. induction fuel as [|fuel IH]; intros pos bits jumps prevopcode had H Hs Hb Hj; [done|].
  cbn [SanityCheckASMap_loop] in H. destruct pos as [|b p]; [done|]. destruct (match jumps with [] => _ | _ => _ end); [done|].
  pose proof (DecodeType_spec b p) as Hty. destruct (DecodeType (b :: p)) as [[i|] pos] eqn:Et; [|done].
  assert (Hsuf : forall q, q `suffix_of` pos -> q `suffix_of` asmap /\ (length q <= length p)%nat).
  { intros q Hq. assert (q `suffix_of` p) as Hqp by (by etrans). split; [|by apply suffix_length_le].
    etrans; [exact Hqp|]. etrans; [|exact Hs]. by apply suffix_cons_r. }
  destruct i.
  - destruct (bool_decide _); [done|]. pose proof (DecodeASN_spec pos) as Hd. destruct (DecodeASN pos) as [asn pos'] eqn:Ea.
    destruct Hd as [Hq _]. destruct (Hsuf _ Hq) as [Hs' _]. case_bool; [done|]. bprop.
    split; [by eapply runs_RETURN|]. destruct jumps as [|[back bb] jumps]; [done|]. inversion_clear Hj as [|?? Hbb Hj'].
    case_bool; [done|]. bprop. apply IH in H as [Hr Hf]; [|done..]. constructor; [|done].
    match goal with E : u32 _ = back |- _ => cbn [fst snd]; by rewrite <- E, suffix_offset end.
  - pose proof (DecodeJump_spec pos) as Hd. destruct (DecodeJump pos) as [jump pos'] eqn:Ea. destruct Hd as [Hq Hlo].
    destruct (Hsuf _ Hq) as [Hs' Hl]. repeat (case_bool; [done|]). bprop. destruct Hlo as [|Hlo]; [done|].
    apply IH in H as [Hr Hf]; [|done|lia|constructor; [cbn; lia|done]]. inversion_clear Hf as [|?? Hr' Hf']. cbn [fst snd] in Hr'.
    rewrite jump_offset in Hr' by (done || lia). split; [|done]. eapply runs_JUMP; try done; lia.
  - pose proof (DecodeMatch_spec pos) as Hd. destruct (DecodeMatch pos) as [mask pos'] eqn:Ea. destruct Hd as [Hq Hlo].
    destruct (Hsuf _ Hq) as [Hs' Hl].
    destruct (mask =? INVALID) eqn:Em; [done|]. destruct ((CountBits mask - 1 <? 8) && _); [done|]. case_bool; [done|]. bprop.
    destruct Hlo as [|Hlo]; [done|]. assert (0 <= CountBits mask - 1) as Hc.
    { unfold CountBits. rewrite (proj2 (Z.eqb_neq _ _)) by lia. pose proof (Z.log2_nonneg mask). lia. }
    apply IH in H as [Hr Hf]; [|done|lia|done]. split; [|done]. eapply runs_MATCH; try done; lia.
  - destruct (bool_decide _); [done|]. pose proof (DecodeASN_spec pos) as Hd. destruct (DecodeASN pos) as [asn pos'] eqn:Ea.
    destruct Hd as [Hq _]. destruct (Hsuf _ Hq) as [Hs' Hl]. case_bool; [done|]. bprop.
    apply IH in H as [Hr Hf]; [|done..]. split; [|done]. by eapply runs_DEFAULT.
Qed.

End sane.

Lemma checked_Interpret asmap ip bits :
  zlen asmap < 2 ^ 32 -> zlen ip = bits -> bits < 256 -> SanityCheckASMap asmap bits = true ->
  exists asn, Interpret asmap ip = Ok asn.
Proof.
  intros Hsize Hip Hb H. assert (0 <= bits) by (unfold zlen in Hip; lia). unfold SanityCheckASMap in H.
  apply (SanityCheck_runs asmap ip Hsize) in H as [Hr _]; [|done|lia|done].
  unfold Interpret, u8. rewrite Hip, Z.mod_small by lia. apply Hr. lia.
Qed.

(** ** Main property *)

(** A map that passes SanityCheckASMap never fails an assertion of the interpreter: for every address of
    as many bits as were checked for, Interpret reads within the map and within the address and returns. *)
Theorem SanityCheckASMap_sound asmap ip bits :
  zlen asmap < 2 ^ 32 -> zlen ip = bits -> bits < 256 -> SanityCheckASMap asmap bits = true ->
  exists asn, Interpret asmap ip = Ok asn.
Proof. apply checked_Interpret. Qed.

(** JUMP over a RETURN of system 1 to a RETURN of system 3 on the first bit of the address. *)
Definition sample_asmap : list bool :=
  [true; false] ++ [false; false; false; false; false; false] ++ ([false] ++ replicate 16 false) ++
  ([false] ++ [false] ++ replicate 13 false ++ [true; false]).

Lemma SanityCheckASMap_sound_witness :
  SanityCheckASMap sample_asmap 128 = true /\ Interpret sample_asmap (true :: replicate 127 false) = Ok 3 /\
  (exists asn, Interpret sample_asmap (replicate 128 false) = Ok asn).
Proof.
  split; [vm_compute; reflexivity|]. split; [vm_compute; reflexivity|].
  apply (SanityCheckASMap_sound sample_asmap (replicate 128 false) 128); vm_compute; reflexivity.
Defined.
