(* ===== verification/NetAddress.v ===== *)
(** * Network addresses

    Model of src/src/netaddress.h and netaddress.cpp: addresses of the networks the node knows, their
    classes, the two formats in which they are sent and stored, services (address and port), subnets and
    the groups by which peers are diversified.  The scope of an IPv6 address, which is used for sockets
    only, and the conversions from and to text are left out. *)

From S2P Require Import Prelude Script Crypto Serialize Transaction Hasher Asmap.

Inductive Network : Type :=
| NET_UNROUTABLE | NET_IPV4 | NET_IPV6 | NET_ONION | NET_I2P | NET_CJDNS | NET_INTERNAL | NET_MAX.

#[export] Instance Network_eq_dec : EqDecision Network.
Proof. solve_decision. Defined.

Definition Network_val (n : Network) : Z :=
  match n with
  | NET_UNROUTABLE => 0 | NET_IPV4 => 1 | NET_IPV6 => 2 | NET_ONION => 3 | NET_I2P => 4 | NET_CJDNS => 5
  | NET_INTERNAL => 6 | NET_MAX => 7
  end.

Definition IPV4_IN_IPV6_PREFIX : list Z := [0x00; 0x00; 0x00; 0x00; 0x00; 0x00; 0x00; 0x00; 0x00; 0x00; 0xFF; 0xFF].
Definition TORV2_IN_IPV6_PREFIX : list Z := [0xFD; 0x87; 0xD8; 0x7E; 0xEB; 0x43].
Definition INTERNAL_IN_IPV6_PREFIX : list Z := [0xFD; 0x6B; 0x88; 0xC0; 0x87; 0x24].

Definition ADDR_IPV4_SIZE : nat := 4.
Definition ADDR_IPV6_SIZE : nat := 16.
Definition ADDR_TORV2_SIZE : nat := 10.
Definition ADDR_TORV3_SIZE : nat := 32.
Definition ADDR_I2P_SIZE : nat := 32.
Definition ADDR_CJDNS_SIZE : nat := 16.
Definition ADDR_INTERNAL_SIZE : nat := 10.

Record CNetAddr : Type := MkNetAddr { m_net : Network; m_addr : list Z }.

(** operator== *)
#[export] Instance CNetAddr_eq_dec : EqDecision CNetAddr.
Proof. solve_decision. Defined.

Definition CNetAddr_default : CNetAddr := MkNetAddr NET_IPV6 (replicate ADDR_IPV6_SIZE 0).

Definition is_net (n : Network) (a : CNetAddr) : bool := bool_decide (m_net a = n).
Definition has_size (a : CNetAddr) (n : nat) : bool := (length (m_addr a) =? n)%nat.

(** util/string.h *)
Definition HasPrefix (obj prefix : list Z) : bool :=
  (length prefix <=? length obj)%nat && bool_decide (take (length prefix) obj = prefix).

(** The sizes that SetIP asserts. *)
Definition SetIP (ipIn : CNetAddr) : res unit CNetAddr :=
  let sizes := match m_net ipIn with
    | NET_IPV4 => [ADDR_IPV4_SIZE] | NET_IPV6 => [ADDR_IPV6_SIZE] | NET_ONION => [ADDR_TORV2_SIZE; ADDR_TORV3_SIZE]
    | NET_I2P => [ADDR_I2P_SIZE] | NET_CJDNS => [ADDR_CJDNS_SIZE] | NET_INTERNAL => [ADDR_INTERNAL_SIZE]
    | NET_UNROUTABLE | NET_MAX => []
    end in
  if existsb (has_size ipIn) sizes then Ok ipIn else Abort.

Definition SetLegacyIPv6 (ipv6 : list Z) : res unit CNetAddr :=
  if negb (length ipv6 =? ADDR_IPV6_SIZE)%nat then Abort else
  let '(net, skip) :=
    if HasPrefix ipv6 IPV4_IN_IPV6_PREFIX then (NET_IPV4, length IPV4_IN_IPV6_PREFIX)
    else if HasPrefix ipv6 TORV2_IN_IPV6_PREFIX then (NET_ONION, length TORV2_IN_IPV6_PREFIX)
    else if HasPrefix ipv6 INTERNAL_IN_IPV6_PREFIX then (NET_INTERNAL, length INTERNAL_IN_IPV6_PREFIX)
    else (NET_IPV6, O) in
  Ok (MkNetAddr net (drop skip ipv6)).

Definition SetInternal {crypto : CryptoOps} (a : CNetAddr) (name : list Z) : bool * CNetAddr :=
  if zlen name =? 0 then (false, a) else (true, MkNetAddr NET_INTERNAL (take ADDR_INTERNAL_SIZE (sha256 name))).

(** ** Classes of addresses *)

Section classes.
Context (a : CNetAddr).

Definition IsIPv4 : bool := is_net NET_IPV4 a.
Definition IsIPv6 : bool := is_net NET_IPV6 a.
Definition IsTor : bool := is_net NET_ONION a.
Definition IsI2P : bool := is_net NET_I2P a.
Definition IsCJDNS : bool := is_net NET_CJDNS a.
Definition IsInternal : bool := is_net NET_INTERNAL a.

Definition IsBindAny : bool :=
  if negb IsIPv4 && negb IsIPv6 then false else forallb (fun b => b =? 0) (m_addr a).

Definition addr_byte (i : nat) : Z := vget (m_addr a) i.

Definition IsRFC1918 : bool := IsIPv4 &&
  ((addr_byte 0 =? 10) || ((addr_byte 0 =? 192) && (addr_byte 1 =? 168)) ||
   ((addr_byte 0 =? 172) && (16 <=? addr_byte 1) && (addr_byte 1 <=? 31))).
Definition IsRFC2544 : bool := IsIPv4 && (addr_byte 0 =? 198) && ((addr_byte 1 =? 18) || (addr_byte 1 =? 19)).
Definition IsRFC3927 : bool := IsIPv4 && HasPrefix (m_addr a) [169; 254].
Definition IsRFC6598 : bool := IsIPv4 && (addr_byte 0 =? 100) && (64 <=? addr_byte 1) && (addr_byte 1 <=? 127).
Definition IsRFC5737 : bool := IsIPv4 &&
  (HasPrefix (m_addr a) [192; 0; 2] || HasPrefix (m_addr a) [198; 51; 100] || HasPrefix (m_addr a) [203; 0; 113]).
Definition IsRFC3849 : bool := IsIPv6 && HasPrefix (m_addr a) [0x20; 0x01; 0x0D; 0xB8].
Definition IsRFC3964 : bool := IsIPv6 && HasPrefix (m_addr a) [0x20; 0x02].
Definition IsRFC6052 : bool := IsIPv6 && HasPrefix (m_addr a) [0x00; 0x64; 0xFF; 0x9B; 0; 0; 0; 0; 0; 0; 0; 0].
Definition IsRFC4380 : bool := IsIPv6 && HasPrefix (m_addr a) [0x20; 0x01; 0x00; 0x00].
Definition IsRFC4862 : bool := IsIPv6 && HasPrefix (m_addr a) [0xFE; 0x80; 0; 0; 0; 0; 0; 0].
Definition IsRFC4193 : bool := IsIPv6 && (Z.land (addr_byte 0) 0xFE =? 0xFC).
Definition IsRFC6145 : bool := IsIPv6 && HasPrefix (m_addr a) [0; 0; 0; 0; 0; 0; 0; 0; 0xFF; 0xFF; 0; 0].
Definition IsRFC4843 : bool :=
  IsIPv6 && HasPrefix (m_addr a) [0x20; 0x01; 0x00] && (Z.land (addr_byte 3) 0xF0 =? 0x10).
Definition IsRFC7343 : bool :=
  IsIPv6 && HasPrefix (m_addr a) [0x20; 0x01; 0x00] && (Z.land (addr_byte 3) 0xF0 =? 0x20).
Definition IsHeNet : bool := IsIPv6 && HasPrefix (m_addr a) [0x20; 0x01; 0x04; 0x70].

Definition IsLocal : bool :=
  if IsIPv4 && ((addr_byte 0 =? 127) || (addr_byte 0 =? 0)) then true else
  if IsIPv6 && bool_decide (take 16 (m_addr a) = replicate 15 0 ++ [1]) then true else false.

Definition IsValid_addr : bool :=
  if IsIPv6 && bool_decide (take 16 (m_addr a) = replicate 16 0) then false else
  if IsCJDNS && negb (addr_byte 0 =? 0xFC) then false else
  if IsRFC3849 then false else
  if IsInternal then false else
  if IsIPv4 && ((ReadBE32 (m_addr a) =? 0) || (ReadBE32 (m_addr a) =? 0xffffffff)) then false else true.

Definition IsRoutable (fAllowPrivateNet : bool) : bool :=
  if negb IsValid_addr then false else
  if negb fAllowPrivateNet && IsRFC1918 then false else
  negb (IsRFC2544 || IsRFC3927 || IsRFC4862 || IsRFC6598 || IsRFC5737 || (IsRFC4193 && negb IsTor) || IsRFC4843 ||
        IsRFC7343 || IsLocal || IsInternal).

Definition IsAddrV1Compatible : res unit bool :=
  match m_net a with
  | NET_IPV4 | NET_IPV6 | NET_INTERNAL => Ok true
  | NET_ONION => Ok (has_size a ADDR_TORV2_SIZE)
  | NET_I2P | NET_CJDNS => Ok false
  | NET_UNROUTABLE | NET_MAX => Abort
  end.

Definition GetNetwork (fAllowPrivateNet : bool) : Network :=
  if IsInternal then NET_INTERNAL else if negb (IsRoutable fAllowPrivateNet) then NET_UNROUTABLE else m_net a.

End classes.

(** ** Groups *)

Section groups.
Context (fAllowPrivateNet : bool) (a : CNetAddr).

Definition HasLinkedIPv4 : bool :=
  IsRoutable a fAllowPrivateNet && (IsIPv4 a || IsRFC6145 a || IsRFC6052 a || IsRFC3964 a || IsRFC4380 a).

Definition last4 (v : list Z) : list Z := drop (length v - 4) v.

Definition GetLinkedIPv4 : res unit Z :=
  if IsIPv4 a then Ok (ReadBE32 (m_addr a)) else
  if IsRFC6052 a || IsRFC6145 a then Ok (ReadBE32 (last4 (m_addr a))) else
  if IsRFC3964 a then Ok (ReadBE32 (take 4 (drop 2 (m_addr a)))) else
  if IsRFC4380 a then Ok (u32 (Z.lnot (ReadBE32 (last4 (m_addr a))))) else Abort.

Definition GetNetClass : Network :=
  if IsInternal a then NET_INTERNAL else
  if negb (IsRoutable a fAllowPrivateNet) then NET_UNROUTABLE else
  if HasLinkedIPv4 then NET_IPV4 else m_net a.

(** The bits of a number or of bytes, the most significant first. *)
Definition bits_of (n : nat) (x : Z) : list bool := map (fun i => Z.testbit x (Z.of_nat i)) (rev (seq 0 n)).
Definition byte_bits (v : list Z) : list bool := flat_map (bits_of 8) v.

Definition GetMappedAS (asmap : list bool) : res unit Z :=
  if (zlen asmap =? 0) || negb (bool_decide (GetNetClass = NET_IPV4) || bool_decide (GetNetClass = NET_IPV6)) then Ok 0 else
  ip_bits ← (if HasLinkedIPv4
             then ipv4 ← GetLinkedIPv4; Ok (byte_bits IPV4_IN_IPV6_PREFIX ++ bits_of 32 ipv4)
             else if IsIPv6 a then Ok (byte_bits (take 16 (m_addr a))) else Abort);
  Interpret asmap ip_bits.

Definition group_bits : Z :=
  if IsLocal a then 0 else
  if IsInternal a then Z.of_nat ADDR_INTERNAL_SIZE * 8 else
  if negb (IsRoutable a fAllowPrivateNet) then 0 else
  if IsTor a || IsI2P a || IsCJDNS a then 4 else
  if IsHeNet a then 36 else 32.

(** The part after the number of bits is known. *)
Definition push_bits (vchRet : list Z) (nBits : Z) : res unit (list Z) :=
  let num_bytes := Z.to_nat (nBits / 8) in
  let vchRet := vchRet ++ take num_bytes (m_addr a) in
  let nBits := nBits mod 8 in
  if 0 <? nBits then
    match m_addr a !! num_bytes with
    | None => Abort
    | Some b => Ok (vchRet ++ [Z.lor b (Z.shiftl 1 (8 - nBits) - 1)])
    end
  else Ok vchRet.

Definition GetGroup (asmap : list bool) : res unit (list Z) :=
  asn ← GetMappedAS asmap;
  if negb (asn =? 0) then Ok (Network_val NET_IPV6 :: le_bytes 4 asn) else
  let vchRet := [Network_val GetNetClass] in
  if negb (IsLocal a) && negb (IsInternal a) && IsRoutable a fAllowPrivateNet && HasLinkedIPv4 then
    ipv4 ← GetLinkedIPv4;
    Ok (vchRet ++ [Z.land (Z.shiftr ipv4 24) 0xFF; Z.land (Z.shiftr ipv4 16) 0xFF])
  else push_bits vchRet group_bits.

End groups.

(** ** Formats *)

Definition V1_SERIALIZATION_SIZE : nat := ADDR_IPV6_SIZE.
Definition MAX_ADDRV2_SIZE : Z := 512.

(** Embedding with a prefix; the sizes are asserted. *)
Definition embed (prefix : list Z) (a : CNetAddr) : res unit (list Z) :=
  if (length prefix + length (m_addr a) =? V1_SERIALIZATION_SIZE)%nat then Ok (prefix ++ m_addr a) else Abort.

Definition SerializeV1Array (a : CNetAddr) : res unit (list Z) :=
  match m_net a with
  | NET_IPV6 => embed [] a
  | NET_IPV4 => embed IPV4_IN_IPV6_PREFIX a
  | NET_ONION =>
      if has_size a ADDR_TORV3_SIZE then Ok (replicate V1_SERIALIZATION_SIZE 0) else embed TORV2_IN_IPV6_PREFIX a
  | NET_INTERNAL => embed INTERNAL_IN_IPV6_PREFIX a
  | NET_I2P | NET_CJDNS => Ok (replicate V1_SERIALIZATION_SIZE 0)
  | NET_UNROUTABLE | NET_MAX => Abort
  end.

Definition UnserializeV1Stream : Parser CNetAddr := fun s =>
  match read_bytes V1_SERIALIZATION_SIZE s with
  | Ok (arr, s) => a ← SetLegacyIPv6 arr; Ok (a, s)
  | Err e => Err e
  | Abort => Abort
  end.

Definition GetBIP155Network (a : CNetAddr) : res unit Z :=
  match m_net a with
  | NET_IPV4 => Ok 1
  | NET_IPV6 => Ok 2
  | NET_ONION => if has_size a ADDR_TORV2_SIZE then Ok 3 else if has_size a ADDR_TORV3_SIZE then Ok 4 else Abort
  | NET_I2P => Ok 5
  | NET_CJDNS => Ok 6
  | NET_INTERNAL | NET_UNROUTABLE | NET_MAX => Abort
  end.

(** [None]: an unknown network; an error when the size does not fit a known one. *)
Definition SetNetFromBIP155Network (possible_bip155_net address_size : Z) : res unit (option Network) :=
  let expect (size : nat) (net : Network) := if address_size =? Z.of_nat size then Ok (Some net) else Err tt in
  if possible_bip155_net =? 1 then expect ADDR_IPV4_SIZE NET_IPV4 else
  if possible_bip155_net =? 2 then expect ADDR_IPV6_SIZE NET_IPV6 else
  if possible_bip155_net =? 3 then expect ADDR_TORV2_SIZE NET_ONION else
  if possible_bip155_net =? 4 then expect ADDR_TORV3_SIZE NET_ONION else
  if possible_bip155_net =? 5 then expect ADDR_I2P_SIZE NET_I2P else
  if possible_bip155_net =? 6 then expect ADDR_CJDNS_SIZE NET_CJDNS else Ok None.

Definition SerializeV2Stream (a : CNetAddr) : res unit (list Z) :=
  if IsInternal a then
    arr ← SerializeV1Array a;
    Ok (ser_writedata8 2 ++ WriteCompactSize (Z.of_nat ADDR_IPV6_SIZE) ++ arr)
  else
    net ← GetBIP155Network a;
    Ok (ser_writedata8 net ++ write_bytes (m_addr a)).

(** Addresses that are read as a network but not allowed there become the default, which is not valid. *)
Definition check_v2 (a : CNetAddr) : CNetAddr :=
  if negb (IsIPv6 a) then a else
  if HasPrefix (m_addr a) INTERNAL_IN_IPV6_PREFIX
  then MkNetAddr NET_INTERNAL (take ADDR_INTERNAL_SIZE (drop (length INTERNAL_IN_IPV6_PREFIX) (m_addr a))) else
  if negb (HasPrefix (m_addr a) IPV4_IN_IPV6_PREFIX) && negb (HasPrefix (m_addr a) TORV2_IN_IPV6_PREFIX) then a
  else CNetAddr_default.

Definition UnserializeV2Stream : Parser CNetAddr :=
  bip155_net ← ser_readdata8;
  address_size ← ReadCompactSize true;
  if MAX_ADDRV2_SIZE <? address_size then failure else
  fun s =>
    net ← SetNetFromBIP155Network bip155_net address_size;
    '(addr, s) ← read_bytes (Z.to_nat address_size) s;
    match net with
    | Some net => Ok (check_v2 (MkNetAddr net addr), s)
    | None => Ok (CNetAddr_default, s)
    end.

(** [s.GetVersion() & ADDRV2_FORMAT] *)
Definition ser_netaddr (v2 : bool) (a : CNetAddr) : res unit (list Z) :=
  if v2 then SerializeV2Stream a else SerializeV1Array a.
Definition unser_netaddr (v2 : bool) : Parser CNetAddr := if v2 then UnserializeV2Stream else UnserializeV1Stream.

Definition GetAddrBytes (a : CNetAddr) : res unit (list Z) :=
  v1 ← IsAddrV1Compatible a;
  if v1 : bool then SerializeV1Array a else Ok (m_addr a).

(** ** Services *)

(** ** Reachability *)

Inductive Reachability : Type :=
| REACH_UNREACHABLE | REACH_DEFAULT | REACH_TEREDO | REACH_IPV6_WEAK | REACH_IPV4 | REACH_IPV6_STRONG | REACH_PRIVATE.

(** The networks with the two extensions; an unknown partner has no address. *)
Inductive ext_network : Type := Net (n : Network) | NET_TEREDO | NET_UNKNOWN.

Definition GetExtNetwork (fAllowPrivateNet : bool) (addr : option CNetAddr) : ext_network :=
  match addr with
  | None => NET_UNKNOWN
  | Some a => if IsRFC4380 a then NET_TEREDO else Net (GetNetwork a fAllowPrivateNet)
  end.

Definition GetReachabilityFrom (fAllowPrivateNet : bool) (a : CNetAddr) (paddrPartner : option CNetAddr) : Reachability :=
  if negb (IsRoutable a fAllowPrivateNet) || IsInternal a then REACH_UNREACHABLE else
  let fTunnel := IsRFC3964 a || IsRFC6052 a || IsRFC6145 a in
  match GetExtNetwork fAllowPrivateNet paddrPartner, GetExtNetwork fAllowPrivateNet (Some a) with
  | Net NET_IPV4, Net NET_IPV4 => REACH_IPV4
  | Net NET_IPV4, _ => REACH_DEFAULT
  | Net NET_IPV6, NET_TEREDO => REACH_TEREDO
  | Net NET_IPV6, Net NET_IPV4 => REACH_IPV4
  | Net NET_IPV6, Net NET_IPV6 => if fTunnel then REACH_IPV6_WEAK else REACH_IPV6_STRONG
  | Net NET_IPV6, _ => REACH_DEFAULT
  | Net NET_ONION, Net NET_IPV4 => REACH_IPV4
  | Net NET_ONION, Net NET_ONION => REACH_PRIVATE
  | Net NET_ONION, _ => REACH_DEFAULT
  | NET_TEREDO, NET_TEREDO => REACH_TEREDO
  | NET_TEREDO, Net NET_IPV6 => REACH_IPV6_WEAK
  | NET_TEREDO, Net NET_IPV4 => REACH_IPV4
  | NET_TEREDO, _ => REACH_DEFAULT
  | _, NET_TEREDO => REACH_TEREDO
  | _, Net NET_IPV6 => REACH_IPV6_WEAK
  | _, Net NET_IPV4 => REACH_IPV4
  | _, Net NET_ONION => REACH_PRIVATE
  | _, _ => REACH_DEFAULT
  end.

Record CService : Type := MkService { service_addr : CNetAddr; port : Z }.

(** operator== *)
#[export] Instance CService_eq_dec : EqDecision CService.
Proof. solve_decision. Defined.

Definition CService_default : CService := MkService CNetAddr_default 0.

Definition ser_service (v2 : bool) (s : CService) : res unit (list Z) :=
  a ← ser_netaddr v2 (service_addr s); Ok (a ++ ser_writedata16be (port s)).
Definition unser_service (v2 : bool) : Parser CService :=
  a ← unser_netaddr v2; p ← ser_readdata16be; mret (MkService a p).

Definition GetKey (s : CService) : res unit (list Z) :=
  key ← GetAddrBytes (service_addr s); Ok (key ++ [port s / 0x100; Z.land (port s) 0x0FF]).

(** ** Subnets *)

Record CSubNet : Type := MkSubNet { network : CNetAddr; netmask : list Z; valid : bool }.

Definition CSubNet_default : CSubNet := MkSubNet CNetAddr_default (replicate 16 0) false.

(** The bytes of the netmask of a prefix of [n] bits. *)
Fixpoint mask_bytes (size : nat) (n : Z) : list Z :=
  match size with
  | O => []
  | S size => let bits := if n <? 8 then n else 8 in u8 (Z.shiftl 0xFF (8 - bits)) :: mask_bytes size (n - bits)
  end.

Definition pad16 (v : list Z) : list Z := v ++ replicate (16 - length v) 0.

Definition mask_network (addr : CNetAddr) (mask : list Z) : CNetAddr :=
  MkNetAddr (m_net addr) (zip_with Z.land (m_addr addr) mask).

Definition CSubNet_prefix (addr : CNetAddr) (mask : Z) : CSubNet :=
  if negb ((IsIPv4 addr && (mask <=? Z.of_nat ADDR_IPV4_SIZE * 8)) || (IsIPv6 addr && (mask <=? Z.of_nat ADDR_IPV6_SIZE * 8)))
  then CSubNet_default else
  let m := mask_bytes (length (m_addr addr)) mask in
  MkSubNet (mask_network addr m) (pad16 m) true.

Definition NetmaskBits (x : Z) : Z :=
  if x =? 0x00 then 0 else if x =? 0x80 then 1 else if x =? 0xc0 then 2 else if x =? 0xe0 then 3 else
  if x =? 0xf0 then 4 else if x =? 0xf8 then 5 else if x =? 0xfc then 6 else if x =? 0xfe then 7 else
  if x =? 0xff then 8 else -1.

Fixpoint netmask_ok (mask : list Z) (zeros_found : bool) : bool :=
  match mask with
  | [] => true
  | b :: mask =>
      let num_bits := NetmaskBits b in
      if (num_bits =? -1) || (zeros_found && negb (num_bits =? 0)) then false
      else netmask_ok mask (if num_bits <? 8 then true else zeros_found)
  end.

Definition CSubNet_mask (addr mask : CNetAddr) : CSubNet :=
  if negb ((IsIPv4 addr || IsIPv6 addr) && bool_decide (m_net addr = m_net mask)) then CSubNet_default else
  if negb (netmask_ok (m_addr mask) false) then CSubNet_default else
  MkSubNet (mask_network addr (m_addr mask)) (pad16 (m_addr mask)) true.

Definition CSubNet_single (addr : CNetAddr) : CSubNet :=
  if negb (IsIPv4 addr || IsIPv6 addr) then CSubNet_default
  else MkSubNet addr (pad16 (replicate (length (m_addr addr)) 0xFF)) true.

Definition SubNet_Match (sub : CSubNet) (addr : CNetAddr) : res unit bool :=
  if negb (valid sub) || negb (IsValid_addr addr) || negb (bool_decide (m_net (network sub) = m_net addr)) then Ok false else
  if negb (length (m_addr (network sub)) =? length (m_addr addr))%nat then Abort else
  Ok (bool_decide (zip_with Z.land (m_addr addr) (netmask sub) = m_addr (network sub))).

Definition SubNet_SanityCheck (sub : CSubNet) : bool :=
  (IsIPv4 (network sub) || IsIPv6 (network sub)) &&
  forallb (fun p => negb (flag p.1 (Z.lnot p.2))) (zip (m_addr (network sub)) (netmask sub)).

Definition ser_subnet (v2 : bool) (sub : CSubNet) : res unit (list Z) :=
  n ← ser_netaddr v2 (network sub);
  Ok (n ++ (if IsIPv4 (network sub) then replicate 12 0 ++ take 4 (netmask sub) else netmask sub) ++
      ser_writedata8 (b2z (valid sub))).

(** For IPv4 the rest of the netmask keeps the zeros of the constructor. *)
Definition unser_subnet (v2 : bool) : Parser CSubNet :=
  n ← unser_netaddr v2;
  mask ← (if IsIPv4 n then _ ← read_bytes 12; m ← read_bytes 4; mret (pad16 m) else read_bytes 16);
  v ← ser_readdata8;
  let sub := MkSubNet n mask (negb (v =? 0)) in
  mret (if valid sub then MkSubNet n mask (SubNet_SanityCheck sub) else sub).

(** ** Well-formed addresses *)

Definition embedded (v : list Z) : bool :=
  HasPrefix v IPV4_IN_IPV6_PREFIX || HasPrefix v TORV2_IN_IPV6_PREFIX || HasPrefix v INTERNAL_IN_IPV6_PREFIX.

(** The size fits the network, and an IPv6 address is not an address of another network in disguise. *)
Definition addr_ok (a : CNetAddr) : Prop :=
  bytes_ok (m_addr a) /\
  match m_net a with
  | NET_IPV4 => length (m_addr a) = ADDR_IPV4_SIZE
  | NET_IPV6 => length (m_addr a) = ADDR_IPV6_SIZE /\ embedded (m_addr a) = false
  | NET_ONION => length (m_addr a) = ADDR_TORV2_SIZE \/ length (m_addr a) = ADDR_TORV3_SIZE
  | NET_I2P => length (m_addr a) = ADDR_I2P_SIZE
  | NET_CJDNS => length (m_addr a) = ADDR_CJDNS_SIZE
  | NET_INTERNAL => length (m_addr a) = ADDR_INTERNAL_SIZE
  | NET_UNROUTABLE | NET_MAX => False
  end.

Lemma HasPrefix_spec v p : HasPrefix v p = true <-> exists w, v = p ++ w.
Proof.
  unfold HasPrefix. rewrite andb_true_iff, Nat.leb_le, bool_decide_eq_true. split.
  - intros [_ H]. exists (drop (length p) v). by rewrite <- H at 1; rewrite take_drop.
  - intros [w ->]. by rewrite length_app, take_app_length; split; [lia|].
Qed.

Lemma HasPrefix_app p w : HasPrefix (p ++ w) p = true.
Proof. apply HasPrefix_spec. by exists w. Qed.

(** The prefixes of the embedded networks exclude each other. *)
Lemma HasPrefix_false v p : (forall w, v <> p ++ w) -> HasPrefix v p = false.
Proof. intros H. destruct (HasPrefix v p) eqn:E; [|done]. apply HasPrefix_spec in E as [w E]. by destruct (H w). Qed.

Lemma TORV2_not_IPV4 v : HasPrefix (TORV2_IN_IPV6_PREFIX ++ v) IPV4_IN_IPV6_PREFIX = false.
Proof. by apply HasPrefix_false. Qed.
Lemma INTERNAL_not_IPV4 v : HasPrefix (INTERNAL_IN_IPV6_PREFIX ++ v) IPV4_IN_IPV6_PREFIX = false.
Proof. by apply HasPrefix_false. Qed.
Lemma INTERNAL_not_TORV2 v : HasPrefix (INTERNAL_IN_IPV6_PREFIX ++ v) TORV2_IN_IPV6_PREFIX = false.
Proof. by apply HasPrefix_false. Qed.

Lemma CNetAddr_default_ok : addr_ok CNetAddr_default.
Proof. split; [repeat constructor; lia|by vm_compute]. Qed.

Lemma embed_Ok p a arr : embed p a = Ok arr -> arr = p ++ m_addr a /\ length arr = V1_SERIALIZATION_SIZE.
Proof.
  unfold embed. case_bool; [|done]. apply Nat.eqb_eq in Heqb. intros H. assert (arr = p ++ m_addr a) as -> by congruence.
  by rewrite length_app.
Qed.

(** Reading the legacy format inverts the embedding. *)
Lemma SetLegacyIPv6_array a arr :
  addr_ok a -> IsAddrV1Compatible a = Ok true -> SerializeV1Array a = Ok arr ->
  length arr = V1_SERIALIZATION_SIZE /\ SetLegacyIPv6 arr = Ok a.
Proof.
  intros [Hb Ha] Hv Hs. assert (Hvs : has_size a ADDR_TORV3_SIZE = false \/ m_net a <> NET_ONION).
  { unfold IsAddrV1Compatible, has_size in *. destruct (m_net a); try (by right). left. injection Hv as Hv.
    apply Nat.eqb_eq in Hv. by rewrite Hv. }
  destruct a as [net v]. unfold SerializeV1Array in Hs. cbn [m_net m_addr] in *.
  assert (exists p, embed p (MkNetAddr net v) = Ok arr /\
    match net with NET_IPV4 => p = IPV4_IN_IPV6_PREFIX | NET_ONION => p = TORV2_IN_IPV6_PREFIX | NET_INTERNAL => p = INTERNAL_IN_IPV6_PREFIX
    | NET_IPV6 => p = [] | _ => False end) as (p & Hp & Hnet).
  { destruct net; try done; try (by eexists). destruct Hvs as [Hvs|]; [|done]. rewrite Hvs in Hs. by eexists. }
  apply embed_Ok in Hp as [-> Hl]. split; [done|]. cbn [m_addr] in *. unfold SetLegacyIPv6. rewrite Hl. cbn [Nat.eqb negb ADDR_IPV6_SIZE V1_SERIALIZATION_SIZE].
  destruct net; try done; subst p; rewrite ?HasPrefix_app, ?TORV2_not_IPV4, ?INTERNAL_not_IPV4, ?INTERNAL_not_TORV2; try done.
  destruct Ha as [_ He]; unfold embedded in He; bprop; cbn [app].
  by repeat match goal with H : HasPrefix _ _ = false |- _ => rewrite H; clear H end.
Qed.

Lemma SerializeV1Array_total a : addr_ok a -> exists arr, SerializeV1Array a = Ok arr.
Proof.
  intros [Hb Ha]. destruct a as [net v]. unfold SerializeV1Array, has_size, embed. cbn [m_net m_addr] in *.
  destruct net; try done; cbn [app length]; [rewrite Ha; by eexists|destruct Ha as [-> _]; by eexists| |by eexists..|rewrite Ha; by eexists].
  destruct Ha as [->| ->]; by eexists.
Qed.

(** What is read, from whichever format, is well-formed. *)
Lemma SetLegacyIPv6_ok v a : bytes_ok v -> SetLegacyIPv6 v = Ok a -> addr_ok a.
Proof.
  intros Hb. unfold SetLegacyIPv6. case_bool; [done|]. bprop. apply Nat.eqb_eq in Heqb.
  destruct (HasPrefix v IPV4_IN_IPV6_PREFIX) eqn:E1; [|destruct (HasPrefix v TORV2_IN_IPV6_PREFIX) eqn:E2; [|destruct (HasPrefix v INTERNAL_IN_IPV6_PREFIX) eqn:E3]].
  all: intros [= <-]; split; cbn [m_net m_addr]; auto with piratecash.
  1-3: rewrite length_drop, Heqb; (done || by left).
  split; [done|]. unfold embedded. by rewrite drop_0, E1, E2, E3.
Qed.

Lemma check_v2_ok net v :
  bytes_ok v -> (net = NET_IPV6 -> length v = ADDR_IPV6_SIZE) ->
  (net <> NET_IPV6 -> addr_ok (MkNetAddr net v)) -> addr_ok (check_v2 (MkNetAddr net v)).
Proof.
  intros Hb H6 Hn. unfold check_v2, IsIPv6, is_net. cbn [m_net m_addr]. destruct (decide (net = NET_IPV6)) as [->|H].
  2: { rewrite bool_decide_eq_false_2 by done. by apply Hn. }
  specialize (H6 eq_refl). rewrite bool_decide_eq_true_2 by done. cbn [negb].
  destruct (HasPrefix v INTERNAL_IN_IPV6_PREFIX) eqn:E1.
  - split; cbn [m_net m_addr]; [auto with piratecash|]. by rewrite length_take, length_drop, H6.
  - destruct (HasPrefix v IPV4_IN_IPV6_PREFIX) eqn:E2, (HasPrefix v TORV2_IN_IPV6_PREFIX) eqn:E3; try apply CNetAddr_default_ok.
    split; [done|]. cbn. split; [done|]. unfold embedded. by rewrite E1, E2, E3.
Qed.

Lemma check_v2_id a : addr_ok a -> check_v2 a = a.
Proof.
  intros [_ Ha]. unfold check_v2, IsIPv6, is_net. case_bool_decide as E; [|done]. rewrite E in Ha. destruct Ha as [_ He].
  unfold embedded in He. bprop. cbn [negb]. by repeat match goal with H : HasPrefix _ _ = false |- _ => rewrite H; clear H end.
Qed.

Lemma SetNetFromBIP155Network_GetBIP155Network a net :
  addr_ok a -> GetBIP155Network a = Ok net ->
  unsigned 8 net /\ SetNetFromBIP155Network net (zlen (m_addr a)) = Ok (Some (m_net a)).
Proof.
  intros [_ Ha]. destruct a as [n v]. unfold GetBIP155Network, has_size, zlen. cbn [m_net m_addr] in *.
  destruct n; try done; try (intros [= <-]; rewrite ?Ha; (split; [by split|done])).
  - destruct Ha as [-> _]. intros [= <-]. split; [by split|done].
  - destruct Ha as [->| ->]; cbn [Nat.eqb ADDR_TORV2_SIZE ADDR_TORV3_SIZE]; intros [= <-]; (split; [by split|done]).
Qed.

Lemma GetBIP155Network_total a : addr_ok a -> IsInternal a = false -> exists net, GetBIP155Network a = Ok net.
Proof.
  intros [_ Ha] Hi. destruct a as [n v]. unfold GetBIP155Network, has_size, IsInternal, is_net in *. cbn [m_net m_addr] in *.
  destruct n; try done; try (by eexists). destruct Ha as [->| ->]; by eexists.
Qed.

Lemma addr_ok_size a : addr_ok a -> (4 <= length (m_addr a) <= 32)%nat.
Proof.
  intros [_ Ha]. unfold ADDR_IPV4_SIZE, ADDR_IPV6_SIZE, ADDR_TORV2_SIZE, ADDR_TORV3_SIZE, ADDR_I2P_SIZE, ADDR_CJDNS_SIZE, ADDR_INTERNAL_SIZE in Ha.
  destruct (m_net a); lia.
Qed.

(** Reading a v2 address whose network and bytes are given. *)
Lemma UnserializeV2_write net n v rest :
  unsigned 8 net -> zlen v <= MAX_ADDRV2_SIZE -> SetNetFromBIP155Network net (zlen v) = Ok (Some n) ->
  UnserializeV2Stream (ser_writedata8 net ++ write_bytes v ++ rest) = Ok (check_v2 (MkNetAddr n v), rest).
Proof.
  intros Hn Hl Hs. unfold UnserializeV2Stream. rewrite (codec_bind _ _ _ _ _ _ codec_u8) by done.
  unfold write_bytes. rewrite <- app_assoc, (codec_bind _ _ _ _ _ _ codec_CompactSize).
  2: { split; [apply zlen_nonneg|]. etrans; [exact Hl|done]. }
  rewrite (proj2 (Z.ltb_ge _ _)) by done. rewrite Hs. cbn [mbind res_bind]. rewrite read_bytes_app by (unfold zlen; lia). done.
Qed.

(** An address in either format is read back. *)
Lemma netaddr_read_back v2 a :
  addr_ok a -> (v2 = false -> IsAddrV1Compatible a = Ok true) ->
  exists s, ser_netaddr v2 a = Ok s /\ forall rest, unser_netaddr v2 (s ++ rest) = Ok (a, rest).
Proof.
  intros Ha Hv. destruct (SerializeV1Array_total a Ha) as [arr Harr]. destruct v2; cbn [ser_netaddr unser_netaddr].
  2: { destruct (SetLegacyIPv6_array a arr Ha (Hv eq_refl) Harr) as [Hl Hs]. exists arr. split; [done|]. intros rest.
       unfold UnserializeV1Stream. rewrite read_bytes_app by done. by rewrite Hs. }
  clear Hv. unfold SerializeV2Stream. destruct (IsInternal a) eqn:Ei.
  - unfold IsInternal, is_net in Ei. bprop. assert (Hv1 : IsAddrV1Compatible a = Ok true) by (unfold IsAddrV1Compatible; by rewrite Ei).
    unfold SerializeV1Array in Harr. rewrite Ei in Harr. pose proof Harr as [-> Hl]%embed_Ok.
    unfold SerializeV1Array. rewrite Ei, Harr.
    exists (ser_writedata8 2 ++ WriteCompactSize (Z.of_nat ADDR_IPV6_SIZE) ++ INTERNAL_IN_IPV6_PREFIX ++ m_addr a). split; [done|]. intros rest.
    pose proof (UnserializeV2_write 2 NET_IPV6 (INTERNAL_IN_IPV6_PREFIX ++ m_addr a) rest) as R.
    unfold write_bytes, zlen in R. rewrite Hl in R. change V1_SERIALIZATION_SIZE with ADDR_IPV6_SIZE in R. rewrite <- !app_assoc in R. rewrite <- !app_assoc. rewrite R by (done || by split).
    unfold check_v2. cbn [m_addr IsIPv6 is_net m_net]. rewrite HasPrefix_app. cbn [negb bool_decide decide_rel].
    destruct Ha as [_ Ha]. destruct a as [n v]. cbn [m_net m_addr] in *. subst n. by rewrite drop_app_length, take_ge by (rewrite Ha; done).
  - destruct (GetBIP155Network_total a Ha Ei) as [net Hnet]. rewrite Hnet. cbn [mbind res_bind]. eexists. split; [done|]. intros rest.
    destruct (SetNetFromBIP155Network_GetBIP155Network a net Ha Hnet) as [Hu Hs]. rewrite <- app_assoc.
    rewrite (UnserializeV2_write net (m_net a)) by (done || (pose proof (addr_ok_size a Ha); unfold zlen, MAX_ADDRV2_SIZE; lia)).
    destruct a as [n v]. by rewrite check_v2_id.
Qed.

(** An address is read back as it was written, in the format of BIP 155 always and in the older one for
    the networks it has room for; no assertion about sizes fails on the way. *)
Theorem netaddr_roundtrip v2 a rest :
  addr_ok a -> (v2 = false -> IsAddrV1Compatible a = Ok true) ->
  exists s, ser_netaddr v2 a = Ok s /\ unser_netaddr v2 (s ++ rest) = Ok (a, rest).
Proof.
  intros Ha Hv. destruct (netaddr_read_back v2 a Ha Hv) as (s & Hs & Hr). by exists s.
Qed.

Definition onion_addr : CNetAddr := MkNetAddr NET_ONION (replicate 32 7).
Definition ipv4_addr : CNetAddr := MkNetAddr NET_IPV4 [1; 2; 3; 4].

Lemma onion_addr_ok : addr_ok onion_addr.
Proof. split; [repeat constructor; lia|by right]. Qed.
Lemma ipv4_addr_ok : addr_ok ipv4_addr.
Proof. split; [repeat constructor; lia|done]. Qed.

Lemma netaddr_roundtrip_witness :
  (exists s, ser_netaddr true onion_addr = Ok s /\ unser_netaddr true (s ++ [9]) = Ok (onion_addr, [9])) /\
  (exists s, ser_netaddr false ipv4_addr = Ok s /\ unser_netaddr false (s ++ [9]) = Ok (ipv4_addr, [9])).
Proof.
  split; [apply (netaddr_roundtrip true onion_addr [9] onion_addr_ok); discriminate|].
  apply (netaddr_roundtrip false ipv4_addr [9] ipv4_addr_ok); reflexivity.
Defined.

(** What is read is well-formed, whichever the format. *)
Lemma unser_netaddr_ok v2 s a rest : bytes_ok s -> unser_netaddr v2 s = Ok (a, rest) -> addr_ok a.
Proof.
  intros Hb. destruct v2; cbn [unser_netaddr].
  2: { unfold UnserializeV1Stream. destruct (read_bytes _ s) as [[arr s']| |] eqn:Er; try done.
       apply read_bytes_inv in Er as [-> _]. apply bytes_ok_app in Hb as [Hb _]. intros (a' & Ha & [= -> ->])%bind_Ok.
       by eapply SetLegacyIPv6_ok. }
  unfold UnserializeV2Stream. intros (net & s1 & (b & s2 & Hr1 & [= _ ->])%parser_bind_Ok & H)%parser_bind_Ok.
  apply read_bytes_inv in Hr1 as [-> _]. apply bytes_ok_app in Hb as [_ Hb].
  apply (canonical_bind _ _ _ _ _ _ canonical_CompactSize) in H as (size & s3 & -> & _ & Hb3 & H); [|done]. case_bool; [done|].
  apply bind_Ok in H as (on & Hn & ([v s4] & Hr & H)%bind_Ok). apply read_bytes_inv in Hr as [-> Hl]. apply bytes_ok_app in Hb3 as [Hv _].
  destruct on as [n|]; injection H as <- _; [|apply CNetAddr_default_ok].
  unfold SetNetFromBIP155Network in Hn. apply check_v2_ok; [done|..].
  all: intros Hne; repeat (case_bool; bprop; try done; try (injection Hn as <-; subst size; try done; split; cbn; auto; fail)).
Qed.

(** ** Groups of well-formed addresses *)

Lemma length_bits_of n x : length (bits_of n x) = n.
Proof. unfold bits_of. by rewrite length_map, length_rev, length_seq. Qed.

Lemma length_byte_bits v : length (byte_bits v) = (8 * length v)%nat.
Proof. induction v as [|b v IH]; [done|]. cbn [byte_bits flat_map]. rewrite length_app, length_bits_of. unfold byte_bits in IH. cbn [length]. lia. Qed.

Lemma GetLinkedIPv4_total priv a : HasLinkedIPv4 priv a = true -> exists x, GetLinkedIPv4 a = Ok x.
Proof.
  unfold HasLinkedIPv4, GetLinkedIPv4. intros [_ H]%andb_true_iff.
  destruct (IsIPv4 a), (IsRFC6145 a), (IsRFC6052 a), (IsRFC3964 a), (IsRFC4380 a); try done; by eexists.
Qed.

Lemma GetMappedAS_total priv a asmap :
  addr_ok a -> zlen asmap < 2 ^ 32 -> (asmap <> [] -> SanityCheckASMap asmap 128 = true) ->
  exists asn, GetMappedAS priv a asmap = Ok asn.
Proof.
  intros Ha Hl Hs. unfold GetMappedAS. destruct (zlen asmap =? 0) eqn:E0; [by eexists|]. cbn [orb].
  assert (Hne : asmap <> []) by by intros ->. specialize (Hs Hne).
  destruct (bool_decide (GetNetClass priv a = NET_IPV4) || bool_decide (GetNetClass priv a = NET_IPV6)) eqn:Ec; cbn [negb]; [|by eexists].
  destruct (HasLinkedIPv4 priv a) eqn:El.
  - destruct (GetLinkedIPv4_total priv a El) as [x ->]. cbn [mbind res_bind].
    by apply (checked_Interpret _ _ 128).
  - assert (H6 : m_net a = NET_IPV6).
    { unfold GetNetClass in Ec. rewrite El in Ec. destruct (IsInternal a), (IsRoutable a priv) eqn:Er; try done. cbn [negb] in Ec.
      apply orb_true_iff in Ec as [Ec|Ec]; bprop; [|done]. unfold HasLinkedIPv4, IsIPv4, is_net in El. rewrite Er, Ec in El. done. }
    unfold IsIPv6, is_net. rewrite bool_decide_eq_true_2 by done. cbn [mbind res_bind].
    destruct Ha as [_ Ha]. rewrite H6 in Ha. destruct Ha as [Hsz _]. rewrite take_ge by (rewrite Hsz; done).
    apply (checked_Interpret _ _ 128); try done. unfold zlen. by rewrite length_byte_bits, Hsz.
Qed.

Lemma push_bits_total a v nBits :
  0 <= nBits < 8 * zlen (m_addr a) \/ (0 <= nBits /\ nBits mod 8 = 0) -> exists g, push_bits a v nBits = Ok (v ++ g).
Proof.
  intros H. unfold push_bits. case_bool; [|by eexists]. bprop.
  destruct (lookup_lt_is_Some_2 (m_addr a) (Z.to_nat (nBits / 8))) as [b ->]; [|eexists; by rewrite <- app_assoc].
  destruct H as [H|H]; [|lia]. unfold zlen in H. apply Nat2Z.inj_lt. rewrite Z2Nat.id by (apply Z.div_pos; lia).
  apply Z.div_lt_upper_bound; lia.
Qed.

(** Every well-formed address has a group, with or without a map of autonomous systems, provided that
    the map passed the check that is made when it is loaded; the first byte of the group is the network
    class of the address, or that of IPv6 when the map decides. *)
Theorem GetGroup_total priv a asmap :
  addr_ok a -> zlen asmap < 2 ^ 32 -> (asmap <> [] -> SanityCheckASMap asmap 128 = true) ->
  exists net g, GetGroup priv a asmap = Ok (Network_val net :: g) /\ (net = GetNetClass priv a \/ net = NET_IPV6).
Proof.
  intros Ha Hl Hs. unfold GetGroup. destruct (GetMappedAS_total priv a asmap Ha Hl Hs) as [asn ->]. cbn [mbind res_bind].
  case_bool; [exists NET_IPV6; eexists; by auto|]. exists (GetNetClass priv a). case_bool.
  - bprop. match goal with H : HasLinkedIPv4 _ _ = true |- _ => destruct (GetLinkedIPv4_total priv a H) as [x ->] end.
    cbn [mbind res_bind]. eexists. by auto.
  - destruct (push_bits_total a [Network_val (GetNetClass priv a)] (group_bits priv a)) as [g ->]; [|eexists; by auto].
    pose proof (addr_ok_size a Ha) as Hz. unfold group_bits, zlen. do 4 (case_bool; [lia || by right|]).
    destruct (IsHeNet a) eqn:Eh; [left|by right]. unfold IsHeNet, IsIPv6, is_net in Eh. bprop.
    destruct Ha as [_ Ha]. match goal with H : m_net a = _ |- _ => rewrite H in Ha end. destruct Ha as [-> _]. done.
Qed.

Lemma GetGroup_total_witness :
  GetGroup false ipv4_addr sample_asmap = Ok [2; 1; 0; 0; 0] /\ GetGroup false ipv4_addr [] = Ok [1; 1; 2] /\
  exists net g, GetGroup false onion_addr sample_asmap = Ok (Network_val net :: g) /\
    (net = GetNetClass false onion_addr \/ net = NET_IPV6).
Proof.
  split; [vm_compute; reflexivity|]. split; [vm_compute; reflexivity|].
  apply (GetGroup_total false onion_addr sample_asmap onion_addr_ok); [vm_compute; reflexivity|intros _; vm_compute; reflexivity].
Defined.

(** ** Subnets *)

(** The number whose digits are the bytes. *)
Definition be_val (v : list Z) : Z := le_val (rev v).

Lemma be_val_cons b v : be_val (b :: v) = b * 256 ^ zlen v + be_val v.
Proof. unfold be_val. cbn [rev]. rewrite le_val_app, length_rev. cbn [le_val]. unfold zlen. lia. Qed.

Lemma be_val_bound v : bytes_ok v -> 0 <= be_val v < 256 ^ zlen v.
Proof. intros H. unfold be_val, zlen. rewrite <- length_rev. apply le_val_bound. by apply Forall_rev. Qed.

(** Masking a byte with the mask of its first [n] bits keeps these bits. *)
Lemma land_mask_byte n b :
  0 <= n <= 8 -> is_byte b -> Z.land b (u8 (Z.shiftl 0xFF (8 - n))) = b / 2 ^ (8 - n) * 2 ^ (8 - n).
Proof.
  intros Hn Hb. apply Z.eqb_eq. apply (byte_check (fun b => Z.land b (u8 (Z.shiftl 0xFF (8 - n))) =? b / 2 ^ (8 - n) * 2 ^ (8 - n))); [|done].
  assert (n = 0 \/ n = 1 \/ n = 2 \/ n = 3 \/ n = 4 \/ n = 5 \/ n = 6 \/ n = 7 \/ n = 8) as Hc by lia.
  destruct Hc as [->|[->|[->|[->|[->|[->|[->|[->| ->]]]]]]]]; vm_compute; reflexivity.
Qed.

Lemma mask_bytes_0 v w : length v = length w -> zip_with Z.land v (mask_bytes (length v) 0) = zip_with Z.land w (mask_bytes (length v) 0).
Proof.
  revert w. induction v as [|b v IH]; intros [|c w] H; try done. injection H as H. cbn [length mask_bytes zip_with].
  change (if 0 <? 8 then 0 else 8) with 0. change (u8 (Z.shiftl 255 (8 - 0))) with 0. change (0 - 0) with 0. rewrite !Z.land_0_r. f_equal. by apply IH.
Qed.

(** The first [n] bits of a number of [8 * k + 8] bits, when they reach beyond its first byte or not. *)
Lemma prefix_long b r k n : 0 <= k -> 8 <= n <= 8 * k + 8 -> 0 <= r < 256 ^ k ->
  (b * 256 ^ k + r) / 2 ^ (8 * (k + 1) - n) = b * 2 ^ (n - 8) + r / 2 ^ (8 * k - (n - 8)) /\ 0 <= r / 2 ^ (8 * k - (n - 8)) < 2 ^ (n - 8).
Proof.
  intros Hk Hn Hr. replace (8 * (k + 1) - n) with (8 * k - (n - 8)) by lia. set (m := 8 * k - (n - 8)).
  assert (Hm : 0 < 2 ^ m) by (apply Z.pow_pos_nonneg; lia).
  assert (H256 : 256 ^ k = 2 ^ (n - 8) * 2 ^ m) by (rewrite <- Z.pow_add_r by lia; change 256 with (2 ^ 8); rewrite <- Z.pow_mul_r by lia; f_equal; lia).
  rewrite H256 in Hr |- *. rewrite Z.mul_assoc, Z.div_add_l by lia. split; [done|]. split; [apply Z.div_pos; lia|].
  apply Z.div_lt_upper_bound; lia.
Qed.

Lemma prefix_short b r k n : 0 <= k -> 0 <= n <= 8 -> 0 <= r < 256 ^ k -> (b * 256 ^ k + r) / 2 ^ (8 * (k + 1) - n) = b / 2 ^ (8 - n).
Proof.
  intros Hk Hn Hr. replace (8 * (k + 1) - n) with (8 * k + (8 - n)) by lia. rewrite Z.pow_add_r by lia.
  rewrite (Z.pow_mul_r 2 8 k) by lia. change (2 ^ 8) with 256. rewrite <- Z.div_div by lia. rewrite Z.div_add_l by lia.
  rewrite (Z.div_small r) by lia. by rewrite Z.add_0_r.
Qed.

(** Masked bytes agree exactly when the first bits of the addresses do. *)
Lemma mask_bytes_prefix v w n :
  bytes_ok v -> bytes_ok w -> length v = length w -> 0 <= n <= 8 * zlen v ->
  zip_with Z.land v (mask_bytes (length v) n) = zip_with Z.land w (mask_bytes (length v) n) <->
  be_val v / 2 ^ (8 * zlen v - n) = be_val w / 2 ^ (8 * zlen v - n).
Proof.
  intros Hv. revert w n. induction Hv as [|b v Hb Hv IH]; intros [|c w] n Hw Hl Hn; try done. injection Hl as Hl.
  inversion_clear Hw as [|?? Hc Hw']. assert (Hz : zlen (b :: v) = zlen v + 1) by (unfold zlen; cbn [length]; lia).
  rewrite !be_val_cons, Hz. replace (zlen w) with (zlen v) by (unfold zlen; by rewrite Hl). rewrite Hz in Hn.
  pose proof (be_val_bound v Hv) as Hbv. pose proof (be_val_bound w Hw') as Hbw. replace (zlen w) with (zlen v) in Hbw by (unfold zlen; by rewrite Hl).
  assert (Hz0 : 0 <= zlen v) by (unfold zlen; lia). cbn [length mask_bytes zip_with].
  destruct (Z.ltb_spec n 8) as [Hs|Hs].
  - rewrite !prefix_short, !land_mask_byte by (done || lia). rewrite Z.sub_diag, (mask_bytes_0 v w Hl).
    assert (0 < 2 ^ (8 - n)) by (apply Z.pow_pos_nonneg; lia). split; [intros H'; injection H' as H'; nia|by intros ->].
  - destruct (prefix_long b (be_val v) (zlen v) n) as [-> Hx]; [lia..|]. destruct (prefix_long c (be_val w) (zlen v) n) as [-> Hy]; [lia..|].
    rewrite !land_mask_byte by (done || lia). change (2 ^ (8 - 8)) with 1. rewrite !Z.div_1_r, !Z.mul_1_r.
    specialize (IH w (n - 8) Hw' Hl ltac:(lia)). set (x := be_val v / _) in *. set (y := be_val w / _) in *.
    split; [intros H'; injection H' as -> H'; apply IH in H'; by rewrite H'|]. intros H'.
    assert (b = c /\ x = y) as [-> Hxy] by (clearbody x y; apply (Z.div_mod_unique (2 ^ (n - 8))); lia).
    f_equal. by apply IH.
Qed.

Lemma ip_size a :
  addr_ok a -> IsIPv4 a = true \/ IsIPv6 a = true ->
  (m_net a = NET_IPV4 /\ length (m_addr a) = 4%nat) \/ (m_net a = NET_IPV6 /\ length (m_addr a) = 16%nat).
Proof.
  intros [_ Ha] H. unfold IsIPv4, IsIPv6, is_net in H. rewrite !bool_decide_eq_true in H.
  destruct H as [H|H]; rewrite H in Ha |- *; [by left|right]. by destruct Ha.
Qed.

Lemma CSubNet_prefix_valid addr mask :
  addr_ok addr -> IsIPv4 addr = true \/ IsIPv6 addr = true -> mask <= 8 * zlen (m_addr addr) ->
  CSubNet_prefix addr mask =
  MkSubNet (mask_network addr (mask_bytes (length (m_addr addr)) mask)) (pad16 (mask_bytes (length (m_addr addr)) mask)) true.
Proof.
  intros Ha H46 Hm. unfold CSubNet_prefix. destruct (ip_size addr Ha H46) as [[E Hl]|[E Hl]]; unfold zlen in Hm; rewrite Hl in Hm.
  - unfold IsIPv4, is_net. rewrite bool_decide_eq_true_2 by done. by rewrite (proj2 (Z.leb_le mask (Z.of_nat ADDR_IPV4_SIZE * 8))) by (unfold ADDR_IPV4_SIZE; lia).
  - unfold IsIPv6, is_net. rewrite bool_decide_eq_true_2 by done. rewrite (proj2 (Z.leb_le mask (Z.of_nat ADDR_IPV6_SIZE * 8))) by (unfold ADDR_IPV6_SIZE; lia).
    by rewrite orb_true_r.
Qed.

Lemma length_mask_bytes n m : length (mask_bytes n m) = n.
Proof. revert m. induction n; intros m; cbn; auto. Qed.

Lemma zip_with_pad16 v m : length m = length v -> zip_with Z.land v (pad16 m) = zip_with Z.land v m.
Proof. intros H. unfold pad16. rewrite <- (app_nil_r v) at 1. rewrite zip_with_app by done. cbn. apply app_nil_r. Qed.

(** A subnet given by an address and a number of bits matches exactly the valid addresses of the same
    network whose first bits are those of the address. *)
Theorem SubNet_prefix_matches addr mask x :
  addr_ok addr -> addr_ok x -> IsIPv4 addr = true \/ IsIPv6 addr = true -> 0 <= mask <= 8 * zlen (m_addr addr) ->
  let skip := 8 * zlen (m_addr addr) - mask in
  SubNet_Match (CSubNet_prefix addr mask) x =
  Ok (IsValid_addr x && bool_decide (m_net addr = m_net x) && (be_val (m_addr x) / 2 ^ skip =? be_val (m_addr addr) / 2 ^ skip)).
Proof.
  intros Ha Hx H46 Hm skip. rewrite CSubNet_prefix_valid by (done || lia). unfold SubNet_Match.
  cbn [negb valid network netmask mask_network m_net m_addr orb].
  destruct (IsValid_addr x); [|done]. cbn [negb andb orb]. case_bool_decide as En; [|done]. cbn [negb andb].
  assert (Hlen : length (m_addr x) = length (m_addr addr)).
  { destruct (ip_size addr Ha H46) as [[E ->]|[E ->]]; destruct Hx as [_ Hx]; rewrite <- En, E in Hx; [done|by destruct Hx]. }
  rewrite length_zip_with, length_mask_bytes, Nat.min_id, Hlen, Nat.eqb_refl. cbn [negb]. f_equal.
  rewrite zip_with_pad16 by by rewrite length_mask_bytes, Hlen.
  destruct Ha as [Hab _], Hx as [Hxb _]. pose proof (mask_bytes_prefix (m_addr x) (m_addr addr) mask Hxb Hab Hlen) as H.
  unfold zlen in *. rewrite Hlen in H. specialize (H Hm). fold skip in H. case_bool_decide as Eq; symmetry; [apply Z.eqb_eq|apply Z.eqb_neq]; tauto.
Qed.

Lemma SubNet_prefix_matches_witness :
  SubNet_Match (CSubNet_prefix ipv4_addr 16) (MkNetAddr NET_IPV4 [1; 2; 9; 9]) = Ok true /\
  SubNet_Match (CSubNet_prefix ipv4_addr 17) (MkNetAddr NET_IPV4 [1; 2; 128; 9]) = Ok false.
Proof.
  assert (Hok : forall b, is_byte b -> addr_ok (MkNetAddr NET_IPV4 [1; 2; b; 9])) by (intros b Hb; split; [repeat (constructor; [exact Hb || (split; [discriminate|reflexivity])|]); constructor|reflexivity]).
  split; (etransitivity; [apply (SubNet_prefix_matches ipv4_addr _ _ ipv4_addr_ok);
    [apply Hok; split; [discriminate|reflexivity]|left; reflexivity|split; vm_compute; discriminate]|vm_compute; reflexivity]).
Defined.
