(* ===== verification/Masternodes.v ===== *)
(** * The list of masternodes

    Model of CDeterministicMNState and its differences (src/src/evo/dmnstate.h) and of CDeterministicMN
    and CDeterministicMNList (src/src/evo/deterministicmns.h and .cpp).  A list holds the masternodes by the
    hash of their registration, the hashes by internal id, and the owner of every property that must be
    unique, with the number of times it is used.  Operator keys are BLS keys; a key that was read is valid
    or all zero, because reading rejects the others, so a key is its bytes.  The maps are persistent, so a
    copy is the value, and the order in which a map is iterated is that of [map_to_list]. *)

From stdpp Require Import base list numbers gmap sorting.
From S2P Require Import Prelude Script Crypto Serialize Transaction Coins NetAddress.

Open Scope Z_scope.

(** ** Keys and unique properties *)

Definition BLS_CURVE_PUBKEY_SIZE : nat := 48.

Record CBLSPublicKey : Type := MkBLSPublicKey { bls_bytes : list Z }.

#[export] Instance CBLSPublicKey_eq_dec : EqDecision CBLSPublicKey.
Proof. solve_decision. Defined.

Definition CBLSPublicKey_default : CBLSPublicKey := MkBLSPublicKey (replicate BLS_CURVE_PUBKEY_SIZE 0).
Definition BLS_IsValid (k : CBLSPublicKey) : bool := bool_decide (k <> CBLSPublicKey_default).

Definition null_keyid : list Z := replicate 20 0.

(** The types of values AddUniqueProperty and its companions are used with: the value that counts as unset,
    and the bytes that SerializeHash hashes. *)
Class UniqueProperty (T : Type) `{EqDecision T} : Type := { nullValue : T; property_bytes : T -> list Z }.

#[export] Instance outpoint_property : UniqueProperty COutPoint :=
  {| nullValue := outpoint_SetNull; property_bytes := ser_outpoint |}.
(** A service has the old format here, which has room for the addresses a registration can carry. *)
#[export] Instance service_property : UniqueProperty CService :=
  {| nullValue := CService_default;
     property_bytes s := match ser_service false s with Ok b => b | _ => [] end |}.
#[export] Instance keyid_property : UniqueProperty (list Z) :=
  {| nullValue := null_keyid; property_bytes k := k |}.
#[export] Instance blskey_property : UniqueProperty CBLSPublicKey :=
  {| nullValue := CBLSPublicKey_default; property_bytes := bls_bytes |}.

Definition SerializeHash {crypto : CryptoOps} {T} `{UniqueProperty T} (v : T) : list Z := Hash (property_bytes v).

(** ** The state of a masternode *)

Definition REASON_NOT_SPECIFIED : Z := 0.

Record CDeterministicMNState : Type := MkState {
  nPoSeBanHeight : Z;
  nRegisteredHeight : Z;
  nLastPaidHeight : Z;
  nPoSePenalty : Z;
  nPoSeRevivedHeight : Z;
  nRevocationReason : Z;
  confirmedHash : list Z;
  confirmedHashWithProRegTxHash : list Z;
  keyIDOwner : list Z;
  pubKeyOperator : CBLSPublicKey;
  keyIDVoting : list Z;
  addr : CService;
  scriptPayout : list Z;
  scriptOperatorPayout : list Z
}.

#[export] Instance CDeterministicMNState_eq_dec : EqDecision CDeterministicMNState.
Proof. solve_decision. Defined.

Definition CDeterministicMNState_default : CDeterministicMNState :=
  MkState (-1) (-1) 0 0 (-1) REASON_NOT_SPECIFIED null_hash null_hash null_keyid CBLSPublicKey_default null_keyid
    CService_default [] [].

Section state_updates.
Context (s : CDeterministicMNState).

(** Assignments to the members. *)
Definition with_heights (ban registered paid penalty revived : Z) : CDeterministicMNState :=
  MkState ban registered paid penalty revived (nRevocationReason s) (confirmedHash s) (confirmedHashWithProRegTxHash s)
    (keyIDOwner s) (pubKeyOperator s) (keyIDVoting s) (addr s) (scriptPayout s) (scriptOperatorPayout s).

Definition with_nPoSePenalty (penalty : Z) : CDeterministicMNState :=
  with_heights (nPoSeBanHeight s) (nRegisteredHeight s) (nLastPaidHeight s) penalty (nPoSeRevivedHeight s).
Definition with_nLastPaidHeight (paid : Z) : CDeterministicMNState :=
  with_heights (nPoSeBanHeight s) (nRegisteredHeight s) paid (nPoSePenalty s) (nPoSeRevivedHeight s).
Definition with_nRegisteredHeight (registered : Z) : CDeterministicMNState :=
  with_heights (nPoSeBanHeight s) registered (nLastPaidHeight s) (nPoSePenalty s) (nPoSeRevivedHeight s).

Definition with_operator (reason : Z) (key : CBLSPublicKey) (addr : CService) (payout : list Z) : CDeterministicMNState :=
  MkState (nPoSeBanHeight s) (nRegisteredHeight s) (nLastPaidHeight s) (nPoSePenalty s) (nPoSeRevivedHeight s) reason
    (confirmedHash s) (confirmedHashWithProRegTxHash s) (keyIDOwner s) key (keyIDVoting s) addr (scriptPayout s) payout.

Definition with_registrar (key : CBLSPublicKey) (voting payout : list Z) : CDeterministicMNState :=
  MkState (nPoSeBanHeight s) (nRegisteredHeight s) (nLastPaidHeight s) (nPoSePenalty s) (nPoSeRevivedHeight s)
    (nRevocationReason s) (confirmedHash s) (confirmedHashWithProRegTxHash s) (keyIDOwner s) key voting (addr s) payout
    (scriptOperatorPayout s).

Definition ResetOperatorFields : CDeterministicMNState :=
  with_operator REASON_NOT_SPECIFIED CBLSPublicKey_default CService_default [].

Definition IsBanned : bool := negb (nPoSeBanHeight s =? -1).

Definition BanIfNotBanned (height : Z) : CDeterministicMNState :=
  if IsBanned then s
  else with_heights height (nRegisteredHeight s) (nLastPaidHeight s) (nPoSePenalty s) (nPoSeRevivedHeight s).

Definition Revive (nRevivedHeight : Z) : CDeterministicMNState :=
  with_heights (-1) (nRegisteredHeight s) (nLastPaidHeight s) 0 nRevivedHeight.

Definition UpdateConfirmedHash {crypto : CryptoOps} (proTxHash_ confirmedHash_ : list Z) : CDeterministicMNState :=
  MkState (nPoSeBanHeight s) (nRegisteredHeight s) (nLastPaidHeight s) (nPoSePenalty s) (nPoSeRevivedHeight s)
    (nRevocationReason s) confirmedHash_ (sha256 (proTxHash_ ++ confirmedHash_)) (keyIDOwner s) (pubKeyOperator s)
    (keyIDVoting s) (addr s) (scriptPayout s) (scriptOperatorPayout s).

End state_updates.

(** ** Differences of states *)

Definition Field_nRegisteredHeight : Z := 0x0001.
Definition Field_nLastPaidHeight : Z := 0x0002.
Definition Field_nPoSePenalty : Z := 0x0004.
Definition Field_nPoSeRevivedHeight : Z := 0x0008.
Definition Field_nPoSeBanHeight : Z := 0x0010.
Definition Field_nRevocationReason : Z := 0x0020.
Definition Field_confirmedHash : Z := 0x0040.
Definition Field_confirmedHashWithProRegTxHash : Z := 0x0080.
Definition Field_keyIDOwner : Z := 0x0100.
Definition Field_pubKeyOperator : Z := 0x0200.
Definition Field_keyIDVoting : Z := 0x0400.
Definition Field_addr : Z := 0x0800.
Definition Field_scriptPayout : Z := 0x1000.
Definition Field_scriptOperatorPayout : Z := 0x2000.

Record CDeterministicMNStateDiff : Type := MkStateDiff { fields : Z; diff_state : CDeterministicMNState }.

(** [if (a.f != b.f) { state.f = b.f; fields |= Field_f; }], the value and the bits after it. *)
Definition diff_line {T} `{EqDecision T} (default_ x y : T) : T := if decide (x = y) then default_ else y.
Definition diff_field {T} `{EqDecision T} (x y : T) (field fields_ : Z) : Z :=
  if decide (x = y) then fields_ else Z.lor fields_ field.

Definition CDeterministicMNStateDiff_of (a b : CDeterministicMNState) : CDeterministicMNStateDiff :=
  let d := CDeterministicMNState_default in
  MkStateDiff
    (diff_field (scriptOperatorPayout a) (scriptOperatorPayout b) Field_scriptOperatorPayout
    (diff_field (scriptPayout a) (scriptPayout b) Field_scriptPayout
    (diff_field (addr a) (addr b) Field_addr
    (diff_field (keyIDVoting a) (keyIDVoting b) Field_keyIDVoting
    (diff_field (pubKeyOperator a) (pubKeyOperator b) Field_pubKeyOperator
    (diff_field (keyIDOwner a) (keyIDOwner b) Field_keyIDOwner
    (diff_field (confirmedHashWithProRegTxHash a) (confirmedHashWithProRegTxHash b) Field_confirmedHashWithProRegTxHash
    (diff_field (confirmedHash a) (confirmedHash b) Field_confirmedHash
    (diff_field (nRevocationReason a) (nRevocationReason b) Field_nRevocationReason
    (diff_field (nPoSeBanHeight a) (nPoSeBanHeight b) Field_nPoSeBanHeight
    (diff_field (nPoSeRevivedHeight a) (nPoSeRevivedHeight b) Field_nPoSeRevivedHeight
    (diff_field (nPoSePenalty a) (nPoSePenalty b) Field_nPoSePenalty
    (diff_field (nLastPaidHeight a) (nLastPaidHeight b) Field_nLastPaidHeight
    (diff_field (nRegisteredHeight a) (nRegisteredHeight b) Field_nRegisteredHeight 0))))))))))))))
    (MkState (diff_line (nPoSeBanHeight d) (nPoSeBanHeight a) (nPoSeBanHeight b))
       (diff_line (nRegisteredHeight d) (nRegisteredHeight a) (nRegisteredHeight b))
       (diff_line (nLastPaidHeight d) (nLastPaidHeight a) (nLastPaidHeight b))
       (diff_line (nPoSePenalty d) (nPoSePenalty a) (nPoSePenalty b))
       (diff_line (nPoSeRevivedHeight d) (nPoSeRevivedHeight a) (nPoSeRevivedHeight b))
       (diff_line (nRevocationReason d) (nRevocationReason a) (nRevocationReason b))
       (diff_line (confirmedHash d) (confirmedHash a) (confirmedHash b))
       (diff_line (confirmedHashWithProRegTxHash d) (confirmedHashWithProRegTxHash a) (confirmedHashWithProRegTxHash b))
       (diff_line (keyIDOwner d) (keyIDOwner a) (keyIDOwner b))
       (diff_line (pubKeyOperator d) (pubKeyOperator a) (pubKeyOperator b))
       (diff_line (keyIDVoting d) (keyIDVoting a) (keyIDVoting b))
       (diff_line (addr d) (addr a) (addr b))
       (diff_line (scriptPayout d) (scriptPayout a) (scriptPayout b))
       (diff_line (scriptOperatorPayout d) (scriptOperatorPayout a) (scriptOperatorPayout b))).

(** [if (fields & Field_f) target.f = state.f;] *)
Definition ApplyToState (diff : CDeterministicMNStateDiff) (target : CDeterministicMNState) : CDeterministicMNState :=
  let pick {T} (field : Z) (f : CDeterministicMNState -> T) : T :=
    if flag (fields diff) field then f (diff_state diff) else f target in
  MkState (pick Field_nPoSeBanHeight nPoSeBanHeight) (pick Field_nRegisteredHeight nRegisteredHeight)
    (pick Field_nLastPaidHeight nLastPaidHeight) (pick Field_nPoSePenalty nPoSePenalty)
    (pick Field_nPoSeRevivedHeight nPoSeRevivedHeight) (pick Field_nRevocationReason nRevocationReason)
    (pick Field_confirmedHash confirmedHash)
    (pick Field_confirmedHashWithProRegTxHash confirmedHashWithProRegTxHash)
    (pick Field_keyIDOwner keyIDOwner) (pick Field_pubKeyOperator pubKeyOperator) (pick Field_keyIDVoting keyIDVoting)
    (pick Field_addr addr) (pick Field_scriptPayout scriptPayout) (pick Field_scriptOperatorPayout scriptOperatorPayout).

(** ** Masternodes and the list *)

Record CDeterministicMN : Type := MkMN {
  internalId : Z;
  proTxHash : list Z;
  collateralOutpoint : COutPoint;
  nOperatorReward : Z;
  pdmnState : CDeterministicMNState
}.

#[export] Instance CDeterministicMN_eq_dec : EqDecision CDeterministicMN.
Proof. solve_decision. Defined.

(** GetInternalId asserts that the id was set. *)
Definition GetInternalId {E} (dmn : CDeterministicMN) : res E Z :=
  if internalId dmn =? 2 ^ 64 - 1 then Abort else Ok (internalId dmn).

Definition with_state (dmn : CDeterministicMN) (s : CDeterministicMNState) : CDeterministicMN :=
  MkMN (internalId dmn) (proTxHash dmn) (collateralOutpoint dmn) (nOperatorReward dmn) s.

Abbreviation MnMap := (gmap (list Z) CDeterministicMN).
Abbreviation MnInternalIdMap := (gmap Z (list Z)).
Abbreviation MnUniquePropertyMap := (gmap (list Z) (list Z * Z)).

Record CDeterministicMNList : Type := MkList {
  blockHash : list Z;
  list_nHeight : Z;
  nTotalRegisteredCount : Z;
  mnMap : MnMap;
  mnInternalIdMap : MnInternalIdMap;
  mnUniquePropertyMap : MnUniquePropertyMap
}.

Definition CDeterministicMNList_make (blockHash_ : list Z) (height totalRegisteredCount : Z) : CDeterministicMNList :=
  MkList blockHash_ height totalRegisteredCount ∅ ∅ ∅.

Definition with_maps (l : CDeterministicMNList) (m : MnMap) (ids : MnInternalIdMap) (u : MnUniquePropertyMap) : CDeterministicMNList :=
  MkList (blockHash l) (list_nHeight l) (nTotalRegisteredCount l) m ids u.

Definition SetBlockHash (l : CDeterministicMNList) (h : list Z) : CDeterministicMNList :=
  MkList h (list_nHeight l) (nTotalRegisteredCount l) (mnMap l) (mnInternalIdMap l) (mnUniquePropertyMap l).
Definition SetHeight (l : CDeterministicMNList) (h : Z) : CDeterministicMNList :=
  MkList (blockHash l) h (nTotalRegisteredCount l) (mnMap l) (mnInternalIdMap l) (mnUniquePropertyMap l).

(** The exceptions of the list. *)
Inductive mn_error : Type :=
| duplicate_proTxHash | duplicate_internalId | duplicate_property | missing_property | unknown_masternode.

Definition IsMNPoSeBanned (dmn : CDeterministicMN) : bool := IsBanned (pdmnState dmn).
Definition IsMNValid (dmn : CDeterministicMN) : bool := negb (IsMNPoSeBanned dmn).

Section list_queries.
Context (l : CDeterministicMNList).

Definition GetMN (h : list Z) : option CDeterministicMN := mnMap l !! h.
Definition HasMN (h : list Z) : bool := bool_decide (is_Some (GetMN h)).
Definition only_valid (o : option CDeterministicMN) : option CDeterministicMN :=
  match o with Some dmn => if IsMNValid dmn then Some dmn else None | None => None end.
Definition GetValidMN (h : list Z) : option CDeterministicMN := only_valid (GetMN h).

(** ForEachMN and ForEachMNShared: the masternodes in the order of the iteration. *)
Definition ForEachMN (onlyValid : bool) : list CDeterministicMN :=
  filter (fun dmn => negb onlyValid || IsMNValid dmn = true) (map_to_list (mnMap l)).*2.

Definition GetAllMNsCount : Z := Z.of_nat (size (mnMap l)).
Definition GetValidMNsCount : Z := zlen (ForEachMN true).

Definition GetMNByOperatorKey (pubKey : CBLSPublicKey) : option CDeterministicMN :=
  head (filter (fun dmn => pubKeyOperator (pdmnState dmn) = pubKey) (ForEachMN false)).

Definition GetMNByInternalId (id : Z) : option CDeterministicMN := h ← mnInternalIdMap l !! id; GetMN h.

Context {crypto : CryptoOps}.

Definition HasUniqueProperty {T} `{UniqueProperty T} (v : T) : bool :=
  bool_decide (is_Some (mnUniquePropertyMap l !! SerializeHash v)).
Definition GetUniquePropertyMN {T} `{UniqueProperty T} (v : T) : option CDeterministicMN :=
  p ← mnUniquePropertyMap l !! SerializeHash v; GetMN p.1.

Definition GetMNByCollateral (o : COutPoint) : option CDeterministicMN := GetUniquePropertyMN o.
Definition GetValidMNByCollateral (o : COutPoint) : option CDeterministicMN := only_valid (GetMNByCollateral o).
Definition GetMNByService (s : CService) : option CDeterministicMN := GetUniquePropertyMN s.

End list_queries.

(** ** Updates of the list *)

Section unique_properties.
Context {crypto : CryptoOps} {T : Type} `{UniqueProperty T} (u : MnUniquePropertyMap) (dmn : CDeterministicMN).

(** [None] where the source returns false; the map is then not used any more. *)
Definition AddUniqueProperty (v : T) : option MnUniquePropertyMap :=
  if decide (v = nullValue) then None else
  let hash := SerializeHash v in
  match u !! hash with
  | None => Some (<[hash := (proTxHash dmn, 1)]> u)
  | Some (owner, n) =>
      if decide (owner = proTxHash dmn) then Some (<[hash := (proTxHash dmn, u32 (n + 1))]> u) else None
  end.

Definition DeleteUniqueProperty (oldValue : T) : option MnUniquePropertyMap :=
  if decide (oldValue = nullValue) then None else
  let oldHash := SerializeHash oldValue in
  match u !! oldHash with
  | None => None
  | Some (owner, n) =>
      if negb (bool_decide (owner = proTxHash dmn)) then None else
      if n =? 1 then Some (delete oldHash u) else Some (<[oldHash := (proTxHash dmn, u32 (n - 1))]> u)
  end.

End unique_properties.

Definition UpdateUniqueProperty {crypto : CryptoOps} {T} `{UniqueProperty T} (u : MnUniquePropertyMap) (dmn : CDeterministicMN)
    (oldValue newValue : T) : option MnUniquePropertyMap :=
  if decide (oldValue = newValue) then Some u else
  u ← (if decide (oldValue = nullValue) then Some u else DeleteUniqueProperty u dmn oldValue);
  if decide (newValue = nullValue) then Some u else AddUniqueProperty u dmn newValue.

(** [if (guard && !op) throw] *)
Definition when {E : Type} (guard : bool) (u : MnUniquePropertyMap) (op : option MnUniquePropertyMap) (e : E) : res E MnUniquePropertyMap :=
  if guard then match op with Some u => Ok u | None => Err e end else Ok u.

Section list_updates.
Context {crypto : CryptoOps}.

(** When a property cannot be added the list is what it was and an exception is thrown. *)
Definition AddMN (l : CDeterministicMNList) (dmn : CDeterministicMN) (fBumpTotalCount : bool) : res mn_error CDeterministicMNList :=
  let s := pdmnState dmn in
  if bool_decide (is_Some (mnMap l !! proTxHash dmn)) then Err duplicate_proTxHash else
  id ← GetInternalId dmn;
  if bool_decide (is_Some (mnInternalIdMap l !! id)) then Err duplicate_internalId else
  let u := mnUniquePropertyMap l in
  u ← when true u (AddUniqueProperty u dmn (collateralOutpoint dmn)) duplicate_property;
  u ← when (bool_decide (addr s <> CService_default)) u (AddUniqueProperty u dmn (addr s)) duplicate_property;
  u ← when true u (AddUniqueProperty u dmn (keyIDOwner s)) duplicate_property;
  u ← when (BLS_IsValid (pubKeyOperator s)) u (AddUniqueProperty u dmn (pubKeyOperator s)) duplicate_property;
  Ok (MkList (blockHash l) (list_nHeight l)
        (if fBumpTotalCount then u32 (Z.max (u64 (id + 1)) (nTotalRegisteredCount l)) else nTotalRegisteredCount l)
        (<[proTxHash dmn := dmn]> (mnMap l)) (<[id := proTxHash dmn]> (mnInternalIdMap l)) u).

(** The overload for a masternode that was looked up. *)
Definition UpdateMN_dmn (l : CDeterministicMNList) (oldDmn : CDeterministicMN) (s : CDeterministicMNState) : res mn_error CDeterministicMNList :=
  let dmn := with_state oldDmn s in
  let oldState := pdmnState oldDmn in
  let u := mnUniquePropertyMap l in
  u ← when true u (UpdateUniqueProperty u dmn (addr oldState) (addr s)) duplicate_property;
  u ← when true u (UpdateUniqueProperty u dmn (keyIDOwner oldState) (keyIDOwner s)) duplicate_property;
  u ← when true u (UpdateUniqueProperty u dmn (pubKeyOperator oldState) (pubKeyOperator s)) duplicate_property;
  Ok (with_maps l (<[proTxHash oldDmn := dmn]> (mnMap l)) (mnInternalIdMap l) u).

Definition UpdateMN (l : CDeterministicMNList) (h : list Z) (s : CDeterministicMNState) : res mn_error CDeterministicMNList :=
  match mnMap l !! h with None => Err unknown_masternode | Some oldDmn => UpdateMN_dmn l oldDmn s end.

Definition UpdateMN_diff (l : CDeterministicMNList) (oldDmn : CDeterministicMN) (d : CDeterministicMNStateDiff) :
    res mn_error CDeterministicMNList :=
  UpdateMN_dmn l oldDmn (ApplyToState d (pdmnState oldDmn)).

Definition RemoveMN (l : CDeterministicMNList) (h : list Z) : res mn_error CDeterministicMNList :=
  match GetMN l h with
  | None => Err unknown_masternode
  | Some dmn =>
      let s := pdmnState dmn in
      let u := mnUniquePropertyMap l in
      u ← when true u (DeleteUniqueProperty u dmn (collateralOutpoint dmn)) missing_property;
      u ← when (bool_decide (addr s <> CService_default)) u (DeleteUniqueProperty u dmn (addr s)) missing_property;
      u ← when true u (DeleteUniqueProperty u dmn (keyIDOwner s)) missing_property;
      u ← when (BLS_IsValid (pubKeyOperator s)) u (DeleteUniqueProperty u dmn (pubKeyOperator s)) missing_property;
      id ← GetInternalId dmn;
      Ok (with_maps l (delete h (mnMap l)) (delete id (mnInternalIdMap l)) u)
  end.

(** ** Proof of service *)

Definition CalcMaxPoSePenalty (l : CDeterministicMNList) : Z := Z.max 100 (s32 (GetAllMNsCount l)).

Definition CalcPenalty (l : CDeterministicMNList) (percent : Z) : res mn_error Z :=
  if 0 <? percent then Ok (Z.quot (s32 (CalcMaxPoSePenalty l * percent)) 100) else Abort.

Definition PoSePunish (l : CDeterministicMNList) (h : list Z) (penalty : Z) : res mn_error CDeterministicMNList :=
  if negb (0 <? penalty) then Abort else
  match GetMN l h with
  | None => Err unknown_masternode
  | Some dmn =>
      let maxPenalty := CalcMaxPoSePenalty l in
      let s := pdmnState dmn in
      let s := with_nPoSePenalty s (Z.min maxPenalty (s32 (nPoSePenalty s + penalty))) in
      let s := if (maxPenalty <=? nPoSePenalty s) && negb (IsBanned s) then BanIfNotBanned s (list_nHeight l) else s in
      UpdateMN l h s
  end.

Definition PoSeDecrease (l : CDeterministicMNList) (h : list Z) : res mn_error CDeterministicMNList :=
  match GetMN l h with
  | None => Err unknown_masternode
  | Some dmn =>
      let s := pdmnState dmn in
      if negb ((0 <? nPoSePenalty s) && negb (IsBanned s)) then Abort
      else UpdateMN l h (with_nPoSePenalty s (nPoSePenalty s - 1))
  end.

Fixpoint PoSeDecrease_all (l : CDeterministicMNList) (toDecrease : list (list Z)) : res mn_error CDeterministicMNList :=
  match toDecrease with [] => Ok l | h :: rest => l ← PoSeDecrease l h; PoSeDecrease_all l rest end.

Definition DecreasePoSePenalties (l : CDeterministicMNList) : res mn_error CDeterministicMNList :=
  PoSeDecrease_all l (map proTxHash (filter (fun dmn => 0 < nPoSePenalty (pdmnState dmn)) (ForEachMN l true))).

End list_updates.

(** ** Payees *)

(** [std::sort] with the comparison [lt]. *)
Definition not_after {A : Type} (lt : A -> A -> bool) (a b : A) : Prop := lt b a = false.
#[export] Instance not_after_dec {A : Type} (lt : A -> A -> bool) (a b : A) : Decision (not_after lt a b).
Proof. unfold not_after. apply _. Defined.
Definition std_sort {A : Type} (lt : A -> A -> bool) : list A -> list A := merge_sort (not_after lt).

Definition CompareByLastPaid_GetHeight (dmn : CDeterministicMN) : Z :=
  let s := pdmnState dmn in
  let height := nLastPaidHeight s in
  if negb (nPoSeRevivedHeight s =? -1) && (height <? nPoSeRevivedHeight s) then nPoSeRevivedHeight s
  else if height =? 0 then nRegisteredHeight s else height.

Definition CompareByLastPaid (a b : CDeterministicMN) : bool :=
  let ah := CompareByLastPaid_GetHeight a in
  let bh := CompareByLastPaid_GetHeight b in
  if ah =? bh then memcmp (proTxHash a) (proTxHash b) <? 0 else ah <? bh.

Definition best_payee (best : option CDeterministicMN) (dmn : CDeterministicMN) : option CDeterministicMN :=
  match best with
  | None => Some dmn
  | Some b => if CompareByLastPaid dmn b then Some dmn else best
  end.

(** The test for an empty map returns what the loop over it would. *)
Definition GetMNPayee (l : CDeterministicMNList) : option CDeterministicMN :=
  if bool_decide (size (mnMap l) = O) then None else foldl best_payee None (ForEachMN l true).

Definition GetProjectedMNPayees (l : CDeterministicMNList) (nCount : Z) : list CDeterministicMN :=
  if nCount <? 0 then [] else
  let nCount := Z.min nCount (s32 (GetValidMNsCount l)) in
  take (Z.to_nat nCount) (std_sort CompareByLastPaid (ForEachMN l true)).

(** ** Quorums *)

Section quorums.
Context {crypto : CryptoOps}.

Definition CalculateScores (l : CDeterministicMNList) (modifier : list Z) : list (Z * CDeterministicMN) :=
  map (fun dmn => (le_val (sha256 (confirmedHashWithProRegTxHash (pdmnState dmn) ++ modifier)), dmn))
    (filter (fun dmn => negb (hash_IsNull (confirmedHash (pdmnState dmn))) = true) (ForEachMN l true)).

Definition score_lt (a b : Z * CDeterministicMN) : bool :=
  if a.1 =? b.1 then outpoint_lt (collateralOutpoint a.2) (collateralOutpoint b.2) else a.1 <? b.1.

(** The range is sorted from its end to its beginning. *)
Definition CalculateQuorum (l : CDeterministicMNList) (maxSize : nat) (modifier : list Z) : list CDeterministicMN :=
  (take maxSize (rev (std_sort score_lt (rev (CalculateScores l modifier))))).*2.

End quorums.

(** ** Differences of lists *)

Record CDeterministicMNListDiff : Type := MkListDiff {
  addedMNs : list CDeterministicMN;
  updatedMNs : gmap Z CDeterministicMNStateDiff;
  removedMns : gset Z
}.

Definition HasChanges (d : CDeterministicMNListDiff) : bool :=
  negb (bool_decide (addedMNs d = []) && bool_decide (updatedMNs d = ∅) && bool_decide (removedMns d = ∅)).

(** [emplace] does not replace an entry. *)
Definition emplace {K A} `{Countable K} (k : K) (x : A) (m : gmap K A) : gmap K A :=
  match m !! k with Some _ => m | None => <[k := x]> m end.

(** The first loop of BuildDiff: a masternode that is the same object in both lists has equal states, and
    then no field differs. *)
Fixpoint BuildDiff_to (from : CDeterministicMNList) (to : list CDeterministicMN) (added : list CDeterministicMN)
    (updated : gmap Z CDeterministicMNStateDiff) : res mn_error (list CDeterministicMN * gmap Z CDeterministicMNStateDiff) :=
  match to with
  | [] => Ok (added, updated)
  | toPtr :: to =>
      match GetMN from (proTxHash toPtr) with
      | None => BuildDiff_to from to (added ++ [toPtr]) updated
      | Some fromPtr =>
          let stateDiff := CDeterministicMNStateDiff_of (pdmnState fromPtr) (pdmnState toPtr) in
          if fields stateDiff =? 0 then BuildDiff_to from to added updated else
          id ← GetInternalId toPtr;
          BuildDiff_to from to added (emplace id stateDiff updated)
      end
  end.

Fixpoint BuildDiff_from (to : CDeterministicMNList) (from : list CDeterministicMN) (removed : gset Z) : res mn_error (gset Z) :=
  match from with
  | [] => Ok removed
  | fromPtr :: from =>
      match GetMN to (proTxHash fromPtr) with
      | Some _ => BuildDiff_from to from removed
      | None => id ← GetInternalId fromPtr; BuildDiff_from to from ({[id]} ∪ removed)
      end
  end.

Definition by_internalId (a b : CDeterministicMN) : bool := internalId a <? internalId b.

Definition BuildDiff (from to : CDeterministicMNList) : res mn_error CDeterministicMNListDiff :=
  '(added, updated) ← BuildDiff_to from (ForEachMN to false) [] ∅;
  removed ← BuildDiff_from to (ForEachMN from false) ∅;
  Ok (MkListDiff (std_sort by_internalId added) updated removed).

Section apply_diff.
Context {crypto : CryptoOps}.

Fixpoint remove_ids (l : CDeterministicMNList) (ids : list Z) : res mn_error CDeterministicMNList :=
  match ids with
  | [] => Ok l
  | id :: ids =>
      match GetMNByInternalId l id with
      | None => Err unknown_masternode
      | Some dmn => l ← RemoveMN l (proTxHash dmn); remove_ids l ids
      end
  end.

Fixpoint add_mns (l : CDeterministicMNList) (mns : list CDeterministicMN) : res mn_error CDeterministicMNList :=
  match mns with [] => Ok l | dmn :: mns => l ← AddMN l dmn true; add_mns l mns end.

(** A missing id is a null pointer that is dereferenced. *)
Fixpoint update_ids (l : CDeterministicMNList) (updates : list (Z * CDeterministicMNStateDiff)) : res mn_error CDeterministicMNList :=
  match updates with
  | [] => Ok l
  | (id, d) :: updates =>
      match GetMNByInternalId l id with
      | None => Abort
      | Some dmn => l ← UpdateMN_diff l dmn d; update_ids l updates
      end
  end.

(** The removed ids and the updates are visited in increasing order of the ids. *)
Definition ApplyDiff (l : CDeterministicMNList) (hash : list Z) (height : Z) (diff : CDeterministicMNListDiff) :
    res mn_error CDeterministicMNList :=
  let l := SetHeight (SetBlockHash l hash) height in
  l ← remove_ids l (std_sort Z.ltb (elements (removedMns diff)));
  l ← add_mns l (addedMNs diff);
  update_ids l (std_sort (fun p q => p.1 <? q.1) (map_to_list (updatedMNs diff))).

End apply_diff.
