(* ===== verification/MasternodesSpec.v ===== *)
(** * Properties of the list of masternodes

    The map of unique properties of a list counts, for every hash, how often its owner uses it, and no two
    masternodes use the same one; every operation keeps this, so that masternodes never share a collateral,
    an address or a key and can always be removed.  A list that is stored as a difference is read back. *)

From stdpp Require Import base list numbers gmap sorting.
From S2P Require Import Prelude Script Crypto Serialize Transaction Coins NetAddress Masternodes.

Open Scope Z_scope.

Section properties.
Context {crypto : CryptoOps}.

(** ** What the map of unique properties tracks *)

(** [c k h]: how many properties of the masternode [k] have the hash [h]. *)
Definition tracks (u : MnUniquePropertyMap) (c : list Z -> list Z -> Z) : Prop :=
  forall h, match u !! h with
    | None => forall k, c k h = 0
    | Some (k, n) => c k h = n /\ 0 < n /\ forall k', k' <> k -> c k' h = 0
    end.

Lemma tracks_ext u c c' : (forall k h, c k h = c' k h) -> tracks u c -> tracks u c'.
Proof.
  intros He Ht h. specialize (Ht h). destruct (u !! h) as [[k n]|]; [|intros k; by rewrite <- He].
  destruct Ht as (H1 & H2 & H3). rewrite <- He. split_and!; [done..|]. intros k' Hk. rewrite <- He. by apply H3.
Qed.

(** A hash has one owner. *)
Lemma tracks_unique u c k k' h : tracks u c -> 0 < c k h -> 0 < c k' h -> k = k'.
Proof.
  intros Ht Hk Hk'. specialize (Ht h). destruct (u !! h) as [[o n]|]; [|specialize (Ht k); lia].
  destruct Ht as (_ & _ & Ho). destruct (decide (k = o)) as [->|H1]; [|specialize (Ho k H1); lia].
  destruct (decide (k' = o)) as [->|H2]; [done|specialize (Ho k' H2); lia].
Qed.

Lemma tracks_lookup u c k h : tracks u c -> 0 < c k h -> u !! h = Some (k, c k h).
Proof.
  intros Ht Hk. specialize (Ht h). destruct (u !! h) as [[o n]|]; [|specialize (Ht k); lia].
  destruct Ht as (Hn & _ & Ho). destruct (decide (k = o)) as [->|H1]; [by rewrite Hn|specialize (Ho k H1); lia].
Qed.

(** Changing the count of a hash for its owner. *)
Definition set_count (c : list Z -> list Z -> Z) (k h : list Z) (n : Z) : list Z -> list Z -> Z :=
  fun k' h' => if decide (k' = k /\ h' = h) then n else c k' h'.

Lemma tracks_set u c k h n :
  tracks u c -> (forall k', k' <> k -> c k' h = 0) -> 0 < n -> tracks (<[h := (k, n)]> u) (set_count c k h n).
Proof.
  intros Ht Ho Hn h'. unfold set_count. destruct (decide (h' = h)) as [->|Hne].
  - rewrite lookup_insert_eq. rewrite decide_True by done. split_and!; [done..|]. intros k' Hk. rewrite decide_False by tauto. by apply Ho.
  - rewrite lookup_insert_ne by done. specialize (Ht h'). destruct (u !! h') as [[k' n']|].
    + destruct Ht as (H1 & H2 & H3). rewrite decide_False by tauto. split_and!; [done..|]. intros. rewrite decide_False by tauto. by apply H3.
    + intros k'. rewrite decide_False by tauto. apply Ht.
Qed.

Lemma tracks_clear u c k h :
  tracks u c -> (forall k', k' <> k -> c k' h = 0) -> tracks (delete h u) (set_count c k h 0).
Proof.
  intros Ht Ho h'. unfold set_count. destruct (decide (h' = h)) as [->|Hne].
  - rewrite lookup_delete_eq. intros k'. destruct (decide (k' = k)) as [->|Hk]; [by rewrite decide_True|]. rewrite decide_False by tauto. by apply Ho.
  - rewrite lookup_delete_ne by done. specialize (Ht h'). destruct (u !! h') as [[k' n']|].
    + destruct Ht as (H1 & H2 & H3). rewrite decide_False by tauto. split_and!; [done..|]. intros. rewrite decide_False by tauto. by apply H3.
    + intros k'. rewrite decide_False by tauto. apply Ht.
Qed.

Section one_type.
Context {T : Type} `{UniqueProperty T}.

(** How often a value that may be unset counts for a hash. *)
Definition pcount (v : T) (h : list Z) : Z :=
  if decide (v = nullValue) then 0 else if decide (SerializeHash v = h) then 1 else 0.

Lemma pcount_bound v h : 0 <= pcount v h <= 1.
Proof. unfold pcount. repeat case_decide; lia. Qed.

Lemma pcount_self v : v <> nullValue -> pcount v (SerializeHash v) = 1.
Proof. intros Hv. unfold pcount. rewrite decide_False by done. by rewrite decide_True. Qed.

Definition change (c : list Z -> list Z -> Z) (k : list Z) (d : list Z -> Z) : list Z -> list Z -> Z :=
  fun k' h => if decide (k' = k) then c k' h + d h else c k' h.

(** One more or one less of [v] is a new count of its hash. *)
Lemma set_count_change c k v d n :
  v <> nullValue -> n = c k (SerializeHash v) + d ->
  forall k' h, set_count c k (SerializeHash v) n k' h = change c k (fun h => d * pcount v h) k' h.
Proof.
  intros Hv -> k' h. unfold set_count, change, pcount. rewrite (decide_False (P := v = nullValue)) by done.
  destruct (decide (k' = k)) as [->|Hk]; [|by rewrite decide_False by tauto].
  destruct (decide (SerializeHash v = h)) as [<-|Hh]; [by rewrite decide_True by done; lia|]. rewrite decide_False by (intros [_ ?]; congruence). lia.
Qed.

Lemma AddUniqueProperty_tracks u c dmn v u' :
  tracks u c -> c (proTxHash dmn) (SerializeHash v) < 100 -> AddUniqueProperty u dmn v = Some u' ->
  v <> nullValue /\ tracks u' (change c (proTxHash dmn) (fun h => 1 * pcount v h)).
Proof.
  intros Ht Hb. unfold AddUniqueProperty. case_decide as Hv; [done|]. intros Hu. split; [done|].
  pose proof (Ht (SerializeHash v)) as Hh. destruct (u !! SerializeHash v) as [[o n]|] eqn:Eu.
  - case_decide as Ho; [|done]. subst o. injection Hu as <-. destruct Hh as (H1 & H2 & H3). unfold u32. rewrite Z.mod_small by lia.
    eapply tracks_ext; [by apply set_count_change|]. rewrite H1. apply tracks_set; [done..|lia].
  - injection Hu as <-. eapply tracks_ext; [by apply set_count_change|]. rewrite Hh. apply tracks_set; [done..|lia].
Qed.

Lemma DeleteUniqueProperty_tracks u c dmn v :
  tracks u c -> v <> nullValue -> 0 < c (proTxHash dmn) (SerializeHash v) < 100 ->
  exists u', DeleteUniqueProperty u dmn v = Some u' /\ tracks u' (change c (proTxHash dmn) (fun h => -1 * pcount v h)).
Proof.
  intros Ht Hv [Hc Hb]. unfold DeleteUniqueProperty. rewrite decide_False by done.
  pose proof (tracks_lookup _ _ _ _ Ht Hc) as Hl. rewrite Hl. rewrite bool_decide_eq_true_2 by done. cbn [negb].
  assert (Ho : forall k', k' <> proTxHash dmn -> c k' (SerializeHash v) = 0).
  { intros k' Hk. pose proof (Ht (SerializeHash v)) as Hh. rewrite Hl in Hh. by apply Hh. }
  case_bool; bprop; eexists; (split; [done|]); (eapply tracks_ext; [by apply set_count_change|]).
  - replace (_ + -1) with 0 by lia. by apply tracks_clear.
  - unfold u32. rewrite Z.mod_small by lia. apply tracks_set; [done..|lia].
Qed.

Lemma AddUniqueProperty_succeeds u c dmn v :
  tracks u c -> v <> nullValue -> (forall k, k <> proTxHash dmn -> c k (SerializeHash v) = 0) ->
  exists u', AddUniqueProperty u dmn v = Some u'.
Proof.
  intros Ht Hv Hc. unfold AddUniqueProperty. rewrite decide_False by done. specialize (Ht (SerializeHash v)).
  destruct (u !! SerializeHash v) as [[o n]|]; [|by eexists]. case_decide as Ho; [by eexists|].
  destruct Ht as (H1 & H2 & _). specialize (Hc o Ho). lia.
Qed.

Lemma pcount_null v h : v = nullValue -> pcount v h = 0.
Proof. intros Hv. unfold pcount. by rewrite decide_True. Qed.

Lemma pcount_pos v h : 0 < pcount v h -> v <> nullValue /\ SerializeHash v = h.
Proof. unfold pcount. repeat case_decide; (done || lia). Qed.

Lemma change_change c k d d' k' h : change (change c k d) k d' k' h = change c k (fun h => d h + d' h) k' h.
Proof. unfold change. case_decide; lia. Qed.

(** Updating a property that the masternode has. *)
Lemma UpdateUniqueProperty_spec u c dmn old new :
  tracks u c -> (forall h, pcount old h <= c (proTxHash dmn) h < 99) ->
  (forall u', UpdateUniqueProperty u dmn old new = Some u' ->
     tracks u' (change c (proTxHash dmn) (fun h => pcount new h - pcount old h))) /\
  ((forall k h, k <> proTxHash dmn -> 0 < pcount new h -> c k h = 0) -> is_Some (UpdateUniqueProperty u dmn old new)).
Proof.
  intros Ht Hc. unfold UpdateUniqueProperty. case_decide as Heq.
  { subst new. split; [|intros; by eexists]. intros u' [= <-]. eapply tracks_ext; [|exact Ht]. intros. unfold change. case_decide; lia. }
  assert (exists u1, (if decide (old = nullValue) then Some u else DeleteUniqueProperty u dmn old) = Some u1 /\
    tracks u1 (change c (proTxHash dmn) (fun h => - pcount old h))) as (u1 & -> & Ht1).
  { case_decide as Hn.
    - exists u. split; [done|]. eapply tracks_ext; [|exact Ht]. intros. unfold change. rewrite (pcount_null old) by done. case_decide; lia.
    - pose proof (Hc (SerializeHash old)) as Hh. rewrite pcount_self in Hh by done.
      destruct (DeleteUniqueProperty_tracks u c dmn old Ht Hn ltac:(lia)) as (u1 & Hu & Ht1). exists u1. split; [done|].
      eapply tracks_ext; [|exact Ht1]. intros. unfold change. case_decide; lia. }
  cbn [mbind option_bind]. case_decide as Hn.
  - split; [|by eexists]. intros u' [= <-]. eapply tracks_ext; [|exact Ht1]. intros. unfold change. rewrite (pcount_null new) by done. case_decide; lia.
  - split.
    + intros u' Hu. apply (AddUniqueProperty_tracks u1 _ dmn new u' Ht1) in Hu as [_ Ht'].
      * eapply tracks_ext; [|exact Ht']. intros. rewrite change_change. unfold change. case_decide; lia.
      * unfold change. rewrite decide_True by done. pose proof (pcount_bound old (SerializeHash new)). specialize (Hc (SerializeHash new)). lia.
    + intros Ho. eapply AddUniqueProperty_succeeds; [exact Ht1|done|]. intros k Hk. unfold change. rewrite decide_False by done.
      apply Ho; [done|]. rewrite pcount_self by done. lia.
Qed.

End one_type.

(** ** Well-formed lists *)

Definition mn_count (m : CDeterministicMN) (h : list Z) : Z :=
  pcount (collateralOutpoint m) h + pcount (addr (pdmnState m)) h + pcount (keyIDOwner (pdmnState m)) h +
  pcount (pubKeyOperator (pdmnState m)) h.

Definition counts (m : MnMap) (k h : list Z) : Z := match m !! k with Some dmn => mn_count dmn h | None => 0 end.

(** Collateral and owner key are set, and so is the id. *)
Record mn_ok (m : CDeterministicMN) : Prop := {
  ok_collateral : collateralOutpoint m <> outpoint_SetNull;
  ok_owner : keyIDOwner (pdmnState m) <> null_keyid;
  ok_id : 0 <= internalId m < 2 ^ 64 - 1
}.

Record list_wf (l : CDeterministicMNList) : Prop := {
  wf_key k m : mnMap l !! k = Some m -> proTxHash m = k /\ mn_ok m;
  wf_id id k : mnInternalIdMap l !! id = Some k <-> exists m, mnMap l !! k = Some m /\ internalId m = id;
  wf_tracks : tracks (mnUniquePropertyMap l) (counts (mnMap l))
}.

Lemma mn_count_bound m h : 0 <= mn_count m h <= 4.
Proof.
  unfold mn_count. pose proof (pcount_bound (collateralOutpoint m) h). pose proof (pcount_bound (addr (pdmnState m)) h).
  pose proof (pcount_bound (keyIDOwner (pdmnState m)) h). pose proof (pcount_bound (pubKeyOperator (pdmnState m)) h). lia.
Qed.

Lemma counts_bound m k h : 0 <= counts m k h <= 4.
Proof. unfold counts. destruct (m !! k); [apply mn_count_bound|lia]. Qed.

Lemma counts_insert m k dmn k' h :
  counts (<[k := dmn]> m) k' h = change (counts m) k (fun h => mn_count dmn h - counts m k h) k' h.
Proof.
  unfold counts, change. destruct (decide (k' = k)) as [->|Hk]; [rewrite lookup_insert_eq; destruct (m !! k); lia|by rewrite lookup_insert_ne].
Qed.

Lemma counts_delete m k k' h : counts (delete k m) k' h = change (counts m) k (fun h => - counts m k h) k' h.
Proof.
  unfold counts, change. destruct (decide (k' = k)) as [->|Hk]; [rewrite lookup_delete_eq; destruct (m !! k); lia|by rewrite lookup_delete_ne].
Qed.

Lemma empty_wf hash height count : list_wf (CDeterministicMNList_make hash height count).
Proof.
  split; cbn.
  - intros k m. by rewrite lookup_empty.
  - intros id k. rewrite lookup_empty. split; [done|]. intros (m & Hm & _). by rewrite lookup_empty in Hm.
  - intros h. rewrite lookup_empty. intros k. unfold counts. by rewrite lookup_empty.
Qed.

Lemma GetInternalId_ok {E} m : mn_ok m -> GetInternalId (E := E) m = Ok (internalId m).
Proof. intros [_ _ Hid]. unfold GetInternalId. by rewrite (proj2 (Z.eqb_neq _ _)) by lia. Qed.

(** ** The operations *)

Section guarded.
Context {T : Type} `{UniqueProperty T}.

(** A guard that is false only for a value that is not set. *)
Lemma when_add {E : Type} (guard : bool) u c dmn (v : T) (e : E) u' :
  (guard = false -> v = nullValue) -> tracks u c -> (forall h, c (proTxHash dmn) h < 100) ->
  when guard u (AddUniqueProperty u dmn v) e = Ok u' -> tracks u' (change c (proTxHash dmn) (pcount v)) /\ (guard = true -> v <> nullValue).
Proof.
  intros Hg Ht Hb. unfold when. destruct guard.
  - destruct (AddUniqueProperty u dmn v) as [u1|] eqn:Ea; [|done]. intros [= ->].
    apply (AddUniqueProperty_tracks u c dmn v u' Ht (Hb _)) in Ea as [Hv Ht']. split; [|done].
    eapply tracks_ext; [|exact Ht']. intros. unfold change. case_decide; lia.
  - intros [= ->]. split; [|done]. eapply tracks_ext; [|exact Ht]. intros. unfold change. rewrite (pcount_null v) by auto. case_decide; lia.
Qed.

Lemma when_add_succeeds {E : Type} (guard : bool) u c dmn (v : T) (e : E) :
  (guard = true -> v <> nullValue) -> tracks u c -> (forall k h, k <> proTxHash dmn -> 0 < pcount v h -> c k h = 0) ->
  exists u', when guard u (AddUniqueProperty u dmn v) e = Ok u'.
Proof.
  intros Hg Ht Ho. unfold when. destruct guard; [|by eexists]. specialize (Hg eq_refl).
  destruct (AddUniqueProperty_succeeds u c dmn v Ht Hg) as [u' ->]; [|by eexists]. intros k Hk. apply Ho; [done|]. rewrite pcount_self by done. lia.
Qed.

Lemma when_add_both {E : Type} (guard : bool) u c dmn (v : T) (e : E) :
  (guard = true <-> v <> nullValue) -> tracks u c -> (forall h, c (proTxHash dmn) h < 100) ->
  (forall k h, k <> proTxHash dmn -> 0 < pcount v h -> c k h = 0) ->
  exists u', when guard u (AddUniqueProperty u dmn v) e = Ok u' /\ tracks u' (change c (proTxHash dmn) (pcount v)).
Proof.
  intros Hg Ht Hb Ho. destruct (when_add_succeeds guard u c dmn v e) as [u' Hu]; [by apply Hg|done..|]. exists u'. split; [done|].
  eapply when_add in Hu as [Ht' _]; [done| |done..]. intros ->. destruct (decide (v = nullValue)) as [|Hn]; [done|]. by apply Hg in Hn.
Qed.

Lemma when_delete {E : Type} (guard : bool) u c dmn (v : T) (e : E) :
  (guard = true <-> v <> nullValue) -> tracks u c -> (forall h, pcount v h <= c (proTxHash dmn) h < 100) ->
  exists u', when guard u (DeleteUniqueProperty u dmn v) e = Ok u' /\ tracks u' (change c (proTxHash dmn) (fun h => - pcount v h)).
Proof.
  intros Hg Ht Hb. unfold when. destruct guard.
  - assert (v <> nullValue) as Hv by by apply Hg. pose proof (Hb (SerializeHash v)) as Hh. rewrite pcount_self in Hh by done.
    destruct (DeleteUniqueProperty_tracks u c dmn v Ht Hv ltac:(lia)) as (u' & -> & Ht'). exists u'. split; [done|].
    eapply tracks_ext; [|exact Ht']. intros. unfold change. case_decide; lia.
  - exists u. split; [done|]. assert (v = nullValue) as Hv by (destruct (decide (v = nullValue)) as [|Hn]; [done|]; apply Hg in Hn; done).
    eapply tracks_ext; [|exact Ht]. intros. unfold change. rewrite (pcount_null v) by done. case_decide; lia.
Qed.

Lemma when_update {E : Type} u c dmn (old new : T) (e : E) :
  tracks u c -> (forall h, pcount old h <= c (proTxHash dmn) h < 99) ->
  (forall u', when true u (UpdateUniqueProperty u dmn old new) e = Ok u' ->
     tracks u' (change c (proTxHash dmn) (fun h => pcount new h - pcount old h))) /\
  ((forall k h, k <> proTxHash dmn -> 0 < pcount new h -> c k h = 0) ->
     exists u', when true u (UpdateUniqueProperty u dmn old new) e = Ok u').
Proof.
  intros Ht Hb. destruct (UpdateUniqueProperty_spec u c dmn old new Ht Hb) as [H1 H2]. unfold when.
  split; [|intros Ho; destruct (H2 Ho) as [u' ->]; by eexists].
  intros u' Hu. destruct (UpdateUniqueProperty u dmn old new) as [u1|]; [|done]. injection Hu as ->. by apply H1.
Qed.

End guarded.

(** The bounds of the parts of a count. *)
Ltac count_bounds m h :=
  pose proof (pcount_bound (collateralOutpoint m) h); pose proof (pcount_bound (addr (pdmnState m)) h);
  pose proof (pcount_bound (keyIDOwner (pdmnState m)) h); pose proof (pcount_bound (pubKeyOperator (pdmnState m)) h).

(** The ids after a masternode was added. *)
Lemma wf_id_insert l dmn :
  list_wf l -> mnMap l !! proTxHash dmn = None -> mnInternalIdMap l !! internalId dmn = None ->
  forall id k, <[internalId dmn := proTxHash dmn]> (mnInternalIdMap l) !! id = Some k <->
    exists m, <[proTxHash dmn := dmn]> (mnMap l) !! k = Some m /\ internalId m = id.
Proof.
  intros Hwf Hn Hi id k. destruct (decide (id = internalId dmn)) as [->|Hid].
  - rewrite lookup_insert_eq. split; [intros [= <-]; exists dmn; by rewrite lookup_insert_eq|].
    intros (m & Hm & He). apply lookup_insert_Some in Hm as [[-> ->]|[_ Hm]]; [done|].
    assert (mnInternalIdMap l !! internalId dmn = Some k) as Hk by (apply (wf_id l Hwf); by exists m). by rewrite Hi in Hk.
  - rewrite lookup_insert_ne by done. rewrite (wf_id l Hwf). split; intros (m & Hm & He); exists m; (split; [|done]).
    + rewrite lookup_insert_ne; [done|]. intros Heq. rewrite Heq in Hn. congruence.
    + apply lookup_insert_Some in Hm as [[_ ->]|[_ Hm]]; [|done]. by destruct Hid.
Qed.

(** Counts after changes of one masternode. *)
Ltac change_here :=
  unfold change; rewrite ?decide_True by done;
  repeat match goal with H : forall h, counts _ _ h = 0 |- _ => rewrite H; clear H end;
  match goal with |- context [pcount _ ?h] => match goal with dmn : CDeterministicMN |- _ => count_bounds dmn h end end; lia.
Ltac change_others :=
  let k' := fresh "k'" in let h := fresh "h" in intros k' h ? ?; unfold change; rewrite ?decide_False by done;
  match goal with Ho : forall k h, 0 < mn_count ?dmn h -> _ |- _ => apply Ho; unfold mn_count; count_bounds dmn h; lia end.

(** The four properties of a new masternode, one after the other. *)
Lemma add_properties l dmn u :
  tracks (mnUniquePropertyMap l) (counts (mnMap l)) -> mnMap l !! proTxHash dmn = None ->
  (let u := mnUniquePropertyMap l in
   let s := pdmnState dmn in
   u ← when true u (AddUniqueProperty u dmn (collateralOutpoint dmn)) duplicate_property;
   u ← when (bool_decide (addr s <> CService_default)) u (AddUniqueProperty u dmn (addr s)) duplicate_property;
   u ← when true u (AddUniqueProperty u dmn (keyIDOwner s)) duplicate_property;
   when (BLS_IsValid (pubKeyOperator s)) u (AddUniqueProperty u dmn (pubKeyOperator s)) duplicate_property) = Ok u ->
  tracks u (counts (<[proTxHash dmn := dmn]> (mnMap l))) /\
  collateralOutpoint dmn <> outpoint_SetNull /\ keyIDOwner (pdmnState dmn) <> null_keyid.
Proof.
  intros Ht Hn (u1 & H1 & (u2 & H2 & (u3 & H3 & H4)%bind_Ok)%bind_Ok)%bind_Ok. set (k := proTxHash dmn) in *.
  assert (Hc0 : forall h, counts (mnMap l) k h = 0) by (intros h; unfold counts; by rewrite Hn).
  apply (when_add _ _ (counts (mnMap l))) in H1 as [Ht1 Hcol]; [|done|done|intros h; rewrite Hc0; lia].
  eapply when_add in H2 as [Ht2 _]; [| |exact Ht1|].
  2: { intros Hf. by apply bool_decide_eq_false, dec_stable in Hf. }
  2: { intros h. change_here. }
  eapply when_add in H3 as [Ht3 Hown]; [|done|exact Ht2|].
  2: { intros h. change_here. }
  eapply when_add in H4 as [Ht4 _]; [| |exact Ht3|].
  2: { intros Hf. by apply bool_decide_eq_false, dec_stable in Hf. }
  2: { intros h. change_here. }
  split; [|split; [by apply Hcol|by apply Hown]]. eapply tracks_ext; [|exact Ht4]. intros k' h. rewrite counts_insert.
  unfold change, mn_count. fold k. case_decide as Hk; [|done]. rewrite Hk, !Hc0. lia.
Qed.

(** What an added masternode does to a well-formed list. *)
Lemma AddMN_wf l dmn bump l' :
  list_wf l -> 0 <= internalId dmn < 2 ^ 64 -> AddMN l dmn bump = Ok l' ->
  list_wf l' /\ mnMap l !! proTxHash dmn = None /\ mnMap l' = <[proTxHash dmn := dmn]> (mnMap l).
Proof.
  intros Hwf Hid. unfold AddMN. case_bool; [done|]. bprop. apply eq_None_not_Some in Heqb. unfold GetInternalId.
  destruct (Z.eqb_spec (internalId dmn) (2 ^ 64 - 1)) as [|Hne]; [done|]. cbn [mbind res_bind]. case_bool; [done|]. bprop. apply eq_None_not_Some in Heqb0.
  intros (u1 & H1 & (u2 & H2 & (u3 & H3 & (u4 & H4 & Hl)%bind_Ok)%bind_Ok)%bind_Ok)%bind_Ok.
  destruct (add_properties l dmn u4 (wf_tracks l Hwf) Heqb) as (Ht & Hcol & Hown).
  { cbn zeta. rewrite H1. cbn [mbind res_bind]. rewrite H2. cbn [mbind res_bind]. rewrite H3. cbn [mbind res_bind]. exact H4. }
  injection Hl as <-. split; [|done]. split; cbn [mnMap mnInternalIdMap mnUniquePropertyMap]; [|by apply wf_id_insert|done].
  intros k m Hm. apply lookup_insert_Some in Hm as [[<- <-]|[_ Hm]]; [|by apply (wf_key l Hwf)]. split; [done|]. split; [done..|lia].
Qed.

Lemma AddMN_header l dmn bump l' :
  mn_ok dmn -> AddMN l dmn bump = Ok l' ->
  (blockHash l' = blockHash l /\ list_nHeight l' = list_nHeight l) /\
  nTotalRegisteredCount l' = if bump then u32 (Z.max (u64 (internalId dmn + 1)) (nTotalRegisteredCount l)) else nTotalRegisteredCount l.
Proof.
  intros Hok. unfold AddMN. case_bool; [done|]. rewrite GetInternalId_ok by done. cbn [mbind res_bind]. case_bool; [done|].
  intros (u1 & H1 & (u2 & H2 & (u3 & H3 & (u4 & H4 & Hl)%bind_Ok)%bind_Ok)%bind_Ok)%bind_Ok. by injection Hl as <-.
Qed.

(** The guards of the source hold for the values that are set. *)
Lemma addr_guard s : bool_decide (addr s <> CService_default) = true <-> addr s <> nullValue.
Proof. apply bool_decide_eq_true. Qed.
Lemma operator_guard s : BLS_IsValid (pubKeyOperator s) = true <-> pubKeyOperator s <> nullValue.
Proof. apply bool_decide_eq_true. Qed.
Lemma collateral_guard m : mn_ok m -> true = true <-> collateralOutpoint m <> nullValue.
Proof. intros Hok. split; [intros _; apply Hok|done]. Qed.
Lemma owner_guard m : mn_ok m -> true = true <-> keyIDOwner (pdmnState m) <> nullValue.
Proof. intros Hok. split; [intros _; apply Hok|done]. Qed.

Lemma AddMN_succeeds l dmn bump :
  list_wf l -> mn_ok dmn -> mnMap l !! proTxHash dmn = None -> mnInternalIdMap l !! internalId dmn = None ->
  (forall k h, 0 < mn_count dmn h -> counts (mnMap l) k h = 0) -> exists l', AddMN l dmn bump = Ok l'.
Proof.
  intros Hwf Hok Hn Hi Ho. unfold AddMN. rewrite Hn. rewrite bool_decide_eq_false_2 by (by intros [? ?]).
  rewrite GetInternalId_ok by done. cbn [mbind res_bind]. rewrite Hi. rewrite bool_decide_eq_false_2 by (by intros [? ?]).
  set (k := proTxHash dmn) in *. assert (Hc0 : forall h, counts (mnMap l) k h = 0) by (intros h; unfold counts; by rewrite Hn).
  destruct (when_add_both true (mnUniquePropertyMap l) _ dmn (collateralOutpoint dmn) duplicate_property
    (collateral_guard dmn Hok) (wf_tracks _ Hwf)) as (u1 & -> & Ht1).
  { intros h. fold k. rewrite Hc0. lia. } { intros k' h Hk Hp. apply Ho. unfold mn_count. count_bounds dmn h. lia. }
  cbn [mbind res_bind]. destruct (when_add_both (bool_decide (addr (pdmnState dmn) <> CService_default)) u1 _ dmn (addr (pdmnState dmn)) duplicate_property
    (addr_guard _) Ht1) as (u2 & -> & Ht2); [intros h; change_here|change_others|].
  cbn [mbind res_bind]. destruct (when_add_both true u2 _ dmn (keyIDOwner (pdmnState dmn)) duplicate_property
    (owner_guard dmn Hok) Ht2) as (u3 & -> & Ht3); [intros h; change_here|change_others|].
  cbn [mbind res_bind]. destruct (when_add_both (BLS_IsValid (pubKeyOperator (pdmnState dmn))) u3 _ dmn (pubKeyOperator (pdmnState dmn)) duplicate_property
    (operator_guard _) Ht3) as (u4 & -> & Ht4); [intros h; change_here|change_others|].
  cbn [mbind res_bind]. by eexists.
Qed.

(** The three updates of a masternode, one after the other. *)
Lemma update_properties u c dmn (a a' : CService) (o o' : list Z) (p p' : CBLSPublicKey) :
  let run := (u ← when true u (UpdateUniqueProperty u dmn a a') duplicate_property;
     u ← when true u (UpdateUniqueProperty u dmn o o') duplicate_property;
     when true u (UpdateUniqueProperty u dmn p p') duplicate_property) in
  tracks u c -> (forall h, pcount a h + pcount o h + pcount p h <= c (proTxHash dmn) h < 10) ->
  (forall u', run = Ok u' -> tracks u' (change c (proTxHash dmn) (fun h =>
     (pcount a' h - pcount a h) + (pcount o' h - pcount o h) + (pcount p' h - pcount p h)))) /\
  ((forall k h, k <> proTxHash dmn -> 0 < pcount a' h + pcount o' h + pcount p' h -> c k h = 0) -> exists u', run = Ok u').
Proof.
  intros run Ht Hc.
  assert (forall h, 0 <= pcount a h <= 1 /\ 0 <= pcount a' h <= 1 /\ 0 <= pcount o h <= 1 /\ 0 <= pcount o' h <= 1 /\
    0 <= pcount p h <= 1 /\ 0 <= pcount p' h <= 1) as Hb by (intros h; split_and!; apply pcount_bound).
  pose (c1 := change c (proTxHash dmn) (fun h => pcount a' h - pcount a h)).
  pose (c2 := change c1 (proTxHash dmn) (fun h => pcount o' h - pcount o h)).
  assert (forall h, pcount o h <= c1 (proTxHash dmn) h < 99) as Hc1.
  { intros h. unfold c1, change. rewrite decide_True by done. specialize (Hb h). specialize (Hc h). lia. }
  assert (forall h, pcount p h <= c2 (proTxHash dmn) h < 99) as Hc2.
  { intros h. unfold c2, c1, change. rewrite !decide_True by done. specialize (Hb h). specialize (Hc h). lia. }
  destruct (when_update u c dmn a a' duplicate_property Ht) as [Hs1 Hp1]; [intros h; specialize (Hb h); specialize (Hc h); lia|].
  split.
  - intros u' (u1 & Ht1%Hs1 & (u2 & H2 & H3)%bind_Ok)%bind_Ok.
    apply (when_update u1 c1 dmn o o' duplicate_property Ht1 Hc1) in H2.
    apply (when_update u2 c2 dmn p p' duplicate_property H2 Hc2) in H3.
    eapply tracks_ext; [|exact H3]. intros k h. unfold c2, c1, change. case_decide; lia.
  - intros Ho. destruct Hp1 as [u1 H1]; [intros k h Hk Hp; apply (Ho k h Hk); specialize (Hb h); lia|]. pose proof (Hs1 _ H1) as Ht1.
    destruct (when_update u1 c1 dmn o o' duplicate_property Ht1 Hc1) as [Hs2 Hp2]. destruct Hp2 as [u2 H2].
    { intros k h Hk Hp. unfold c1, change. rewrite decide_False by done. apply (Ho k h Hk). specialize (Hb h). lia. }
    pose proof (Hs2 _ H2) as Ht2. destruct (when_update u2 c2 dmn p p' duplicate_property Ht2 Hc2) as [_ Hp3]. destruct Hp3 as [u3 H3].
    { intros k h Hk Hp. unfold c2, c1, change. rewrite !decide_False by done. apply (Ho k h Hk). specialize (Hb h). lia. }
    exists u3. unfold run. rewrite H1. cbn [mbind res_bind]. rewrite H2. cbn [mbind res_bind]. exact H3.
Qed.

(** The ids after the state of a masternode was replaced. *)
Lemma wf_id_update l dmn s k :
  list_wf l -> mnMap l !! k = Some dmn ->
  forall id k', mnInternalIdMap l !! id = Some k' <-> exists m, <[k := with_state dmn s]> (mnMap l) !! k' = Some m /\ internalId m = id.
Proof.
  intros Hwf Hk id k'. rewrite (wf_id l Hwf). destruct (decide (k' = k)) as [->|Hne].
  - rewrite lookup_insert_eq. split; intros (m & Hm & He).
    + exists (with_state dmn s). split; [done|]. assert (m = dmn) as -> by congruence. done.
    + exists dmn. split; [done|]. by injection Hm as <-.
  - by rewrite lookup_insert_ne by done.
Qed.

(** An update of a masternode of the list: its effect, and when it is not refused. *)
Lemma UpdateMN_dmn_spec l dmn s :
  list_wf l -> mnMap l !! proTxHash dmn = Some dmn ->
  (forall l', UpdateMN_dmn l dmn s = Ok l' -> keyIDOwner s <> null_keyid ->
     list_wf l' /\ l' = with_maps l (<[proTxHash dmn := with_state dmn s]> (mnMap l)) (mnInternalIdMap l) (mnUniquePropertyMap l')) /\
  ((forall k h, k <> proTxHash dmn -> 0 < pcount (addr s) h + pcount (keyIDOwner s) h + pcount (pubKeyOperator s) h ->
      counts (mnMap l) k h = 0) -> exists l', UpdateMN_dmn l dmn s = Ok l').
Proof.
  intros Hwf Hd. destruct (wf_key l Hwf _ _ Hd) as [_ [Hcol Hown Hid]]. unfold UpdateMN_dmn. cbn zeta.
  set (dmn' := with_state dmn s). set (old := pdmnState dmn).
  assert (forall h, counts (mnMap l) (proTxHash dmn) h = mn_count dmn h) as Hc by (intros h; unfold counts; by rewrite Hd).
  destruct (update_properties (mnUniquePropertyMap l) (counts (mnMap l)) dmn' (addr old) (addr s) (keyIDOwner old) (keyIDOwner s)
    (pubKeyOperator old) (pubKeyOperator s) (wf_tracks l Hwf)) as [Hs Hp].
  { intros h. cbn [proTxHash dmn' with_state]. rewrite Hc. pose proof (mn_count_bound dmn h). unfold mn_count in *. fold old in H |- *.
    pose proof (pcount_bound (collateralOutpoint dmn) h). lia. }
  split.
  - intros l' (u1 & H1 & (u2 & H2 & (u3 & H3 & Hl)%bind_Ok)%bind_Ok)%bind_Ok Hset. injection Hl as <-. split; [|done].
    split; cbn [with_maps mnMap mnInternalIdMap mnUniquePropertyMap]; [|by apply wf_id_update|].
    + intros k m Hm. apply lookup_insert_Some in Hm as [[<- <-]|[_ Hm]]; [|by apply (wf_key l Hwf)]. done.
    + eapply tracks_ext; [|apply (Hs u3); rewrite H1; cbn [mbind res_bind]; rewrite H2; cbn [mbind res_bind]; exact H3].
      intros k h. rewrite counts_insert. unfold change. cbn [proTxHash dmn' with_state]. case_decide as Hk; [|done].
      rewrite Hk, Hc. unfold mn_count. unfold dmn'. cbn [collateralOutpoint pdmnState with_state]. fold old. lia.
  - intros Ho. destruct (Hp Ho) as [u3 (u1 & H1 & (u2 & H2 & H3)%bind_Ok)%bind_Ok].
    rewrite H1. cbn [mbind res_bind]. rewrite H2. cbn [mbind res_bind]. rewrite H3. cbn [mbind res_bind]. by eexists.
Qed.

(** The ids after a masternode was removed. *)
Lemma wf_id_delete l dmn k :
  list_wf l -> mnMap l !! k = Some dmn ->
  forall id k', delete (internalId dmn) (mnInternalIdMap l) !! id = Some k' <->
    exists m, delete k (mnMap l) !! k' = Some m /\ internalId m = id.
Proof.
  intros Hwf Hk id k'.
  assert (mnInternalIdMap l !! internalId dmn = Some k) as Hi by (apply (wf_id l Hwf); by exists dmn).
  rewrite lookup_delete_Some, (wf_id l Hwf). split.
  - intros (Hne & m & Hm & He). exists m. split; [|done]. rewrite lookup_delete_ne; [done|]. intros <-. congruence.
  - intros (m & Hm & He). apply lookup_delete_Some in Hm as [Hne Hm]. split; [|by exists m].
    intros He'. assert (mnInternalIdMap l !! internalId dmn = Some k') as Hj by (apply (wf_id l Hwf); exists m; by rewrite He, He'). congruence.
Qed.

(** A masternode of a well-formed list can be removed. *)
Lemma RemoveMN_spec l k dmn :
  list_wf l -> mnMap l !! k = Some dmn ->
  exists l', RemoveMN l k = Ok l' /\ list_wf l' /\
    l' = with_maps l (delete k (mnMap l)) (delete (internalId dmn) (mnInternalIdMap l)) (mnUniquePropertyMap l').
Proof.
  intros Hwf Hd. destruct (wf_key l Hwf _ _ Hd) as [Hk Hok]. unfold RemoveMN, GetMN. rewrite Hd. set (c := counts (mnMap l)).
  assert (forall h, c (proTxHash dmn) h = mn_count dmn h) as Hc by (intros h; unfold c, counts; by rewrite Hk, Hd).
  destruct (when_delete true (mnUniquePropertyMap l) c dmn (collateralOutpoint dmn) missing_property
    (collateral_guard dmn Hok) (wf_tracks l Hwf)) as (u1 & -> & Ht1).
  { intros h. rewrite Hc. unfold mn_count. count_bounds dmn h. lia. }
  cbn [mbind res_bind]. destruct (when_delete (bool_decide (addr (pdmnState dmn) <> CService_default)) u1 _ dmn
    (addr (pdmnState dmn)) missing_property (addr_guard _) Ht1) as (u2 & -> & Ht2).
  { intros h. unfold change. rewrite !decide_True by done. rewrite Hc. unfold mn_count. count_bounds dmn h. lia. }
  cbn [mbind res_bind]. destruct (when_delete true u2 _ dmn (keyIDOwner (pdmnState dmn)) missing_property
    (owner_guard dmn Hok) Ht2) as (u3 & -> & Ht3).
  { intros h. unfold change. rewrite !decide_True by done. rewrite Hc. unfold mn_count. count_bounds dmn h. lia. }
  cbn [mbind res_bind]. destruct (when_delete (BLS_IsValid (pubKeyOperator (pdmnState dmn))) u3 _ dmn
    (pubKeyOperator (pdmnState dmn)) missing_property (operator_guard _) Ht3) as (u4 & -> & Ht4).
  { intros h. unfold change. rewrite !decide_True by done. rewrite Hc. unfold mn_count. count_bounds dmn h. lia. }
  cbn [mbind res_bind]. rewrite GetInternalId_ok by done. cbn [mbind res_bind]. eexists. split; [done|]. split; [|done].
  split; cbn [with_maps mnMap mnInternalIdMap mnUniquePropertyMap].
  - intros k' m Hm. apply lookup_delete_Some in Hm as [_ Hm]. by apply (wf_key l Hwf).
  - by apply wf_id_delete.
  - eapply tracks_ext; [|exact Ht4]. intros k' h. rewrite counts_delete. fold c. unfold change. rewrite Hk.
    case_decide as Hkk; [|done]. rewrite Hkk, <- Hk, Hc. unfold mn_count. lia.
Qed.

(** ** What a well-formed list determines *)

Lemma tracks_det u u' c : tracks u c -> tracks u' c -> u = u'.
Proof.
  intros Ht Ht'. apply map_eq. intros h. pose proof (Ht h) as H1. pose proof (Ht' h) as H2.
  destruct (u !! h) as [[k n]|], (u' !! h) as [[k' n']|]; [|destruct H1 as (H1 & H3 & _); specialize (H2 k); lia|
    destruct H2 as (H2 & H3 & _); specialize (H1 k'); lia|done].
  destruct H1 as (H1 & Hn & Ho), H2 as (H2 & Hn' & Ho'). destruct (decide (k = k')) as [->|Hk]; [by rewrite <- H1, <- H2|].
  specialize (Ho' k Hk). lia.
Qed.

(** The masternodes determine the other two maps. *)
Lemma wf_det l l' :
  list_wf l -> list_wf l' -> mnMap l = mnMap l' -> mnInternalIdMap l = mnInternalIdMap l' /\ mnUniquePropertyMap l = mnUniquePropertyMap l'.
Proof.
  intros Hw Hw' Hm. split.
  - apply map_eq. intros id. apply option_eq. intros k. by rewrite (wf_id l Hw), (wf_id l' Hw'), Hm.
  - eapply tracks_det; [apply (wf_tracks l Hw)|]. rewrite Hm. apply (wf_tracks l' Hw').
Qed.

Lemma wf_maps l l' : mnMap l = mnMap l' -> mnInternalIdMap l = mnInternalIdMap l' -> mnUniquePropertyMap l = mnUniquePropertyMap l' ->
  list_wf l -> list_wf l'.
Proof. destruct l, l'; cbn. intros -> -> -> [H1 H2 H3]. by split. Qed.

(** ** Reachable lists *)

Lemma UpdateMN_spec l k s l' :
  list_wf l -> UpdateMN l k s = Ok l' -> keyIDOwner s <> null_keyid ->
  exists dmn, mnMap l !! k = Some dmn /\ list_wf l' /\
    l' = with_maps l (<[k := with_state dmn s]> (mnMap l)) (mnInternalIdMap l) (mnUniquePropertyMap l').
Proof.
  intros Hwf. unfold UpdateMN. destruct (mnMap l !! k) as [dmn|] eqn:Hd; [|done]. intros Hu Hs. exists dmn. split; [done|].
  destruct (wf_key l Hwf _ _ Hd) as [Hk _]. subst k. by apply (UpdateMN_dmn_spec l dmn s Hwf Hd).
Qed.

(** A change of the heights of a masternode is not refused. *)
Definition same_properties (s s' : CDeterministicMNState) : Prop :=
  addr s = addr s' /\ keyIDOwner s = keyIDOwner s' /\ pubKeyOperator s = pubKeyOperator s'.

Lemma UpdateMN_quiet l k dmn s :
  list_wf l -> mnMap l !! k = Some dmn -> same_properties (pdmnState dmn) s ->
  exists l', UpdateMN l k s = Ok l' /\ list_wf l' /\ l' = with_maps l (<[k := with_state dmn s]> (mnMap l)) (mnInternalIdMap l) (mnUniquePropertyMap l).
Proof.
  intros Hwf Hd (Ha & Ho & Hp). destruct (wf_key l Hwf _ _ Hd) as [Hk Hok]. unfold UpdateMN. rewrite Hd. subst k.
  destruct (UpdateMN_dmn_spec l dmn s Hwf Hd) as [Hs _].
  assert (UpdateMN_dmn l dmn s = Ok (with_maps l (<[proTxHash dmn := with_state dmn s]> (mnMap l)) (mnInternalIdMap l) (mnUniquePropertyMap l))) as Hu.
  { unfold UpdateMN_dmn, UpdateUniqueProperty, when. rewrite Ha, Ho, Hp. rewrite (decide_True (P := addr s = addr s)) by done. cbn [mbind res_bind].
    rewrite (decide_True (P := keyIDOwner s = keyIDOwner s)) by done. cbn [mbind res_bind].
    by rewrite (decide_True (P := pubKeyOperator s = pubKeyOperator s)) by done. }
  exists (with_maps l (<[proTxHash dmn := with_state dmn s]> (mnMap l)) (mnInternalIdMap l) (mnUniquePropertyMap l)). split; [done|].
  split; [|done]. apply (Hs _ Hu). rewrite <- Ho. apply Hok.
Qed.

Lemma with_heights_same s a b c d e : same_properties s (with_heights s a b c d e).
Proof. done. Qed.

Lemma BanIfNotBanned_same s h : same_properties s (BanIfNotBanned s h).
Proof. unfold BanIfNotBanned. by case_match. Qed.

Definition punished (max height penalty : Z) (s : CDeterministicMNState) : CDeterministicMNState :=
  let s := with_nPoSePenalty s (Z.min max (s32 (nPoSePenalty s + penalty))) in
  if (max <=? nPoSePenalty s) && negb (IsBanned s) then BanIfNotBanned s height else s.

Lemma PoSePunish_spec l k penalty dmn :
  list_wf l -> 0 < penalty -> mnMap l !! k = Some dmn ->
  exists l', PoSePunish l k penalty = Ok l' /\ list_wf l' /\ l' = with_maps l
    (<[k := with_state dmn (punished (CalcMaxPoSePenalty l) (list_nHeight l) penalty (pdmnState dmn))]> (mnMap l))
    (mnInternalIdMap l) (mnUniquePropertyMap l).
Proof.
  intros Hwf Hp Hd. unfold PoSePunish, GetMN. rewrite (proj2 (Z.ltb_lt _ _)) by done. cbn [negb]. rewrite Hd.
  apply UpdateMN_quiet; [done..|]. unfold punished. case_match; [|apply with_heights_same]. unfold BanIfNotBanned. by case_match.
Qed.

Definition decreased (dmn : CDeterministicMN) : CDeterministicMN :=
  let s := pdmnState dmn in
  if (0 <? nPoSePenalty s) && negb (IsBanned s) then with_state dmn (with_nPoSePenalty s (nPoSePenalty s - 1)) else dmn.

(** Every penalty of the list of masternodes is decreased once. *)
Lemma PoSeDecrease_all_spec ks l :
  list_wf l -> NoDup ks ->
  (forall k, k ∈ ks -> exists dmn, mnMap l !! k = Some dmn /\ 0 < nPoSePenalty (pdmnState dmn) /\ IsBanned (pdmnState dmn) = false) ->
  exists l', PoSeDecrease_all l ks = Ok l' /\ list_wf l' /\ l' = with_maps l (mnMap l') (mnInternalIdMap l) (mnUniquePropertyMap l) /\
    forall k, mnMap l' !! k = if decide (k ∈ ks) then decreased <$> (mnMap l !! k) else mnMap l !! k.
Proof.
  revert l. induction ks as [|k ks IH]; intros l Hwf Hnd Hks.
  { exists l. split_and!; [done..|by destruct l|]. intros k. by rewrite decide_False by set_solver. }
  apply NoDup_cons in Hnd as [Hni Hnd]. destruct (Hks k) as (dmn & Hd & Hpos & Hban); [set_solver|].
  cbn [PoSeDecrease_all]. unfold PoSeDecrease, GetMN. rewrite Hd. rewrite (proj2 (Z.ltb_lt _ _) Hpos), Hban. cbn [negb andb].
  destruct (UpdateMN_quiet l k dmn _ Hwf Hd (with_heights_same _ (nPoSeBanHeight (pdmnState dmn)) (nRegisteredHeight (pdmnState dmn))
    (nLastPaidHeight (pdmnState dmn)) (nPoSePenalty (pdmnState dmn) - 1) (nPoSeRevivedHeight (pdmnState dmn)))) as (l1 & Hu & Hw1 & Hl1).
  unfold with_nPoSePenalty. rewrite Hu. cbn [mbind res_bind].
  assert (forall k', k' ∈ ks -> mnMap l1 !! k' = mnMap l !! k') as Hsame.
  { intros k' Hk'. rewrite Hl1. cbn [mnMap with_maps]. rewrite lookup_insert_ne; [done|]. set_solver. }
  destruct (IH l1 Hw1 Hnd) as (l' & -> & Hw' & Hl' & Hm).
  { intros k' Hk'. rewrite Hsame by done. apply Hks. set_solver. }
  exists l'. split_and!; [done..|rewrite Hl', Hl1; by destruct l|]. intros k'. rewrite Hm. destruct (decide (k' ∈ ks)) as [Hin|Hout].
  { rewrite decide_True by set_solver. by rewrite Hsame. }
  rewrite Hl1. cbn [mnMap with_maps]. destruct (decide (k' = k)) as [->|Hne].
  - rewrite lookup_insert_eq, decide_True, Hd by set_solver. cbn [fmap option_fmap option_map]. unfold decreased.
    by rewrite (proj2 (Z.ltb_lt _ _) Hpos), Hban.
  - by rewrite lookup_insert_ne, decide_False by set_solver.
Qed.

Lemma elem_of_ForEachMN l valid m :
  list_wf l -> m ∈ ForEachMN l valid <-> mnMap l !! proTxHash m = Some m /\ (valid = true -> IsMNValid m = true).
Proof.
  intros Hwf. unfold ForEachMN. rewrite list_elem_of_filter, list_elem_of_fmap. split.
  - intros [Hv ([k m'] & -> & Hin)]. apply elem_of_map_to_list in Hin. cbn [snd] in *. destruct (wf_key l Hwf _ _ Hin) as [-> _].
    split; [done|]. intros ->. done.
  - intros [Hm Hv]. split; [destruct valid; [by rewrite Hv|done]|]. exists (proTxHash m, m). by rewrite elem_of_map_to_list.
Qed.

(** The keys of the masternodes that are visited are distinct. *)
Lemma NoDup_ForEachMN l valid : list_wf l -> NoDup (map proTxHash (ForEachMN l valid)).
Proof.
  intros Hwf. apply NoDup_fmap_2_strong.
  - intros x y [Hx _]%elem_of_ForEachMN [Hy _]%elem_of_ForEachMN Hxy; [|done..]. rewrite Hxy in Hx. congruence.
  - unfold ForEachMN. apply NoDup_filter. apply NoDup_fmap_2_strong; [|apply NoDup_map_to_list].
    intros [k m] [k' m'] Hk%elem_of_map_to_list Hk'%elem_of_map_to_list ?. cbn in *. subst m'.
    destruct (wf_key l Hwf _ _ Hk) as [<- _], (wf_key l Hwf _ _ Hk') as [<- _]. done.
Qed.

Lemma DecreasePoSePenalties_effect l :
  list_wf l ->
  exists l', DecreasePoSePenalties l = Ok l' /\ list_wf l' /\
    l' = with_maps l (decreased <$> mnMap l) (mnInternalIdMap l) (mnUniquePropertyMap l).
Proof.
  intros Hwf. unfold DecreasePoSePenalties. set (dmns := filter _ (ForEachMN l true)).
  assert (forall m, m ∈ dmns <-> mnMap l !! proTxHash m = Some m /\ IsMNValid m = true /\ 0 < nPoSePenalty (pdmnState m)) as Hin.
  { intros m. unfold dmns. rewrite list_elem_of_filter, elem_of_ForEachMN by done. split; [intros (? & ? & ?); by auto|intros (? & ? & ?); by split]. }
  destruct (PoSeDecrease_all_spec (map proTxHash dmns) l Hwf) as (l' & -> & Hw' & Hl' & Hm).
  - apply NoDup_fmap_2_strong; [|apply NoDup_filter, (NoDup_fmap_1 proTxHash), (NoDup_ForEachMN l true Hwf)].
    intros x y (Hx & _)%Hin (Hy & _)%Hin Hxy. rewrite Hxy in Hx. congruence.
  - intros k (m & -> & (Hm & Hv & Hp)%Hin)%list_elem_of_fmap. exists m. split_and!; [done..|].
    unfold IsMNValid, IsMNPoSeBanned in Hv. by destruct (IsBanned (pdmnState m)).
  - exists l'. split_and!; [done..|]. rewrite Hl'. f_equal. apply map_eq. intros k. rewrite Hm, lookup_fmap. case_decide as Hk; [done|].
    destruct (mnMap l !! k) as [m|] eqn:Em; [|done]. cbn. f_equal. unfold decreased. case_bool; [|done]. apply andb_true_iff in Heqb as [Hp Hb].
    destruct Hk. apply list_elem_of_fmap. exists m. destruct (wf_key l Hwf _ _ Em) as [Hkm _]. split; [done|].
    apply Hin. rewrite Hkm. split_and!; [done..|]. by bprop.
Qed.

(** The lists that the operations make, from the empty one.  The id of a new masternode is a count, and an
    update keeps the owner key, which has no transaction to change it. *)
Inductive reachable : CDeterministicMNList -> Prop :=
| reach_make hash height : reachable (CDeterministicMNList_make hash height 0)
| reach_hash l hash : reachable l -> reachable (SetBlockHash l hash)
| reach_height l height : reachable l -> reachable (SetHeight l height)
| reach_add l dmn bump l' : reachable l -> 0 <= internalId dmn < 2 ^ 64 -> AddMN l dmn bump = Ok l' -> reachable l'
| reach_update l dmn s l' :
    reachable l -> GetMN l (proTxHash dmn) = Some dmn -> keyIDOwner s = keyIDOwner (pdmnState dmn) -> UpdateMN l (proTxHash dmn) s = Ok l' -> reachable l'
| reach_remove l k l' : reachable l -> RemoveMN l k = Ok l' -> reachable l'
| reach_punish l k penalty l' : reachable l -> PoSePunish l k penalty = Ok l' -> reachable l'
| reach_decrease l l' : reachable l -> DecreasePoSePenalties l = Ok l' -> reachable l'.

Lemma reachable_wf l : reachable l -> list_wf l.
Proof.
  induction 1 as [hash height|l hash _ IH|l height _ IH|l dmn bump l' _ IH Hid Ha|l dmn s l' _ IH Hd Ho Hu|l k l' _ IH Hr|l k penalty l' _ IH Hp|l l' _ IH Hd].
  - apply empty_wf.
  - by apply (wf_maps l).
  - by apply (wf_maps l).
  - by apply (AddMN_wf l dmn bump).
  - destruct (UpdateMN_spec l (proTxHash dmn) s l' IH Hu) as (? & _ & Hw & _); [|done].
    rewrite Ho. destruct (wf_key l IH _ _ Hd) as [_ Hok]. apply Hok.
  - unfold RemoveMN, GetMN in Hr. destruct (mnMap l !! k) as [dmn|] eqn:Hd; [|done].
    destruct (RemoveMN_spec l k dmn IH Hd) as (l1 & Hr1 & Hw & _). unfold RemoveMN, GetMN in Hr1. rewrite Hd in Hr1. congruence.
  - assert (0 < penalty) as Hpos by (unfold PoSePunish in Hp; destruct (Z.ltb_spec 0 penalty); done).
    destruct (mnMap l !! k) as [dmn|] eqn:Hd.
    + destruct (PoSePunish_spec l k penalty dmn IH Hpos Hd) as (l1 & Hp1 & Hw & _). congruence.
    + unfold PoSePunish, GetMN in Hp. rewrite Hd, (proj2 (Z.ltb_lt _ _) Hpos) in Hp. done.
  - destruct (DecreasePoSePenalties_effect l IH) as (l1 & Hd1 & Hw & _). congruence.
Qed.

(** The hash of a property that is set counts. *)
Lemma counts_property {T : Type} `{UniqueProperty T} (v : T) l k m :
  mnMap l !! k = Some m -> v <> nullValue -> (forall h, pcount v h <= mn_count m h) -> 0 < counts (mnMap l) k (SerializeHash v).
Proof. intros Hm Hv Hle. unfold counts. rewrite Hm. specialize (Hle (SerializeHash v)). rewrite pcount_self in Hle by done. lia. Qed.

(** Two masternodes of a list with a common property are one. *)
Lemma common_property {T : Type} `{UniqueProperty T} (v : T) l k k' m m' :
  list_wf l -> mnMap l !! k = Some m -> mnMap l !! k' = Some m' -> v <> nullValue ->
  (forall h, pcount v h <= mn_count m h) -> (forall h, pcount v h <= mn_count m' h) -> k = k'.
Proof.
  intros Hwf Hm Hm' Hv Hle Hle'. apply (tracks_unique _ _ _ _ (SerializeHash v) (wf_tracks l Hwf)); by eapply counts_property.
Qed.

Lemma property_counts m h :
  pcount (collateralOutpoint m) h <= mn_count m h /\ pcount (addr (pdmnState m)) h <= mn_count m h /\
  pcount (keyIDOwner (pdmnState m)) h <= mn_count m h /\ pcount (pubKeyOperator (pdmnState m)) h <= mn_count m h.
Proof. unfold mn_count. count_bounds m h. lia. Qed.

(** C20: two masternodes of a list that the operations made never have the same collateral or owner key, nor the
    same address or operator key when these are set, whatever was added, updated, punished and removed before. *)
Theorem masternodes_share_nothing (l : CDeterministicMNList) (k k' : list Z) (m m' : CDeterministicMN)
    (Hreach : reachable l) (Hm : GetMN l k = Some m) (Hm' : GetMN l k' = Some m') (Hne : k <> k') :
  collateralOutpoint m <> collateralOutpoint m' /\ keyIDOwner (pdmnState m) <> keyIDOwner (pdmnState m') /\
  (addr (pdmnState m) <> CService_default -> addr (pdmnState m) <> addr (pdmnState m')) /\
  (BLS_IsValid (pubKeyOperator (pdmnState m)) = true -> pubKeyOperator (pdmnState m) <> pubKeyOperator (pdmnState m')).
Proof.
  pose proof (reachable_wf l Hreach) as Hwf. destruct (wf_key l Hwf _ _ Hm) as [_ [Hcol Hown _]].
  split_and!; [intros He|intros He|intros Hset He|intros Hset%operator_guard He]; apply Hne.
  - apply (common_property (collateralOutpoint m) l k k' m m' Hwf Hm Hm'); [exact Hcol|intros h..]; [|rewrite He]; apply property_counts.
  - apply (common_property (keyIDOwner (pdmnState m)) l k k' m m' Hwf Hm Hm'); [exact Hown|intros h..]; [|rewrite He]; apply property_counts.
  - apply (common_property (addr (pdmnState m)) l k k' m m' Hwf Hm Hm'); [exact Hset|intros h..]; [|rewrite He]; apply property_counts.
  - apply (common_property (pubKeyOperator (pdmnState m)) l k k' m m' Hwf Hm Hm'); [exact Hset|intros h..]; [|rewrite He]; apply property_counts.
Qed.

(** A property that is set leads to the masternode that has it. *)
Lemma lookup_property {T : Type} `{UniqueProperty T} (v : T) l k m :
  list_wf l -> mnMap l !! k = Some m -> v <> nullValue -> (forall h, pcount v h <= mn_count m h) -> GetUniquePropertyMN l v = Some m.
Proof.
  intros Hwf Hm Hv Hle. unfold GetUniquePropertyMN.
  rewrite (tracks_lookup _ _ k _ (wf_tracks l Hwf)) by (by eapply counts_property). done.
Qed.

(** After a removal nobody has it. *)
Lemma lost_property {T : Type} `{UniqueProperty T} (v : T) l l' k m :
  list_wf l -> list_wf l' -> mnMap l !! k = Some m -> mnMap l' = delete k (mnMap l) -> v <> nullValue ->
  (forall h, pcount v h <= mn_count m h) -> HasUniqueProperty l' v = false.
Proof.
  intros Hwf Hwf' Hm Hd Hv Hle. unfold HasUniqueProperty. apply bool_decide_eq_false_2. intros [[o n] Ho].
  pose proof (wf_tracks l' Hwf' (SerializeHash v)) as Ht. rewrite Ho in Ht. destruct Ht as (Hc & Hn & _). unfold counts in Hc. rewrite Hd in Hc.
  destruct (delete k (mnMap l) !! o) as [m'|] eqn:Eo; [|lia]. apply lookup_delete_Some in Eo as [Hne Eo]. apply Hne.
  apply (tracks_unique _ _ _ _ (SerializeHash v) (wf_tracks l Hwf)); [by eapply counts_property|]. unfold counts. rewrite Eo. lia.
Qed.

(** A masternode of a list that the operations made is found by its id, its collateral and, when it has
    one, its address; it can always be removed, and then it is found by none of them any more: its
    collateral, address and keys are free, and every other masternode is what it was. *)
Theorem RemoveMN_leaves_nothing (l : CDeterministicMNList) (k : list Z) (m : CDeterministicMN)
    (Hreach : reachable l) (Hm : GetMN l k = Some m) :
  let s := pdmnState m in
  GetMNByInternalId l (internalId m) = Some m /\ GetMNByCollateral l (collateralOutpoint m) = Some m /\
  (addr s <> CService_default -> GetMNByService l (addr s) = Some m) /\
  exists l', RemoveMN l k = Ok l' /\ mnMap l' = delete k (mnMap l) /\ GetMNByInternalId l' (internalId m) = None /\
    HasUniqueProperty l' (collateralOutpoint m) = false /\ HasUniqueProperty l' (keyIDOwner s) = false /\
    (addr s <> CService_default -> HasUniqueProperty l' (addr s) = false) /\
    (BLS_IsValid (pubKeyOperator s) = true -> HasUniqueProperty l' (pubKeyOperator s) = false).
Proof.
  intros s. pose proof (reachable_wf l Hreach) as Hwf. destruct (wf_key l Hwf _ _ Hm) as [_ Hok].
  destruct (RemoveMN_spec l k m Hwf Hm) as (l' & Hr & Hwf' & Hl').
  assert (mnMap l' = delete k (mnMap l)) as Hd by by rewrite Hl'.
  assert (mnInternalIdMap l !! internalId m = Some k) as Hid by (apply (wf_id l Hwf); by exists m).
  split_and!; [unfold GetMNByInternalId; by rewrite Hid|eapply lookup_property; [done..|apply Hok|intros h; apply property_counts]| |].
  { intros Ha. eapply lookup_property; [done..|exact Ha|intros h; apply property_counts]. }
  exists l'. split_and!; [done..| | | | |].
  - unfold GetMNByInternalId. rewrite Hl'. cbn [mnInternalIdMap with_maps]. by rewrite lookup_delete_eq.
  - eapply lost_property; [exact Hwf|done..|apply Hok|intros h; apply property_counts].
  - eapply lost_property; [exact Hwf|done..|apply Hok|intros h; apply property_counts].
  - intros Ha. eapply lost_property; [exact Hwf|done..|exact Ha|intros h; apply property_counts].
  - intros Hp%operator_guard. eapply lost_property; [exact Hwf|done..|exact Hp|intros h; apply property_counts].
Qed.

(** ** Differences of states *)

Lemma flag_diff_field {T : Type} `{EqDecision T} (x y : T) (field other fields_ : Z) :
  Z.land field other = 0 -> flag (diff_field x y field fields_) other = flag fields_ other.
Proof. intros Hd. unfold diff_field, flag. case_decide; [done|]. by rewrite Z.land_lor_distr_l, Hd, Z.lor_0_r. Qed.

Lemma flag_diff_self {T : Type} `{EqDecision T} (x y : T) (field fields_ : Z) :
  0 < field -> flag fields_ field = false -> flag (diff_field x y field fields_) field = bool_decide (x <> y).
Proof.
  intros Hf H0. unfold diff_field. case_decide as Hxy; [rewrite bool_decide_eq_false_2 by tauto; done|]. rewrite bool_decide_eq_true_2 by done.
  unfold flag. rewrite Z.land_lor_distr_l, Z.land_diag. apply negb_true_iff, Z.eqb_neq. intros He. apply Z.lor_eq_0_iff in He. lia.
Qed.

(** A field of the difference is kept from the old state or taken from the new one. *)
Lemma diff_line_apply {T : Type} `{EqDecision T} (d x y : T) : (if bool_decide (x <> y) then diff_line d x y else x) = y.
Proof. unfold diff_line. case_decide as Hxy; [by rewrite bool_decide_eq_false_2 by tauto|by rewrite bool_decide_eq_true_2]. Qed.

Ltac pick_field :=
  repeat match goal with
    | |- context [flag (diff_field ?x ?y ?f ?F) ?f] => rewrite (flag_diff_self x y f F) by (reflexivity || (rewrite ?flag_diff_field by reflexivity; reflexivity))
    | |- context [flag (diff_field ?x ?y ?f ?F) ?g] => rewrite (flag_diff_field x y f g F) by reflexivity
    end; apply diff_line_apply.

(** Applying a difference to the state it starts from gives the state it leads to. *)
Lemma ApplyToState_diff a b : ApplyToState (CDeterministicMNStateDiff_of a b) a = b.
Proof.
  transitivity (MkState (nPoSeBanHeight b) (nRegisteredHeight b) (nLastPaidHeight b) (nPoSePenalty b) (nPoSeRevivedHeight b)
    (nRevocationReason b) (confirmedHash b) (confirmedHashWithProRegTxHash b) (keyIDOwner b) (pubKeyOperator b) (keyIDVoting b)
    (addr b) (scriptPayout b) (scriptOperatorPayout b)); [|by destruct b].
  unfold ApplyToState, CDeterministicMNStateDiff_of. cbn [fields diff_state nPoSeBanHeight nRegisteredHeight nLastPaidHeight nPoSePenalty
    nPoSeRevivedHeight nRevocationReason confirmedHash confirmedHashWithProRegTxHash keyIDOwner pubKeyOperator keyIDVoting addr
    scriptPayout scriptOperatorPayout].
  f_equal; pick_field.
Qed.

Lemma no_fields_same a b : fields (CDeterministicMNStateDiff_of a b) = 0 -> a = b.
Proof.
  intros H0. rewrite <- (ApplyToState_diff a b). unfold ApplyToState. rewrite H0. unfold flag. rewrite !Z.land_0_l. cbn. by destruct a.
Qed.

End properties.

(** ** Two masternodes *)

(** An instance of the operations on which the examples evaluate: a digest is the beginning of what is hashed. *)
Definition first_bytes (n : nat) (v : list Z) : list Z := take n (map u8 v ++ replicate n 0).
Definition plain_crypto : CryptoOps :=
  {| sha256 := first_bytes 32; ripemd160 := first_bytes 20; sha1 := first_bytes 20; scrypt := first_bytes 32;
     secp256k1_verify := fun _ _ _ => true; secp256k1_low_s := fun _ => true;
     secp256k1_pubkey_parse := @secp256k1_pubkey_parse sum_crypto; secp256k1_pubkey_uncompress := @secp256k1_pubkey_uncompress sum_crypto |}.

Lemma first_bytes_spec n v : length (first_bytes n v) = n /\ bytes_ok (first_bytes n v).
Proof.
  unfold first_bytes. split; [rewrite length_take, length_app, length_replicate; lia|]. apply Forall_take, Forall_app. split.
  - apply Forall_map, Forall_true. intros b. apply Z.mod_pos_bound. lia.
  - apply Forall_replicate. split; [done|reflexivity].
Qed.

#[export] Instance plain_crypto_laws : CryptoLaws plain_crypto.
Proof. constructor; try (intros; apply first_bytes_spec). apply (secp256k1_compressed (CryptoLaws := sum_crypto_laws)). Qed.

(** Masternode [i], registered at [height]; its hashes and keys repeat one byte. *)
Definition sample_mn (i height : Z) : CDeterministicMN :=
  MkMN i (replicate 32 (10 + i)) (MkOutPoint (replicate 32 (20 + i)) 0) 500
    (MkState (-1) height 0 0 (-1) 0 null_hash null_hash (replicate 20 (40 + i)) (MkBLSPublicKey (1 :: replicate 47 (50 + i))) (replicate 20 (40 + i))
       (MkService (MkNetAddr NET_IPV4 [1; 2; 3; 4 + i]) 63636) (replicate 25 (60 + i)) (replicate 25 (70 + i))).

Definition sample_mns : list CDeterministicMN := [sample_mn 0 300; sample_mn 1 200; sample_mn 2 100].
Definition sample_list : CDeterministicMNList :=
  match add_mns (crypto := plain_crypto) (CDeterministicMNList_make (replicate 32 1) 400 0) sample_mns with
  | Ok l => l | _ => CDeterministicMNList_make [] 0 0
  end.

Lemma sample_list_made : add_mns (crypto := plain_crypto) (CDeterministicMNList_make (replicate 32 1) 400 0) sample_mns = Ok sample_list.
Proof. vm_compute. reflexivity. Qed.

Lemma add_mns_reachable `{crypto : CryptoOps} mns l l' :
  reachable l -> Forall (fun m => 0 <= internalId m < 2 ^ 64) mns -> add_mns l mns = Ok l' -> reachable l'.
Proof.
  intros Hr Hf. revert l Hr; induction Hf as [|m mns Hm _ IH]; intros l Hr; cbn [add_mns]; [by intros [= <-]|].
  intros (l1 & Ha & Hl1)%bind_Ok. apply (IH l1); [|done]. by eapply reach_add.
Qed.

Lemma sample_list_reachable : reachable (crypto := plain_crypto) sample_list.
Proof.
  apply (add_mns_reachable (crypto := plain_crypto) sample_mns _ _ (reach_make (crypto := plain_crypto) (replicate 32 1) 400)); [|apply sample_list_made].
  repeat constructor; done.
Qed.

Lemma sample_list_lookup : Forall (fun m => GetMN sample_list (proTxHash m) = Some m) sample_mns.
Proof. repeat constructor; vm_compute; reflexivity. Qed.

Lemma masternodes_share_nothing_witness :
  GetMN sample_list (replicate 32 10) = Some (sample_mn 0 300) /\ GetMN sample_list (replicate 32 11) = Some (sample_mn 1 200) /\
  collateralOutpoint (sample_mn 0 300) <> collateralOutpoint (sample_mn 1 200).
Proof.
  split; [vm_compute; reflexivity|split; [vm_compute; reflexivity|]].
  apply (masternodes_share_nothing (crypto := plain_crypto) sample_list (replicate 32 10) (replicate 32 11) (sample_mn 0 300) (sample_mn 1 200)
    sample_list_reachable); [vm_compute; reflexivity|vm_compute; reflexivity|discriminate].
Defined.

Lemma RemoveMN_leaves_nothing_witness :
  GetMNByCollateral (crypto := plain_crypto) sample_list (MkOutPoint (replicate 32 20) 0) = Some (sample_mn 0 300) /\
  exists l', RemoveMN (crypto := plain_crypto) sample_list (replicate 32 10) = Ok l' /\
    HasUniqueProperty (crypto := plain_crypto) l' (replicate 20 40) = false.
Proof.
  destruct (RemoveMN_leaves_nothing (crypto := plain_crypto) sample_list (replicate 32 10) (sample_mn 0 300) sample_list_reachable)
    as (_ & Hc & _ & l' & Hr & _ & _ & _ & Ho & _); [vm_compute; reflexivity|]. split; [exact Hc|]. exists l'. split; [exact Hr|exact Ho].
Defined.
