(* ===== verification/MasternodesDiff.v ===== *)
(** * Lists of masternodes stored as differences

    BuildDiff of two lists, applied to the first by ApplyDiff, gives the second: the masternodes, the map of
    the ids and the map of the unique properties with its counts, although the masternodes are removed,
    added and updated in another order than the one in which the second list was made.  What it needs is
    that no masternode of the second list takes a property from one that is in both. *)

From stdpp Require Import base list numbers gmap sorting.
From S2P Require Import Prelude Script Crypto Serialize Transaction Coins NetAddress Masternodes MasternodesSpec.

Open Scope Z_scope.

Section diff.
Context {crypto : CryptoOps}.

(** ** What BuildDiff collects *)

(** The difference of a masternode that is in both lists and differs. *)
Definition update_of (from : CDeterministicMNList) (id : Z) (d : CDeterministicMNStateDiff) (m : CDeterministicMN) : Prop :=
  exists m0, GetMN from (proTxHash m) = Some m0 /\ internalId m = id /\
    d = CDeterministicMNStateDiff_of (pdmnState m0) (pdmnState m) /\ fields d <> 0.

Lemma BuildDiff_to_spec from L added updated :
  Forall mn_ok L -> NoDup (map internalId L) -> (forall m, m ∈ L -> updated !! internalId m = None) ->
  exists updated', BuildDiff_to from L added updated =
      Ok (added ++ filter (fun m => GetMN from (proTxHash m) = None) L, updated') /\
    forall id d, updated' !! id = Some d <-> updated !! id = Some d \/ exists m, m ∈ L /\ update_of from id d m.
Proof.
  revert added updated. induction L as [|m L IH]; intros added updated Hok Hnd Hu; cbn [BuildDiff_to].
  { exists updated. rewrite app_nil_r. split; [done|]. intros id d. split; [by left|]. intros [?|(m & Hm & _)]; [done|set_solver]. }
  apply Forall_cons in Hok as [Hm Hok]. cbn [map] in Hnd. apply NoDup_cons in Hnd as [Hni Hnd].
  assert (forall m', m' ∈ L -> internalId m' <> internalId m) as Hids.
  { intros m' Hm' He. apply Hni. apply list_elem_of_fmap. by exists m'. }
  assert (forall m0 d, GetMN from (proTxHash m) = Some m0 -> forall id, update_of from id d m ->
    id = internalId m /\ d = CDeterministicMNStateDiff_of (pdmnState m0) (pdmnState m) /\ fields d <> 0) as Hinv.
  { intros m0 d H0 id (m1 & H1 & <- & -> & Hf). assert (m1 = m0) as -> by congruence. done. }
  destruct (GetMN from (proTxHash m)) as [m0|] eqn:E0.
  - rewrite filter_cons_False by (rewrite E0; done). case_bool; bprop.
    + destruct (IH added updated Hok Hnd) as (u & -> & Hs); [set_solver|]. exists u. split; [done|]. intros id d. rewrite Hs.
      split; (intros [?|(m' & Hm' & Hd)]; [by left|right]); [exists m'; set_solver|].
      apply elem_of_cons in Hm' as [->|Hm']; [|by exists m']. destruct (Hinv m0 d eq_refl id Hd) as (_ & -> & Hf). done.
    + rewrite GetInternalId_ok by done. cbn [mbind res_bind]. unfold emplace. rewrite (Hu m) by set_solver.
      destruct (IH added (<[internalId m := CDeterministicMNStateDiff_of (pdmnState m0) (pdmnState m)]> updated) Hok Hnd) as (u & -> & Hs).
      { intros m' Hm'. rewrite lookup_insert_ne by (intros ?; by apply (Hids m')). apply Hu. set_solver. }
      exists u. split; [done|]. intros id d. rewrite Hs, lookup_insert_Some. split.
      * intros [[[<- <-]|[_ Hd]]|(m' & Hm' & Hd)]; [right|by left|right; exists m'; set_solver]. exists m. split; [set_solver|]. by exists m0.
      * intros [Hd|(m' & Hm' & Hd)].
        { left. right. split; [|done]. intros <-. rewrite (Hu m) in Hd by set_solver. done. }
        apply elem_of_cons in Hm' as [->|Hm']; [|right; by exists m']. destruct (Hinv m0 d eq_refl id Hd) as (-> & -> & Hf). by left; left.
  - rewrite filter_cons_True by done. destruct (IH (added ++ [m]) updated Hok Hnd) as (u & -> & Hs); [set_solver|]. exists u.
    rewrite <- app_assoc. split; [done|]. intros id d. rewrite Hs. split; (intros [?|(m' & Hm' & Hd)]; [by left|right]); [exists m'; set_solver|].
    apply elem_of_cons in Hm' as [->|Hm']; [|by exists m']. destruct Hd as (m0 & H0 & _). congruence.
Qed.

Lemma BuildDiff_from_spec to L removed :
  Forall mn_ok L ->
  exists removed', BuildDiff_from to L removed = Ok removed' /\
    forall id, id ∈ removed' <-> id ∈ removed \/ exists m, m ∈ L /\ GetMN to (proTxHash m) = None /\ internalId m = id.
Proof.
  revert removed. induction L as [|m L IH]; intros removed Hok; cbn [BuildDiff_from].
  { exists removed. split; [done|]. set_solver. }
  apply Forall_cons in Hok as [Hm Hok]. destruct (GetMN to (proTxHash m)) as [m1|] eqn:E1.
  - destruct (IH removed Hok) as (r & -> & Hs). exists r. split; [done|]. intros id. rewrite Hs. set_solver.
  - rewrite GetInternalId_ok by done. cbn [mbind res_bind]. destruct (IH ({[internalId m]} ∪ removed) Hok) as (r & -> & Hs). exists r.
    split; [done|]. intros id. rewrite Hs. set_solver.
Qed.

(** The ids of the masternodes that are visited are distinct. *)
Lemma NoDup_ids l valid : list_wf l -> NoDup (map internalId (ForEachMN l valid)).
Proof.
  intros Hwf. apply NoDup_fmap_2_strong; [|eapply NoDup_fmap_1, (NoDup_ForEachMN l valid Hwf)].
  intros x y [Hx _]%elem_of_ForEachMN [Hy _]%elem_of_ForEachMN Hxy; [|done..].
  assert (mnInternalIdMap l !! internalId x = Some (proTxHash x)) as H1 by (apply (wf_id l Hwf); by exists x).
  assert (mnInternalIdMap l !! internalId x = Some (proTxHash y)) as H2 by (apply (wf_id l Hwf); exists y; by rewrite Hxy).
  assert (proTxHash x = proTxHash y) as Heq by congruence. rewrite Heq in Hx. congruence.
Qed.

Lemma ForEachMN_ok l valid : list_wf l -> Forall mn_ok (ForEachMN l valid).
Proof. intros Hwf. apply Forall_forall. intros m [Hm _]%elem_of_ForEachMN; [|done]. by destruct (wf_key l Hwf _ _ Hm). Qed.

(** A difference of well-formed lists, member by member. *)
Lemma BuildDiff_spec from to :
  list_wf from -> list_wf to ->
  exists d, BuildDiff from to = Ok d /\
    NoDup (addedMNs d) /\
    (forall m, m ∈ addedMNs d <-> mnMap to !! proTxHash m = Some m /\ mnMap from !! proTxHash m = None) /\
    (forall id sd, updatedMNs d !! id = Some sd <-> exists m, mnMap to !! proTxHash m = Some m /\ update_of from id sd m) /\
    (forall id, id ∈ removedMns d <-> exists m, mnMap from !! proTxHash m = Some m /\ mnMap to !! proTxHash m = None /\ internalId m = id).
Proof.
  intros Hf Ht. unfold BuildDiff.
  destruct (BuildDiff_to_spec from (ForEachMN to false) [] ∅ (ForEachMN_ok to false Ht) (NoDup_ids to false Ht)) as (u & -> & Hu); [set_solver|].
  cbn [mbind res_bind]. destruct (BuildDiff_from_spec to (ForEachMN from false) ∅ (ForEachMN_ok from false Hf)) as (r & -> & Hr).
  cbn [mbind res_bind app]. eexists. split; [done|]. cbn [addedMNs updatedMNs removedMns]. unfold std_sort.
  split_and!; [|intros m|intros id sd|intros id].
  - rewrite merge_sort_Permutation. apply NoDup_filter, (NoDup_fmap_1 proTxHash), (NoDup_ForEachMN to false Ht).
  - rewrite merge_sort_Permutation, list_elem_of_filter, elem_of_ForEachMN by done. unfold GetMN.
    split; [intros (? & ? & ?); done|intros (? & ?); split_and!; done].
  - rewrite Hu, lookup_empty. split.
    + intros [?|(m & [Hm _]%elem_of_ForEachMN & Hd)]; [done| |done]. by exists m.
    + intros (m & Hm & Hd). right. exists m. rewrite elem_of_ForEachMN by done. done.
  - rewrite Hr. split.
    + intros [?|(m & [Hm _]%elem_of_ForEachMN & Hn & Hd)]; [set_solver| |done]. by exists m.
    + intros (m & Hm & Hn & Hd). right. exists m. rewrite elem_of_ForEachMN by done. done.
Qed.

(** ** What ApplyDiff does with it *)

(** The members of a list that removals, additions and updates of masternodes leave alone. *)
Definition same_block (l l' : CDeterministicMNList) : Prop := blockHash l' = blockHash l /\ list_nHeight l' = list_nHeight l.

Lemma remove_ids_spec ids l :
  list_wf l -> NoDup ids -> (forall id, id ∈ ids -> exists m, mnMap l !! proTxHash m = Some m /\ internalId m = id) ->
  exists l', remove_ids l ids = Ok l' /\ list_wf l' /\ same_block l l' /\ nTotalRegisteredCount l' = nTotalRegisteredCount l /\
    forall k m, mnMap l' !! k = Some m <-> mnMap l !! k = Some m /\ internalId m ∉ ids.
Proof.
  revert l. induction ids as [|id ids IH]; intros l Hwf Hnd Hids; cbn [remove_ids].
  { exists l. split_and!; [done..|]. set_solver. }
  apply NoDup_cons in Hnd as [Hni Hnd]. destruct (Hids id) as (m & Hm & Hid); [set_solver|].
  assert (mnInternalIdMap l !! id = Some (proTxHash m)) as Hi by (apply (wf_id l Hwf); by exists m).
  unfold GetMNByInternalId, GetMN. rewrite Hi. cbn [mbind option_bind]. rewrite Hm.
  destruct (RemoveMN_spec l (proTxHash m) m Hwf Hm) as (l1 & -> & Hw1 & Hl1). cbn [mbind res_bind].
  assert (mnMap l1 = delete (proTxHash m) (mnMap l)) as Hm1 by by rewrite Hl1.
  destruct (IH l1 Hw1 Hnd) as (l' & -> & Hw' & Hb & Hn & Hs).
  { intros id' Hid'. destruct (Hids id') as (m' & Hm' & Hi'); [set_solver|]. exists m'. split; [|done]. rewrite Hm1, lookup_delete_ne; [done|].
    intros He. rewrite He in Hm. assert (m' = m) by congruence. subst m'. rewrite Hid in Hi'. by subst id'. }
  exists l'. split_and!; [done..|rewrite Hl1 in Hb; exact Hb|by rewrite Hn, Hl1|]. intros k m'. rewrite Hs, Hm1, lookup_delete_Some, not_elem_of_cons.
  split; [intros ((Hne & Hk) & Ho); split_and!|intros (Hk & Hne & Ho); split_and!]; try done.
  - intros He. assert (mnInternalIdMap l !! id = Some k) as Hi' by (apply (wf_id l Hwf); by exists m'). congruence.
  - intros <-. congruence.
Qed.

Section towards.
Context (from to : CDeterministicMNList).

(** A masternode keeps what its registration fixed. *)
Definition same_registration : Prop := forall k m m', mnMap from !! k = Some m -> mnMap to !! k = Some m' ->
  internalId m = internalId m' /\ collateralOutpoint m = collateralOutpoint m' /\ nOperatorReward m = nOperatorReward m'.

(** No masternode of [to] has a property that another one, which stays, has in [from]. *)
Definition takes_nothing : Prop := forall k k' h, k <> k' -> is_Some (mnMap from !! k') -> is_Some (mnMap to !! k') ->
  0 < counts (mnMap to) k h -> counts (mnMap from) k' h = 0.

Hypothesis (Hfrom : list_wf from) (Hto : list_wf to) (Hreg : same_registration) (Htake : takes_nothing).

(** The lists in between: every masternode is as in [from] or as in [to], and none is in the way. *)
Definition mixed (l : CDeterministicMNList) : Prop := forall k m, mnMap l !! k = Some m ->
  exists m', mnMap to !! k = Some m' /\ (m = m' \/ mnMap from !! k = Some m).

Lemma mixed_free l k k' m h : mixed l -> mnMap to !! k = Some m -> k <> k' -> 0 < mn_count m h -> counts (mnMap l) k' h = 0.
Proof.
  intros Hmix Hm Hne Hc. unfold counts. destruct (mnMap l !! k') as [m1|] eqn:E1; [|done]. destruct (Hmix _ _ E1) as (m' & Hm' & [->|Hf]).
  - destruct (Z.eq_dec (mn_count m' h) 0) as [|Hnz]; [done|]. destruct Hne. pose proof (mn_count_bound m' h).
    apply (tracks_unique _ _ _ _ h (wf_tracks to Hto)); unfold counts; [rewrite Hm|rewrite Hm']; lia.
  - assert (counts (mnMap from) k' h = 0) as H0 by (apply (Htake k k' h Hne); [by eexists..|]; unfold counts; by rewrite Hm).
    unfold counts in H0. by rewrite Hf in H0.
Qed.

Lemma mixed_id l k m m' : mixed l -> mnMap l !! k = Some m -> mnMap to !! k = Some m' -> internalId m = internalId m'.
Proof.
  intros Hmix Hm Hm'. destruct (Hmix _ _ Hm) as (m1 & H1 & [->|Hf]); [congruence|]. by apply (Hreg k).
Qed.

Lemma mixed_fresh_id l m : list_wf l -> mixed l -> mnMap to !! proTxHash m = Some m -> mnMap l !! proTxHash m = None -> mnInternalIdMap l !! internalId m = None.
Proof.
  intros Hwf Hmix Hm Hn. destruct (mnInternalIdMap l !! internalId m) as [k|] eqn:Ei; [|done]. exfalso. apply (wf_id l Hwf) in Ei as (m1 & H1 & Hid).
  destruct (Hmix _ _ H1) as (m' & Hm' & _). pose proof (mixed_id l k m1 m' Hmix H1 Hm') as Heq.
  assert (mnInternalIdMap to !! internalId m = Some k) as Ha by (apply (wf_id to Hto); exists m'; split; [done|congruence]).
  assert (mnInternalIdMap to !! internalId m = Some (proTxHash m)) as Hb by (apply (wf_id to Hto); by exists m).
  congruence.
Qed.

(** The ids are below the count. *)
Definition ids_below (l : CDeterministicMNList) : Prop :=
  0 <= nTotalRegisteredCount l < 2 ^ 32 /\ forall k m, mnMap l !! k = Some m -> internalId m < nTotalRegisteredCount l.

Lemma add_mns_spec mns l :
  list_wf l -> mixed l -> NoDup mns -> ids_below l -> ids_below to ->
  (forall m, m ∈ mns -> mnMap to !! proTxHash m = Some m /\ mnMap l !! proTxHash m = None) ->
  exists l', add_mns l mns = Ok l' /\ list_wf l' /\ mixed l' /\ same_block l l' /\
    ids_below l' /\ nTotalRegisteredCount l <= nTotalRegisteredCount l' <= Z.max (nTotalRegisteredCount l) (nTotalRegisteredCount to) /\
    forall k m, mnMap l' !! k = Some m <-> mnMap l !! k = Some m \/ m ∈ mns /\ proTxHash m = k.
Proof.
  revert l. induction mns as [|m mns IH]; intros l Hwf Hmix Hnd Hb Hbt Hin; cbn [add_mns].
  { exists l. split_and!; [done..|lia|lia|]. set_solver. }
  apply NoDup_cons in Hnd as [Hni Hnd]. destruct (Hin m) as [Hm Hn]; [set_solver|]. destruct (wf_key to Hto _ _ Hm) as [_ Hok].
  destruct (AddMN_succeeds l m true Hwf Hok Hn (mixed_fresh_id l m Hwf Hmix Hm Hn)) as [l1 Hl1].
  { intros k h Hc. destruct (decide (proTxHash m = k)) as [<-|Hne]; [unfold counts; by rewrite Hn|]. by apply (mixed_free l (proTxHash m) k m). }
  rewrite Hl1. cbn [mbind res_bind]. pose proof (ok_id m Hok) as Hid.
  destruct (AddMN_wf l m true l1 Hwf ltac:(lia) Hl1) as (Hw1 & _ & Hm1). apply AddMN_header in Hl1 as (Hsb & Hcnt); [|done].
  destruct Hbt as [Hbt1 Hbt2]. specialize (Hbt2 _ _ Hm) as Hidm. destruct Hb as [Hb1 Hb2]. unfold u64, u32 in Hcnt. rewrite (Z.mod_small (internalId m + 1)), Z.mod_small in Hcnt by lia.
  assert (mixed l1) as Hmix1.
  { intros k m1 Hk. rewrite Hm1 in Hk. apply lookup_insert_Some in Hk as [[<- <-]|[_ Hk]]; [exists m; split; [done|by left]|by apply Hmix]. }
  destruct (IH l1 Hw1 Hmix1 Hnd) as (l' & -> & Hw' & Hmix' & Hsb' & Hb' & Hle' & Hs).
  - split; [lia|]. intros k m1 Hk. rewrite Hm1 in Hk. apply lookup_insert_Some in Hk as [[<- <-]|[_ Hk]]; [lia|]. specialize (Hb2 _ _ Hk). lia.
  - done.
  - intros m' Hm'. destruct (Hin m') as [Ht' Hn']; [set_solver|]. split; [done|]. rewrite Hm1, lookup_insert_ne; [done|]. intros He. rewrite He in Hm.
    assert (m' = m) by congruence. by subst m'.
  - exists l'. split_and!; [done..|destruct Hsb, Hsb'; split; congruence|done|lia|lia|]. intros k m'. rewrite Hs, Hm1, lookup_insert_Some, elem_of_cons.
    split.
    + intros [[[<- <-]|[_ Hk]]|[Hk Hk']]; [right; split; [by left|done]|by left|right; split; [by right|done]].
    + intros [Hk|[[->|Hk] <-]]; [left; right; split; [|done]|left; by left|right; done]. intros <-. congruence.
Qed.

(** An update that is due: the masternode is as in [from], and the difference leads to the one of [to]. *)
Definition due (l : CDeterministicMNList) (id : Z) (d : CDeterministicMNStateDiff) : Prop :=
  exists m m', mnMap from !! proTxHash m' = Some m /\ mnMap l !! proTxHash m' = Some m /\ mnMap to !! proTxHash m' = Some m' /\
    internalId m' = id /\ d = CDeterministicMNStateDiff_of (pdmnState m) (pdmnState m').

(** One update makes a masternode what it is in [to]. *)
Lemma UpdateMN_diff_spec l m m' :
  list_wf l -> mixed l -> mnMap from !! proTxHash m' = Some m -> mnMap l !! proTxHash m' = Some m -> mnMap to !! proTxHash m' = Some m' ->
  exists l', UpdateMN_diff l m (CDeterministicMNStateDiff_of (pdmnState m) (pdmnState m')) = Ok l' /\ list_wf l' /\ mixed l' /\
    l' = with_maps l (<[proTxHash m' := m']> (mnMap l)) (mnInternalIdMap l) (mnUniquePropertyMap l').
Proof.
  intros Hwf Hmix Hf Hl Ht. destruct (Hreg _ _ _ Hf Ht) as (Hi & Hc & Hr). destruct (wf_key from Hfrom _ _ Hf) as [Hk _].
  destruct (wf_key to Hto _ _ Ht) as [_ [Hcol Hown Hid]]. unfold UpdateMN_diff. rewrite ApplyToState_diff.
  assert (with_state m (pdmnState m') = m') as Hw by (unfold with_state; rewrite Hi, Hc, Hr, Hk; by destruct m'). rewrite <- Hk in Hl.
  destruct (UpdateMN_dmn_spec l m (pdmnState m') Hwf Hl) as [Hs Hok]. destruct Hok as [l' Hl'].
  { intros k h Hne Hp. rewrite Hk in Hne. apply (mixed_free l (proTxHash m') k m' h Hmix Ht (not_eq_sym Hne)). unfold mn_count.
    pose proof (pcount_bound (collateralOutpoint m') h). lia. }
  destruct (Hs l' Hl' Hown) as [Hw' He]. rewrite Hw, Hk in He. exists l'. split_and!; [done..| |done].
  intros k x Hx. rewrite He in Hx. cbn [mnMap with_maps] in Hx. apply lookup_insert_Some in Hx as [[<- <-]|[_ Hx]]; [|by apply Hmix].
  exists m'. split; [done|by left].
Qed.

Lemma update_ids_spec updates l :
  list_wf l -> mixed l -> NoDup updates.*1 -> (forall id d, (id, d) ∈ updates -> due l id d) ->
  exists l', update_ids l updates = Ok l' /\ list_wf l' /\ mixed l' /\ same_block l l' /\ nTotalRegisteredCount l' = nTotalRegisteredCount l /\
    forall k, (forall m, mnMap l !! k = Some m -> internalId m ∉ updates.*1) /\ mnMap l' !! k = mnMap l !! k \/
      (exists m, mnMap l !! k = Some m /\ internalId m ∈ updates.*1) /\ mnMap l' !! k = mnMap to !! k.
Proof.
  revert l. induction updates as [|[id d] updates IH]; intros l Hwf Hmix Hnd Hdue; cbn [update_ids].
  { exists l. split_and!; [done..|]. intros k. left. set_solver. }
  cbn [fmap list_fmap fst] in Hnd |- *. apply NoDup_cons in Hnd as [Hni Hnd].
  destruct (Hdue id d) as (m & m' & Hf & Hl & Ht & Hid & ->); [set_solver|]. destruct (Hreg _ _ _ Hf Ht) as (Hi & _).
  unfold GetMNByInternalId, GetMN. rewrite (proj2 (wf_id l Hwf id (proTxHash m'))) by (exists m; split; [done|congruence]). cbn [mbind option_bind]. rewrite Hl.
  destruct (UpdateMN_diff_spec l m m' Hwf Hmix Hf Hl Ht) as (l1 & -> & Hw1 & Hmix1 & Hl1). cbn [mbind res_bind].
  assert (mnMap l1 = <[proTxHash m' := m']> (mnMap l)) as Hm1 by by rewrite Hl1.
  destruct (IH l1 Hw1 Hmix1 Hnd) as (l' & -> & Hw' & Hmix' & Hsb & Hcnt & Hs).
  { intros id' d' Hd'. destruct (Hdue id' d') as (x & x' & Hxf & Hxl & Hxt & Hxi & ->); [set_solver|]. exists x, x'. split_and!; try done.
    rewrite Hm1, lookup_insert_ne; [done|]. intros He. rewrite He in Ht. assert (x' = m') as -> by congruence. apply Hni. rewrite <- Hid, Hxi.
    apply list_elem_of_fmap. by eexists (id', _). }
  exists l'. split_and!; [done..|by rewrite Hl1 in Hsb|by rewrite Hcnt, Hl1|]. intros k. destruct (decide (k = proTxHash m')) as [->|Hne].
  - right. split; [exists m; split; [done|]; rewrite Hi, Hid; set_solver|]. destruct (Hs (proTxHash m')) as [[_ ->]|[_ ->]]; [|done].
    by rewrite Hm1, lookup_insert_eq.
  - assert (mnMap l1 !! k = mnMap l !! k) as Hk by (rewrite Hm1; by apply lookup_insert_ne).
    destruct (Hs k) as [[Ho ->]|[(x & Hx & Hxi) ->]]; [left|right]; rewrite Hk in *; (split; [|done]).
    + intros x Hx [He|Hin]%elem_of_cons; [|by apply (Ho x)]. apply Hne.
      assert (mnInternalIdMap l !! id = Some k) as Ha by (apply (wf_id l Hwf); by exists x).
      assert (mnInternalIdMap l !! id = Some (proTxHash m')) as Hb by (apply (wf_id l Hwf); exists m; split; [done|congruence]). congruence.
    + exists x. split; [done|]. by right.
Qed.

(** The last loop: the masternodes that were in [from] become what they are in [to]. *)
Lemma update_all l (updated : gmap Z CDeterministicMNStateDiff) :
  list_wf l -> mixed l ->
  (forall k m, mnMap l !! k = Some m <-> mnMap from !! k = Some m /\ is_Some (mnMap to !! k) \/ mnMap to !! k = Some m /\ mnMap from !! k = None) ->
  (forall id sd, updated !! id = Some sd <-> exists m, mnMap to !! proTxHash m = Some m /\ update_of from id sd m) ->
  exists l', update_ids l (std_sort (fun p q => p.1 <? q.1) (map_to_list updated)) = Ok l' /\ list_wf l' /\ mnMap l' = mnMap to /\
    same_block l l' /\ nTotalRegisteredCount l' = nTotalRegisteredCount l.
Proof.
  intros Hwf Hmix Hl Hupd. set (updates := std_sort _ (map_to_list updated)).
  assert (forall id sd, (id, sd) ∈ updates <-> updated !! id = Some sd) as Hin.
  { intros id sd. unfold updates, std_sort. by rewrite merge_sort_Permutation, elem_of_map_to_list. }
  destruct (update_ids_spec updates l Hwf Hmix) as (l' & -> & Hw' & Hmix' & Hsb & Hcnt & Hs).
  { unfold updates, std_sort. rewrite merge_sort_Permutation. apply NoDup_fst_map_to_list. }
  { intros id sd (m' & Ht & m & Hf & Hi & Hd & _)%Hin%Hupd. exists m, m'. split_and!; try done. apply Hl. left. split; [done|by eexists]. }
  exists l'. split_and!; [done..| |done|done]. apply map_eq. intros k. destruct (Hs k) as [[Ho ->]|[_ ->]]; [|done].
  destruct (mnMap to !! k) as [m'|] eqn:Et.
  - destruct (mnMap from !! k) as [m|] eqn:Ef; [|apply Hl; by right]. destruct (Hreg _ _ _ Ef Et) as (Hi & Hc & Hr).
    assert (mnMap l !! k = Some m) as Hm by (apply Hl; left; split; [done|by rewrite Et; eexists]). rewrite Hm. f_equal. specialize (Ho m Hm).
    destruct (wf_key to Hto _ _ Et) as [Hk _], (wf_key from Hfrom _ _ Ef) as [Hk' _].
    destruct (Z.eq_dec (fields (CDeterministicMNStateDiff_of (pdmnState m) (pdmnState m'))) 0) as [H0|Hn0].
    + apply no_fields_same in H0. destruct m, m'. cbn in *. congruence.
    + destruct Ho. apply list_elem_of_fmap. exists (internalId m, CDeterministicMNStateDiff_of (pdmnState m) (pdmnState m')). split; [done|].
      apply Hin, Hupd. exists m'. rewrite Hk. split; [done|]. exists m. unfold GetMN. by rewrite Hk.
  - apply eq_None_not_Some. intros [m Hm]. destruct (Hmix _ _ Hm) as (x & Hx & _). congruence.
Qed.

(** The difference leads from the first list to the second. *)
Lemma ApplyDiff_BuildDiff hash height :
  ids_below from -> ids_below to ->
  exists d l, BuildDiff from to = Ok d /\ ApplyDiff from hash height d = Ok l /\ list_wf l /\
    mnMap l = mnMap to /\ blockHash l = hash /\ list_nHeight l = height /\ ids_below l /\
    nTotalRegisteredCount from <= nTotalRegisteredCount l <= Z.max (nTotalRegisteredCount from) (nTotalRegisteredCount to).
Proof.
  intros Hbf Hbt. destruct (BuildDiff_spec from to Hfrom Hto) as (d & Hd & Hnd & Hadd & Hupd & Hrem). exists d.
  unfold ApplyDiff. set (l0 := SetHeight (SetBlockHash from hash) height). assert (list_wf l0) as Hw0 by by apply (wf_maps from).
  destruct (remove_ids_spec (std_sort Z.ltb (elements (removedMns d))) l0 Hw0) as (l1 & -> & Hw1 & Hb1 & Hn1 & Hs1).
  { unfold std_sort. rewrite merge_sort_Permutation. apply NoDup_elements. }
  { intros id. unfold std_sort. rewrite merge_sort_Permutation, elem_of_elements, Hrem. intros (m & Hm & _ & Hi). by exists m. }
  assert (forall k m, mnMap l1 !! k = Some m <-> mnMap from !! k = Some m /\ is_Some (mnMap to !! k)) as Hs1'.
  { intros k m. rewrite Hs1. unfold std_sort. rewrite merge_sort_Permutation, elem_of_elements, Hrem. change (mnMap l0) with (mnMap from).
    split; intros [Hk Ho]; (split; [done|]); destruct (wf_key from Hfrom _ _ Hk) as [Hkm _].
    - destruct (mnMap to !! k) as [x|] eqn:Ek; [by eexists|]. destruct Ho. exists m. by rewrite Hkm.
    - intros (x & Hx & Hxt & Hxi). destruct Ho as [y Hy]. assert (proTxHash x = k) as Hxk; [|congruence].
      assert (mnInternalIdMap from !! internalId m = Some (proTxHash x)) as Ha by (apply (wf_id from Hfrom); by exists x).
      assert (mnInternalIdMap from !! internalId m = Some k) as Hb by (apply (wf_id from Hfrom); by exists m). congruence. }
  cbn [mbind res_bind]. assert (mixed l1) as Hmix1 by (intros k m [Hk [x Hx]]%Hs1'; exists x; split; [done|by right]).
  destruct (add_mns_spec (addedMNs d) l1 Hw1 Hmix1 Hnd) as (l2 & -> & Hw2 & Hmix2 & Hb2 & Hi2 & Hn2 & Hs2).
  { destruct Hbf as [Hbf1 Hbf2]. split; [rewrite Hn1; exact Hbf1|]. intros k m [Hk _]%Hs1'. rewrite Hn1. by apply (Hbf2 k). } { done. }
  { intros m [Hm Hn]%Hadd. split; [done|]. apply eq_None_not_Some. intros [x [Hx _]%Hs1']. congruence. }
  cbn [mbind res_bind]. destruct (update_all l2 (updatedMNs d) Hw2 Hmix2) as (l3 & -> & Hw3 & Hm3 & Hb3 & Hn3); try done.
  { intros k m. rewrite Hs2, Hs1'. split; [intros [?|[[? ?]%Hadd <-]]; [by left|by right]|intros [?|[Hk1 Hk2]]; [by left|right]].
    destruct (wf_key to Hto _ _ Hk1) as [<- _]. by rewrite Hadd. }
  change (nTotalRegisteredCount l0) with (nTotalRegisteredCount from) in Hn1. exists l3. split_and!; [done..|by rewrite (proj1 Hb3), (proj1 Hb2), (proj1 Hb1)|by rewrite (proj2 Hb3), (proj2 Hb2), (proj2 Hb1)| |lia|lia].
  destruct Hi2 as [Hi1 Hi2]. split; [by rewrite Hn3|]. intros k m Hm. rewrite Hn3. rewrite Hm3 in Hm.
  destruct (mnMap l2 !! k) as [x|] eqn:Ex; [rewrite <- (mixed_id l2 k x m Hmix2 Ex Hm); by apply (Hi2 k)|].
  destruct (wf_key to Hto _ _ Hm) as [Hk _]. exfalso. apply eq_None_not_Some in Ex. apply Ex.
  destruct (mnMap from !! k) as [x|] eqn:Ef; [exists x; apply Hs2; left; apply Hs1'; split; [done|by eexists]|].
  exists m. apply Hs2. right. split; [apply Hadd; by rewrite Hk|done].
Qed.

End towards.

End diff.
