(* ===== verification/ProviderTx.v ===== *)
(** * Provider transactions and quorum commitments

    Models the payloads of the special transactions that change the list of masternodes: CProRegTx,
    CProUpServTx, CProUpRegTx and CProUpRevTx (src/src/evo/providertx.h and .cpp), CFinalCommitmentTxPayload
    (src/src/llmq/commitment.h and .cpp), reading and writing a payload (src/src/evo/specialtx.h and .cpp) and the
    checks CheckProRegTx, CheckProUpServTx, CheckProUpRegTx and CheckProUpRevTx (src/src/evo/deterministicmns.cpp).
    The elements of BLS curves are parsed and verified by a library; its functions are the interface
    [BLSOps].  The text that CProRegTx::MakeSignString builds is an argument of the check that uses it. *)

From stdpp Require Import base list numbers gmap sorting.
From S2P Require Import Prelude Script Crypto Standard Serialize Transaction Coin Coins Block Chain PosKernel NetAddress Masternodes.

Open Scope Z_scope.

(** ** BLS objects *)

(** Parsing an element gives the bytes it serializes to; verification takes key, hash and signature. *)
Class BLSOps : Type := {
  G1Element_FromBytes : list Z -> option (list Z);
  G2Element_FromBytes : list Z -> option (list Z);
  BLS_Verify : list Z -> list Z -> list Z -> bool
}.

Definition BLS_CURVE_SIG_SIZE : nat := 96.

Record CBLSSignature : Type := MkBLSSignature { sig_bytes : list Z }.
Definition CBLSSignature_default : CBLSSignature := MkBLSSignature (replicate BLS_CURVE_SIG_SIZE 0).
#[export] Instance CBLSSignature_eq_dec : EqDecision CBLSSignature.
Proof. solve_decision. Defined.
Definition BLSSig_IsValid (s : CBLSSignature) : bool := bool_decide (s <> CBLSSignature_default).

(** CBLSWrapper::Unserialize: the bytes of an object that is not valid are zeros, and bytes that the object
    does not serialize to are refused. *)
Definition unser_bls (size : nat) (FromBytes : list Z -> option (list Z)) : Parser (list Z) :=
  vecBytes ← read_bytes size;
  if forallb (fun c => c =? 0) vecBytes then mret vecBytes else
  match FromBytes vecBytes with
  | None => failure
  | Some bytes => if bool_decide (vecBytes = bytes) then mret vecBytes else failure
  end.

(** ** Payloads *)

Section payloads.
Context {bls : BLSOps}.

Definition unser_blskey : Parser CBLSPublicKey :=
  b ← unser_bls BLS_CURVE_PUBKEY_SIZE G1Element_FromBytes; mret (MkBLSPublicKey b).
Definition unser_blssig : Parser CBLSSignature :=
  b ← unser_bls BLS_CURVE_SIG_SIZE G2Element_FromBytes; mret (MkBLSSignature b).

Definition PROTX_VERSION : Z := 1.

Record CProRegTx : Type := MkProRegTx {
  reg_nVersion : Z;
  reg_nType : Z;
  reg_nMode : Z;
  reg_collateralOutpoint : COutPoint;
  reg_addr : CService;
  reg_keyIDOwner : list Z;
  reg_pubKeyOperator : CBLSPublicKey;
  reg_keyIDVoting : list Z;
  reg_nOperatorReward : Z;
  reg_scriptPayout : list Z;
  reg_inputsHash : list Z;
  reg_vchSig : list Z
}.

(** The signature is left out when the payload is hashed. *)
Definition ser_ProRegTx (gethash : bool) (p : CProRegTx) : res unit (list Z) :=
  a ← ser_service false (reg_addr p);
  Ok (ser_writedata16 (reg_nVersion p) ++ ser_writedata16 (reg_nType p) ++ ser_writedata16 (reg_nMode p) ++
      ser_outpoint (reg_collateralOutpoint p) ++ a ++ reg_keyIDOwner p ++ bls_bytes (reg_pubKeyOperator p) ++
      reg_keyIDVoting p ++ ser_writedata16 (reg_nOperatorReward p) ++ write_bytes (reg_scriptPayout p) ++
      reg_inputsHash p ++ (if gethash then [] else write_bytes (reg_vchSig p))).

Definition unser_ProRegTx : Parser CProRegTx :=
  version ← ser_readdata16;
  type ← ser_readdata16;
  mode ← ser_readdata16;
  collateral ← unser_outpoint;
  address ← unser_service false;
  owner ← read_bytes 20;
  operator ← unser_blskey;
  voting ← read_bytes 20;
  reward ← ser_readdata16;
  payout ← read_byte_vector;
  inputs ← read_bytes 32;
  sig ← read_byte_vector;
  mret (MkProRegTx version type mode collateral address owner operator voting reward payout inputs sig).

Record CProUpServTx : Type := MkProUpServTx {
  us_nVersion : Z;
  us_proTxHash : list Z;
  us_addr : CService;
  us_scriptOperatorPayout : list Z;
  us_inputsHash : list Z;
  us_sig : CBLSSignature
}.

Definition ser_ProUpServTx (gethash : bool) (p : CProUpServTx) : res unit (list Z) :=
  a ← ser_service false (us_addr p);
  Ok (ser_writedata16 (us_nVersion p) ++ us_proTxHash p ++ a ++ write_bytes (us_scriptOperatorPayout p) ++
      us_inputsHash p ++ (if gethash then [] else sig_bytes (us_sig p))).

Definition unser_ProUpServTx : Parser CProUpServTx :=
  version ← ser_readdata16;
  hash ← read_bytes 32;
  address ← unser_service false;
  payout ← read_byte_vector;
  inputs ← read_bytes 32;
  sig ← unser_blssig;
  mret (MkProUpServTx version hash address payout inputs sig).

Record CProUpRegTx : Type := MkProUpRegTx {
  ur_nVersion : Z;
  ur_proTxHash : list Z;
  ur_nMode : Z;
  ur_pubKeyOperator : CBLSPublicKey;
  ur_keyIDVoting : list Z;
  ur_scriptPayout : list Z;
  ur_inputsHash : list Z;
  ur_vchSig : list Z
}.

Definition ser_ProUpRegTx (gethash : bool) (p : CProUpRegTx) : res unit (list Z) :=
  Ok (ser_writedata16 (ur_nVersion p) ++ ur_proTxHash p ++ ser_writedata16 (ur_nMode p) ++ bls_bytes (ur_pubKeyOperator p) ++
      ur_keyIDVoting p ++ write_bytes (ur_scriptPayout p) ++ ur_inputsHash p ++ (if gethash then [] else write_bytes (ur_vchSig p))).

Definition unser_ProUpRegTx : Parser CProUpRegTx :=
  version ← ser_readdata16;
  hash ← read_bytes 32;
  mode ← ser_readdata16;
  operator ← unser_blskey;
  voting ← read_bytes 20;
  payout ← read_byte_vector;
  inputs ← read_bytes 32;
  sig ← read_byte_vector;
  mret (MkProUpRegTx version hash mode operator voting payout inputs sig).

Record CProUpRevTx : Type := MkProUpRevTx {
  rev_nVersion : Z;
  rev_proTxHash : list Z;
  rev_nReason : Z;
  rev_inputsHash : list Z;
  rev_sig : CBLSSignature
}.

Definition REASON_LAST : Z := 3.

Definition ser_ProUpRevTx (gethash : bool) (p : CProUpRevTx) : res unit (list Z) :=
  Ok (ser_writedata16 (rev_nVersion p) ++ rev_proTxHash p ++ ser_writedata16 (rev_nReason p) ++ rev_inputsHash p ++
      (if gethash then [] else sig_bytes (rev_sig p))).

Definition unser_ProUpRevTx : Parser CProUpRevTx :=
  version ← ser_readdata16;
  hash ← read_bytes 32;
  reason ← ser_readdata16;
  inputs ← read_bytes 32;
  sig ← unser_blssig;
  mret (MkProUpRevTx version hash reason inputs sig).

(** ** Quorum commitments *)

Definition WriteDynBitSet (vec : list bool) : list Z := WriteCompactSize (zlen vec) ++ WriteFixedBitSet vec (length vec).
Definition ReadDynBitSet : Parser (list bool) := n ← ReadCompactSize true; ReadFixedBitSet (Z.to_nat n).

Definition COMMITMENT_VERSION : Z := 1.
Definition INDEXED_QUORUM_VERSION : Z := 2.

Record CFinalCommitment : Type := MkCommitment {
  qc_nVersion : Z;
  llmqType : Z;
  quorumHash : list Z;
  quorumIndex : Z;
  signers : list bool;
  validMembers : list bool;
  quorumPublicKey : CBLSPublicKey;
  quorumVvecHash : list Z;
  quorumSig : CBLSSignature;
  membersSig : CBLSSignature
}.

(** The index is only written in the version that has one. *)
Definition ser_commitment (c : CFinalCommitment) : list Z :=
  ser_writedata16 (qc_nVersion c) ++ ser_writedata8 (llmqType c) ++ quorumHash c ++
  (if qc_nVersion c =? INDEXED_QUORUM_VERSION then ser_writedata16 (quorumIndex c) else []) ++
  WriteDynBitSet (signers c) ++ WriteDynBitSet (validMembers c) ++ bls_bytes (quorumPublicKey c) ++ quorumVvecHash c ++
  sig_bytes (quorumSig c) ++ sig_bytes (membersSig c).

Definition unser_commitment : Parser CFinalCommitment :=
  version ← ser_readdata16;
  type ← ser_readdata8;
  hash ← read_bytes 32;
  index ← (if version =? INDEXED_QUORUM_VERSION then read_int16 else mret 0);
  sg ← ReadDynBitSet;
  valid ← ReadDynBitSet;
  key ← unser_blskey;
  vvec ← read_bytes 32;
  qsig ← unser_blssig;
  msig ← unser_blssig;
  mret (MkCommitment version type hash index sg valid key vvec qsig msig).

Definition commitment_IsNull (c : CFinalCommitment) : bool :=
  if existsb id (signers c) || existsb id (validMembers c) then false else
  negb (BLS_IsValid (quorumPublicKey c) || negb (hash_IsNull (quorumVvecHash c)) ||
        BLSSig_IsValid (membersSig c) || BLSSig_IsValid (quorumSig c)).

Record CFinalCommitmentTxPayload : Type := MkCommitmentPayload { qcTx_nVersion : Z; qcTx_nHeight : Z; commitment : CFinalCommitment }.

Definition ser_CommitmentPayload (p : CFinalCommitmentTxPayload) : list Z :=
  ser_writedata16 (qcTx_nVersion p) ++ ser_writedata32 (qcTx_nHeight p) ++ ser_commitment (commitment p).
Definition unser_CommitmentPayload : Parser CFinalCommitmentTxPayload :=
  version ← ser_readdata16; height ← ser_readdata32; c ← unser_commitment; mret (MkCommitmentPayload version height c).

End payloads.

(** ** Reading a payload *)

(** [Err]: the function returns false.  The stream must be empty after the object was read. *)
Definition GetTxPayload {T : Type} (SPECIALTX_TYPE : Z) (unser : Parser T) (tx : CTransaction) : res unit T :=
  if negb (nType tx =? SPECIALTX_TYPE) then Err tt else
  '(obj, ds) ← unser (vExtraPayload tx);
  match ds with [] => Ok obj | _ => Err tt end.

Definition SetTxPayload (tx : CMutableTransaction) (payload : list Z) : CMutableTransaction :=
  MkTransaction (vin tx) (vout tx) (nVersion tx) (nType tx) (nLockTime tx) (nTime tx) payload.

Definition CalcTxInputsHash {crypto : CryptoOps} (tx : CTransaction) : list Z :=
  Hash (flat_map (fun i => ser_outpoint (prevout i)) (vin tx)).

(** ** Checks *)

(** The reject reasons of this part, with the level passed to [state.DoS]. *)
Inductive protx_reason : Type :=
| bad_protx_version | bad_protx_type | bad_protx_mode | bad_protx_key_null | bad_protx_payee | bad_protx_payee_dest
| bad_protx_payee_reuse | bad_protx_operator_reward | bad_protx_reason | bad_protx_inputs_hash | bad_protx_payload
| bad_protx_ipaddr | bad_protx_ipaddr_port | bad_protx_sig | bad_protx_collateral | bad_protx_collateral_dest
| bad_protx_collateral_pkh | bad_protx_collateral_index | bad_protx_collateral_reuse | bad_protx_dup_addr
| bad_protx_dup_key | bad_protx_key_not_same | bad_protx_hash | bad_protx_operator_payee
| bad_qc_payload | bad_qc_quorum_hash | bad_qc_version | bad_qc_height | bad_qc_type | bad_qc_invalid_null | bad_qc_invalid
| failed_dmn_block | bad_dip3_enf_block
| bad_cbtx_type | bad_cbtx_invalid | bad_cbtx_payload | bad_cbtx_version | bad_cbtx_height | bad_cbtx_mnmerkleroot | bad_cbtx_quorummerkleroot
| mutated_cached_calc_cb_mnmerkleroot | mutated_calc_cb_mnmerkleroot | failed_calc_cb_mnmerkleroot | commitment_not_found
| bad_qc_payload_calc_cbtx_quorummerkleroot | excess_quorums_calc_cbtx_quorummerkleroot | mutated_calc_cbtx_quorummerkleroot
| bad_mnhf_payload | bad_mnhf_version | bad_mnhf_quorum_hash | bad_mnhf_type | bad_mnhf_invalid | mnhf_not_active
| bad_tx_type | bad_tx_type_check | failed_check_special_tx | bad_tx_type_proc | failed_procspectxsinblock.

Definition protx_error : Type := Z * protx_reason.
Definition DoS {A : Type} (level : Z) (reason : protx_reason) : res protx_error A := Err (level, reason).

(** A call that does not reject. *)
Definition call {A : Type} (r : res unit A) : res protx_error A := match r with Ok a => Ok a | _ => Abort end.
(** [if (!f(x)) return state.DoS(level, ...)] *)
Definition or_DoS {A : Type} (r : res unit A) (level : Z) (reason : protx_reason) : res protx_error A :=
  match r with Ok a => Ok a | Err _ => DoS level reason | Abort => Abort end.

Definition MASTERNODE_COLLATERAL_AMOUNT : Z := 10000 * COIN.

(** What the checks read of the parameters of the chain and of the node. *)
Record EvoParams : Type := MkEvoParams {
  fAllowPrivateNet : bool;
  RequireRoutableExternalIP : bool;
  is_mainnet : bool;
  mainnetDefaultPort : Z;
  DIP0003Height : Z;
  DIP0003EnforcementHeight : Z;
  DIP0003EnforcementHash : list Z;
  nMasternodeMinimumConfirmations : Z
}.

Section checks.
Context {crypto : CryptoOps} {bls : BLSOps} (params : EvoParams) (env : pos_env).

Definition CProRegTx_IsTriviallyValid (p : CProRegTx) : res protx_error unit :=
  if (reg_nVersion p =? 0) || (PROTX_VERSION <? reg_nVersion p) then DoS 100 bad_protx_version else
  if negb (reg_nType p =? 0) then DoS 100 bad_protx_type else
  if negb (reg_nMode p =? 0) then DoS 100 bad_protx_mode else
  if hash_IsNull (reg_keyIDOwner p) || negb (BLS_IsValid (reg_pubKeyOperator p)) || hash_IsNull (reg_keyIDVoting p)
  then DoS 10 bad_protx_key_null else
  if negb (IsPayToPublicKeyHash (reg_scriptPayout p)) && negb (IsPayToScriptHash (reg_scriptPayout p)) then DoS 10 bad_protx_payee else
  dest ← call (ExtractDestination (reg_scriptPayout p));
  match dest with
  | None => DoS 10 bad_protx_payee_dest
  | Some payoutDest =>
      if bool_decide (payoutDest = CKeyID (reg_keyIDOwner p)) || bool_decide (payoutDest = CKeyID (reg_keyIDVoting p))
      then DoS 10 bad_protx_payee_reuse else
      if 10000 <? reg_nOperatorReward p then DoS 10 bad_protx_operator_reward else Ok tt
  end.

Definition CProUpServTx_IsTriviallyValid (p : CProUpServTx) : res protx_error unit :=
  if (us_nVersion p =? 0) || (PROTX_VERSION <? us_nVersion p) then DoS 100 bad_protx_version else Ok tt.

Definition CProUpRegTx_IsTriviallyValid (p : CProUpRegTx) : res protx_error unit :=
  if (ur_nVersion p =? 0) || (PROTX_VERSION <? ur_nVersion p) then DoS 100 bad_protx_version else
  if negb (ur_nMode p =? 0) then DoS 100 bad_protx_mode else
  if negb (BLS_IsValid (ur_pubKeyOperator p)) || hash_IsNull (ur_keyIDVoting p) then DoS 10 bad_protx_key_null else
  if negb (IsPayToPublicKeyHash (ur_scriptPayout p)) && negb (IsPayToScriptHash (ur_scriptPayout p)) then DoS 10 bad_protx_payee else Ok tt.

Definition CProUpRevTx_IsTriviallyValid (p : CProUpRevTx) : res protx_error unit :=
  if (rev_nVersion p =? 0) || (PROTX_VERSION <? rev_nVersion p) then DoS 100 bad_protx_version else
  if REASON_LAST <? rev_nReason p then DoS 100 bad_protx_reason else Ok tt.

Definition CheckInputsHash (tx : CTransaction) (inputsHash : list Z) : res protx_error unit :=
  if bool_decide (CalcTxInputsHash tx = inputsHash) then Ok tt else DoS 100 bad_protx_inputs_hash.

Definition CheckService (addr : CService) : res protx_error unit :=
  let a := service_addr addr in
  if negb (IsValid_addr a) then DoS 10 bad_protx_ipaddr else
  if RequireRoutableExternalIP params && negb (IsRoutable a (fAllowPrivateNet params)) then DoS 10 bad_protx_ipaddr else
  if is_mainnet params && negb (port addr =? mainnetDefaultPort params) then DoS 10 bad_protx_ipaddr_port else
  if negb (is_mainnet params) && (port addr =? mainnetDefaultPort params) then DoS 10 bad_protx_ipaddr_port else
  if negb (IsIPv4 a) then DoS 10 bad_protx_ipaddr else Ok tt.

(** CHashSigner::VerifyHash: the key that is recovered from the signature has the id. *)
Definition VerifyHash (hash keyID vchSig : list Z) : bool :=
  let '(ok, pubkeyFromSig) := RecoverCompact env [] hash vchSig in
  ok && bool_decide (PubKey_GetID pubkeyFromSig = keyID).

Definition CheckHashSig (hash keyID vchSig : list Z) : res protx_error unit :=
  if VerifyHash hash keyID vchSig then Ok tt else DoS 100 bad_protx_sig.

Definition VerifyInsecure (sig : CBLSSignature) (pubKey : CBLSPublicKey) (hash : list Z) : bool :=
  if negb (BLSSig_IsValid sig) || negb (BLS_IsValid pubKey) then false else BLS_Verify (bls_bytes pubKey) hash (sig_bytes sig).

Definition CheckHashSig_bls (hash : list Z) (pubKey : CBLSPublicKey) (sig : CBLSSignature) : res protx_error unit :=
  if VerifyInsecure sig pubKey hash then Ok tt else DoS 100 bad_protx_sig.

(** [view.GetCoin], which answers with an unspent coin. *)
Context (view_GetCoin : COutPoint -> option Coin).
(** The bytes CMessageSigner::VerifyMessage hashes for MakeSignString of a payload. *)
Context (signed_message : CProRegTx -> list Z).

(** GetListForBlock of the previous block, and its height. *)
Context (prev : option (CDeterministicMNList * Z)).

Definition IsDIP3Enforced_at (nHeight : Z) : bool := DIP0003EnforcementHeight params <=? nHeight.

(** Where the collateral is paid to, its outpoint, and the key that must sign when it is not in the transaction. *)
Definition check_collateral (tx : CTransaction) (ptx : CProRegTx) : res protx_error (CTxDestination * COutPoint * option (list Z)) :=
  let o := reg_collateralOutpoint ptx in
  if negb (hash_IsNull (op_hash o)) then
    match view_GetCoin o with
    | None => DoS 10 bad_protx_collateral
    | Some c =>
        if Coin_IsSpent c || negb (nValue (out c) =? MASTERNODE_COLLATERAL_AMOUNT) then DoS 10 bad_protx_collateral else
        dest ← call (ExtractDestination (scriptPubKey (out c)));
        match dest with
        | None => DoS 10 bad_protx_collateral_dest
        | Some (CKeyID id) => Ok (CKeyID id, o, Some id)
        | Some _ => DoS 10 bad_protx_collateral_pkh
        end
    end
  else if zlen (vout tx) <=? op_n o then DoS 10 bad_protx_collateral_index
  else
    match vout tx !! Z.to_nat (op_n o) with
    | None => Abort
    | Some txout =>
        if negb (nValue txout =? MASTERNODE_COLLATERAL_AMOUNT) then DoS 10 bad_protx_collateral else
        dest ← call (ExtractDestination (scriptPubKey txout));
        match dest with
        | None => DoS 10 bad_protx_collateral_dest
        | Some dest => Ok (dest, MkOutPoint (ComputeHash tx) (op_n o), None)
        end
    end.

Definition CheckProRegTx (tx : CTransaction) (check_sigs : bool) : res protx_error unit :=
  if negb (nType tx =? TRANSACTION_PROVIDER_REGISTER) then DoS 100 bad_protx_type else
  ptx ← or_DoS (GetTxPayload TRANSACTION_PROVIDER_REGISTER unser_ProRegTx tx) 100 bad_protx_payload;
  _ ← CProRegTx_IsTriviallyValid ptx;
  _ ← (if bool_decide (reg_addr ptx <> CService_default) then CheckService (reg_addr ptx) else Ok tt);
  '(collateralTxDest, collateral, keyForPayloadSig) ← check_collateral tx ptx;
  if bool_decide (collateralTxDest = CKeyID (reg_keyIDOwner ptx)) || bool_decide (collateralTxDest = CKeyID (reg_keyIDVoting ptx))
  then DoS 10 bad_protx_collateral_reuse else
  _ ← match prev with
      | None => Ok tt
      | Some (mnList, height) =>
          _ ← (if HasUniqueProperty mnList (reg_addr ptx) then
                 match GetUniquePropertyMN mnList (reg_addr ptx) with
                 | None => Abort
                 | Some dmn => if bool_decide (collateralOutpoint dmn <> collateral) then DoS 10 bad_protx_dup_addr else Ok tt
                 end
               else Ok tt);
          if HasUniqueProperty mnList (reg_keyIDOwner ptx) || HasUniqueProperty mnList (reg_pubKeyOperator ptx)
          then DoS 10 bad_protx_dup_key else
          if negb (IsDIP3Enforced_at height) && negb (bool_decide (reg_keyIDOwner ptx = reg_keyIDVoting ptx))
          then DoS 10 bad_protx_key_not_same else Ok tt
      end;
  _ ← CheckInputsHash tx (reg_inputsHash ptx);
  match keyForPayloadSig with
  | Some keyID => if check_sigs then CheckHashSig (Hash (signed_message ptx)) keyID (reg_vchSig ptx) else Ok tt
  | None => match reg_vchSig ptx with [] => Ok tt | _ => DoS 100 bad_protx_sig end
  end.

Definition CheckProUpServTx (tx : CTransaction) (check_sigs : bool) : res protx_error unit :=
  if negb (nType tx =? TRANSACTION_PROVIDER_UPDATE_SERVICE) then DoS 100 bad_protx_type else
  ptx ← or_DoS (GetTxPayload TRANSACTION_PROVIDER_UPDATE_SERVICE unser_ProUpServTx tx) 100 bad_protx_payload;
  _ ← CProUpServTx_IsTriviallyValid ptx;
  _ ← CheckService (us_addr ptx);
  match prev with
  | None => Ok tt
  | Some (mnList, height) =>
      match GetMN mnList (us_proTxHash ptx) with
      | None => DoS 100 bad_protx_hash
      | Some mn =>
          _ ← (if HasUniqueProperty mnList (us_addr ptx) then
                 match GetUniquePropertyMN mnList (us_addr ptx) with
                 | None => Abort
                 | Some dmn => if bool_decide (proTxHash dmn <> us_proTxHash ptx) then DoS 10 bad_protx_dup_addr else Ok tt
                 end
               else Ok tt);
          _ ← (if bool_decide (us_scriptOperatorPayout ptx <> []) then
                 if nOperatorReward mn =? 0 then DoS 10 bad_protx_operator_payee else
                 if negb (IsPayToPublicKeyHash (us_scriptOperatorPayout ptx)) && negb (IsPayToScriptHash (us_scriptOperatorPayout ptx))
                 then DoS 10 bad_protx_operator_payee else Ok tt
               else Ok tt);
          _ ← CheckInputsHash tx (us_inputsHash ptx);
          if check_sigs then
            hashed ← call (ser_ProUpServTx true ptx); CheckHashSig_bls (Hash hashed) (pubKeyOperator (pdmnState mn)) (us_sig ptx)
          else Ok tt
      end
  end.

Definition CheckProUpRegTx (tx : CTransaction) (check_sigs : bool) : res protx_error unit :=
  if negb (nType tx =? TRANSACTION_PROVIDER_UPDATE_REGISTRAR) then DoS 100 bad_protx_type else
  ptx ← or_DoS (GetTxPayload TRANSACTION_PROVIDER_UPDATE_REGISTRAR unser_ProUpRegTx tx) 100 bad_protx_payload;
  _ ← CProUpRegTx_IsTriviallyValid ptx;
  payout ← call (ExtractDestination (ur_scriptPayout ptx));
  match payout, prev with
  | None, _ => DoS 10 bad_protx_payee_dest
  | Some _, None => Ok tt
  | Some payoutDest, Some (mnList, height) =>
      match GetMN mnList (ur_proTxHash ptx) with
      | None => DoS 100 bad_protx_hash
      | Some dmn =>
          let owner := keyIDOwner (pdmnState dmn) in
          let reused (dest : CTxDestination) : bool :=
            bool_decide (dest = CKeyID owner) || bool_decide (dest = CKeyID (ur_keyIDVoting ptx)) in
          if reused payoutDest then DoS 10 bad_protx_payee_reuse else
          match view_GetCoin (collateralOutpoint dmn) with
          | None => DoS 100 bad_protx_collateral
          | Some c =>
              if Coin_IsSpent c then DoS 100 bad_protx_collateral else
              dest ← call (ExtractDestination (scriptPubKey (out c)));
              match dest with
              | None => DoS 100 bad_protx_collateral_dest
              | Some collateralTxDest =>
                  if reused collateralTxDest then DoS 10 bad_protx_collateral_reuse else
                  _ ← (if HasUniqueProperty mnList (ur_pubKeyOperator ptx) then
                         match GetUniquePropertyMN mnList (ur_pubKeyOperator ptx) with
                         | None => Abort
                         | Some other => if bool_decide (ur_proTxHash ptx <> proTxHash other) then DoS 10 bad_protx_dup_key else Ok tt
                         end
                       else Ok tt);
                  if negb (IsDIP3Enforced_at height) && negb (bool_decide (owner = ur_keyIDVoting ptx))
                  then DoS 10 bad_protx_key_not_same else
                  _ ← CheckInputsHash tx (ur_inputsHash ptx);
                  if check_sigs then hashed ← call (ser_ProUpRegTx true ptx); CheckHashSig (Hash hashed) owner (ur_vchSig ptx) else Ok tt
              end
          end
      end
  end.

Definition CheckProUpRevTx (tx : CTransaction) (check_sigs : bool) : res protx_error unit :=
  if negb (nType tx =? TRANSACTION_PROVIDER_UPDATE_REVOKE) then DoS 100 bad_protx_type else
  ptx ← or_DoS (GetTxPayload TRANSACTION_PROVIDER_UPDATE_REVOKE unser_ProUpRevTx tx) 100 bad_protx_payload;
  _ ← CProUpRevTx_IsTriviallyValid ptx;
  match prev with
  | None => Ok tt
  | Some (mnList, height) =>
      match GetMN mnList (rev_proTxHash ptx) with
      | None => DoS 100 bad_protx_hash
      | Some dmn =>
          _ ← CheckInputsHash tx (rev_inputsHash ptx);
          if check_sigs then
            hashed ← call (ser_ProUpRevTx true ptx); CheckHashSig_bls (Hash hashed) (pubKeyOperator (pdmnState dmn)) (rev_sig ptx)
          else Ok tt
      end
  end.

End checks.

(** ** The format of the payloads *)

Section formats.
Context {bls : BLSOps}.

(** What an object that serializes to these bytes satisfies. *)
Definition bls_ok (size : nat) (FromBytes : list Z -> option (list Z)) (b : list Z) : Prop :=
  length b = size /\ (forallb (fun c => c =? 0) b = true \/ FromBytes b = Some b).

Lemma unser_bls_write size FromBytes b rest : bls_ok size FromBytes b -> unser_bls size FromBytes (b ++ rest) = Ok (b, rest).
Proof.
  intros [Hl Hv]. unfold unser_bls, mbind, Parser_bind. rewrite read_bytes_app by done. destruct (forallb _ b) eqn:E0; [done|].
  destruct Hv as [?|Hv]; [done|]. rewrite Hv. by rewrite bool_decide_eq_true_2.
Qed.

Definition blskey_ok (k : CBLSPublicKey) : Prop := bls_ok BLS_CURVE_PUBKEY_SIZE G1Element_FromBytes (bls_bytes k).
Definition blssig_ok (s : CBLSSignature) : Prop := bls_ok BLS_CURVE_SIG_SIZE G2Element_FromBytes (sig_bytes s).

#[export] Instance codec_blskey : Codec bls_bytes unser_blskey blskey_ok.
Proof. intros [b] rest Hb. unfold unser_blskey, mbind, Parser_bind. by rewrite unser_bls_write. Qed.
#[export] Instance codec_blssig : Codec sig_bytes unser_blssig blssig_ok.
Proof. intros [b] rest Hb. unfold unser_blssig, mbind, Parser_bind. by rewrite unser_bls_write. Qed.

#[export] Instance codec_fixed n : Codec id (read_bytes n) (fun b => length b = n).
Proof. intros b rest Hb. by apply read_bytes_app. Qed.

#[export] Instance codec_DynBitSet : Codec WriteDynBitSet ReadDynBitSet (fun v => zlen v <= MAX_SIZE).
Proof.
  intros v rest Hv. unfold WriteDynBitSet, ReadDynBitSet. rewrite <- app_assoc.
  rewrite (codec_bind _ _ _ _ (zlen v) _ codec_CompactSize) by (split; [apply zlen_nonneg|done]).
  unfold zlen. rewrite Nat2Z.id. apply ReadFixedBitSet_write.
Qed.

(** An address and port that the format of the payloads has room for. *)
Definition service_ok (s : CService) : Prop := addr_ok (service_addr s) /\ IsAddrV1Compatible (service_addr s) = Ok true /\ unsigned 16 (port s).

Lemma service_read_back s : service_ok s -> exists b, ser_service false s = Ok b /\ forall rest, unser_service false (b ++ rest) = Ok (s, rest).
Proof.
  intros (Ha & Hv & Hp). destruct (netaddr_read_back false (service_addr s) Ha (fun _ => Hv)) as (b & Hb & Hr).
  exists (b ++ ser_writedata16be (port s)). unfold ser_service. rewrite Hb. cbn [mbind res_bind]. split; [done|].
  intros rest. unfold unser_service, mbind at 1, Parser_bind at 1. rewrite <- app_assoc, Hr.
  rewrite (codec_bind _ _ _ _ (port s) _ codec_u16be) by done. by destruct s.
Qed.

Lemma fixed_bind {B} n (k : list Z -> Parser B) b rest : length b = n -> (read_bytes n ≫= k) (b ++ rest) = k b rest.
Proof. intros Hb. unfold mbind, Parser_bind. by rewrite read_bytes_app. Qed.

(** The fields have their sizes. *)
Definition ProRegTx_ok (p : CProRegTx) : Prop :=
  unsigned 16 (reg_nVersion p) /\ unsigned 16 (reg_nType p) /\ unsigned 16 (reg_nMode p) /\ outpoint_ok (reg_collateralOutpoint p) /\
  service_ok (reg_addr p) /\ length (reg_keyIDOwner p) = 20%nat /\ blskey_ok (reg_pubKeyOperator p) /\ length (reg_keyIDVoting p) = 20%nat /\
  unsigned 16 (reg_nOperatorReward p) /\ zlen (reg_scriptPayout p) <= MAX_SIZE /\ length (reg_inputsHash p) = 32%nat /\ zlen (reg_vchSig p) <= MAX_SIZE.
Definition ProUpServTx_ok (p : CProUpServTx) : Prop :=
  unsigned 16 (us_nVersion p) /\ length (us_proTxHash p) = 32%nat /\ service_ok (us_addr p) /\ zlen (us_scriptOperatorPayout p) <= MAX_SIZE /\
  length (us_inputsHash p) = 32%nat /\ blssig_ok (us_sig p).
Definition ProUpRegTx_ok (p : CProUpRegTx) : Prop :=
  unsigned 16 (ur_nVersion p) /\ length (ur_proTxHash p) = 32%nat /\ unsigned 16 (ur_nMode p) /\ blskey_ok (ur_pubKeyOperator p) /\
  length (ur_keyIDVoting p) = 20%nat /\ zlen (ur_scriptPayout p) <= MAX_SIZE /\ length (ur_inputsHash p) = 32%nat /\ zlen (ur_vchSig p) <= MAX_SIZE.
Definition ProUpRevTx_ok (p : CProUpRevTx) : Prop :=
  unsigned 16 (rev_nVersion p) /\ length (rev_proTxHash p) = 32%nat /\ unsigned 16 (rev_nReason p) /\ length (rev_inputsHash p) = 32%nat /\
  blssig_ok (rev_sig p).
Definition commitment_ok (c : CFinalCommitment) : Prop :=
  unsigned 16 (qc_nVersion c) /\ unsigned 8 (llmqType c) /\ length (quorumHash c) = 32%nat /\
  (if qc_nVersion c =? INDEXED_QUORUM_VERSION then signed 16 (quorumIndex c) else quorumIndex c = 0) /\
  zlen (signers c) <= MAX_SIZE /\ zlen (validMembers c) <= MAX_SIZE /\ blskey_ok (quorumPublicKey c) /\ length (quorumVvecHash c) = 32%nat /\
  blssig_ok (quorumSig c) /\ blssig_ok (membersSig c).

(** Reads the next field of what was written. *)
Ltac next_field :=
  first [ rewrite (codec_bind _ _ _ _ _ _ codec_u16) by done | rewrite (codec_bind _ _ _ _ _ _ codec_u8) by done
        | rewrite (codec_bind _ _ _ _ _ _ codec_outpoint) by done | rewrite fixed_bind by done
        | rewrite (codec_bind _ _ _ _ _ _ codec_blskey) by done | rewrite (codec_bind _ _ _ _ _ _ codec_blssig) by done
        | rewrite (codec_bind _ _ _ _ _ _ codec_DynBitSet) by done | rewrite (codec_bind _ _ _ _ _ _ codec_bytes) by done ].

Lemma ProRegTx_read_back p : ProRegTx_ok p -> exists s, ser_ProRegTx false p = Ok s /\ forall rest, unser_ProRegTx (s ++ rest) = Ok (p, rest).
Proof.
  intros (H1 & H2 & H3 & H4 & H5 & H6 & H7 & H8 & H9 & H10 & H11 & H12). destruct (service_read_back _ H5) as (b & Hb & Hr).
  unfold ser_ProRegTx. rewrite Hb. cbn [mbind res_bind]. eexists. split; [done|]. intros rest. unfold unser_ProRegTx. rewrite <- !app_assoc.
  do 4 next_field. unfold mbind at 1, Parser_bind at 1. rewrite Hr. do 7 next_field. by destruct p.
Qed.

Lemma ProUpServTx_read_back p : ProUpServTx_ok p -> exists s, ser_ProUpServTx false p = Ok s /\ forall rest, unser_ProUpServTx (s ++ rest) = Ok (p, rest).
Proof.
  intros (H1 & H2 & H3 & H4 & H5 & H6). destruct (service_read_back _ H3) as (b & Hb & Hr).
  unfold ser_ProUpServTx. rewrite Hb. cbn [mbind res_bind]. eexists. split; [done|]. intros rest. unfold unser_ProUpServTx. rewrite <- !app_assoc.
  do 2 next_field. unfold mbind at 1, Parser_bind at 1. rewrite Hr. do 3 next_field. by destruct p.
Qed.

Lemma ProUpRegTx_read_back p : ProUpRegTx_ok p -> exists s, ser_ProUpRegTx false p = Ok s /\ forall rest, unser_ProUpRegTx (s ++ rest) = Ok (p, rest).
Proof.
  intros (H1 & H2 & H3 & H4 & H5 & H6 & H7 & H8). eexists. split; [done|]. intros rest. unfold unser_ProUpRegTx. rewrite <- !app_assoc.
  do 8 next_field. by destruct p.
Qed.

Lemma ProUpRevTx_read_back p : ProUpRevTx_ok p -> exists s, ser_ProUpRevTx false p = Ok s /\ forall rest, unser_ProUpRevTx (s ++ rest) = Ok (p, rest).
Proof.
  intros (H1 & H2 & H3 & H4 & H5). eexists. split; [done|]. intros rest. unfold unser_ProUpRevTx. rewrite <- !app_assoc.
  do 5 next_field. by destruct p.
Qed.

Lemma commitment_read_back c rest : commitment_ok c -> unser_commitment (ser_commitment c ++ rest) = Ok (c, rest).
Proof.
  intros (H1 & H2 & H3 & H4 & H5 & H6 & H7 & H8 & H9 & H10). unfold ser_commitment, unser_commitment. rewrite <- !app_assoc. do 3 next_field.
  destruct c as [v ty h i sg vm pk vv qs ms]. cbn [qc_nVersion llmqType quorumHash quorumIndex signers validMembers quorumPublicKey quorumVvecHash
    quorumSig membersSig] in *. destruct (v =? INDEXED_QUORUM_VERSION).
  - rewrite <- ?app_assoc, (codec_bind _ _ _ _ i _ codec_i16) by done. by do 6 next_field.
  - subst i. rewrite parser_ret_bind. cbn [app]. by do 6 next_field.
Qed.

Lemma GetTxPayload_Set {T : Type} type (unser : Parser T) tx s x :
  nType tx = type -> unser (s ++ []) = Ok (x, []) -> GetTxPayload type unser (SetTxPayload tx s) = Ok x.
Proof. intros Ht Hu. unfold GetTxPayload. cbn [nType vExtraPayload SetTxPayload]. rewrite Ht, Z.eqb_refl. rewrite app_nil_r in Hu. by rewrite Hu. Qed.

(** The payload that SetTxPayload puts into a transaction of its type is the one GetTxPayload reads, for
    the four provider transactions and the quorum commitment, whether or not the commitment has an index. *)
Theorem payload_roundtrip (tx : CMutableTransaction) (p : CProRegTx) (us : CProUpServTx) (ur : CProUpRegTx) (rv : CProUpRevTx) (qc : CFinalCommitmentTxPayload)
    (Hp : ProRegTx_ok p) (Hus : ProUpServTx_ok us) (Hur : ProUpRegTx_ok ur) (Hrv : ProUpRevTx_ok rv)
    (Hqc : unsigned 16 (qcTx_nVersion qc) /\ unsigned 32 (qcTx_nHeight qc) /\ commitment_ok (commitment qc)) :
  (nType tx = TRANSACTION_PROVIDER_REGISTER -> exists s, ser_ProRegTx false p = Ok s /\
     GetTxPayload TRANSACTION_PROVIDER_REGISTER unser_ProRegTx (SetTxPayload tx s) = Ok p) /\
  (nType tx = TRANSACTION_PROVIDER_UPDATE_SERVICE -> exists s, ser_ProUpServTx false us = Ok s /\
     GetTxPayload TRANSACTION_PROVIDER_UPDATE_SERVICE unser_ProUpServTx (SetTxPayload tx s) = Ok us) /\
  (nType tx = TRANSACTION_PROVIDER_UPDATE_REGISTRAR -> exists s, ser_ProUpRegTx false ur = Ok s /\
     GetTxPayload TRANSACTION_PROVIDER_UPDATE_REGISTRAR unser_ProUpRegTx (SetTxPayload tx s) = Ok ur) /\
  (nType tx = TRANSACTION_PROVIDER_UPDATE_REVOKE -> exists s, ser_ProUpRevTx false rv = Ok s /\
     GetTxPayload TRANSACTION_PROVIDER_UPDATE_REVOKE unser_ProUpRevTx (SetTxPayload tx s) = Ok rv) /\
  (nType tx = TRANSACTION_QUORUM_COMMITMENT ->
     GetTxPayload TRANSACTION_QUORUM_COMMITMENT unser_CommitmentPayload (SetTxPayload tx (ser_CommitmentPayload qc)) = Ok qc).
Proof.
  split_and!; intros Ht.
  - destruct (ProRegTx_read_back p Hp) as (s & Hs & Hr). exists s. split; [done|]. by apply GetTxPayload_Set.
  - destruct (ProUpServTx_read_back us Hus) as (s & Hs & Hr). exists s. split; [done|]. by apply GetTxPayload_Set.
  - destruct (ProUpRegTx_read_back ur Hur) as (s & Hs & Hr). exists s. split; [done|]. by apply GetTxPayload_Set.
  - destruct (ProUpRevTx_read_back rv Hrv) as (s & Hs & Hr). exists s. split; [done|]. by apply GetTxPayload_Set.
  - destruct Hqc as (H1 & H2 & H3). apply GetTxPayload_Set; [done|]. unfold ser_CommitmentPayload, unser_CommitmentPayload.
    rewrite <- !app_assoc. next_field. rewrite (codec_bind _ _ _ _ _ _ codec_u32) by done.
    unfold mbind at 1, Parser_bind at 1. rewrite commitment_read_back by done. by destruct qc.
Qed.

End formats.

(** ** Examples *)

(** Every encoding of the right size is an element. *)
Definition plain_bls : BLSOps := {| G1Element_FromBytes := Some; G2Element_FromBytes := Some; BLS_Verify := fun _ _ _ => true |}.

Definition sample_service : CService := MkService ipv4_addr 63636.
Definition sample_key : CBLSPublicKey := MkBLSPublicKey (replicate 48 7).
Definition sample_sig : CBLSSignature := MkBLSSignature (replicate 96 5).
Definition sample_payout : list Z := GetScriptForDestination (CKeyID (replicate 20 3)).
Definition sample_ProRegTx : CProRegTx :=
  MkProRegTx 1 0 0 (MkOutPoint null_hash 0) sample_service (replicate 20 1) sample_key (replicate 20 2) 500 sample_payout (replicate 32 9) [].
Definition sample_ProUpServTx : CProUpServTx := MkProUpServTx 1 (replicate 32 4) sample_service [] (replicate 32 9) sample_sig.
Definition sample_ProUpRegTx : CProUpRegTx := MkProUpRegTx 1 (replicate 32 4) 0 sample_key (replicate 20 2) sample_payout (replicate 32 9) [1; 2].
Definition sample_ProUpRevTx : CProUpRevTx := MkProUpRevTx 1 (replicate 32 4) 2 (replicate 32 9) sample_sig.
Definition sample_commitment : CFinalCommitmentTxPayload :=
  MkCommitmentPayload 1 1000 (MkCommitment 2 103 (replicate 32 6) 1 [true; false; true] [true; true; false] sample_key (replicate 32 8) sample_sig sample_sig).
Definition special_tx (type : Z) : CTransaction := MkTransaction [] [] 3 type 0 0 [].

(** The fields of a payload one by one. *)
Ltac by_fields := first [assumption | reflexivity | discriminate | vm_compute; discriminate | split; by_fields].

Lemma payload_roundtrip_witness : let bls := plain_bls in
  exists s, ser_ProRegTx false sample_ProRegTx = Ok s /\
    GetTxPayload TRANSACTION_PROVIDER_REGISTER unser_ProRegTx (SetTxPayload (special_tx TRANSACTION_PROVIDER_REGISTER) s) = Ok sample_ProRegTx.
Proof.
  intros bls.
  assert (service_ok sample_service) as Hs by (split_and!; [exact ipv4_addr_ok|reflexivity|split; [discriminate|reflexivity]]).
  assert (blskey_ok sample_key) as Hk by (split; [reflexivity|right; reflexivity]).
  assert (blssig_ok sample_sig) as Hg by (split; [reflexivity|right; reflexivity]).
  apply (payload_roundtrip (special_tx TRANSACTION_PROVIDER_REGISTER) sample_ProRegTx sample_ProUpServTx sample_ProUpRegTx sample_ProUpRevTx sample_commitment);
    [by_fields..|reflexivity].
Defined.
