(* ===== verification/MasternodeManager.v ===== *)
(** * The masternode manager

    Models CDeterministicMNManager (src/src/evo/deterministicmns.h and .cpp): the list of masternodes a block
    makes from the one before it, the lists kept in memory and on disk as snapshots and differences, and
    their use when a block is processed or undone.  The database is a map for each kind of record, what was
    written is what is read; the members of a quorum and the coins are arguments. *)

From stdpp Require Import base list numbers gmap sorting.
From S2P Require Import Prelude Script Crypto Standard Serialize Transaction Coin Coins Block Chain Pow PosKernel NetAddress Masternodes ProviderTx.

Open Scope Z_scope.

(** ** The list that a block makes *)

(** A rejected block, or an exception of the list. *)
Inductive block_error : Type := Rejected (e : protx_error) | Thrown (e : mn_error).

Definition reject {A : Type} (level : Z) (reason : protx_reason) : res block_error A := Err (Rejected (level, reason)).
Definition or_reject {A : Type} (r : res unit A) (level : Z) (reason : protx_reason) : res block_error A :=
  match r with Ok a => Ok a | Err _ => reject level reason | Abort => Abort end.
(** A call of an operation of the list. *)
Definition throws {A : Type} (r : res mn_error A) : res block_error A :=
  match r with Ok a => Ok a | Err e => Err (Thrown e) | Abort => Abort end.
(** A pointer that is followed, or a call that asserts. *)
Definition total {A : Type} (r : res unit A) : res block_error A := match r with Ok a => Ok a | _ => Abort end.

(** The parameters of a type of quorum, those that are read here. *)
Record LLMQParams : Type := MkLLMQParams {
  llmq_type : Z;
  llmq_size : Z;
  llmq_minSize : Z;
  dkgInterval : Z;
  keepOldConnections : Z
}.

Definition GetLLMQ {E : Type} (llmqs : list LLMQParams) (type : Z) : res E LLMQParams :=
  match head (filter (fun p => llmq_type p = type) llmqs) with Some p => Ok p | None => Abort end.
Definition HasLLMQ (llmqs : list LLMQParams) (type : Z) : bool := existsb (fun p => llmq_type p =? type) llmqs.

(** CDeterministicMNState(const CProRegTx&) *)
Definition CDeterministicMNState_of (p : CProRegTx) : CDeterministicMNState :=
  let d := CDeterministicMNState_default in
  MkState (nPoSeBanHeight d) (nRegisteredHeight d) (nLastPaidHeight d) (nPoSePenalty d) (nPoSeRevivedHeight d) (nRevocationReason d)
    (confirmedHash d) (confirmedHashWithProRegTxHash d) (reg_keyIDOwner p) (reg_pubKeyOperator p) (reg_keyIDVoting p) (reg_addr p)
    (reg_scriptPayout p) (scriptOperatorPayout d).

Section build.
Context {crypto : CryptoOps} {bls : BLSOps} (params : EvoParams) (llmqs : list LLMQParams) (t : heap).
Context (view_GetCoin : COutPoint -> option Coin) (GetAllQuorumMembers : Z -> ptr -> list CDeterministicMN).

(** The masternodes of the old list that are confirmed by this block. *)
Fixpoint confirm_all (prevHash : list Z) (prevHeight : Z) (dmns : list CDeterministicMN) (newList : CDeterministicMNList) :
    res mn_error CDeterministicMNList :=
  match dmns with
  | [] => Ok newList
  | dmn :: dmns =>
      if negb (hash_IsNull (confirmedHash (pdmnState dmn))) then confirm_all prevHash prevHeight dmns newList else
      let nConfirmations := prevHeight - nRegisteredHeight (pdmnState dmn) in
      if nMasternodeMinimumConfirmations params <=? nConfirmations then
        newList ← UpdateMN newList (proTxHash dmn) (UpdateConfirmedHash (pdmnState dmn) (proTxHash dmn) prevHash);
        confirm_all prevHash prevHeight dmns newList
      else confirm_all prevHash prevHeight dmns newList
  end.

Definition collateral_of (tx : CTransaction) (proTx : CProRegTx) : COutPoint :=
  let o := reg_collateralOutpoint proTx in
  if hash_IsNull (op_hash o) then MkOutPoint (ComputeHash tx) (op_n o) else o.

(** The coin of an external collateral is there and has the amount. *)
Definition external_collateral_ok (proTx : CProRegTx) (collateral : COutPoint) : bool :=
  hash_IsNull (op_hash (reg_collateralOutpoint proTx)) ||
  match view_GetCoin collateral with
  | Some c => negb (Coin_IsSpent c) && (nValue (out c) =? MASTERNODE_COLLATERAL_AMOUNT)
  | None => false
  end.

Definition process_register (nHeight : Z) (tx : CTransaction) (newList : CDeterministicMNList) : res block_error CDeterministicMNList :=
  proTx ← or_reject (GetTxPayload TRANSACTION_PROVIDER_REGISTER unser_ProRegTx tx) 100 bad_protx_payload;
  let id := nTotalRegisteredCount newList in
  let collateral := collateral_of tx proTx in
  if negb (external_collateral_ok proTx collateral) then reject 100 bad_protx_collateral else
  newList ← match GetMNByCollateral newList collateral with
            | Some replacedDmn => throws (RemoveMN newList (proTxHash replacedDmn))
            | None => Ok newList
            end;
  if HasUniqueProperty newList (reg_addr proTx) then reject 100 bad_protx_dup_addr else
  if HasUniqueProperty newList (reg_keyIDOwner proTx) || HasUniqueProperty newList (reg_pubKeyOperator proTx)
  then reject 100 bad_protx_dup_key else
  let s := with_nRegisteredHeight (CDeterministicMNState_of proTx) nHeight in
  let s := if bool_decide (reg_addr proTx = CService_default) then BanIfNotBanned s nHeight else s in
  throws (AddMN newList (MkMN id (ComputeHash tx) collateral (reg_nOperatorReward proTx) s) true).

Definition process_update_service (nHeight : Z) (tx : CTransaction) (newList : CDeterministicMNList) : res block_error CDeterministicMNList :=
  proTx ← or_reject (GetTxPayload TRANSACTION_PROVIDER_UPDATE_SERVICE unser_ProUpServTx tx) 100 bad_protx_payload;
  _ ← (if HasUniqueProperty newList (us_addr proTx) then
         match GetUniquePropertyMN newList (us_addr proTx) with
         | None => Abort
         | Some other => if bool_decide (proTxHash other <> us_proTxHash proTx) then reject 100 bad_protx_dup_addr else Ok tt
         end
       else Ok tt);
  match GetMN newList (us_proTxHash proTx) with
  | None => reject 100 bad_protx_hash
  | Some dmn =>
      let s := pdmnState dmn in
      let s := with_operator s (nRevocationReason s) (pubKeyOperator s) (us_addr proTx) (us_scriptOperatorPayout proTx) in
      let s := if IsBanned s && BLS_IsValid (pubKeyOperator s) && negb (hash_IsNull (keyIDVoting s)) && negb (hash_IsNull (keyIDOwner s))
               then Revive s nHeight else s in
      throws (UpdateMN newList (us_proTxHash proTx) s)
  end.

Definition process_update_registrar (nHeight : Z) (tx : CTransaction) (newList : CDeterministicMNList) : res block_error CDeterministicMNList :=
  proTx ← or_reject (GetTxPayload TRANSACTION_PROVIDER_UPDATE_REGISTRAR unser_ProUpRegTx tx) 100 bad_protx_payload;
  match GetMN newList (ur_proTxHash proTx) with
  | None => reject 100 bad_protx_hash
  | Some dmn =>
      let s := pdmnState dmn in
      let s := if bool_decide (pubKeyOperator s <> ur_pubKeyOperator proTx) then BanIfNotBanned (ResetOperatorFields s) nHeight else s in
      throws (UpdateMN newList (ur_proTxHash proTx) (with_registrar s (ur_pubKeyOperator proTx) (ur_keyIDVoting proTx) (ur_scriptPayout proTx)))
  end.

Definition process_update_revoke (nHeight : Z) (tx : CTransaction) (newList : CDeterministicMNList) : res block_error CDeterministicMNList :=
  proTx ← or_reject (GetTxPayload TRANSACTION_PROVIDER_UPDATE_REVOKE unser_ProUpRevTx tx) 100 bad_protx_payload;
  match GetMN newList (rev_proTxHash proTx) with
  | None => reject 100 bad_protx_hash
  | Some dmn =>
      let s := BanIfNotBanned (ResetOperatorFields (pdmnState dmn)) nHeight in
      throws (UpdateMN newList (rev_proTxHash proTx) (with_operator s (rev_nReason proTx) (pubKeyOperator s) (addr s) (scriptOperatorPayout s)))
  end.

(** The members from index [i] on; a bit that is not there is read outside of the vector. *)
Fixpoint punish_members (qc : CFinalCommitment) (i : nat) (members : list CDeterministicMN) (mnList : CDeterministicMNList) :
    res mn_error CDeterministicMNList :=
  match members with
  | [] => Ok mnList
  | member :: members =>
      if negb (HasMN mnList (proTxHash member)) then punish_members qc (S i) members mnList else
      match validMembers qc !! i with
      | None => Abort
      | Some true => punish_members qc (S i) members mnList
      | Some false =>
          penalty ← CalcPenalty mnList 66;
          mnList ← PoSePunish mnList (proTxHash member) penalty;
          punish_members qc (S i) members mnList
      end
  end.

Definition HandleQuorumCommitment (qc : CFinalCommitment) (pQuorumBaseBlockIndex : ptr) (mnList : CDeterministicMNList) : res mn_error CDeterministicMNList :=
  punish_members qc 0 (GetAllQuorumMembers (llmqType qc) pQuorumBaseBlockIndex) mnList.

Definition process_commitment (pindexPrev : ptr) (tx : CTransaction) (newList : CDeterministicMNList) : res block_error CDeterministicMNList :=
  qc ← or_reject (GetTxPayload TRANSACTION_QUORUM_COMMITMENT unser_CommitmentPayload tx) 100 bad_qc_payload;
  if commitment_IsNull (commitment qc) then Ok newList else
  llmq_params ← GetLLMQ llmqs (llmqType (commitment qc));
  let qcnHeight := s32 (qcTx_nHeight qc) in
  let quorumHeight := qcnHeight - Z.rem qcnHeight (dkgInterval llmq_params) + quorumIndex (commitment qc) in
  ancestor ← total (GetAncestor t pindexPrev quorumHeight);
  match ancestor with
  | None => reject 100 bad_qc_quorum_hash
  | Some p =>
      b ← total (deref t p);
      if bool_decide (Chain.blockHash b <> quorumHash (commitment qc)) then reject 100 bad_qc_quorum_hash
      else throws (HandleQuorumCommitment (commitment qc) p newList)
  end.

Definition process_tx (nHeight : Z) (pindexPrev : ptr) (tx : CTransaction) (newList : CDeterministicMNList) : res block_error CDeterministicMNList :=
  if negb (nVersion tx =? 3) then Ok newList else
  if nType tx =? TRANSACTION_PROVIDER_REGISTER then process_register nHeight tx newList else
  if nType tx =? TRANSACTION_PROVIDER_UPDATE_SERVICE then process_update_service nHeight tx newList else
  if nType tx =? TRANSACTION_PROVIDER_UPDATE_REGISTRAR then process_update_registrar nHeight tx newList else
  if nType tx =? TRANSACTION_PROVIDER_UPDATE_REVOKE then process_update_revoke nHeight tx newList else
  if nType tx =? TRANSACTION_QUORUM_COMMITMENT then process_commitment pindexPrev tx newList else Ok newList.

Fixpoint process_txs (nHeight : Z) (pindexPrev : ptr) (txs : list CTransaction) (newList : CDeterministicMNList) : res block_error CDeterministicMNList :=
  match txs with
  | [] => Ok newList
  | tx :: txs => newList ← process_tx nHeight pindexPrev tx newList; process_txs nHeight pindexPrev txs newList
  end.

Fixpoint remove_spent (ins : list CTxIn) (newList : CDeterministicMNList) : res mn_error CDeterministicMNList :=
  match ins with
  | [] => Ok newList
  | txin :: ins =>
      match GetMNByCollateral newList (prevout txin) with
      | Some dmn =>
          if bool_decide (collateralOutpoint dmn = prevout txin) then newList ← RemoveMN newList (proTxHash dmn); remove_spent ins newList
          else remove_spent ins newList
      | None => remove_spent ins newList
      end
  end.

(** The transactions both loops visit: not the coinbase, and not the second one of a proof-of-stake block. *)
Definition visited_txs (block : CBlock) : list CTransaction :=
  drop (if header_IsProofOfStake (header block) then 2 else 1) (vtx block).

(** The payee of the old list is marked as paid when it is still there. *)
Definition mark_paid (payee : option CDeterministicMN) (nHeight : Z) (newList : CDeterministicMNList) : res mn_error CDeterministicMNList :=
  match payee with
  | None => Ok newList
  | Some payee =>
      match GetMN newList (proTxHash payee) with
      | None => Ok newList
      | Some dmn => UpdateMN newList (proTxHash payee) (with_nLastPaidHeight (pdmnState dmn) nHeight)
      end
  end.

(** BuildNewListFromBlock for the list [oldList] of the previous block. *)
Definition BuildNewList (block : CBlock) (pindexPrev : ptr) (oldList : CDeterministicMNList) : res block_error CDeterministicMNList :=
  prev ← total (deref t pindexPrev);
  let nHeight := Chain.nHeight prev + 1 in
  let newList := SetHeight (SetBlockHash oldList null_hash) nHeight in
  newList ← throws (confirm_all (Chain.blockHash prev) (Chain.nHeight prev) (ForEachMN oldList false) newList);
  newList ← throws (DecreasePoSePenalties newList);
  newList ← process_txs nHeight pindexPrev (visited_txs block) newList;
  newList ← throws (remove_spent (flat_map vin (visited_txs block)) newList);
  throws (mark_paid (GetMNPayee oldList) nHeight newList).

End build.

Definition IsProTxWithCollateral {bls : BLSOps} (tx : CTransaction) (n : Z) : res unit bool :=
  if negb (nVersion tx =? 3) || negb (nType tx =? TRANSACTION_PROVIDER_REGISTER) then Ok false else
  match GetTxPayload TRANSACTION_PROVIDER_REGISTER unser_ProRegTx tx with
  | Abort => Abort
  | Err _ => Ok false
  | Ok proTx =>
      let o := reg_collateralOutpoint proTx in
      if negb (hash_IsNull (op_hash o)) then Ok false else
      if (zlen (vout tx) <=? op_n o) || negb (op_n o =? n) then Ok false else
      match vout tx !! Z.to_nat n with
      | None => Abort
      | Some txout => Ok (nValue txout =? MASTERNODE_COLLATERAL_AMOUNT)
      end
  end.

(** ** The lists of the blocks *)

Definition DISK_SNAPSHOT_PERIOD : Z := 576.
Definition DISK_SNAPSHOTS : Z := 3.
Definition LIST_DIFFS_CACHE_SIZE : Z := DISK_SNAPSHOT_PERIOD * DISK_SNAPSHOTS.

(** The members, and the records DB_LIST_SNAPSHOT and DB_LIST_DIFF of the database.  A difference in memory
    has the height of its block, which is not written. *)
Record CDeterministicMNManager : Type := MkMNManager {
  mnListsCache : gmap (list Z) CDeterministicMNList;
  mnListDiffsCache : gmap (list Z) (CDeterministicMNListDiff * Z);
  db_snapshots : gmap (list Z) CDeterministicMNList;
  db_diffs : gmap (list Z) CDeterministicMNListDiff;
  tipIndex : option ptr;
  to_cleanup : Z;
  did_cleanup : Z
}.

Section manager_updates.
Context (m : CDeterministicMNManager).

Definition with_lists (lists : gmap (list Z) CDeterministicMNList) : CDeterministicMNManager :=
  MkMNManager lists (mnListDiffsCache m) (db_snapshots m) (db_diffs m) (tipIndex m) (to_cleanup m) (did_cleanup m).
Definition with_diffs (diffs : gmap (list Z) (CDeterministicMNListDiff * Z)) : CDeterministicMNManager :=
  MkMNManager (mnListsCache m) diffs (db_snapshots m) (db_diffs m) (tipIndex m) (to_cleanup m) (did_cleanup m).
Definition with_db (snapshots : gmap (list Z) CDeterministicMNList) (diffs : gmap (list Z) CDeterministicMNListDiff) : CDeterministicMNManager :=
  MkMNManager (mnListsCache m) (mnListDiffsCache m) snapshots diffs (tipIndex m) (to_cleanup m) (did_cleanup m).
Definition UpdatedBlockTip (pindex : option ptr) : CDeterministicMNManager :=
  MkMNManager (mnListsCache m) (mnListDiffsCache m) (db_snapshots m) (db_diffs m) pindex (to_cleanup m) (did_cleanup m).
Definition with_cleanup (to did : Z) : CDeterministicMNManager :=
  MkMNManager (mnListsCache m) (mnListDiffsCache m) (db_snapshots m) (db_diffs m) (tipIndex m) to did.

Definition emplace_list (h : list Z) (l : CDeterministicMNList) : CDeterministicMNManager := with_lists (emplace h l (mnListsCache m)).
Definition emplace_diff (h : list Z) (d : CDeterministicMNListDiff) (height : Z) : CDeterministicMNManager :=
  with_diffs (emplace h (d, height) (mnListDiffsCache m)).

End manager_updates.

Section lists.
Context {crypto : CryptoOps} (llmqs : list LLMQParams) (t : heap).

(** The loop that looks for a list to start from: that list, the blocks whose differences lead to the wanted
    one, from the oldest on, and the manager with what was read.  Each round is at the block before. *)
Fixpoint find_snapshot (fuel : nat) (m : CDeterministicMNManager) (pindex : option ptr) (listDiffIndexes : list ptr) :
    res block_error (CDeterministicMNList * list ptr * CDeterministicMNManager) :=
  match fuel, pindex with
  | O, _ | _, None => Abort
  | S fuel, Some p =>
      b ← total (deref t p);
      let hash := Chain.blockHash b in
      match mnListsCache m !! hash with
      | Some snapshot => Ok (snapshot, listDiffIndexes, m)
      | None =>
          match db_snapshots m !! hash with
          | Some snapshot => Ok (snapshot, listDiffIndexes, emplace_list m hash snapshot)
          | None =>
              match mnListDiffsCache m !! hash with
              | Some _ => find_snapshot fuel m (pprev b) (p :: listDiffIndexes)
              | None =>
                  match db_diffs m !! hash with
                  | None =>
                      let snapshot := CDeterministicMNList_make hash (-1) 0 in
                      Ok (snapshot, listDiffIndexes, emplace_list m hash snapshot)
                  | Some diff => find_snapshot fuel (emplace_diff m hash diff (Chain.nHeight b)) (pprev b) (p :: listDiffIndexes)
                  end
              end
          end
      end
  end.

(** [at] throws for a difference that is not there; that is not one of the exceptions of a list. *)
Fixpoint apply_diffs (m : CDeterministicMNManager) (indexes : list ptr) (snapshot : CDeterministicMNList) : res block_error CDeterministicMNList :=
  match indexes with
  | [] => Ok snapshot
  | p :: indexes =>
      b ← total (deref t p);
      match mnListDiffsCache m !! Chain.blockHash b with
      | None => Abort
      | Some (diff, _) =>
          snapshot ← (if HasChanges diff then throws (ApplyDiff snapshot (Chain.blockHash b) (Chain.nHeight b) diff)
                      else Ok (SetHeight (SetBlockHash snapshot (Chain.blockHash b)) (Chain.nHeight b)));
          apply_diffs m indexes snapshot
      end
  end.

Definition quorum_height (height : Z) (params : LLMQParams) : bool := Z.rem height (dkgInterval params) =? 0.
Definition quorum_alive (height nHeight : Z) (params : LLMQParams) : bool :=
  quorum_height height params && (nHeight <=? height + dkgInterval params * (keepOldConnections params + 1)).

(** The list is kept when it is that of the tip or a quorum may need it. *)
Definition keep_list (m : CDeterministicMNManager) (snapshot : CDeterministicMNList) : res block_error CDeterministicMNManager :=
  match tipIndex m with
  | None => Ok m
  | Some tip =>
      b ← total (deref t tip);
      let hash := blockHash snapshot in
      if bool_decide (hash = Chain.blockHash b) || existsb (quorum_alive (list_nHeight snapshot) (Chain.nHeight b)) llmqs
      then Ok (emplace_list m hash snapshot) else Ok m
  end.

Definition GetListForBlock (m : CDeterministicMNManager) (pindex : ptr) : res block_error (CDeterministicMNList * CDeterministicMNManager) :=
  '(snapshot, listDiffIndexes, m) ← find_snapshot (S (length t)) m (Some pindex) [];
  snapshot ← apply_diffs m listDiffIndexes snapshot;
  m ← keep_list m snapshot;
  Ok (snapshot, m).

Definition GetListAtChainTip (m : CDeterministicMNManager) : res block_error (CDeterministicMNList * CDeterministicMNManager) :=
  match tipIndex m with
  | None => Ok (CDeterministicMNList_make null_hash (-1) 0, m)
  | Some tip => GetListForBlock m tip
  end.

Definition IsDIP3Enforced (params : EvoParams) (m : CDeterministicMNManager) (nHeight : Z) : res unit bool :=
  nHeight ← (if nHeight =? -1 then
               match tipIndex m with None => Ok 1 | Some tip => b ← deref t tip; Ok (Chain.nHeight b) end
             else Ok nHeight);
  Ok (DIP0003EnforcementHeight params <=? nHeight).

(** Whether a list in memory is dropped: it is old, or no quorum needs it and it is that of the block before
    the tip or was kept for a quorum. *)
Definition drop_list (tipPrevHash : option (list Z)) (nHeight : Z) (hash : list Z) (l : CDeterministicMNList) : bool :=
  let height := list_nHeight l in
  if height + LIST_DIFFS_CACHE_SIZE <? nHeight then true else
  if existsb (quorum_alive height nHeight) llmqs then false else
  bool_decide (tipPrevHash = Some hash) || existsb (quorum_height height) llmqs.

Definition CleanupCache (m : CDeterministicMNManager) (nHeight : Z) : res unit CDeterministicMNManager :=
  tipPrevHash ← match tipIndex m with
                | None => Ok None
                | Some tip =>
                    b ← deref t tip;
                    match pprev b with None => Ok None | Some q => c ← deref t q; Ok (Some (Chain.blockHash c)) end
                end;
  let m := with_lists m (filter (fun p => drop_list tipPrevHash nHeight p.1 p.2 = false) (mnListsCache m)) in
  Ok (with_diffs m (filter (fun p => (p.2.2 + LIST_DIFFS_CACHE_SIZE <? nHeight) = false) (mnListDiffsCache m))).

Definition DoMaintenance (m : CDeterministicMNManager) : res unit CDeterministicMNManager :=
  if to_cleanup m <=? did_cleanup m then Ok m else
  m' ← CleanupCache m (to_cleanup m); Ok (with_cleanup m' (to_cleanup m) (to_cleanup m)).

End lists.

(** ** Blocks *)

Section blocks.
Context {crypto : CryptoOps} {bls : BLSOps} (params : EvoParams) (llmqs : list LLMQParams) (t : heap).
Context (view_GetCoin : COutPoint -> option Coin) (GetAllQuorumMembers : Z -> ptr -> list CDeterministicMN).

Definition BuildNewListFromBlock (m : CDeterministicMNManager) (block : CBlock) (pindexPrev : ptr) :
    res block_error (CDeterministicMNList * CDeterministicMNManager) :=
  '(oldList, m) ← GetListForBlock llmqs t m pindexPrev;
  newList ← BuildNewList params llmqs t view_GetCoin GetAllQuorumMembers block pindexPrev oldList;
  Ok (newList, m).

(** The body of the [try]. *)
Definition process_block_try (m : CDeterministicMNManager) (block : CBlock) (index : CBlockIndex) (fJustCheck : bool) :
    res block_error CDeterministicMNManager :=
  match pprev index with
  | None => Abort
  | Some pindexPrev =>
      '(newList, m) ← BuildNewListFromBlock m block pindexPrev;
      if fJustCheck then Ok m else
      let newList := if list_nHeight newList =? -1 then SetHeight newList (Chain.nHeight index) else newList in
      let newList := SetBlockHash newList (header_GetHash (header block)) in
      '(oldList, m) ← GetListForBlock llmqs t m pindexPrev;
      diff ← throws (BuildDiff oldList newList);
      let m := with_db m (db_snapshots m) (<[blockHash newList := diff]> (db_diffs m)) in
      let m := if (Z.rem (Chain.nHeight index) DISK_SNAPSHOT_PERIOD =? 0) || (list_nHeight oldList =? -1)
               then emplace_list (with_db m (<[blockHash newList := newList]> (db_snapshots m)) (db_diffs m)) (blockHash newList) newList
               else m in
      Ok (emplace_diff m (Chain.blockHash index) diff (Chain.nHeight index))
  end.

(** The signals about the change are not modelled.  The differences and lists read before an exception stay
    in memory; they are not part of the result of a rejected block. *)
Definition ProcessBlock (m : CDeterministicMNManager) (block : CBlock) (pindex : ptr) (fJustCheck : bool) : res protx_error CDeterministicMNManager :=
  index ← call (deref t pindex);
  let nHeight := Chain.nHeight index in
  if negb (DIP0003Height params <=? nHeight) then Ok m else
  match process_block_try m block index fJustCheck with
  | Abort => Abort
  | Err (Rejected e) => Err e
  | Err (Thrown _) => DoS 100 failed_dmn_block
  | Ok m =>
      if fJustCheck then Ok m else
      if (nHeight =? DIP0003EnforcementHeight params) && negb (hash_IsNull (DIP0003EnforcementHash params)) &&
         negb (bool_decide (DIP0003EnforcementHash params = Chain.blockHash index))
      then DoS 100 bad_dip3_enf_block
      else Ok (if to_cleanup m <? nHeight then with_cleanup m nHeight (did_cleanup m) else m)
  end.

(** The lists are read for the signals before the entries are erased; the records on disk stay. *)
Definition UndoBlock (m : CDeterministicMNManager) (block : CBlock) (pindex : ptr) : res block_error CDeterministicMNManager :=
  index ← total (deref t pindex);
  let hash := header_GetHash (header block) in
  let changes := match db_diffs m !! hash with Some diff => HasChanges diff | None => false end in
  lists ← (if changes then
             match pprev index with
             | None => Abort
             | Some q =>
                 '(curList, m) ← GetListForBlock llmqs t m pindex;
                 '(prevList, m) ← GetListForBlock llmqs t m q;
                 Ok (Some (curList, prevList), m)
             end
           else Ok (None, m));
  let m := with_diffs (with_lists lists.2 (delete hash (mnListsCache lists.2))) (delete hash (mnListDiffsCache lists.2)) in
  match lists.1 with
  | None => Ok m
  | Some (curList, prevList) => _ ← throws (BuildDiff curList prevList); Ok m
  end.

End blocks.

(** ** Checks of quorum commitments *)

Section commitments.
Context {crypto : CryptoOps} {bls : BLSOps} (llmqs : list LLMQParams) (t : heap).
(** CLLMQUtils::IsQuorumRotationEnabled and GetAllQuorumMembers. *)
Context (IsQuorumRotationEnabled : Z -> ptr -> bool) (GetAllQuorumMembers : Z -> ptr -> list CDeterministicMN).

Definition count_true (v : list bool) : Z := zlen (filter (fun b => b = true) v).

Definition VerifySizes (c : CFinalCommitment) (p : LLMQParams) : bool :=
  (zlen (signers c) =? llmq_size p) && (zlen (validMembers c) =? llmq_size p).

Definition VerifyNull (c : CFinalCommitment) : res unit bool :=
  if negb (HasLLMQ llmqs (llmqType c)) then Ok false else
  if negb (commitment_IsNull c) then Ok false else
  p ← GetLLMQ llmqs (llmqType c); Ok (VerifySizes c p).

(** CFinalCommitment::Verify without the signatures; the loop that composes the log lines reads every bit. *)
Definition commitment_Verify (c : CFinalCommitment) (pQuorumBaseBlockIndex : ptr) : res unit bool :=
  if (qc_nVersion c =? 0) ||
     negb (qc_nVersion c =? (if IsQuorumRotationEnabled (llmqType c) pQuorumBaseBlockIndex then INDEXED_QUORUM_VERSION else COMMITMENT_VERSION))
  then Ok false else
  if negb (HasLLMQ llmqs (llmqType c)) then Ok false else
  p ← GetLLMQ llmqs (llmqType c);
  b ← deref t pQuorumBaseBlockIndex;
  if bool_decide (Chain.blockHash b <> quorumHash c) then Ok false else
  if negb (Z.rem (Chain.nHeight b) (dkgInterval p) =? quorumIndex c) then Ok false else
  if negb (VerifySizes c p) then Ok false else
  if count_true (validMembers c) <? llmq_minSize p then Ok false else
  if count_true (signers c) <? llmq_minSize p then Ok false else
  if negb (BLS_IsValid (quorumPublicKey c)) || hash_IsNull (quorumVvecHash c) || negb (BLSSig_IsValid (membersSig c)) ||
     negb (BLSSig_IsValid (quorumSig c)) then Ok false else
  let n := length (GetAllQuorumMembers (llmqType c) pQuorumBaseBlockIndex) in
  Ok (negb (existsb id (drop n (validMembers c)) || existsb id (drop n (signers c)))).

(** The line for the log reads a bit of the commitment for every member of the quorum, before anything was
    checked: a bit that is not there is read outside of the vector. *)
Definition log_members (c : CFinalCommitment) (size : Z) : res protx_error unit :=
  if size <=? zlen (validMembers c) then Ok tt else Abort.

Definition CheckLLMQCommitment (tx : CTransaction) (pindexPrev : ptr) : res protx_error unit :=
  qcTx ← or_DoS (GetTxPayload TRANSACTION_QUORUM_COMMITMENT unser_CommitmentPayload tx) 100 bad_qc_payload;
  let c := commitment qcTx in
  llmq_params ← GetLLMQ llmqs (llmqType c);
  _ ← log_members c (llmq_size llmq_params);
  if (qcTx_nVersion qcTx =? 0) || (1 <? qcTx_nVersion qcTx) then DoS 100 bad_qc_version else
  prev ← call (deref t pindexPrev);
  if negb (qcTx_nHeight qcTx =? u32 (Chain.nHeight prev + 1)) then DoS 100 bad_qc_height else
  match find_block t (quorumHash c) 0 with
  | None => DoS 100 bad_qc_quorum_hash
  | Some base =>
      b ← call (deref t base);
      anc ← call (GetAncestor t pindexPrev (Chain.nHeight b));
      if bool_decide (anc <> Some base) then DoS 100 bad_qc_quorum_hash else
      if negb (HasLLMQ llmqs (llmqType c)) then DoS 100 bad_qc_type else
      if commitment_IsNull c then
        ok ← call (VerifyNull c); if (ok : bool) then Ok tt else DoS 100 bad_qc_invalid_null
      else ok ← call (commitment_Verify c base); if (ok : bool) then Ok tt else DoS 100 bad_qc_invalid
  end.

End commitments.
