(* ===== verification/MasternodeManagerSpec.v ===== *)
(** * Properties of the masternode manager

    A block whose transactions were checked against the list before it makes a list that its difference
    leads to, so the lists read back from snapshots and differences are those the blocks made; no masternode
    stays whose collateral a visited transaction spends; and valid masternodes are paid in turn. *)

From stdpp Require Import base list numbers gmap sorting.
From S2P Require Import Prelude Script Crypto Standard Serialize Transaction Coin Coins Block Chain ChainSpec Pow PosKernel NetAddress Masternodes MasternodesSpec MasternodesDiff ProviderTx MasternodeManager.

Open Scope Z_scope.

Section evolution.
Context {crypto : CryptoOps} (old : CDeterministicMNList).

(** ** Lists on the way from the old one *)

(** A list that was made from [old] and that a difference leads to. *)
Record evolved (l : CDeterministicMNList) : Prop := {
  ev_wf : list_wf l;
  ev_below : ids_below l;
  ev_reg : same_registration old l;
  ev_take : takes_nothing old l
}.

Lemma evolved_self : list_wf old -> ids_below old -> evolved old.
Proof.
  intros Hwf Hb. split; [done..| |].
  { intros k m m' H1 H2. rewrite H1 in H2. by injection H2 as <-. } intros k k' h Hne _ _ Hc.
  destruct (Z.eq_dec (counts (mnMap old) k' h) 0) as [|Hn]; [done|]. destruct Hne. pose proof (counts_bound (mnMap old) k' h).
  apply (tracks_unique _ _ _ _ h (wf_tracks old Hwf)); lia.
Qed.

(** The members that do not matter. *)
Lemma evolved_same l l' :
  mnMap l' = mnMap l -> mnInternalIdMap l' = mnInternalIdMap l -> mnUniquePropertyMap l' = mnUniquePropertyMap l ->
  nTotalRegisteredCount l' = nTotalRegisteredCount l -> evolved l -> evolved l'.
Proof.
  intros Hm Hi Hu Hn [H1 [H2 H2'] H4 H5]. split; [by apply (wf_maps l)|split; [by rewrite Hn|rewrite Hm, Hn; done]| |].
  - intros k m m'. rewrite Hm. apply H4.
  - intros k k' h. rewrite Hm. apply H5.
Qed.

(** An update that takes nothing from a masternode of the old list. *)
Lemma evolved_update l l' k m s :
  evolved l -> list_wf l' -> mnMap l !! k = Some m -> mnMap l' = <[k := with_state m s]> (mnMap l) ->
  nTotalRegisteredCount l' = nTotalRegisteredCount l ->
  (forall k' h, k' <> k -> is_Some (mnMap l !! k') -> 0 < mn_count (with_state m s) h -> 0 < mn_count m h \/ counts (mnMap old) k' h = 0) -> evolved l'.
Proof.
  intros [Hwf [Hb Hb'] Hreg Htake] Hwf' Hm Hl' Hn Hs. split; [done|split; [by rewrite Hn|]| |].
  - intros k1 m1. rewrite Hl', Hn, lookup_insert_Some. intros [[<- <-]|[_ H1]]; [by apply (Hb' k m Hm)|by apply (Hb' k1)].
  - intros k1 m0 m1 H0. rewrite Hl', lookup_insert_Some. intros [[<- <-]|[_ H1]]; [by apply (Hreg k m0 m H0 Hm)|by apply (Hreg k1)].
  - intros k1 k2 h Hne Ho. rewrite Hl'. intros H2.
    assert (is_Some (mnMap l !! k2)) as H2' by (destruct (decide (k2 = k)) as [->|]; [by eexists|by rewrite lookup_insert_ne in H2]).
    unfold counts at 1. destruct (decide (k1 = k)) as [->|Hk1].
    + rewrite lookup_insert_eq. intros Hpos. destruct (Hs k2 h (not_eq_sym Hne) H2' Hpos) as [Hold|]; [|done].
      apply (Htake k k2 h Hne Ho H2'). unfold counts. by rewrite Hm.
    + rewrite lookup_insert_ne by done. intros Hpos. by apply (Htake k1 k2 h).
Qed.

(** An update of heights only. *)
Lemma evolved_quiet l k m s :
  evolved l -> mnMap l !! k = Some m -> same_properties (pdmnState m) s -> exists l', UpdateMN l k s = Ok l' /\ evolved l' /\
    l' = with_maps l (<[k := with_state m s]> (mnMap l)) (mnInternalIdMap l) (mnUniquePropertyMap l).
Proof.
  intros Hev Hm Hs. destruct (UpdateMN_quiet l k m s (ev_wf l Hev) Hm Hs) as (l' & Hu & Hwf' & Hl'). exists l'. split_and!; [done| |done].
  eapply (evolved_update l l' k m s); [done..|by rewrite Hl'|by rewrite Hl'|]. intros k' h _ _ Hpos. left. destruct Hs as (Ha & Ho & Hp).
  unfold mn_count in *. cbn [with_state collateralOutpoint pdmnState] in Hpos. by rewrite Ha, Ho, Hp.
Qed.

Lemma evolved_remove l k m :
  evolved l -> mnMap l !! k = Some m -> exists l', RemoveMN l k = Ok l' /\ evolved l' /\ mnMap l' = delete k (mnMap l) /\
    nTotalRegisteredCount l' = nTotalRegisteredCount l /\ blockHash l' = blockHash l /\ list_nHeight l' = list_nHeight l.
Proof.
  intros [Hwf [Hb Hb'] Hreg Htake] Hm. destruct (RemoveMN_spec l k m Hwf Hm) as (l' & Hr & Hwf' & Hl'). exists l'.
  assert (mnMap l' = delete k (mnMap l)) as Hd by by rewrite Hl'. assert (nTotalRegisteredCount l' = nTotalRegisteredCount l) as Hn by by rewrite Hl'.
  split_and!; [done| |done|done|by rewrite Hl'|by rewrite Hl']. split; [done|split; [by rewrite Hn|]| |].
  - intros k1 m1. rewrite Hd, Hn, lookup_delete_Some. intros [_ H1]. by apply (Hb' k1).
  - intros k1 m0 m1 H0. rewrite Hd, lookup_delete_Some. intros [_ H1]. by apply (Hreg k1).
  - intros k1 k2 h Hne Ho. rewrite Hd. intros H2.
    assert (is_Some (mnMap l !! k2)) as H2' by (destruct H2 as [x [_ Hx]%lookup_delete_Some]; by eexists).
    rewrite counts_delete. unfold change. case_decide as Hk; [subst k1; lia|]. intros Hpos. by apply (Htake k1 k2 h).
Qed.

Lemma evolved_add l dmn l' :
  evolved l -> 0 <= internalId dmn -> nTotalRegisteredCount l = internalId dmn -> nTotalRegisteredCount l + 1 < 2 ^ 32 -> mnMap old !! proTxHash dmn = None ->
  (forall k' h, k' <> proTxHash dmn -> is_Some (mnMap l !! k') -> 0 < mn_count dmn h -> counts (mnMap old) k' h = 0) ->
  AddMN l dmn true = Ok l' ->
  evolved l' /\ mnMap l' = <[proTxHash dmn := dmn]> (mnMap l) /\ nTotalRegisteredCount l' = nTotalRegisteredCount l + 1 /\
  blockHash l' = blockHash l /\ list_nHeight l' = list_nHeight l.
Proof.
  intros [Hwf [Hb Hb'] Hreg Htake] Hpos Hid Hbound Hold Hs Hadd.
  destruct (AddMN_wf l dmn true l' Hwf ltac:(lia) Hadd) as (Hwf' & Hnew & Hm').
  assert (mn_ok dmn) as Hok by (apply (wf_key l' Hwf' (proTxHash dmn)); rewrite Hm'; apply lookup_insert_eq).
  destruct (AddMN_header l dmn true l' Hok Hadd) as [[Hbh Hh] Hn]. unfold u32, u64 in Hn. rewrite (Z.mod_small (internalId dmn + 1)), Z.mod_small in Hn by lia.
  split_and!; [|done|lia|done|done]. split; [done|split; [lia|]| |].
  - intros k1 m1. rewrite Hm', lookup_insert_Some. intros [[<- <-]|[_ H1]]; [lia|]. specialize (Hb' _ _ H1). lia.
  - intros k1 m0 m1 H0. rewrite Hm', lookup_insert_Some. intros [[<- <-]|[_ H1]]; [congruence|by apply (Hreg k1)].
  - intros k1 k2 h Hne Ho. rewrite Hm'. intros H2.
    assert (k2 <> proTxHash dmn) as Hk2 by (intros ->; destruct Ho; congruence). rewrite lookup_insert_ne in H2 by done.
    unfold counts at 1. destruct (decide (k1 = proTxHash dmn)) as [->|Hk1].
    + rewrite lookup_insert_eq. intros Hp. by apply (Hs k2 h).
    + rewrite lookup_insert_ne by done. intros Hp. by apply (Htake k1 k2 h).
Qed.

End evolution.

(** ** The steps of a block *)

Section steps.
Context {crypto : CryptoOps} {bls : BLSOps} (params : EvoParams) (llmqs : list LLMQParams) (t : heap).
Context (view_GetCoin : COutPoint -> option Coin) (GetAllQuorumMembers : Z -> ptr -> list CDeterministicMN).
Context (old : CDeterministicMNList).

Abbreviation evolved := (evolved old).

(** What the first loop makes of a masternode. *)
Definition confirmed (prevHash : list Z) (prevHeight : Z) (dmn : CDeterministicMN) : CDeterministicMN :=
  let s := pdmnState dmn in
  if hash_IsNull (confirmedHash s) && (nMasternodeMinimumConfirmations params <=? prevHeight - nRegisteredHeight s)
  then with_state dmn (UpdateConfirmedHash s (proTxHash dmn) prevHash) else dmn.

Lemma confirm_all_spec prevHash prevHeight dmns l :
  evolved l -> NoDup (map proTxHash dmns) -> (forall dmn, dmn ∈ dmns -> mnMap l !! proTxHash dmn = Some dmn) ->
  exists l', confirm_all params prevHash prevHeight dmns l = Ok l' /\ evolved l' /\
    l' = with_maps l (mnMap l') (mnInternalIdMap l) (mnUniquePropertyMap l) /\
    forall k, mnMap l' !! k = if decide (k ∈ map proTxHash dmns) then confirmed prevHash prevHeight <$> mnMap l !! k else mnMap l !! k.
Proof.
  revert l. induction dmns as [|dmn dmns IH]; intros l Hev Hnd Hin; cbn [confirm_all map].
  { exists l. split_and!; [done..|by destruct l|]. intros k. by rewrite decide_False by apply not_elem_of_nil. }
  cbn [map] in Hnd. apply NoDup_cons in Hnd as [Hni Hnd].
  assert (mnMap l !! proTxHash dmn = Some dmn) as Hd by (apply Hin; left).
  assert (forall l1, evolved l1 -> l1 = with_maps l (<[proTxHash dmn := confirmed prevHash prevHeight dmn]> (mnMap l)) (mnInternalIdMap l) (mnUniquePropertyMap l) ->
    exists l', confirm_all params prevHash prevHeight dmns l1 = Ok l' /\ evolved l' /\ l' = with_maps l (mnMap l') (mnInternalIdMap l) (mnUniquePropertyMap l) /\
    forall k, mnMap l' !! k = if decide (k ∈ proTxHash dmn :: map proTxHash dmns) then confirmed prevHash prevHeight <$> mnMap l !! k else mnMap l !! k) as Hgo.
  { intros l1 Hev1 Hl1. assert (mnMap l1 = <[proTxHash dmn := confirmed prevHash prevHeight dmn]> (mnMap l)) as Hm1 by by rewrite Hl1.
    destruct (IH l1 Hev1 Hnd) as (l' & Hc & Hev' & Hl' & Hm).
    { intros x Hx. rewrite Hm1, lookup_insert_ne; [apply Hin; by right|]. intros He. apply Hni. rewrite He. by apply list_elem_of_fmap_2. }
    exists l'. split_and!; [done..|rewrite Hl', Hl1; by destruct l|]. intros k. rewrite Hm, Hm1. destruct (decide (k = proTxHash dmn)) as [->|Hne].
    - rewrite decide_False, decide_True by (done || by left). by rewrite lookup_insert_eq, Hd.
    - rewrite lookup_insert_ne by done. destruct (decide (k ∈ map proTxHash dmns)) as [Hk|Hk]; [by rewrite decide_True by by right|].
      rewrite decide_False; [done|]. by intros [->|?]%elem_of_cons. }
  assert (confirmed prevHash prevHeight dmn = dmn -> evolved l /\
    l = with_maps l (<[proTxHash dmn := confirmed prevHash prevHeight dmn]> (mnMap l)) (mnInternalIdMap l) (mnUniquePropertyMap l)) as Hsame.
  { intros ->. split; [done|]. rewrite insert_id by done. by destruct l. }
  unfold confirmed in Hsame, Hgo. destruct (hash_IsNull (confirmedHash (pdmnState dmn))); cbn [negb andb] in *; [|by apply Hgo; apply Hsame].
  destruct (nMasternodeMinimumConfirmations params <=? prevHeight - nRegisteredHeight (pdmnState dmn)); [|by apply Hgo; apply Hsame].
  destruct (evolved_quiet old l (proTxHash dmn) dmn (UpdateConfirmedHash (pdmnState dmn) (proTxHash dmn) prevHash) Hev Hd) as (l1 & -> & Hev1 & Hl1); [done|].
  cbn [mbind res_bind]. by apply Hgo.
Qed.

Lemma DecreasePoSePenalties_evolved l : evolved l -> exists l', DecreasePoSePenalties l = Ok l' /\ evolved l' /\
  l' = with_maps l (decreased <$> mnMap l) (mnInternalIdMap l) (mnUniquePropertyMap l).
Proof.
  intros Hev. destruct (DecreasePoSePenalties_effect l (ev_wf _ _ Hev)) as (l' & Hd & Hwf' & Hl'). exists l'. split_and!; [done| |done].
  destruct Hev as [Hwf [Hb Hb'] Hreg Htake]. rewrite Hl'.
  assert (forall m, internalId (decreased m) = internalId m /\ collateralOutpoint (decreased m) = collateralOutpoint m /\
    nOperatorReward (decreased m) = nOperatorReward m /\ forall h, mn_count (decreased m) h = mn_count m h) as Hdec.
  { intros m. unfold decreased. by case_match. }
  assert (forall k h, counts (decreased <$> mnMap l) k h = counts (mnMap l) k h) as Hcnt.
  { intros k h. unfold counts. rewrite lookup_fmap. destruct (mnMap l !! k) as [m|]; [cbn; apply Hdec|done]. }
  split; cbn [with_maps mnMap nTotalRegisteredCount]; [by rewrite <- Hl'|split; [done|]| |].
  - intros k m. cbn [with_maps mnMap nTotalRegisteredCount]. rewrite lookup_fmap. intros (m0 & Hm0 & ->)%fmap_Some. destruct (Hdec m0) as [-> _]. by apply (Hb' k).
  - intros k m m'. cbn [with_maps mnMap]. intros Hm. rewrite lookup_fmap. intros (m0 & Hm0 & ->)%fmap_Some. destruct (Hdec m0) as (-> & -> & -> & _). by apply (Hreg k).
  - intros k k' h Hne Ho. cbn [with_maps mnMap]. rewrite Hcnt, lookup_fmap. intros [x (m0 & Hm0 & _)%fmap_Some]. apply (Htake k k' h Hne Ho). by eexists.
Qed.

(** ** What the checks against the old list say *)

Lemma HasUniqueProperty_none {T : Type} `{UniqueProperty T} l (v : T) k h :
  list_wf l -> HasUniqueProperty l v = false -> 0 < pcount v h -> counts (mnMap l) k h = 0.
Proof.
  intros Hwf Hf [_ <-]%pcount_pos. unfold HasUniqueProperty in Hf. apply bool_decide_eq_false in Hf. apply eq_None_not_Some in Hf.
  pose proof (wf_tracks l Hwf (SerializeHash v)) as Ht. rewrite Hf in Ht. apply Ht.
Qed.

Lemma GetUniquePropertyMN_owner {T : Type} `{UniqueProperty T} l (v : T) dmn k h :
  list_wf l -> GetUniquePropertyMN l v = Some dmn -> 0 < pcount v h -> k <> proTxHash dmn -> counts (mnMap l) k h = 0.
Proof.
  intros Hwf Hg [_ <-]%pcount_pos Hne. unfold GetUniquePropertyMN, GetMN in Hg. pose proof (wf_tracks l Hwf (SerializeHash v)) as Ht.
  destruct (mnUniquePropertyMap l !! SerializeHash v) as [[o n]|]; [|done]. cbn in Hg. destruct (wf_key l Hwf _ _ Hg) as [<- _]. by apply Ht.
Qed.

Context (env : pos_env) (signed_message : CProRegTx -> list Z) (height : Z).

(** A transaction passed the check for its type, against the old list. *)
Definition tx_checked (tx : CTransaction) : Prop :=
  nVersion tx = 3 ->
  (nType tx = TRANSACTION_PROVIDER_REGISTER -> exists sigs, CheckProRegTx params env view_GetCoin signed_message (Some (old, height)) tx sigs = Ok tt) /\
  (nType tx = TRANSACTION_PROVIDER_UPDATE_SERVICE -> exists sigs, CheckProUpServTx params (Some (old, height)) tx sigs = Ok tt) /\
  (nType tx = TRANSACTION_PROVIDER_UPDATE_REGISTRAR -> exists sigs, CheckProUpRegTx params env view_GetCoin (Some (old, height)) tx sigs = Ok tt) /\
  (nType tx = TRANSACTION_PROVIDER_UPDATE_REVOKE -> exists sigs, CheckProUpRevTx (Some (old, height)) tx sigs = Ok tt).

Lemma or_DoS_Ok {A : Type} (r : res unit A) level reason a : or_DoS r level reason = Ok a -> r = Ok a.
Proof. unfold or_DoS, DoS. destruct r; [|done..]. by intros [= ->]. Qed.

Lemma not_rejected {E : Type} (P : Prop) `{Decision P} (e : E) : (if bool_decide P then Err e else Ok tt) = Ok tt -> ~ P.
Proof. by case_bool_decide. Qed.

Lemma check_collateral_outpoint tx ptx dest o key : check_collateral view_GetCoin tx ptx = Ok (dest, o, key) -> o = collateral_of tx ptx.
Proof.
  unfold check_collateral, collateral_of, DoS. destruct (hash_IsNull _); cbn [negb].
  - case_match; [done|]. case_match; [|done]. case_match; [done|]. intros (d & _ & Hd)%bind_Ok. destruct d; [|done]. by injection Hd as <- <- <-.
  - case_match; [|done]. case_match; [done|]. intros (d & _ & Hd)%bind_Ok. destruct d as [[]|]; try done. by injection Hd as <- <- <-.
Qed.

Lemma CheckProRegTx_unique tx sigs :
  CheckProRegTx params env view_GetCoin signed_message (Some (old, height)) tx sigs = Ok tt ->
  exists ptx, GetTxPayload TRANSACTION_PROVIDER_REGISTER unser_ProRegTx tx = Ok ptx /\
    (HasUniqueProperty old (reg_addr ptx) = false \/
     exists dmn, GetUniquePropertyMN old (reg_addr ptx) = Some dmn /\ collateralOutpoint dmn = collateral_of tx ptx) /\
    HasUniqueProperty old (reg_keyIDOwner ptx) = false /\ HasUniqueProperty old (reg_pubKeyOperator ptx) = false.
Proof.
  unfold CheckProRegTx, DoS. case_match; [done|]. intros (ptx & Hp%or_DoS_Ok & H1)%bind_Ok. exists ptx. split; [done|].
  apply bind_Ok in H1 as ([] & _ & H1). apply bind_Ok in H1 as ([] & _ & H1). apply bind_Ok in H1 as ([[dest o] key] & Hc%check_collateral_outpoint & H1).
  case_match; [done|]. apply bind_Ok in H1 as ([] & H1 & _). apply bind_Ok in H1 as ([] & Ha & H1). subst o. split.
  - destruct (HasUniqueProperty old (reg_addr ptx)); [right|by left]. destruct (GetUniquePropertyMN old (reg_addr ptx)) as [dmn|]; [|done].
    exists dmn. split; [done|]. apply not_rejected in Ha. by apply dec_stable in Ha.
  - destruct (HasUniqueProperty old (reg_keyIDOwner ptx)), (HasUniqueProperty old (reg_pubKeyOperator ptx)); done.
Qed.

Lemma CheckProUpServTx_unique tx sigs :
  CheckProUpServTx params (Some (old, height)) tx sigs = Ok tt ->
  exists ptx, GetTxPayload TRANSACTION_PROVIDER_UPDATE_SERVICE unser_ProUpServTx tx = Ok ptx /\
    (HasUniqueProperty old (us_addr ptx) = false \/ exists dmn, GetUniquePropertyMN old (us_addr ptx) = Some dmn /\ proTxHash dmn = us_proTxHash ptx).
Proof.
  unfold CheckProUpServTx, DoS. case_match; [done|]. intros (ptx & Hp%or_DoS_Ok & H1)%bind_Ok. exists ptx. split; [done|].
  apply bind_Ok in H1 as ([] & _ & H1). apply bind_Ok in H1 as ([] & _ & H1). case_match; [|done]. apply bind_Ok in H1 as ([] & Ha & _).
  destruct (HasUniqueProperty old (us_addr ptx)); [right|by left]. destruct (GetUniquePropertyMN old (us_addr ptx)) as [dmn|]; [|done].
  exists dmn. split; [done|]. apply not_rejected in Ha. by apply dec_stable in Ha.
Qed.

Lemma CheckProUpRegTx_unique tx sigs :
  CheckProUpRegTx params env view_GetCoin (Some (old, height)) tx sigs = Ok tt ->
  exists ptx, GetTxPayload TRANSACTION_PROVIDER_UPDATE_REGISTRAR unser_ProUpRegTx tx = Ok ptx /\
    (HasUniqueProperty old (ur_pubKeyOperator ptx) = false \/
     exists dmn, GetUniquePropertyMN old (ur_pubKeyOperator ptx) = Some dmn /\ proTxHash dmn = ur_proTxHash ptx).
Proof.
  unfold CheckProUpRegTx, DoS. case_match; [done|]. intros (ptx & Hp%or_DoS_Ok & H1)%bind_Ok. exists ptx. split; [done|].
  apply bind_Ok in H1 as ([] & _ & H1). apply bind_Ok in H1 as (d & _ & H1). destruct d as [d|]; [|done]. case_match; [|done].
  case_match; [done|]. case_match; [|done]. case_match; [done|]. apply bind_Ok in H1 as (d2 & _ & H1). destruct d2 as [d2|]; [|done].
  case_match; [done|]. apply bind_Ok in H1 as ([] & Ha & _).
  destruct (HasUniqueProperty old (ur_pubKeyOperator ptx)); [right|by left]. destruct (GetUniquePropertyMN old (ur_pubKeyOperator ptx)) as [dmn|]; [|done].
  exists dmn. split; [done|]. apply not_rejected in Ha. by apply dec_stable in Ha.
Qed.

(** ** The transactions of a block *)

Hypothesis (Hold : list_wf old).

(** What no step changes. *)
Definition same_head (l l' : CDeterministicMNList) : Prop := blockHash l' = blockHash l /\ list_nHeight l' = list_nHeight l.

Lemma or_reject_Ok {A : Type} (r : res unit A) level reason a : or_reject r level reason = Ok a -> r = Ok a.
Proof. unfold or_reject, reject. destruct r; [|done..]. by intros [= ->]. Qed.
Lemma throws_Ok {A : Type} (r : res mn_error A) a : throws r = Ok a -> r = Ok a.
Proof. destruct r; [|done..]. by intros [= ->]. Qed.

(** The hash of the collateral of a registration is not that of a property of another kind. *)
Definition kinds_apart (tx : CTransaction) : Prop :=
  forall ptx k m, GetTxPayload TRANSACTION_PROVIDER_REGISTER unser_ProRegTx tx = Ok ptx -> mnMap old !! k = Some m ->
  let h := SerializeHash (collateral_of tx ptx) in
  pcount (addr (pdmnState m)) h = 0 /\ pcount (keyIDOwner (pdmnState m)) h = 0 /\ pcount (pubKeyOperator (pdmnState m)) h = 0.

(** The removal of the masternode whose collateral is used again. *)
Definition replaced (l : CDeterministicMNList) (c : COutPoint) : res block_error CDeterministicMNList :=
  match GetMNByCollateral l c with Some dmn => throws (RemoveMN l (proTxHash dmn)) | None => Ok l end.

Lemma replaced_evolved l c l1 : evolved l -> replaced l c = Ok l1 ->
  evolved l1 /\ same_head l l1 /\ nTotalRegisteredCount l1 = nTotalRegisteredCount l /\
  (forall k m, mnMap l1 !! k = Some m -> mnMap l !! k = Some m /\ (c <> outpoint_SetNull -> counts (mnMap l) k (SerializeHash c) = 0)).
Proof.
  intros Hev. unfold replaced, GetMNByCollateral. destruct (GetUniquePropertyMN l c) as [dmn|] eqn:Eg.
  - intros Hr%throws_Ok. assert (mnMap l !! proTxHash dmn = Some dmn) as Hd.
    { unfold GetUniquePropertyMN, GetMN in Eg. destruct (mnUniquePropertyMap l !! _) as [[o n]|]; [|done]. cbn in Eg.
      by destruct (wf_key l (ev_wf _ _ Hev) _ _ Eg) as [-> _]. }
    destruct (evolved_remove old l (proTxHash dmn) dmn Hev Hd) as (l' & Hr' & Hev' & Hm & Hn & Hb & Hh). assert (l' = l1) as -> by congruence.
    split_and!; [done..|]. intros k m. rewrite Hm, lookup_delete_Some. intros [Hne Hk]. split; [done|]. intros Hc.
    apply (GetUniquePropertyMN_owner l c dmn k _ (ev_wf _ _ Hev) Eg); [rewrite pcount_self; [lia|exact Hc]|done].
  - intros [= ->]. split_and!; [done..|]. intros k m Hk. split; [done|]. intros Hc. unfold GetUniquePropertyMN, GetMN in Eg.
    pose proof (wf_tracks l1 (ev_wf _ _ Hev) (SerializeHash c)) as Ht. destruct (mnUniquePropertyMap l1 !! SerializeHash c) as [[o n]|]; [|apply Ht].
    cbn in Eg. destruct Ht as (Hcnt & Hpos & _). unfold counts in Hcnt. rewrite Eg in Hcnt. lia.
Qed.

(** A new masternode takes nothing from one of the old list that stays. *)
Lemma register_takes_nothing l l1 tx ptx dmn k' h :
  evolved l -> kinds_apart tx -> GetTxPayload TRANSACTION_PROVIDER_REGISTER unser_ProRegTx tx = Ok ptx ->
  (HasUniqueProperty old (reg_addr ptx) = false \/
     exists dmn, GetUniquePropertyMN old (reg_addr ptx) = Some dmn /\ collateralOutpoint dmn = collateral_of tx ptx) ->
  HasUniqueProperty old (reg_keyIDOwner ptx) = false -> HasUniqueProperty old (reg_pubKeyOperator ptx) = false ->
  replaced l (collateral_of tx ptx) = Ok l1 -> is_Some (mnMap l1 !! k') ->
  collateralOutpoint dmn = collateral_of tx ptx -> addr (pdmnState dmn) = reg_addr ptx -> keyIDOwner (pdmnState dmn) = reg_keyIDOwner ptx ->
  pubKeyOperator (pdmnState dmn) = reg_pubKeyOperator ptx -> 0 < mn_count dmn h -> counts (mnMap old) k' h = 0.
Proof.
  intros Hev Happ Hp Ha Ho Hk Hrep [m1 H1] Ec Ea Eo Ek Hpos. destruct (replaced_evolved l _ l1 Hev Hrep) as (_ & _ & _ & Hl1).
  destruct (Hl1 _ _ H1) as [Hl Hfree]. unfold counts. destruct (mnMap old !! k') as [m0|] eqn:E0; [|done].
  destruct (ev_reg old l Hev k' m0 m1 E0 Hl) as (_ & Hcol & _).
  assert (mn_count m0 h = counts (mnMap old) k' h) as Hcnt by (unfold counts; by rewrite E0).
  assert (forall h', h' = SerializeHash (collateral_of tx ptx) -> collateral_of tx ptx <> outpoint_SetNull -> pcount (collateralOutpoint m0) h' = 0) as Hcoll.
  { intros h' -> Hc. pose proof (Hfree Hc) as Hz. unfold counts in Hz. rewrite Hl in Hz.
    rewrite Hcol. destruct (property_counts m1 (SerializeHash (collateral_of tx ptx))) as (Hle & _).
    pose proof (pcount_bound (collateralOutpoint m1) (SerializeHash (collateral_of tx ptx))). lia. }
  unfold mn_count in Hpos. rewrite Ec, Ea, Eo, Ek in Hpos.
  pose proof (pcount_bound (collateral_of tx ptx) h). pose proof (pcount_bound (reg_addr ptx) h).
  pose proof (pcount_bound (reg_keyIDOwner ptx) h). pose proof (pcount_bound (reg_pubKeyOperator ptx) h).
  destruct (Z.eq_dec (pcount (reg_keyIDOwner ptx) h) 0) as [Zo|Zo]; [|rewrite Hcnt; apply (HasUniqueProperty_none old (reg_keyIDOwner ptx)); [done..|lia]].
  destruct (Z.eq_dec (pcount (reg_pubKeyOperator ptx) h) 0) as [Zk|Zk]; [|rewrite Hcnt; apply (HasUniqueProperty_none old (reg_pubKeyOperator ptx)); [done..|lia]].
  destruct (Z.eq_dec (pcount (reg_addr ptx) h) 0) as [Za|Za].
  - assert (0 < pcount (collateral_of tx ptx) h) as [Hc Hh]%pcount_pos by lia. destruct (Happ ptx k' m0 Hp E0) as (B1 & B2 & B3).
    specialize (Hcoll h (eq_sym Hh) Hc). rewrite Hh in B1, B2, B3. unfold mn_count. lia.
  - destruct Ha as [Ha|(dmn0 & Hg & Hd0)]; [rewrite Hcnt; apply (HasUniqueProperty_none old (reg_addr ptx)); [done..|lia]|].
    rewrite Hcnt. apply (GetUniquePropertyMN_owner old (reg_addr ptx) dmn0); [done..|lia|]. intros Heq.
    assert (m0 = dmn0) as ->.
    { unfold GetUniquePropertyMN, GetMN in Hg. destruct (mnUniquePropertyMap old !! _) as [[o n]|]; [|done]. cbn in Hg.
      destruct (wf_key old Hold _ _ Hg) as [Hko _]. rewrite <- Hko, <- Heq, E0 in Hg. by injection Hg. }
    destruct (wf_key old Hold _ _ E0) as [_ Hok]. pose proof (ok_collateral _ Hok) as Hn0. rewrite Hd0 in Hn0.
    specialize (Hcoll _ eq_refl Hn0). rewrite Hd0 in Hcoll. rewrite pcount_self in Hcoll by exact Hn0. lia.
Qed.

(** A step keeps the list evolved, with at most one registration more. *)
Definition step_ok (l l' : CDeterministicMNList) : Prop :=
  evolved l' /\ same_head l l' /\ nTotalRegisteredCount l <= nTotalRegisteredCount l' <= nTotalRegisteredCount l + 1.

Lemma step_refl l : evolved l -> step_ok l l.
Proof. intros Hev. split_and!; [done..|lia|lia]. Qed.

(** A new transaction is none of the masternodes of the old list. *)
Definition registration_fresh (tx : CTransaction) : Prop := mnMap old !! ComputeHash tx = None /\ kinds_apart tx.

Lemma process_register_step nHeight tx l l' :
  evolved l -> nTotalRegisteredCount l + 1 < 2 ^ 32 -> registration_fresh tx -> nVersion tx = 3 -> nType tx = TRANSACTION_PROVIDER_REGISTER -> tx_checked tx ->
  process_register view_GetCoin nHeight tx l = Ok l' -> step_ok l l'.
Proof.
  intros Hev Hb [Hfr Happ] Hv Ht Hck. destruct (proj1 (Hck Hv) Ht) as [sigs (ptx & Hp & Ha & Ho & Hk)%CheckProRegTx_unique].
  unfold process_register. rewrite Hp. cbn [mbind res_bind or_reject]. case_match; [done|]. fold (replaced l (collateral_of tx ptx)).
  intros (l1 & Hr & H1)%bind_Ok. destruct (replaced_evolved l _ l1 Hev Hr) as (Hev1 & [Hb1 Hh1] & Hn1 & Hl1).
  case_match; [done|]. case_match; [done|]. set (s := if bool_decide _ then _ else _) in H1.
  assert (addr s = reg_addr ptx /\ keyIDOwner s = reg_keyIDOwner ptx /\ pubKeyOperator s = reg_pubKeyOperator ptx) as (Ea & Eo & Ek).
  { unfold s, BanIfNotBanned. by repeat case_match. }
  set (dmn := MkMN _ _ _ _ s) in H1. apply throws_Ok in H1. pose proof (ev_below _ _ Hev) as [Hpos _].
  destruct (evolved_add old l1 dmn l' Hev1) as (Hev' & _ & Hn' & Hb' & Hh'); [cbn; lia|done|lia|done| |done|].
  - intros k' h _ Hk'. by apply (register_takes_nothing l l1 tx ptx dmn).
  - split_and!; [done|split; congruence|lia|lia].
Qed.

(** An update that moves no property but those that the check allows. *)
Lemma update_step l k s l' :
  evolved l -> UpdateMN l k s = Ok l' ->
  (forall m, mnMap l !! k = Some m -> keyIDOwner s = keyIDOwner (pdmnState m) /\
     forall k' h, k' <> k -> 0 < pcount (addr s) h + pcount (pubKeyOperator s) h ->
       0 < pcount (addr (pdmnState m)) h + pcount (pubKeyOperator (pdmnState m)) h \/ counts (mnMap old) k' h = 0) ->
  step_ok l l'.
Proof.
  intros Hev Hu Hs. assert (exists m, mnMap l !! k = Some m) as [m Hm] by (unfold UpdateMN in Hu; destruct (mnMap l !! k); [by eexists|done]).
  destruct (Hs m Hm) as [Ho Hnew]. destruct (wf_key l (ev_wf _ _ Hev) _ _ Hm) as [_ Hok].
  destruct (UpdateMN_spec l k s l' (ev_wf _ _ Hev) Hu) as (m' & Hm' & Hwf' & Hl'); [rewrite Ho; apply Hok|]. assert (m' = m) as -> by congruence.
  split_and!; [|rewrite Hl'; done|rewrite Hl'; cbn; lia|rewrite Hl'; cbn; lia].
  eapply (evolved_update old l l' k m s); [done..|by rewrite Hl'|by rewrite Hl'|]. intros k' h Hne _ Hpos.
  unfold mn_count in *. cbn [with_state collateralOutpoint pdmnState] in Hpos. rewrite Ho in Hpos.
  pose proof (pcount_bound (collateralOutpoint m) h). pose proof (pcount_bound (keyIDOwner (pdmnState m)) h).
  pose proof (pcount_bound (addr (pdmnState m)) h). pose proof (pcount_bound (pubKeyOperator (pdmnState m)) h).
  destruct (Z.eq_dec (pcount (addr s) h + pcount (pubKeyOperator s) h) 0) as [Hz|Hz]; [left; lia|].
  pose proof (pcount_bound (addr s) h). pose proof (pcount_bound (pubKeyOperator s) h).
  destruct (Hnew k' h Hne ltac:(lia)) as [|]; [left; lia|by right].
Qed.

Lemma process_update_service_step nHeight tx l l' :
  evolved l -> nVersion tx = 3 -> nType tx = TRANSACTION_PROVIDER_UPDATE_SERVICE -> tx_checked tx ->
  process_update_service nHeight tx l = Ok l' -> step_ok l l'.
Proof.
  intros Hev Hv Ht Hck. destruct (Hck Hv) as (_ & Hc & _). destruct (Hc Ht) as [sigs (ptx & Hp & Ha)%CheckProUpServTx_unique].
  unfold process_update_service. rewrite Hp. cbn [mbind res_bind or_reject]. intros ([] & _ & H1)%bind_Ok. unfold GetMN in H1.
  destruct (mnMap l !! us_proTxHash ptx) as [m|] eqn:Em; [|done]. apply throws_Ok in H1. eapply update_step; [done|exact H1|].
  intros m' Hm'. assert (m' = m) as -> by congruence. clear H1. match goal with |- keyIDOwner ?x = _ /\ _ => set (s := x) end.
  assert (addr s = us_addr ptx /\ keyIDOwner s = keyIDOwner (pdmnState m) /\ pubKeyOperator s = pubKeyOperator (pdmnState m)) as (-> & -> & ->).
  { unfold s. by case_match. }
  split; [done|]. intros k' h Hne Hpos. pose proof (pcount_bound (addr (pdmnState m)) h). pose proof (pcount_bound (pubKeyOperator (pdmnState m)) h).
  destruct (Z.eq_dec (pcount (us_addr ptx) h) 0) as [Hz|Hz]; [left; lia|right]. pose proof (pcount_bound (us_addr ptx) h).
  destruct Ha as [Ha|(d & Hg & Hd)]; [apply (HasUniqueProperty_none old (us_addr ptx)); [done..|lia]|].
  apply (GetUniquePropertyMN_owner old (us_addr ptx) d); [done..|lia|congruence].
Qed.

Lemma process_update_registrar_step nHeight tx l l' :
  evolved l -> nVersion tx = 3 -> nType tx = TRANSACTION_PROVIDER_UPDATE_REGISTRAR -> tx_checked tx ->
  process_update_registrar nHeight tx l = Ok l' -> step_ok l l'.
Proof.
  intros Hev Hv Ht Hck. destruct (Hck Hv) as (_ & _ & Hc & _). destruct (Hc Ht) as [sigs (ptx & Hp & Ha)%CheckProUpRegTx_unique].
  unfold process_update_registrar. rewrite Hp. cbn [mbind res_bind or_reject]. unfold GetMN.
  destruct (mnMap l !! ur_proTxHash ptx) as [m|] eqn:Em; [|done]. intros H1%throws_Ok. eapply update_step; [done|exact H1|].
  intros m' Hm'. assert (m' = m) as -> by congruence. clear H1. set (s := with_registrar _ _ _ _).
  assert ((addr s = addr (pdmnState m) \/ addr s = nullValue) /\ keyIDOwner s = keyIDOwner (pdmnState m) /\ pubKeyOperator s = ur_pubKeyOperator ptx) as (Hs & -> & ->).
  { unfold s, BanIfNotBanned. repeat case_match; split_and!; first [done|by left|by right]. }
  split; [done|]. intros k' h Hne Hpos. pose proof (pcount_bound (addr (pdmnState m)) h). pose proof (pcount_bound (pubKeyOperator (pdmnState m)) h).
  pose proof (pcount_bound (ur_pubKeyOperator ptx) h).
  assert (pcount (addr s) h <= pcount (addr (pdmnState m)) h) as Hle by (destruct Hs as [->|Hs]; [lia|rewrite (pcount_null (addr s)) by done; lia]).
  destruct (Z.eq_dec (pcount (ur_pubKeyOperator ptx) h) 0) as [Hz|Hz]; [left; lia|right].
  destruct Ha as [Ha|(d & Hg & Hd)]; [apply (HasUniqueProperty_none old (ur_pubKeyOperator ptx)); [done..|lia]|].
  apply (GetUniquePropertyMN_owner old (ur_pubKeyOperator ptx) d); [done..|lia|congruence].
Qed.

Lemma process_update_revoke_step nHeight tx l l' : evolved l -> process_update_revoke nHeight tx l = Ok l' -> step_ok l l'.
Proof.
  intros Hev. unfold process_update_revoke. intros (ptx & _ & H1)%bind_Ok. unfold GetMN in H1.
  destruct (mnMap l !! rev_proTxHash ptx) as [m|] eqn:Em; [|done]. apply throws_Ok in H1. eapply update_step; [done|exact H1|].
  intros m' Hm'. assert (m' = m) as -> by congruence. clear H1. set (s := with_operator _ _ _ _ _).
  assert (addr s = nullValue /\ keyIDOwner s = keyIDOwner (pdmnState m) /\ pubKeyOperator s = nullValue) as (Ha & -> & Hk).
  { unfold s, BanIfNotBanned. by repeat case_match. }
  split; [done|]. intros k' h _ Hpos. rewrite (pcount_null (addr s)), (pcount_null (pubKeyOperator s)) in Hpos by done. lia.
Qed.

Lemma punished_same max h penalty s : same_properties s (punished max h penalty s).
Proof. unfold punished, BanIfNotBanned. by repeat case_match. Qed.

Lemma PoSePunish_step l k penalty l' : evolved l -> PoSePunish l k penalty = Ok l' ->
  evolved l' /\ same_head l l' /\ nTotalRegisteredCount l' = nTotalRegisteredCount l.
Proof.
  intros Hev Hp. assert (0 < penalty) as Hpos by (unfold PoSePunish in Hp; destruct (Z.ltb_spec 0 penalty); done).
  destruct (mnMap l !! k) as [m|] eqn:Em; [|unfold PoSePunish, GetMN in Hp; rewrite Em, (proj2 (Z.ltb_lt _ _) Hpos) in Hp; done].
  destruct (PoSePunish_spec l k penalty m (ev_wf _ _ Hev) Hpos Em) as (l1 & Hp1 & _ & Hl1). assert (l1 = l') as -> by congruence.
  destruct (evolved_quiet old l k m _ Hev Em (punished_same (CalcMaxPoSePenalty l) (list_nHeight l) penalty (pdmnState m))) as (l2 & _ & Hev2 & Hl2).
  rewrite <- Hl1 in Hl2. subst l2. split_and!; [done|by rewrite Hl1|by rewrite Hl1].
Qed.

Lemma punish_members_step qc members i l l' : evolved l -> punish_members qc i members l = Ok l' ->
  evolved l' /\ same_head l l' /\ nTotalRegisteredCount l' = nTotalRegisteredCount l.
Proof.
  revert i l. induction members as [|m members IH]; intros i l Hev; cbn [punish_members]; [by intros [= ->]|].
  case_match; [by apply IH|]. destruct (validMembers qc !! i) as [[]|]; [by apply IH| |done].
  intros (p & _ & (l1 & Hp & H1)%bind_Ok)%bind_Ok. destruct (PoSePunish_step l _ p l1 Hev Hp) as (Hev1 & [Hb1 Hh1] & Hn1).
  destruct (IH (S i) l1 Hev1 H1) as (Hev' & [Hb' Hh'] & Hn'). split_and!; [done|split; congruence|congruence].
Qed.

Lemma process_tx_step nHeight pindexPrev tx l l' :
  evolved l -> nTotalRegisteredCount l + 1 < 2 ^ 32 -> registration_fresh tx -> tx_checked tx ->
  process_tx llmqs t view_GetCoin GetAllQuorumMembers nHeight pindexPrev tx l = Ok l' -> step_ok l l'.
Proof.
  intros Hev Hb Hfr Hck. unfold process_tx. destruct (Z.eqb_spec (nVersion tx) 3) as [Hv|]; cbn [negb]; [|intros [= ->]; by apply step_refl].
  case_bool; bprop; [by apply process_register_step|]. case_bool; bprop; [by apply process_update_service_step|].
  case_bool; bprop; [by apply process_update_registrar_step|]. case_bool; bprop; [by apply process_update_revoke_step|].
  case_bool; bprop; [|intros [= ->]; by apply step_refl]. unfold process_commitment. intros (qc & _ & H1)%bind_Ok.
  case_match; [injection H1 as ->; by apply step_refl|]. apply bind_Ok in H1 as (p & _ & H1). apply bind_Ok in H1 as (a & _ & H1).
  destruct a as [a|]; [|done]. apply bind_Ok in H1 as (b & _ & H1). case_match; [done|]. apply throws_Ok in H1.
  destruct (punish_members_step _ _ _ _ _ Hev H1) as (Hev' & Hh & Hn). split_and!; [done..|lia|lia].
Qed.

(** The transactions of a block, one after the other. *)
Lemma process_txs_evolved nHeight pindexPrev txs l l' :
  evolved l -> nTotalRegisteredCount l + zlen txs < 2 ^ 32 -> Forall registration_fresh txs -> Forall tx_checked txs ->
  process_txs llmqs t view_GetCoin GetAllQuorumMembers nHeight pindexPrev txs l = Ok l' ->
  evolved l' /\ same_head l l' /\ nTotalRegisteredCount l' <= nTotalRegisteredCount l + zlen txs.
Proof.
  revert l. induction txs as [|tx txs IH]; intros l Hev Hb Hfr Hck; cbn [process_txs]; [intros [= ->]; split_and!; [done..|unfold zlen; cbn; lia]|].
  apply Forall_cons in Hfr as [Hf Hfr], Hck as [Hc Hck]. assert (zlen (tx :: txs) = zlen txs + 1) as Hlen by (unfold zlen; cbn [length]; lia).
  pose proof (zlen_nonneg txs). intros (l1 & H1 & H2)%bind_Ok. destruct (process_tx_step nHeight pindexPrev tx l l1 Hev ltac:(lia) Hf Hc H1) as (Hev1 & [Hb1 Hh1] & Hn1).
  destruct (IH l1 Hev1 ltac:(lia) Hfr Hck H2) as (Hev' & [Hb' Hh'] & Hn'). split_and!; [done|split; congruence|lia].
Qed.

(** The removals of the second loop, and whom they leave. *)
Lemma remove_spent_evolved ins l :
  evolved l -> exists l', remove_spent ins l = Ok l' /\ evolved l' /\ same_head l l' /\ nTotalRegisteredCount l' = nTotalRegisteredCount l /\
    forall k m, mnMap l' !! k = Some m <-> mnMap l !! k = Some m /\ collateralOutpoint m ∉ map prevout ins.
Proof.
  revert l. induction ins as [|i ins IH]; intros l Hev; cbn [remove_spent map].
  { exists l. split_and!; [done..|]. intros k m. split; [intros ?; split; [done|apply not_elem_of_nil]|tauto]. }
  assert (forall k m, mnMap l !! k = Some m -> collateralOutpoint m = prevout i -> GetMNByCollateral l (prevout i) = Some m) as Hfind.
  { intros k m Hm <-. destruct (wf_key l (ev_wf _ _ Hev) _ _ Hm) as [_ Hok]. apply (lookup_property _ l k m (ev_wf _ _ Hev) Hm); [apply Hok|intros h; apply property_counts]. }
  assert ((forall k m, mnMap l !! k = Some m -> collateralOutpoint m <> prevout i) -> exists l', remove_spent ins l = Ok l' /\ evolved l' /\ same_head l l' /\
    nTotalRegisteredCount l' = nTotalRegisteredCount l /\ forall k m, mnMap l' !! k = Some m <-> mnMap l !! k = Some m /\ collateralOutpoint m ∉ prevout i :: map prevout ins) as Hskip.
  { intros Hno. destruct (IH l Hev) as (l' & -> & Hev' & Hh & Hn & Hs). exists l'. split_and!; [done..|]. intros k m. rewrite Hs, not_elem_of_cons.
    split; [intros [H1 H2]; split_and!; [done|by apply (Hno k)|done]|tauto]. }
  destruct (GetMNByCollateral l (prevout i)) as [dmn|] eqn:Eg; [|apply Hskip; intros k m Hm He; by specialize (Hfind k m Hm He)].
  assert (mnMap l !! proTxHash dmn = Some dmn) as Hd.
  { unfold GetMNByCollateral, GetUniquePropertyMN, GetMN in Eg. destruct (mnUniquePropertyMap l !! _) as [[o n]|]; [|done]. cbn in Eg.
    by destruct (wf_key l (ev_wf _ _ Hev) _ _ Eg) as [-> _]. }
  case_bool_decide as Hc; [|apply Hskip; intros k m Hm He; specialize (Hfind k m Hm He); congruence].
  destruct (evolved_remove old l (proTxHash dmn) dmn Hev Hd) as (l1 & -> & Hev1 & Hm1 & Hn1 & Hb1 & Hh1). cbn [mbind res_bind].
  destruct (IH l1 Hev1) as (l' & -> & Hev' & [Hb' Hh'] & Hn' & Hs). exists l'. split_and!; [done..|split; congruence|congruence|].
  intros k m. rewrite Hs, Hm1, lookup_delete_Some, not_elem_of_cons. split.
  - intros [[Hne Hk] Ho]. split_and!; [done| |done]. intros He. specialize (Hfind k m Hk He).
    assert (m = dmn) as -> by congruence. by destruct (wf_key l (ev_wf _ _ Hev) _ _ Hk) as [<- _].
  - intros (Hk & Hne & Ho). split_and!; [|done|done]. intros <-. assert (m = dmn) as -> by congruence. done.
Qed.

Lemma mark_paid_evolved payee nHeight l :
  evolved l -> exists l', mark_paid payee nHeight l = Ok l' /\ evolved l' /\ same_head l l' /\ nTotalRegisteredCount l' = nTotalRegisteredCount l /\
    mnMap l' = match payee with
      | Some p => alter (fun m => with_state m (with_nLastPaidHeight (pdmnState m) nHeight)) (proTxHash p) (mnMap l)
      | None => mnMap l
      end.
Proof.
  intros Hev. destruct payee as [p|]; cbn [mark_paid]; [|exists l; done]. unfold GetMN. destruct (mnMap l !! proTxHash p) as [m|] eqn:Em.
  - destruct (evolved_quiet old l (proTxHash p) m (with_nLastPaidHeight (pdmnState m) nHeight) Hev Em) as (l' & -> & Hev' & Hl'); [done|].
    exists l'. split_and!; [done..|by rewrite Hl'|by rewrite Hl'|]. rewrite Hl'. cbn [mnMap with_maps]. apply map_eq. intros k.
    destruct (decide (k = proTxHash p)) as [->|Hne]; [by rewrite lookup_insert_eq, lookup_alter_eq, Em|by rewrite lookup_insert_ne, lookup_alter_ne].
  - exists l. split_and!; [done..|]. apply map_eq. intros k. destruct (decide (k = proTxHash p)) as [->|Hne]; [by rewrite lookup_alter_eq, Em|by rewrite lookup_alter_ne].
Qed.

(** A block whose transactions were checked, and are new. *)
Definition block_checked (block : CBlock) : Prop :=
  Forall registration_fresh (visited_txs block) /\ Forall tx_checked (visited_txs block).

Lemma SetHeight_evolved l hash h : evolved l -> evolved (SetHeight (SetBlockHash l hash) h).
Proof. by apply evolved_same. Qed.

(** The list a block makes: it has evolved from the old one, and no collateral of its masternodes is spent. *)
Lemma BuildNewList_evolved block pindexPrev prev newList :
  ids_below old -> nTotalRegisteredCount old + zlen (visited_txs block) < 2 ^ 32 -> block_checked block -> t !! pindexPrev = Some prev ->
  BuildNewList params llmqs t view_GetCoin GetAllQuorumMembers block pindexPrev old = Ok newList ->
  evolved newList /\ list_nHeight newList = Chain.nHeight prev + 1 /\
  nTotalRegisteredCount newList <= nTotalRegisteredCount old + zlen (visited_txs block) /\
  forall k m, mnMap newList !! k = Some m -> collateralOutpoint m ∉ map prevout (flat_map vin (visited_txs block)).
Proof.
  intros Hbelow Hbound [Hfr Hck] Hprev. unfold BuildNewList, deref. rewrite Hprev. cbn [total mbind res_bind].
  set (l0 := SetHeight _ _). assert (evolved l0) as Hev0 by by apply SetHeight_evolved, evolved_self.
  destruct (confirm_all_spec (Chain.blockHash prev) (Chain.nHeight prev) (ForEachMN old false) l0 Hev0 (NoDup_ForEachMN old false Hold)) as (l1 & -> & Hev1 & Hl1 & _).
  { intros dmn [Hd _]%elem_of_ForEachMN; [exact Hd|done]. }
  cbn [throws mbind res_bind]. destruct (DecreasePoSePenalties_evolved l1 Hev1) as (l2 & -> & Hev2 & Hl2). cbn [throws mbind res_bind].
  assert (nTotalRegisteredCount l2 = nTotalRegisteredCount old /\ list_nHeight l2 = Chain.nHeight prev + 1) as [Hn2 Hh2] by (by rewrite Hl2, Hl1).
  intros (l3 & H3 & H4)%bind_Ok. destruct (process_txs_evolved (Chain.nHeight prev + 1) pindexPrev (visited_txs block) l2 l3 Hev2 ltac:(lia) Hfr Hck H3) as (Hev3 & [_ Hh3] & Hn3).
  destruct (remove_spent_evolved (flat_map vin (visited_txs block)) l3 Hev3) as (l4 & Hr4 & Hev4 & [_ Hh4] & Hn4 & Hs4).
  rewrite Hr4 in H4. cbn [throws mbind res_bind] in H4. apply throws_Ok in H4.
  destruct (mark_paid_evolved (GetMNPayee old) (Chain.nHeight prev + 1) l4 Hev4) as (l5 & Hp5 & Hev5 & [_ Hh5] & Hn5 & Hm5).
  assert (l5 = newList) as -> by congruence. split_and!; [done|congruence|lia|]. intros k m Hm. rewrite Hm5 in Hm.
  destruct (GetMNPayee old) as [p|]; [|by apply (Hs4 k)].
  apply lookup_alter_Some in Hm as [(_ & m0 & Hm0 & ->)|[_ Hm]]; [|by apply (Hs4 k)]. apply Hs4 in Hm0. apply Hm0.
Qed.

(** A block without special transactions that spends no collateral. *)
Definition quiet_block (block : CBlock) : Prop :=
  Forall (fun tx => nVersion tx <> 3) (visited_txs block) /\
  forall k m, mnMap old !! k = Some m -> collateralOutpoint m ∉ map prevout (flat_map vin (visited_txs block)).

Lemma process_txs_quiet nHeight pindexPrev txs l : Forall (fun tx => nVersion tx <> 3) txs ->
  process_txs llmqs t view_GetCoin GetAllQuorumMembers nHeight pindexPrev txs l = Ok l.
Proof.
  induction 1 as [|tx txs Hv _ IH]; cbn [process_txs]; [done|]. unfold process_tx. by rewrite (proj2 (Z.eqb_neq _ _) Hv).
Qed.

(** What such a block does to every masternode, and to the payee. *)
Definition aged (prev : CBlockIndex) (m : CDeterministicMN) : CDeterministicMN :=
  decreased (confirmed (Chain.blockHash prev) (Chain.nHeight prev) m).
Definition paid (nHeight : Z) (m : CDeterministicMN) : CDeterministicMN := with_state m (with_nLastPaidHeight (pdmnState m) nHeight).

Lemma BuildNewList_quiet block pindexPrev prev :
  ids_below old -> t !! pindexPrev = Some prev -> quiet_block block ->
  exists newList, BuildNewList params llmqs t view_GetCoin GetAllQuorumMembers block pindexPrev old = Ok newList /\
    list_wf newList /\ ids_below newList /\ nTotalRegisteredCount newList = nTotalRegisteredCount old /\ list_nHeight newList = Chain.nHeight prev + 1 /\
    mnMap newList = match GetMNPayee old with
      | Some p => alter (paid (Chain.nHeight prev + 1)) (proTxHash p) (aged prev <$> mnMap old)
      | None => aged prev <$> mnMap old
      end.
Proof.
  intros Hbelow Hprev [Hv Hcol]. unfold BuildNewList, deref. rewrite Hprev. cbn [total mbind res_bind].
  set (l0 := SetHeight _ _). assert (evolved l0) as Hev0 by by apply SetHeight_evolved, evolved_self.
  destruct (confirm_all_spec (Chain.blockHash prev) (Chain.nHeight prev) (ForEachMN old false) l0 Hev0 (NoDup_ForEachMN old false Hold)) as (l1 & -> & Hev1 & Hl1 & Hm1).
  { intros dmn [Hd _]%elem_of_ForEachMN; [exact Hd|done]. }
  cbn [throws mbind res_bind]. destruct (DecreasePoSePenalties_evolved l1 Hev1) as (l2 & -> & Hev2 & Hl2). cbn [throws mbind res_bind].
  assert (mnMap l2 = aged prev <$> mnMap old) as Hm2.
  { rewrite Hl2. cbn [mnMap with_maps]. apply map_eq. intros k. rewrite !lookup_fmap, Hm1. change (mnMap l0) with (mnMap old). case_decide as Hk.
    - by destruct (mnMap old !! k).
    - destruct (mnMap old !! k) as [m|] eqn:Em; [|done]. destruct Hk. apply list_elem_of_fmap. exists m.
      destruct (wf_key old Hold _ _ Em) as [Hkm _]. split; [done|]. apply elem_of_ForEachMN; [done|]. by rewrite Hkm. }
  rewrite process_txs_quiet by done. cbn [mbind res_bind].
  destruct (remove_spent_evolved (flat_map vin (visited_txs block)) l2 Hev2) as (l4 & -> & Hev4 & [_ Hh4] & Hn4 & Hs4). cbn [throws mbind res_bind].
  assert (mnMap l4 = mnMap l2) as Hm4.
  { apply map_eq. intros k. apply option_eq. intros m. rewrite Hs4. split; [tauto|]. intros Hk. split; [done|]. rewrite Hm2, lookup_fmap in Hk.
    apply fmap_Some in Hk as (m0 & Hm0 & ->). unfold aged, decreased, confirmed. repeat case_match; by apply (Hcol k m0). }
  destruct (mark_paid_evolved (GetMNPayee old) (Chain.nHeight prev + 1) l4 Hev4) as (l5 & -> & Hev5 & [_ Hh5] & Hn5 & Hm5).
  exists l5. split_and!; [done|apply Hev5|apply Hev5|rewrite Hn5, Hn4, Hl2, Hl1; done|rewrite Hh5, Hh4, Hl2, Hl1; done|].
  rewrite Hm5, Hm4, Hm2. done.
Qed.

End steps.

(** ** Lists in memory and on disk *)

Section stored.
Context {crypto : CryptoOps} (llmqs : list LLMQParams) (t : heap).

(** The masternodes of the list of every block, by its hash, and a bound for the count of registrations. *)
Abbreviation world := (list Z -> MnMap * Z).

Definition ok_list (G : world) (hash : list Z) (l : CDeterministicMNList) : Prop :=
  list_wf l /\ ids_below l /\ mnMap l = (G hash).1 /\ blockHash l = hash /\ nTotalRegisteredCount l <= (G hash).2.

(** A difference leads from the list of the block before to the list of the block. *)
Definition leads (G : world) (b : CBlockIndex) (d : CDeterministicMNListDiff) : Prop :=
  exists q c, pprev b = Some q /\ t !! q = Some c /\
    forall l, ok_list G (Chain.blockHash c) l ->
      exists l', ApplyDiff l (Chain.blockHash b) (Chain.nHeight b) d = Ok l' /\ ok_list G (Chain.blockHash b) l'.

(** What is stored is right, and a block without records has the empty list. *)
Record stored (G : world) (m : CDeterministicMNManager) : Prop := {
  st_lists h l : mnListsCache m !! h = Some l -> ok_list G h l;
  st_snapshots h l : db_snapshots m !! h = Some l -> ok_list G h l;
  st_diffs p b d height : t !! p = Some b -> mnListDiffsCache m !! Chain.blockHash b = Some (d, height) -> leads G b d;
  st_db p b d : t !! p = Some b -> db_diffs m !! Chain.blockHash b = Some d -> leads G b d;
  st_none p b : t !! p = Some b -> db_snapshots m !! Chain.blockHash b = None -> db_diffs m !! Chain.blockHash b = None ->
    (G (Chain.blockHash b)).1 = ∅ /\ 0 <= (G (Chain.blockHash b)).2;
  st_tip tip : tipIndex m = Some tip -> is_Some (t !! tip)
}.

Lemma emplace_Some {K A} `{Countable K} (k k' : K) (x y : A) (m : gmap K A) : emplace k x m !! k' = Some y -> m !! k' = Some y \/ k' = k /\ y = x.
Proof. unfold emplace. destruct (m !! k); [by left|]. intros [[<- <-]|[_ ?]]%lookup_insert_Some; [by right|by left]. Qed.

Lemma emplace_subseteq {K A} `{Countable K} (k : K) (x : A) (m : gmap K A) : m ⊆ emplace k x m.
Proof. unfold emplace. destruct (m !! k) eqn:E; [done|]. by apply insert_subseteq. Qed.

Lemma emplace_self {K A} `{Countable K} (k : K) (x : A) (m : gmap K A) : m !! k = None -> emplace k x m !! k = Some x.
Proof. intros Hn. unfold emplace. rewrite Hn. apply lookup_insert_eq. Qed.

Lemma emplace_list_stored G m h l : stored G m -> ok_list G h l -> stored G (emplace_list m h l).
Proof.
  intros [H1 H2 H3 H4 H5 H6] Hl. split; try done. intros h' l' [Hh|[-> ->]]%emplace_Some; [by apply H1|done].
Qed.

Lemma emplace_diff_stored G m h d height : stored G m -> (forall p b, t !! p = Some b -> Chain.blockHash b = h -> leads G b d) ->
  stored G (emplace_diff m h d height).
Proof.
  intros [H1 H2 H3 H4 H5 H6] Hd. split; try done. intros p b d' height' Hp [Hh|[Hh Heq]]%emplace_Some; [by apply (H3 p b d' height')|].
  injection Heq as -> ->. by apply (Hd p).
Qed.

(** A difference without changes is applied by changing the block alone. *)
Lemma ApplyDiff_no_changes l hash height d :
  HasChanges d = false -> ApplyDiff l hash height d = Ok (SetHeight (SetBlockHash l hash) height).
Proof.
  unfold HasChanges. intros [[Ha%bool_decide_eq_true Hu%bool_decide_eq_true]%andb_true_iff Hr%bool_decide_eq_true]%negb_false_iff%andb_true_iff.
  unfold ApplyDiff. rewrite Ha, Hu, Hr. by rewrite elements_empty, map_to_list_empty.
Qed.

Lemma apply_diffs_app m ixs p l b d height :
  t !! p = Some b -> mnListDiffsCache m !! Chain.blockHash b = Some (d, height) ->
  forall s, apply_diffs t m ixs s = Ok l -> apply_diffs t m (ixs ++ [p]) s = throws (ApplyDiff l (Chain.blockHash b) (Chain.nHeight b) d).
Proof.
  intros Hp Hd. induction ixs as [|q ixs IH]; intros s; cbn [app apply_diffs].
  - intros [= ->]. unfold deref. rewrite Hp. cbn [total mbind res_bind]. rewrite Hd. destruct (HasChanges d) eqn:Ec; [|by rewrite ApplyDiff_no_changes].
    by destruct (ApplyDiff l _ _ d).
  - intros (c & Hc & H1)%bind_Ok. rewrite Hc. cbn [mbind res_bind]. case_match; [|done]. case_match. apply bind_Ok in H1 as (s1 & Hs1 & H1).
    rewrite Hs1. cbn [mbind res_bind]. by apply IH.
Qed.

(** Reading the list of a block caches lists and differences of the block and those before it only. *)
Definition caches_below (p : ptr) (m m' : CDeterministicMNManager) : Prop :=
  forall h, (forall p' b', (p' <= p)%nat -> t !! p' = Some b' -> Chain.blockHash b' <> h) ->
    mnListsCache m' !! h = mnListsCache m !! h /\ mnListDiffsCache m' !! h = mnListDiffsCache m !! h.

Lemma emplace_ne {K A} `{Countable K} (k k' : K) (x : A) (m : gmap K A) : k <> k' -> emplace k x m !! k' = m !! k'.
Proof. intros Hne. unfold emplace. destruct (m !! k); [done|]. by rewrite lookup_insert_ne. Qed.

Lemma emplace_list_below p b m l : t !! p = Some b -> caches_below p m (emplace_list m (Chain.blockHash b) l).
Proof. intros Hp h Hh. split; [|done]. apply emplace_ne. by apply (Hh p). Qed.

Lemma emplace_diff_below p b m d height : t !! p = Some b -> caches_below p m (emplace_diff m (Chain.blockHash b) d height).
Proof. intros Hp h Hh. split; [done|]. apply emplace_ne. by apply (Hh p). Qed.

Lemma caches_below_trans p q m m1 m2 : (q <= p)%nat -> caches_below p m m1 -> caches_below q m1 m2 -> caches_below p m m2.
Proof.
  intros Hle H1 H2 h Hh. destruct (H1 h Hh) as [E1 E2]. destruct (H2 h) as [F1 F2]; [intros p' b' Hp'; apply Hh; lia|]. by rewrite F1, F2.
Qed.

(** The walk back ends, and the differences on the way lead to the list of the block. *)
Lemma find_snapshot_spec G fuel : heap_wf t -> forall m p b acc, stored G m -> t !! p = Some b -> (p < fuel)%nat ->
  exists s ixs m' l, find_snapshot t fuel m (Some p) acc = Ok (s, ixs ++ acc, m') /\ stored G m' /\ mnListDiffsCache m ⊆ mnListDiffsCache m' /\
    tipIndex m' = tipIndex m /\ db_diffs m' = db_diffs m /\ db_snapshots m' = db_snapshots m /\ caches_below p m m' /\
    apply_diffs t m' ixs s = Ok l /\ ok_list G (Chain.blockHash b) l.
Proof.
  intros Hheap. induction fuel as [|fuel IH]; intros m p b acc Hst Hp Hf; [lia|]. cbn [find_snapshot]. unfold deref at 1. rewrite Hp. cbn [total mbind res_bind].
  destruct (mnListsCache m !! Chain.blockHash b) as [s|] eqn:E1.
  { exists s, [], m, s. split_and!; try done. by apply (st_lists G m Hst). }
  destruct (db_snapshots m !! Chain.blockHash b) as [s|] eqn:E2.
  { assert (ok_list G (Chain.blockHash b) s) as Hs by by apply (st_snapshots G m Hst). exists s, [], (emplace_list m (Chain.blockHash b) s), s.
    split_and!; try done; [by apply emplace_list_stored|by apply emplace_list_below]. }
  assert (forall m1 d height, stored G m1 -> mnListDiffsCache m ⊆ mnListDiffsCache m1 -> tipIndex m1 = tipIndex m -> db_diffs m1 = db_diffs m ->
    db_snapshots m1 = db_snapshots m -> caches_below p m m1 -> mnListDiffsCache m1 !! Chain.blockHash b = Some (d, height) ->
    exists s ixs m' l, find_snapshot t fuel m1 (pprev b) (p :: acc) = Ok (s, ixs ++ acc, m') /\ stored G m' /\ mnListDiffsCache m ⊆ mnListDiffsCache m' /\
      tipIndex m' = tipIndex m /\ db_diffs m' = db_diffs m /\ db_snapshots m' = db_snapshots m /\ caches_below p m m' /\
      apply_diffs t m' ixs s = Ok l /\ ok_list G (Chain.blockHash b) l) as Hgo.
  { intros m1 d height Hst1 Hsub1 Ht1 Hdb1 Hsn1 Hcb Hd. destruct (st_diffs G m1 Hst1 p b d height Hp Hd) as (q & c & Hq & Hc & Hlead).
    destruct (Hheap p b Hp) as [Hpar _]. rewrite Hq in Hpar. destruct Hpar as (c' & Hc' & Hlt & _).
    rewrite Hq. destruct (IH m1 q c (p :: acc) Hst1 Hc ltac:(lia)) as (s & ixs & m' & l & -> & Hst' & Hsub & Ht' & Hdb' & Hsn' & Hcb' & Hap & Hl).
    destruct (Hlead l Hl) as (l' & Hl' & Hok'). exists s, (ixs ++ [p]), m', l'. rewrite <- app_assoc. split_and!; try done; try congruence; [by etrans|apply (caches_below_trans p q m m1 m'); [lia|done..]|].
    erewrite apply_diffs_app; [by rewrite Hl'|done| |done]. eapply lookup_weaken; [exact Hd|done]. }
  destruct (mnListDiffsCache m !! Chain.blockHash b) as [[d height]|] eqn:E3; [by apply (Hgo m d height)|].
  destruct (db_diffs m !! Chain.blockHash b) as [d|] eqn:E4.
  - apply (Hgo _ d (Chain.nHeight b)); try done; [|apply emplace_subseteq|by apply emplace_diff_below|by apply emplace_self].
    apply emplace_diff_stored; [done|]. intros p' b' Hp' Hb'. apply (st_db G m Hst p' b' d Hp'). by rewrite Hb'.
  - destruct (st_none G m Hst p b Hp E2 E4) as [Hg Hg']. set (s := CDeterministicMNList_make (Chain.blockHash b) (-1) 0).
    assert (ok_list G (Chain.blockHash b) s) as Hs.
    { split_and!; [apply empty_wf|split; [cbn; lia|cbn; intros k x; by rewrite lookup_empty]|by rewrite Hg|done|cbn; lia]. }
    exists s, [], (emplace_list m (Chain.blockHash b) s), s. split_and!; try done; [by apply emplace_list_stored|by apply emplace_list_below].
Qed.

(** Reading a list gives that of the block, whatever is in memory, and keeps what is stored right. *)
Lemma GetListForBlock_spec G m p b : heap_wf t -> stored G m -> t !! p = Some b ->
  exists l m', GetListForBlock llmqs t m p = Ok (l, m') /\ ok_list G (Chain.blockHash b) l /\ stored G m' /\
    db_diffs m' = db_diffs m /\ db_snapshots m' = db_snapshots m /\ tipIndex m' = tipIndex m /\ caches_below p m m'.
Proof.
  intros Hheap Hst Hp. unfold GetListForBlock.
  destruct (find_snapshot_spec G (S (length t)) Hheap m p b [] Hst Hp) as (s & ixs & m1 & l & Hf & Hst1 & _ & Ht1 & Hd1 & Hs1 & Hcb & Ha & Hl).
  { apply lookup_lt_Some in Hp. lia. }
  rewrite Hf. cbn [mbind res_bind]. rewrite app_nil_r, Ha. cbn [mbind res_bind]. unfold keep_list.
  destruct (tipIndex m1) as [tip|] eqn:Et; [|exists l, m1; cbn [mbind res_bind]; split_and!; (done || congruence)].
  destruct (st_tip G m1 Hst1 tip Et) as [bt Hbt]. unfold deref. rewrite Hbt. cbn [total mbind res_bind].
  case_match; cbn [mbind res_bind]; [exists l, (emplace_list m1 (blockHash l) l)|exists l, m1]; (split_and!; try (done || congruence)).
  - apply emplace_list_stored; [done|]. destruct Hl as (H1 & H2 & H3 & H4 & H5). by rewrite H4.
  - cbn. congruence.
  - destruct Hl as (_ & _ & _ & Hh & _). rewrite Hh. apply (caches_below_trans p p m m1); [lia|done|by apply emplace_list_below].
Qed.

(** The difference is a function of the masternodes of the two lists. *)
Lemma BuildDiff_to_same from from' L added updated : mnMap from = mnMap from' -> BuildDiff_to from L added updated = BuildDiff_to from' L added updated.
Proof.
  intros Hm. revert added updated. induction L as [|x L IH]; intros added updated; cbn [BuildDiff_to]; [done|]. unfold GetMN. rewrite Hm.
  destruct (mnMap from' !! proTxHash x); [|apply IH]. case_match; [apply IH|]. destruct (GetInternalId x); cbn [mbind res_bind]; [apply IH|done..].
Qed.

Lemma BuildDiff_same from from' to : mnMap from = mnMap from' -> BuildDiff from to = BuildDiff from' to.
Proof. intros Hm. unfold BuildDiff, ForEachMN. rewrite Hm. by rewrite (BuildDiff_to_same from from') by done. Qed.

(** The difference to an evolved list leads to it from every list with the same masternodes. *)
Lemma evolved_leads old new l hash height : list_wf old -> evolved old new -> list_wf l -> ids_below l -> mnMap l = mnMap old ->
  exists d l', BuildDiff old new = Ok d /\ ApplyDiff l hash height d = Ok l' /\ list_wf l' /\ mnMap l' = mnMap new /\ blockHash l' = hash /\
    list_nHeight l' = height /\ ids_below l' /\ nTotalRegisteredCount l' <= Z.max (nTotalRegisteredCount l) (nTotalRegisteredCount new).
Proof.
  intros Hold [Hwf Hb Hreg Htake] Hl Hbl Hm.
  destruct (ApplyDiff_BuildDiff l new Hl Hwf) with (hash := hash) (height := height) as (d & l' & Hd & Ha & Hw' & Hm' & Hh' & Hg' & Hb' & _ & Hn'); try done.
  - intros k m m'. rewrite Hm. apply Hreg.
  - intros k k' h. rewrite Hm. apply Htake.
  - exists d, l'. rewrite <- (BuildDiff_same l old) by done. split_and!; done.
Qed.

End stored.

Section processing.
Context {crypto : CryptoOps} {bls : BLSOps} (params : EvoParams) (llmqs : list LLMQParams) (t : heap).
Context (view_GetCoin : COutPoint -> option Coin) (GetAllQuorumMembers : Z -> ptr -> list CDeterministicMN).
Context (env : pos_env) (signed_message : CProRegTx -> list Z).

(** C21: a block whose provider transactions passed their checks against the list before it makes a list that
    can be stored as a difference: BuildDiff succeeds, and ApplyDiff of the difference gives back the masternodes,
    the ids and the unique properties with their counts.  No masternode of the new list has a collateral that
    a transaction of the block spends, the coinbase and the second transaction of a proof-of-stake block excepted. *)
Theorem BuildNewList_stored (old newList : CDeterministicMNList) (block : CBlock) (pindexPrev : ptr) (prev : CBlockIndex) (hash : list Z) (height : Z)
    (Hwf : list_wf old) (Hbelow : ids_below old) (Hbound : nTotalRegisteredCount old + zlen (visited_txs block) < 2 ^ 32)
    (Hchecked : block_checked params view_GetCoin old env signed_message (Chain.nHeight prev) block) (Hprev : t !! pindexPrev = Some prev)
    (Hnew : BuildNewList params llmqs t view_GetCoin GetAllQuorumMembers block pindexPrev old = Ok newList) :
  (exists d l, BuildDiff old newList = Ok d /\ ApplyDiff old hash height d = Ok l /\ mnMap l = mnMap newList /\
     mnInternalIdMap l = mnInternalIdMap newList /\ mnUniquePropertyMap l = mnUniquePropertyMap newList /\
     blockHash l = hash /\ list_nHeight l = height) /\
  forall k m tx txin, GetMN newList k = Some m -> tx ∈ visited_txs block -> txin ∈ vin tx -> collateralOutpoint m <> prevout txin.
Proof.
  destruct (BuildNewList_evolved params llmqs t view_GetCoin GetAllQuorumMembers old env signed_message (Chain.nHeight prev) Hwf block pindexPrev prev newList
    Hbelow Hbound Hchecked Hprev Hnew) as (Hev & _ & _ & Hspent). split.
  - destruct (evolved_leads old newList old hash height Hwf Hev Hwf Hbelow eq_refl) as (d & l & Hd & Ha & Hw & Hm & Hh & Hg & _).
    destruct (wf_det l newList Hw (ev_wf _ _ Hev) Hm) as [Hi Hu]. exists d, l. split_and!; done.
  - intros k m tx i Hm Htx Hi He. apply (Hspent k m Hm). rewrite He. apply list_elem_of_fmap_2. apply list_elem_of_In, in_flat_map.
    exists tx. split; by apply list_elem_of_In.
Qed.

(** The world with the list of one more block. *)
Definition world_insert (G : list Z -> MnMap * Z) (hash : list Z) (x : MnMap * Z) : list Z -> MnMap * Z :=
  fun h => if decide (h = hash) then x else G h.

(** Nothing is stored for the block or for a block after it. *)
Record untouched (m : CDeterministicMNManager) (hash : list Z) : Prop := {
  un_list : mnListsCache m !! hash = None;
  un_snapshot : db_snapshots m !! hash = None;
  un_diff p b : t !! p = Some b -> Chain.blockHash b = hash \/ (exists q c, pprev b = Some q /\ t !! q = Some c /\ Chain.blockHash c = hash) ->
    mnListDiffsCache m !! Chain.blockHash b = None /\ db_diffs m !! Chain.blockHash b = None
}.

Lemma ok_list_other G hash x h l : h <> hash -> ok_list (world_insert G hash x) h l <-> ok_list G h l.
Proof. intros Hne. unfold ok_list, world_insert. by rewrite decide_False. Qed.

(** The record of a new block. *)
Lemma stored_new G m hash x diff : stored t G m -> untouched m hash ->
  (forall p b, t !! p = Some b -> Chain.blockHash b = hash -> leads t (world_insert G hash x) b diff) ->
  stored t (world_insert G hash x) (with_db m (db_snapshots m) (<[hash := diff]> (db_diffs m))).
Proof.
  intros [H1 H2 H3 H4 H5 H6] [U1 U2 U3] Hx.
  assert (forall p b d, t !! p = Some b -> mnListDiffsCache m !! Chain.blockHash b <> None \/ db_diffs m !! Chain.blockHash b <> None ->
    leads t G b d -> leads t (world_insert G hash x) b d) as Hlead.
  { intros p b d Hp Hsome (q & c & Hq & Hc & Hl). exists q, c. split_and!; [done..|].
    assert (Chain.blockHash b <> hash) as Hb by (intros He; destruct (U3 p b Hp (or_introl He)); tauto).
    assert (Chain.blockHash c <> hash) as Hc'.
    { intros He. destruct (U3 p b Hp); [|tauto]. right. by exists q, c. }
    intros l Hok%ok_list_other; [|done]. destruct (Hl l Hok) as (l' & Ha & Hok'). exists l'. split; [done|]. by apply ok_list_other. }
  split.
  - intros h l. cbn [with_db mnListsCache]. intros Hh. apply ok_list_other; [congruence|by apply H1].
  - intros h l. cbn [with_db db_snapshots]. intros Hh. apply ok_list_other; [congruence|by apply H2].
  - intros p b d height Hp. cbn [with_db mnListDiffsCache]. intros Hd. apply (Hlead p); [done|left; congruence|by apply (H3 p b d height)].
  - intros p b d Hp. cbn [with_db db_diffs]. intros [[Hh <-]|[Hne Hd]]%lookup_insert_Some; [by apply (Hx p)|].
    apply (Hlead p); [done|right; congruence|by apply (H4 p)].
  - intros p b Hp Hs. cbn [with_db db_diffs]. intros [Hd Hne]%lookup_insert_None. unfold world_insert. rewrite decide_False by done. by apply (H5 p).
  - done.
Qed.

Lemma stored_snapshot G m hash l : stored t G m -> ok_list G hash l -> stored t G (with_db m (<[hash := l]> (db_snapshots m)) (db_diffs m)).
Proof.
  intros [H1 H2 H3 H4 H5 H6] Hl. split; try done.
  - intros h l'. cbn [with_db db_snapshots]. intros [[<- <-]|[_ Hh]]%lookup_insert_Some; [done|by apply H2].
  - intros p b Hp. cbn [with_db db_snapshots db_diffs]. intros [Hs _]%lookup_insert_None. by apply (H5 p).
Qed.

(** The index has one entry for a hash. *)
Definition hashes_unique : Prop := forall p p' b b', t !! p = Some b -> t !! p' = Some b' -> Chain.blockHash b = Chain.blockHash b' -> p = p'.

Hypothesis (Hheap : heap_wf t) (Huniq : hashes_unique).

(** Reading the list of the block before leaves the block untouched. *)
Lemma untouched_below m m' p index q : untouched m (Chain.blockHash index) -> t !! p = Some index -> (q < p)%nat -> caches_below t q m m' ->
  db_diffs m' = db_diffs m -> db_snapshots m' = db_snapshots m -> untouched m' (Chain.blockHash index).
Proof.
  intros [U1 U2 U3] Hp Hlt Hcb Hd Hs.
  assert (forall pb b, t !! pb = Some b -> (q < pb)%nat -> forall p' b', (p' <= q)%nat -> t !! p' = Some b' -> Chain.blockHash b' <> Chain.blockHash b) as Hnew.
  { intros pb b Hb Hq p' b' Hp' Hb' He. rewrite (Huniq p' pb b' b Hb' Hb He) in Hp'. lia. }
  destruct (Hcb (Chain.blockHash index) (Hnew p index Hp Hlt)) as [E1 E2]. split; [by rewrite E1|by rewrite Hs|].
  intros pb b Hb Hcase. assert (q < pb)%nat as Hq.
  { destruct Hcase as [He|(q' & c & Hq' & Hc & He)]; [by rewrite (Huniq pb p b index Hb Hp He)|].
    rewrite (Huniq q' p c index Hc Hp He) in *. destruct (Hheap pb b Hb) as [Hpar _]. rewrite Hq' in Hpar. destruct Hpar as (? & _ & ? & _). lia. }
  destruct (Hcb (Chain.blockHash b) (Hnew pb b Hb Hq)) as [_ ->]. rewrite Hd. by apply (U3 pb).
Qed.

(** Storing the list of a block: the difference, and the list itself when it is a snapshot. *)
Lemma record_block G m (block : CBlock) p index q c old newList diff (snapshot : bool) :
  stored t G m -> untouched m (Chain.blockHash index) -> t !! p = Some index -> pprev index = Some q -> t !! q = Some c -> (q < p)%nat ->
  ok_list G (Chain.blockHash c) old -> evolved old newList -> blockHash newList = Chain.blockHash index ->
  nTotalRegisteredCount newList <= (G (Chain.blockHash c)).2 + zlen (visited_txs block) -> BuildDiff old newList = Ok diff ->
  let m1 := with_db m (db_snapshots m) (<[Chain.blockHash index := diff]> (db_diffs m)) in
  let m2 := if snapshot then emplace_list (with_db m1 (<[Chain.blockHash index := newList]> (db_snapshots m1)) (db_diffs m1)) (Chain.blockHash index) newList else m1 in
  stored t (world_insert G (Chain.blockHash index) (mnMap newList, (G (Chain.blockHash c)).2 + zlen (visited_txs block)))
    (emplace_diff m2 (Chain.blockHash index) diff (Chain.nHeight index)).
Proof.
  intros Hst Hun Hp Hq Hc Hlt (Hwo & Hbo & Hmo & Hho & Hno) Hev Hh Hn Hd m1 m2. set (G' := world_insert _ _ _).
  assert (Chain.blockHash c <> Chain.blockHash index) as Hne by (intros He; rewrite (Huniq q p c index Hc Hp He) in Hlt; lia).
  assert (G' (Chain.blockHash index) = (mnMap newList, (G (Chain.blockHash c)).2 + zlen (visited_txs block))) as Hg by (unfold G', world_insert; by rewrite decide_True).
  assert (forall p' b, t !! p' = Some b -> Chain.blockHash b = Chain.blockHash index -> leads t G' b diff) as Hlead.
  { intros p' b Hp' Hb. rewrite (Huniq p' p b index Hp' Hp Hb) in Hp'. assert (b = index) as -> by congruence. exists q, c. split_and!; [done..|].
    intros l Hl. apply ok_list_other in Hl as (Hwl & Hbl & Hml & _ & Hnl); [|done].
    destruct (evolved_leads old newList l (Chain.blockHash index) (Chain.nHeight index) Hwo Hev Hwl Hbl) as (d & l' & Hd' & Ha & Hw' & Hm' & Hh' & _ & Hb' & Hn').
    { by rewrite Hml, Hmo. }
    assert (d = diff) as -> by congruence. exists l'. split; [done|]. unfold ok_list. rewrite Hg. cbn [fst snd]. pose proof (zlen_nonneg (visited_txs block)).
    split_and!; [done..|lia]. }
  assert (ok_list G' (Chain.blockHash index) newList) as Hok.
  { unfold ok_list. rewrite Hg. cbn [fst snd]. split_and!; [apply Hev|apply Hev|done|done|done]. }
  assert (stored t G' m1) as Hst1 by by apply stored_new. apply emplace_diff_stored; [|done].
  unfold m2. destruct snapshot; [|done]. apply emplace_list_stored; [|done]. by apply stored_snapshot.
Qed.

(** Two managers have the same records but for one block. *)
Definition same_but (hash : list Z) (m m' : CDeterministicMNManager) : Prop :=
  forall h, h <> hash -> mnListsCache m !! h = mnListsCache m' !! h /\ mnListDiffsCache m !! h = mnListDiffsCache m' !! h /\
    db_snapshots m !! h = db_snapshots m' !! h /\ db_diffs m !! h = db_diffs m' !! h.

Lemma process_block_try_spec G m block p index q c m' :
  stored t G m -> untouched m (Chain.blockHash index) -> t !! p = Some index -> pprev index = Some q -> t !! q = Some c ->
  header_GetHash (header block) = Chain.blockHash index -> (G (Chain.blockHash c)).2 + zlen (visited_txs block) < 2 ^ 32 ->
  (forall l, ok_list G (Chain.blockHash c) l -> block_checked params view_GetCoin l env signed_message (Chain.nHeight c) block) ->
  process_block_try params llmqs t view_GetCoin GetAllQuorumMembers m block index false = Ok m' ->
  exists old newList, ok_list G (Chain.blockHash c) old /\
    BuildNewList params llmqs t view_GetCoin GetAllQuorumMembers block q old = Ok newList /\
    stored t (world_insert G (Chain.blockHash index) (mnMap newList, (G (Chain.blockHash c)).2 + zlen (visited_txs block))) m' /\
    exists m1 old2 m2, GetListForBlock llmqs t m q = Ok (old, m1) /\ GetListForBlock llmqs t m1 q = Ok (old2, m2) /\ same_but (Chain.blockHash index) m2 m'.
Proof.
  intros Hst Hun Hp Hq Hc Hhash Hbound Hck. unfold process_block_try. rewrite Hq. unfold BuildNewListFromBlock.
  assert (q < p)%nat as Hlt by (destruct (Hheap p index Hp) as [Hpar _]; rewrite Hq in Hpar; by destruct Hpar as (? & _ & ? & _)).
  destruct (GetListForBlock_spec llmqs t G m q c Hheap Hst Hc) as (old & m1 & Hg1 & Hold & Hst1 & Hd1 & Hs1 & Ht1 & Hcb1). rewrite Hg1. cbn [mbind res_bind].
  intros ([newList m1'] & Hb & H1)%bind_Ok. apply bind_Ok in Hb as (nl & Hb & Heq). injection Heq as -> <-. cbn [mbind res_bind] in H1.
  destruct (GetListForBlock_spec llmqs t G m1 q c Hheap Hst1 Hc) as (old2 & m2 & Hg2 & Hold2 & Hst2 & Hd2 & Hs2 & Ht2 & Hcb2).
  rewrite Hg2 in H1. cbn [mbind res_bind] in H1. rewrite Hhash in H1. exists old, newList. split; [done|]. split; [done|].
  assert (untouched m2 (Chain.blockHash index)) as Hun2.
  { eapply (untouched_below m1 m2 p index q); [|done..]. by eapply (untouched_below m m1 p index q). }
  destruct Hold as (Hwo & Hbo & Hmo & Hho & Hno). destruct (BuildNewList_evolved params llmqs t view_GetCoin GetAllQuorumMembers old env signed_message
    (Chain.nHeight c) Hwo block q c newList Hbo ltac:(lia) (Hck old ltac:(done)) Hc Hb) as (Hev & Hh & Hn & _).
  rewrite (proj2 (Z.eqb_neq (list_nHeight newList) (-1))) in H1 by (destruct (Hheap q c Hc) as (_ & Hc0 & _); lia).
  set (nl := SetBlockHash newList (Chain.blockHash index)) in H1.
  assert (evolved old2 nl) as Hev2.
  { destruct Hold2 as (Hw2 & Hb2 & Hm2 & _ & Hn2). apply (evolved_same old2 newList); [done..|]. destruct Hev as [E1 E2 E4 E5].
    split; [done..|intros k x x'|intros k k' h]; rewrite Hm2, <- Hmo; [apply E4|apply E5]. }
  apply bind_Ok in H1 as (diff & Hdiff%throws_Ok & Hm'). injection Hm' as <-.
  split; [apply (record_block G m2 block p index q c old2 nl diff); try done; cbn; lia|]. exists m1, old2, m2. split_and!; [done..|].
  intros h Hne. change (blockHash nl) with (Chain.blockHash index). cbn [emplace_diff with_diffs mnListsCache mnListDiffsCache db_snapshots db_diffs].
  case_match; cbn [emplace_list with_lists with_db mnListsCache mnListDiffsCache db_snapshots db_diffs]; rewrite ?emplace_ne, ?lookup_insert_ne by congruence; done.
Qed.

Lemma CleanupCache_stored G m h : stored t G m -> exists m', CleanupCache llmqs t m h = Ok m' /\ stored t G m'.
Proof.
  intros Hst. unfold CleanupCache.
  assert (exists o, match tipIndex m with
    | None => Ok None
    | Some tip => b ← deref t tip; match pprev b with None => Ok None | Some q => c ← deref t q; Ok (Some (Chain.blockHash c)) end
    end = Ok (E := unit) o) as [o ->].
  { destruct (tipIndex m) as [tip|] eqn:Et; [|by eexists]. destruct (st_tip t G m Hst tip Et) as [b Hb]. unfold deref. rewrite Hb. cbn [mbind res_bind].
    destruct (pprev b) as [q|] eqn:Eq; [|by eexists]. destruct (Hheap tip b Hb) as [Hpar _]. rewrite Eq in Hpar. destruct Hpar as (c & Hc & _).
    rewrite Hc. cbn [mbind res_bind]. by eexists. }
  cbn [mbind res_bind]. eexists. split; [done|]. destruct Hst as [H1 H2 H3 H4 H5 H6]. split; try done.
  - intros h' l. cbn [with_diffs with_lists mnListsCache]. rewrite map_lookup_filter_Some. intros [Hh _]. by apply H1.
  - intros p b d height Hp. cbn [with_diffs with_lists mnListDiffsCache]. rewrite map_lookup_filter_Some. intros [Hd _]. by apply (H3 p b d height).
Qed.

Lemma forget_stored G m hash : stored t G m -> stored t G (with_diffs (with_lists m (delete hash (mnListsCache m))) (delete hash (mnListDiffsCache m))).
Proof.
  intros [H1 H2 H3 H4 H5 H6]. split; try done.
  - intros h' l. cbn [with_diffs with_lists mnListsCache]. intros [_ Hh]%lookup_delete_Some. by apply H1.
  - intros p b d height Hp. cbn [with_diffs with_lists mnListDiffsCache]. intros [_ Hd]%lookup_delete_Some. by apply (H3 p b d height).
Qed.

Lemma UndoBlock_stored G m block p b : stored t G m -> t !! p = Some b -> is_Some (pprev b) -> exists m', UndoBlock llmqs t m block p = Ok m' /\ stored t G m'.
Proof.
  intros Hst Hp [q Hq]. unfold UndoBlock, deref at 1. rewrite Hp. cbn [total mbind res_bind]. case_match; cbn [fst snd mbind res_bind].
  2: { eexists. split; [done|]. by apply forget_stored. }
  rewrite Hq. destruct (Hheap p b Hp) as [Hpar _]. rewrite Hq in Hpar. destruct Hpar as (c & Hc & _).
  destruct (GetListForBlock_spec llmqs t G m p b Hheap Hst Hp) as (l & m1 & -> & (Hl & _) & Hst1 & _). cbn [mbind res_bind].
  destruct (GetListForBlock_spec llmqs t G m1 q c Hheap Hst1 Hc) as (l2 & m2 & -> & (Hl2 & _) & Hst2 & _). cbn [mbind res_bind fst snd].
  destruct (BuildDiff_spec l l2 Hl Hl2) as (d & -> & _). cbn [throws mbind res_bind]. eexists. split; [done|]. by apply forget_stored.
Qed.

(** C19: GetListForBlock gives the masternodes that the block made, whether its list is in memory, on disk as a
    snapshot, or has to be rebuilt from the differences of the blocks since one: it never fails, and it
    gives the same masternodes after old entries were cleaned up, after a block was undone, and after the tip moved. *)
Theorem GetListForBlock_refines (G : list Z -> MnMap * Z) (m : CDeterministicMNManager) (p : ptr) (b : CBlockIndex)
    (Hst : stored t G m) (Hp : t !! p = Some b) :
  let gives m := exists l m', GetListForBlock llmqs t m p = Ok (l, m') /\ mnMap l = (G (Chain.blockHash b)).1 /\ blockHash l = Chain.blockHash b in
  gives m /\
  (forall h, exists m', CleanupCache llmqs t m h = Ok m' /\ gives m') /\
  (forall block p' b', t !! p' = Some b' -> is_Some (pprev b') -> exists m', UndoBlock llmqs t m block p' = Ok m' /\ gives m') /\
  (forall tip bt, t !! tip = Some bt -> gives (UpdatedBlockTip m (Some tip))).
Proof.
  intros gives. assert (forall m, stored t G m -> gives m) as Hgives.
  { intros m0 Hst0. destruct (GetListForBlock_spec llmqs t G m0 p b Hheap Hst0 Hp) as (l & m' & Hg & (_ & _ & Hm & Hh & _) & _). by exists l, m'. }
  split_and!; [by apply Hgives|intros h|intros block p' b' Hp' Hq|intros tip bt Htip].
  - destruct (CleanupCache_stored G m h Hst) as (m' & Hc & Hst'). exists m'. split; [done|]. by apply Hgives.
  - destruct (UndoBlock_stored G m block p' b' Hst Hp' Hq) as (m' & Hu & Hst'). exists m'. split; [done|]. by apply Hgives.
  - apply Hgives. destruct Hst as [H1 H2 H3 H4 H5 H6]. split; try done. cbn. intros tip' [= <-]. by eexists.
Qed.

(** What connecting a block leaves, and from which list it started. *)
Lemma ProcessBlock_spec G m m' block p q index c :
  stored t G m -> untouched m (Chain.blockHash index) -> t !! p = Some index -> pprev index = Some q -> t !! q = Some c ->
  header_GetHash (header block) = Chain.blockHash index -> DIP0003Height params <= Chain.nHeight index -> (G (Chain.blockHash c)).2 + zlen (visited_txs block) < 2 ^ 32 ->
  (forall l, ok_list G (Chain.blockHash c) l -> block_checked params view_GetCoin l env signed_message (Chain.nHeight c) block) ->
  ProcessBlock params llmqs t view_GetCoin GetAllQuorumMembers m block p false = Ok m' ->
  exists old newList, ok_list G (Chain.blockHash c) old /\
    BuildNewList params llmqs t view_GetCoin GetAllQuorumMembers block q old = Ok newList /\
    stored t (world_insert G (Chain.blockHash index) (mnMap newList, (G (Chain.blockHash c)).2 + zlen (visited_txs block))) m' /\
    exists m1 old2 m2, GetListForBlock llmqs t m q = Ok (old, m1) /\ GetListForBlock llmqs t m1 q = Ok (old2, m2) /\ same_but (Chain.blockHash index) m2 m'.
Proof.
  intros Hst Hun Hp Hq Hc Hhash Hdip3 Hbound Hchecked Hprocess.
  unfold ProcessBlock, deref in Hprocess. rewrite Hp in Hprocess. cbn [call mbind res_bind] in Hprocess.
  rewrite (proj2 (Z.leb_le _ _) Hdip3) in Hprocess. cbn [negb] in Hprocess.
  destruct (process_block_try _ _ _ _ _ m block index false) as [m1|[e|e]|] eqn:Etry; try done.
  destruct (process_block_try_spec G m block p index q c m1 Hst Hun Hp Hq Hc Hhash Hbound Hchecked Etry) as (old & newList & Hold & Hnew & Hst1 & Hreads).
  exists old, newList. case_match; [done|]. injection Hprocess as <-. case_match; split_and!; try done. by destruct Hst1.
Qed.

(** The lists that are read from then on. *)
Lemma stored_reads G m p index x p' b' : stored t (world_insert G (Chain.blockHash index) x) m -> t !! p = Some index -> t !! p' = Some b' ->
  exists l m', GetListForBlock llmqs t m p' = Ok (l, m') /\ blockHash l = Chain.blockHash b' /\ mnMap l = if decide (p' = p) then x.1 else (G (Chain.blockHash b')).1.
Proof.
  intros Hst Hp Hp'. destruct (GetListForBlock_spec llmqs t _ m p' b' Hheap Hst Hp') as (l & m2 & Hg & (_ & _ & Hm & Hh & _) & _). exists l, m2. split_and!; [done..|].
  rewrite Hm. unfold world_insert. destruct (decide (p' = p)) as [->|Hne].
  - assert (b' = index) as -> by congruence. by rewrite decide_True.
  - rewrite decide_False; [done|]. intros He. by apply Hne, (Huniq p' p b' index).
Qed.

(** C17: processing a new block stores the list that the block makes from the one before it: afterwards
    GetListForBlock gives the masternodes of that list for the block, and for every other block those it gave before. *)
Theorem ProcessBlock_refines (G : list Z -> MnMap * Z) (m m' : CDeterministicMNManager) (block : CBlock) (p q : ptr) (index c : CBlockIndex)
    (Hst : stored t G m) (Hun : untouched m (Chain.blockHash index)) (Hp : t !! p = Some index) (Hq : pprev index = Some q) (Hc : t !! q = Some c)
    (Hhash : header_GetHash (header block) = Chain.blockHash index) (Hdip3 : DIP0003Height params <= Chain.nHeight index)
    (Hbound : (G (Chain.blockHash c)).2 + zlen (visited_txs block) < 2 ^ 32)
    (Hchecked : forall l, ok_list G (Chain.blockHash c) l -> block_checked params view_GetCoin l env signed_message (Chain.nHeight c) block)
    (Hprocess : ProcessBlock params llmqs t view_GetCoin GetAllQuorumMembers m block p false = Ok m') :
  exists old newList, ok_list G (Chain.blockHash c) old /\
    BuildNewList params llmqs t view_GetCoin GetAllQuorumMembers block q old = Ok newList /\
    forall p' b', t !! p' = Some b' -> exists l m'', GetListForBlock llmqs t m' p' = Ok (l, m'') /\ blockHash l = Chain.blockHash b' /\
      mnMap l = if decide (p' = p) then mnMap newList else (G (Chain.blockHash b')).1.
Proof.
  destruct (ProcessBlock_spec G m m' block p q index c Hst Hun Hp Hq Hc Hhash Hdip3 Hbound Hchecked Hprocess) as (old & newList & Hold & Hnew & Hst' & _).
  exists old, newList. split_and!; [done..|]. intros p' b' Hp'. by apply (stored_reads G m' p index _ p' b' Hst').
Qed.

End processing.

(** ** A block that registers a masternode and spends the collateral of another *)

#[local] Existing Instance plain_crypto.
#[local] Existing Instance plain_bls.

Definition evo_params : EvoParams := MkEvoParams false false false 63636 0 0 null_hash 1.

Definition spends (hash : list Z) : CTxIn := MkTxIn (MkOutPoint hash 0) [] 0xffffffff.
Definition register_inputs : list CTxIn := [spends (replicate 32 90)].
Definition new_reg : CProRegTx :=
  MkProRegTx 1 0 0 (MkOutPoint null_hash 0) (MkService (MkNetAddr NET_IPV4 [5; 6; 7; 8]) 30000) (replicate 20 1) sample_key (replicate 20 1) 500 sample_payout
    (CalcTxInputsHash (MkTransaction register_inputs [] 3 1 0 0 [])) [].
Definition register_tx : CTransaction :=
  MkTransaction register_inputs [MkTxOut MASTERNODE_COLLATERAL_AMOUNT (GetScriptForDestination (CKeyID (replicate 20 8)))] 3 TRANSACTION_PROVIDER_REGISTER 0 0
    (match ser_ProRegTx false new_reg with Ok s => s | _ => [] end).
Definition spend_tx : CTransaction := MkTransaction [spends (replicate 32 20)] [] 1 0 0 0 [].
Definition evo_block : CBlock :=
  MkBlock (MkHeader 4 (replicate 32 1) (replicate 32 2) 3 4 5 null_hash 0 [] 0) [MkTransaction [] [] 1 0 0 0 []; register_tx; spend_tx] [].

Definition evo_heap : heap :=
  [MkIndex (replicate 32 1) None None 0 (replicate 8 0) 5 0 0 (header sample_block);
   MkIndex (header_GetHash (header evo_block)) (Some 0%nat) None 1 (replicate 8 0) 5 0 0 (header evo_block)].
Definition evo_env : pos_env := MkPosEnv [] (fun _ => None) None 0 (MkPowParams [] [] 0 0 0 false false 0 0 0 0 0) (fun _ _ _ _ => None).
Definition evo_manager : CDeterministicMNManager := MkMNManager ∅ ∅ {[ replicate 32 1 := sample_list ]} ∅ None 0 0.
Definition evo_world (h : list Z) : MnMap * Z := if decide (h = replicate 32 1) then (mnMap sample_list, 3) else (∅, 0).

Definition evo_newList : CDeterministicMNList :=
  match BuildNewList evo_params [] evo_heap (fun _ => None) (fun _ _ => []) evo_block 0%nat sample_list with Ok l => l | _ => sample_list end.

Lemma evo_built : BuildNewList evo_params [] evo_heap (fun _ => None) (fun _ _ => []) evo_block 0%nat sample_list = Ok evo_newList.
Proof. vm_compute. reflexivity. Qed.

Lemma evo_newList_ids : omap (fun id => internalId <$> GetMNByInternalId evo_newList id) [0; 1; 2; 3; 4] = [1; 2; 3].
Proof. vm_compute. reflexivity. Qed.

Lemma evo_payload : GetTxPayload TRANSACTION_PROVIDER_REGISTER unser_ProRegTx register_tx = Ok new_reg.
Proof. vm_compute. reflexivity. Qed.

Lemma sample_ids_below : ids_below sample_list.
Proof.
  split; [vm_compute; split; [discriminate|reflexivity]|]. apply (bool_decide_unpack (map_Forall (fun _ m => internalId m < nTotalRegisteredCount sample_list) (mnMap sample_list))).
  vm_compute. exact I.
Qed.

(** The checks depend on the masternodes and their properties only. *)
Lemma evo_checked l : list_wf l -> mnMap l = mnMap sample_list -> block_checked evo_params (fun _ => None) l evo_env (fun _ => []) 0 evo_block.
Proof.
  intros Hw Hm. destruct (wf_det l sample_list Hw (reachable_wf _ sample_list_reachable) Hm) as [_ Hu].
  split; (change (visited_txs evo_block) with [register_tx; spend_tx]; apply Forall_cons; split; [|apply Forall_singleton]).
  - split; [rewrite Hm; vm_compute; reflexivity|]. intros ptx k m Hp. rewrite evo_payload in Hp. injection Hp as <-. rewrite Hm.
    revert k m. refine (bool_decide_unpack (map_Forall (fun _ m => pcount (addr (pdmnState m)) (SerializeHash (collateral_of register_tx new_reg)) = 0 /\
      pcount (keyIDOwner (pdmnState m)) (SerializeHash (collateral_of register_tx new_reg)) = 0 /\ pcount (pubKeyOperator (pdmnState m)) (SerializeHash (collateral_of register_tx new_reg)) = 0) (mnMap sample_list)) _).
    vm_compute. exact I.
  - split; [rewrite Hm; vm_compute; reflexivity|]. intros ptx k m Hp. vm_compute in Hp. discriminate.
  - intros _. split; [intros _; exists true|split_and!; intros He; vm_compute in He; discriminate].
    unfold CheckProRegTx, HasUniqueProperty, GetUniquePropertyMN, GetMN. rewrite Hm, Hu. vm_compute. reflexivity.
  - intros He. vm_compute in He. discriminate.
Qed.

Lemma evo_heap_lookup (P : ptr -> CBlockIndex -> Prop) p b :
  (forall b, evo_heap !! 0%nat = Some b -> P 0%nat b) -> (forall b, evo_heap !! 1%nat = Some b -> P 1%nat b) -> evo_heap !! p = Some b -> P p b.
Proof. destruct p as [|[|p]]; [auto..|done]. Qed.

Lemma evo_heap_wf : heap_wf evo_heap.
Proof.
  intros p b. apply (evo_heap_lookup (entry_wf evo_heap)); intros b0 [= <-]; (split; [|split; [vm_compute; discriminate|done]]);
    [reflexivity|eexists; split; [reflexivity|split; [lia|reflexivity]]].
Qed.

Lemma evo_hashes_unique : hashes_unique evo_heap.
Proof.
  intros p p' b b'. destruct p as [|[|p]], p' as [|[|p']]; try done; intros [= <-] [= <-] He; vm_compute in He; discriminate.
Qed.

Lemma evo_stored : stored evo_heap evo_world evo_manager.
Proof.
  split; try (intros; done).
  - intros h l. cbn [evo_manager db_snapshots]. intros [<- <-]%lookup_singleton_Some. unfold ok_list, evo_world. rewrite decide_True by done.
    split_and!; [apply reachable_wf, sample_list_reachable|apply sample_ids_below|done|vm_compute; reflexivity|vm_compute; discriminate].
  - intros p b Hp. cbn [evo_manager db_snapshots]. intros Hn%lookup_singleton_None _. unfold evo_world. by rewrite decide_False.
Qed.

Lemma BuildNewList_stored_witness :
  omap (fun id => internalId <$> GetMNByInternalId evo_newList id) [0; 1; 2; 3; 4] = [1; 2; 3] /\
  exists d l, BuildDiff sample_list evo_newList = Ok d /\ ApplyDiff sample_list (replicate 32 2) 1 d = Ok l /\ mnMap l = mnMap evo_newList.
Proof.
  split; [exact evo_newList_ids|].
  destruct (BuildNewList_stored evo_params [] evo_heap (fun _ => None) (fun _ _ => []) evo_env (fun _ => []) sample_list evo_newList evo_block 0%nat
    (MkIndex (replicate 32 1) None None 0 (replicate 8 0) 5 0 0 (header sample_block)) (replicate 32 2) 1
    (reachable_wf _ sample_list_reachable) sample_ids_below ltac:(vm_compute; reflexivity)
    (evo_checked sample_list (reachable_wf _ sample_list_reachable) eq_refl) eq_refl evo_built) as [(d & l & Hd & Ha & Hm & _) _].
  exists d, l. split; [exact Hd|split; [exact Ha|exact Hm]].
Defined.

Lemma GetListForBlock_refines_witness :
  exists l m', GetListForBlock [] evo_heap evo_manager 0%nat = Ok (l, m') /\ mnMap l = mnMap sample_list.
Proof.
  destruct (GetListForBlock_refines [] evo_heap evo_heap_wf evo_world evo_manager 0%nat
    (MkIndex (replicate 32 1) None None 0 (replicate 8 0) 5 0 0 (header sample_block)) evo_stored eq_refl) as [(l & m' & Hg & Hl & _) _].
  exists l, m'. split; [exact Hg|exact Hl].
Defined.

Definition evo_after : CDeterministicMNManager :=
  match ProcessBlock evo_params [] evo_heap (fun _ => None) (fun _ _ => []) evo_manager evo_block 1%nat false with Ok m => m | _ => evo_manager end.

Lemma evo_processed : ProcessBlock evo_params [] evo_heap (fun _ => None) (fun _ _ => []) evo_manager evo_block 1%nat false = Ok evo_after.
Proof. vm_compute. reflexivity. Qed.

Lemma evo_untouched : untouched evo_heap evo_manager (header_GetHash (header evo_block)).
Proof. split; [reflexivity|vm_compute; reflexivity|]. intros p b _ _. split; reflexivity. Qed.

Lemma ProcessBlock_refines_witness :
  exists old newList, mnMap old = mnMap sample_list /\
    BuildNewList evo_params [] evo_heap (fun _ => None) (fun _ _ => []) evo_block 0%nat old = Ok newList /\
    exists l m'', GetListForBlock [] evo_heap evo_after 1%nat = Ok (l, m'') /\ mnMap l = mnMap newList.
Proof.
  destruct (ProcessBlock_refines evo_params [] evo_heap (fun _ => None) (fun _ _ => []) evo_env (fun _ => []) evo_heap_wf evo_hashes_unique evo_world evo_manager evo_after evo_block
    1%nat 0%nat (MkIndex (header_GetHash (header evo_block)) (Some 0%nat) None 1 (replicate 8 0) 5 0 0 (header evo_block))
    (MkIndex (replicate 32 1) None None 0 (replicate 8 0) 5 0 0 (header sample_block)) evo_stored evo_untouched eq_refl eq_refl eq_refl eq_refl
    ltac:(vm_compute; discriminate) ltac:(vm_compute; reflexivity)
    (fun l Hl => evo_checked l (proj1 Hl) (proj1 (proj2 (proj2 Hl)))) evo_processed) as (old & newList & Ho & Hb & Hg).
  exists old, newList. split; [exact (proj1 (proj2 (proj2 Ho)))|]. split; [exact Hb|].
  destruct (Hg 1%nat _ eq_refl) as (l & m'' & Hl & _ & Hm). exists l, m''. split; [exact Hl|exact Hm].
Defined.

(** ** Behaviours that differ from what the comments of the source say *)

(** The coinstake of a proof-of-stake block is skipped as a marker, though it spends coins: a masternode whose
    collateral is staked stays in the list. *)
Lemma coinstake_keeps_masternode {crypto : CryptoOps} {bls : BLSOps} params llmqs t view_GetCoin GetAllQuorumMembers old block coinbase coinstake pindexPrev prev k m :
  list_wf old -> ids_below old -> t !! pindexPrev = Some prev ->
  header_IsProofOfStake (header block) = true -> vtx block = [coinbase; coinstake] ->
  mnMap old !! k = Some m -> collateralOutpoint m ∈ map prevout (vin coinstake) ->
  exists newList, BuildNewList params llmqs t view_GetCoin GetAllQuorumMembers block pindexPrev old = Ok newList /\ HasMN newList k = true.
Proof.
  intros Hw Hb Hp Hpos Hv Hm _. destruct (BuildNewList_quiet params llmqs t view_GetCoin GetAllQuorumMembers old 0 Hw block pindexPrev prev Hb Hp) as (l & Hl & _ & _ & _ & _ & Hmap).
  { unfold quiet_block, visited_txs. rewrite Hpos, Hv. cbn. split; [constructor|]. intros k' m' _. apply not_elem_of_nil. }
  exists l. split; [done|]. unfold HasMN, GetMN. apply bool_decide_eq_true_2. rewrite Hmap. case_match; rewrite ?lookup_alter_is_Some, lookup_fmap, Hm; by eexists.
Qed.

(** A commitment of an unknown type, or with fewer bits than the quorum has members, stops the node before
    either is rejected. *)
Definition commitment_tx : CTransaction :=
  SetTxPayload (special_tx TRANSACTION_QUORUM_COMMITMENT) (ser_CommitmentPayload sample_commitment).

Lemma CheckLLMQCommitment_aborts :
  CheckLLMQCommitment [] evo_heap (fun _ _ => false) (fun _ _ => []) commitment_tx 0%nat = Abort /\
  CheckLLMQCommitment [MkLLMQParams 103 50 40 24 5] evo_heap (fun _ _ => false) (fun _ _ => []) commitment_tx 0%nat = Abort.
Proof. vm_compute. split; reflexivity. Qed.

(** With a hundred masternodes, three failures within the hundred blocks of a payment cycle leave a penalty of
    99, and the masternode is not banned. *)
Definition fail_dkg (k : list Z) (l : CDeterministicMNList) : res mn_error CDeterministicMNList :=
  penalty ← CalcPenalty l 66; PoSePunish l k penalty.
Definition pass_blocks (n : nat) (l : CDeterministicMNList) : res mn_error CDeterministicMNList :=
  Nat.iter n (fun r => l ← r; DecreasePoSePenalties l) (Ok l).

(** A masternode that is not banned has this penalty in a list of a hundred. *)
Definition standing (k : list Z) (p : Z) (l : CDeterministicMNList) : Prop :=
  list_wf l /\ GetAllMNsCount l = 100 /\ exists m, mnMap l !! k = Some m /\ IsMNValid m = true /\ nPoSePenalty (pdmnState m) = p.

Lemma standing_fail k p l : standing k p l -> 0 <= p < 34 -> exists l', fail_dkg k l = Ok l' /\ standing k (p + 66) l'.
Proof.
  intros (Hw & Hn & m & Hm & Hv & <-) Hp. unfold fail_dkg, CalcPenalty, CalcMaxPoSePenalty. rewrite Hn. change (s32 100) with 100. cbn [Z.max Z.ltb mbind res_bind].
  destruct (PoSePunish_spec l k 66 m Hw ltac:(lia) Hm) as (l' & Hl' & Hw' & He). exists l'. split; [exact Hl'|]. subst l'. split; [done|].
  cbn [with_maps mnMap]. split; [unfold GetAllMNsCount in *; cbn [with_maps mnMap]; rewrite map_size_insert_Some by done; done|].
  eexists. rewrite lookup_insert_eq. split; [reflexivity|]. cbn [with_state pdmnState]. unfold punished, CalcMaxPoSePenalty. rewrite Hn.
  change (s32 100) with 100. rewrite s32_small by lia. cbn [Z.max Z.compare with_nPoSePenalty with_heights nPoSePenalty].
  cbn. rewrite Z.min_r by lia. rewrite (proj2 (Z.leb_gt _ _)) by lia. done.
Qed.

Lemma standing_pass k n p l : standing k p l -> Z.of_nat n <= p -> exists l', pass_blocks n l = Ok l' /\ standing k (p - Z.of_nat n) l'.
Proof.
  intros Hst. induction n as [|n IH]; intros Hn; [exists l; split; [done|by rewrite Z.sub_0_r]|].
  destruct IH as (l1 & Hl1 & Hw & Hc & m & Hm & Hv & Hp); [lia|]. destruct (DecreasePoSePenalties_effect l1 Hw) as (l2 & Hl2 & Hw2 & He).
  exists l2. split; [unfold pass_blocks in *; cbn [Nat.iter nat_rect]; change (nat_rect _ _ _ n) with (Nat.iter n (fun r => l ← r; DecreasePoSePenalties l) (Ok l)); rewrite Hl1; exact Hl2|].
  subst l2. split; [done|]. unfold GetAllMNsCount in *. cbn [with_maps mnMap]. rewrite map_size_fmap. split; [done|].
  exists (decreased m). rewrite lookup_fmap, Hm. split; [done|]. unfold IsMNValid, IsMNPoSeBanned in *. unfold decreased.
  rewrite Hv, (proj2 (Z.ltb_lt _ _)) by lia. cbn [andb with_state pdmnState]. split; [done|]. cbn. lia.
Qed.

Lemma three_failures_unbanned k l : standing k 0 l ->
  exists l', (l ← fail_dkg k l; l ← pass_blocks 50 l; l ← fail_dkg k l; l ← pass_blocks 49 l; fail_dkg k l) = Ok l' /\ standing k 99 l'.
Proof.
  intros H0. destruct (standing_fail _ _ _ H0) as (l1 & -> & H1); [lia|]. cbn [mbind res_bind].
  destruct (standing_pass k 50 _ _ H1) as (l2 & -> & H2); [lia|]. cbn [mbind res_bind].
  destruct (standing_fail _ _ _ H2) as (l3 & -> & H3); [lia|]. cbn [mbind res_bind].
  destruct (standing_pass k 49 _ _ H3) as (l4 & -> & H4); [lia|]. cbn [mbind res_bind].
  destruct (standing_fail _ _ _ H4) as (l5 & -> & H5); [lia|]. by exists l5.
Qed.
