(* ===== verification/MasternodeSchedule.v ===== *)
(** * The order in which masternodes are paid

    Over the payee of src/src/evo/deterministicmns.cpp: CompareByLastPaid is a strict order, GetMNPayee returns
    its least masternode whatever the order of the map, and a run of blocks without special transactions
    pays the masternodes that GetProjectedMNPayees lists, in that order, each of them once in a cycle. *)

From stdpp Require Import base list numbers gmap sorting.
From S2P Require Import Prelude Script Crypto Standard Serialize Transaction Coin Coins Block Chain ChainSpec Pow PosKernel NetAddress Masternodes MasternodesSpec MasternodesDiff ProviderTx MasternodeManager MasternodeManagerSpec.

Open Scope Z_scope.

(** ** memcmp *)

Lemma memcmp_flip a b : memcmp b a = - memcmp a b.
Proof. revert b; induction a as [|x a IH]; intros [|y b]; cbn [memcmp]; try done. rewrite IH. repeat case_bool; lia. Qed.

Lemma memcmp_zero a b : length a = length b -> memcmp a b = 0 -> a = b.
Proof.
  revert b; induction a as [|x a IH]; intros [|y b] Hl; cbn [memcmp]; try done. repeat case_bool; try lia. intros H.
  f_equal; [lia|]. apply IH; [by injection Hl|done].
Qed.

Lemma memcmp_trans a b c : length a = length b -> length b = length c -> memcmp a b < 0 -> memcmp b c < 0 -> memcmp a c < 0.
Proof.
  revert b c; induction a as [|x a IH]; intros [|y b] [|z c] H1 H2; cbn [memcmp]; try done. injection H1 as H1. injection H2 as H2.
  specialize (IH b c H1 H2). repeat case_bool; bprop; try lia.
Qed.

(** ** The order of the payees *)

(** What the order looks at: the height a masternode waits since, and its hash. *)
Definition turn (m : CDeterministicMN) : Z * list Z := (CompareByLastPaid_GetHeight m, proTxHash m).
Definition turn_lt (a b : Z * list Z) : Prop := a.1 < b.1 \/ a.1 = b.1 /\ memcmp a.2 b.2 < 0.

Lemma CompareByLastPaid_spec a b : CompareByLastPaid a b = true <-> turn_lt (turn a) (turn b).
Proof. unfold CompareByLastPaid, turn_lt, turn. cbn [fst snd]. destruct (Z.eqb_spec (CompareByLastPaid_GetHeight a) (CompareByLastPaid_GetHeight b)); rewrite Z.ltb_lt; lia. Qed.

Lemma turn_lt_trans a b c : length a.2 = 32%nat -> length b.2 = 32%nat -> length c.2 = 32%nat -> turn_lt a b -> turn_lt b c -> turn_lt a c.
Proof.
  intros Ha Hb Hc [H1|[H1 H1']] [H2|[H2 H2']]; [left; lia..|]. right. split; [lia|]. eapply memcmp_trans; [..|exact H1'|exact H2']; congruence.
Qed.

Lemma turn_lt_irrefl a : ~ turn_lt a a.
Proof. intros [H|[_ H]]; [lia|]. pose proof (memcmp_flip a.2 a.2). lia. Qed.

Lemma turn_lt_total a b : length a.2 = 32%nat -> length b.2 = 32%nat -> turn_lt a b \/ a = b \/ turn_lt b a.
Proof.
  intros Ha Hb. unfold turn_lt. destruct a as [h k], b as [h' k']. cbn [fst snd] in *. pose proof (memcmp_flip k k').
  destruct (Z.lt_trichotomy h h') as [?|[->|?]]; [by left; left| |by right; right; left].
  destruct (Z.lt_trichotomy (memcmp k k') 0) as [?|[He|?]]; [by left; right| |right; right; right; lia].
  right. left. by rewrite (memcmp_zero k k') by congruence.
Qed.

(** [x] comes before every element of the list but itself. *)
Definition first_turn (x : Z * list Z) (l : list (Z * list Z)) : Prop := x ∈ l /\ forall y, y ∈ l -> y <> x -> turn_lt x y.

Lemma first_turn_unique x y l : Forall (fun a => length a.2 = 32%nat) l -> first_turn x l -> first_turn y l -> x = y.
Proof.
  intros Hf [Hx Hx'] [Hy Hy']. destruct (decide (x = y)) as [|Hne]; [done|]. rewrite Forall_forall in Hf. exfalso. apply (turn_lt_irrefl x).
  apply (turn_lt_trans x y x); [by apply Hf..|by apply Hx'; [|congruence]|by apply Hy'].
Qed.

(** The search keeps the first of what it has seen. *)
Lemma best_payee_loop ms best seen :
  Forall (fun m => length (proTxHash m) = 32%nat) (seen ++ ms) -> first_turn (turn best) (map turn seen) ->
  best ∈ seen -> exists b, foldl best_payee (Some best) ms = Some b /\ b ∈ seen ++ ms /\ first_turn (turn b) (map turn (seen ++ ms)).
Proof.
  revert best seen; induction ms as [|m ms IH]; intros best seen Hf Hb Hin; cbn [foldl best_payee]; [exists best; by rewrite app_nil_r|].
  change (m :: ms) with ([m] ++ ms) in *. rewrite app_assoc in *. assert (Hf' := Hf). apply Forall_app in Hf' as [Hf' _].
  assert (forall x, x ∈ seen ++ [m] -> length (turn x).2 = 32%nat) as Hlen by (by apply Forall_forall).
  destruct Hb as [Hb1 Hb2].
  assert (forall m', m' ∈ seen -> turn m' = turn best \/ turn_lt (turn best) (turn m')) as Hle.
  { intros m' Hm'. destruct (decide (turn m' = turn best)); [by left|right]. apply Hb2; [by apply list_elem_of_fmap_2|done]. }
  destruct (CompareByLastPaid m best) eqn:E; apply IH; [done| |set_solver|done| |set_solver].
  - apply CompareByLastPaid_spec in E. split; [apply list_elem_of_fmap_2; set_solver|]. intros y (m' & -> & [Hm'| ->%list_elem_of_singleton]%elem_of_app)%list_elem_of_fmap Hne; [|done].
    destruct (Hle m' Hm') as [->|Hlt]; [done|]. eapply turn_lt_trans; [..|exact E|exact Hlt]; apply Hlen; set_solver.
  - split; [apply list_elem_of_fmap_2; set_solver|]. intros y (m' & -> & [Hm'| ->%list_elem_of_singleton]%elem_of_app)%list_elem_of_fmap Hne; [by destruct (Hle m' Hm')|].
    destruct (turn_lt_total (turn m) (turn best)) as [Hc|[Hc|Hc]]; [apply Hlen; set_solver..| |done|done].
    apply CompareByLastPaid_spec in Hc. congruence.
Qed.

(** The payee is the first of the valid masternodes. *)
Lemma GetMNPayee_first l :
  Forall (fun m => length (proTxHash m) = 32%nat) (ForEachMN l true) -> ForEachMN l true <> [] ->
  exists b, GetMNPayee l = Some b /\ b ∈ ForEachMN l true /\ first_turn (turn b) (map turn (ForEachMN l true)).
Proof.
  intros Hf Hne. unfold GetMNPayee. case_bool_decide as Hs.
  { destruct Hne. unfold ForEachMN. apply map_size_empty_inv in Hs. rewrite Hs. done. }
  destruct (ForEachMN l true) as [|m ms] eqn:E; [done|]. cbn [foldl best_payee].
  apply (best_payee_loop ms m [m]); [done| |by left]. split; [by left|]. intros y ->%list_elem_of_singleton. done.
Qed.

(** ** A queue *)

(** The turns of the valid masternodes, in the order of the payments. *)
Record queue (h : Z) (q : list (Z * list Z)) (l : CDeterministicMNList) : Prop := {
  qu_turns : map turn (ForEachMN l true) ≡ₚ q;
  qu_sorted : StronglySorted turn_lt q;
  qu_past : Forall (fun x => x.1 <= h) q
}.

(** A list between blocks at height [h]: no masternode was registered, paid or revived later. *)
Record schedule_ok {crypto : CryptoOps} (h : Z) (l : CDeterministicMNList) : Prop := {
  so_wf : list_wf l;
  so_below : ids_below l;
  so_count : GetValidMNsCount l < 2 ^ 31;
  so_height : 0 <= h;
  so_mns k m : mnMap l !! k = Some m -> length (proTxHash m) = 32%nat /\
    nRegisteredHeight (pdmnState m) <= h /\ nLastPaidHeight (pdmnState m) <= h /\ nPoSeRevivedHeight (pdmnState m) <= h
}.

Section schedule.
Context {crypto : CryptoOps} {bls : BLSOps} (params : EvoParams) (llmqs : list LLMQParams) (t : heap).
Context (view_GetCoin : COutPoint -> option Coin) (GetAllQuorumMembers : Z -> ptr -> list CDeterministicMN).

Lemma elem_of_turns l x : list_wf l ->
  x ∈ map turn (ForEachMN l true) <-> exists m, mnMap l !! x.2 = Some m /\ IsMNValid m = true /\ x = turn m.
Proof.
  intros Hw. rewrite list_elem_of_fmap. split.
  - intros (m & -> & [Hm Hv]%elem_of_ForEachMN); [|done]. exists m. split; [exact Hm|]. split; [by apply Hv|done].
  - intros (m & Hm & Hv & Hx). exists m. split; [done|]. apply elem_of_ForEachMN; [done|]. split; [|done]. by rewrite Hx in Hm.
Qed.

Lemma turns_NoDup l : list_wf l -> NoDup (map turn (ForEachMN l true)).
Proof.
  intros Hw. apply (NoDup_fmap_1 snd). change (NoDup (map snd (map turn (ForEachMN l true)))). rewrite map_map. by apply NoDup_ForEachMN.
Qed.

Lemma schedule_lengths h l : schedule_ok h l -> Forall (fun m => length (proTxHash m) = 32%nat) (ForEachMN l true).
Proof. intros Hs. apply Forall_forall. intros m [Hm _]%elem_of_ForEachMN; [|apply Hs]. by apply (so_mns h l Hs) in Hm as [? _]. Qed.

Lemma sorted_turns ms :
  Forall (fun m => length (proTxHash m) = 32%nat) ms -> NoDup (map turn ms) -> Sorted (not_after CompareByLastPaid) ms -> StronglySorted turn_lt (map turn ms).
Proof.
  intros Hf Hnd Hs. induction Hs as [|m ms Hs IH Hd]; [constructor|]. apply Forall_cons in Hf as [Hm Hf]. apply NoDup_cons in Hnd as [Hni Hnd].
  specialize (IH Hf Hnd). constructor; [done|]. destruct ms as [|b ms]; [constructor|]. cbn [map] in *.
  assert (turn_lt (turn m) (turn b)) as Hlt.
  { inversion Hd as [|?? Hna]; subst. unfold not_after in Hna. apply Forall_cons in Hf as [Hb _].
    destruct (turn_lt_total (turn m) (turn b) Hm Hb) as [?|[He|Hc]]; [done|destruct Hni; rewrite He; by left|]. apply CompareByLastPaid_spec in Hc. congruence. }
  constructor; [done|]. apply StronglySorted_inv in IH as [_ IH]. rewrite Forall_forall in IH |- *. rewrite Forall_forall in Hf.
  intros x Hx. assert (Hx' := Hx). apply list_elem_of_fmap in Hx' as (c & -> & Hc). apply (turn_lt_trans (turn m) (turn b) (turn c)); [exact Hm|apply (Hf b); by left|apply (Hf c); by right|exact Hlt|by apply IH].
Qed.

(** The sorted masternodes are the queue. *)
Lemma schedule_queue h l : schedule_ok h l -> queue h (map turn (std_sort CompareByLastPaid (ForEachMN l true))) l.
Proof.
  intros Hs. assert (ForEachMN l true ≡ₚ std_sort CompareByLastPaid (ForEachMN l true)) as Hp by (symmetry; apply merge_sort_Permutation).
  split; [by apply fmap_Permutation| |].
  - apply sorted_turns; [rewrite <- Hp; by eapply schedule_lengths| |].
    + rewrite <- (fmap_Permutation turn _ _ Hp). apply turns_NoDup, Hs.
    + apply Sorted_merge_sort. intros a b. unfold not_after. destruct (CompareByLastPaid b a) eqn:E1, (CompareByLastPaid a b) eqn:E2; auto.
      apply CompareByLastPaid_spec in E1, E2. exfalso. unfold turn_lt in *. pose proof (memcmp_flip (turn a).2 (turn b).2). lia.
  - apply Forall_forall. intros x (m & -> & Hm)%list_elem_of_fmap. rewrite <- Hp in Hm. apply elem_of_ForEachMN in Hm as [Hm _]; [|apply Hs].
    apply (so_mns h l Hs) in Hm as (_ & ? & ? & ?). unfold turn, CompareByLastPaid_GetHeight. cbn. repeat case_bool; lia.
Qed.

Lemma aged_turn prev m : turn (aged params prev m) = turn m /\ IsMNValid (aged params prev m) = IsMNValid m.
Proof. unfold aged, decreased, confirmed. repeat case_match; done. Qed.

Lemma aged_heights prev m :
  nRegisteredHeight (pdmnState (aged params prev m)) = nRegisteredHeight (pdmnState m) /\ nLastPaidHeight (pdmnState (aged params prev m)) = nLastPaidHeight (pdmnState m) /\
  nPoSeRevivedHeight (pdmnState (aged params prev m)) = nPoSeRevivedHeight (pdmnState m) /\ collateralOutpoint (aged params prev m) = collateralOutpoint m /\
  proTxHash (aged params prev m) = proTxHash m.
Proof. unfold aged, decreased, confirmed. repeat case_match; done. Qed.

(** The masternodes after a quiet block. *)
Definition quiet_map (prev : CBlockIndex) (key : list Z) (m : MnMap) : MnMap := alter (paid (Chain.nHeight prev + 1)) key (aged params prev <$> m).

Lemma quiet_map_lookup prev key m k : quiet_map prev key m !! k =
  (fun x => if decide (k = key) then paid (Chain.nHeight prev + 1) (aged params prev x) else aged params prev x) <$> m !! k.
Proof.
  unfold quiet_map. destruct (decide (k = key)) as [->|Hne].
  - rewrite lookup_alter_eq, lookup_fmap. by destruct (m !! key).
  - rewrite lookup_alter_ne by done. rewrite lookup_fmap. by destruct (m !! k).
Qed.

(** The masternode whose turn it is goes to the end of the queue. *)
Lemma queue_rotates h x q l l' prev :
  schedule_ok h l -> queue h (x :: q) l -> Chain.nHeight prev = h -> list_wf l' -> mnMap l' = quiet_map prev x.2 (mnMap l) ->
  queue (h + 1) (q ++ [(h + 1, x.2)]) l'.
Proof.
  intros Hs [Ht Hsort Hpast] Hh Hw' Hm. assert (Hw := so_wf h l Hs). pose proof (so_height h l Hs) as H0.
  pose proof (turns_NoDup l Hw) as Hnd. assert (Hnd' := Hnd). rewrite Ht in Hnd'. apply NoDup_cons in Hnd' as [Hni Hnd'].
  apply Forall_cons in Hpast as [Hx Hpast].
  assert (forall y, y ∈ x :: q -> exists m, mnMap l !! y.2 = Some m /\ IsMNValid m = true /\ y = turn m) as Hin.
  { intros y Hy. apply elem_of_turns; [done|]. by rewrite Ht. }
  assert (forall y, y ∈ q -> y.2 <> x.2) as Hkeys.
  { intros y Hy He. apply Hni. replace x with y; [done|].
    destruct (Hin y) as (m1 & H1 & _ & E1); [by right|].
    destruct (Hin x) as (m2 & H2 & _ & E2); [by left|]. rewrite He in H1. congruence. }
  split.
  - apply NoDup_Permutation; [by apply turns_NoDup| |].
    { apply NoDup_app. split_and!; [done| |apply NoDup_singleton]. intros y Hy ->%list_elem_of_singleton. by apply (Hkeys _ Hy). }
    intros y. rewrite elem_of_turns by done. rewrite Hm, quiet_map_lookup, elem_of_app, list_elem_of_singleton.
    destruct (Hin x) as (mx & Hmx & Hvx & Ex); [by left|].
    destruct (so_mns h l Hs _ _ Hmx) as (_ & _ & _ & Hrev).
    assert (turn (paid (Chain.nHeight prev + 1) (aged params prev mx)) = (h + 1, x.2)) as Hturn.
    { destruct (aged_heights prev mx) as (_ & _ & Hr & _ & Hk). unfold turn, CompareByLastPaid_GetHeight. cbn [paid with_state pdmnState with_nLastPaidHeight with_heights nLastPaidHeight nPoSeRevivedHeight proTxHash].
      cbn. rewrite Hr, Hh, Hk, Ex. cbn [turn snd]. repeat case_bool; f_equal; lia. }
    destruct (decide (y.2 = x.2)) as [He|Hne].
    + rewrite He, Hmx. cbn [fmap option_fmap option_map]. split.
      * intros (m & [= <-] & _ & ->). right. exact Hturn.
      * intros [Hy| ->]; [by destruct (Hkeys y Hy)|]. eexists. split; [reflexivity|]. split; [|by rewrite Hturn].
        unfold paid, IsMNValid, IsMNPoSeBanned in *. cbn. rewrite <- Hvx. apply (aged_turn prev mx).
    + split.
      * intros (m & (m0 & Hm0 & ->)%fmap_Some & Hv & Hy). left. destruct (aged_turn prev m0) as [E1 E2].
        assert (y ∈ x :: q) as [-> | ?]%elem_of_cons; [|done|done]. rewrite <- Ht. apply elem_of_turns; [done|]. exists m0. split; [done|]. rewrite <- E1, <- E2. done.
      * intros [Hy| ->]; [|done]. destruct (Hin y) as (m0 & Hm0 & Hv & Ey); [by right|].
        exists (aged params prev m0). rewrite Hm0. destruct (aged_turn prev m0) as [E1 E2]. split; [done|]. rewrite E1, E2. done.
  - apply StronglySorted_inv in Hsort as [Hsort _]. apply StronglySorted_app. split_and!; [|done|repeat constructor].
    intros y z Hy ->%list_elem_of_singleton. left. rewrite Forall_forall in Hpast. apply Hpast in Hy. cbn. lia.
  - apply Forall_app. split; [|repeat constructor; cbn; lia]. rewrite Forall_forall in Hpast |- *. intros y Hy%Hpast. lia.
Qed.

(** The payees of a run of blocks, each built on the list of the one before. *)
Fixpoint pay_run (blocks : list (CBlock * ptr)) (l : CDeterministicMNList) : res block_error (list (option (list Z)) * CDeterministicMNList) :=
  match blocks with
  | [] => Ok ([], l)
  | (block, pindexPrev) :: blocks =>
      l' ← BuildNewList params llmqs t view_GetCoin GetAllQuorumMembers block pindexPrev l;
      '(payees, last) ← pay_run blocks l';
      Ok ((proTxHash <$> GetMNPayee l) :: payees, last)
  end.

(** The blocks follow one another from height [h] on. *)
Fixpoint consecutive (h : Z) (blocks : list (CBlock * ptr)) : Prop :=
  match blocks with
  | [] => True
  | (_, p) :: blocks => (exists prev, t !! p = Some prev /\ Chain.nHeight prev = h) /\ consecutive (h + 1) blocks
  end.

(** The head of the queue is paid. *)
Lemma queue_payee h x q l : schedule_ok h l -> queue h (x :: q) l -> exists m, GetMNPayee l = Some m /\ turn m = x.
Proof.
  intros Hs [Ht Hsort _]. pose proof (schedule_lengths h l Hs) as Hlen.
  destruct (GetMNPayee_first l Hlen) as (m & Hm & _ & Hfirst). { intros He. rewrite He in Ht. by apply Permutation_nil_cons in Ht. }
  exists m. split; [done|]. apply (first_turn_unique _ _ (map turn (ForEachMN l true))); [by apply Forall_map|done|].
  apply StronglySorted_inv in Hsort as [_ Hall]. rewrite Forall_forall in Hall. split; [rewrite Ht; by left|].
  intros y Hy Hne. rewrite Ht in Hy. apply elem_of_cons in Hy as [-> | Hy]; [done|by apply Hall].
Qed.

(** A quiet block: the head is paid and the queue rotates. *)
Lemma quiet_step h x q l block p prev :
  schedule_ok h l -> queue h (x :: q) l -> t !! p = Some prev -> Chain.nHeight prev = h -> quiet_block l block ->
  exists l', BuildNewList params llmqs t view_GetCoin GetAllQuorumMembers block p l = Ok l' /\
    proTxHash <$> GetMNPayee l = Some x.2 /\ schedule_ok (h + 1) l' /\ queue (h + 1) (q ++ [(h + 1, x.2)]) l' /\
    (forall block', quiet_block l block' -> quiet_block l' block').
Proof.
  intros Hs Hq Hp Hh Hb. destruct (queue_payee h x q l Hs Hq) as (m & Hm & Hx).
  destruct (BuildNewList_quiet params llmqs t view_GetCoin GetAllQuorumMembers l 0 (so_wf h l Hs) block p prev (so_below h l Hs) Hp Hb) as (l' & Hl & Hw & Hbel & _ & _ & Hmap).
  rewrite Hm in Hmap. assert (proTxHash m = x.2) as Hk by (by rewrite <- Hx). rewrite Hk in Hmap. fold (quiet_map prev x.2 (mnMap l)) in Hmap.
  assert (Hq' := queue_rotates h x q l l' prev Hs Hq Hh Hw Hmap). exists l'. split_and!; [done|by rewrite Hm; cbn; rewrite Hk| |done|].
  - split; [done|done| |pose proof (so_height h l Hs); lia|].
    + pose proof (so_count h l Hs) as Hc. unfold GetValidMNsCount, zlen in *. rewrite <- (length_map turn) in Hc |- *.
      rewrite (Permutation_length (qu_turns _ _ _ Hq)) in Hc. rewrite (Permutation_length (qu_turns _ _ _ Hq')). rewrite length_app. cbn in *. lia.
    + intros k m'. rewrite Hmap, quiet_map_lookup. intros (m0 & Hm0 & ->)%fmap_Some. destruct (so_mns h l Hs _ _ Hm0) as (H1 & H2 & H3 & H4).
      destruct (aged_heights prev m0) as (E1 & E2 & E3 & _ & E5). case_decide; cbn; rewrite ?E1, ?E2, ?E3, ?E5; split_and!; [done|lia..|done|lia|lia|lia].
  - intros block' [Hv Hcol]. split; [done|]. intros k m'. rewrite Hmap, quiet_map_lookup. intros (m0 & Hm0 & ->)%fmap_Some.
    destruct (aged_heights prev m0) as (_ & _ & _ & E4 & _). specialize (Hcol k m0 Hm0). case_decide; cbn; by rewrite E4.
Qed.

Lemma rotate_lookup {A} (x : A) q i : (q ++ [x]) !! (i mod S (length q))%nat = (x :: q) !! (S i mod S (length q))%nat.
Proof.
  set (n := length q). pose proof (Nat.mod_upper_bound i (S n) ltac:(lia)) as Hr. pose proof (Nat.div_mod i (S n) ltac:(lia)) as Hd.
  set (r := (i mod S n)%nat) in *. destruct (decide (r = n)) as [He|Hne].
  - assert (S i mod S n = 0)%nat as -> by (apply (Nat.Div0.mod_divides); exists (S (i / S n))%nat; lia).
    rewrite He. by rewrite list_lookup_middle by done.
  - assert (S i mod S n = S r)%nat as -> by (symmetry; apply (Nat.mod_unique _ _ (i / S n)); lia). cbn [lookup list_lookup]. by rewrite lookup_app_l by lia.
Qed.

Lemma pay_run_rotates blocks : forall h x q l, schedule_ok h l -> queue h (x :: q) l -> consecutive h blocks -> Forall (fun b => quiet_block l b.1) blocks ->
  exists payees l', pay_run blocks l = Ok (payees, l') /\ length payees = length blocks /\
    forall i, (i < length blocks)%nat -> payees !! i = Some (snd <$> (x :: q) !! (i mod S (length q))%nat).
Proof.
  induction blocks as [|[block p] blocks IH]; intros h x q l Hs Hq Hc Hb; cbn [pay_run]; [exists [], l; split_and!; [done..|]; intros i Hi; cbn in Hi; lia|].
  cbn [consecutive] in Hc. destruct Hc as [(prev & Hp & Hh) Hc]. apply Forall_cons in Hb as [Hb Hbs]. cbn [fst] in Hb.
  destruct (quiet_step h x q l block p prev Hs Hq Hp Hh Hb) as (l1 & -> & Hpay & Hs1 & Hq1 & Hquiet). cbn [mbind res_bind].
  assert (exists y q', q ++ [(h + 1, x.2)] = y :: q') as (y & q' & Hyq) by (destruct q; eexists _, _; reflexivity). rewrite Hyq in Hq1.
  destruct (IH (h + 1) y q' l1 Hs1 Hq1 Hc) as (payees & l2 & -> & Hl & Hi). { eapply Forall_impl; [exact Hbs|]. intros b. apply Hquiet. }
  cbn [mbind res_bind]. rewrite Hpay. exists (Some x.2 :: payees), l2. split; [done|]. split; [cbn; lia|]. intros [|i] Hlt; cbn [length] in Hlt.
  - by rewrite Nat.Div0.mod_0_l.
  - change ((Some x.2 :: payees) !! S i) with (payees !! i). rewrite (Hi i) by lia. f_equal. rewrite <- Hyq. assert (length q' = length q) as ->.
    { apply (f_equal length) in Hyq. rewrite length_app in Hyq. cbn in Hyq. lia. }
    rewrite <- !list_lookup_fmap, fmap_app. pose proof (rotate_lookup x.2 (snd <$> q) i) as Hr. rewrite length_fmap in Hr. exact Hr.
Qed.

(** C23: with n valid masternodes, and blocks without special transactions that spend no collateral, every block
    has a list and pays the masternode that GetProjectedMNPayees, asked before the run, has at that place; after
    n blocks it starts again, so that every valid masternode is paid once in every n blocks. *)
Theorem payees_rotate (h : Z) (l : CDeterministicMNList) (blocks : list (CBlock * ptr))
    (Hs : schedule_ok h l) (Hne : ForEachMN l true <> []) (Hc : consecutive h blocks) (Hq : Forall (fun b => quiet_block l b.1) blocks) :
  let n := length (ForEachMN l true) in
  let projected := GetProjectedMNPayees l (GetValidMNsCount l) in
  length projected = n /\ (forall m, m ∈ projected <-> m ∈ ForEachMN l true) /\ NoDup (map proTxHash projected) /\
  exists payees l', pay_run blocks l = Ok (payees, l') /\ length payees = length blocks /\
    forall i, (i < length blocks)%nat -> payees !! i = Some (proTxHash <$> projected !! (i mod n)%nat).
Proof.
  intros n projected. set (sorted := std_sort CompareByLastPaid (ForEachMN l true)).
  assert (sorted ≡ₚ ForEachMN l true) as Hp by apply merge_sort_Permutation.
  assert (projected = sorted) as ->.
  { unfold projected, GetProjectedMNPayees. pose proof (so_count h l Hs) as Hlt. unfold GetValidMNsCount in *. pose proof (zlen_nonneg (ForEachMN l true)).
    rewrite (proj2 (Z.ltb_ge _ _)), s32_small, Z.min_id by lia. fold sorted. apply take_ge. unfold zlen. rewrite (Permutation_length Hp). lia. }
  assert (length sorted = n) as Hlen by apply (Permutation_length Hp). split_and!; [done|intros m; by rewrite Hp| |].
  { assert (map proTxHash sorted ≡ₚ map proTxHash (ForEachMN l true)) as -> by by apply (fmap_Permutation proTxHash). apply NoDup_ForEachMN, Hs. }
  pose proof (schedule_queue h l Hs) as Hqu. fold sorted in Hqu. destruct sorted as [|m ms] eqn:Es.
  { destruct Hne. by apply Permutation_nil_l in Hp. }
  destruct (pay_run_rotates blocks h (turn m) (map turn ms) l Hs Hqu Hc Hq) as (payees & l' & Hr & Hl & Hi).
  exists payees, l'. split_and!; [done..|]. intros i Hlt. rewrite (Hi i Hlt), length_map. f_equal. cbn [length] in Hlen. rewrite <- Hlen.
  change (turn m :: map turn ms) with (turn <$> (m :: ms)). rewrite list_lookup_fmap. by destruct ((m :: ms) !! _).
Qed.

End schedule.

(** ** Two cycles of three masternodes *)

#[local] Existing Instance plain_crypto.
#[local] Existing Instance plain_bls.

Definition quiet_blocks : list (CBlock * ptr) := map (fun p => (MkBlock (header sample_block) [] [], p)) (seq 0 6).
Definition quiet_heap : heap :=
  map (fun k => MkIndex (replicate 32 (Z.of_nat k)) (match k with O => None | S q => Some q end) None (400 + Z.of_nat k) (replicate 8 0) 5 0 0 (header sample_block)) (seq 0 6).

Lemma sample_schedule : schedule_ok 400 sample_list.
Proof.
  split; [apply reachable_wf, sample_list_reachable|apply sample_ids_below|vm_compute; reflexivity|lia|].
  refine (bool_decide_unpack (map_Forall (fun _ m => length (proTxHash m) = 32%nat /\ nRegisteredHeight (pdmnState m) <= 400 /\
    nLastPaidHeight (pdmnState m) <= 400 /\ nPoSeRevivedHeight (pdmnState m) <= 400) (mnMap sample_list)) _). vm_compute. exact I.
Qed.

Lemma payees_rotate_witness :
  exists l', pay_run evo_params [] quiet_heap (fun _ => None) (fun _ _ => []) quiet_blocks sample_list =
    Ok (Some <$> [replicate 32 12; replicate 32 11; replicate 32 10; replicate 32 12; replicate 32 11; replicate 32 10], l').
Proof.
  destruct (payees_rotate evo_params [] quiet_heap (fun _ => None) (fun _ _ => []) 400 sample_list quiet_blocks sample_schedule) as (_ & _ & _ & payees & l' & Hr & Hl & Hi).
  - vm_compute. discriminate.
  - repeat (split; [eexists; split; reflexivity|]). exact I.
  - repeat (constructor; [split; [constructor|intros k m _; apply not_elem_of_nil]|]). constructor.
  - exists l'. rewrite Hr. do 2 f_equal. apply list_eq. intros i. destruct (decide (i < 6)%nat) as [Hlt|Hge].
    + rewrite (Hi i) by exact Hlt. do 6 (destruct i as [|i]; [vm_compute; reflexivity|]). lia.
    + rewrite !lookup_ge_None_2; [reflexivity|cbn; lia|rewrite Hl; cbn; lia].
Defined.
