(* ===== verification/MasternodePayments.v ===== *)
(** * Masternode and superblock payments

    Models src/src/masternode/payments.cpp, which outputs of a coinbase are required and how much it may pay, and
    the superblocks of src/src/governance/classes.cpp.  The list of masternodes is that of the block before;
    the triggers with their votes, and whether the node has synchronised, are arguments.  A coinbase that
    was filled in by FillBlockPayments is accepted, and one that is accepted pays no more than it may. *)

From stdpp Require Import base list numbers gmap sorting.
From S2P Require Import Prelude Script Crypto Standard Serialize Transaction Coin Coins Block Chain Subsidy PosKernel NetAddress Masternodes MasternodesSpec ProviderTx.

Open Scope Z_scope.

(** ** Parameters *)

Record PaymentParams : Type := MkPaymentParams {
  nBudgetPaymentsStartBlock : Z;
  nBudgetPaymentsCycleBlocks : Z;
  nBudgetPaymentsWindowBlocks : Z;
  nSuperblockStartBlock : Z;
  BRRHeight : Z;
  subsidy : SubsidyParams
}.

(** What is asked of the rest of the node. *)
Record NodeState : Type := MkNodeState { IsSynced : bool; fDisableGovernance : bool; AreSuperblocksEnabled : bool }.

(** ** Superblocks *)

Record CGovernancePayment : Type := MkGovernancePayment { pay_script : list Z; pay_nAmount : Z }.

(** A trigger; [None] for the object when it is not known any more, otherwise its cached funding flag and the
    balance of its votes. *)
Record CSuperblock : Type := MkSuperblock {
  sb_nBlockHeight : Z;
  vecPayments : list CGovernancePayment;
  sb_object : option (bool * Z)
}.

Section superblocks.
Context (params : PaymentParams).

Definition IsValidBlockHeight (nBlockHeight : Z) : bool :=
  (nSuperblockStartBlock params <=? nBlockHeight) && (Z.rem nBlockHeight (nSuperblockCycle (subsidy params)) =? 0).

(** The last superblock before or at the height, and the next one. *)
Definition GetNearestSuperblocksHeights (nBlockHeight : Z) : Z * Z :=
  let start := nSuperblockStartBlock params in
  let cycle := nSuperblockCycle (subsidy params) in
  let nFirstSuperblockOffset := Z.rem (cycle - Z.rem start cycle) cycle in
  let nFirstSuperblock := start + nFirstSuperblockOffset in
  if nBlockHeight <? nFirstSuperblock then (0, nFirstSuperblock)
  else let nLastSuperblock := nBlockHeight - Z.rem nBlockHeight cycle in (nLastSuperblock, nLastSuperblock + cycle).

(** GetBlockSubsidy does not use its last argument, so this is the subsidy of a whole cycle. *)
Definition GetPaymentsLimit (nBlockHeight : Z) : Z :=
  if negb (IsValidBlockHeight nBlockHeight) then 0 else
  s64 (GetBlockSubsidy (nBlockHeight - 1) (subsidy params) * nSuperblockCycle (subsidy params)).

Definition GetPaymentsTotalAmount (sb : CSuperblock) : Z := foldl (fun s p => s64 (s + pay_nAmount p)) 0 (vecPayments sb).

(** The first output from [nVoutIndex] on that is the payment. *)
Fixpoint find_payment (payment : CGovernancePayment) (j : nat) (outs : list CTxOut) : option nat :=
  match outs with
  | [] => None
  | o :: outs => if bool_decide (pay_script payment = scriptPubKey o) && (pay_nAmount payment =? nValue o) then Some j else find_payment payment (S j) outs
  end.

(** The search for a payment starts at the output of the one before. *)
Fixpoint match_payments (payments : list CGovernancePayment) (nVoutIndex : nat) (outs : list CTxOut) : bool :=
  match payments with
  | [] => true
  | payment :: payments =>
      match find_payment payment nVoutIndex (drop nVoutIndex outs) with
      | Some j => match_payments payments j outs
      | None => false
      end
  end.

Definition CSuperblock_IsValid (sb : CSuperblock) (txNew : CTransaction) (nBlockHeight blockReward : Z) : res unit bool :=
  if negb (IsValidBlockHeight nBlockHeight) then Ok false else
  if zlen (vout txNew) - zlen (vecPayments sb) <? 0 then Ok false else
  let nPaymentsTotalAmount := GetPaymentsTotalAmount sb in
  if GetPaymentsLimit nBlockHeight <? nPaymentsTotalAmount then Ok false else
  nBlockValue ← GetValueOut txNew;
  if s64 (blockReward + nPaymentsTotalAmount) <? nBlockValue then Ok false else
  Ok (match_payments (vecPayments sb) 0 (vout txNew)).

Context (triggers : list CSuperblock).

Definition IsSuperblockTriggered (nBlockHeight : Z) : bool :=
  IsValidBlockHeight nBlockHeight &&
  existsb (fun sb => match sb_object sb with
                     | Some (funding, _) => (nBlockHeight =? sb_nBlockHeight sb) && funding
                     | None => false
                     end) triggers.

(** The trigger with the most votes so far, and their number. *)
Definition better_trigger (nBlockHeight : Z) (best : option CSuperblock * Z) (sb : CSuperblock) : option CSuperblock * Z :=
  if negb (nBlockHeight =? sb_nBlockHeight sb) then best else
  match sb_object sb with
  | None => best
  | Some (_, nTempYesCount) => if best.2 <? nTempYesCount then (Some sb, nTempYesCount) else best
  end.

Definition GetBestSuperblock (nBlockHeight : Z) : option CSuperblock :=
  if negb (IsValidBlockHeight nBlockHeight) then None else
  (foldl (better_trigger nBlockHeight) (None, 0) triggers).1.

Definition GetSuperblockPayments (nBlockHeight : Z) : list CTxOut :=
  match GetBestSuperblock nBlockHeight with
  | None => []
  | Some sb => map (fun p => MkTxOut (pay_nAmount p) (pay_script p)) (vecPayments sb)
  end.

Definition CSuperblockManager_IsValid (txNew : CTransaction) (nBlockHeight blockReward : Z) : res unit bool :=
  match GetBestSuperblock nBlockHeight with Some sb => CSuperblock_IsValid sb txNew nBlockHeight blockReward | None => Ok false end.

(** ** The value of a block *)

Context (node : NodeState).

Definition IsOldBudgetBlockValueValid (nBlockHeight valueOut blockReward : Z) : bool :=
  let isBlockRewardValueMet := valueOut <=? blockReward in
  if nBlockHeight <? nBudgetPaymentsStartBlock params then false else
  if nSuperblockStartBlock params <=? nBlockHeight then false else
  let nOffset := Z.rem nBlockHeight (nBudgetPaymentsCycleBlocks params) in
  if (nBudgetPaymentsStartBlock params <=? nBlockHeight) && (nOffset <? nBudgetPaymentsWindowBlocks params)
  then if IsSynced node then isBlockRewardValueMet else true
  else isBlockRewardValueMet.

Definition IsBlockValueValid (coinbase : CTransaction) (nBlockHeight blockReward : Z) : res unit bool :=
  valueOut ← GetValueOut coinbase;
  let isBlockRewardValueMet := valueOut <=? blockReward in
  if nBlockHeight <? nBudgetPaymentsStartBlock params then Ok isBlockRewardValueMet else
  if nBlockHeight <? nSuperblockStartBlock params then Ok (IsOldBudgetBlockValueValid nBlockHeight valueOut blockReward) else
  let nSuperblockMaxValue := s64 (blockReward + GetPaymentsLimit nBlockHeight) in
  let isSuperblockMaxValueMet := valueOut <=? nSuperblockMaxValue in
  if negb (IsValidBlockHeight nBlockHeight) then Ok isBlockRewardValueMet else
  if negb isSuperblockMaxValueMet then Ok false else
  if negb (IsSynced node) || fDisableGovernance node then Ok true else
  if negb (AreSuperblocksEnabled node) then Ok isBlockRewardValueMet else
  if negb (IsSuperblockTriggered nBlockHeight) then Ok isBlockRewardValueMet else
  CSuperblockManager_IsValid coinbase nBlockHeight blockReward.

(** ** The payees of a block *)

(** The list of the block before, and whether DIP3 is enforced at the height. *)
Context {crypto : CryptoOps} (mnList : CDeterministicMNList) (dip3_enforced : Z -> bool).

(** [None]: no masternode to pay. *)
Definition GetBlockTxOuts (nBlockHeight blockReward : Z) : option (list CTxOut) :=
  match GetMNPayee mnList with
  | None => None
  | Some dmnPayee =>
      let s := pdmnState dmnPayee in
      let masternodeReward := GetMasternodePayment nBlockHeight blockReward (BRRHeight params) (subsidy params) in
      let operatorReward := if negb (nOperatorReward dmnPayee =? 0) && bool_decide (scriptOperatorPayout s <> [])
                            then Z.quot (s64 (masternodeReward * nOperatorReward dmnPayee)) 10000 else 0 in
      let masternodeReward := masternodeReward - operatorReward in
      Some ((if 0 <? masternodeReward then [MkTxOut masternodeReward (scriptPayout s)] else []) ++
            (if 0 <? operatorReward then [MkTxOut operatorReward (scriptOperatorPayout s)] else []))
  end.

(** The outputs, empty when there is no payee; the log lines are not modelled. *)
Definition GetMasternodeTxOuts (nBlockHeight blockReward : Z) : list CTxOut := default [] (GetBlockTxOuts nBlockHeight blockReward).

Fixpoint check_payees (required outs : list CTxOut) : res unit bool :=
  match required with
  | [] => Ok true
  | txout :: required =>
      if bool_decide (txout ∈ outs) then check_payees required outs else
      dest ← ExtractDestination (scriptPubKey txout);
      match dest with None => Abort | Some _ => Ok false end
  end.

Definition IsTransactionValid (txNew : CTransaction) (nBlockHeight blockReward : Z) : res unit bool :=
  if negb (dip3_enforced nBlockHeight) then Ok true else
  match GetBlockTxOuts nBlockHeight blockReward with
  | None => Ok true
  | Some required => check_payees required (vout txNew)
  end.

Definition IsBlockPayeeValid (txNew : CTransaction) (nBlockHeight blockReward : Z) : res unit bool :=
  if fDisableGovernance node then Ok true else
  if nBlockHeight <? nSuperblockStartBlock params then Ok true else
  ok ← (if AreSuperblocksEnabled node && IsSuperblockTriggered nBlockHeight
        then CSuperblockManager_IsValid txNew nBlockHeight blockReward else Ok true);
  if (ok : bool) then IsTransactionValid txNew nBlockHeight blockReward else Ok false.

Definition subtract_payments (first : CTxOut) (payments : list CTxOut) : CTxOut :=
  foldl (fun o p => MkTxOut (s64 (nValue o - nValue p)) (scriptPubKey o)) first payments.

(** The first output is that of the miner, who gets what the masternode does not. *)
Definition FillBlockPayments (txNew : CMutableTransaction) (nBlockHeight blockReward : Z) : CMutableTransaction :=
  let voutSuperblockPayments := if AreSuperblocksEnabled node && IsSuperblockTriggered nBlockHeight then GetSuperblockPayments nBlockHeight else [] in
  let voutMasternodePayments := GetMasternodeTxOuts nBlockHeight blockReward in
  match vout txNew ++ voutMasternodePayments ++ voutSuperblockPayments with
  | [] => txNew
  | first :: rest =>
      MkTransaction (vin txNew) (subtract_payments first voutMasternodePayments :: rest) (nVersion txNew) (nType txNew) (nLockTime txNew)
        (nTime txNew) (vExtraPayload txNew)
  end.

(** ** A coinbase filled in by the node is accepted *)

Lemma s64_small x : - 2 ^ 63 <= x < 2 ^ 63 -> s64 x = x.
Proof.
  intros Hx. destruct (swrap_spec 64 x ltac:(lia)) as [Hs Hm]. fold (s64 x) in *. unfold signed in Hs.
  change (2 ^ (64 - 1)) with (2 ^ 63) in Hs. rewrite !Z.mod_eq in Hm by lia. lia.
Qed.

Definition payment_out (p : CGovernancePayment) : CTxOut := MkTxOut (pay_nAmount p) (pay_script p).

Lemma find_payment_spec p i j outs : find_payment p i outs = Some j ->
  exists k, j = (i + k)%nat /\ outs !! k = Some (payment_out p).
Proof.
  revert i; induction outs as [|[v s] outs IH]; intros i; cbn [find_payment]; [done|]. case_bool.
  - intros [= <-]. exists O. split; [lia|]. bprop. unfold payment_out. cbn in *. by subst.
  - intros (k & -> & Hk)%IH. exists (S k). split; [lia|done].
Qed.

Lemma find_payment_found p i pre outs :
  exists k, find_payment p i (pre ++ payment_out p :: outs) = Some (i + k)%nat /\ (k <= length pre)%nat.
Proof.
  revert i; induction pre as [|o pre IH]; intros i; cbn [find_payment app].
  - exists O. split; [|cbn; lia]. cbn. rewrite bool_decide_true, Z.eqb_refl by done. cbn. f_equal. lia.
  - case_bool; [exists O; split; [f_equal; lia|lia]|]. destruct (IH (S i)) as (k & -> & Hk). exists (S k). cbn. split; [f_equal; lia|lia].
Qed.

(** The payments are found when they are the last outputs, whatever comes before. *)
Lemma match_payments_suffix ps i pre outs :
  drop i outs = pre ++ map payment_out ps -> match_payments ps i outs = true.
Proof.
  revert i pre; induction ps as [|p ps IH]; intros i pre Hd; cbn [match_payments]; [done|]. rewrite Hd. cbn [map].
  destruct (find_payment_found p i pre (map payment_out ps)) as (k & -> & Hk).
  apply (IH _ (drop k pre ++ [payment_out p])). rewrite <- (drop_drop outs k i), Hd. cbn [map].
  rewrite drop_app_le by done. by rewrite <- app_assoc.
Qed.

(** Every payment that was matched is an output. *)
Lemma match_payments_found ps i outs p : match_payments ps i outs = true -> p ∈ ps -> payment_out p ∈ outs.
Proof.
  revert i; induction ps as [|q ps IH]; intros i; cbn [match_payments]; [by intros _ ?%elem_of_nil|].
  destruct (find_payment q i (drop i outs)) as [j|] eqn:E; [|done]. intros Hm [->|Hin]%elem_of_cons; [|by apply (IH j)].
  apply find_payment_spec in E as (k & -> & Hk). rewrite lookup_drop in Hk. by eapply list_elem_of_lookup_2.
Qed.

Lemma sum_values_app a b : sum_values (a ++ b) = sum_values a + sum_values b.
Proof. induction a as [|o a IH]; cbn [sum_values foldr app]; [done|]. fold (sum_values (a ++ b)) (sum_values a). lia. Qed.

Lemma subtract_payments_spec first pays :
  Forall (fun o => 0 <= nValue o) pays -> 0 <= nValue first <= MAX_MONEY -> sum_values pays <= nValue first ->
  subtract_payments first pays = MkTxOut (nValue first - sum_values pays) (scriptPubKey first).
Proof.
  revert first; induction pays as [|p pays IH]; intros first Hf Hv Hs; cbn [subtract_payments foldl sum_values foldr] in *.
  - rewrite Z.sub_0_r. by destruct first.
  - fold (sum_values pays) in *. apply Forall_cons in Hf as [Hp Hf]. pose proof (sum_values_nonneg _ Hf).
    assert (s64 (nValue first - nValue p) = nValue first - nValue p) as -> by (apply s64_small; unfold MAX_MONEY, COIN in *; lia).
    change (subtract_payments (MkTxOut (nValue first - nValue p) (scriptPubKey first)) pays =
            MkTxOut (nValue first - (nValue p + sum_values pays)) (scriptPubKey first)).
    rewrite IH by (done || (cbn; lia)). cbn. f_equal. lia.
Qed.

Lemma GetPaymentsTotalAmount_loop ps acc :
  Forall (fun p => 0 <= pay_nAmount p) ps -> 0 <= acc -> acc + sum_values (map payment_out ps) < 2 ^ 63 ->
  foldl (fun s p => s64 (s + pay_nAmount p)) acc ps = acc + sum_values (map payment_out ps).
Proof.
  revert acc; induction ps as [|p ps IH]; intros acc Hf Ha Hs; cbn [foldl map sum_values foldr] in *; [lia|].
  fold (sum_values (map payment_out ps)) in *. apply Forall_cons in Hf as [Hp Hf].
  assert (0 <= sum_values (map payment_out ps)) by (apply sum_values_nonneg, Forall_map; done).
  cbn [payment_out nValue] in *. rewrite s64_small by lia. rewrite IH by (done || lia). lia.
Qed.

(** Up to this reward the product with the operator's ten-thousandths stays within 64 bits. *)
Definition REWARD_LIMIT : Z := 15000000 * COIN.

(** The outputs required for the payee are positive and take at most three fifths of the reward. *)
Lemma GetMasternodeTxOuts_spec nBlockHeight blockReward :
  0 <= blockReward <= REWARD_LIMIT -> (forall dmn, GetMNPayee mnList = Some dmn -> 0 <= nOperatorReward dmn <= 10000) ->
  Forall (fun o => 0 <= nValue o) (GetMasternodeTxOuts nBlockHeight blockReward) /\
  sum_values (GetMasternodeTxOuts nBlockHeight blockReward) <= blockReward * 3 / 5.
Proof.
  intros Hr Hop. unfold GetMasternodeTxOuts, GetBlockTxOuts. destruct (GetMNPayee mnList) as [dmn|]; cbn [default];
    [|split; [constructor|cbn; apply Z.div_pos; lia]].
  assert (REWARD_LIMIT <= MAX_MONEY) by (vm_compute; discriminate).
  specialize (Hop dmn eq_refl). pose proof (GetMasternodePayment_range nBlockHeight blockReward (BRRHeight params) (subsidy params) ltac:(lia)) as Hm.
  set (mr := GetMasternodePayment _ _ _ _) in *. set (o := if _ && _ then _ else 0).
  assert (0 <= o <= mr) as Ho.
  { subst o. case_match; [|lia]. assert (mr <= 9000000 * COIN).
    { transitivity (REWARD_LIMIT * 3 / 5); [|vm_compute; discriminate]. etransitivity; [apply Hm|]. apply Z.div_le_mono; lia. }
    assert (0 <= mr * nOperatorReward dmn <= mr * 10000) by nia. change (9000000 * COIN) with 900000000000000 in *.
    rewrite s64_small by lia. rewrite Z.quot_div_nonneg by lia. split; [apply Z.div_pos; lia|]. apply Z.div_le_upper_bound; lia. }
  destruct (Z.ltb_spec 0 (mr - o)), (Z.ltb_spec 0 o); cbn; (split; [repeat constructor; cbn; lia|lia]).
Qed.

Lemma check_payees_all required outs : required ⊆ outs -> check_payees required outs = Ok true.
Proof.
  induction required as [|o required IH]; intros Hs; cbn [check_payees]; [done|]. rewrite bool_decide_true by (apply Hs; left). apply IH. set_solver.
Qed.

Lemma check_payees_sound required outs : check_payees required outs = Ok true -> required ⊆ outs.
Proof.
  induction required as [|o required IH]; cbn [check_payees]; [intros _; apply list_subseteq_nil|]. case_bool_decide as Ho.
  - intros Hr%IH x [->|Hx]%elem_of_cons; [done|by apply Hr].
  - destruct (ExtractDestination _) as [[d|]| |]; discriminate.
Qed.

(** The superblock of the height: what the node pays when one is triggered. *)
Definition superblock_payments (nBlockHeight : Z) : list CTxOut :=
  if AreSuperblocksEnabled node && IsSuperblockTriggered nBlockHeight then GetSuperblockPayments nBlockHeight else [].

(** A triggered superblock is known, pays amounts that are not negative, and stays within the limit. *)
Definition superblock_ok (nBlockHeight blockReward : Z) : Prop :=
  AreSuperblocksEnabled node = true -> IsSuperblockTriggered nBlockHeight = true ->
  exists sb, GetBestSuperblock nBlockHeight = Some sb /\ Forall (fun p => 0 <= pay_nAmount p) (vecPayments sb) /\
    sum_values (map payment_out (vecPayments sb)) <= GetPaymentsLimit nBlockHeight /\
    blockReward + sum_values (map payment_out (vecPayments sb)) <= MAX_MONEY.

Lemma FillBlockPayments_vout txNew script nBlockHeight blockReward :
  vout txNew = [MkTxOut blockReward script] -> 0 <= blockReward <= REWARD_LIMIT ->
  (forall dmn, GetMNPayee mnList = Some dmn -> 0 <= nOperatorReward dmn <= 10000) ->
  let masternode := GetMasternodeTxOuts nBlockHeight blockReward in
  vout (FillBlockPayments txNew nBlockHeight blockReward) =
    MkTxOut (blockReward - sum_values masternode) script :: masternode ++ superblock_payments nBlockHeight.
Proof.
  intros Hv Hr Hop mn. destruct (GetMasternodeTxOuts_spec nBlockHeight blockReward Hr Hop) as [Hf Hs].
  assert (REWARD_LIMIT <= MAX_MONEY) by (vm_compute; discriminate).
  assert (blockReward * 3 / 5 <= blockReward) by (Z.to_euclidean_division_equations; lia).
  unfold FillBlockPayments. rewrite Hv. cbn [app vout]. f_equal. rewrite subtract_payments_spec; [done|done|cbn; lia|cbn; lia].
Qed.

(** A triggered superblock accepts outputs that end in its payments and pay no more than it allows. *)
Lemma CSuperblockManager_accepts tx pre nBlockHeight blockReward sb :
  IsSuperblockTriggered nBlockHeight = true -> GetBestSuperblock nBlockHeight = Some sb ->
  Forall (fun p => 0 <= pay_nAmount p) (vecPayments sb) -> 0 <= blockReward ->
  sum_values (map payment_out (vecPayments sb)) <= GetPaymentsLimit nBlockHeight ->
  blockReward + sum_values (map payment_out (vecPayments sb)) <= MAX_MONEY ->
  vout tx = pre ++ map payment_out (vecPayments sb) ->
  GetValueOut tx = Ok (blockReward + sum_values (map payment_out (vecPayments sb))) ->
  CSuperblockManager_IsValid tx nBlockHeight blockReward = Ok true.
Proof.
  intros Ht Hb Hf Hr Hl Hmax Hv Hval. unfold CSuperblockManager_IsValid, CSuperblock_IsValid. rewrite Hb.
  apply andb_true_iff in Ht as [-> _]. cbn [negb].
  assert (MAX_MONEY < 2 ^ 63) by done. assert (0 <= sum_values (map payment_out (vecPayments sb))) by (by apply sum_values_nonneg, Forall_map).
  assert (GetPaymentsTotalAmount sb = sum_values (map payment_out (vecPayments sb))) as ->.
  { unfold GetPaymentsTotalAmount. rewrite GetPaymentsTotalAmount_loop by (done || lia). lia. }
  rewrite (proj2 (Z.ltb_ge _ _)) by (rewrite Hv; unfold zlen; rewrite length_app, length_map; lia).
  rewrite (proj2 (Z.ltb_ge _ _)) by lia. rewrite Hval. cbn [mbind res_bind]. rewrite s64_small by lia.
  rewrite (proj2 (Z.ltb_ge _ _)) by lia. f_equal. by apply (match_payments_suffix _ _ pre).
Qed.

(** The parameters are those of a network: superblocks follow the old budgets, and a cycle has at most 2^20 blocks. *)
Definition payment_params_ok : Prop :=
  reduced_early (subsidy params) /\ 0 < nSuperblockCycle (subsidy params) <= 2 ^ 20 /\
  1 <= nSuperblockStartBlock params /\ nBudgetPaymentsStartBlock params <= nSuperblockStartBlock params.

Lemma GetPaymentsLimit_bounds nBlockHeight :
  payment_params_ok -> 0 <= GetPaymentsLimit nBlockHeight <= 50 * COIN * nSuperblockCycle (subsidy params).
Proof.
  intros (Hr & Hc & Hs & _). unfold GetPaymentsLimit. destruct (IsValidBlockHeight nBlockHeight) eqn:E; cbn [negb]; [|unfold COIN; lia].
  unfold IsValidBlockHeight in E. bprop. destruct (GetBlockSubsidy_bound (nBlockHeight - 1) (subsidy params) ltac:(lia) Hr) as [Hb0 Hb1].
  assert (epoch_subsidy ((nBlockHeight - 1) / EPOCH) <= 50 * COIN) as He.
  { unfold epoch_subsidy. case_bool; [done|]. assert (0 <= (nBlockHeight - 1) / EPOCH) by (apply Z.div_pos; [lia|done]).
    rewrite Z.shiftr_div_pow2 by done. apply Z.div_le_upper_bound; [by apply Z.pow_pos_nonneg|].
    pose proof (Z.pow_pos_nonneg 2 ((nBlockHeight - 1) / EPOCH) ltac:(lia) ltac:(done)). unfold COIN. nia. }
  change (50 * COIN) with 5000000000 in *. rewrite s64_small by nia. nia.
Qed.

Lemma values_below outs : Forall (fun o => 0 <= nValue o) outs -> sum_values outs <= MAX_MONEY -> Forall (fun o => 0 <= nValue o <= MAX_MONEY) outs.
Proof.
  induction outs as [|o outs IH]; intros Hf Hs; [constructor|]. apply Forall_cons in Hf as [Ho Hf]. cbn [sum_values foldr] in Hs. fold (sum_values outs) in Hs.
  pose proof (sum_values_nonneg _ Hf). constructor; [lia|]. apply IH; [done|lia].
Qed.

(** The checks accept a coinbase of the reward and of what the triggered superblock pays. *)
Definition triggered_valid (coinbase : CTransaction) (nBlockHeight blockReward : Z) : Prop :=
  AreSuperblocksEnabled node && IsSuperblockTriggered nBlockHeight = true ->
  CSuperblockManager_IsValid coinbase nBlockHeight blockReward = Ok true /\
  sum_values (superblock_payments nBlockHeight) <= GetPaymentsLimit nBlockHeight.

Lemma value_accepted coinbase nBlockHeight blockReward :
  payment_params_ok -> 0 <= blockReward <= MAX_MONEY -> triggered_valid coinbase nBlockHeight blockReward ->
  GetValueOut coinbase = Ok (blockReward + sum_values (superblock_payments nBlockHeight)) ->
  IsBlockValueValid coinbase nBlockHeight blockReward = Ok true.
Proof.
  intros Hp Hr Hmgr Hval. pose proof (GetPaymentsLimit_bounds nBlockHeight Hp) as Hlim. assert (MAX_MONEY < 2 ^ 62) by done.
  destruct Hp as (_ & Hc & _ & Hstart). change (50 * COIN) with 5000000000 in *. unfold IsBlockValueValid. rewrite Hval. cbn [mbind res_bind].
  rewrite s64_small by lia. unfold triggered_valid, superblock_payments in *.
  destruct (AreSuperblocksEnabled node && IsSuperblockTriggered nBlockHeight) eqn:Et.
  - destruct (Hmgr eq_refl) as [Hv Hle]. apply andb_true_iff in Et as [-> Ht]. rewrite Ht. assert (Hh := Ht).
    apply andb_true_iff in Hh as [Hh _]. rewrite Hh. unfold IsValidBlockHeight in Hh. bprop.
    rewrite !(proj2 (Z.ltb_ge nBlockHeight _)) by lia. rewrite (proj2 (Z.leb_le _ (blockReward + GetPaymentsLimit nBlockHeight))) by lia. cbn [negb]. by case_match.
  - cbn [sum_values foldr]. rewrite !(proj2 (Z.leb_le _ _)) by lia. cbn [negb].
    destruct (nBlockHeight <? nBudgetPaymentsStartBlock params) eqn:Eb; [done|].
    destruct (nBlockHeight <? nSuperblockStartBlock params) eqn:Es.
    + unfold IsOldBudgetBlockValueValid. bprop. rewrite (proj2 (Z.ltb_ge _ _) Eb). rewrite (proj2 (Z.leb_gt _ _)) by lia. rewrite (proj2 (Z.leb_le _ blockReward)) by lia. by repeat case_match.
    + destruct (AreSuperblocksEnabled node); cbn [andb negb] in *; [rewrite Et|]; by repeat case_match.
Qed.

Lemma payee_accepted coinbase nBlockHeight blockReward :
  triggered_valid coinbase nBlockHeight blockReward -> GetMasternodeTxOuts nBlockHeight blockReward ⊆ vout coinbase ->
  IsBlockPayeeValid coinbase nBlockHeight blockReward = Ok true.
Proof.
  intros Hmgr Hs. unfold IsBlockPayeeValid. destruct (fDisableGovernance node); [done|]. destruct (nBlockHeight <? nSuperblockStartBlock params); [done|].
  assert ((if AreSuperblocksEnabled node && IsSuperblockTriggered nBlockHeight
        then CSuperblockManager_IsValid coinbase nBlockHeight blockReward else Ok true) = Ok true) as -> by (case_match; [by apply Hmgr|done]).
  cbn [mbind res_bind]. unfold IsTransactionValid. destruct (dip3_enforced nBlockHeight); [|done]. cbn [negb].
  unfold GetMasternodeTxOuts in Hs. destruct (GetBlockTxOuts nBlockHeight blockReward); [|done]. by apply check_payees_all.
Qed.

(** The value of what FillBlockPayments returns. *)
Lemma FillBlockPayments_value txNew script nBlockHeight blockReward :
  vout txNew = [MkTxOut blockReward script] -> 0 <= blockReward <= REWARD_LIMIT ->
  (forall dmn, GetMNPayee mnList = Some dmn -> 0 <= nOperatorReward dmn <= 10000) ->
  superblock_ok nBlockHeight blockReward ->
  0 <= sum_values (superblock_payments nBlockHeight) /\
  GetValueOut (FillBlockPayments txNew nBlockHeight blockReward) = Ok (blockReward + sum_values (superblock_payments nBlockHeight)).
Proof.
  intros Hv Hr Hop Hsb. destruct (GetMasternodeTxOuts_spec nBlockHeight blockReward Hr Hop) as [Hf Hs].
  assert (REWARD_LIMIT <= MAX_MONEY) by (vm_compute; discriminate).
  assert (blockReward * 3 / 5 <= blockReward) by (Z.to_euclidean_division_equations; lia).
  rewrite GetValueOut_spec, (FillBlockPayments_vout _ script) by done. set (mn := GetMasternodeTxOuts nBlockHeight blockReward) in *.
  assert (Forall (fun o => 0 <= nValue o) (superblock_payments nBlockHeight) /\ blockReward + sum_values (superblock_payments nBlockHeight) <= MAX_MONEY) as [Hsf Hsm].
  { unfold superblock_payments. case_bool; [|cbn; split; [constructor|lia]]. bprop. destruct Hsb as (sb & Hb & Hp & _ & Hmax); [done..|].
    unfold GetSuperblockPayments. rewrite Hb. split; [by apply Forall_map|done]. }
  pose proof (sum_values_nonneg _ Hf). pose proof (sum_values_nonneg _ Hsf).
  assert (sum_values (MkTxOut (blockReward - sum_values mn) script :: mn ++ superblock_payments nBlockHeight) =
    blockReward + sum_values (superblock_payments nBlockHeight)) as Hsum.
  { cbn [sum_values foldr nValue]. fold (sum_values (mn ++ superblock_payments nBlockHeight)). rewrite sum_values_app. lia. }
  split; [done|]. rewrite Hsum, bool_decide_true; [done|]. split; [|done]. apply Forall_cons. split; [cbn; lia|]. apply Forall_app.
  split; [apply (values_below mn); [done|lia]|apply (values_below (superblock_payments nBlockHeight)); [done|lia]].
Qed.

(** A coinbase that pays the whole reward to one script and is filled in by FillBlockPayments passes both
    checks of the payments when the block is connected: its value is that of the reward and of the triggered
    superblock, and the miner keeps at least two fifths of the reward. *)
Theorem FillBlockPayments_accepted txNew script nBlockHeight blockReward :
  payment_params_ok -> vout txNew = [MkTxOut blockReward script] -> 0 <= blockReward <= REWARD_LIMIT ->
  (forall dmn, GetMNPayee mnList = Some dmn -> 0 <= nOperatorReward dmn <= 10000) ->
  superblock_ok nBlockHeight blockReward ->
  let coinbase := FillBlockPayments txNew nBlockHeight blockReward in
  IsBlockValueValid coinbase nBlockHeight blockReward = Ok true /\
  IsBlockPayeeValid coinbase nBlockHeight blockReward = Ok true /\
  GetValueOut coinbase = Ok (blockReward + sum_values (superblock_payments nBlockHeight)) /\
  exists miner, vout coinbase !! O = Some (MkTxOut miner script) /\ blockReward * 2 / 5 <= miner.
Proof.
  intros Hp Hv Hr Hop Hsb coinbase. destruct (FillBlockPayments_value _ _ _ _ Hv Hr Hop Hsb) as [Hs0 Hval]. fold coinbase in Hval.
  pose proof (FillBlockPayments_vout txNew script nBlockHeight blockReward Hv Hr Hop) as Hout. cbv zeta in Hout. fold coinbase in Hout.
  pose proof (GetPaymentsLimit_bounds nBlockHeight Hp) as Hlim. assert (MAX_MONEY < 2 ^ 62) by done.
  assert (REWARD_LIMIT <= MAX_MONEY) by (vm_compute; discriminate).
  assert (triggered_valid coinbase nBlockHeight blockReward) as Hmgr.
  { intros Ht. assert (Ht' := Ht). apply andb_true_iff in Ht' as [He Ht']. destruct (Hsb He Ht') as (sb & Hb & Hnn & Hl & Hmax).
    assert (superblock_payments nBlockHeight = map payment_out (vecPayments sb)) as Hsp
      by (unfold superblock_payments; rewrite Ht; unfold GetSuperblockPayments; by rewrite Hb).
    rewrite Hsp in *. split; [|done]. eapply (CSuperblockManager_accepts _ (_ :: _)); [done..|lia|done|done| |done].
    rewrite Hout. by rewrite app_comm_cons. }
  split_and!; [|..|done|].
  - apply value_accepted; [done|lia|done|done].
  - apply payee_accepted; [done|]. rewrite Hout. intros o Ho. right. apply elem_of_app. by left.
  - rewrite Hout. eexists. split; [done|]. destruct (GetMasternodeTxOuts_spec nBlockHeight blockReward Hr Hop) as [_ Hs].
    Z.to_euclidean_division_equations; lia.
Qed.

(** What an accepted superblock guarantees. *)
Lemma CSuperblockManager_sound tx nBlockHeight blockReward :
  CSuperblockManager_IsValid tx nBlockHeight blockReward = Ok true ->
  exists sb value, GetBestSuperblock nBlockHeight = Some sb /\ GetValueOut tx = Ok value /\
    GetPaymentsTotalAmount sb <= GetPaymentsLimit nBlockHeight /\ value <= s64 (blockReward + GetPaymentsTotalAmount sb) /\
    map payment_out (vecPayments sb) ⊆ vout tx.
Proof.
  unfold CSuperblockManager_IsValid, CSuperblock_IsValid. destruct (GetBestSuperblock nBlockHeight) as [sb|]; [|done].
  do 3 (case_bool; [done|]). destruct (GetValueOut tx) as [v| |]; cbn [mbind res_bind]; [|done..]. case_bool; [done|]. intros [= Hm].
  bprop. exists sb, v. split_and!; [done..|lia|lia|]. intros o (p & -> & Hp)%list_elem_of_fmap. by eapply match_payments_found.
Qed.

(** C24: what a block pays once both checks accept its coinbase.  Before the start of the budgets: at most the
    reward.  From the start of the superblocks on: at most the reward and, at the height of a superblock,
    the limit; and where governance is not disabled the outputs of a triggered superblock and, once DIP3 is
    enforced, those of the masternode are among the outputs of the coinbase, and on a synchronised node
    the value is at most the reward and the payments of the superblock that was triggered. *)
Theorem block_payments_sound coinbase nBlockHeight blockReward :
  payment_params_ok -> 0 <= blockReward <= MAX_MONEY ->
  IsBlockValueValid coinbase nBlockHeight blockReward = Ok true ->
  IsBlockPayeeValid coinbase nBlockHeight blockReward = Ok true ->
  exists value, GetValueOut coinbase = Ok value /\
    (nBlockHeight < nBudgetPaymentsStartBlock params -> value <= blockReward) /\
    (nSuperblockStartBlock params <= nBlockHeight ->
     value <= blockReward + GetPaymentsLimit nBlockHeight /\
     (fDisableGovernance node = false ->
      superblock_payments nBlockHeight ⊆ vout coinbase /\
      (dip3_enforced nBlockHeight = true -> GetMasternodeTxOuts nBlockHeight blockReward ⊆ vout coinbase) /\
      (IsSynced node = true ->
       if AreSuperblocksEnabled node && IsSuperblockTriggered nBlockHeight
       then exists sb, GetBestSuperblock nBlockHeight = Some sb /\ value <= s64 (blockReward + GetPaymentsTotalAmount sb)
       else value <= blockReward))).
Proof.
  intros Hp Hr Hval Hpay. pose proof (GetPaymentsLimit_bounds nBlockHeight Hp) as Hlim. assert (MAX_MONEY < 2 ^ 62) by done.
  destruct Hp as (_ & Hc & _ & Hbud). change (50 * COIN) with 5000000000 in *.
  unfold IsBlockValueValid in Hval. destruct (GetValueOut coinbase) as [v| |] eqn:Ev; cbn [mbind res_bind] in Hval; [|done..].
  exists v. split; [done|]. split; [intros Hb; rewrite (proj2 (Z.ltb_lt _ _) Hb) in Hval; injection Hval as Hval; by apply Z.leb_le|]. intros Hstart.
  rewrite !(proj2 (Z.ltb_ge nBlockHeight _)), s64_small in Hval by lia. split.
  { destruct (IsValidBlockHeight nBlockHeight); cbn [negb] in Hval; [|injection Hval as Hval; bprop; lia].
    destruct (v <=? blockReward + GetPaymentsLimit nBlockHeight) eqn:Em; [by apply Z.leb_le|done]. }
  intros Hgov. unfold IsBlockPayeeValid in Hpay. rewrite Hgov, (proj2 (Z.ltb_ge _ _) Hstart) in Hpay. rewrite Hgov, orb_false_r in Hval.
  assert (IsTransactionValid coinbase nBlockHeight blockReward = Ok true /\
    (AreSuperblocksEnabled node && IsSuperblockTriggered nBlockHeight = true -> CSuperblockManager_IsValid coinbase nBlockHeight blockReward = Ok true)) as [Htx Hsb].
  { destruct (AreSuperblocksEnabled node && IsSuperblockTriggered nBlockHeight); [|done].
    destruct (CSuperblockManager_IsValid _ _ _) as [[]| |]; done. }
  split_and!.
  - unfold superblock_payments. case_match eqn:Et; [|apply list_subseteq_nil]. destruct (CSuperblockManager_sound _ _ _ (Hsb eq_refl)) as (sb & ? & Hb & _ & _ & _ & Hs).
    unfold GetSuperblockPayments. by rewrite Hb.
  - intros Hdip. unfold IsTransactionValid in Htx. rewrite Hdip in Htx. cbn [negb] in Htx. unfold GetMasternodeTxOuts.
    destruct (GetBlockTxOuts nBlockHeight blockReward); [by apply check_payees_sound|apply list_subseteq_nil].
  - intros Hsync. case_match eqn:Et.
    + destruct (CSuperblockManager_sound _ _ _ (Hsb eq_refl)) as (sb & w & Hb & Hw & _ & Hle & _). exists sb. split; [done|]. congruence.
    + rewrite Hsync in Hval. cbn [negb] in Hval. destruct (IsValidBlockHeight nBlockHeight); cbn [negb] in Hval; [|injection Hval as Hval; by apply Z.leb_le].
      case_match; [done|]. destruct (AreSuperblocksEnabled node), (IsSuperblockTriggered nBlockHeight); try done; cbn [negb] in Hval; injection Hval as Hval; by apply Z.leb_le.
Qed.

End superblocks.

(** ** A superblock of the main network *)

#[local] Existing Instance plain_crypto.

Definition main_payments : PaymentParams := MkPaymentParams 1266000 16616 100 1266000 1279432 main_subsidy.
Definition synced_node : NodeState := MkNodeState true false true.

(** The first height at which a superblock of the main network is possible at the restored subsidy, with a
    trigger that pays two scripts, and a coinbase of 30 coins before it is filled in. *)
Definition sample_height : Z := 1279432.
Definition sample_trigger : CSuperblock :=
  MkSuperblock sample_height [MkGovernancePayment [0x51] (1000 * COIN); MkGovernancePayment [0x52] (2000 * COIN)] (Some (true, 10)).
Definition sample_coinbase : CMutableTransaction :=
  MkTransaction [MkTxIn outpoint_SetNull [1; 2] 0xffffffff] [MkTxOut (30 * COIN) [0x53]] 2 0 0 0 [].

Definition filled_coinbase : CMutableTransaction :=
  FillBlockPayments main_payments [sample_trigger] synced_node sample_list sample_coinbase sample_height (30 * COIN).

Lemma main_payments_ok : payment_params_ok main_payments.
Proof. unfold payment_params_ok, reduced_early. vm_compute. repeat split; discriminate. Qed.

Lemma sample_superblock_ok : superblock_ok main_payments [sample_trigger] synced_node sample_height (30 * COIN).
Proof.
  intros _ _. exists sample_trigger. split_and!; [vm_compute; reflexivity| |vm_compute; discriminate|vm_compute; discriminate].
  repeat constructor; vm_compute; discriminate.
Qed.

Lemma sample_operator dmn : GetMNPayee sample_list = Some dmn -> 0 <= nOperatorReward dmn <= 10000.
Proof. intros H. vm_compute in H. injection H as <-. vm_compute. split; discriminate. Qed.

Lemma FillBlockPayments_accepted_witness :
  map nValue (vout filled_coinbase) = [2997000000; 2850000; 150000; 100000000000; 200000000000] /\
  IsBlockValueValid main_payments [sample_trigger] synced_node filled_coinbase sample_height (30 * COIN) = Ok true /\
  IsBlockPayeeValid main_payments [sample_trigger] synced_node sample_list (fun _ => true) filled_coinbase sample_height (30 * COIN) = Ok true.
Proof.
  destruct (FillBlockPayments_accepted main_payments [sample_trigger] synced_node sample_list (fun _ => true) sample_coinbase [0x53] sample_height (30 * COIN))
    as (Hv & Hp & _); [exact main_payments_ok|reflexivity|vm_compute; split; discriminate|exact sample_operator|exact sample_superblock_ok|].
  split; [vm_compute; reflexivity|split; [exact Hv|exact Hp]].
Defined.

Lemma block_payments_sound_witness :
  exists value, GetValueOut filled_coinbase = Ok value /\ value <= 30 * COIN + GetPaymentsLimit main_payments sample_height /\
    GetMasternodeTxOuts main_payments sample_list sample_height (30 * COIN) ⊆ vout filled_coinbase.
Proof.
  destruct (block_payments_sound main_payments [sample_trigger] synced_node sample_list (fun _ => true) filled_coinbase sample_height (30 * COIN))
    as (value & Hv & _ & H);
    [exact main_payments_ok|vm_compute; split; discriminate|vm_compute; reflexivity|vm_compute; reflexivity|].
  destruct H as [Hm Hg]; [vm_compute; discriminate|]. destruct (Hg eq_refl) as (_ & Hs & _).
  exists value. split; [exact Hv|split; [exact Hm|exact (Hs eq_refl)]].
Defined.

(** The superblock may pay what the blocks of its whole cycle create, so that a chain with superblocks can
    create twice the coins of the schedule. *)
Lemma superblock_limit_is_whole_cycle :
  GetPaymentsLimit main_payments sample_height = nSuperblockCycle main_subsidy * GetBlockSubsidy (sample_height - 1) main_subsidy /\
  GetBlockSubsidy (sample_height - 1) main_subsidy = 25 * COIN.
Proof. vm_compute. split; reflexivity. Qed.

(** Two equal payments of a trigger are matched by one output. *)
Lemma equal_payments_share_output :
  let p := MkGovernancePayment [0x51] (1000 * COIN) in
  match_payments [p; p] 0 [MkTxOut (30 * COIN) [0x53]; payment_out p] = true.
Proof. vm_compute. reflexivity. Qed.

(** Two equal payouts of a masternode are satisfied by one output. *)
Lemma equal_payouts_share_output :
  let o := MkTxOut (5 * COIN) [0x51] in check_payees [o; o] [o] = Ok true.
Proof. vm_compute. reflexivity. Qed.
