(* ===== verification/Merkle.v ===== *)
(** * Merkle roots

    Models src/src/consensus/merkle.cpp: the root of a list of hashes, and the detection of repeated
    hashes that CVE-2012-2459 calls for. *)

From stdpp Require Import base list numbers.
From S2P Require Import Prelude Script Crypto Serialize Transaction Block.

Open Scope Z_scope.

(** The nodes of a level two by two, the last one with itself when their number is odd. *)
Fixpoint pairs (hashes : list (list Z)) : list (list Z * list Z) :=
  match hashes with
  | a :: b :: hashes => (a, b) :: pairs hashes
  | [a] => [(a, a)]
  | [] => []
  end.

(** [hashes[pos] == hashes[pos + 1]] for some even [pos]. *)
Fixpoint level_mutated (hashes : list (list Z)) : bool :=
  match hashes with
  | a :: b :: hashes => bool_decide (a = b) || level_mutated hashes
  | _ => false
  end.

Section merkle.
Context {crypto : CryptoOps}.

(** [SHA256D64] on one block of 64 bytes. *)
Definition SHA256D64 (p : list Z * list Z) : list Z := Hash (p.1 ++ p.2).

Fixpoint ComputeMerkleRoot_loop (fuel : nat) (hashes : list (list Z)) (mutation : bool) : res unit (list (list Z) * bool) :=
  match hashes with
  | _ :: _ :: _ =>
      match fuel with
      | O => Abort
      | S fuel =>
          ComputeMerkleRoot_loop fuel (SHA256D64 <$> pairs hashes) (mutation || level_mutated hashes)
      end
  | _ => Ok (hashes, mutation)
  end.

(** The root and [*mutated]; each level has fewer nodes than the one before. *)
Definition ComputeMerkleRoot (hashes : list (list Z)) : res unit (list Z * bool) :=
  r ← ComputeMerkleRoot_loop (length hashes) hashes false;
  Ok (match r.1 with [] => null_hash | h :: _ => h end, r.2).

Definition BlockMerkleRoot (b : CBlock) : res unit (list Z * bool) := ComputeMerkleRoot (ComputeHash <$> vtx b).

(** The 64-byte blocks that are hashed on the way. *)
Fixpoint merkle_inputs (fuel : nat) (hashes : list (list Z)) : list (list Z) :=
  match fuel, hashes with
  | S fuel, _ :: _ :: _ =>
      ((fun p => p.1 ++ p.2) <$> pairs hashes) ++ merkle_inputs fuel (SHA256D64 <$> pairs hashes)
  | _, _ => []
  end.

End merkle.

(** ** Levels *)

Lemma pairs_length l : (2 * length (pairs l) = length l + length l mod 2)%nat.
Proof.
  induction l as [l IH] using (well_founded_induction (well_founded_ltof _ length)). unfold ltof in IH.
  destruct l as [|a [|b l]]; [done|done|]. cbn [pairs length]. specialize (IH l ltac:(simpl; lia)).
  replace (S (S (length l))) with (length l + 1 * 2)%nat at 2 by lia. rewrite Nat.Div0.mod_add. lia.
Qed.

Lemma pairs_shorter a b l : (length (pairs (a :: b :: l)) < length (a :: b :: l))%nat.
Proof.
  pose proof (pairs_length (a :: b :: l)) as H. pose proof (Nat.mod_upper_bound (length (a :: b :: l)) 2 ltac:(lia)).
  simpl length in *. lia.
Qed.

(** Two levels without repeated neighbours are equal when their pairs are. *)
Lemma pairs_inj l l' : level_mutated l = false -> level_mutated l' = false -> pairs l = pairs l' -> l = l'.
Proof.
  revert l'. induction l as [l IH] using (well_founded_induction (well_founded_ltof _ length)). unfold ltof in IH.
  intros l' Hm Hm' H. destruct l as [|a [|b l]], l' as [|a' [|b' l']]; cbn in *; try done.
  - by injection H as ->.
  - injection H as <- <- H. by rewrite bool_decide_true in Hm'.
  - injection H as -> <- H. by rewrite bool_decide_true in Hm.
  - injection H as <- <- H. apply orb_false_iff in Hm as [_ Hm], Hm' as [_ Hm']. f_equal. f_equal. apply IH; [lia|done..].
Qed.

Section theory.
Context {crypto : CryptoOps} {laws : CryptoLaws crypto}.

Definition hash_ok (h : list Z) : Prop := length h = 32%nat.

Lemma SHA256D64_ok p : hash_ok (SHA256D64 p).
Proof. apply sha256_size. Qed.

Lemma level_ok l : Forall hash_ok (SHA256D64 <$> pairs l).
Proof. apply Forall_fmap, Forall_true. intros. apply SHA256D64_ok. Qed.

Lemma pairs_ok l : Forall hash_ok l -> Forall (fun p => hash_ok p.1 /\ hash_ok p.2) (pairs l).
Proof.
  induction l as [l IH] using (well_founded_induction (well_founded_ltof _ length)). unfold ltof in IH.
  destruct l as [|a [|b l]]; cbn [pairs]; [constructor| |].
  - intros [Ha _]%Forall_cons. constructor; [done|constructor].
  - intros [Ha [Hb Hl]%Forall_cons]%Forall_cons. constructor; [done|]. apply IH; [simpl; lia|done].
Qed.

Lemma pairs_fst l p : p ∈ pairs l -> p.1 ∈ l.
Proof.
  induction l as [l IH] using (well_founded_induction (well_founded_ltof _ length)). unfold ltof in IH.
  destruct l as [|u [|v l]]; cbn [pairs]; [by intros []%elem_of_nil|intros ->%list_elem_of_singleton; left|].
  intros [->|Hp]%elem_of_cons; [left|]. right. right. apply IH; [simpl; lia|done].
Qed.

(** The loop ends with at most one hash. *)
Lemma loop_total fuel l m :
  (length l <= fuel)%nat ->
  exists h m', ComputeMerkleRoot_loop fuel l m = Ok (h, m') /\ (length h <= 1)%nat /\ (l <> [] -> h <> []).
Proof.
  revert l m; induction fuel as [|fuel IH]; intros l m Hf; cbn [ComputeMerkleRoot_loop].
  { destruct l as [|a [|b l]]; simpl in Hf; [|lia..]. exists [], m. split; [done|]. split; [simpl; lia|done]. }
  destruct l as [|a [|b l]]; [exists [], m; repeat split; [simpl; lia|done]|exists [a], m; repeat split; [simpl; lia|done]|].
  pose proof (pairs_shorter a b l). destruct (IH (SHA256D64 <$> pairs (a :: b :: l)) (m || level_mutated (a :: b :: l)))
    as (h & m' & Hl & Hh & Hn); [rewrite length_fmap; lia|]. exists h, m'. split; [done|]. split; [done|]. intros _. by apply Hn.
Qed.

(** The flag of the loop is the one it starts with, or one of a level. *)
Lemma loop_mutation fuel l m h m' :
  ComputeMerkleRoot_loop fuel l m = Ok (h, m') -> m' = false -> m = false.
Proof.
  revert l m; induction fuel as [|fuel IH]; intros l m; cbn [ComputeMerkleRoot_loop]; destruct l as [|a [|b l]];
    try (by intros [= <- <-]). intros H Hm. apply IH in H; [|done]. by apply orb_false_iff in H as [-> _].
Qed.

Abbreviation block_of p := (p.1 ++ p.2).

Lemma merkle_inputs_S f a b l :
  merkle_inputs (S f) (a :: b :: l) =
  ((fun p => block_of p) <$> pairs (a :: b :: l)) ++ merkle_inputs f (SHA256D64 <$> pairs (a :: b :: l)).
Proof. done. Qed.

(** The root of two or more hashes is the hash of a block. *)
Lemma top_is_input f l m h m' :
  ComputeMerkleRoot_loop f l m = Ok (h, m') -> (2 <= length l)%nat ->
  exists x, x ∈ merkle_inputs f l /\ h = [Hash x].
Proof.
  revert l m; induction f as [|f IH]; intros l m; destruct l as [|a [|b l]]; try (simpl; lia); [done|].
  intros H _. cbn [ComputeMerkleRoot_loop] in H. rewrite merkle_inputs_S.
  destruct (decide (2 <= length (pairs (a :: b :: l)))%nat) as [Hl|Hl].
  - destruct (IH _ _ H) as (x & Hx & ->); [by rewrite length_fmap|]. exists x. split; [|done]. apply elem_of_app. by right.
  - destruct (pairs (a :: b :: l)) as [|p [|q ps]] eqn:E; [done| |simpl in Hl; lia].
    exists (block_of p). split; [apply elem_of_app; left; left|]. cbn in H. by destruct f; injection H as <- _.
Qed.

(** The first half of a block is a node of the first level or a hash of a block. *)
Lemma input_nodes f l x :
  Forall hash_ok l -> x ∈ merkle_inputs f l ->
  exists c d, x = c ++ d /\ hash_ok c /\ (c ∈ l \/ exists z, z ∈ merkle_inputs f l /\ c = Hash z).
Proof.
  revert l; induction f as [|f IH]; intros l Hok; destruct l as [|a [|b l]]; try (by intros []%elem_of_nil).
  rewrite merkle_inputs_S. rewrite elem_of_app. intros [Hx|Hx].
  - apply list_elem_of_fmap in Hx as ([c d] & -> & Hp). exists c, d. split; [done|].
    pose proof (pairs_ok _ Hok) as Hf. rewrite Forall_forall in Hf. destruct (Hf _ Hp) as [Hc _]. split; [done|]. left.
    by apply (pairs_fst _ (c, d)).
  - destruct (IH _ (level_ok _) Hx) as (c & d & -> & Hc & Hor). exists c, d. split; [done|]. split; [done|]. right.
    destruct Hor as [Hin|(z & Hz & ->)].
    + apply list_elem_of_fmap in Hin as (p & -> & Hp). exists (block_of p). split; [|done].
      apply elem_of_app. left. apply list_elem_of_fmap. by exists p.
    + exists z. split; [|done]. apply elem_of_app. by right.
Qed.

(** Two different blocks of the two trees with the same hash. *)
Definition Collision (in1 in2 : list (list Z)) : Prop :=
  exists x y, x ∈ in1 ++ in2 /\ y ∈ in1 ++ in2 /\ x <> y /\ Hash x = Hash y.
(** A leaf that is the hash of a block. *)
Definition LeafIsNode (l1 l2 in1 in2 : list (list Z)) : Prop :=
  exists h x, h ∈ l1 ++ l2 /\ x ∈ in1 ++ in2 /\ h = Hash x.

Lemma level_eq_or_collision P Q :
  Forall (fun p => hash_ok p.1 /\ hash_ok p.2) P -> Forall (fun p => hash_ok p.1 /\ hash_ok p.2) Q ->
  SHA256D64 <$> P = SHA256D64 <$> Q ->
  P = Q \/ exists p q, p ∈ P /\ q ∈ Q /\ block_of p <> block_of q /\ Hash (block_of p) = Hash (block_of q).
Proof.
  revert Q; induction P as [|p P IH]; intros [|q Q] HP HQ H; try done; [by left|].
  apply Forall_cons in HP as [[Hp _] HP], HQ as [[Hq _] HQ]. cbn in H. injection H as Hh H.
  destruct (decide (block_of p = block_of q)) as [Heq|Hne].
  - destruct p as [a b], q as [c d]. cbn in *. apply app_inj_1 in Heq as [-> ->]; [|congruence].
    destruct (IH Q HP HQ H) as [->|(p & q & ? & ? & ?)]; [by left|]. right. exists p, q. by repeat split; [right..| |]; destruct_and?.
  - right. exists p, q. repeat split; [left|left|done|done].
Qed.

Lemma Collision_mono a b a' b' : (forall x, x ∈ a ++ b -> x ∈ a' ++ b') -> Collision a b -> Collision a' b'.
Proof. intros H (x & y & Hx & Hy & Hne & Heq). exists x, y. auto. Qed.

(** The blocks hashed from a level on. *)
Definition blocks_from (f : nat) (l : list (list Z)) : list (list Z) :=
  ((fun p => block_of p) <$> pairs l) ++ merkle_inputs f (SHA256D64 <$> pairs l).

Lemma blocks_from_pair f l p : p ∈ pairs l -> block_of p ∈ blocks_from f l.
Proof. intros Hp. apply elem_of_app. left. apply list_elem_of_fmap. by exists p. Qed.

(** A leaf-is-node coincidence one level up is a collision, or one at the leaves. *)
Lemma lift_LeafIsNode f1 f2 k1 k2 :
  Forall hash_ok k1 -> Forall hash_ok k2 ->
  LeafIsNode (SHA256D64 <$> pairs k1) (SHA256D64 <$> pairs k2)
    (merkle_inputs f1 (SHA256D64 <$> pairs k1)) (merkle_inputs f2 (SHA256D64 <$> pairs k2)) ->
  Collision (blocks_from f1 k1) (blocks_from f2 k2) \/ LeafIsNode k1 k2 (blocks_from f1 k1) (blocks_from f2 k2).
Proof.
  intros Hk1 Hk2 (h & x & Hh & Hx & Heq).
  assert (Hp : exists p, block_of p ∈ blocks_from f1 k1 ++ blocks_from f2 k2 /\ p.1 ∈ k1 ++ k2 /\ hash_ok p.1 /\ h = Hash (block_of p)).
  { apply elem_of_app in Hh as [Hh|Hh]; apply list_elem_of_fmap in Hh as (p & -> & Hp); exists p;
      rewrite !elem_of_app; (split; [auto using blocks_from_pair|]);
      (split; [eauto using pairs_fst|]); (split; [|done]).
    - pose proof (pairs_ok _ Hk1) as Hf. rewrite Forall_forall in Hf. by apply (Hf p).
    - pose proof (pairs_ok _ Hk2) as Hf. rewrite Forall_forall in Hf. by apply (Hf p). }
  assert (Hz : exists c d z, x = c ++ d /\ hash_ok c /\ z ∈ blocks_from f1 k1 ++ blocks_from f2 k2 /\ c = Hash z).
  { apply elem_of_app in Hx as [Hx|Hx]; apply input_nodes in Hx as (c & d & -> & Hc & [Hin|(z & Hz & ->)]); try apply level_ok.
    - apply list_elem_of_fmap in Hin as (p & -> & Hin). exists (SHA256D64 p), d, (block_of p).
      split; [done|]. split; [done|]. split; [rewrite elem_of_app; auto using blocks_from_pair|done].
    - exists (Hash z), d, z. unfold blocks_from. rewrite !elem_of_app. auto 6.
    - apply list_elem_of_fmap in Hin as (p & -> & Hin). exists (SHA256D64 p), d, (block_of p).
      split; [done|]. split; [done|]. split; [rewrite elem_of_app; auto using blocks_from_pair|done].
    - exists (Hash z), d, z. unfold blocks_from. rewrite !elem_of_app. auto 6. }
  destruct Hp as (p & Hpin & Hleaf & Hpok & Hhp), Hz as (c & d & z & Hxcd & Hc & Hzin & Hcz).
  assert (Hxin : x ∈ blocks_from f1 k1 ++ blocks_from f2 k2).
  { unfold blocks_from. rewrite !elem_of_app in *. tauto. }
  destruct (decide (x = block_of p)) as [->|Hne].
  - right. exists p.1, z. apply app_inj_1 in Hxcd as [Hpc _]; [|congruence]. rewrite Hpc at 2. by repeat split.
  - left. exists x, (block_of p). repeat split; [done..|congruence].
Qed.

Lemma merkle_binding f1 f2 l1 l2 m1 m2 h :
  Forall hash_ok l1 -> Forall hash_ok l2 -> l1 <> [] -> l2 <> [] ->
  ComputeMerkleRoot_loop f1 l1 m1 = Ok (h, false) -> ComputeMerkleRoot_loop f2 l2 m2 = Ok (h, false) ->
  l1 = l2 \/ Collision (merkle_inputs f1 l1) (merkle_inputs f2 l2) \/
  LeafIsNode l1 l2 (merkle_inputs f1 l1) (merkle_inputs f2 l2).
Proof.
  revert f2 l1 l2 m1 m2; induction f1 as [|f1 IH]; intros f2 l1 l2 m1 m2 Hok1 Hok2 Hn1 Hn2 H1 H2.
  - destruct l1 as [|a [|b l1]]; [done| |done]. injection H1 as <- _.
    destruct l2 as [|c [|d l2]]; [done|destruct f2; injection H2 as -> _; by left|].
    apply top_is_input in H2 as (x & Hx & [= ->]); [|simpl; lia]. right; right. exists (Hash x), x.
    rewrite !elem_of_app. repeat split; [left; left|by right].
  - destruct l1 as [|a [|b l1]]; [done| |].
    { injection H1 as <- _. destruct l2 as [|c [|d l2]]; [done|destruct f2; injection H2 as -> _; by left|].
      apply top_is_input in H2 as (x & Hx & [= ->]); [|simpl; lia]. right; right. exists (Hash x), x.
      rewrite !elem_of_app. repeat split; [left; left|by right]. }
    destruct l2 as [|c [|d l2]]; [done| |].
    { assert (h = [c]) as -> by (by destruct f2; injection H2 as <- _).
      apply top_is_input in H1 as (x & Hx & [= ->]); [|simpl; lia]. right; right. exists (Hash x), x.
      rewrite !elem_of_app. repeat split; [right; left|by left]. }
    destruct f2 as [|f2]; [done|]. rewrite !merkle_inputs_S. fold (blocks_from f1 (a :: b :: l1)) (blocks_from f2 (c :: d :: l2)).
    cbn [ComputeMerkleRoot_loop] in H1, H2.
    pose proof (loop_mutation _ _ _ _ _ H1 eq_refl) as [_ M1]%orb_false_iff. pose proof (loop_mutation _ _ _ _ _ H2 eq_refl) as [_ M2]%orb_false_iff.
    destruct (IH f2 _ _ _ _ (level_ok (a :: b :: l1)) (level_ok (c :: d :: l2)) ltac:(done) ltac:(done) H1 H2) as [Heq|[Hcol|Hleaf]].
    + apply level_eq_or_collision in Heq as [Heq|(p & q & Hp & Hq & Hne & He)]; [|right; left|by apply pairs_ok..].
      { left. by apply pairs_inj. }
      exists (block_of p), (block_of q). rewrite !elem_of_app. auto using blocks_from_pair.
    + right; left. eapply Collision_mono; [|exact Hcol]. intros x. unfold blocks_from. rewrite !elem_of_app. tauto.
    + right. by apply lift_LeafIsNode.
Qed.

(** The same for two roots that were computed. *)
Lemma ComputeMerkleRoot_same l1 l2 r :
  Forall hash_ok l1 -> Forall hash_ok l2 -> l1 <> [] -> l2 <> [] -> ComputeMerkleRoot l1 = Ok (r, false) -> ComputeMerkleRoot l2 = Ok (r, false) ->
  l1 = l2 \/ Collision (merkle_inputs (length l1) l1) (merkle_inputs (length l2) l2) \/
  LeafIsNode l1 l2 (merkle_inputs (length l1) l1) (merkle_inputs (length l2) l2).
Proof.
  intros Hok1 Hok2 Hn1 Hn2. unfold ComputeMerkleRoot.
  destruct (loop_total (length l1) l1 false) as (h1 & m1 & H1 & Hl1 & Hne1); [done|].
  destruct (loop_total (length l2) l2 false) as (h2 & m2 & H2 & Hl2 & Hne2); [done|].
  specialize (Hne1 Hn1). specialize (Hne2 Hn2). rewrite H1, H2. cbn [mbind res_bind fst snd]. intros [= Hr1 ->] [= Hr2 ->].
  destruct h1 as [|x1 [|]], h2 as [|x2 [|]]; try done; try (simpl in *; lia). subst x1 x2. by eapply merkle_binding.
Qed.

End theory.

(** C28: the Merkle root binds the list of transactions: two different lists of hashes that both pass the
    check against repeated neighbours have different roots, unless the two computations contain a
    collision of the double SHA256 (two different blocks of 64 bytes with the same hash) or one of the
    transaction hashes is itself the hash of such a block.  The computation always ends. *)
Theorem MerkleRoot_binding {crypto : CryptoOps} (laws : CryptoLaws crypto) l1 l2 :
  Forall hash_ok l1 -> Forall hash_ok l2 -> l1 <> [] -> l2 <> [] ->
  exists r1 m1 r2 m2, ComputeMerkleRoot l1 = Ok (r1, m1) /\ ComputeMerkleRoot l2 = Ok (r2, m2) /\
    (m1 = false -> m2 = false -> r1 = r2 ->
      l1 = l2 \/ Collision (merkle_inputs (length l1) l1) (merkle_inputs (length l2) l2) \/
      LeafIsNode l1 l2 (merkle_inputs (length l1) l1) (merkle_inputs (length l2) l2)).
Proof.
  intros Hok1 Hok2 Hn1 Hn2.
  destruct (loop_total (length l1) l1 false) as (h1 & m1 & H1 & _); [done|]. destruct (loop_total (length l2) l2 false) as (h2 & m2 & H2 & _); [done|].
  assert (E1 : ComputeMerkleRoot l1 = Ok (match h1 with [] => null_hash | h :: _ => h end, m1)) by (unfold ComputeMerkleRoot; by rewrite H1).
  assert (E2 : ComputeMerkleRoot l2 = Ok (match h2 with [] => null_hash | h :: _ => h end, m2)) by (unfold ComputeMerkleRoot; by rewrite H2).
  do 4 eexists. split; [exact E1|]. split; [exact E2|]. intros -> -> Hr. rewrite <- Hr in E2. by eapply ComputeMerkleRoot_same.
Qed.

Lemma MerkleRoot_binding_witness :
  exists r1 m1 r2 m2, ComputeMerkleRoot (crypto := sum_crypto) [replicate 32 1; replicate 32 2; replicate 32 3] = Ok (r1, m1) /\
    ComputeMerkleRoot (crypto := sum_crypto) [replicate 32 1; replicate 32 2] = Ok (r2, m2) /\
    (m1 = false -> m2 = false -> r1 = r2 ->
      [replicate 32 1; replicate 32 2; replicate 32 3] = [replicate 32 1; replicate 32 2] \/
      Collision (crypto := sum_crypto) (merkle_inputs (crypto := sum_crypto) 3 [replicate 32 1; replicate 32 2; replicate 32 3])
        (merkle_inputs (crypto := sum_crypto) 2 [replicate 32 1; replicate 32 2]) \/
      LeafIsNode (crypto := sum_crypto) [replicate 32 1; replicate 32 2; replicate 32 3] [replicate 32 1; replicate 32 2]
        (merkle_inputs (crypto := sum_crypto) 3 [replicate 32 1; replicate 32 2; replicate 32 3])
        (merkle_inputs (crypto := sum_crypto) 2 [replicate 32 1; replicate 32 2])).
Proof. apply (MerkleRoot_binding sum_crypto_laws); [repeat constructor|repeat constructor|discriminate|discriminate]. Defined.
