(* ===== verification/VersionBits.v ===== *)
(** * Version bits: the deployment state machine and its cache

    Models src/src/versionbits.h and versionbits.cpp.  The abstract class with its five virtual functions
    is the class [ThresholdConditionChecker]; [VersionBitsConditionChecker] is an instance of it. *)

From stdpp Require Import base list numbers gmap.
From S2P Require Import Prelude Script Crypto Interpreter Serialize Transaction Block Chain.

Open Scope Z_scope.

Definition VERSIONBITS_LAST_OLD_BLOCK_VERSION : Z := 4.
Definition VERSIONBITS_TOP_BITS : Z := 0x20000000.
Definition VERSIONBITS_TOP_MASK : Z := s32 0xE0000000.
Definition VERSIONBITS_NUM_BITS : Z := 27.

Inductive ThresholdState : Type := DEFINED | STARTED | LOCKED_IN | ACTIVE | FAILED.

#[export] Instance ThresholdState_eq_dec : EqDecision ThresholdState.
Proof. solve_decision. Defined.

(** Indexed by the parent of the first block of a period; [None] is the null pointer. *)
Abbreviation ThresholdConditionCache := (gmap (option ptr) ThresholdState).

Record BIP9Stats : Type := MkStats { period : Z; threshold : Z; elapsed : Z; count : Z; possible : bool }.

(** The virtual functions of [AbstractThresholdConditionChecker]; [Threshold] can overflow. *)
Class ThresholdConditionChecker : Type := {
  Condition : CBlockIndex -> bool;
  BeginTime : Z;
  EndTime : Z;
  Period : Z;
  Threshold : Z -> res unit Z
}.

Definition INT_MAX : Z := 2 ^ 31 - 1.

Section checker.
Context {checker : ThresholdConditionChecker} (t : heap).

(** [pindex->GetAncestor(pindex->nHeight - ((pindex->nHeight + 1) % nPeriod))]; the remainder by zero is
    undefined. *)
Definition period_start (p : ptr) : res unit (option ptr) :=
  if Period =? 0 then Abort else
  match t !! p with
  | None => Abort
  | Some b => GetAncestor t p (nHeight b - Z.rem (nHeight b + 1) Period)
  end.

(** [pindex->GetAncestor(pindex->nHeight - nPeriod)]. *)
Definition period_parent (p : ptr) : res unit (option ptr) :=
  match t !! p with None => Abort | Some b => GetAncestor t p (nHeight b - Period) end.

(** Backwards to a block whose state is known; the last block pushed is the head of [vToCompute]. *)
Fixpoint back_loop (fuel : nat) (cache : ThresholdConditionCache) (pindexPrev : option ptr) (vToCompute : list ptr) :
    res unit (ThresholdConditionCache * option ptr * list ptr) :=
  match cache !! pindexPrev with
  | Some _ => Ok (cache, pindexPrev, vToCompute)
  | None =>
      match pindexPrev with
      | None => Ok (<[pindexPrev := DEFINED]> cache, pindexPrev, vToCompute)
      | Some p =>
          if GetMedianTimePast t p <? BeginTime then Ok (<[pindexPrev := DEFINED]> cache, pindexPrev, vToCompute) else
          match fuel with
          | O => Abort
          | S fuel => q ← period_parent p; back_loop fuel cache q (p :: vToCompute)
          end
      end
  end.

(** [cache[pindex]] inserts the first state for a key that is not there. *)
Definition cache_at (cache : ThresholdConditionCache) (p : option ptr) : ThresholdState * ThresholdConditionCache :=
  match cache !! p with Some s => (s, cache) | None => (DEFINED, <[p := DEFINED]> cache) end.

(** The lowest start height of the known periods with the state [STARTED]. *)
Fixpoint search_loop (fuel : nat) (cache : ThresholdConditionCache) (pindex_search : option ptr) (state_search : ThresholdState)
    (nStartHeight : Z) : res unit (Z * ThresholdConditionCache) :=
  match state_search with
  | STARTED =>
      match pindex_search with
      | None => Abort
      | Some p =>
          match t !! p, fuel with
          | Some b, S fuel =>
              let nStartHeight := Z.min nStartHeight (nHeight b + 1) in
              q ← period_parent p;
              let '(s, cache) := cache_at cache q in
              search_loop fuel cache q s nStartHeight
          | _, _ => Abort
          end
      end
  | _ => Ok (nStartHeight, cache)
  end.

(** The blocks of a period that satisfy the condition, and the block before the period. *)
Fixpoint count_loop (n : nat) (pindexCount : option ptr) (count : Z) : res unit (Z * option ptr) :=
  match n with
  | O => Ok (count, pindexCount)
  | S n =>
      match pindexCount ≫= fun p => t !! p with
      | None => Abort
      | Some b => count_loop n (pprev b) (if Condition b then count + 1 else count)
      end
  end.

(** One round of the walk forward, for the block [p]: the next state and start height. *)
Definition forward_step (state : ThresholdState) (nStartHeight : Z) (p : ptr) : res unit (ThresholdState * Z) :=
  match t !! p with
  | None => Abort
  | Some b =>
      match state with
      | DEFINED =>
          if EndTime <=? GetMedianTimePast t p then Ok (FAILED, nStartHeight)
          else if BeginTime <=? GetMedianTimePast t p then Ok (STARTED, nHeight b + 1)
          else Ok (DEFINED, nStartHeight)
      | STARTED =>
          if EndTime <=? GetMedianTimePast t p then Ok (FAILED, nStartHeight) else
          '(count, pindexCount) ← count_loop (Z.to_nat Period) (Some p) 0;
          if negb ((0 <? nStartHeight) && (nStartHeight <? INT_MAX)) then Abort else
          match pindexCount ≫= fun q => t !! q with
          | None => Abort
          | Some c =>
              let nAttempt := Z.quot (nHeight c + 1 - nStartHeight) Period in
              thr ← Threshold nAttempt;
              Ok (if thr <=? count then LOCKED_IN else STARTED, nStartHeight)
          end
      | LOCKED_IN => Ok (ACTIVE, nStartHeight)
      | FAILED => Ok (FAILED, nStartHeight)
      | ACTIVE => Ok (ACTIVE, nStartHeight)
      end
  end.

Fixpoint forward_loop (cache : ThresholdConditionCache) (state : ThresholdState) (nStartHeight : Z) (vToCompute : list ptr) :
    res unit (ThresholdState * ThresholdConditionCache) :=
  match vToCompute with
  | [] => Ok (state, cache)
  | p :: vToCompute =>
      '(stateNext, nStartHeight) ← forward_step state nStartHeight p;
      forward_loop (<[Some p := stateNext]> cache) stateNext nStartHeight vToCompute
  end.

(** Heights go down at every step of the two backward loops. *)
Definition height_fuel (p : option ptr) : nat :=
  match p ≫= fun p => t !! p with Some b => S (S (Z.to_nat (nHeight b))) | None => 1 end.

Definition GetStateFor (pindexPrev : option ptr) (cache : ThresholdConditionCache) :
    res unit (ThresholdState * ThresholdConditionCache) :=
  start ← match pindexPrev with Some p => period_start p | None => Ok None end;
  '(cache, known, vToCompute) ← back_loop (height_fuel start) cache start [];
  match cache !! known with
  | None => Abort
  | Some state =>
      '(nStartHeight, cache) ← search_loop (height_fuel known) cache known state INT_MAX;
      forward_loop cache state nStartHeight vToCompute
  end.

(** [while (previousPeriodParent != nullptr && GetStateFor(previousPeriodParent) == initialState)]. *)
Fixpoint since_loop (fuel : nat) (initialState : ThresholdState) (pindexPrev : ptr) (previousPeriodParent : option ptr)
    (cache : ThresholdConditionCache) : res unit (ptr * ThresholdConditionCache) :=
  match previousPeriodParent with
  | None => Ok (pindexPrev, cache)
  | Some q =>
      '(s, cache) ← GetStateFor (Some q) cache;
      if bool_decide (s = initialState) then
        match fuel with
        | O => Abort
        | S fuel => r ← period_parent q; since_loop fuel initialState q r cache
        end
      else Ok (pindexPrev, cache)
  end.

Definition GetStateSinceHeightFor (pindexPrev : option ptr) (cache : ThresholdConditionCache) :
    res unit (Z * ThresholdConditionCache) :=
  '(initialState, cache) ← GetStateFor pindexPrev cache;
  if bool_decide (initialState = DEFINED) then Ok (0, cache) else
  match pindexPrev with
  | None => Abort
  | Some p =>
      start ← period_start p;
      match start with
      | None => Abort
      | Some p =>
          q ← period_parent p;
          '(p, cache) ← since_loop (height_fuel (Some p)) initialState p q cache;
          match t !! p with None => Abort | Some b => Ok (nHeight b + 1, cache) end
      end
  end.

(** [while (pindexEndOfPrevPeriod->nHeight != currentIndex->nHeight)]. *)
Fixpoint stats_loop (fuel : nat) (stop : Z) (currentIndex : option ptr) (count : Z) : res unit Z :=
  match currentIndex ≫= fun p => t !! p with
  | None => Abort
  | Some b =>
      if stop =? nHeight b then Ok count else
      match fuel with
      | O => Abort
      | S fuel => stats_loop fuel stop (pprev b) (if Condition b then count + 1 else count)
      end
  end.

Definition GetStateStatisticsFor (pindex : option ptr) (cache : ThresholdConditionCache) :
    res unit (BIP9Stats * ThresholdConditionCache) :=
  thr0 ← Threshold 0;
  match pindex with
  | None => Ok (MkStats Period thr0 0 0 false, cache)
  | Some p =>
      start ← period_start p;
      match t !! p, start ≫= fun q => t !! q with
      | Some b, Some e =>
          let elapsed := nHeight b - nHeight e in
          '(state, cache) ← GetStateFor start cache;
          '(nAttempt, cache) ←
            (if bool_decide (state = STARTED) then
               '(nStartHeight, cache) ← GetStateSinceHeightFor start cache;
               Ok (Z.quot (nHeight e + 1 - nStartHeight) Period, cache)
             else Ok (0, cache));
          thr ← Threshold nAttempt;
          count ← stats_loop (S (Z.to_nat (nHeight b))) (nHeight e) pindex 0;
          Ok (MkStats Period thr elapsed count (elapsed - count <=? Period - thr), cache)
      | _, _ => Abort
      end
  end.

End checker.

(** ** Deployments *)

Record BIP9Deployment : Type := MkDeployment {
  bit : Z;
  nStartTime : Z;
  nTimeout : Z;
  nWindowSize : Z;
  nThresholdStart : Z;
  nThresholdMin : Z;
  nFalloffCoeff : Z
}.

(** The consensus parameters the checks use. *)
Record ConsensusParams : Type := MkParams {
  vDeployments : list BIP9Deployment;
  nRuleChangeActivationThreshold : Z;
  nMinerConfirmationWindow : Z;
  BIP65Height : Z;
  BIP66Height : Z
}.

Inductive DeploymentPos : Type :=
  | DEPLOYMENT_TESTDUMMY | DEPLOYMENT_CSV | DEPLOYMENT_DIP0001 | DEPLOYMENT_BIP147 | DEPLOYMENT_DIP0003
  | DEPLOYMENT_DIP0008 | DEPLOYMENT_REALLOC | DEPLOYMENT_DIP0020 | DEPLOYMENT_DIP0024.

Definition pos_index (id : DeploymentPos) : nat :=
  match id with
  | DEPLOYMENT_TESTDUMMY => 0 | DEPLOYMENT_CSV => 1 | DEPLOYMENT_DIP0001 => 2 | DEPLOYMENT_BIP147 => 3
  | DEPLOYMENT_DIP0003 => 4 | DEPLOYMENT_DIP0008 => 5 | DEPLOYMENT_REALLOC => 6 | DEPLOYMENT_DIP0020 => 7
  | DEPLOYMENT_DIP0024 => 8
  end.

Definition MAX_VERSION_BITS_DEPLOYMENTS : nat := 9.

(** A product of two [int]s. *)
Definition mul_s32 (a b : Z) : res unit Z :=
  if (- 2 ^ 31 <=? a * b) && (a * b <? 2 ^ 31) then Ok (a * b) else Abort.

Definition vb_Period (params : ConsensusParams) (d : BIP9Deployment) : Z :=
  s32 (if nWindowSize d =? 0 then nMinerConfirmationWindow params else nWindowSize d).

(** [nAttempt * nAttempt * Period(params)] is computed in [int]. *)
Definition vb_Threshold (params : ConsensusParams) (d : BIP9Deployment) (nAttempt : Z) : res unit Z :=
  if nThresholdStart d =? 0 then Ok (s32 (nRuleChangeActivationThreshold params)) else
  if (nThresholdMin d =? 0) || (nFalloffCoeff d =? 0) then Ok (s32 (nThresholdStart d)) else
  sq ← mul_s32 nAttempt nAttempt;
  prod ← mul_s32 sq (vb_Period params d);
  nThresholdCalc ← add_s64 (nThresholdStart d) (- Z.quot (Z.quot prod 100) (nFalloffCoeff d));
  Ok (s32 (Z.max (nThresholdMin d) nThresholdCalc)).

Definition vb_Mask (d : BIP9Deployment) : Z := u32 (Z.shiftl 1 (bit d)).

Definition vb_Condition (d : BIP9Deployment) (b : CBlockIndex) : bool :=
  (Z.land (h_nVersion (index_header b)) VERSIONBITS_TOP_MASK =? VERSIONBITS_TOP_BITS) &&
  negb (Z.land (u32 (h_nVersion (index_header b))) (vb_Mask d) =? 0).

Definition VersionBitsConditionChecker (params : ConsensusParams) (d : BIP9Deployment) : ThresholdConditionChecker := {|
  Condition := vb_Condition d;
  BeginTime := nStartTime d;
  EndTime := nTimeout d;
  Period := vb_Period params d;
  Threshold := vb_Threshold params d
|}.

(** One cache per deployment. *)
Abbreviation VersionBitsCache := (list ThresholdConditionCache).

Definition VersionBitsCache_Clear (cache : VersionBitsCache) : VersionBitsCache := (fun _ => ∅) <$> cache.

(** Call a function of the checker of a deployment with its cache. *)
Definition with_deployment {A : Type} (params : ConsensusParams) (id : DeploymentPos) (cache : VersionBitsCache)
    (f : ThresholdConditionChecker -> ThresholdConditionCache -> res unit (A * ThresholdConditionCache)) : res unit (A * VersionBitsCache) :=
  match vDeployments params !! pos_index id, cache !! pos_index id with
  | Some d, Some c =>
      '(r, c) ← f (VersionBitsConditionChecker params d) c; Ok (r, <[pos_index id := c]> cache)
  | _, _ => Abort
  end.

Definition VersionBitsState (t : heap) (pindexPrev : option ptr) (params : ConsensusParams) (id : DeploymentPos) (cache : VersionBitsCache) :
    res unit (ThresholdState * VersionBitsCache) :=
  with_deployment params id cache (fun checker c => GetStateFor t pindexPrev c).

Definition VersionBitsStatistics (t : heap) (pindexPrev : option ptr) (params : ConsensusParams) (id : DeploymentPos)
    (cache : VersionBitsCache) : res unit (BIP9Stats * VersionBitsCache) :=
  with_deployment params id cache (fun checker c => GetStateStatisticsFor t pindexPrev c).

Definition VersionBitsStateSinceHeight (t : heap) (pindexPrev : option ptr) (params : ConsensusParams) (id : DeploymentPos)
    (cache : VersionBitsCache) : res unit (Z * VersionBitsCache) :=
  with_deployment params id cache (fun checker c => GetStateSinceHeightFor t pindexPrev c).

(** ** The script flags of a block *)

Definition SCRIPT_VERIFY_NONE : Z := 0.
Definition nBIP16SwitchTime : Z := 1333238400.

(** Set [f] when the deployment is active. *)
Definition flag_if_active (t : heap) (pindexPrev : option ptr) (params : ConsensusParams) (id : DeploymentPos) (cache : VersionBitsCache)
    (flags f : Z) : res unit (Z * VersionBitsCache) :=
  '(s, cache) ← VersionBitsState t pindexPrev params id cache;
  Ok (if bool_decide (s = ACTIVE) then Z.lor flags f else flags, cache).

Definition GetBlockScriptFlags (t : heap) (pindex : ptr) (params : ConsensusParams) (cache : VersionBitsCache) :
    res unit (Z * VersionBitsCache) :=
  match t !! pindex with
  | None => Abort
  | Some b =>
      let flags := if nBIP16SwitchTime <=? GetBlockTime b then SCRIPT_VERIFY_P2SH else SCRIPT_VERIFY_NONE in
      let flags := if BIP66Height params <=? nHeight b then Z.lor flags SCRIPT_VERIFY_DERSIG else flags in
      let flags := if BIP65Height params <=? nHeight b then Z.lor flags SCRIPT_VERIFY_CHECKLOCKTIMEVERIFY else flags in
      '(flags, cache) ← flag_if_active t (pprev b) params DEPLOYMENT_CSV cache flags SCRIPT_VERIFY_CHECKSEQUENCEVERIFY;
      '(flags, cache) ← flag_if_active t (pprev b) params DEPLOYMENT_BIP147 cache flags SCRIPT_VERIFY_NULLDUMMY;
      flag_if_active t (pprev b) params DEPLOYMENT_DIP0020 cache flags SCRIPT_ENABLE_DIP0020_OPCODES
  end.
