(* ===== verification/VersionBitsSpec.v ===== *)
(** * The cached deployment states are those of BIP 9

    GetStateFor of src/src/versionbits.cpp, with whatever its cache holds from earlier queries on any
    branch, against the state machine of BIP 9 run from the first block. *)

From stdpp Require Import base list numbers gmap.
From S2P Require Import Prelude Script Crypto Serialize Transaction Block Chain ChainSpec VersionBits.

Open Scope Z_scope.

(** ** The state machine *)

Section spec.
Context {checker : ThresholdConditionChecker}.

Section machine.
Context (t : heap).

Definition signals_at (p : ptr) (i : nat) : Z :=
  match walk i t p ≫= fun q => t !! q with Some b => if Condition b then 1 else 0 | None => 0 end.

(** The blocks that signal among [n] ones ending with [p]. *)
Definition signals (n : nat) (p : ptr) : Z := foldr Z.add 0 (signals_at p <$> seq 0 n).

(** From the state of a period, and the height at which [STARTED] began, to those of the next one. *)
Definition bip9_step (state : ThresholdState) (start : Z) (p : ptr) (b : CBlockIndex) : res unit (ThresholdState * Z) :=
  match state with
  | DEFINED =>
      Ok (if EndTime <=? GetMedianTimePast t p then (FAILED, start)
          else if BeginTime <=? GetMedianTimePast t p then (STARTED, nHeight b + 1) else (DEFINED, start))
  | STARTED =>
      if EndTime <=? GetMedianTimePast t p then Ok (FAILED, start) else
      thr ← Threshold ((nHeight b + 1 - start) / Period - 1);
      Ok (if thr <=? signals (Z.to_nat Period) p then LOCKED_IN else STARTED, start)
  | LOCKED_IN => Ok (ACTIVE, start)
  | ACTIVE => Ok (ACTIVE, start)
  | FAILED => Ok (FAILED, start)
  end.

Definition parent_of (p : ptr) : option ptr :=
  match t !! p with Some b => ancestor t p (nHeight b - Period) | None => None end.

(** The state for the period after the block [p], the last one of the [k]-th period. *)
Fixpoint bip9 (k : nat) (p : option ptr) : res unit (ThresholdState * Z) :=
  match k, p with
  | S k, Some q =>
      match t !! q with
      | None => Ok (DEFINED, 0)
      | Some b => '(s, start) ← bip9 k (parent_of q); bip9_step s start q b
      end
  | _, _ => Ok (DEFINED, 0)
  end.

Definition period_number (p : option ptr) : nat :=
  match p ≫= fun q => t !! q with Some b => Z.to_nat ((nHeight b + 1) / Period) | None => 0 end.

Definition bip9_at (p : option ptr) : res unit (ThresholdState * Z) := bip9 (period_number p) p.

(** The last block of the period before the one that the child of [p] is in. *)
Definition boundary_of (p : option ptr) : option ptr :=
  match p with
  | Some q => match t !! q with Some b => ancestor t q (nHeight b - (nHeight b + 1) mod Period) | None => None end
  | None => None
  end.

(** What the child of [p] sees. *)
Definition bip9_state (p : option ptr) : res unit ThresholdState := '(s, _) ← bip9_at (boundary_of p); Ok s.

End machine.

(** ** What is assumed of the index and the deployment *)

Definition mtp_monotone (t : heap) : Prop :=
  forall p b q, t !! p = Some b -> pprev b = Some q -> GetMedianTimePast t q <= GetMedianTimePast t p.

Record good_index (t : heap) : Prop := {
  good_wf : heap_wf t;
  good_mtp : mtp_monotone t;
  good_height : forall p b, t !! p = Some b -> nHeight b + 1 < INT_MAX
}.

Record good_deployment : Prop := { dep_period : 0 < Period; dep_times : BeginTime <= EndTime }.

Hypothesis dep : good_deployment.

Section proofs.
Context (t : heap) (good : good_index t).

(** ** Boundaries of periods *)

Definition boundary (p : option ptr) : Prop :=
  match p with None => True | Some q => exists b, t !! q = Some b /\ (nHeight b + 1) mod Period = 0 end.

Lemma parent_spec q b :
  t !! q = Some b -> (nHeight b + 1) mod Period = 0 ->
  boundary (parent_of t q) /\ period_number t (Some q) = S (period_number t (parent_of t q)) /\
  match parent_of t q with
  | None => nHeight b + 1 = Period
  | Some r => exists c, t !! r = Some c /\ nHeight c = nHeight b - Period
  end.
Proof.
  intros Hq Hm. pose proof (dep_period dep) as Hp. destruct (good_wf _ good q b Hq) as (_ & H0 & _).
  unfold period_number, parent_of at 1 3. rewrite Hq. cbn [mbind option_bind]. rewrite Hq.
  apply Z.mod_divide in Hm as [k Hk]; [|lia]. rewrite Hk, Z.div_mul by lia. assert (1 <= k) by nia.
  destruct (decide (k = 1)) as [->|Hk1].
  - assert (parent_of t q = None) as -> by (unfold parent_of; rewrite Hq; apply ancestor_negative; lia).
    rewrite ancestor_negative by lia. cbn. split; [done|]. split; [lia|lia].
  - assert (2 * Period <= k * Period) by (apply Z.mul_le_mono_nonneg_r; lia).
    assert (Hrange : 0 <= nHeight b - Period <= nHeight b) by lia.
    destruct (ancestor_Some t (good_wf _ good) q b (nHeight b - Period) Hq Hrange) as (r & c & Hr & Hc & Hh & _).
    assert (parent_of t q = Some r) as -> by (unfold parent_of; by rewrite Hq). rewrite Hr. cbn [mbind option_bind]. rewrite Hc.
    replace (nHeight c + 1) with ((k - 1) * Period) by lia. rewrite Z.div_mul by lia.
    split; [exists c; split; [done|]; replace (nHeight c + 1) with ((k - 1) * Period) by lia; apply Z.mod_mul; lia|].
    split; [lia|]. by exists c.
Qed.

Lemma bip9_at_unfold q b :
  t !! q = Some b -> (nHeight b + 1) mod Period = 0 ->
  bip9_at t (Some q) = '(s, start) ← bip9_at t (parent_of t q); bip9_step t s start q b.
Proof. intros Hq Hm. destruct (parent_spec q b Hq Hm) as (_ & Hn & _). unfold bip9_at. rewrite Hn. cbn [bip9]. by rewrite Hq. Qed.

(** Induction on the periods. *)
Lemma boundary_ind (P : option ptr -> Prop) :
  P None -> (forall q b, t !! q = Some b -> (nHeight b + 1) mod Period = 0 -> P (parent_of t q) -> P (Some q)) ->
  forall p, boundary p -> P p.
Proof.
  intros H0 HS p Hp. remember (period_number t p) as k eqn:Ek. revert p Hp Ek. induction k as [|k IH]; intros [q|] Hp Ek; try done.
  - destruct Hp as (b & Hq & Hm). destruct (parent_spec q b Hq Hm) as (_ & Hn & _). congruence.
  - destruct Hp as (b & Hq & Hm). destruct (parent_spec q b Hq Hm) as (Hb & Hn & _). apply (HS q b Hq Hm), IH; [done|congruence].
Qed.

(** ** Times and start heights *)

Lemma mtp_walk n p q : walk n t p = Some q -> GetMedianTimePast t q <= GetMedianTimePast t p.
Proof.
  revert p; induction n as [|n IH]; intros p; cbn [walk]; [intros [= <-]; lia|].
  destruct (t !! p) as [b|] eqn:E; [|done]. destruct (pprev b) as [r|] eqn:Er; cbn; [|done].
  intros H%IH. pose proof (good_mtp _ good p b r E Er). lia.
Qed.

Lemma mtp_parent q r : parent_of t q = Some r -> GetMedianTimePast t r <= GetMedianTimePast t q.
Proof.
  unfold parent_of, ancestor. destruct (t !! q) as [b|]; [|done]. destruct (_ || _); [done|]. apply mtp_walk.
Qed.

(** Before the start time every period is in the first state. *)
Lemma bip9_early p :
  boundary p -> (forall q, p = Some q -> GetMedianTimePast t q < BeginTime) -> bip9_at t p = Ok (DEFINED, 0).
Proof.
  intros Hb. pattern p. revert p Hb. apply boundary_ind; [done|].
  intros q b Hq Hm IH Ht. rewrite (bip9_at_unfold q b Hq Hm), IH. 2:{ intros r Hr. pose proof (mtp_parent q r Hr). specialize (Ht q eq_refl). lia. }
  cbn [mbind res_bind bip9_step]. specialize (Ht q eq_refl). pose proof (dep_times dep).
  rewrite !(proj2 (Z.leb_gt _ _)) by lia. done.
Qed.

Lemma bip9_start p : boundary p -> forall start, bip9_at t p = Ok (STARTED, start) ->
  exists q b, p = Some q /\ t !! q = Some b /\ 0 < start <= nHeight b + 1 /\ (nHeight b + 1 - start) mod Period = 0.
Proof.
  intros Hb. pattern p. revert p Hb. apply boundary_ind; [done|].
  intros q b Hq Hm IH start. destruct (parent_spec q b Hq Hm) as (_ & _ & Hpar). rewrite (bip9_at_unfold q b Hq Hm). pose proof (dep_period dep).
  destruct (good_wf _ good q b Hq) as (_ & H0 & _).
  destruct (bip9_at t (parent_of t q)) as [[s st]| |] eqn:E; cbn [mbind res_bind]; [|done..]. destruct s; cbn [bip9_step].
  - destruct (_ <=? _); [done|]. destruct (_ <=? _); [|done]. intros [= <-]. exists q, b. rewrite Z.sub_diag. repeat split; [done|lia|lia].
  - destruct (_ <=? _); [done|]. destruct (Threshold _); cbn [mbind res_bind]; [|done..]. destruct (_ <=? _); [done|]. intros [= <-].
    destruct (IH st eq_refl) as (r & c & Hr & Hc & Hst & Hmod). rewrite Hr in Hpar. destruct Hpar as (c' & Hc' & Hh).
    rewrite Hc in Hc'. injection Hc' as <-. exists q, b. repeat split; [done|lia|lia|].
    replace (nHeight b + 1 - st) with (nHeight c + 1 - st + 1 * Period) by lia. by rewrite Z.mod_add by lia.
  - done.
  - done.
  - done.
Qed.

(** ** The loops *)

(** A cache that earlier queries can have left. *)
Definition cache_ok (cache : ThresholdConditionCache) : Prop :=
  forall p s, cache !! p = Some s ->
    boundary p /\ (exists start, bip9_at t p = Ok (s, start)) /\
    (s = STARTED -> forall q, p = Some q -> is_Some (cache !! parent_of t q)).

Lemma threshold_cache_insert cache p s start :
  cache_ok cache -> boundary p -> bip9_at t p = Ok (s, start) ->
  (s = STARTED -> forall q, p = Some q -> is_Some (cache !! parent_of t q)) -> cache_ok (<[p := s]> cache).
Proof.
  intros Hok Hb Hs Hpar p' s'. assert (Hmono : forall k, is_Some (cache !! k) -> is_Some (<[p := s]> cache !! k)).
  { intros k [x Hk]. rewrite lookup_insert. case_decide; eauto. }
  rewrite lookup_insert. case_decide as Hp.
  - intros [= <-]. subst p'. split; [done|]. split; [by exists start|]. intros Hst q Hq. by apply Hmono, Hpar.
  - intros (Hb' & Hs' & Hpar')%Hok. split; [done|]. split; [done|]. intros Hst q Hq. by apply Hmono, Hpar'.
Qed.

(** [vs] goes on from [p], period by period. *)
Fixpoint linked (p : option ptr) (vs : list ptr) : Prop :=
  match vs with
  | [] => True
  | v :: vs => boundary (Some v) /\ parent_of t v = p /\ linked (Some v) vs
  end.

Definition last_of (p : option ptr) (vs : list ptr) : option ptr := match last vs with Some v => Some v | None => p end.

Lemma last_of_cons p v vs : last_of p (v :: vs) = last_of (Some v) vs.
Proof. unfold last_of. rewrite last_cons. by destruct (last vs). Qed.

Lemma period_parent_spec q b : t !! q = Some b -> period_parent t q = Ok (parent_of t q).
Proof. intros Hq. unfold period_parent, parent_of. rewrite Hq. by apply (GetAncestor_spec t (good_wf _ good) q b). Qed.

Lemma period_number_height q b : t !! q = Some b -> (period_number t (Some q) <= height_fuel t (Some q))%nat.
Proof.
  intros Hq. unfold period_number, height_fuel. cbn [mbind option_bind]. rewrite Hq. pose proof (dep_period dep).
  destruct (good_wf _ good q b Hq) as (_ & H0 & _).
  assert ((nHeight b + 1) / Period <= nHeight b + 1) by (apply Z.div_le_upper_bound; nia). lia.
Qed.

Lemma back_loop_spec fuel cache p vs :
  cache_ok cache -> boundary p -> linked p vs -> (period_number t p <= fuel)%nat ->
  exists cache' known vs', back_loop t fuel cache p vs = Ok (cache', known, vs') /\
    cache_ok cache' /\ is_Some (cache' !! known) /\ linked known vs' /\ last_of known vs' = last_of p vs.
Proof.
  revert p vs; induction fuel as [|fuel IH]; intros p vs Hok Hb Hl Hf.
  all: cbn [back_loop]; destruct (cache !! p) as [s|] eqn:Ec; [by exists cache, p, vs|].
  all: assert (Hdef : (forall q, p = Some q -> GetMedianTimePast t q < BeginTime) ->
      cache_ok (<[p := DEFINED]> cache) /\ is_Some (<[p := DEFINED]> cache !! p)) by
    (intros Ht; split; [eapply threshold_cache_insert; [done|done|by apply bip9_early|done]|rewrite lookup_insert_eq; by eexists]).
  all: destruct p as [q|]; [|by destruct Hdef; eauto 10].
  all: destruct (GetMedianTimePast t q <? BeginTime) eqn:Et; bprop; [by destruct Hdef; [intros ? [= <-]|eauto 10]|].
  all: destruct Hb as (b & Hq & Hm); destruct (parent_spec q b Hq Hm) as (Hb' & Hn & _).
  - lia.
  - rewrite (period_parent_spec q b Hq). cbn [mbind res_bind].
    destruct (IH (parent_of t q) (q :: vs) Hok Hb') as (cache' & known & vs' & -> & Hok' & Hk & Hl' & Hlast);
      [split; [by exists b|done]|lia|]. exists cache', known, vs'. rewrite last_of_cons in Hlast. done.
Qed.

Lemma search_loop_spec fuel cache p s start n :
  cache_ok cache -> cache !! p = Some s -> bip9_at t p = Ok (s, start) -> (period_number t p <= fuel)%nat ->
  search_loop t fuel cache p s n = Ok (if decide (s = STARTED) then Z.min n start else n, cache).
Proof.
  revert p s n; induction fuel as [|fuel IH]; intros p s n Hok Hc Hs Hf; destruct (Hok p s Hc) as (Hb & _ & Hpar).
  all: destruct (decide (s = STARTED)) as [->|Hne]; [|by destruct s].
  all: destruct (bip9_start p Hb start Hs) as (q & b & -> & Hq & Hst & _); destruct Hb as (b' & Hq' & Hm).
  all: rewrite Hq in Hq'; injection Hq' as <-; destruct (parent_spec q b Hq Hm) as (Hb & Hn & Hpp).
  { lia. }
  cbn [search_loop]. rewrite Hq, (period_parent_spec q b Hq). cbn [mbind res_bind].
  destruct (Hpar eq_refl q eq_refl) as [s' Hs']. unfold cache_at. rewrite Hs'. destruct (Hok _ _ Hs') as (Hbr & (st' & Hst') & _).
  rewrite (bip9_at_unfold q b Hq Hm), Hst' in Hs. cbn [mbind res_bind] in Hs.
  destruct s'; cbn [bip9_step] in Hs; try done.
  - destruct (_ <=? _); [done|]. destruct (_ <=? _); [|done]. injection Hs as <-. by destruct fuel.
  - destruct (_ <=? _); [done|]. destruct (Threshold _); cbn [mbind res_bind] in Hs; [|done..]. destruct (_ <=? _); [done|]. injection Hs as <-.
    rewrite (IH (parent_of t q) STARTED _ Hok Hs' Hst') by lia. rewrite decide_True by done. do 2 f_equal. lia.
Qed.

Lemma signals_S n p b q : t !! p = Some b -> pprev b = Some q -> signals t (S n) p = (if Condition b then 1 else 0) + signals t n q.
Proof.
  intros Hp Hq. unfold signals. cbn [seq]. rewrite fmap_cons. cbn [foldr]. f_equal.
  - unfold signals_at. cbn. by rewrite Hp.
  - rewrite <- (fmap_S_seq 0), <- list_fmap_compose. f_equal. apply list_fmap_ext. intros i k _.
    unfold signals_at. cbn [compose walk]. by rewrite Hp, Hq.
Qed.

Lemma count_loop_spec n p b count :
  t !! p = Some b -> Z.of_nat n <= nHeight b -> count_loop t n (Some p) count = Ok (count + signals t n p, walk n t p).
Proof.
  revert p b count; induction n as [|n IH]; intros p b count Hp Hn; [by rewrite Z.add_0_r|].
  destruct (good_wf _ good p b Hp) as (Hprev & _). cbn [count_loop mbind option_bind walk]. rewrite Hp.
  destruct (pprev b) as [q|] eqn:Eq; [|lia]. destruct Hprev as (c & Hc & _ & Hh).
  rewrite (signals_S n p b q Hp Eq), (IH q c) by (done || lia). cbn. do 2 f_equal. destruct (Condition b); lia.
Qed.

(** The step of the walk forward is that of the state machine. *)
Lemma forward_step_spec q b s start n :
  t !! q = Some b -> (nHeight b + 1) mod Period = 0 -> bip9_at t (parent_of t q) = Ok (s, start) ->
  (s = STARTED -> n = start) ->
  match bip9_at t (Some q) with
  | Ok (s', start') => exists n', forward_step t s n q = Ok (s', n') /\ (s' = STARTED -> n' = start')
  | Err e => forward_step t s n q = Err e
  | Abort => forward_step t s n q = Abort
  end.
Proof.
  intros Hq Hm Hs Hn. rewrite (bip9_at_unfold q b Hq Hm), Hs. cbn [mbind res_bind]. unfold forward_step. rewrite Hq.
  destruct s; cbn [bip9_step].
  - destruct (_ <=? _); [by eexists|]. destruct (_ <=? _); by eexists.
  - destruct (_ <=? _); [by eexists|]. rewrite (Hn eq_refl). destruct (parent_spec q b Hq Hm) as (Hb & _ & Hpar).
    destruct (bip9_start _ Hb start Hs) as (r & c & Hr & Hc & Hst & Hmod). rewrite Hr in Hpar. destruct Hpar as (c' & Hc' & Hh).
    rewrite Hc in Hc'. injection Hc' as <-. pose proof (dep_period dep) as Hp. destruct (good_wf _ good r c Hc) as (_ & H0 & _).
    rewrite (count_loop_spec _ q b) by (done || lia). cbn [mbind res_bind]. rewrite Z.add_0_l.
    pose proof (good_height _ good r c Hc). rewrite (proj2 (Z.ltb_lt 0 start)), (proj2 (Z.ltb_lt start INT_MAX)) by lia. cbn [andb negb].
    assert (walk (Z.to_nat Period) t q = Some r) as ->.
    { unfold parent_of, ancestor in Hr. rewrite Hq in Hr. destruct (_ || _); [done|].
      by replace (Z.to_nat (nHeight b - (nHeight b - Period))) with (Z.to_nat Period) in Hr by lia. }
    cbn [mbind option_bind]. rewrite Hc, Z.quot_div_nonneg by lia.
    replace ((nHeight c + 1 - start) / Period) with ((nHeight b + 1 - start) / Period - 1).
    2:{ replace (nHeight b + 1 - start) with (nHeight c + 1 - start + 1 * Period) by lia. rewrite Z.div_add by lia. lia. }
    destruct (Threshold _); cbn [mbind res_bind]; [|done..]. by eexists.
  - by eexists.
  - by eexists.
  - by eexists.
Qed.

(** An overflow of the threshold of a period is one of all later periods. *)
Lemma bip9_error p vs (r : res unit (ThresholdState * Z)) :
  linked p vs -> bip9_at t p = r -> (forall x, r <> Ok x) -> bip9_at t (last_of p vs) = r.
Proof.
  revert p; induction vs as [|v vs IH]; intros p Hl Hr Hn; [done|]. rewrite last_of_cons. destruct Hl as ((b & Hv & Hm) & Hp & Hl).
  apply IH; [done| |done]. rewrite (bip9_at_unfold v b Hv Hm), Hp, Hr. destruct r as [x| |]; [by destruct (Hn x)|done..].
Qed.

Lemma forward_loop_spec cache p s start n vs :
  cache_ok cache -> is_Some (cache !! p) -> linked p vs -> bip9_at t p = Ok (s, start) -> (s = STARTED -> n = start) ->
  match bip9_at t (last_of p vs) with
  | Ok (s', _) => exists cache', forward_loop t cache s n vs = Ok (s', cache') /\ cache_ok cache'
  | Err e => forward_loop t cache s n vs = Err e
  | Abort => forward_loop t cache s n vs = Abort
  end.
Proof.
  revert cache p s start n; induction vs as [|v vs IH]; intros cache p s start n Hok Hp Hl Hs Hn; cbn [forward_loop].
  { unfold last_of. cbn. rewrite Hs. eauto. }
  rewrite last_of_cons. destruct Hl as ((b & Hv & Hm) & Hpar & Hl). subst p.
  pose proof (forward_step_spec v b s start n Hv Hm Hs Hn) as Hstep. destruct (bip9_at t (Some v)) as [[s' start']| |] eqn:E.
  - destruct Hstep as (n' & -> & Hn'). cbn [mbind res_bind]. apply (IH _ (Some v) s' start' n'); [|by rewrite lookup_insert_eq; eexists|done|done|done].
    eapply threshold_cache_insert; [done|by exists b|done|]. by intros _ ? [= <-].
  - rewrite (bip9_error (Some v) vs _ Hl E), Hstep by done. done.
  - rewrite (bip9_error (Some v) vs _ Hl E), Hstep by done. done.
Qed.

(** The pointers a query can be about. *)
Definition valid_ptr (p : option ptr) : Prop := forall q, p = Some q -> is_Some (t !! q).

Lemma boundary_of_spec p : valid_ptr p -> boundary (boundary_of t p) /\
  (match p with Some q => period_start t q | None => Ok None end) = Ok (boundary_of t p).
Proof.
  intros Hp. destruct p as [q|]; [|done]. destruct (Hp q eq_refl) as [b Hq]. pose proof (dep_period dep) as Hper.
  destruct (good_wf _ good q b Hq) as (_ & H0 & _). pose proof (Z.mod_pos_bound (nHeight b + 1) Period Hper) as Hmod.
  unfold boundary_of, period_start. rewrite Hq, (proj2 (Z.eqb_neq _ 0)), Z.rem_mod_nonneg by lia. split.
  - destruct (decide (nHeight b - (nHeight b + 1) mod Period < 0)) as [Hn|Hn]; [by rewrite ancestor_negative|].
    assert (Hrange : 0 <= nHeight b - (nHeight b + 1) mod Period <= nHeight b) by lia.
    destruct (ancestor_Some t (good_wf _ good) q b _ Hq Hrange) as (r & c & -> & Hc & Hh & _).
    exists c. split; [done|]. rewrite Hh. replace (nHeight b - (nHeight b + 1) mod Period + 1) with (nHeight b + 1 - (nHeight b + 1) mod Period) by lia.
    rewrite Zminus_mod_idemp_r, Z.sub_diag. apply Z.mod_0_l. lia.
  - by apply (GetAncestor_spec t (good_wf _ good) q b).
Qed.

Lemma GetStateFor_spec cache p :
  cache_ok cache -> valid_ptr p ->
  match bip9_state t p with
  | Ok s => exists cache', GetStateFor t p cache = Ok (s, cache') /\ cache_ok cache'
  | Err e => GetStateFor t p cache = Err e
  | Abort => GetStateFor t p cache = Abort
  end.
Proof.
  intros Hok Hp. destruct (boundary_of_spec p Hp) as [Hb Hstart]. unfold GetStateFor, bip9_state. rewrite Hstart. cbn [mbind res_bind].
  set (q := boundary_of t p) in *. destruct (back_loop_spec (height_fuel t q) cache q [] Hok Hb I) as (c1 & known & vs & -> & Hok1 & [s Hk] & Hl & Hlast).
  { destruct q as [q|]; [destruct Hb as (b & Hq & _); by eapply period_number_height|cbn; lia]. }
  cbn [mbind res_bind]. rewrite Hk. destruct (Hok1 known s Hk) as (Hbk & (start & Hs) & _).
  rewrite (search_loop_spec _ c1 known s start); [|done|done|done|].
  2:{ destruct known as [k|]; [destruct Hbk as (b & Hkb & _); by eapply period_number_height|cbn; lia]. }
  cbn [mbind res_bind]. pose proof (forward_loop_spec c1 known s start (if decide (s = STARTED) then Z.min INT_MAX start else INT_MAX) vs) as Hfw.
  rewrite Hlast in Hfw. change (last_of q []) with q in Hfw.
  assert (Hmin : s = STARTED -> (if decide (s = STARTED) then Z.min INT_MAX start else INT_MAX) = start).
  { intros ->. destruct (bip9_start known Hbk start Hs) as (k & b & -> & Hkb & Hst & _). pose proof (good_height _ good k b Hkb).
    rewrite decide_True by done. lia. }
  specialize (Hfw Hok1 ltac:(by eexists) Hl Hs Hmin). destruct (bip9_at t q) as [[s' st']| |]; exact Hfw.
Qed.

(** A descendant of a boundary in a later period. *)
Definition later (B q : ptr) : Prop :=
  exists bB bq, t !! B = Some bB /\ t !! q = Some bq /\ nHeight bB < nHeight bq /\ ancestor t q (nHeight bB) = Some B.

Lemma bip9_at_final B sB stB p :
  boundary (Some B) -> bip9_at t (Some B) = Ok (sB, stB) -> sB = LOCKED_IN \/ sB = ACTIVE ->
  boundary p -> forall q, p = Some q -> later B q -> exists st, bip9_at t p = Ok (ACTIVE, st).
Proof.
  intros (bB & HB & HmB) HsB Hfin Hb. pattern p. revert p Hb. apply boundary_ind; [done|].
  intros q b Hq Hm IH ? [= <-] (bB' & bq & HB' & Hq' & Hlt & Hanc). rewrite HB in HB'. injection HB' as <-. rewrite Hq in Hq'. injection Hq' as <-.
  pose proof (dep_period dep) as Hp. destruct (parent_spec q b Hq Hm) as (_ & _ & Hpar).
  apply Z.mod_divide in Hm as Hm'; [|lia]. apply Z.mod_divide in HmB as HmB'; [|lia]. destruct Hm' as [j Hj], HmB' as [i Hi].
  destruct (good_wf _ good B bB HB) as (_ & H0 & _). assert (i < j) by nia. assert (Hrange : nHeight bB <= nHeight b - Period) by nia.
  rewrite (bip9_at_unfold q b Hq Hm). destruct (parent_of t q) as [r|] eqn:Er; [|nia]. destruct Hpar as (c & Hc & Hh).
  assert (Hr : ancestor t q (nHeight b - Period) = Some r) by (unfold parent_of in Er; by rewrite Hq in Er).
  assert (HrB : ancestor t r (nHeight bB) = Some B) by (by rewrite (ancestor_trans t (good_wf _ good) q b _ r _ Hq Hr Hrange)).
  destruct (decide (nHeight bB = nHeight c)) as [Heq|Hne].
  - rewrite Heq, (ancestor_self t (good_wf _ good) r c Hc) in HrB. injection HrB as ->. rewrite HsB.
    destruct Hfin as [-> | ->]; by eexists.
  - destruct (IH r eq_refl) as [st ->]; [|by eexists]. exists bB, c. split; [done|]. split; [done|]. split; [lia|done].
Qed.

Lemma boundary_later p bp q bq B :
  t !! p = Some bp -> t !! q = Some bq -> ancestor t q (nHeight bp) = Some p ->
  (nHeight bp + 1) / Period < (nHeight bq + 1) / Period -> boundary_of t (Some p) = Some B ->
  exists Q, boundary_of t (Some q) = Some Q /\ later B Q.
Proof.
  intros Hp Hq Hanc Hlt HB. pose proof (dep_period dep) as Hper. unfold boundary_of in *. rewrite Hp in HB. rewrite Hq.
  destruct (good_wf _ good p bp Hp) as (_ & Hp0 & _). destruct (good_wf _ good q bq Hq) as (_ & Hq0 & _).
  assert (Hne0 : Period <> 0) by lia. pose proof (Z.div_mod (nHeight bp + 1) Period Hne0) as Hdp. pose proof (Z.div_mod (nHeight bq + 1) Period Hne0) as Hdq.
  pose proof (Z.mod_pos_bound (nHeight bp + 1) Period Hper) as Hmp. pose proof (Z.mod_pos_bound (nHeight bq + 1) Period Hper) as Hmq.
  pose proof (Z.mul_le_mono_nonneg_l ((nHeight bp + 1) / Period + 1) ((nHeight bq + 1) / Period) Period) as Hmul.
  set (hp := nHeight bp - (nHeight bp + 1) mod Period) in *. set (hq := nHeight bq - (nHeight bq + 1) mod Period).
  assert (Hrange : 0 <= hq <= nHeight bq) by (unfold hq; lia). assert (Hhh : hp + Period <= hq) by (unfold hp, hq; lia).
  assert (Hhp : 0 <= hp). { apply Z.le_ngt. intros Hn. by rewrite ancestor_negative in HB. }
  destruct (ancestor_Some t (good_wf _ good) q bq hq Hq Hrange) as (Q & bQ & HQ & HbQ & HhQ & _).
  assert (Hrp : 0 <= hp <= nHeight bp) by (unfold hp in *; lia). destruct (ancestor_Some t (good_wf _ good) p bp hp Hp Hrp) as (B' & bB & HB' & HbB & HhB & _).
  rewrite HB in HB'. injection HB' as <-. exists Q. split; [done|]. exists bB, bQ. split; [done|]. split; [done|]. split; [lia|].
  rewrite HhB, (ancestor_trans t (good_wf _ good) q bq hq Q hp Hq HQ) by lia. rewrite <- HB. symmetry.
  apply (ancestor_trans t (good_wf _ good) q bq (nHeight bp) p hp Hq Hanc). lia.
Qed.
End proofs.

(** ** The index grows *)

Section grow.
Context (t t' : heap) (wf : heap_wf t).

Lemma past_times_app n p : (p < length t)%nat -> past_times n (t ++ t') (Some p) = past_times n t (Some p).
Proof.
  revert p; induction n as [|n IH]; intros p Hp; [done|]. cbn [past_times mbind option_bind]. rewrite lookup_app_l by done.
  destruct (t !! p) as [b|] eqn:E; [|done]. f_equal. destruct (wf p b E) as (Hprev & _).
  destruct (pprev b) as [q|]; [destruct Hprev as (c & Hc & _); apply IH; by eapply lookup_lt_Some|]. by destruct n.
Qed.

Lemma GetMedianTimePast_app p : (p < length t)%nat -> GetMedianTimePast (t ++ t') p = GetMedianTimePast t p.
Proof. intros Hp. unfold GetMedianTimePast. by rewrite past_times_app. Qed.

Lemma signals_app n p : (p < length t)%nat -> signals (t ++ t') n p = signals t n p.
Proof.
  intros Hp. unfold signals. f_equal. apply list_fmap_ext. intros i k _. unfold signals_at. rewrite walk_app by done.
  destruct (walk k t p) as [q|] eqn:E; [|done]. cbn. by rewrite lookup_app_l by by eapply walk_lt.
Qed.

Lemma parent_of_app p : (p < length t)%nat -> parent_of (t ++ t') p = parent_of t p.
Proof.
  intros Hp. unfold parent_of. rewrite lookup_app_l by done. destruct (t !! p); [|done]. by apply ancestor_app.
Qed.

Lemma parent_of_lt p q : parent_of t p = Some q -> (q < length t)%nat.
Proof.
  unfold parent_of, ancestor. destruct (t !! p) as [b|] eqn:E; [|done]. destruct (_ || _); [done|].
  apply walk_lt; [done|]. by eapply lookup_lt_Some.
Qed.

Lemma bip9_app k p : valid_ptr t p -> bip9 (t ++ t') k p = bip9 t k p.
Proof.
  revert p; induction k as [|k IH]; intros [q|] Hp; try done. destruct (Hp q eq_refl) as [b Hq]. pose proof (lookup_lt_Some _ _ _ Hq).
  cbn [bip9]. rewrite lookup_app_l, Hq, parent_of_app, IH by (done || (intros r Hr; apply lookup_lt_is_Some_2; by eapply parent_of_lt)).
  destruct (bip9 t k (parent_of t q)) as [[s st]| |]; [|done..]. cbn [mbind res_bind]. unfold bip9_step.
  by rewrite GetMedianTimePast_app, signals_app.
Qed.

Lemma bip9_at_app p : valid_ptr t p -> bip9_at (t ++ t') p = bip9_at t p.
Proof.
  intros Hp. unfold bip9_at. replace (period_number (t ++ t') p) with (period_number t p); [by apply bip9_app|].
  unfold period_number. destruct p as [q|]; [|done]. cbn. destruct (Hp q eq_refl) as [b Hq]. by rewrite lookup_app_l by by eapply lookup_lt_Some.
Qed.

Lemma cache_ok_app cache : cache_ok t cache -> cache_ok (t ++ t') cache.
Proof.
  intros Hok p s (Hb & (start & Hs) & Hpar)%Hok.
  assert (Hv : valid_ptr t p) by (intros q ->; destruct Hb as (b & Hq & _); by eexists).
  split; [destruct p as [q|]; [destruct Hb as (b & Hq & Hm); exists b; split; [by apply lookup_app_l_Some|done]|done]|].
  split; [exists start; by rewrite bip9_at_app|]. intros Hst q ->. destruct (Hv q eq_refl) as [b Hq].
  rewrite parent_of_app by by eapply lookup_lt_Some. by apply Hpar.
Qed.
End grow.

(** The caches that queries about any blocks leave, while headers are added. *)
Inductive Queried : heap -> ThresholdConditionCache -> Prop :=
  | Queried_empty t : good_index t -> Queried t ∅
  | Queried_grow t t' cache : Queried t cache -> good_index (t ++ t') -> Queried (t ++ t') cache
  | Queried_query t cache p s cache' :
      Queried t cache -> valid_ptr t p -> GetStateFor t p cache = Ok (s, cache') -> Queried t cache'.

Lemma Queried_ok t cache : Queried t cache -> good_index t /\ cache_ok t cache.
Proof.
  induction 1 as [t Hg|t t' cache _ [Hg IH] Hg'|t cache p s cache' _ [Hg IH] Hp Hq].
  - split; [done|]. intros p s Hp. by rewrite lookup_empty in Hp.
  - split; [done|]. apply cache_ok_app; [apply Hg|done].
  - split; [done|]. pose proof (GetStateFor_spec t Hg cache p IH Hp) as Hs. destruct (bip9_state t p).
    + destruct Hs as (c & Heq & Hok). rewrite Hq in Heq. by injection Heq as <- <-.
    + congruence.
    + congruence.
Qed.
End spec.

(** C35: the cache of deployment states is transparent: after any history of queries, on any branches and
    while the index grows, [GetStateFor] returns the state that the machine of BIP 9 has when run from
    the first block, with the threshold that falls with the number of attempts; no assertion fails and
    no null pointer is dereferenced, and the only error is an overflow in the threshold. *)
Theorem GetStateFor_is_BIP9 {checker : ThresholdConditionChecker} t cache p :
  good_deployment -> Queried t cache -> valid_ptr t p ->
  match bip9_state t p with
  | Ok s => exists cache', GetStateFor t p cache = Ok (s, cache') /\ Queried t cache'
  | Err e => GetStateFor t p cache = Err e
  | Abort => GetStateFor t p cache = Abort
  end.
Proof.
  intros dep Hc Hp. destruct (Queried_ok dep t cache Hc) as [Hg Hok]. pose proof (GetStateFor_spec dep t Hg cache p Hok Hp) as Hs.
  destruct (bip9_state t p); [|done..]. destruct Hs as (c & Hs & _). exists c. split; [done|]. by eapply Queried_query.
Qed.

(** Activation is irrevocable on a chain: once a query for a block says [LOCKED_IN] or [ACTIVE],
    every later query about a descendant in a later period says [ACTIVE], whatever else was asked in
    between. *)
Theorem locked_in_becomes_active {checker : ThresholdConditionChecker} t c1 c2 c3 p bp q bq s :
  good_deployment -> Queried t c1 -> Queried t c3 ->
  t !! p = Some bp -> t !! q = Some bq -> ancestor t q (nHeight bp) = Some p ->
  (nHeight bp + 1) / Period < (nHeight bq + 1) / Period ->
  GetStateFor t (Some p) c1 = Ok (s, c2) -> s = LOCKED_IN \/ s = ACTIVE ->
  exists c4, GetStateFor t (Some q) c3 = Ok (ACTIVE, c4).
Proof.
  intros dep H1 H3 Hp Hq Hanc Hlt Hs Hfin. destruct (Queried_ok dep t c1 H1) as [Hg Hok1]. destruct (Queried_ok dep t c3 H3) as [_ Hok3].
  assert (Hvp : valid_ptr t (Some p)) by (intros ? [= <-]; by eexists). assert (Hvq : valid_ptr t (Some q)) by (intros ? [= <-]; by eexists).
  pose proof (GetStateFor_spec dep t Hg c1 (Some p) Hok1 Hvp) as Hsp. pose proof (GetStateFor_spec dep t Hg c3 (Some q) Hok3 Hvq) as Hsq.
  destruct (boundary_of_spec dep t Hg _ Hvp) as [Hbp _]. destruct (boundary_of_spec dep t Hg _ Hvq) as [Hbq _].
  assert (Hact : bip9_state t (Some q) = Ok ACTIVE); [|rewrite Hact in Hsq; destruct Hsq as (c4 & -> & _); eauto].
  unfold bip9_state in *. destruct (bip9_at t (boundary_of t (Some p))) as [[s' st]| |] eqn:E; cbn [mbind res_bind] in Hsp; [|congruence..].
  destruct Hsp as (c & Heq & _). rewrite Hs in Heq. injection Heq as <- _. destruct (boundary_of t (Some p)) as [B|] eqn:EB.
  2:{ injection E as <- _. by destruct Hfin. }
  destruct (boundary_later dep t Hg p bp q bq B Hp Hq Hanc Hlt EB) as (Q & HQ & Hlater). rewrite HQ in *.
  destruct (bip9_at_final dep t Hg B s st (Some Q) Hbp E Hfin Hbq Q eq_refl Hlater) as [st' ->]. done.
Qed.

(** ** An example: three blocks that signal, with periods of one block *)

Definition next_header (n : Z) (h : CBlockHeader) : CBlockHeader :=
  MkHeader 0x20000001 (header_GetHash (crypto := sum_crypto) h) null_hash (h_nTime h + 10) 0x1d00ffff n null_hash 0 [] 0.
Definition signalling : list CBlockHeader := [genesis; next_header 3 genesis; next_header 77 (next_header 3 genesis)].
Definition signalling_manager : BlockManager := foldl grow (MkManager [] None ∅ []) signalling.
Definition signalling_index : heap := m_block_index signalling_manager.
Definition sample_deployment : BIP9Deployment := MkDeployment 0 50 (10 ^ 12) 1 1 1 5.
Definition sample_params : ConsensusParams := MkParams [sample_deployment] 1 1 0 0.
Definition sample_checker : ThresholdConditionChecker := VersionBitsConditionChecker sample_params sample_deployment.

(** The conditions on an index, checked entry by entry. *)
Definition check_entry (t : heap) (p : ptr) : bool :=
  match t !! p with
  | Some b => (nHeight b + 1 <? INT_MAX) &&
      match pprev b with Some q => GetMedianTimePast t q <=? GetMedianTimePast t p | None => true end
  | None => false
  end.

Lemma check_good_index t : heap_wf t -> forallb (check_entry t) (seq 0 (length t)) = true -> good_index t.
Proof.
  intros wf Hc. rewrite forallb_forall in Hc.
  assert (H : forall p b, t !! p = Some b -> check_entry t p = true).
  { intros p b Hp. apply Hc, in_seq. apply lookup_lt_Some in Hp. lia. }
  constructor; [done| |]; [intros p b q Hp Hq|intros p b Hp]; specialize (H p b Hp); unfold check_entry in H; rewrite Hp in H.
  - rewrite Hq in H. apply andb_true_iff in H as [_ H]. by apply Z.leb_le.
  - apply andb_true_iff in H as [H _]. by apply Z.ltb_lt.
Qed.

Lemma signalling_good : good_index signalling_index.
Proof.
  apply check_good_index; [|vm_compute; reflexivity]. apply (Built_wf (crypto := sum_crypto)). exists signalling_manager. split; [|done].
  repeat (apply Managed_grow; [|vm_compute; reflexivity|vm_compute; split; [discriminate|reflexivity]]). constructor.
Qed.

Lemma sample_good : good_deployment (checker := sample_checker).
Proof. split; vm_compute; [reflexivity|discriminate]. Qed.

Lemma signalling_valid p : (p < 3)%nat -> valid_ptr signalling_index (Some p).
Proof. intros Hp q [= <-]. apply lookup_lt_is_Some_2. by replace (length signalling_index) with 3%nat by (vm_compute; reflexivity). Qed.

Lemma GetStateFor_is_BIP9_witness :
  exists cache', GetStateFor (checker := sample_checker) signalling_index (Some 1%nat) ∅ = Ok (LOCKED_IN, cache') /\
    Queried (checker := sample_checker) signalling_index cache'.
Proof.
  assert (Hs : bip9_state (checker := sample_checker) signalling_index (Some 1%nat) = Ok LOCKED_IN) by (vm_compute; reflexivity).
  pose proof (GetStateFor_is_BIP9 (checker := sample_checker) signalling_index ∅ (Some 1%nat) sample_good
    (Queried_empty _ signalling_good) (signalling_valid 1 ltac:(lia))) as H.
  rewrite Hs in H. exact H.
Defined.

Lemma locked_in_becomes_active_witness :
  exists c4, GetStateFor (checker := sample_checker) signalling_index (Some 2%nat) ∅ = Ok (ACTIVE, c4).
Proof.
  destruct (signalling_index !! 1%nat) as [b1|] eqn:E1; [|vm_compute in E1; discriminate].
  destruct (signalling_index !! 2%nat) as [b2|] eqn:E2; [|vm_compute in E2; discriminate].
  assert (nHeight b1 = 1) as H1 by (vm_compute in E1; injection E1 as <-; reflexivity).
  assert (nHeight b2 = 2) as H2 by (vm_compute in E2; injection E2 as <-; reflexivity).
  destruct (GetStateFor (checker := sample_checker) signalling_index (Some 1%nat) ∅) as [[s c]| |] eqn:Eq; [|vm_compute in Eq; discriminate..].
  apply (locked_in_becomes_active (checker := sample_checker) signalling_index ∅ c ∅ 1 b1 2 b2 s sample_good
    (Queried_empty _ signalling_good) (Queried_empty _ signalling_good) E1 E2).
  - rewrite H1. vm_compute. reflexivity.
  - rewrite H1, H2. vm_compute. reflexivity.
  - exact Eq.
  - left. vm_compute in Eq. injection Eq as <- _. reflexivity.
Defined.
