(* ===== verification/TxVerify.v ===== *)
(** * Checks on transactions

    Models src/src/consensus/tx_check.cpp and tx_verify.cpp: the context-free checks, lock times,
    relative lock times (BIP68), signature operation counts and the inputs of a transaction. *)

From stdpp Require Import base list numbers gmap.
From S2P Require Import Prelude Script Crypto Interpreter Serialize Transaction Coin Coins CoinsSpec Block Chain ChainSpec.

Open Scope Z_scope.

(** The reject reasons. *)
Inductive tx_error : Type :=
  | bad_txns_vin_empty | bad_txns_vout_empty | bad_txns_oversize | bad_txns_payload_oversize
  | bad_txns_vout_negative | bad_txns_vout_toolarge | bad_txns_txouttotal_toolarge | bad_txns_inputs_duplicate
  | bad_cb_length | bad_txns_prevout_null | bad_txns_inputs_missingorspent | bad_txns_premature_spend_of_coinbase
  | bad_txns_inputvalues_outofrange | bad_txns_in_belowout | bad_txns_fee_outofrange.

(** The level passed to [state.DoS]. *)
Definition dos_level (e : tx_error) : Z :=
  match e with
  | bad_txns_vin_empty | bad_txns_vout_empty | bad_txns_prevout_null => 10
  | bad_txns_premature_spend_of_coinbase => 0
  | _ => 100
  end.

Definition MAX_LEGACY_BLOCK_SIZE : Z := 3000000.
Definition MAX_TX_EXTRA_PAYLOAD : Z := 10000.
Definition COINBASE_MATURITY : Z := 120.
Definition LOCKTIME_VERIFY_SEQUENCE : Z := 1.

(** ** CheckTransaction *)

Fixpoint check_outputs (outs : list CTxOut) (nValueOut : Z) : res tx_error unit :=
  match outs with
  | [] => Ok tt
  | txout :: outs =>
      if nValue txout <? 0 then Err bad_txns_vout_negative else
      if MAX_MONEY <? nValue txout then Err bad_txns_vout_toolarge else
      nValueOut ← add_s64 nValueOut (nValue txout);
      if negb (MoneyRange nValueOut) then Err bad_txns_txouttotal_toolarge else check_outputs outs nValueOut
  end.

Fixpoint check_duplicates (ins : list CTxIn) (vInOutPoints : list COutPoint) : res tx_error unit :=
  match ins with
  | [] => Ok tt
  | txin :: ins =>
      if bool_decide (prevout txin ∈ vInOutPoints) then Err bad_txns_inputs_duplicate
      else check_duplicates ins (prevout txin :: vInOutPoints)
  end.

Definition CheckTransaction (tx : CTransaction) : res tx_error unit :=
  let allowEmptyTxInOut := nType tx =? TRANSACTION_QUORUM_COMMITMENT in
  if negb allowEmptyTxInOut && match vin tx with [] => true | _ => false end then Err bad_txns_vin_empty else
  if negb allowEmptyTxInOut && match vout tx with [] => true | _ => false end then Err bad_txns_vout_empty else
  if MAX_LEGACY_BLOCK_SIZE <? zlen (tx_Serialize tx) then Err bad_txns_oversize else
  if MAX_TX_EXTRA_PAYLOAD <? zlen (vExtraPayload tx) then Err bad_txns_payload_oversize else
  _ ← check_outputs (vout tx) 0;
  _ ← check_duplicates (vin tx) [];
  if IsCoinBase tx then
    let minCbSize := if nType tx =? TRANSACTION_COINBASE then 1 else 2 in
    match vin tx with
    | [] => Abort
    | i :: _ =>
        if (zlen (scriptSig i) <? minCbSize) || (352 <? zlen (scriptSig i)) then Err bad_cb_length else Ok tt
    end
  else if existsb (fun i => outpoint_IsNull (prevout i)) (vin tx) then Err bad_txns_prevout_null else Ok tt.

(** ** Lock times *)

Definition IsFinalTx (tx : CTransaction) (nBlockHeight nBlockTime : Z) : bool :=
  if nLockTime tx =? 0 then true
  else if nLockTime tx <? (if nLockTime tx <? LOCKTIME_THRESHOLD then nBlockHeight else nBlockTime) then true
  else forallb (fun txin => nSequence txin =? SEQUENCE_FINAL) (vin tx).

(** The loop of [CalculateSequenceLocks]: the two minima and the heights it leaves. *)
Fixpoint sequence_locks_loop (t : heap) (block : ptr) (ins : list CTxIn) (prevHeights : list Z) (nMinHeight nMinTime : Z) :
    res unit (Z * Z * list Z) :=
  match ins, prevHeights with
  | txin :: ins, nCoinHeight :: prevHeights =>
      if flag (nSequence txin) SEQUENCE_LOCKTIME_DISABLE_FLAG then
        r ← sequence_locks_loop t block ins prevHeights nMinHeight nMinTime; Ok (r.1, 0 :: r.2)
      else
        let value := Z.land (nSequence txin) SEQUENCE_LOCKTIME_MASK in
        if flag (nSequence txin) SEQUENCE_LOCKTIME_TYPE_FLAG then
          anc ← GetAncestor t block (Z.max (nCoinHeight - 1) 0);
          match anc with
          | None => Abort
          | Some a =>
              let nCoinTime := GetMedianTimePast t a in
              let nMinTime := Z.max nMinTime (nCoinTime + Z.shiftl value SEQUENCE_LOCKTIME_GRANULARITY - 1) in
              r ← sequence_locks_loop t block ins prevHeights nMinHeight nMinTime; Ok (r.1, nCoinHeight :: r.2)
          end
        else
          let nMinHeight := Z.max nMinHeight (nCoinHeight + value - 1) in
          r ← sequence_locks_loop t block ins prevHeights nMinHeight nMinTime; Ok (r.1, nCoinHeight :: r.2)
  | _, _ => Ok (nMinHeight, nMinTime, prevHeights)
  end.

Definition enforce_BIP68 (tx : CTransaction) (flags : Z) : bool :=
  (2 <=? u32 (nVersion tx)) && flag flags LOCKTIME_VERIFY_SEQUENCE.

Definition CalculateSequenceLocks (t : heap) (tx : CTransaction) (flags : Z) (prevHeights : list Z) (block : ptr) :
    res unit (Z * Z * list Z) :=
  if negb (length prevHeights =? length (vin tx))%nat then Abort
  else if negb (enforce_BIP68 tx flags) then Ok (-1, -1, prevHeights)
  else sequence_locks_loop t block (vin tx) prevHeights (-1) (-1).

Definition EvaluateSequenceLocks (t : heap) (block : ptr) (lockPair : Z * Z) : res unit bool :=
  match t !! block with
  | None => Abort
  | Some b =>
      match pprev b with
      | None => Abort
      | Some p =>
          let nBlockTime := GetMedianTimePast t p in
          Ok (negb ((Chain.nHeight b <=? lockPair.1) || (nBlockTime <=? lockPair.2)))
      end
  end.

Definition SequenceLocks (t : heap) (tx : CTransaction) (flags : Z) (prevHeights : list Z) (block : ptr) : res unit bool :=
  r ← CalculateSequenceLocks t tx flags prevHeights block; EvaluateSequenceLocks t block r.1.

(** ** Signature operations *)

Definition GetLegacySigOpCount (tx : CTransaction) : Z :=
  let nSigOps := foldl (fun n i => u32 (n + GetSigOpCount (scriptSig i) false)) 0 (vin tx) in
  foldl (fun n o => u32 (n + GetSigOpCount (scriptPubKey o) false)) nSigOps (vout tx).

Section inputs.
Context (DynamicMemoryUsage : Coin -> Z).

Fixpoint P2SHSigOpCount_loop (base : CCoinsView) (c : CCoinsViewCache) (ins : list CTxIn) (nSigOps : Z) :
    res unit (Z * CCoinsViewCache * CCoinsView) :=
  match ins with
  | [] => Ok (nSigOps, c, base)
  | i :: ins =>
      let '(e, c, base) := AccessCoin DynamicMemoryUsage base c (prevout i) in
      if Coin_IsSpent e then Abort else
      let script := scriptPubKey (out e) in
      P2SHSigOpCount_loop base c ins
        (if IsPayToScriptHash script then u32 (nSigOps + GetSigOpCount_p2sh script (scriptSig i)) else nSigOps)
  end.

Definition GetP2SHSigOpCount (base : CCoinsView) (c : CCoinsViewCache) (tx : CTransaction) :
    res unit (Z * CCoinsViewCache * CCoinsView) :=
  if IsCoinBase tx then Ok (0, c, base) else P2SHSigOpCount_loop base c (vin tx) 0.

Definition GetTransactionSigOpCount (base : CCoinsView) (c : CCoinsViewCache) (tx : CTransaction) (flags : Z) :
    res unit (Z * CCoinsViewCache * CCoinsView) :=
  let nSigOps := GetLegacySigOpCount tx in
  if IsCoinBase tx then Ok (nSigOps, c, base)
  else if flag flags SCRIPT_VERIFY_P2SH then
    '(n, c, base) ← GetP2SHSigOpCount base c tx; Ok (u32 (nSigOps + n), c, base)
  else Ok (nSigOps, c, base).

(** ** CheckTxInputs *)

Fixpoint check_inputs (base : CCoinsView) (c : CCoinsViewCache) (ins : list CTxIn) (nSpendHeight nValueIn : Z) :
    res tx_error (Z * CCoinsViewCache * CCoinsView) :=
  match ins with
  | [] => Ok (nValueIn, c, base)
  | i :: ins =>
      let '(e, c, base) := AccessCoin DynamicMemoryUsage base c (prevout i) in
      if Coin_IsSpent e then Abort else
      if fCoinBase e && (nSpendHeight - Coin.nHeight e <? COINBASE_MATURITY) then Err bad_txns_premature_spend_of_coinbase else
      nValueIn ← add_s64 nValueIn (nValue (out e));
      if negb (MoneyRange (nValue (out e))) || negb (MoneyRange nValueIn) then Err bad_txns_inputvalues_outofrange
      else check_inputs base c ins nSpendHeight nValueIn
  end.

(** The fee, left unset for a coinstake, and the view.  The exception of [GetValueOut] is not caught. *)
Definition CheckTxInputs (base : CCoinsView) (c : CCoinsViewCache) (tx : CTransaction) (nSpendHeight : Z) :
    res tx_error (option Z * CCoinsView) :=
  let '(have, v) := HaveInputs DynamicMemoryUsage (ViewCache c base) tx in
  if negb have then Err bad_txns_inputs_missingorspent else
  match v with
  | ViewDB _ => Abort
  | ViewCache c base =>
      '(nValueIn, c, base) ← check_inputs base c (vin tx) nSpendHeight 0;
      if IsCoinStake tx then Ok (None, ViewCache c base) else
      match GetValueOut tx with
      | Ok value_out =>
          if nValueIn <? value_out then Err bad_txns_in_belowout else
          let txfee_aux := nValueIn - value_out in
          if negb (MoneyRange txfee_aux) then Err bad_txns_fee_outofrange
          else Ok (Some txfee_aux, ViewCache c base)
      | _ => Abort
      end
  end.

End inputs.
