(* ===== verification/TxVerifySpec.v ===== *)
(** * Relative lock times are those of BIP 68

    The minima that CalculateSequenceLocks of src/src/consensus/tx_verify.cpp accumulates and
    EvaluateSequenceLocks compares, against the condition on each input. *)

From stdpp Require Import base list numbers sorting.
From S2P Require Import Prelude Script Crypto Interpreter Serialize Transaction Block Chain ChainSpec TxVerify.

Open Scope Z_scope.

(** The lock of one input, whose coin is from height [h], in a block of height [height] on top of [prev]. *)
Definition lock_satisfied (t : heap) (block prev : ptr) (height : Z) (txin : CTxIn) (h : Z) : Prop :=
  flag (nSequence txin) SEQUENCE_LOCKTIME_DISABLE_FLAG = true \/
  let value := Z.land (nSequence txin) SEQUENCE_LOCKTIME_MASK in
  if flag (nSequence txin) SEQUENCE_LOCKTIME_TYPE_FLAG
  then exists a, ancestor t block (Z.max (h - 1) 0) = Some a /\
         GetMedianTimePast t a + 512 * value <= GetMedianTimePast t prev
  else h + value <= height.

Lemma past_times_nonneg n t p : (forall q b, t !! q = Some b -> 0 <= GetBlockTime b) -> Forall (Z.le 0) (past_times n t p).
Proof.
  intros Ht. revert p; induction n as [|n IH]; intros p; [constructor|]. cbn [past_times].
  destruct p as [p|]; cbn; [|constructor]. destruct (t !! p) as [b|] eqn:E; [|constructor]. constructor; [by apply (Ht p)|apply IH].
Qed.

Lemma GetMedianTimePast_nonneg t p : (forall q b, t !! q = Some b -> 0 <= GetBlockTime b) -> 0 <= GetMedianTimePast t p.
Proof.
  intros Ht. unfold GetMedianTimePast. set (times := merge_sort _ _).
  assert (Hf : Forall (Z.le 0) times) by (unfold times; rewrite merge_sort_Permutation; by apply past_times_nonneg).
  destruct (times !! _) as [x|] eqn:E; cbn; [|lia]. by eapply Forall_lookup_1 in E.
Qed.

Lemma sequence_locks_loop_spec t block b prev ins heights minh mint :
  heap_wf t -> t !! block = Some b -> length heights = length ins -> Forall (fun h => h <= nHeight b + 1) heights ->
  exists h' t' hs, sequence_locks_loop t block ins heights minh mint = Ok (h', t', hs) /\
    (h' < nHeight b /\ t' < GetMedianTimePast t prev <->
     (minh < nHeight b /\ mint < GetMedianTimePast t prev) /\ Forall2 (lock_satisfied t block prev (nHeight b)) ins heights).
Proof.
  intros wf Hb. revert heights minh mint; induction ins as [|i ins IH]; intros [|h heights] minh mint Hlen Hh; try done.
  { exists minh, mint, []. split; [done|]. split; [intros H; split; [done|constructor]|by intros [H _]]. }
  apply Forall_cons in Hh as [Hh Hhs]. injection Hlen as Hlen. assert (Hb0 := proj1 (proj2 (wf _ _ Hb))).
  cbn [sequence_locks_loop].
  destruct (flag (nSequence i) SEQUENCE_LOCKTIME_DISABLE_FLAG) eqn:Ed.
  { destruct (IH heights minh mint Hlen Hhs) as (h' & t' & hs & -> & Hiff). exists h', t', (0 :: hs). split; [done|].
    rewrite Hiff, Forall2_cons. unfold lock_satisfied at 2. rewrite Ed. tauto. }
  destruct (flag (nSequence i) SEQUENCE_LOCKTIME_TYPE_FLAG) eqn:Et.
  - destruct (ancestor_Some t wf block b (Z.max (h - 1) 0) Hb ltac:(lia)) as (a & ba & Ha & _).
    rewrite (GetAncestor_spec t wf block b) by done. rewrite Ha. cbn [mbind res_bind]. rewrite Z.shiftl_mul_pow2 by done.
    change (2 ^ SEQUENCE_LOCKTIME_GRANULARITY) with 512. set (v := Z.land _ _).
    destruct (IH heights minh (Z.max mint (GetMedianTimePast t a + v * 512 - 1)) Hlen Hhs) as (h' & t' & hs & -> & Hiff).
    exists h', t', (h :: hs). split; [done|]. rewrite Hiff, Forall2_cons. unfold lock_satisfied at 2. rewrite Ed, Et. fold v. split.
    + intros [[? ?] ?]. split; [lia|]. split; [|done]. right. exists a. split; [done|lia].
    + rewrite Ha. intros [? [[?|(a' & [= <-] & ?)] ?]]; [done|]. split; [lia|done].
  - set (v := Z.land _ _). destruct (IH heights (Z.max minh (h + v - 1)) mint Hlen Hhs) as (h' & t' & hs & -> & Hiff).
    exists h', t', (h :: hs). split; [done|]. rewrite Hiff, Forall2_cons. unfold lock_satisfied at 2. rewrite Ed, Et. fold v. split.
    + intros [[? ?] ?]. split; [lia|]. split; [right; lia|done].
    + intros [? [[?|?] ?]]; [done|]. split; [lia|done].
Qed.

Lemma SequenceLocks_spec t block b prev tx flags heights :
  heap_wf t -> (forall q b, t !! q = Some b -> 0 <= GetBlockTime b) ->
  t !! block = Some b -> pprev b = Some prev ->
  length heights = length (vin tx) -> Forall (fun h => h <= nHeight b + 1) heights ->
  exists r, SequenceLocks t tx flags heights block = Ok r /\
    (r = true <-> enforce_BIP68 tx flags = false \/ Forall2 (lock_satisfied t block prev (nHeight b)) (vin tx) heights).
Proof.
  intros wf Ht Hb Hprev Hlen Hh. unfold SequenceLocks, CalculateSequenceLocks, EvaluateSequenceLocks.
  pose proof (GetMedianTimePast_nonneg t prev Ht) as Hm. assert (Hb0 := proj1 (proj2 (wf _ _ Hb))).
  rewrite Hlen, Nat.eqb_refl. cbn [negb]. destruct (enforce_BIP68 tx flags); cbn [negb].
  - destruct (sequence_locks_loop_spec t block b prev (vin tx) heights (-1) (-1) wf Hb Hlen Hh) as (h' & t' & hs & -> & Hiff).
    cbn [mbind res_bind]. rewrite Hb, Hprev. eexists. split; [done|]. cbn [fst snd].
    rewrite negb_true_iff, orb_false_iff, !Z.leb_gt, Hiff. split; [intros [_ ?]; by right|intros [?|?]; [done|]]. split; [lia|done].
  - cbn [mbind res_bind]. rewrite Hb, Hprev. eexists. split; [done|]. cbn [fst snd].
    rewrite (proj2 (Z.leb_gt _ (-1))), (proj2 (Z.leb_gt _ (-1))) by lia. cbn. split; [by left|done].
Qed.

(** C30: the sequence locks are satisfied exactly when each input satisfies its own one: nothing is
    required of an input with the disable flag; a lock in blocks needs that many blocks since the coin;
    a lock in time needs 512 seconds per unit between the median times of the block before the coin
    and of the block before the one that spends it.  The two checks never fail an assertion. *)
Theorem SequenceLocks_BIP68 {crypto : CryptoOps} t block b prev tx flags heights :
  Built t -> (forall q b, t !! q = Some b -> 0 <= GetBlockTime b) ->
  t !! block = Some b -> pprev b = Some prev ->
  length heights = length (vin tx) -> Forall (fun h => h <= nHeight b + 1) heights ->
  exists r, SequenceLocks t tx flags heights block = Ok r /\
    (r = true <-> enforce_BIP68 tx flags = false \/ Forall2 (lock_satisfied t block prev (nHeight b)) (vin tx) heights).
Proof. intros wf%Built_wf. by apply SequenceLocks_spec. Qed.

(** One input locked for a block, one for no time. *)
Definition locked_tx : CTransaction :=
  MkTransaction [MkTxIn (MkOutPoint (replicate 32 7) 1) [] 1; MkTxIn (MkOutPoint (replicate 32 8) 1) [] (2 ^ 22)]
    [MkTxOut 5000 [0x51]] 2 0 0 0 [].

Lemma forked_times : Forall (fun b => 0 <= GetBlockTime b) forked.
Proof. apply (bool_decide_unpack (Forall (fun b => 0 <= GetBlockTime b) forked)). vm_compute. exact I. Qed.

Lemma SequenceLocks_BIP68_witness :
  exists r, SequenceLocks forked locked_tx LOCKTIME_VERIFY_SEQUENCE [0; 0] 2 = Ok r /\
    (r = true <-> enforce_BIP68 locked_tx LOCKTIME_VERIFY_SEQUENCE = false \/
       Forall2 (lock_satisfied forked 2 0 1) (vin locked_tx) [0; 0]).
Proof.
  destruct (forked !! 2%nat) as [b|] eqn:E; [|vm_compute in E; discriminate].
  assert (nHeight b = 1 /\ pprev b = Some 0%nat) as [Hh Hp] by (vm_compute in E; injection E as <-; split; reflexivity).
  rewrite <- Hh. apply (SequenceLocks_BIP68 forked 2 b 0 locked_tx LOCKTIME_VERIFY_SEQUENCE [0; 0] forked_built).
  - intros q b'. exact (Forall_lookup_1 _ _ q b' forked_times).
  - exact E.
  - exact Hp.
  - reflexivity.
  - rewrite Hh. repeat constructor; lia.
Defined.
