(* ===== verification/SigHash.v ===== *)
(** * Signature hashes and the checks of a transaction's signatures and locks

    Model of CTransactionSignatureSerializer, SignatureHash and TransactionSignatureChecker
    (src/src/script/interpreter.cpp).  The serializer, which skips and blanks parts of the transaction as
    it writes them, is related to the modified copy of the transaction that the hash types stand for;
    with SIGHASH_ALL the hashed bytes determine everything but the input scripts and the time; the
    lock-time opcodes enforce the lock they name. *)

From stdpp Require Import base list numbers.
From S2P Require Import Prelude Script Crypto Interpreter Serialize Transaction Block Chain ChainSpec TxVerify TxVerifySpec.

Open Scope Z_scope.

(** ** The serializer *)

(** [v[i]], out of range undefined. *)
Definition at_index {A : Type} (v : list A) (i : nat) : res unit A :=
  match v !! i with Some x => Ok x | None => Abort end.

(** The first loop of SerializeScriptCode. *)
Fixpoint count_separators (fuel : nat) (it : list Z) (nCodeSeparators : Z) : Z :=
  match fuel with
  | O => nCodeSeparators
  | S fuel =>
      match GetScriptOp it with
      | (true, it, opcode, _) =>
          count_separators fuel it (if op_eqb opcode OP_CODESEPARATOR then nCodeSeparators + 1 else nCodeSeparators)
      | (false, _, _, _) => nCodeSeparators
      end
  end.

(** The second loop: what is written, and the iterators [it] and [itBegin] after it. *)
Fixpoint write_segments (fuel : nat) (it itBegin : list Z) : list Z * list Z * list Z :=
  match fuel with
  | O => ([], it, itBegin)
  | S fuel =>
      match GetScriptOp it with
      | (true, it, opcode, _) =>
          if op_eqb opcode OP_CODESEPARATOR then
            let '(out, it', itBegin') := write_segments fuel it it in
            (take (length itBegin - length it - 1) itBegin ++ out, it', itBegin')
          else write_segments fuel it itBegin
      | (false, it, _, _) => ([], it, itBegin)
      end
  end.

Definition SerializeScriptCode (scriptCode : list Z) : list Z :=
  let fuel := S (length scriptCode) in
  let '(out, it, itBegin) := write_segments fuel scriptCode scriptCode in
  WriteCompactSize (zlen scriptCode - count_separators fuel scriptCode 0) ++ out ++
  (match itBegin with [] => [] | _ => take (length itBegin - length it) itBegin end).

Section serializer.
Context (scriptCode : list Z) (txTo : CTransaction) (nIn : nat) (nHashType : Z).

Definition fAnyoneCanPay : bool := flag nHashType SIGHASH_ANYONECANPAY.
Definition fHashSingle : bool := Z.land nHashType 0x1f =? SIGHASH_SINGLE.
Definition fHashNone : bool := Z.land nHashType 0x1f =? SIGHASH_NONE.

Definition SerializeInput (nInput : nat) : res unit (list Z) :=
  let nInput := if fAnyoneCanPay then nIn else nInput in
  txin ← at_index (vin txTo) nInput;
  Ok (ser_outpoint (prevout txin) ++
      (if negb (nInput =? nIn)%nat then write_bytes [] else SerializeScriptCode scriptCode) ++
      ser_writedata32 (if negb (nInput =? nIn)%nat && (fHashSingle || fHashNone) then 0 else nSequence txin)).

Definition SerializeOutput (nOutput : nat) : res unit (list Z) :=
  if fHashSingle && negb (nOutput =? nIn)%nat then Ok (ser_txout txout_SetNull)
  else txout ← at_index (vout txTo) nOutput; Ok (ser_txout txout).

(** [for (unsigned int k = start; k < start + n; k++) f(k)] *)
Fixpoint serialize_range (f : nat -> res unit (list Z)) (start n : nat) : res unit (list Z) :=
  match n with
  | O => Ok []
  | S n => a ← f start; b ← serialize_range f (S start) n; Ok (a ++ b)
  end.

Definition sighash_Serialize : res unit (list Z) :=
  let nInputs := if fAnyoneCanPay then 1%nat else length (vin txTo) in
  ins ← serialize_range SerializeInput 0 nInputs;
  let nOutputs := if fHashNone then 0%nat else if fHashSingle then S nIn else length (vout txTo) in
  outs ← serialize_range SerializeOutput 0 nOutputs;
  Ok (ser_writedata32 (n32bitVersion (nVersion txTo) (nType txTo)) ++
      WriteCompactSize (Z.of_nat nInputs) ++ ins ++ WriteCompactSize (Z.of_nat nOutputs) ++ outs ++
      ser_writedata32 (nLockTime txTo) ++
      (if has_payload (nVersion txTo) (nType txTo) then write_bytes (vExtraPayload txTo) else [])).

(** [uint256S("00...01")] *)
Definition uint256_one : list Z := 1 :: replicate 31 0.

(** The amount, the version and the precomputed hashes are not used. *)
Definition SignatureHash {crypto : CryptoOps} : res unit (list Z) :=
  if negb (nIn <? length (vin txTo))%nat then Abort else
  if fHashSingle && (length (vout txTo) <=? nIn)%nat then Ok uint256_one else
  s ← sighash_Serialize;
  Ok (Hash (s ++ ser_writedata32 nHashType)).

End serializer.

(** ** The precomputed hashes *)

Record PrecomputedTransactionData := MkPrecomputed {
  hashPrevouts : list Z; hashSequence : list Z; hashOutputs : list Z;
  m_ready : bool; m_spent_outputs : list CTxOut
}.

Section precomputed.
Context {crypto : CryptoOps} (txTo : CTransaction).

Definition GetPrevoutsSHA256 : list Z := sha256 (concat (ser_outpoint ∘ prevout <$> vin txTo)).
Definition GetSequencesSHA256 : list Z := sha256 (concat (ser_writedata32 ∘ nSequence <$> vin txTo)).
Definition GetOutputsSHA256 : list Z := sha256 (concat (ser_txout <$> vout txTo)).

(** [Init], which asserts that it is called once. *)
Definition precomputed_Init (txdata : PrecomputedTransactionData) (spent_outputs : list CTxOut) :
    res unit PrecomputedTransactionData :=
  if m_ready txdata then Abort else
  Ok (MkPrecomputed (sha256 GetPrevoutsSHA256) (sha256 GetSequencesSHA256) (sha256 GetOutputsSHA256) true spent_outputs).

End precomputed.

(** ** The checker *)

Section checker.
Context {crypto : CryptoOps} (txTo : CTransaction) (nIn : nat).

Definition tx_CheckSig (vchSigIn vchPubKey scriptCode : list Z) : res unit bool :=
  let pubkey := CPubKey vchPubKey in
  if negb (PubKey_IsValid pubkey) then Ok false else
  if zlen vchSigIn =? 0 then Ok false else
  let nHashType := back vchSigIn in
  let vchSig := take (length vchSigIn - 1) vchSigIn in
  sighash ← SignatureHash scriptCode txTo nIn nHashType;
  Ok (PubKey_Verify pubkey sighash vchSig).

Definition tx_CheckLockTime (nLockTime' : Z) : res unit bool :=
  if negb (((nLockTime txTo <? LOCKTIME_THRESHOLD) && (nLockTime' <? LOCKTIME_THRESHOLD)) ||
           ((LOCKTIME_THRESHOLD <=? nLockTime txTo) && (LOCKTIME_THRESHOLD <=? nLockTime'))) then Ok false else
  if nLockTime txTo <? nLockTime' then Ok false else
  txin ← at_index (vin txTo) nIn;
  if SEQUENCE_FINAL =? nSequence txin then Ok false else Ok true.

Definition nLockTimeMask : Z := Z.lor SEQUENCE_LOCKTIME_TYPE_FLAG SEQUENCE_LOCKTIME_MASK.

Definition tx_CheckSequence (nSequence' : Z) : res unit bool :=
  txin ← at_index (vin txTo) nIn;
  let txToSequence := nSequence txin in
  if u32 (nVersion txTo) <? 2 then Ok false else
  if flag txToSequence SEQUENCE_LOCKTIME_DISABLE_FLAG then Ok false else
  let txToSequenceMasked := Z.land txToSequence nLockTimeMask in
  let nSequenceMasked := Z.land nSequence' nLockTimeMask in
  if negb (((txToSequenceMasked <? SEQUENCE_LOCKTIME_TYPE_FLAG) && (nSequenceMasked <? SEQUENCE_LOCKTIME_TYPE_FLAG)) ||
           ((SEQUENCE_LOCKTIME_TYPE_FLAG <=? txToSequenceMasked) && (SEQUENCE_LOCKTIME_TYPE_FLAG <=? nSequenceMasked)))
  then Ok false else
  if txToSequenceMasked <? nSequenceMasked then Ok false else Ok true.

(** TransactionSignatureChecker as the interpreter calls it; it is constructed for an input of the
    transaction, and then none of the checks is out of range. *)
Definition TransactionSignatureChecker : SignatureChecker :=
  let answer r := match r with Ok b => b | _ => false end in
  {| CheckSig := fun sig key code _ => answer (tx_CheckSig sig key code);
     CheckLockTime := fun n => answer (tx_CheckLockTime n);
     CheckSequence := fun n => answer (tx_CheckSequence n) |}.

End checker.

(** ** The copy that is signed *)

(** Scripts that are read to their end. *)
Inductive Parses : list Z -> Prop :=
| Parses_nil : Parses []
| Parses_op s rest op v : GetOp s = Some (rest, op, v) -> Parses rest -> Parses s.

(** The script without its separators, instruction by instruction. *)
Fixpoint strip_loop (fuel : nat) (s : list Z) : list Z :=
  match fuel with
  | O => []
  | S fuel =>
      match GetOp s with
      | None => []
      | Some (rest, op, _) =>
          (if op_eqb op OP_CODESEPARATOR then [] else take (length s - length rest) s) ++ strip_loop fuel rest
      end
  end.

Definition without_separators (s : list Z) : list Z := strip_loop (S (length s)) s.

(** The input at position [k]: the other inputs lose their scripts and, when not all outputs are signed,
    their sequence numbers. *)
Definition signed_input (code : list Z) (nIn : nat) (nHashType : Z) (k : nat) (i : CTxIn) : CTxIn :=
  MkTxIn (prevout i) (if (k =? nIn)%nat then code else [])
    (if negb (k =? nIn)%nat && (fHashSingle nHashType || fHashNone nHashType) then 0 else nSequence i).

Definition signed_copy (code : list Z) (tx : CTransaction) (nIn : nat) (nHashType : Z) : CTransaction :=
  let ins := imap (signed_input code nIn nHashType) (vin tx) in
  let ins := if fAnyoneCanPay nHashType then take 1 (drop nIn ins) else ins in
  let outs := if fHashNone nHashType then []
              else if fHashSingle nHashType then replicate nIn txout_SetNull ++ take 1 (drop nIn (vout tx))
              else vout tx in
  MkTransaction ins outs (nVersion tx) (nType tx) (nLockTime tx) (nTime tx) (vExtraPayload tx).

(** The format of a transaction without [nTime]. *)
Definition tx_Serialize_timeless (tx : CTransaction) : list Z :=
  ser_writedata32 (n32bitVersion (nVersion tx) (nType tx)) ++
  write_vector ser_txin (vin tx) ++ write_vector ser_txout (vout tx) ++ ser_writedata32 (nLockTime tx) ++
  (if has_payload (nVersion tx) (nType tx) then write_bytes (vExtraPayload tx) else []).

Lemma timeless_format tx : has_time (nVersion tx) = false -> tx_Serialize_timeless tx = tx_Serialize tx.
Proof. intros H. unfold tx_Serialize. by rewrite H. Qed.

(** *** The script *)

Lemma GetOp_separator s rest op v :
  GetOp s = Some (rest, op, v) -> op_eqb op OP_CODESEPARATOR = true -> s = opcode_val OP_CODESEPARATOR :: rest.
Proof.
  intros (b & pre & -> & -> & Hb)%GetOp_inv Hop. unfold op_eqb in Hop. rewrite opcode_val_of in Hop. bprop. subst b.
  destruct Hb as [Hb|(-> & -> & _)]; [by cbn in Hb; lia|done].
Qed.

Lemma GetOp_split s rest op v :
  GetOp s = Some (rest, op, v) -> s = take (length s - length rest) s ++ rest.
Proof.
  intros (b & pre & -> & _)%GetOp_inv. change (b :: pre ++ v ++ rest) with ((b :: pre) ++ v ++ rest). rewrite app_assoc.
  rewrite length_app. replace (_ + length rest - length rest)%nat with (length ((b :: pre) ++ v)) by lia.
  by rewrite take_app_length.
Qed.

Lemma strip_loop_cons fuel s rest op v :
  GetOp s = Some (rest, op, v) ->
  strip_loop (S fuel) s = (if op_eqb op OP_CODESEPARATOR then [] else take (length s - length rest) s) ++ strip_loop fuel rest.
Proof. intros H. cbn [strip_loop]. by rewrite H. Qed.

Lemma count_separators_spec fuel s n :
  Parses s -> (length s < fuel)%nat -> count_separators fuel s n = n + (zlen s - zlen (strip_loop fuel s)).
Proof.
  intros Hp. revert fuel n; induction Hp as [|s rest op v Hop Hp IH]; intros [|fuel] n Hf; try lia; [cbn; lia|].
  apply GetOp_length in Hop as Hl. rewrite (strip_loop_cons _ _ _ _ _ Hop). cbn [count_separators].
  rewrite (GetOp_GetScriptOp _ _ _ _ Hop), IH by lia. rewrite zlen_app. destruct (op_eqb op OP_CODESEPARATOR) eqn:E.
  - rewrite (GetOp_separator _ _ _ _ Hop E). unfold zlen. cbn [length]. lia.
  - unfold zlen. rewrite length_take. lia.
Qed.

Lemma write_segments_spec fuel it pre :
  Parses it -> (length it < fuel)%nat ->
  let '(out, it', itBegin) := write_segments fuel it (pre ++ it) in
  out ++ match itBegin with [] => [] | _ => take (length itBegin - length it') itBegin end = pre ++ strip_loop fuel it.
Proof.
  intros Hp. revert fuel pre; induction Hp as [|s rest op v Hop Hp IH]; intros [|fuel] pre Hf; try lia.
  { cbn. rewrite !app_nil_r, Nat.sub_0_r. destruct pre; [done|]. by rewrite firstn_all. }
  apply GetOp_length in Hop as Hl. rewrite (strip_loop_cons _ _ _ _ _ Hop). cbn [write_segments].
  rewrite (GetOp_GetScriptOp _ _ _ _ Hop). destruct (op_eqb op OP_CODESEPARATOR) eqn:E.
  - specialize (IH fuel [] ltac:(lia)). cbn [app] in IH. destruct (write_segments fuel rest rest) as [[out it'] itB]. cbn [app].
    rewrite <- app_assoc, IH. f_equal. rewrite (GetOp_separator _ _ _ _ Hop E), length_app. cbn [length].
    replace (length pre + S (length rest) - length rest - 1)%nat with (length pre) by lia. by rewrite take_app_length.
  - specialize (IH fuel (pre ++ take (length s - length rest) s) ltac:(lia)).
    rewrite <- app_assoc, <- (GetOp_split _ _ _ _ Hop) in IH. destruct (write_segments fuel rest (pre ++ s)) as [[out it'] itB].
    by rewrite IH, <- app_assoc.
Qed.

Lemma SerializeScriptCode_strips s : Parses s -> SerializeScriptCode s = write_bytes (without_separators s).
Proof.
  intros Hp. unfold SerializeScriptCode, without_separators, write_bytes.
  pose proof (write_segments_spec (S (length s)) s [] Hp ltac:(lia)) as Hw. cbn [app] in Hw.
  destruct (write_segments (S (length s)) s s) as [[out it] itB].
  rewrite count_separators_spec by (done || lia). f_equal; [f_equal; lia|done].
Qed.

(** *** The vectors *)

Lemma serialize_range_imap {A} (f : nat -> res unit (list Z)) (ser : A -> list Z) (g : nat -> A -> A) (l : list A) start :
  (forall k x, l !! k = Some x -> f (start + k)%nat = Ok (ser (g (start + k)%nat x))) ->
  serialize_range f start (length l) = Ok (flat_map ser (imap (fun k => g (start + k)%nat) l)).
Proof.
  revert start; induction l as [|x l IH]; intros start H; [done|]. cbn [length serialize_range].
  rewrite <- (Nat.add_0_r start) at 1. rewrite (H 0%nat x) by done. cbn [mbind res_bind]. rewrite IH.
  2: { intros k y Hk. replace (S start + k)%nat with (start + S k)%nat by lia. by apply H. }
  cbn [mbind res_bind imap flat_map]. do 2 f_equal. f_equal. apply imap_ext. intros k y _. cbn. f_equal. lia.
Qed.

Lemma imap_same {A} (l : list A) : imap (fun _ x => x) l = l.
Proof. apply list_eq. intros k. rewrite list_lookup_imap. by destruct (l !! k). Qed.

Lemma at_index_Some {A} (l : list A) i x : l !! i = Some x -> at_index l i = Ok x.
Proof. intros H. unfold at_index. by rewrite H. Qed.

Lemma serialize_range_1 f start a : f start = Ok a -> serialize_range f start 1 = Ok a.
Proof. intros H. cbn [serialize_range]. rewrite H. cbn [mbind res_bind]. by rewrite app_nil_r. Qed.

Lemma SerializeInput_spec code tx nIn t k i :
  Parses code -> (fAnyoneCanPay t = true -> k = nIn) -> vin tx !! k = Some i ->
  SerializeInput code tx nIn t k = Ok (ser_txin (signed_input (without_separators code) nIn t k i)).
Proof.
  intros Hp Ha Hi. unfold SerializeInput. assert ((if fAnyoneCanPay t then nIn else k) = k) as ->.
  { destruct (fAnyoneCanPay t); [symmetry; by apply Ha|done]. }
  rewrite (at_index_Some _ _ _ Hi). cbn [mbind res_bind]. unfold ser_txin, signed_input. cbn [prevout scriptSig nSequence].
  rewrite SerializeScriptCode_strips by done. by destruct (k =? nIn)%nat.
Qed.

Lemma inputs_spec code tx nIn t ins :
  Parses code -> (nIn < length (vin tx))%nat ->
  serialize_range (SerializeInput code tx nIn t) 0 (if fAnyoneCanPay t then 1 else length (vin tx)) = Ok ins ->
  WriteCompactSize (Z.of_nat (if fAnyoneCanPay t then 1 else length (vin tx))) ++ ins =
  write_vector ser_txin (vin (signed_copy (without_separators code) tx nIn t)).
Proof.
  intros Hp Hn Hins. unfold signed_copy, write_vector. cbn [vin].
  destruct (lookup_lt_is_Some_2 _ _ Hn) as [i Hi]. destruct (fAnyoneCanPay t) eqn:Ea.
  - assert (SerializeInput code tx nIn t 0 = SerializeInput code tx nIn t nIn) as H0 by (unfold SerializeInput; by rewrite Ea).
    rewrite (serialize_range_1 _ _ (ser_txin (signed_input (without_separators code) nIn t nIn i))) in Hins
      by (rewrite H0; by apply SerializeInput_spec). injection Hins as <-.
    assert (Hd : take 1 (drop nIn (imap (signed_input (without_separators code) nIn t) (vin tx))) = [signed_input (without_separators code) nIn t nIn i]).
    { rewrite (drop_S _ (signed_input (without_separators code) nIn t nIn i)) by (by rewrite list_lookup_imap, Hi). done. }
    rewrite Hd. cbn [flat_map]. by rewrite app_nil_r.
  - rewrite (serialize_range_imap _ ser_txin (signed_input (without_separators code) nIn t)) in Hins.
    2: { intros k x Hk. by apply SerializeInput_spec; [|rewrite Ea|]. }
    injection Hins as <-. unfold zlen. by rewrite length_imap.
Qed.

Lemma outputs_spec code tx nIn t outs :
  (fHashSingle t = true -> (nIn < length (vout tx))%nat) ->
  let n := if fHashNone t then 0%nat else if fHashSingle t then S nIn else length (vout tx) in
  serialize_range (SerializeOutput tx nIn t) 0 n = Ok outs ->
  WriteCompactSize (Z.of_nat n) ++ outs = write_vector ser_txout (vout (signed_copy code tx nIn t)).
Proof.
  intros Hs n Houts. unfold n in *. unfold signed_copy, write_vector. cbn [vout]. destruct (fHashNone t) eqn:En.
  { cbn in Houts. by injection Houts as <-. }
  destruct (fHashSingle t) eqn:Es.
  - destruct (lookup_lt_is_Some_2 _ _ (Hs eq_refl)) as [o Ho].
    assert (Hl : replicate nIn txout_SetNull ++ take 1 (drop nIn (vout tx)) = replicate nIn txout_SetNull ++ [o]).
    { f_equal. by rewrite (drop_S _ _ _ Ho). }
    rewrite Hl. set (l := replicate nIn txout_SetNull ++ [o]).
    assert (Hlen : length l = S nIn) by (unfold l; rewrite length_app, length_replicate; cbn; lia).
    rewrite <- Hlen in Houts |- *. rewrite (serialize_range_imap _ ser_txout (fun _ x => x)) in Houts.
    2: { intros k x Hk. cbn [Nat.add]. unfold SerializeOutput. rewrite Es. cbn [andb]. unfold l in Hk.
         apply lookup_app_Some in Hk as [Hk|[Hge Hk]].
         - apply lookup_replicate in Hk as [-> Hlt]. rewrite (proj2 (Nat.eqb_neq k nIn)) by lia. done.
         - rewrite length_replicate in *. apply list_lookup_singleton_Some in Hk as [Hk <-].
           assert (k = nIn) as -> by lia. rewrite Nat.eqb_refl. cbn [negb]. by rewrite (at_index_Some _ _ _ Ho). }
    injection Houts as <-. unfold zlen. do 2 f_equal. by rewrite imap_same.
  - rewrite (serialize_range_imap _ ser_txout (fun _ x => x)) in Houts.
    2: { intros k x Hk. unfold SerializeOutput. rewrite Es. cbn [andb Nat.add]. by rewrite (at_index_Some _ _ _ Hk). }
    injection Houts as <-. unfold zlen. do 2 f_equal. by rewrite imap_same.
Qed.

Lemma serialize_range_total f start n :
  (forall k, (start <= k < start + n)%nat -> exists a, f k = Ok a) -> exists r, serialize_range f start n = Ok r.
Proof.
  revert start; induction n as [|n IH]; intros start H; [by exists []|]. cbn [serialize_range].
  destruct (H start) as [a ->]; [lia|]. destruct (IH (S start)) as [r ->]; [intros; apply H; lia|]. by eexists.
Qed.

Lemma sighash_Serialize_spec code tx nIn t :
  (nIn < length (vin tx))%nat -> Parses code -> (fHashSingle t = true -> (nIn < length (vout tx))%nat) ->
  sighash_Serialize code tx nIn t = Ok (tx_Serialize_timeless (signed_copy (without_separators code) tx nIn t)).
Proof.
  intros Hn Hp Hs. unfold sighash_Serialize.
  destruct (serialize_range_total (SerializeInput code tx nIn t) 0 (if fAnyoneCanPay t then 1 else length (vin tx))) as [ins Hins].
  { intros k Hk. unfold SerializeInput. assert (Hlt : ((if fAnyoneCanPay t then nIn else k) < length (vin tx))%nat) by (destruct (fAnyoneCanPay t); lia).
    destruct (lookup_lt_is_Some_2 _ _ Hlt) as [i Hi]. rewrite (at_index_Some _ _ _ Hi). by eexists. }
  rewrite Hins. cbn [mbind res_bind].
  set (m := if fHashNone t then 0%nat else if fHashSingle t then S nIn else length (vout tx)).
  destruct (serialize_range_total (SerializeOutput tx nIn t) 0 m) as [outs Houts].
  { intros k Hk. unfold SerializeOutput. destruct (fHashSingle t && negb (k =? nIn)%nat) eqn:E; [by eexists|].
    assert (Hlt : (k < length (vout tx))%nat).
    { unfold m in Hk. destruct (fHashNone t); [lia|]. destruct (fHashSingle t); [specialize (Hs eq_refl); lia|lia]. }
    destruct (lookup_lt_is_Some_2 _ _ Hlt) as [o Ho]. rewrite (at_index_Some _ _ _ Ho). by eexists. }
  rewrite Houts. cbn [mbind res_bind]. f_equal. unfold tx_Serialize_timeless.
  rewrite <- (inputs_spec code tx nIn t ins Hp Hn Hins), <- (outputs_spec (without_separators code) tx nIn t outs Hs Houts).
  unfold signed_copy. cbn [nVersion nType nLockTime vExtraPayload]. by rewrite <- !app_assoc.
Qed.

(** ** SIGHASH_ALL *)

Definition signs_all (t : Z) : bool := negb (fAnyoneCanPay t) && negb (fHashSingle t) && negb (fHashNone t).

(** A reader of the format, to compare what was written. *)
Definition unser_timeless : Parser CTransaction :=
  n32 ← read_int32;
  let version := s16 (Z.land n32 0xffff) in
  let type := u16 (Z.land (Z.shiftr n32 16) 0xffff) in
  ins ← read_vector unser_txin;
  outs ← read_vector unser_txout;
  locktime ← ser_readdata32;
  payload ← (if has_payload version type then read_byte_vector else mret []);
  mret (MkTransaction ins outs version type locktime 0 payload).

(** The fields of a transaction that is parsed from the network. *)
Definition signable (tx : CTransaction) : Prop := tx_ok (nTime tx) tx /\ 0 <= nVersion tx < 2 ^ 15.

Lemma unser_timeless_copy code tx nIn t rest :
  signable tx -> zlen code <= MAX_SIZE -> signs_all t = true ->
  unser_timeless (tx_Serialize_timeless (signed_copy code tx nIn t) ++ rest) =
  Ok (MkTransaction (imap (signed_input code nIn t) (vin tx)) (vout tx) (nVersion tx) (nType tx) (nLockTime tx) 0 (vExtraPayload tx), rest).
Proof.
  intros [[Hin Hout Ht Hl _ Hp] Hv] Hc Ha. unfold signs_all in Ha. bprop. unfold signed_copy.
  assert (fAnyoneCanPay t = false /\ fHashSingle t = false /\ fHashNone t = false) as (Ea & Es & En) by done.
  rewrite Ea, Es, En. unfold tx_Serialize_timeless, unser_timeless. cbn [vin vout nVersion nType nLockTime vExtraPayload].
  rewrite <- !app_assoc, (codec_bind _ _ _ _ _ _ codec_i32) by apply n32bitVersion_signed.
  destruct (version_written (nVersion tx) (nType tx) Hv Ht) as [-> ->].
  rewrite (codec_bind _ _ _ _ _ _ (codec_vector _ _ _ codec_txin)).
  2: { destruct Hin as [Hlen Hall]. split; [unfold zlen in *; by rewrite length_imap|]. apply Forall_lookup. intros k i' Hk.
       rewrite list_lookup_imap in Hk. destruct (vin tx !! k) as [i|] eqn:Ei; [|done]. injection Hk as <-.
       destruct (Forall_lookup_1 _ _ _ _ Hall Ei) as (Ho & Hs & Hq). unfold signed_input. rewrite Es, En. split_and!; cbn [prevout scriptSig nSequence]; try done.
       - destruct (k =? nIn)%nat; [done|]. unfold zlen. cbn. unfold MAX_SIZE. lia.
       - by rewrite andb_false_r. }
  rewrite (codec_bind _ _ _ _ _ _ (codec_vector _ _ _ codec_txout)) by done.
  rewrite (codec_bind _ _ _ _ _ _ codec_u32) by done.
  destruct (has_payload (nVersion tx) (nType tx)); [by rewrite (codec_bind _ _ _ _ _ _ codec_bytes)|]. by rewrite Hp.
Qed.

(** What two signatures of type SIGHASH_ALL have in common when they sign the same bytes. *)
Definition same_signed (code code' : list Z) (tx tx' : CTransaction) (nIn nIn' : nat) : Prop :=
  prevout <$> vin tx = prevout <$> vin tx' /\ nSequence <$> vin tx = nSequence <$> vin tx' /\
  vout tx = vout tx' /\ nVersion tx = nVersion tx' /\ nType tx = nType tx' /\
  nLockTime tx = nLockTime tx' /\ vExtraPayload tx = vExtraPayload tx' /\
  code = code' /\ (code <> [] -> nIn = nIn').

Lemma signed_inputs_inj code code' nIn nIn' t l l' :
  signs_all t = true -> (nIn < length l)%nat -> (nIn' < length l')%nat ->
  imap (signed_input code nIn t) l = imap (signed_input code' nIn' t) l' ->
  prevout <$> l = prevout <$> l' /\ nSequence <$> l = nSequence <$> l' /\ code = code' /\ (code <> [] -> nIn = nIn').
Proof.
  intros Ha Hn Hn' He. unfold signs_all in Ha. bprop.
  assert (fHashSingle t = false /\ fHashNone t = false) as (Es & En) by done.
  assert (Hk : forall k, (l !! k) ≫= (fun i => Some (signed_input code nIn t k i)) = (l' !! k) ≫= (fun i => Some (signed_input code' nIn' t k i))).
  { intros k. pose proof (f_equal (.!! k) He) as H'. cbn beta in H'. rewrite !list_lookup_imap in H'. by destruct (l !! k), (l' !! k). }
  assert (Hseq : forall c n k i, nSequence (signed_input c n t k i) = nSequence i).
  { intros c n k i. unfold signed_input. cbn. by rewrite Es, En, andb_false_r. }
  assert (Hsig : forall k, (k < length l)%nat -> (if (k =? nIn)%nat then code else []) = (if (k =? nIn')%nat then code' else [])).
  { intros k [i Hi]%lookup_lt_is_Some_2. specialize (Hk k). rewrite Hi in Hk. cbn in Hk. destruct (l' !! k) as [i'|]; [|done].
    cbn in Hk. apply (f_equal (fun o => default [] (scriptSig <$> o))) in Hk. exact Hk. }
  assert (Hlen : length l = length l') by (apply (f_equal length) in He; by rewrite !length_imap in He).
  assert (Hcode : code = code' /\ (code <> [] -> nIn = nIn')).
  { pose proof (Hsig nIn Hn) as Hs1. pose proof (Hsig nIn' ltac:(lia)) as Hs2. rewrite Nat.eqb_refl in Hs1, Hs2. rewrite (Nat.eqb_sym nIn' nIn) in Hs2.
    destruct (Nat.eqb_spec nIn nIn') as [->|]; [done|]. by subst code code'. }
  split_and!; [..|apply Hcode|apply Hcode].
  - apply list_eq. intros k. rewrite !list_lookup_fmap. specialize (Hk k). destruct (l !! k), (l' !! k); try done. cbn in *. f_equal.
    injection Hk as Hk _ _. done.
  - apply list_eq. intros k. rewrite !list_lookup_fmap. specialize (Hk k). destruct (l !! k) as [i|], (l' !! k) as [i'|]; try done.
    cbn [mbind option_bind] in Hk. apply (f_equal (fmap nSequence)) in Hk. cbn [fmap option_fmap option_map] in Hk. rewrite !Hseq in Hk. exact Hk.
Qed.

(** ** Main properties *)

(** C10: for every hash type and every script code that parses, the bytes that SignatureHash
    writes piece by piece are those of the copy of the
    transaction the type stands for: the script code without its separators in the signed input and no
    scripts in the others, the outputs and sequence numbers that are left open blanked, only the signed
    input with SIGHASH_ANYONECANPAY; nothing is read out of range.  SIGHASH_SINGLE without an output at the
    position of the input, whose hash is the constant one, is left out.  For a version without a time the
    bytes are the format of a transaction. *)
Theorem SignatureHash_signs_copy {crypto : CryptoOps} code tx nIn t :
  (nIn < length (vin tx))%nat -> Parses code -> (fHashSingle t = true -> (nIn < length (vout tx))%nat) ->
  let copy := signed_copy (without_separators code) tx nIn t in
  SignatureHash code tx nIn t = Ok (Hash (tx_Serialize_timeless copy ++ ser_writedata32 t)) /\
  (has_time (nVersion tx) = false -> tx_Serialize_timeless copy = tx_Serialize copy).
Proof.
  intros Hn Hp Hs copy. split; [|intros H; by apply timeless_format]. unfold SignatureHash.
  rewrite (proj2 (Nat.ltb_lt _ _)) by done. cbn [negb].
  assert (fHashSingle t && (length (vout tx) <=? nIn)%nat = false) as ->.
  { destruct (fHashSingle t); [|done]. cbn [andb]. apply Nat.leb_gt. by apply Hs. }
  by rewrite sighash_Serialize_spec.
Qed.

(** C9: a signature hash of type SIGHASH_ALL commits to the transaction: when two of them are equal, either
    a collision of the hash function is at hand or the hash types, all outpoints, sequence numbers and
    outputs, the version, type, lock time, payload and the script code without its separators agree, and,
    unless that code is empty, the position of the signed input too.  The transactions are within the
    limits of their format and the script codes parse. *)
Theorem SIGHASH_ALL_commits {crypto : CryptoOps} code code' tx tx' nIn nIn' t t' :
  signable tx -> signable tx' -> (nIn < length (vin tx))%nat -> (nIn' < length (vin tx'))%nat ->
  Parses code -> Parses code' ->
  zlen (without_separators code) <= MAX_SIZE -> zlen (without_separators code') <= MAX_SIZE ->
  signs_all t = true -> signs_all t' = true -> unsigned 32 t -> unsigned 32 t' ->
  SignatureHash code tx nIn t = SignatureHash code' tx' nIn' t' ->
  (exists x y, x <> y /\ Hash x = Hash y) \/
  t = t' /\ same_signed (without_separators code) (without_separators code') tx tx' nIn nIn'.
Proof.
  intros Hok Hok' Hn Hn' Hp Hp' Hc Hc' Ha Ha' Ht Ht' H.
  assert (Hall : forall t, signs_all t = true -> fHashSingle t = false) by (intros ? Hs; unfold signs_all in Hs; by bprop).
  unfold SignatureHash in H. rewrite !(proj2 (Nat.ltb_lt _ _)), (Hall t Ha), (Hall t' Ha') in H by done. cbn [negb andb] in H.
  rewrite !sighash_Serialize_spec in H by (done || (intros Hs; by rewrite Hall in Hs)). cbn [mbind res_bind] in H.
  apply (f_equal (fun r => match r with Ok x => x | _ => [] end)) in H. cbn beta iota in H.
  match type of H with Hash ?x = Hash ?y => destruct (decide (x = y)) as [He|Hne]; [|left; by exists x, y] end. right. clear H.
  pose proof (unser_timeless_copy _ tx nIn t (ser_writedata32 t) Hok Hc Ha) as H1.
  pose proof (unser_timeless_copy _ tx' nIn' t' (ser_writedata32 t') Hok' Hc' Ha') as H2. rewrite He, H2 in H1.
  apply (f_equal (fun r => match r with Ok x => Some x | _ => None end)) in H1. cbn beta iota in H1.
  apply (inj Some), pair_eq in H1 as [Htx Htt]. injection Htx as Hin Hvo Hve Hty Hlo Hpa.
  assert (t = t') as <-.
  { pose proof (codec_u32 t [] Ht) as R1. pose proof (codec_u32 t' [] Ht') as R2. rewrite Htt, R1 in R2. by injection R2. }
  split; [done|]. destruct (signed_inputs_inj _ _ nIn nIn' t (vin tx) (vin tx') Ha Hn Hn' (eq_sym Hin)) as (H1 & H3 & H4 & H5).
  unfold same_signed. split_and!; try done.
Qed.

(** C40: The time of a transaction of version 1 or 2 is not signed: a transaction and its copy with another
    time have the same signature hash for every input, script and type, but different bytes, the
    ones that its id is the hash of. *)
Theorem time_is_not_signed {crypto : CryptoOps} tx time :
  has_time (nVersion tx) = true -> unsigned 32 (nTime tx) -> unsigned 32 time -> time <> nTime tx ->
  let tx' := MkTransaction (vin tx) (vout tx) (nVersion tx) (nType tx) (nLockTime tx) time (vExtraPayload tx) in
  (forall code nIn t, SignatureHash code tx' nIn t = SignatureHash code tx nIn t) /\ tx_Serialize tx' <> tx_Serialize tx.
Proof.
  intros Hv Ht Ht' Hne tx'. split; [done|]. unfold tx_Serialize, tx'. cbn [nVersion nType nTime vin vout nLockTime vExtraPayload]. rewrite Hv.
  intros [_ H]%app_inj_1; [|done]. apply app_inj_1 in H as [H _]; [|by unfold ser_writedata32, WriteLE32; rewrite !le_bytes_length].
  apply Hne. pose proof (codec_u32 time [] Ht') as R1. pose proof (codec_u32 (nTime tx) [] Ht) as R2.
  rewrite H, R2 in R1. by injection R1.
Qed.

(** C31: OP_CHECKLOCKTIMEVERIFY enforces the lock it names: when CheckLockTime accepts a positive lock for an
    input and the transaction is final for a block, the height of the block, or its time for a lock that
    is a time, has passed the lock. *)
Theorem CheckLockTime_enforced tx nIn n height time :
  tx_CheckLockTime tx nIn n = Ok true -> IsFinalTx tx height time = true -> 0 < n ->
  n < (if n <? LOCKTIME_THRESHOLD then height else time).
Proof.
  unfold tx_CheckLockTime, IsFinalTx. intros Hc Hf Hn.
  destruct (_ || _) eqn:Ek in Hc; [|done]. cbn [negb] in Hc. destruct (nLockTime tx <? n) eqn:El; [done|]. bprop.
  destruct (vin tx !! nIn) as [i|] eqn:Ei; [|by unfold at_index in Hc; rewrite Ei in Hc]. rewrite (at_index_Some _ _ _ Ei) in Hc. cbn [mbind res_bind] in Hc.
  destruct (SEQUENCE_FINAL =? nSequence i) eqn:Es; [done|]. bprop.
  assert (Hkind : (n <? LOCKTIME_THRESHOLD) = (nLockTime tx <? LOCKTIME_THRESHOLD)) by (apply orb_true_iff in Ek as [Ek|Ek]; bprop; lia).
  rewrite Hkind. rewrite (proj2 (Z.eqb_neq (nLockTime tx) 0)) in Hf by lia.
  destruct (nLockTime tx <? (if nLockTime tx <? LOCKTIME_THRESHOLD then height else time)) eqn:Eh in Hf; [bprop; lia|].
  exfalso. apply Es. symmetry. apply Z.eqb_eq. rewrite forallb_forall in Hf. apply Hf. apply list_elem_of_In. by eapply list_elem_of_lookup_2.
Qed.

Lemma flag_type x : flag x SEQUENCE_LOCKTIME_TYPE_FLAG = Z.testbit x 22.
Proof.
  unfold flag. change SEQUENCE_LOCKTIME_TYPE_FLAG with (2 ^ 22). destruct (Z.testbit x 22) eqn:E.
  - apply negb_true_iff, Z.eqb_neq. intros H. apply (f_equal (fun y => Z.testbit y 22)) in H.
    rewrite Z.land_spec, E, Z.pow2_bits_true in H by lia. done.
  - apply negb_false_iff, Z.eqb_eq. apply Z.bits_inj'. intros i Hi. rewrite Z.land_spec, Z.pow2_bits_eqb, Z.bits_0 by lia.
    destruct (Z.eqb_spec 22 i) as [<-|]; [by rewrite E|by rewrite andb_false_r].
Qed.

Lemma masked_sequence x :
  Z.land x nLockTimeMask = (if flag x SEQUENCE_LOCKTIME_TYPE_FLAG then 2 ^ 22 else 0) + Z.land x SEQUENCE_LOCKTIME_MASK /\
  0 <= Z.land x SEQUENCE_LOCKTIME_MASK < 2 ^ 16.
Proof.
  assert (Hm : 0 <= Z.land x SEQUENCE_LOCKTIME_MASK < 2 ^ 16).
  { change SEQUENCE_LOCKTIME_MASK with (Z.ones 16). rewrite Z.land_ones by lia. by apply Z.mod_pos_bound. }
  split; [|done]. unfold nLockTimeMask. rewrite Z.land_lor_distr_r.
  assert (Ht : Z.land x SEQUENCE_LOCKTIME_TYPE_FLAG = if flag x SEQUENCE_LOCKTIME_TYPE_FLAG then 2 ^ 22 else 0).
  { rewrite flag_type. apply Z.bits_inj'. intros i Hi. rewrite Z.land_spec. change SEQUENCE_LOCKTIME_TYPE_FLAG with (2 ^ 22).
    rewrite Z.pow2_bits_eqb by lia. destruct (Z.eqb_spec 22 i) as [<-|Hne].
    - rewrite andb_true_r. destruct (Z.testbit x 22); [by rewrite Z.pow2_bits_true by lia|by rewrite Z.bits_0].
    - rewrite andb_false_r. destruct (Z.testbit x 22); [by rewrite Z.pow2_bits_false by lia|by rewrite Z.bits_0]. }
  rewrite <- Ht. apply lor_disjoint_add. apply Z.bits_inj'. intros i Hi. rewrite !Z.land_spec, Z.bits_0.
  change SEQUENCE_LOCKTIME_TYPE_FLAG with (2 ^ 22). change SEQUENCE_LOCKTIME_MASK with (Z.ones 16). rewrite Z.pow2_bits_eqb by lia.
  destruct (Z.eqb_spec 22 i) as [<-|]; [by rewrite Z.ones_spec_high, !andb_false_r by lia|by rewrite andb_false_r].
Qed.

Lemma tx_CheckSequence_Ok tx nIn n :
  tx_CheckSequence tx nIn n = Ok true ->
  exists i, vin tx !! nIn = Some i /\ 2 <= u32 (nVersion tx) /\ flag (nSequence i) SEQUENCE_LOCKTIME_DISABLE_FLAG = false /\
    flag (nSequence i) SEQUENCE_LOCKTIME_TYPE_FLAG = flag n SEQUENCE_LOCKTIME_TYPE_FLAG /\
    Z.land n SEQUENCE_LOCKTIME_MASK <= Z.land (nSequence i) SEQUENCE_LOCKTIME_MASK.
Proof.
  unfold tx_CheckSequence. intros H. destruct (vin tx !! nIn) as [i|] eqn:Ei; [|by unfold at_index in H; rewrite Ei in H].
  rewrite (at_index_Some _ _ _ Ei) in H. cbn [mbind res_bind] in H. destruct (u32 (nVersion tx) <? 2) eqn:Ev; [done|].
  destruct (flag (nSequence i) SEQUENCE_LOCKTIME_DISABLE_FLAG) eqn:Ed; [done|].
  destruct (masked_sequence n) as [Hmn Hn]. destruct (masked_sequence (nSequence i)) as [Hms Hs]. rewrite Hmn, Hms in H. revert H.
  change SEQUENCE_LOCKTIME_TYPE_FLAG with (2 ^ 22). intros H. exists i. split; [done|]. bprop. split; [lia|]. split; [done|].
  destruct (flag (nSequence i) (2 ^ 22)), (flag n (2 ^ 22)); cbn [orb andb negb] in H;
    destruct (negb _) eqn:Ek in H; try done; bprop; destruct (_ <? _) eqn:El in H; try done; bprop; try (split; [done|lia]);
    exfalso; apply orb_true_iff in Ek as [Ek|Ek]; bprop; lia.
Qed.

(** C32: OP_CHECKSEQUENCEVERIFY enforces the relative lock it names: when CheckSequence accepts a lock for an
    input and the sequence locks of the transaction hold for a block, the block is that many blocks, or
    that many units of 512 seconds of median time, after the coin the input spends. *)
Theorem CheckSequence_enforced t block b prev tx flags heights nIn n hc :
  heap_wf t -> (forall q b, t !! q = Some b -> 0 <= GetBlockTime b) -> t !! block = Some b -> pprev b = Some prev ->
  length heights = length (vin tx) -> Forall (fun h => h <= nHeight b + 1) heights -> heights !! nIn = Some hc ->
  flag flags LOCKTIME_VERIFY_SEQUENCE = true -> tx_CheckSequence tx nIn n = Ok true ->
  SequenceLocks t tx flags heights block = Ok true ->
  if flag n SEQUENCE_LOCKTIME_TYPE_FLAG
  then exists a, ancestor t block (Z.max (hc - 1) 0) = Some a /\
         GetMedianTimePast t a + 512 * Z.land n SEQUENCE_LOCKTIME_MASK <= GetMedianTimePast t prev
  else hc + Z.land n SEQUENCE_LOCKTIME_MASK <= nHeight b.
Proof.
  intros wf Ht Hb Hprev Hlen Hh Hhc Hfl Hc Hl. destruct (tx_CheckSequence_Ok _ _ _ Hc) as (i & Hi & Hv & Hd & Hty & Hle).
  destruct (SequenceLocks_spec t block b prev tx flags heights wf Ht Hb Hprev Hlen Hh) as (r & Hr & Hiff).
  rewrite Hl in Hr. injection Hr as <-. destruct (proj1 Hiff eq_refl) as [Hn|Hall].
  { unfold enforce_BIP68 in Hn. rewrite Hfl, andb_true_r in Hn. bprop. lia. }
  destruct (Forall2_lookup_lr _ _ _ _ _ _ Hall Hi Hhc) as [?|Hs]; [congruence|]. cbv zeta in Hs. rewrite Hty in Hs. set (v := Z.land n SEQUENCE_LOCKTIME_MASK) in *.
  set (w := Z.land (nSequence i) SEQUENCE_LOCKTIME_MASK) in *.
  destruct (flag n SEQUENCE_LOCKTIME_TYPE_FLAG); [destruct Hs as (a & Ha & Hm); exists a; split; [done|lia]|lia].
Qed.

(** ** Witnesses *)

Definition signed_tx (time : Z) : CTransaction :=
  MkTransaction
    [MkTxIn (MkOutPoint (replicate 32 7) 1) [0x51] 5; MkTxIn (MkOutPoint (replicate 32 8) 0) [0x52] 0xfffffffe]
    [MkTxOut 5000 [0x51]; MkTxOut 6000 [0x52]] 2 0 100 time [].

(** OP_1 OP_CODESEPARATOR OP_CHECKSIG *)
Definition separated : list Z := [0x51; 0xab; 0xac].

Lemma separated_parses : Parses separated.
Proof. do 3 (eapply Parses_op; [reflexivity|]). constructor. Qed.

Lemma signed_tx_signable time : unsigned 32 time -> signable (signed_tx time).
Proof.
  intros Ht. split; [|cbn; lia]. constructor; cbn; try done.
  - split; [done|]. by repeat constructor.
  - split; [done|]. by repeat constructor.
Qed.

Lemma SignatureHash_signs_copy_witness :
  SignatureHash (crypto := sum_crypto) separated (signed_tx 9) 1 0x83 =
    Ok (Hash (crypto := sum_crypto) (tx_Serialize_timeless (signed_copy (without_separators separated) (signed_tx 9) 1 0x83) ++ ser_writedata32 0x83)) /\
  without_separators separated = [0x51; 0xac] /\
  vin (signed_copy [0x51; 0xac] (signed_tx 9) 1 0x83) = [MkTxIn (MkOutPoint (replicate 32 8) 0) [0x51; 0xac] 0xfffffffe] /\
  vout (signed_copy [0x51; 0xac] (signed_tx 9) 1 0x83) = [txout_SetNull; MkTxOut 6000 [0x52]].
Proof.
  split; [|split; [reflexivity|split; reflexivity]].
  apply (SignatureHash_signs_copy (crypto := sum_crypto) separated (signed_tx 9) 1 0x83); [cbn; lia|exact separated_parses|cbn; lia].
Defined.

(** Two copies of a transaction that differ in their time. *)
Lemma SIGHASH_ALL_commits_witness :
  (exists x y, x <> y /\ Hash (crypto := sum_crypto) x = Hash (crypto := sum_crypto) y) \/
  1 = 1 /\ same_signed (without_separators separated) (without_separators separated) (signed_tx 9) (signed_tx 10) 0 0.
Proof.
  apply (SIGHASH_ALL_commits (crypto := sum_crypto) separated separated (signed_tx 9) (signed_tx 10) 0 0 1 1);
    try (apply signed_tx_signable; split; [discriminate|reflexivity]); try exact separated_parses;
    try (cbn; lia); try (split; [discriminate|reflexivity]); try reflexivity; vm_compute; discriminate.
Defined.

Lemma time_is_not_signed_witness :
  (forall code nIn t, SignatureHash (crypto := sum_crypto) code (signed_tx 10) nIn t = SignatureHash (crypto := sum_crypto) code (signed_tx 9) nIn t) /\
  tx_Serialize (signed_tx 10) <> tx_Serialize (signed_tx 9).
Proof.
  apply (time_is_not_signed (crypto := sum_crypto) (signed_tx 9) 10);
    [reflexivity|split; [discriminate|reflexivity]|split; [discriminate|reflexivity]|discriminate].
Defined.

Lemma CheckLockTime_enforced_witness : 90 < (if 90 <? LOCKTIME_THRESHOLD then 101 else 0).
Proof. apply (CheckLockTime_enforced (signed_tx 9) 0 90 101 0); [reflexivity|reflexivity|lia]. Defined.

Lemma CheckSequence_enforced_witness :
  exists b, forked !! 2%nat = Some b /\ 0 + Z.land 1 SEQUENCE_LOCKTIME_MASK <= nHeight b.
Proof.
  destruct (forked !! 2%nat) as [b|] eqn:E; [|vm_compute in E; discriminate]. exists b. split; [reflexivity|].
  assert (nHeight b = 1 /\ pprev b = Some 0%nat) as [Hh Hp] by (vm_compute in E; injection E as <-; split; reflexivity).
  apply (CheckSequence_enforced forked 2 b 0 locked_tx LOCKTIME_VERIFY_SEQUENCE [0; 0] 0 1 0 (Built_wf _ forked_built)).
  - intros q b'. exact (Forall_lookup_1 _ _ q b' forked_times).
  - exact E.
  - exact Hp.
  - reflexivity.
  - rewrite Hh. repeat constructor; lia.
  - reflexivity.
  - reflexivity.
  - reflexivity.
  - vm_compute. reflexivity.
Defined.
