(* ===== verification/MerkleBlock.v ===== *)
(** * Partial Merkle trees

    Models CPartialMerkleTree of src/src/merkleblock.h and merkleblock.cpp: the proof that some
    transactions are in a block, as it is built, serialized and checked.  Positions are below the width
    of their level and are doubled only within it, so they do not wrap. *)

From stdpp Require Import base list numbers.
From S2P Require Import Prelude Script Crypto Serialize Transaction Block Merkle Coins TxVerify.

Open Scope Z_scope.

(** [ret[p / 8] |= bits[p] << (p % 8)]. *)
Definition BitsToBytes (bits : list bool) : list Z :=
  fold_left
    (fun ret p => alter (fun x => Z.lor x (Z.shiftl (b2z (default false (bits !! p))) (Z.of_nat (p mod 8)))) (p / 8)%nat ret)
    (seq 0 (length bits)) (replicate ((length bits + 7) / 8) 0).

Definition BytesToBits (bytes : list Z) : list bool :=
  (fun p => flag (vget bytes (p / 8)) (Z.shiftl 1 (Z.of_nat (p mod 8)))) <$> seq 0 (length bytes * 8).

Record CPartialMerkleTree : Type := MkTree {
  nTransactions : Z;
  vBits : list bool;
  vHash : list (list Z);
  fBad : bool
}.

Definition CalcTreeWidth (nTransactions : Z) (height : nat) : Z :=
  Z.shiftr (u32 (nTransactions + Z.shiftl 1 (Z.of_nat height) - 1)) (Z.of_nat height).

(** [while (CalcTreeWidth(nHeight) > 1) nHeight++]; a shift by 31 is undefined. *)
Fixpoint tree_height (fuel : nat) (nTransactions : Z) (nHeight : nat) : res unit nat :=
  if 1 <? CalcTreeWidth nTransactions nHeight
  then match fuel with O => Abort | S fuel => tree_height fuel nTransactions (S nHeight) end
  else Ok nHeight.

Definition TreeHeight (nTransactions : Z) : res unit nat := tree_height 31 nTransactions 0.

Definition ser_tree (t : CPartialMerkleTree) : list Z :=
  ser_writedata32 (nTransactions t) ++ write_vector id (vHash t) ++ write_bytes (BitsToBytes (vBits t)).

Definition unser_tree : Parser CPartialMerkleTree :=
  n ← ser_readdata32; h ← read_vector (read_bytes 32); bytes ← read_byte_vector;
  mret (MkTree n (BytesToBits bytes) h false).

Section tree.
Context {crypto : CryptoOps}.

Fixpoint CalcHash (nTransactions : Z) (height pos : nat) (vTxid : list (list Z)) : res unit (list Z) :=
  match vTxid with
  | [] => Abort
  | _ =>
      match height with
      | O => match vTxid !! pos with Some h => Ok h | None => Abort end
      | S height =>
          lhash ← CalcHash nTransactions height (pos * 2) vTxid;
          rhash ← (if Z.of_nat (pos * 2 + 1) <? CalcTreeWidth nTransactions height
                   then CalcHash nTransactions height (pos * 2 + 1) vTxid else Ok lhash);
          Ok (Hash (lhash ++ rhash))
      end
  end.

(** [for (p = pos << height; p < (pos+1) << height && p < nTransactions; p++) fParentOfMatch |= vMatch[p]]. *)
Definition parent_of_match (nTransactions : Z) (height pos : nat) (vMatch : list bool) : bool :=
  let lo := (pos * 2 ^ height)%nat in
  let hi := Nat.min ((pos + 1) * 2 ^ height) (Z.to_nat nTransactions) in
  existsb (fun p => default false (vMatch !! p)) (seq lo (hi - lo)).

(** The bits and hashes that are appended. *)
Fixpoint TraverseAndBuild (nTransactions : Z) (height pos : nat) (vTxid : list (list Z)) (vMatch : list bool) :
    res unit (list bool * list (list Z)) :=
  let fParentOfMatch := parent_of_match nTransactions height pos vMatch in
  match height with
  | S h =>
      if fParentOfMatch then
        '(bits, hashes) ← TraverseAndBuild nTransactions h (pos * 2) vTxid vMatch;
        '(bits', hashes') ← (if Z.of_nat (pos * 2 + 1) <? CalcTreeWidth nTransactions h
                             then TraverseAndBuild nTransactions h (pos * 2 + 1) vTxid vMatch else Ok ([], []));
        Ok (fParentOfMatch :: bits ++ bits', hashes ++ hashes')
      else hash ← CalcHash nTransactions height pos vTxid; Ok ([fParentOfMatch], [hash])
  | O => hash ← CalcHash nTransactions height pos vTxid; Ok ([fParentOfMatch], [hash])
  end.

(** The constructor; [vMatch] is indexed up to the number of transactions. *)
Definition CPartialMerkleTree_make (vTxid : list (list Z)) (vMatch : list bool) : res unit CPartialMerkleTree :=
  let n := u32 (zlen vTxid) in
  if (length vMatch <? length vTxid)%nat then Abort else
  nHeight ← TreeHeight n;
  '(bits, hashes) ← TraverseAndBuild n nHeight 0 vTxid vMatch;
  Ok (MkTree n bits hashes false).

(** What the extraction changes: [fBad], the two counters and the two results. *)
Record extraction : Type := MkExtraction {
  bad : bool;
  nBitsUsed : nat;
  nHashUsed : nat;
  xMatch : list (list Z);
  vnIndex : list nat
}.

Fixpoint TraverseAndExtract (t : CPartialMerkleTree) (height pos : nat) (s : extraction) : list Z * extraction :=
  match vBits t !! nBitsUsed s with
  | None => (null_hash, MkExtraction true (nBitsUsed s) (nHashUsed s) (xMatch s) (vnIndex s))
  | Some fParentOfMatch =>
      let s := MkExtraction (bad s) (S (nBitsUsed s)) (nHashUsed s) (xMatch s) (vnIndex s) in
      let use_hash :=
        match vHash t !! nHashUsed s with
        | None => (null_hash, MkExtraction true (nBitsUsed s) (nHashUsed s) (xMatch s) (vnIndex s))
        | Some hash =>
            if (height =? 0)%nat && fParentOfMatch
            then (hash, MkExtraction (bad s) (nBitsUsed s) (S (nHashUsed s)) (xMatch s ++ [hash]) (vnIndex s ++ [pos]))
            else (hash, MkExtraction (bad s) (nBitsUsed s) (S (nHashUsed s)) (xMatch s) (vnIndex s))
        end in
      match height with
      | O => use_hash
      | S h =>
          if fParentOfMatch then
            let '(lhash, s) := TraverseAndExtract t h (pos * 2) s in
            if Z.of_nat (pos * 2 + 1) <? CalcTreeWidth (nTransactions t) h then
              let '(rhash, s) := TraverseAndExtract t h (pos * 2 + 1) s in
              let s := if bool_decide (rhash = lhash)
                       then MkExtraction true (nBitsUsed s) (nHashUsed s) (xMatch s) (vnIndex s) else s in
              (Hash (lhash ++ rhash), s)
            else (Hash (lhash ++ lhash), s)
          else use_hash
      end
  end.

(** [MaxBlockSize()]. *)
Definition MaxBlockSize (fDIP0001Active : bool) : Z :=
  if fDIP0001Active then MAX_DIP0001_BLOCK_SIZE else MAX_LEGACY_BLOCK_SIZE.

(** The root, null for a failure, with the matched hashes and their positions ([vnIndex] is not cleared),
    and the tree, whose [fBad] the traversal may set. *)
Definition ExtractMatches (t : CPartialMerkleTree) (index : list nat) :
    res unit (list Z * list (list Z) * list nat * CPartialMerkleTree) :=
  if nTransactions t =? 0 then Ok (null_hash, [], index, t) else
  if MaxBlockSize true / 60 <? nTransactions t then Ok (null_hash, [], index, t) else
  if nTransactions t <? zlen (vHash t) then Ok (null_hash, [], index, t) else
  if (length (vBits t) <? length (vHash t))%nat then Ok (null_hash, [], index, t) else
  nHeight ← TreeHeight (nTransactions t);
  let '(root, s) := TraverseAndExtract t nHeight 0 (MkExtraction (fBad t) 0 0 [] index) in
  let ok := negb (bad s) && ((nBitsUsed s + 7) / 8 =? (length (vBits t) + 7) / 8)%nat && (nHashUsed s =? length (vHash t))%nat in
  Ok (if ok then root else null_hash, xMatch s, vnIndex s, MkTree (nTransactions t) (vBits t) (vHash t) (bad s)).

End tree.
