(* ===== verification/MerkleBlockSpec.v ===== *)
(** * Partial Merkle trees prove membership

    What CPartialMerkleTree of src/src/merkleblock.cpp builds is accepted and gives back the matched
    transactions, and what it accepts for the root of a block is in the block. *)

From stdpp Require Import base list numbers.
From S2P Require Import Prelude Script Crypto Serialize Transaction Block Merkle Coins TxVerify MerkleBlock.

Open Scope Z_scope.

(** ** Levels of the tree *)

Section levels.
Context {crypto : CryptoOps}.

Definition next_level (l : list (list Z)) : list (list Z) := SHA256D64 <$> pairs l.

Fixpoint level (h : nat) (l : list (list Z)) : list (list Z) :=
  match h with O => l | S h => next_level (level h l) end.

Lemma level_next h l : level h (next_level l) = next_level (level h l).
Proof. induction h as [|h IH]; [done|]. cbn [level]. by rewrite IH. Qed.

Lemma pairs_lookup l i :
  pairs l !! i = match l !! (i * 2)%nat with Some a => Some (a, default a (l !! (i * 2 + 1)%nat)) | None => None end.
Proof.
  revert i. induction l as [l IH] using (well_founded_induction (well_founded_ltof _ length)). unfold ltof in IH. intros i.
  destruct l as [|a [|b l]], i as [|i]; try done. cbn [pairs]. rewrite lookup_cons_ne_0 by lia. cbn [pred].
  rewrite (IH l) by (simpl; lia). replace (S i * 2)%nat with (S (S (i * 2))) by lia. replace (S (S (i * 2)) + 1)%nat with (S (S (i * 2 + 1))) by lia.
  cbn. by destruct (l !! _).
Qed.

Lemma next_level_lookup l i x :
  next_level l !! i = Some x <-> exists a, l !! (i * 2)%nat = Some a /\ x = Hash (a ++ default a (l !! (i * 2 + 1)%nat)).
Proof.
  unfold next_level. rewrite list_lookup_fmap, pairs_lookup. destruct (l !! (i * 2)%nat) as [a|]; cbn; [|split; [done|by intros (? & ? & _)]].
  split; [intros [= <-]; by exists a|]. by intros (? & [= <-] & ->).
Qed.

Lemma next_level_length l : length (next_level l) = ((length l + 1) / 2)%nat.
Proof.
  unfold next_level. rewrite length_fmap. pose proof (pairs_length l). pose proof (Nat.div_mod_eq (length l) 2).
  pose proof (Nat.mod_upper_bound (length l) 2 ltac:(lia)). pose proof (Nat.div_mod_eq (length l + 1) 2).
  pose proof (Nat.mod_upper_bound (length l + 1) 2 ltac:(lia)). lia.
Qed.

Lemma level_length h l : length (level h l) = ((length l + (2 ^ h - 1)) / 2 ^ h)%nat.
Proof.
  induction h as [|h IH]; [change (2 ^ 0)%nat with 1%nat; rewrite Nat.div_1_r, Nat.add_0_r; done|]. cbn [level]. rewrite next_level_length, IH.
  pose proof (Nat.pow_nonzero 2 h ltac:(lia)). rewrite <- (Nat.div_add _ 1) by lia.
  rewrite Nat.Div0.div_div. rewrite Nat.pow_succ_r', (Nat.mul_comm 2). f_equal. lia.
Qed.

Lemma width_spec h l :
  zlen l + 2 ^ Z.of_nat h <= 2 ^ 32 -> CalcTreeWidth (zlen l) h = Z.of_nat (length (level h l)).
Proof.
  intros Hb. unfold CalcTreeWidth. rewrite level_length, Z.shiftl_1_l, Z.shiftr_div_pow2 by lia. unfold zlen, u32 in *.
  assert (0 < 2 ^ Z.of_nat h) by (apply Z.pow_pos_nonneg; lia). rewrite Z.mod_small by lia.
  rewrite Nat2Z.inj_div, Nat2Z.inj_pow, Nat2Z.inj_add, Nat2Z.inj_sub, Nat2Z.inj_pow by (pose proof (Nat.pow_nonzero 2 h); lia).
  f_equal. lia.
Qed.

Lemma level_nil h : level h [] = [].
Proof. induction h as [|h IH]; [done|]. cbn [level]. by rewrite IH. Qed.

(** The loop of [ComputeMerkleRoot] goes through the levels. *)
Lemma merkle_loop_level H fuel l m :
  length (level H l) = 1%nat -> (forall h, (h < H)%nat -> (1 < length (level h l))%nat) -> (H <= fuel)%nat ->
  ComputeMerkleRoot_loop fuel l m = Ok (level H l, m || existsb (fun h => level_mutated (level h l)) (seq 0 H)).
Proof.
  revert fuel l m; induction H as [|H IH]; intros fuel l m H1 Hall Hf.
  { destruct l as [|a [|b l]]; try done. cbn. by destruct fuel; rewrite orb_false_r. }
  destruct fuel as [|fuel]; [lia|]. pose proof (Hall 0%nat ltac:(lia)) as H2. cbn [level] in H2.
  destruct l as [|a [|b l]]; [simpl in H2; lia..|]. cbn [ComputeMerkleRoot_loop]. fold (next_level (a :: b :: l)).
  rewrite IH; [|by rewrite level_next| |lia].
  - rewrite level_next. do 2 f_equal. cbn [seq existsb level]. rewrite <- orb_assoc. f_equal. f_equal.
    rewrite <- (seq_shift H 0). clear. induction (seq 0 H) as [|h s IHs]; [done|]. cbn [existsb map]. rewrite level_next. f_equal. exact IHs.
  - intros h Hh. rewrite level_next. apply (Hall (S h)). lia.
Qed.

(** ** Heights *)

Lemma tree_height_spec fuel l h :
  zlen l + 2 ^ Z.of_nat (h + fuel) <= 2 ^ 32 -> (length (level (h + fuel) l) <= 1)%nat ->
  exists H, tree_height fuel (zlen l) h = Ok H /\ (h <= H <= h + fuel)%nat /\ (length (level H l) <= 1)%nat /\
    forall k, (h <= k < H)%nat -> (1 < length (level k l))%nat.
Proof.
  revert h; induction fuel as [|fuel IH]; intros h Hb Hw; cbn [tree_height].
  - rewrite Nat.add_0_r in *. rewrite width_spec by done. rewrite (proj2 (Z.ltb_ge _ _)) by lia. exists h. repeat split; [lia|lia|done|lia].
  - pose proof (Z.pow_le_mono_r 2 (Z.of_nat h) (Z.of_nat (h + S fuel)) ltac:(lia) ltac:(lia)).
    rewrite width_spec by lia. destruct (Z.ltb_spec 1 (Z.of_nat (length (level h l)))) as [Hlt|Hge].
    + destruct (IH (S h)) as (H' & -> & HH & Hl & Hall); [by replace (S h + fuel)%nat with (h + S fuel)%nat by lia..|].
      exists H'. split; [done|]. split; [lia|]. split; [done|]. intros k Hk. destruct (decide (k = h)) as [->|]; [lia|]. apply Hall. lia.
    + exists h. repeat split; [lia|lia|lia|lia].
Qed.

Section leaves.
Context (l : list (list Z)) (Hl : zlen l <= 2 ^ 31).

Abbreviation small h := (Z.of_nat h <= 31).

Lemma width_small h : small h -> CalcTreeWidth (zlen l) h = Z.of_nat (length (level h l)).
Proof. intros Hh. apply width_spec. pose proof (Z.pow_le_mono_r 2 (Z.of_nat h) 31 ltac:(lia) Hh). lia. Qed.

Lemma right_exists h pos : small h ->
  (Z.of_nat (pos * 2 + 1) <? CalcTreeWidth (zlen l) h) = bool_decide (is_Some (level h l !! (pos * 2 + 1)%nat)).
Proof.
  intros Hh. rewrite width_small by done. apply eq_bool_prop_intro. rewrite Is_true_true, bool_decide_spec, Z.ltb_lt, lookup_lt_is_Some. lia.
Qed.

Lemma CalcHash_S n h pos v : v <> [] ->
  CalcHash n (S h) pos v =
  (lhash ← CalcHash n h (pos * 2) v;
   rhash ← (if Z.of_nat (pos * 2 + 1) <? CalcTreeWidth n h then CalcHash n h (pos * 2 + 1) v else Ok lhash);
   Ok (Hash (lhash ++ rhash))).
Proof. by destruct v. Qed.

(** [CalcHash] computes the nodes of the levels. *)
Lemma CalcHash_level h pos x : small h -> level h l !! pos = Some x -> CalcHash (zlen l) h pos l = Ok x.
Proof.
  revert pos x; induction h as [|h IH]; intros pos x Hh Hx.
  { cbn in Hx |- *. rewrite Hx. by destruct l. }
  cbn [level] in Hx. apply next_level_lookup in Hx as (a & Ha & ->). assert (l <> []) by (intros Hn; by rewrite Hn, level_nil in Ha).
  rewrite CalcHash_S, (IH _ _ ltac:(lia) Ha), right_exists by (done || lia). cbn [mbind res_bind]. case_bool_decide as Hr.
  - destruct Hr as [b Hb]. by rewrite (IH _ _ ltac:(lia) Hb), Hb.
  - destruct (level h l !! (pos * 2 + 1)%nat); [by destruct Hr; eexists|done].
Qed.

(** The leaves below a node. *)
Definition leaves (h pos : nat) : list nat :=
  let lo := (pos * 2 ^ h)%nat in seq lo (Nat.min ((pos + 1) * 2 ^ h) (length l) - lo).

Lemma leaves_split h pos : leaves (S h) pos = leaves h (pos * 2) ++ leaves h (pos * 2 + 1).
Proof.
  unfold leaves. rewrite Nat.pow_succ_r'. set (k := (2 ^ h)%nat). replace (pos * (2 * k))%nat with (pos * 2 * k)%nat by lia.
  replace ((pos + 1) * (2 * k))%nat with ((pos * 2 + 1 + 1) * k)%nat by lia.
  assert (Hk : (pos * 2 * k <= (pos * 2 + 1) * k <= (pos * 2 + 1 + 1) * k)%nat) by lia.
  destruct (decide ((pos * 2 + 1) * k <= length l)%nat) as [Hle|Hgt].
  - rewrite (Nat.min_l ((pos * 2 + 1) * k)) by done.
    replace (Nat.min ((pos * 2 + 1 + 1) * k) (length l) - pos * 2 * k)%nat with
      (((pos * 2 + 1) * k - pos * 2 * k) + (Nat.min ((pos * 2 + 1 + 1) * k) (length l) - (pos * 2 + 1) * k))%nat by lia.
    rewrite seq_app. do 2 f_equal. lia.
  - rewrite !Nat.min_r by lia. replace (length l - (pos * 2 + 1) * k)%nat with 0%nat by lia. by rewrite app_nil_r.
Qed.

Lemma leaves_exist h pos : is_Some (level h l !! pos) <-> (1 <= length (leaves h pos))%nat.
Proof.
  rewrite lookup_lt_is_Some, level_length. unfold leaves. rewrite length_seq. pose proof (Nat.pow_nonzero 2 h ltac:(lia)) as Hk. set (k := (2 ^ h)%nat) in *.
  pose proof (Nat.div_mod_eq (length l + (k - 1)) k). pose proof (Nat.mod_upper_bound (length l + (k - 1)) k Hk).
  set (q := ((length l + (k - 1)) / k)%nat) in *. split; intros Hp.
  - assert (k * (pos + 1) <= k * q)%nat by (apply Nat.mul_le_mono_l; lia). lia.
  - assert (~ (q <= pos)%nat); [|lia]. intros Hq. assert (k * q <= k * pos)%nat by (apply Nat.mul_le_mono_l; lia). lia.
Qed.

Lemma leaves_none h pos : level h l !! pos = None -> leaves h pos = [].
Proof.
  intros Hn. destruct (leaves h pos) eqn:E; [done|]. destruct (proj2 (leaves_exist h pos)) as [x Hx]; [rewrite E; simpl; lia|congruence].
Qed.

(** The matched leaves. *)
Definition marked (vMatch : list bool) (ixs : list nat) : list nat := filter (fun i => vMatch !! i = Some true) ixs.

Lemma parent_of_match_spec h pos vMatch :
  parent_of_match (zlen l) h pos vMatch = match marked vMatch (leaves h pos) with [] => false | _ => true end.
Proof.
  unfold parent_of_match. replace (Z.to_nat (zlen l)) with (length l) by (unfold zlen; lia). fold (leaves h pos).
  unfold marked. induction (leaves h pos) as [|i ixs IH]; [done|]. cbn [existsb]. rewrite filter_cons, IH.
  destruct (vMatch !! i) as [[]|]; cbn; [by rewrite decide_True|by rewrite decide_False|by rewrite decide_False].
Qed.

Definition txids (ixs : list nat) : list (list Z) := omap (fun i => l !! i) ixs.

End leaves.

Lemma unmutated_lookup l i a b :
  level_mutated l = false -> l !! (i * 2)%nat = Some a -> l !! (i * 2 + 1)%nat = Some b -> a <> b.
Proof.
  revert i. induction l as [l IH] using (well_founded_induction (well_founded_ltof _ length)). unfold ltof in IH. intros i Hm Ha Hb.
  destruct l as [|x [|y l]]; [done|by destruct i|]. cbn [level_mutated] in Hm. apply orb_false_iff in Hm as [Hxy%bool_decide_eq_false Hm].
  destruct i as [|i]; [by injection Ha as ->; injection Hb as ->|].
  apply (IH l ltac:(simpl; lia) i Hm); [by replace (S i * 2)%nat with (S (S (i * 2))) in Ha by lia|].
  by replace (S i * 2 + 1)%nat with (S (S (i * 2 + 1))) in Hb by lia.
Qed.

(** What the traversal of a node appends, and what reading it back does. *)
Record built (l : list (list Z)) (vMatch : list bool) (h pos : nat) (x : list Z) (bits : list bool) (hashes : list (list Z)) : Prop := {
  built_count : (1 <= length hashes <= length (leaves l h pos))%nat;
  built_bits : (length hashes <= length bits <= S h * length (leaves l h pos))%nat;
  built_extract : forall t B1 B2 H1 H2 s,
    nTransactions t = zlen l -> vBits t = B1 ++ bits ++ B2 -> vHash t = H1 ++ hashes ++ H2 ->
    nBitsUsed s = length B1 -> nHashUsed s = length H1 ->
    TraverseAndExtract t h pos s =
      (x, MkExtraction (bad s) (length B1 + length bits) (length H1 + length hashes)
            (xMatch s ++ txids l (marked vMatch (leaves l h pos))) (vnIndex s ++ marked vMatch (leaves l h pos)))
}.

Lemma txids_app l a b : txids l (a ++ b) = txids l a ++ txids l b.
Proof. apply omap_app. Qed.

Lemma marked_app vMatch a b : marked vMatch (a ++ b) = marked vMatch a ++ marked vMatch b.
Proof. apply filter_app. Qed.

(** A node whose hash is stored: a leaf, or one without matches below. *)
Lemma built_stored l vMatch h pos x :
  level h l !! pos = Some x -> h = 0%nat \/ marked vMatch (leaves l h pos) = [] -> zlen l <= 2 ^ 31 ->
  built l vMatch h pos x [parent_of_match (zlen l) h pos vMatch] [x].
Proof.
  intros Hx Hor Hl. assert (Hc : (1 <= length (leaves l h pos))%nat) by (apply leaves_exist; by eexists).
  constructor; [simpl; lia|simpl; lia|]. intros t B1 B2 H1 H2 s Hn HB HH Hb Hh.
  assert (EB : vBits t !! nBitsUsed s = Some (parent_of_match (zlen l) h pos vMatch)) by (rewrite HB, Hb; by apply list_lookup_middle).
  assert (EH : vHash t !! nHashUsed s = Some x) by (rewrite HH, Hh; by apply list_lookup_middle).
  destruct h as [|h].
  - cbn [TraverseAndExtract]. rewrite EB. cbn [nHashUsed]. rewrite EH. rewrite parent_of_match_spec, Hb, Hh.
    assert (Hlv : leaves l 0 pos = [pos]).
    { unfold leaves in *. rewrite length_seq in Hc. rewrite !Nat.mul_1_r in *. by replace (_ - pos)%nat with 1%nat in * by lia. }
    rewrite Hlv in *. cbn [marked]. unfold marked. rewrite filter_cons, filter_nil. case_decide as Hm; cbn.
    + cbn in Hx. unfold txids. cbn. rewrite Hx. f_equal. f_equal; lia.
    + rewrite !app_nil_r. f_equal. f_equal; lia.
  - destruct Hor as [?|Hm]; [done|]. cbn [TraverseAndExtract]. rewrite EB, parent_of_match_spec, Hm. cbn [nHashUsed]. rewrite EH.
    cbn. rewrite !app_nil_r, Hb, Hh. f_equal. f_equal; lia.
Qed.

(** A node with matches below: its two children, or the only one. *)
Lemma built_node l vMatch h pos x a bits hashes bits' hashes' :
  zlen l <= 2 ^ 31 -> Z.of_nat h <= 31 -> level_mutated (level h l) = false ->
  parent_of_match (zlen l) (S h) pos vMatch = true ->
  level h l !! (pos * 2)%nat = Some a -> x = Hash (a ++ default a (level h l !! (pos * 2 + 1)%nat)) ->
  built l vMatch h (pos * 2) a bits hashes ->
  match level h l !! (pos * 2 + 1)%nat with
  | Some b => built l vMatch h (pos * 2 + 1) b bits' hashes'
  | None => bits' = [] /\ hashes' = []
  end ->
  built l vMatch (S h) pos x (parent_of_match (zlen l) (S h) pos vMatch :: bits ++ bits') (hashes ++ hashes').
Proof.
  intros Hl Hh Hmut Hpm Ha -> [Hc Hb He] Hright.
  assert (Hcnt : (length hashes' <= length (leaves l h (pos * 2 + 1)))%nat /\
    (length hashes' <= length bits' <= S h * length (leaves l h (pos * 2 + 1)))%nat).
  { destruct (level h l !! (pos * 2 + 1)%nat); [by destruct Hright; split; [lia|]|]. destruct Hright as [-> ->]. simpl. lia. }
  constructor; [rewrite leaves_split, !length_app; lia|cbn [length]; rewrite leaves_split, !length_app; nia|].
  intros t B1 B2 H1 H2 s Hn HB HH Hbu Hhu. cbn [TraverseAndExtract]. rewrite Hpm in *.
  assert (vBits t !! nBitsUsed s = Some true) as -> by (rewrite HB, Hbu; by apply list_lookup_middle).
  rewrite (He t (B1 ++ [true]) (bits' ++ B2) H1 (hashes' ++ H2)); [|done|by rewrite HB; cbn [app]; rewrite <- !app_assoc|by rewrite HH, <- !app_assoc|cbn; rewrite length_app; simpl; lia|done].
  cbn [bad xMatch vnIndex]. rewrite Hn, right_exists by done. rewrite leaves_split, marked_app, txids_app.
  destruct (level h l !! (pos * 2 + 1)%nat) as [b|] eqn:Eb.
  - rewrite bool_decide_true by by eexists. destruct Hright as [_ _ He'].
    rewrite (He' t (B1 ++ [true] ++ bits) B2 (H1 ++ hashes) H2);
      [|done|by rewrite HB; cbn [app]; rewrite <- !app_assoc|by rewrite HH, <- !app_assoc|cbn; rewrite !length_app; simpl; lia|cbn; rewrite length_app; lia].
    cbn [bad xMatch vnIndex nBitsUsed nHashUsed default from_option id]. rewrite bool_decide_false.
    2:{ intros Heq. by apply (unmutated_lookup (level h l) pos a b Hmut Ha Eb). }
    rewrite <- !app_assoc. f_equal. f_equal; simpl; rewrite !length_app; simpl; rewrite ?length_app; lia.
  - rewrite bool_decide_false by (intros [? ?]; done). destruct Hright as [-> ->]. rewrite (leaves_none l h _ Eb), !app_nil_r.
    cbn. f_equal. f_equal; rewrite ?length_app; simpl; lia.
Qed.

Lemma TraverseAndBuild_spec l vMatch h pos x :
  zlen l <= 2 ^ 31 -> Z.of_nat h <= 31 -> (forall k, (k < h)%nat -> level_mutated (level k l) = false) -> level h l !! pos = Some x ->
  exists bits hashes, TraverseAndBuild (zlen l) h pos l vMatch = Ok (bits, hashes) /\ built l vMatch h pos x bits hashes.
Proof.
  intros Hl. revert pos x; induction h as [|h IH]; intros pos x Hh Hmut Hx.
  { cbn [TraverseAndBuild]. rewrite (CalcHash_level l Hl 0 pos x) by done. eexists _, _. split; [done|]. apply built_stored; [done|by left|done]. }
  cbn [TraverseAndBuild]. destruct (parent_of_match (zlen l) (S h) pos vMatch) eqn:Epm.
  - pose proof Hx as Hx'. cbn [level] in Hx'. apply next_level_lookup in Hx' as (a & Ha & ->).
    destruct (IH (pos * 2)%nat a) as (bits & hashes & -> & Hbu); [lia|intros; apply Hmut; lia|done|]. cbn [mbind res_bind].
    rewrite right_exists by (done || lia). destruct (level h l !! (pos * 2 + 1)%nat) as [b|] eqn:Eb.
    + rewrite bool_decide_true by by eexists. destruct (IH (pos * 2 + 1)%nat b) as (bits' & hashes' & -> & Hbu'); [lia|intros; apply Hmut; lia|done|].
      eexists _, _. split; [done|]. rewrite <- Epm. eapply built_node; [done|lia|apply Hmut; lia|done|done|by rewrite Eb|done|by rewrite Eb].
    + rewrite bool_decide_false by (intros [? ?]; done).
      eexists _, _. split; [done|]. rewrite <- Epm. eapply built_node; [done|lia|apply Hmut; lia|done|done|by rewrite Eb|done|by rewrite Eb].
  - rewrite (CalcHash_level l Hl (S h) pos x) by done. eexists _, _. split; [done|]. rewrite <- Epm. apply built_stored; [done| |done].
    right. rewrite parent_of_match_spec in Epm. by destruct (marked _ _).
Qed.

(** ** The bits of a serialized tree *)

Lemma BytesToBits_BitsToBytes bits :
  BytesToBits (BitsToBytes bits) = bits ++ replicate (8 * ((length bits + 7) / 8) - length bits) false /\
  bytes_ok (BitsToBytes bits) /\ length (BitsToBytes bits) = ((length bits + 7) / 8)%nat.
Proof.
  unfold BitsToBytes. pose proof (bitset_bytes (length bits)) as Hsz. set (n := ((length bits + 7) / 8)%nat) in *.
  pose proof (bitset_write bits n (length bits) ltac:(lia) ltac:(lia)) as Hst. set (v := fold_left _ _ _) in *. destruct Hst as (Hl & Hok & Hbit).
  split; [|done]. unfold BytesToBits. rewrite Hl. apply list_eq_same_length with (n * 8)%nat;
    [rewrite length_app, length_replicate; lia|by rewrite length_fmap, length_seq|].
  intros p b b' Hp Hb Hb'. rewrite list_lookup_fmap, lookup_seq_lt in Hb by done. injection Hb as <-.
  rewrite Z.shiftl_1_l, flag_pow2 by lia. pose proof (Nat.div_mod_eq p 8). pose proof (Nat.mod_upper_bound p 8 ltac:(lia)).
  change (byte_bit v (p / 8) (p mod 8) = b'). rewrite Hbit by lia. replace (8 * (p / 8) + p mod 8)%nat with p by lia.
  destruct (decide (p < length bits)%nat) as [Hlt|Hge].
  - rewrite (proj2 (Nat.ltb_lt _ _) Hlt). rewrite lookup_app_l in Hb' by done. by rewrite Hb'.
  - rewrite (proj2 (Nat.ltb_ge _ _)) by lia. rewrite lookup_app_r in Hb' by lia. apply lookup_replicate in Hb' as [-> _]. done.
Qed.

Lemma TreeHeight_spec l :
  l <> [] -> zlen l <= 2 ^ 31 ->
  exists H, TreeHeight (zlen l) = Ok H /\ Z.of_nat H <= 31 /\ length (level H l) = 1%nat /\
    forall k, (k < H)%nat -> (1 < length (level k l))%nat.
Proof.
  intros Hne Hl. assert (H1 : 1 <= zlen l) by (unfold zlen; destruct l; [done|cbn [length]; lia]).
  assert (Hb : zlen l + 2 ^ Z.of_nat (0 + 31) <= 2 ^ 32) by (change (2 ^ Z.of_nat (0 + 31)) with (2 ^ 31); lia).
  assert (Hw31 : CalcTreeWidth (zlen l) (0 + 31) <= 1).
  { unfold CalcTreeWidth, u32. change (Z.shiftl 1 (Z.of_nat (0 + 31))) with (2 ^ 31). change (Z.of_nat (0 + 31)) with 31.
    rewrite Z.shiftr_div_pow2, Z.mod_small by lia. apply Z.lt_succ_r, Z.div_lt_upper_bound; lia. }
  unfold TreeHeight. destruct (tree_height_spec 31 l 0 Hb) as (H & HH & Hr & Hw & Hall).
  { rewrite (width_spec _ l Hb) in Hw31. lia. }
  exists H. split; [done|]. split; [lia|]. split; [|intros k Hk; apply Hall; lia].
  assert (length (level H l) <> 0%nat); [|lia]. rewrite level_length. pose proof (Nat.pow_nonzero 2 H ltac:(lia)) as Hk.
  intros Hz%Nat.div_small_iff; [|done]. unfold zlen in H1. lia.
Qed.

(** The root of [ComputeMerkleRoot] is the top of the tree. *)
Lemma root_level l H root m :
  length (level H l) = 1%nat -> (forall k, (k < H)%nat -> (1 < length (level k l))%nat) -> (H <= length l)%nat ->
  ComputeMerkleRoot l = Ok (root, m) ->
  level H l !! 0%nat = Some root /\ (m = false -> forall k, (k < H)%nat -> level_mutated (level k l) = false).
Proof.
  intros H1 Hall Hf. unfold ComputeMerkleRoot. rewrite (merkle_loop_level H) by done. cbn [mbind res_bind fst snd orb].
  destruct (level H l) as [|r [|? ?]]; try done. intros [= -> <-]. split; [done|]. intros Hm k Hk.
  apply not_true_iff_false. intros Ht. apply not_true_iff_false in Hm. apply Hm, existsb_exists. exists k. split; [apply in_seq; lia|done].
Qed.

(** Each level is shorter, so that there are fewer levels than leaves. *)
Lemma height_le l H : (forall k, (k < H)%nat -> (1 < length (level k l))%nat) -> (H + length (level H l) <= length l)%nat \/ H = 0%nat.
Proof.
  induction H as [|H IH]; intros Hall; [by right|]. left. cbn [level]. rewrite next_level_length.
  pose proof (Hall H ltac:(lia)). destruct IH as [IH| ->]; [intros; apply Hall; lia| |].
  - pose proof (Nat.Div0.div_lt_upper_bound (length (level H l) + 1) 2 (length (level H l)) ltac:(lia)). lia.
  - cbn [level] in *. pose proof (Nat.Div0.div_lt_upper_bound (length l + 1) 2 (length l) ltac:(lia)). lia.
Qed.

Lemma unser_ser_tree n bits hashes b rest :
  unsigned 32 n -> Forall hash_ok hashes -> zlen hashes <= MAX_SIZE -> zlen bits <= MAX_SIZE ->
  unser_tree (ser_tree (MkTree n bits hashes b) ++ rest) =
  Ok (MkTree n (bits ++ replicate (8 * ((length bits + 7) / 8) - length bits) false) hashes false, rest).
Proof.
  intros Hn Hh Hlh Hlb. unfold unser_tree, ser_tree. cbn [nTransactions vHash vBits]. rewrite <- !app_assoc.
  rewrite (codec_bind _ _ _ _ n _ codec_u32) by done. destruct (BytesToBits_BitsToBytes bits) as (Hbits & _ & Hlen).
  rewrite (codec_bind _ _ _ _ hashes _ (codec_vector id (read_bytes 32) hash_ok codec_hash)) by done.
  rewrite (codec_bind _ _ _ _ (BitsToBytes bits) _ codec_bytes).
  - by rewrite Hbits.
  - unfold zlen in *. rewrite Hlen. pose proof (bitset_bytes (length bits)). lia.
Qed.

(** The hashes of a tree that is built have 32 bytes. *)
Lemma CalcHash_ok (laws : CryptoLaws crypto) n h pos l x : Forall hash_ok l -> CalcHash n h pos l = Ok x -> hash_ok x.
Proof.
  intros Hok. destruct l as [|y l]; [by destruct h|]. destruct h as [|h].
  - cbn. destruct (_ !! pos) eqn:E; [|done]. intros [= <-]. by eapply (Forall_lookup_1 _ _ _ _ Hok).
  - rewrite CalcHash_S by done. destruct (CalcHash n h (pos * 2) (y :: l)); cbn [mbind res_bind]; [|done..].
    destruct (_ <? _); [destruct (CalcHash n h (pos * 2 + 1) (y :: l))|]; cbn [mbind res_bind]; try done; intros [= <-]; apply sha256_size.
Qed.

Lemma build_hashes_ok (laws : CryptoLaws crypto) n h pos l vMatch bits hashes :
  Forall hash_ok l -> TraverseAndBuild n h pos l vMatch = Ok (bits, hashes) -> Forall hash_ok hashes.
Proof.
  intros Hok. revert pos bits hashes; induction h as [|h IH]; intros pos bits hashes; cbn [TraverseAndBuild].
  - destruct (CalcHash n 0 pos l) as [x| |] eqn:E; cbn [mbind res_bind]; [|done..]. intros [= <- <-]. constructor; [by eapply CalcHash_ok|constructor].
  - destruct (parent_of_match _ _ _ _).
    + destruct (TraverseAndBuild n h (pos * 2) l vMatch) as [[b1 h1]| |] eqn:E1; cbn [mbind res_bind]; [|done..]. destruct (_ <? _).
      * destruct (TraverseAndBuild n h (pos * 2 + 1) l vMatch) as [[b2 h2]| |] eqn:E2; cbn [mbind res_bind]; [|done..].
        intros [= <- <-]. apply Forall_app. split; by eapply IH.
      * cbn [mbind res_bind]. intros [= <- <-]. rewrite app_nil_r. by eapply IH.
    + destruct (CalcHash n (S h) pos l) as [x| |] eqn:E; cbn [mbind res_bind]; [|done..]. intros [= <- <-]. constructor; [by eapply CalcHash_ok|constructor].
Qed.

(** ** Soundness *)

(** The blocks of 64 bytes that the extraction hashes. *)
Fixpoint extract_blocks (t : CPartialMerkleTree) (height pos : nat) (s : extraction) : list (list Z) :=
  match vBits t !! nBitsUsed s, height with
  | Some true, S h =>
      let s := MkExtraction (bad s) (S (nBitsUsed s)) (nHashUsed s) (xMatch s) (vnIndex s) in
      let '(lhash, s1) := TraverseAndExtract t h (pos * 2) s in
      if Z.of_nat (pos * 2 + 1) <? CalcTreeWidth (nTransactions t) h then
        let '(rhash, _) := TraverseAndExtract t h (pos * 2 + 1) s1 in
        (lhash ++ rhash) :: extract_blocks t h (pos * 2) s ++ extract_blocks t h (pos * 2 + 1) s1
      else (lhash ++ lhash) :: extract_blocks t h (pos * 2) s
  | _, _ => []
  end.

(** The blocks hashed below a level of the real tree. *)
Definition tree_blocks (h : nat) (l : list (list Z)) : list (list Z) :=
  flat_map (fun k => (fun p => p.1 ++ p.2) <$> pairs (level k l)) (seq 0 h).

Definition proof_collision (claimed real : list (list Z)) : Prop :=
  exists u v, u ∈ claimed /\ v ∈ real /\ u <> v /\ Hash u = Hash v.

Lemma tree_blocks_S h l : tree_blocks (S h) l = tree_blocks h l ++ ((fun p => p.1 ++ p.2) <$> pairs (level h l)).
Proof. unfold tree_blocks. rewrite seq_S, flat_map_app. cbn. by rewrite app_nil_r. Qed.

Lemma proof_collision_mono c c' r r' : c ⊆ c' -> r ⊆ r' -> proof_collision c r -> proof_collision c' r'.
Proof. intros Hc Hr (u & v & Hu & Hv & H). exists u, v. auto. Qed.

Lemma extract_bad t h pos s x s' : TraverseAndExtract t h pos s = (x, s') -> bad s' = false -> bad s = false.
Proof.
  revert pos s x s'; induction h as [|h IH]; intros pos s x s'; cbn [TraverseAndExtract].
  - destruct (vBits t !! _) as [b|]; [|by intros [= <- <-]]. cbn [nHashUsed]. destruct (vHash t !! _); [|by intros [= <- <-]].
    destruct (_ && b); by intros [= <- <-].
  - destruct (vBits t !! _) as [[]|]; [| |by intros [= <- <-]].
    + destruct (TraverseAndExtract t h (pos * 2) _) as [lh s1] eqn:E1. destruct (_ <? _).
      * destruct (TraverseAndExtract t h (pos * 2 + 1) s1) as [rh s2] eqn:E2. intros [= <- <-] Hb.
        case_bool_decide; [done|]. by apply (IH _ _ _ _ E2), (IH _ _ _ _ E1) in Hb.
      * intros [= <- <-] Hb. by apply (IH _ _ _ _ E1) in Hb.
    + cbn [nHashUsed]. destruct (vHash t !! _); [|by intros [= <- <-]]. cbn. by intros [= <- <-].
Qed.

Lemma extract_hash_ok (laws : CryptoLaws crypto) t h pos s x s' :
  Forall hash_ok (vHash t) -> TraverseAndExtract t h pos s = (x, s') -> hash_ok x.
Proof.
  intros Hok. assert (Hst : forall n y, vHash t !! n = Some y -> hash_ok y) by (intros n y Hy; by eapply (Forall_lookup_1 _ _ _ _ Hok)).
  destruct h as [|h]; cbn [TraverseAndExtract].
  - destruct (vBits t !! _) as [b|]; [|by intros [= <- <-]]. cbn [nHashUsed]. destruct (vHash t !! _) eqn:E; [|by intros [= <- <-]].
    destruct (_ && b); intros [= <- <-]; by eapply Hst.
  - destruct (vBits t !! _) as [[]|]; [| |by intros [= <- <-]].
    + destruct (TraverseAndExtract t h (pos * 2) _) as [lh s1]. destruct (_ <? _); [destruct (TraverseAndExtract t h (pos * 2 + 1) s1)|];
        intros [= <- <-]; apply sha256_size.
    + cbn [nHashUsed]. destruct (vHash t !! _) eqn:E; [|by intros [= <- <-]]. cbn. intros [= <- <-]. by eapply Hst.
Qed.

(** The pairs of position and hash that are reported. *)
Definition reported (l : list (list Z)) (s s' : extraction) : Prop :=
  exists ms ix, xMatch s' = xMatch s ++ ms /\ vnIndex s' = vnIndex s ++ ix /\ Forall2 (fun i h => l !! i = Some h) ix ms.

Lemma reported_trans l s1 s2 s3 : reported l s1 s2 -> reported l s2 s3 -> reported l s1 s3.
Proof.
  intros (ms & ix & Hm & Hi & Hf) (ms' & ix' & Hm' & Hi' & Hf'). exists (ms ++ ms'), (ix ++ ix').
  rewrite Hm', Hi', Hm, Hi, !app_assoc. split; [done|]. split; [done|]. by apply Forall2_app.
Qed.

Lemma reported_same l s s' : xMatch s' = xMatch s -> vnIndex s' = vnIndex s -> reported l s s'.
Proof. intros H1 H2. exists [], []. rewrite H1, H2, !app_nil_r. split; [done|]. split; [done|constructor]. Qed.

Lemma TraverseAndExtract_sound (laws : CryptoLaws crypto) t l h pos s x s' :
  zlen l <= 2 ^ 31 -> Z.of_nat h <= 31 -> nTransactions t = zlen l -> Forall hash_ok l -> Forall hash_ok (vHash t) ->
  TraverseAndExtract t h pos s = (x, s') -> bad s' = false -> level h l !! pos = Some x ->
  reported l s s' \/ proof_collision (extract_blocks t h pos s) (tree_blocks h l).
Proof.
  intros Hl Hh Hn Hok Hokt. revert pos s x s' Hh; induction h as [|h IH]; intros pos s x s' Hh He Hb Hx.
  { left. cbn [TraverseAndExtract] in He. destruct (vBits t !! _) as [b|]; [|injection He as <- <-; done]. cbn [nHashUsed] in He.
    destruct (vHash t !! _) as [y|]; [|injection He as <- <-; done]. destruct b; cbn in He; injection He as <- <-; [|by apply reported_same].
    exists [y], [pos]. cbn. split; [done|]. split; [done|]. by repeat constructor. }
  cbn [TraverseAndExtract extract_blocks] in *. destruct (vBits t !! _) as [[]|]; [| |injection He as <- <-; done].
  2:{ left. cbn [nHashUsed] in He. destruct (vHash t !! _) as [y|]; cbn in He; injection He as <- <-; [|done]. by apply reported_same. }
  set (s0 := MkExtraction (bad s) (S (nBitsUsed s)) (nHashUsed s) (xMatch s) (vnIndex s)) in *.
  destruct (TraverseAndExtract t h (pos * 2) s0) as [lh s1] eqn:E1. cbn [level] in Hx. apply next_level_lookup in Hx as (a & Ha & Hxa).
  rewrite Hn, right_exists in * by (done || lia). pose proof (extract_hash_ok laws _ _ _ _ _ _ Hokt E1) as Hlh.
  assert (Hlev : Forall hash_ok (level h l)) by (destruct h; [done|]; apply level_ok).
  assert (Hp : (a, default a (level h l !! (pos * 2 + 1)%nat)) ∈ pairs (level h l)).
  { apply (list_elem_of_lookup_2 _ pos). by rewrite pairs_lookup, Ha. }
  set (b := default a (level h l !! (pos * 2 + 1)%nat)) in *.
  assert (Hblk : a ++ b ∈ tree_blocks (S h) l) by (rewrite tree_blocks_S, elem_of_app; right; apply list_elem_of_fmap; by exists (a, b)).
  pose proof (Forall_lookup_1 _ _ _ _ Hlev Ha) as Haok.
  assert (Hcol : forall blk blks, x = Hash blk -> blk <> a ++ b -> proof_collision (blk :: blks) (tree_blocks (S h) l)).
  { intros blk blks Hb1 Hne. exists blk, (a ++ b). split; [left|]. split; [done|]. split; [done|congruence]. }
  assert (Hsub : tree_blocks h l ⊆ tree_blocks (S h) l) by (rewrite tree_blocks_S; intros v Hv; apply elem_of_app; by left).
  case_bool_decide as Hr.
  - destruct Hr as [b' Hb']. destruct (TraverseAndExtract t h (pos * 2 + 1) s1) as [rh s2] eqn:E2. injection He as <- <-.
    case_bool_decide as Heq; [done|]. destruct (decide (lh ++ rh = a ++ b)) as [Hab|Hne]; [|right; by apply Hcol].
    apply app_inj_1 in Hab as [-> ->]; [|congruence]. unfold b in *. rewrite Hb' in *. cbn [default from_option id] in *.
    destruct (IH _ _ _ _ ltac:(lia) E1 (extract_bad _ _ _ _ _ _ E2 Hb) Ha) as [Hrep1|Hc].
    2:{ right. eapply proof_collision_mono; [|exact Hsub|exact Hc]. intros v Hv. right. apply elem_of_app. by left. }
    destruct (IH _ _ _ _ ltac:(lia) E2 Hb Hb') as [Hrep2|Hc].
    2:{ right. eapply proof_collision_mono; [|exact Hsub|exact Hc]. intros v Hv. right. apply elem_of_app. by right. }
    left. apply (reported_trans _ s s0); [by apply reported_same|]. by apply (reported_trans _ s0 s1).
  - injection He as <- <-. destruct (decide (lh ++ lh = a ++ b)) as [Hab|Hne]; [|right; by apply Hcol].
    apply app_inj_1 in Hab as [-> _]; [|congruence].
    destruct (IH _ _ _ _ ltac:(lia) E1 Hb Ha) as [Hrep1|Hc]; [left; by apply (reported_trans _ s s0); [apply reported_same|]|].
    right. eapply proof_collision_mono; [|exact Hsub|exact Hc]. intros v Hv. by right.
Qed.
End levels.

(** A Merkle proof of a block is accepted: for any selection of transactions, the tree that is built,
    sent over the network and read back gives the Merkle root of the block and exactly the selected
    transactions with their positions, provided the block itself passes the check against repeated
    hashes. *)
Theorem merkle_proof_complete {crypto : CryptoOps} (laws : CryptoLaws crypto) l vMatch root rest :
  l <> [] -> zlen l <= 100000 -> Forall hash_ok l -> length vMatch = length l -> ComputeMerkleRoot l = Ok (root, false) ->
  exists t t' t'', CPartialMerkleTree_make l vMatch = Ok t /\ unser_tree (ser_tree t ++ rest) = Ok (t', rest) /\
    ExtractMatches t' [] = Ok (root, txids l (marked vMatch (seq 0 (length l))), marked vMatch (seq 0 (length l)), t'').
Proof.
  intros Hne Hl Hok Hlm Hroot. destruct (TreeHeight_spec l Hne ltac:(lia)) as (H & HH & HH31 & Htop & Hall).
  assert (Hlen : (1 <= length l)%nat) by (destruct l; [done|simpl; lia]).
  destruct (root_level l H root false Htop Hall) as [Hr Hmut]; [destruct (height_le l H Hall); lia|done|].
  destruct (TraverseAndBuild_spec l vMatch H 0 root ltac:(lia) HH31 (Hmut eq_refl) Hr) as (bits & hashes & Hb & [Hc Hbc He]).
  assert (Hlv : leaves l H 0 = seq 0 (length l)).
  { rewrite level_length in Htop. unfold leaves. rewrite Nat.mul_0_l, Nat.mul_1_l, Nat.sub_0_r. f_equal. apply Nat.min_r.
    pose proof (Nat.pow_nonzero 2 H ltac:(lia)). pose proof (Nat.div_mod_eq (length l + (2 ^ H - 1)) (2 ^ H)).
    pose proof (Nat.mod_upper_bound (length l + (2 ^ H - 1)) (2 ^ H) ltac:(lia)). rewrite Htop in *. lia. }
  rewrite Hlv, length_seq in Hc.
  set (pad := replicate (8 * ((length bits + 7) / 8) - length bits) false). exists (MkTree (zlen l) bits hashes false), (MkTree (zlen l) (bits ++ pad) hashes false).
  assert (Hu : u32 (zlen l) = zlen l) by (unfold u32; apply Z.mod_small; unfold zlen in *; lia).
  unfold CPartialMerkleTree_make. rewrite Hu, HH, (proj2 (Nat.ltb_ge _ _)) by lia. cbn [mbind res_bind]. rewrite Hb. cbn [mbind res_bind].
  assert (Hpad : length (bits ++ pad) = (8 * ((length bits + 7) / 8))%nat).
  { unfold pad. rewrite length_app, length_replicate. pose proof (bitset_bytes (length bits)). lia. }
  eexists. split; [done|]. split.
  { apply unser_ser_tree; [unfold unsigned, zlen in *; lia| |unfold MAX_SIZE, zlen in *; lia|].
    - by eapply build_hashes_ok.
    - rewrite Hlv, length_seq in Hbc. unfold MAX_SIZE, zlen in *. nia. }
  unfold ExtractMatches. cbn [nTransactions vHash vBits fBad]. change (MaxBlockSize true / 60) with 100000.
  rewrite (proj2 (Z.eqb_neq (zlen l) 0)), (proj2 (Z.ltb_ge _ (zlen l))), (proj2 (Z.ltb_ge _ (zlen hashes))), (proj2 (Nat.ltb_ge _ (length hashes)))
    by (rewrite ?Hpad; pose proof (bitset_bytes (length bits)); unfold zlen in *; lia).
  rewrite HH. cbn [mbind res_bind].
  rewrite (He (MkTree (zlen l) (bits ++ pad) hashes false) [] pad [] [] (MkExtraction false 0 0 [] [])) by (done || by rewrite ?app_nil_r).
  rewrite Hlv. cbn [bad nBitsUsed nHashUsed xMatch vnIndex app length Nat.add negb andb]. rewrite Hpad, Nat.eqb_refl, andb_true_r.
  rewrite (proj2 (Nat.eqb_eq _ _)); [done|]. symmetry. rewrite (Nat.mul_comm 8), (Nat.add_comm _ 7), Nat.div_add by lia. done.
Qed.

(** C29: A Merkle proof cannot lie: when a tree, from whoever, with the number of transactions of a block
    gives the Merkle root of the block, every transaction it reports is the one the block has at that
    position, unless the check and the block contain a collision of the double SHA256. *)
Theorem merkle_proof_sound {crypto : CryptoOps} (laws : CryptoLaws crypto) l t root m ms ix t' :
  l <> [] -> zlen l <= 2 ^ 31 -> Forall hash_ok l -> Forall hash_ok (vHash t) -> nTransactions t = zlen l ->
  ComputeMerkleRoot l = Ok (root, m) -> root <> null_hash -> ExtractMatches t [] = Ok (root, ms, ix, t') ->
  Forall2 (fun i h => l !! i = Some h) ix ms \/
  exists H, TreeHeight (zlen l) = Ok H /\
    proof_collision (extract_blocks t H 0 (MkExtraction (fBad t) 0 0 [] [])) (tree_blocks H l).
Proof.
  intros Hne Hl Hok Hokt Hn Hroot Hnull. destruct (TreeHeight_spec l Hne Hl) as (H & HH & HH31 & Htop & Hall).
  assert (Hlen : (1 <= length l)%nat) by (destruct l; [done|simpl; lia]).
  destruct (root_level l H root m Htop Hall) as [Hr _]; [destruct (height_le l H Hall); lia|done|].
  unfold ExtractMatches. destruct (_ =? 0); [congruence|]. destruct (_ <? nTransactions t); [congruence|].
  destruct (_ <? zlen (vHash t)); [congruence|]. destruct (_ <? length (vHash t))%nat; [congruence|]. rewrite Hn, HH. cbn [mbind res_bind].
  destruct (TraverseAndExtract t H 0 _) as [x s] eqn:E. intros [= Hx <- <- _].
  destruct (bad s) eqn:Eb; cbn [negb andb] in Hx; [congruence|]. destruct (_ && _); [|congruence]. subst x.
  destruct (TraverseAndExtract_sound laws t l H 0 _ root s Hl HH31 Hn Hok Hokt E Eb Hr) as [(ms' & ix' & -> & -> & Hf)|Hc]; [by left|right; eauto].
Qed.

(** ** An example *)

Definition leaf (n : Z) : list Z := replicate 31 0 ++ [n].
Definition three_leaves : list (list Z) := [leaf 1; leaf 2; leaf 4].

Lemma merkle_proof_complete_witness :
  exists t t' t'', CPartialMerkleTree_make (crypto := sum_crypto) three_leaves [false; true; true] = Ok t /\
    unser_tree (ser_tree t ++ [7]) = Ok (t', [7]) /\
    ExtractMatches (crypto := sum_crypto) t' [] = Ok (null_hash, [leaf 2; leaf 4], [1%nat; 2%nat], t'').
Proof.
  apply (merkle_proof_complete sum_crypto_laws three_leaves [false; true; true] null_hash [7]);
    [discriminate|vm_compute; discriminate|repeat constructor|reflexivity|vm_compute; reflexivity].
Defined.

Definition two_leaves : list (list Z) := [leaf 1; leaf 2].
Definition sample_proof : CPartialMerkleTree := MkTree 2 [true; false; true] two_leaves false.

Lemma merkle_proof_sound_witness :
  Forall2 (fun i h => two_leaves !! i = Some h) [1%nat] [leaf 2] \/
  exists H, TreeHeight (zlen two_leaves) = Ok H /\
    proof_collision (crypto := sum_crypto) (extract_blocks (crypto := sum_crypto) sample_proof H 0 (MkExtraction false 0 0 [] []))
      (tree_blocks (crypto := sum_crypto) H two_leaves).
Proof.
  apply (merkle_proof_sound sum_crypto_laws two_leaves sample_proof (replicate 32 96) false [leaf 2] [1%nat] sample_proof);
    [discriminate|vm_compute; discriminate|repeat constructor|repeat constructor|reflexivity|vm_compute; reflexivity|discriminate|vm_compute; reflexivity].
Defined.
