(* ===== verification/SimplifiedMNs.v ===== *)
(** * Simplified masternode lists

    Models src/src/evo/simplifiedmns.h and .cpp and BuildSimplifiedDiff of evo/deterministicmns.cpp: the entries
    that light clients keep, their Merkle root, and the differences that a node sends.  A client that
    applies the difference has the list of the block, and a list with the root of the block is that list
    unless two inputs with the same hash are at hand. *)

From stdpp Require Import base list numbers gmap sorting.
From S2P Require Import Prelude Script Crypto Serialize Transaction Coins Block Chain Pow Merkle MerkleBlock NetAddress Masternodes MasternodesSpec MasternodesDiff ProviderTx MasternodeManager MasternodeSchedule.

Open Scope Z_scope.

(** ** Entries *)

Record CSimplifiedMNListEntry : Type := MkEntry {
  proRegTxHash : list Z;
  sml_confirmedHash : list Z;
  sml_service : CService;
  sml_pubKeyOperator : CBLSPublicKey;
  sml_keyIDVoting : list Z;
  isValid : bool
}.

#[export] Instance CSimplifiedMNListEntry_eq_dec : EqDecision CSimplifiedMNListEntry.
Proof. solve_decision. Defined.

Definition CSimplifiedMNListEntry_of (dmn : CDeterministicMN) : CSimplifiedMNListEntry :=
  let s := pdmnState dmn in MkEntry (proTxHash dmn) (confirmedHash s) (addr s) (pubKeyOperator s) (keyIDVoting s) (negb (IsBanned s)).

Definition ser_entry (e : CSimplifiedMNListEntry) : res unit (list Z) :=
  service ← ser_service false (sml_service e);
  Ok (proRegTxHash e ++ sml_confirmedHash e ++ service ++ bls_bytes (sml_pubKeyOperator e) ++ sml_keyIDVoting e ++ [b2z (isValid e)]).

(** ** Lists *)

Definition sml_lt (a b : CSimplifiedMNListEntry) : bool := memcmp (proRegTxHash a) (proRegTxHash b) <? 0.

Definition CSimplifiedMNList_entries (smlEntries : list CSimplifiedMNListEntry) : list CSimplifiedMNListEntry := std_sort sml_lt smlEntries.
Definition CSimplifiedMNList_of (dmnList : CDeterministicMNList) : list CSimplifiedMNListEntry :=
  std_sort sml_lt (map CSimplifiedMNListEntry_of (ForEachMN dmnList false)).

(** ** Differences *)

Record CSimplifiedMNListDiff : Type := MkSimplifiedDiff {
  diff_baseBlockHash : list Z;
  diff_blockHash : list Z;
  cbTxMerkleTree : option CPartialMerkleTree;
  cbTx : option CTransaction;
  deletedMNs : list (list Z);
  diff_mnList : list CSimplifiedMNListEntry;
  deletedQuorums : list (Z * list Z);
  newQuorums : list CFinalCommitment
}.

Definition BuildSimplifiedDiff (from to : CDeterministicMNList) : CSimplifiedMNListDiff :=
  MkSimplifiedDiff (blockHash from) (blockHash to) None None
    (map proTxHash (filter (fun dmn => GetMN to (proTxHash dmn) = None) (ForEachMN from false)))
    (map CSimplifiedMNListEntry_of (filter (fun dmn =>
       (match GetMN from (proTxHash dmn) with
        | None => true
        | Some fromDmn => bool_decide (CSimplifiedMNListEntry_of dmn <> CSimplifiedMNListEntry_of fromDmn)
        end) = true) (ForEachMN to false)))
    [] [].

(** A set of quorums is visited in the order of the types and the hashes. *)
Definition quorum_lt (a b : Z * list Z) : bool := if a.1 =? b.1 then memcmp a.2 b.2 <? 0 else a.1 <? b.1.

Section simplified.
Context {crypto : CryptoOps}.

Definition entry_CalcHash (e : CSimplifiedMNListEntry) : res unit (list Z) := b ← ser_entry e; Ok (Hash b).

Fixpoint CalcHashes (l : list CSimplifiedMNListEntry) : res unit (list (list Z)) :=
  match l with [] => Ok [] | e :: l => h ← entry_CalcHash e; hs ← CalcHashes l; Ok (h :: hs) end.

(** The root and whether two equal hashes were paired. *)
Definition CalcMerkleRoot (mnList : list CSimplifiedMNListEntry) : res unit (list Z * bool) :=
  leaves ← CalcHashes mnList; ComputeMerkleRoot leaves.

Context (llmqs : list LLMQParams) (t : heap) (chain : CChain).
(** The quorums that are active at a block with their commitments, and the blocks on disk. *)
Context (GetMinedAndActiveCommitmentsUntilBlock : ptr -> list (Z * list ptr)).
Context (GetMinedCommitment : Z -> list Z -> option CFinalCommitment).
Context (ReadBlockFromDisk : ptr -> option CBlock).

Fixpoint quorum_hashes (quorums : list (Z * ptr)) : res unit (list (Z * list Z)) :=
  match quorums with
  | [] => Ok []
  | (type, p) :: quorums => b ← deref t p; hs ← quorum_hashes quorums; Ok ((type, Chain.blockHash b) :: hs)
  end.
Definition active_quorums (pindex : ptr) : res unit (list (Z * list Z)) :=
  hs ← quorum_hashes (flat_map (fun p => map (fun q => (p.1, q)) p.2) (GetMinedAndActiveCommitmentsUntilBlock pindex));
  Ok (std_sort quorum_lt (remove_dups hs)).

Fixpoint mined_commitments (quorums : list (Z * list Z)) : option (list CFinalCommitment) :=
  match quorums with
  | [] => Some []
  | (type, hash) :: quorums => qc ← GetMinedCommitment type hash; qcs ← mined_commitments quorums; Some (qc :: qcs)
  end.

(** [None] where a commitment is missing. *)
Definition BuildQuorumsDiff (baseBlockIndex blockIndex : ptr) : res unit (option (list (Z * list Z) * list CFinalCommitment)) :=
  baseQuorumHashes ← active_quorums baseBlockIndex;
  quorumHashes ← active_quorums blockIndex;
  let deleted := filter (fun p => p ∉ quorumHashes) baseQuorumHashes in
  Ok (qcs ← mined_commitments (filter (fun p => p ∉ baseQuorumHashes) quorumHashes); Some (map (fun p => (u8 p.1, p.2)) deleted, qcs)).

Inductive diff_error : Type := block_not_found | not_in_same_chain | base_is_higher | quorums_failed | block_not_read.

Definition BuildSimplifiedMNListDiff (m : CDeterministicMNManager) (baseBlockHash blockHash_ : list Z) :
    res diff_error (CSimplifiedMNListDiff * CDeterministicMNManager) :=
  let must {A} (r : res unit A) : res diff_error A := match r with Ok a => Ok a | _ => Abort end in
  let list_of m p := match GetListForBlock llmqs t m p with Ok lm => Ok lm | _ => Abort end in
  base ← (if negb (hash_IsNull baseBlockHash) then
            match find_block t baseBlockHash 0 with Some p => Ok p | None => Err block_not_found end
          else match chain_at chain 0 with Some p => Ok p | None => Abort end);
  match find_block t blockHash_ 0 with
  | None => Err block_not_found
  | Some blockIndex =>
      if negb (Contains t chain base) || negb (Contains t chain blockIndex) then Err not_in_same_chain else
      b0 ← must (deref t base);
      b1 ← must (deref t blockIndex);
      if Chain.nHeight b1 <? Chain.nHeight b0 then Err base_is_higher else
      '(baseDmnList, m) ← list_of m base;
      '(dmnList, m) ← list_of m blockIndex;
      let d := BuildSimplifiedDiff baseDmnList dmnList in
      q ← must (BuildQuorumsDiff base blockIndex);
      match q with
      | None => Err quorums_failed
      | Some (deleted, new) =>
          match ReadBlockFromDisk blockIndex with
          | None => Err block_not_read
          | Some block =>
              match vtx block with
              | [] => Abort
              | coinbase :: rest =>
                  tree ← must (CPartialMerkleTree_make (ComputeHash <$> vtx block) (true :: map (fun _ => false) rest));
                  Ok (MkSimplifiedDiff baseBlockHash (diff_blockHash d) (Some tree) (Some coinbase) (deletedMNs d) (diff_mnList d) deleted new, m)
              end
          end
      end
  end.

End simplified.

(** ** Sorting by hashes *)

Section by_key.
Context {A : Type} (key : A -> list Z).

Definition key_lt (a b : A) : Prop := memcmp (key a) (key b) < 0.

Lemma key_lt_asym a b : key_lt a b -> ~ key_lt b a.
Proof. unfold key_lt. rewrite (memcmp_flip (key a) (key b)). lia. Qed.

Lemma std_sort_strict l :
  Forall (fun a => length (key a) = 32%nat) l -> NoDup (map key l) -> StronglySorted key_lt (std_sort (fun a b => memcmp (key a) (key b) <? 0) l).
Proof.
  set (lt := fun a b => memcmp (key a) (key b) <? 0). intros Hf Hnd.
  assert (std_sort lt l ≡ₚ l) as Hp by apply merge_sort_Permutation.
  assert (Sorted (not_after lt) (std_sort lt l)) as Hs.
  { apply Sorted_merge_sort. intros a b. unfold not_after, lt. rewrite (memcmp_flip (key a) (key b)). destruct (Z.lt_ge_cases (memcmp (key a) (key b)) 0); [left|right]; apply Z.ltb_ge; lia. }
  rewrite <- Hp in Hf. rewrite <- (fmap_Permutation key _ _ Hp) in Hnd. clear Hp. induction Hs as [|a s Hs IH Hd]; [constructor|].
  apply Forall_cons in Hf as [Ha Hf]. apply NoDup_cons in Hnd as [Hni Hnd]. specialize (IH Hf Hnd). constructor; [done|].
  destruct s as [|b s]; [constructor|]. assert (key_lt a b) as Hab.
  { inversion Hd as [|?? Hna]; subst. unfold not_after, lt in Hna. apply Z.ltb_ge in Hna. rewrite memcmp_flip in Hna. unfold key_lt.
    assert (memcmp (key a) (key b) <> 0); [|lia]. intros He. apply Forall_cons in Hf as [Hb _]. apply memcmp_zero in He; [|congruence].
    apply Hni. rewrite He. by left. }
  constructor; [done|]. apply StronglySorted_inv in IH as [_ IH]. rewrite Forall_forall in IH, Hf |- *. intros x Hx. unfold key_lt in *.
  apply (memcmp_trans _ (key b)); [rewrite Ha; symmetry; apply Hf; by left|rewrite (Hf b), (Hf x) by set_solver; done|done|by apply IH].
Qed.

Lemma strict_sorted_unique l1 l2 : StronglySorted key_lt l1 -> StronglySorted key_lt l2 -> l1 ≡ₚ l2 -> l1 = l2.
Proof.
  intros H1. revert l2; induction H1 as [|a l1 _ IH Ha]; intros l2 H2 Hp; [by apply Permutation_nil_l in Hp|].
  destruct l2 as [|b l2]; [by apply Permutation_nil_r in Hp|]. apply StronglySorted_inv in H2 as [H2 Hb]. rewrite Forall_forall in Ha, Hb.
  assert (a = b) as ->.
  { assert (a ∈ b :: l2) as [-> | Hab]%elem_of_cons by (rewrite <- Hp; by left); [done|].
    assert (b ∈ a :: l1) as [-> | Hba]%elem_of_cons by (rewrite Hp; by left); [done|]. by destruct (key_lt_asym a b (Ha _ Hba) (Hb _ Hab)). }
  f_equal. apply IH; [done|]. by apply Permutation_cons_inv in Hp.
Qed.

Lemma std_sort_same l1 l2 :
  Forall (fun a => length (key a) = 32%nat) l1 -> NoDup (map key l1) -> l1 ≡ₚ l2 ->
  std_sort (fun a b => memcmp (key a) (key b) <? 0) l1 = std_sort (fun a b => memcmp (key a) (key b) <? 0) l2.
Proof.
  intros Hf Hnd Hp. apply strict_sorted_unique; [by apply std_sort_strict|apply std_sort_strict; [by rewrite <- Hp|by rewrite <- (fmap_Permutation key _ _ Hp)]|].
  unfold std_sort. by rewrite !merge_sort_Permutation.
Qed.

End by_key.

(** ** What a client does with a difference *)

(** DIP4: deleted entries are removed, new and changed ones are put in. *)
Definition apply_simplified (sml : list CSimplifiedMNListEntry) (d : CSimplifiedMNListDiff) : list CSimplifiedMNListEntry :=
  CSimplifiedMNList_entries
    (filter (fun e => (proRegTxHash e ∉ deletedMNs d) /\ (proRegTxHash e ∉ map proRegTxHash (diff_mnList d))) sml ++ diff_mnList d).

Section clients.
Context {crypto : CryptoOps}.

Lemma NoDup_map_filter {A B} (f : A -> B) (P : A -> Prop) `{!forall a, Decision (P a)} l : NoDup (map f l) -> NoDup (map f (filter P l)).
Proof.
  induction l as [|a l IH]; [done|]. cbn [map]. intros [Hni Hnd]%NoDup_cons. rewrite filter_cons. case_decide; [|by apply IH].
  cbn [map]. apply NoDup_cons. split; [|by apply IH]. intros (x & Hx & [_ Hin]%list_elem_of_filter)%list_elem_of_fmap. apply Hni. apply list_elem_of_fmap. by exists x.
Qed.

Definition sized (l : CDeterministicMNList) : Prop := forall k m, mnMap l !! k = Some m -> length (proTxHash m) = 32%nat.

Lemma elem_of_entries l e : list_wf l ->
  e ∈ map CSimplifiedMNListEntry_of (ForEachMN l false) <-> exists m, mnMap l !! proRegTxHash e = Some m /\ e = CSimplifiedMNListEntry_of m.
Proof.
  intros Hw. rewrite list_elem_of_fmap. split.
  - intros (m & -> & [Hm _]%elem_of_ForEachMN); [|done]. by exists m.
  - intros (m & Hm & ->). exists m. split; [done|]. apply elem_of_ForEachMN; [done|]. split; [exact Hm|done].
Qed.

Lemma entries_keys l : list_wf l -> sized l ->
  Forall (fun e => length (proRegTxHash e) = 32%nat) (map CSimplifiedMNListEntry_of (ForEachMN l false)) /\
  NoDup (map proRegTxHash (map CSimplifiedMNListEntry_of (ForEachMN l false))).
Proof.
  intros Hw Hs. split.
  - apply Forall_map, Forall_forall. intros m [Hm _]%elem_of_ForEachMN; [|done]. by apply Hs in Hm.
  - rewrite map_map. by apply NoDup_ForEachMN.
Qed.

Lemma elem_of_simplified l e : list_wf l -> e ∈ CSimplifiedMNList_of l <-> exists m, mnMap l !! proRegTxHash e = Some m /\ e = CSimplifiedMNListEntry_of m.
Proof. intros Hw. unfold CSimplifiedMNList_of, std_sort. rewrite merge_sort_Permutation. by apply elem_of_entries. Qed.

Lemma elem_of_deleted from to k : list_wf from ->
  k ∈ deletedMNs (BuildSimplifiedDiff from to) <-> is_Some (mnMap from !! k) /\ mnMap to !! k = None.
Proof.
  intros Hw. cbn [BuildSimplifiedDiff deletedMNs]. rewrite list_elem_of_fmap. split.
  - intros (m & -> & [Hn [Hm _]%elem_of_ForEachMN]%list_elem_of_filter); [|done]. by rewrite Hm.
  - intros [[m Hm] Hn]. destruct (wf_key from Hw _ _ Hm) as [Hk _]. exists m. split; [done|]. apply list_elem_of_filter. rewrite Hk. split; [done|].
    apply elem_of_ForEachMN; [done|]. rewrite Hk. done.
Qed.

Lemma elem_of_changed from to e : list_wf to ->
  e ∈ diff_mnList (BuildSimplifiedDiff from to) <-> exists m, mnMap to !! proRegTxHash e = Some m /\ e = CSimplifiedMNListEntry_of m /\
    forall m0, mnMap from !! proRegTxHash e = Some m0 -> e <> CSimplifiedMNListEntry_of m0.
Proof.
  intros Hw. cbn [BuildSimplifiedDiff diff_mnList]. rewrite list_elem_of_fmap. split.
  - intros (m & -> & [Hc [Hm _]%elem_of_ForEachMN]%list_elem_of_filter); [|done]. exists m. split_and!; [exact Hm|done|]. intros m0 Hm0. unfold GetMN in Hc.
    change (proRegTxHash (CSimplifiedMNListEntry_of m)) with (proTxHash m) in Hm0. rewrite Hm0 in Hc. by apply bool_decide_eq_true in Hc.
  - intros (m & Hm & -> & Hne). exists m. split; [done|]. apply list_elem_of_filter. split; [|apply elem_of_ForEachMN; [done|]; split; [exact Hm|done]].
    unfold GetMN. destruct (mnMap from !! proTxHash m) as [m0|] eqn:E; [|done]. apply bool_decide_eq_true. by apply Hne.
Qed.

Lemma simplified_diff_applies from to :
  list_wf from -> list_wf to -> sized from -> sized to -> apply_simplified (CSimplifiedMNList_of from) (BuildSimplifiedDiff from to) = CSimplifiedMNList_of to.
Proof.
  intros Hwf Hwt Hsf Hst. destruct (entries_keys from Hwf Hsf) as [_ Hnf]. destruct (entries_keys to Hwt Hst) as [Hlt Hnt].
  unfold apply_simplified, CSimplifiedMNList_entries, CSimplifiedMNList_of at 2. symmetry. apply std_sort_same; [done..|].
  assert (NoDup (CSimplifiedMNList_of from)) as Hnd.
  { unfold CSimplifiedMNList_of, std_sort. rewrite merge_sort_Permutation. by apply NoDup_fmap_1 in Hnf. }
  assert (NoDup (diff_mnList (BuildSimplifiedDiff from to))) as Hnd'.
  { apply (NoDup_fmap_1 proRegTxHash). cbn [BuildSimplifiedDiff diff_mnList].
    change (NoDup (map proRegTxHash (map CSimplifiedMNListEntry_of (filter (fun dmn => (match GetMN from (proTxHash dmn) with
      | Some fromDmn => bool_decide (CSimplifiedMNListEntry_of dmn <> CSimplifiedMNListEntry_of fromDmn) | None => true end) = true) (ForEachMN to false))))).
    rewrite map_map. apply (NoDup_map_filter proTxHash). by apply NoDup_ForEachMN. }
  apply NoDup_Permutation; [by apply NoDup_fmap_1 in Hnt| |].
  - apply NoDup_app. split_and!; [by apply NoDup_filter| |done]. intros e [[_ Hni] _]%list_elem_of_filter Hin. apply Hni. by apply list_elem_of_fmap_2.
  - intros e. rewrite elem_of_entries, elem_of_app, list_elem_of_filter, elem_of_simplified, elem_of_deleted, elem_of_changed by done. split.
    + intros (m & Hm & He). destruct (mnMap from !! proRegTxHash e) as [m0|] eqn:E0; [|right; exists m; split_and!; [done..|by intros ? ?]].
      destruct (decide (e = CSimplifiedMNListEntry_of m0)) as [Heq|Hne]; [left|right; exists m; split_and!; [done..|congruence]].
      split; [split|by exists m0].
      * intros [_ Hn]. congruence.
      * intros (e' & Hk & He')%list_elem_of_fmap. apply elem_of_changed in He' as (m' & Hm' & -> & Hc); [|done]. cbn [CSimplifiedMNListEntry_of proRegTxHash] in *.
        rewrite <- Hk in Hm', Hc. rewrite Hm in Hm'. injection Hm' as ->. apply (Hc m0 E0). congruence.
    + intros [[[Hnd1 Hnc] (m0 & Hm0 & He)]|(m & Hm & He & _)]; [|by exists m].
      destruct (mnMap to !! proRegTxHash e) as [m|] eqn:Em; [|destruct Hnd1; split; [by eexists|done]]. exists m. split; [done|].
      destruct (decide (e = CSimplifiedMNListEntry_of m)) as [|Hne]; [done|]. destruct (wf_key to Hwt _ _ Em) as [Hkm _]. exfalso. apply Hnc, list_elem_of_fmap.
      exists (CSimplifiedMNListEntry_of m). split; [by rewrite <- Hkm|]. apply elem_of_changed; [done|]. exists m. cbn [CSimplifiedMNListEntry_of proRegTxHash]. rewrite Hkm.
      split_and!; [done..|]. intros m1 Hm1 Heq. apply Hne. rewrite He. replace m0 with m1 by congruence. done.
Qed.

(** ** Roots *)

(** An entry whose fields have their sizes and whose address the format can carry. *)
Definition entry_ok (e : CSimplifiedMNListEntry) : Prop :=
  length (proRegTxHash e) = 32%nat /\ length (sml_confirmedHash e) = 32%nat /\ service_ok (sml_service e) /\
  length (bls_bytes (sml_pubKeyOperator e)) = 48%nat /\ length (sml_keyIDVoting e) = 20%nat.

Lemma ser_entry_inj e e' b : entry_ok e -> entry_ok e' -> ser_entry e = Ok b -> ser_entry e' = Ok b -> e = e'.
Proof.
  intros (H1 & H2 & H3 & H4 & H5) (H1' & H2' & H3' & H4' & H5'). unfold ser_entry.
  destruct (service_read_back _ H3) as (s & -> & Hr), (service_read_back _ H3') as (s' & -> & Hr'). cbn [mbind res_bind]. intros [= <-] [= Hb].
  apply app_inj_1 in Hb as [Ep Hb]; [|congruence]. apply app_inj_1 in Hb as [Ec Hb]; [|congruence].
  assert (unser_service false (s ++ bls_bytes (sml_pubKeyOperator e) ++ sml_keyIDVoting e ++ [b2z (isValid e)]) =
          Ok (sml_service e', bls_bytes (sml_pubKeyOperator e') ++ sml_keyIDVoting e' ++ [b2z (isValid e')])) as Hs by (rewrite <- Hb; apply Hr').
  rewrite Hr in Hs. injection Hs as Es Hs. apply app_inj_1 in Hs as [Ek Hs]; [|congruence]. apply app_inj_1 in Hs as [Ev Hs]; [|congruence].
  injection Hs as Hi. destruct e as [p c sv [k] v i], e' as [p' c' sv' [k'] v' i']. cbn in *. subst. f_equal. by destruct i, i'.
Qed.

Lemma ser_entry_size e b : entry_ok e -> ser_entry e = Ok b -> (64 < length b)%nat.
Proof.
  intros (H1 & H2 & H3 & H4 & H5). unfold ser_entry. destruct (service_read_back _ H3) as (s & -> & _). cbn [mbind res_bind]. intros [= <-].
  rewrite !length_app. cbn [length]. lia.
Qed.

(** The bytes that are hashed for the entries. *)
Definition entry_inputs (l : list CSimplifiedMNListEntry) : list (list Z) :=
  flat_map (fun e => match ser_entry e with Ok b => [b] | _ => [] end) l.

Lemma entry_inputs_elem e l b : e ∈ l -> ser_entry e = Ok b -> b ∈ entry_inputs l.
Proof. intros He Hb. apply list_elem_of_In, in_flat_map. exists e. split; [by apply list_elem_of_In|]. rewrite Hb. by left. Qed.

Lemma CalcHashes_cons e l hs : CalcHashes (e :: l) = Ok hs -> exists b hs', ser_entry e = Ok b /\ CalcHashes l = Ok hs' /\ hs = Hash b :: hs'.
Proof.
  cbn [CalcHashes]. unfold entry_CalcHash. destruct (ser_entry e) as [b| |]; cbn [mbind res_bind]; [|done..].
  destruct (CalcHashes l) as [hs'| |]; cbn [mbind res_bind]; [|done..]. intros [= <-]. by exists b, hs'.
Qed.

Lemma CalcHashes_elem l hs h : Forall entry_ok l -> CalcHashes l = Ok hs -> h ∈ hs -> exists b, b ∈ entry_inputs l /\ h = Hash b /\ (64 < length b)%nat.
Proof.
  intros Hok. revert hs; induction Hok as [|e l He Hl IH]; intros hs; [intros [= <-] []%elem_of_nil|].
  intros (b & hs' & Hb & Hhs & ->)%CalcHashes_cons [-> | Hin]%elem_of_cons.
  - exists b. split_and!; [eapply entry_inputs_elem; [by left|done]|done|by eapply ser_entry_size].
  - destruct (IH hs' Hhs Hin) as (b' & Hb' & ? & ?). exists b'. split_and!; [|done..]. cbn [entry_inputs flat_map]. apply elem_of_app. by right.
Qed.

(** Equal hashes of the entries: equal entries, or a collision. *)
Lemma CalcHashes_inj l l' hs : Forall entry_ok l -> Forall entry_ok l' -> CalcHashes l = Ok hs -> CalcHashes l' = Ok hs ->
  l = l' \/ Collision (entry_inputs l) (entry_inputs l').
Proof.
  intros Hok. revert l' hs; induction Hok as [|e l He Hl IH]; intros l' hs Hok' H H'.
  - injection H as <-. destruct l' as [|e' l']; [by left|]. by apply CalcHashes_cons in H' as (b & hs' & _ & _ & [=]).
  - apply CalcHashes_cons in H as (b & hs1 & Hb & H1 & ->). destruct l' as [|e' l']; [by injection H'|]. apply Forall_cons in Hok' as [He' Hl'].
    apply CalcHashes_cons in H' as (b' & hs2 & Hb' & H2 & [= Heq <-]). destruct (decide (b = b')) as [<-|Hne].
    + rewrite (ser_entry_inj e e' b) by done. destruct (IH l' hs1 Hl' H1 H2) as [->|(x & y & Hx & Hy & Hxy)]; [by left|right]. exists x, y.
      cbn [entry_inputs flat_map] in *. set_solver.
    + right. exists b, b'. split_and!; [apply elem_of_app; left; eapply entry_inputs_elem; [by left|done]|
        apply elem_of_app; right; eapply entry_inputs_elem; [by left|done]|done|done].
Qed.

Context {laws : CryptoLaws crypto}.

Lemma merkle_inputs_size f l x : Forall hash_ok l -> x ∈ merkle_inputs f l -> length x = 64%nat.
Proof.
  revert l; induction f as [|f IH]; intros l Hok; destruct l as [|a [|b l]]; try (by intros []%elem_of_nil).
  rewrite merkle_inputs_S, elem_of_app. intros [Hx|Hx]; [|exact (IH _ (level_ok (a :: b :: l)) Hx)].
  apply list_elem_of_fmap in Hx as (p & -> & Hp). pose proof (pairs_ok _ Hok) as Hf. rewrite Forall_forall in Hf.
  destruct (Hf p Hp) as [H1 H2]. unfold hash_ok in *. rewrite length_app. lia.
Qed.

(** All that is hashed for the root of a list. *)
Definition root_inputs (l : list CSimplifiedMNListEntry) : list (list Z) :=
  entry_inputs l ++ match CalcHashes l with Ok hs => merkle_inputs (length hs) hs | _ => [] end.

Lemma CalcHashes_ok l hs : CalcHashes l = Ok hs -> Forall hash_ok hs.
Proof.
  revert hs; induction l as [|e l IH]; intros hs; [intros [= <-]; constructor|]. intros (b & hs' & _ & Hhs & ->)%CalcHashes_cons. constructor; [apply sha256_size|by apply IH].
Qed.

(** Two lists with the same root are the same, or two of the inputs have the same hash. *)
Lemma CalcMerkleRoot_binding l l' r :
  Forall entry_ok l -> Forall entry_ok l' -> l <> [] -> l' <> [] -> CalcMerkleRoot l = Ok (r, false) -> CalcMerkleRoot l' = Ok (r, false) ->
  l = l' \/ Collision (root_inputs l) (root_inputs l').
Proof.
  intros Hok Hok' Hn Hn' H H'. unfold CalcMerkleRoot, root_inputs in *.
  destruct (CalcHashes l) as [hs| |] eqn:E; cbn [mbind res_bind] in H; [|done..]. destruct (CalcHashes l') as [hs'| |] eqn:E'; cbn [mbind res_bind] in H'; [|done..].
  pose proof (CalcHashes_ok _ _ E) as Hh. pose proof (CalcHashes_ok _ _ E') as Hh'.
  assert (hs <> []) as Hne by (destruct l as [|e l]; [done|]; by apply CalcHashes_cons in E as (? & ? & _ & _ & ->)).
  assert (hs' <> []) as Hne' by (destruct l' as [|e l']; [done|]; by apply CalcHashes_cons in E' as (? & ? & _ & _ & ->)).
  destruct (ComputeMerkleRoot_same hs hs' r Hh Hh' Hne Hne' H H') as [<-|[Hc|(h & x & Hin & Hx & Hhx)]].
  - destruct (CalcHashes_inj l l' hs Hok Hok' E E') as [->|Hc]; [by left|]. right. eapply Collision_mono; [|exact Hc]. set_solver.
  - right. eapply Collision_mono; [|exact Hc]. set_solver.
  - right. assert (exists b, b ∈ entry_inputs l ++ entry_inputs l' /\ h = Hash b /\ (64 < length b)%nat) as (b & Hb & Hhb & Hlen).
    { apply elem_of_app in Hin as [Hin|Hin]; [destruct (CalcHashes_elem l hs h Hok E Hin) as (b & ? & ?)|destruct (CalcHashes_elem l' hs' h Hok' E' Hin) as (b & ? & ?)];
        exists b; (split; [set_solver|done]). }
    assert (length x = 64%nat) as Hx64 by (apply elem_of_app in Hx as [Hx|Hx]; (eapply merkle_inputs_size; [|exact Hx]; assumption)).
    exists b, x. split_and!; [set_solver|set_solver|intros ->; lia|congruence].
Qed.


End clients.

(** ** A masternode leaves *)

#[local] Existing Instance plain_crypto.

Definition smaller_list : CDeterministicMNList := match RemoveMN sample_list (replicate 32 10) with Ok l => l | _ => sample_list end.

Lemma smaller_list_reachable : reachable smaller_list.
Proof.
  assert (RemoveMN sample_list (replicate 32 10) = Ok smaller_list) as Hr by (vm_compute; reflexivity). by apply (reach_remove _ _ _ sample_list_reachable Hr).
Qed.

Lemma sample_sized : sized sample_list.
Proof. refine (bool_decide_unpack (map_Forall (fun _ m => length (proTxHash m) = 32%nat) (mnMap sample_list)) _). vm_compute. exact I. Qed.
Lemma smaller_sized : sized smaller_list.
Proof. refine (bool_decide_unpack (map_Forall (fun _ m => length (proTxHash m) = 32%nat) (mnMap smaller_list)) _). vm_compute. exact I. Qed.

Lemma smaller_simplified : CSimplifiedMNList_of smaller_list = map CSimplifiedMNListEntry_of [sample_mn 1 200; sample_mn 2 100].
Proof. vm_compute. reflexivity. Qed.

Lemma smaller_entries_ok : Forall entry_ok (CSimplifiedMNList_of smaller_list).
Proof.
  rewrite smaller_simplified. repeat constructor; vm_compute; try done; try discriminate; by repeat constructor.
Qed.

Definition smaller_root : list Z := match CalcMerkleRoot (CSimplifiedMNList_of smaller_list) with Ok (r, _) => r | _ => [] end.

Lemma smaller_root_computed : CalcMerkleRoot (CSimplifiedMNList_of smaller_list) = Ok (smaller_root, false).
Proof. unfold smaller_root. rewrite smaller_simplified. vm_compute. reflexivity. Qed.

Lemma smaller_nonempty : mnMap smaller_list <> ∅ /\ CSimplifiedMNList_of smaller_list <> [].
Proof.
  split; [|rewrite smaller_simplified; discriminate]. intros He. assert (GetMN smaller_list (replicate 32 11) = Some (sample_mn 1 200)) as Hm by (vm_compute; reflexivity).
  unfold GetMN in Hm. rewrite He in Hm. discriminate.
Qed.

