(* ===== verification/SpecialTx.v ===== *)
(** * Special transactions in blocks

    Models src/src/evo/specialtxman.cpp, evo/cbtx.h and .cpp and evo/mnhftx.h and .cpp: the dispatch of special
    transactions to their checks, the coinbase that commits to the lists of masternodes and quorums, and
    what is done when a block is connected or disconnected.  The quorum block processor with its database
    is an argument, as are recovered signatures of quorums.  The theorem joins the components: a block
    that is accepted has transactions that were checked against the list before it, its list is what the
    manager returns from then on, and its coinbase has the Merkle root of that list. *)

From stdpp Require Import base list numbers gmap sorting.
From S2P Require Import Prelude Script Crypto Standard Serialize Transaction Coin Coins Block Chain ChainSpec Pow PosKernel Merkle NetAddress Masternodes MasternodesSpec MasternodesDiff ProviderTx MasternodeManager MasternodeManagerSpec SimplifiedMNs.

Open Scope Z_scope.

(** ** Payloads *)

Record CCbTx : Type := MkCbTx { cb_nVersion : Z; cb_nHeight : Z; merkleRootMNList : list Z; merkleRootQuorums : list Z }.

Definition CBTX_VERSION : Z := 2.

Definition ser_CbTx (c : CCbTx) : list Z :=
  ser_writedata16 (cb_nVersion c) ++ ser_writedata32 (cb_nHeight c) ++ merkleRootMNList c ++ (if 2 <=? cb_nVersion c then merkleRootQuorums c else []).
Definition unser_CbTx : Parser CCbTx :=
  v ← ser_readdata16; h ← read_int32; r ← read_bytes 32;
  if 2 <=? v then q ← read_bytes 32; mret (MkCbTx v h r q) else mret (MkCbTx v h r null_hash).

Record MNHFTx : Type := MkMNHF { mnhf_nVersion : Z; mnhf_quorumHash : list Z; mnhf_sig : CBLSSignature }.
Record MNHFTxPayload : Type := MkMNHFPayload { payload_nVersion : Z; signal : MNHFTx }.

Section mnhf_payload.
Context {bls : BLSOps}.
Definition unser_MNHF : Parser MNHFTx := v ← ser_readdata16; h ← read_bytes 32; s ← unser_blssig; mret (MkMNHF v h s).
Definition unser_MNHFPayload : Parser MNHFTxPayload := v ← ser_readdata16; s ← unser_MNHF; mret (MkMNHFPayload v s).
End mnhf_payload.

(** ** Commitments to lists *)

(** The static variables of CalcCbTxMerkleRootMNList. *)
Record sml_cache : Type := MkSmlCache { smlCached : list CSimplifiedMNListEntry; merkleRootCached : list Z; mutatedCached : bool }.

Definition hash_lt (a b : list Z) : bool := memcmp a b <? 0.

Section special.
Context {crypto : CryptoOps} {bls : BLSOps} (params : EvoParams) (llmqs : list LLMQParams) (t : heap).
Context (view_GetCoin : COutPoint -> option Coin) (GetAllQuorumMembers : Z -> ptr -> list CDeterministicMN).
Context (env : pos_env) (signed_message : CProRegTx -> list Z).
(** Members of the consensus parameters, and what is asked of the quorums. *)
Context (DIP0008Height llmqTypeMnhf : Z) (signingActiveQuorumCount : Z -> Z).
Context (GetMinedAndActiveCommitmentsUntilBlock : ptr -> list (Z * list ptr)) (GetMinedCommitment : Z -> list Z -> option CFinalCommitment).
Context (IsQuorumRotationEnabled : Z -> ptr -> bool) (dip0024_active : bool).
(** VerifyRecoveredSig for a type of quorum, the block that is signed for and an offset. *)
Context (VerifyRecoveredSig : Z -> ptr -> CBLSSignature -> Z -> bool).

(** [prev] is the height of the block before, when there is one. *)
Definition CheckCbTx (tx : CTransaction) (prev : option Z) : res protx_error unit :=
  if negb (nType tx =? TRANSACTION_COINBASE) then DoS 100 bad_cbtx_type else
  if negb (IsCoinBase tx) then DoS 100 bad_cbtx_invalid else
  cbTx ← or_DoS (GetTxPayload TRANSACTION_COINBASE unser_CbTx tx) 100 bad_cbtx_payload;
  if (cb_nVersion cbTx =? 0) || (CBTX_VERSION <? cb_nVersion cbTx) then DoS 100 bad_cbtx_version else
  match prev with
  | None => Ok tt
  | Some height =>
      if negb (height + 1 =? cb_nHeight cbTx) then DoS 100 bad_cbtx_height else
      if (DIP0008Height <=? height) && (cb_nVersion cbTx <? 2) then DoS 100 bad_cbtx_version else Ok tt
  end.

(** The root with the manager, and the cache, which is replaced whenever another list is hashed. *)
Definition CalcCbTxMerkleRootMNList (m : CDeterministicMNManager) (cache : sml_cache) (block : CBlock) (pindexPrev : ptr) :
    res protx_error (list Z * CDeterministicMNManager) * sml_cache :=
  match BuildNewListFromBlock params llmqs t view_GetCoin GetAllQuorumMembers m block pindexPrev with
  | Abort => (Abort, cache)
  | Err (Rejected e) => (Err e, cache)
  | Err (Thrown _) => (DoS 100 failed_calc_cb_mnmerkleroot, cache)
  | Ok (tmpMNList, m) =>
      let sml := CSimplifiedMNList_of tmpMNList in
      if bool_decide (sml = smlCached cache) then
        (if mutatedCached cache then DoS 100 mutated_cached_calc_cb_mnmerkleroot else Ok (merkleRootCached cache, m), cache)
      else
        match CalcMerkleRoot sml with
        | Ok (root, mutated) => (if mutated : bool then DoS 100 mutated_calc_cb_mnmerkleroot else Ok (root, m), MkSmlCache sml root mutated)
        | _ => (Abort, cache)
        end
  end.

(** The hashes of the commitments by type, and those of rotated quorums by type and index. *)
Definition qc_state : Type := gmap Z (list (list Z)) * gmap Z (gmap Z (list Z)).

Fixpoint active_hashes (pindexPrev : ptr) (quorums : list (Z * ptr)) (st : qc_state) : res protx_error qc_state :=
  match quorums with
  | [] => Ok st
  | (type, p) :: quorums =>
      b ← call (deref t p);
      match GetMinedCommitment type (Chain.blockHash b) with
      | None => DoS 100 commitment_not_found
      | Some qc =>
          let hash := Hash (ser_commitment qc) in
          active_hashes pindexPrev quorums
            (if IsQuorumRotationEnabled (llmqType qc) pindexPrev
             then (st.1, <[type := emplace (quorumIndex qc) hash (default ∅ (st.2 !! type))]> st.2)
             else (<[type := default [] (st.1 !! type) ++ [hash]]> st.1, st.2))
      end
  end.

Fixpoint block_hashes (pindexPrev : ptr) (txs : list CTransaction) (st : qc_state) : res protx_error qc_state :=
  match txs with
  | [] => Ok st
  | tx :: txs =>
      if negb ((nVersion tx =? 3) && (nType tx =? TRANSACTION_QUORUM_COMMITMENT)) then block_hashes pindexPrev txs st else
      qc ← or_DoS (GetTxPayload TRANSACTION_QUORUM_COMMITMENT unser_CommitmentPayload tx) 100 bad_qc_payload_calc_cbtx_quorummerkleroot;
      let c := commitment qc in
      if commitment_IsNull c then block_hashes pindexPrev txs st else
      let qcHash := Hash (ser_commitment c) in
      llmq_params ← GetLLMQ llmqs (llmqType c);
      let type := llmq_type llmq_params in
      if IsQuorumRotationEnabled (llmqType c) pindexPrev
      then block_hashes pindexPrev txs (st.1, <[llmqType c := <[quorumIndex c := qcHash]> (default ∅ (st.2 !! llmqType c))]> st.2)
      else
        let v := default [] (st.1 !! type) in
        let count := signingActiveQuorumCount type in
        if (zlen v =? count) && (count =? 0) then Abort else
        let v := (if zlen v =? count then removelast v else v) ++ [qcHash] in
        if count <? zlen v then DoS 100 excess_quorums_calc_cbtx_quorummerkleroot
        else block_hashes pindexPrev txs (<[type := v]> st.1, st.2)
  end.

Definition CalcCbTxMerkleRootQuorums (block : CBlock) (pindexPrev : ptr) : res protx_error (list Z) :=
  st ← active_hashes pindexPrev (flat_map (fun p => map (fun q => (p.1, q)) p.2) (GetMinedAndActiveCommitmentsUntilBlock pindexPrev)) (∅, ∅);
  st ← block_hashes pindexPrev (visited_txs block) st;
  let hashes := flat_map snd (map_to_list st.1) ++ flat_map (fun q => (map_to_list q.2).*2) (map_to_list st.2) in
  '(root, mutated) ← call (ComputeMerkleRoot (std_sort hash_lt hashes));
  if mutated : bool then DoS 100 mutated_calc_cbtx_quorummerkleroot else Ok root.

Definition CheckCbTxMerkleRoots (m : CDeterministicMNManager) (cache : sml_cache) (block : CBlock) (index : CBlockIndex) :
    res protx_error CDeterministicMNManager * sml_cache :=
  match vtx block, pprev index with
  | [], _ => (Abort, cache)
  | coinbase :: _, prev =>
      if negb (nType coinbase =? TRANSACTION_COINBASE) then (Ok m, cache) else
      match GetTxPayload TRANSACTION_COINBASE unser_CbTx coinbase, prev with
      | Abort, _ => (Abort, cache)
      | Err _, _ => (DoS 100 bad_cbtx_payload, cache)
      | Ok _, None => (Abort, cache)
      | Ok cbTx, Some pindexPrev =>
          let '(r, cache) := CalcCbTxMerkleRootMNList m cache block pindexPrev in
          ('(calculatedMerkleRoot, m) ← r;
           if bool_decide (calculatedMerkleRoot <> merkleRootMNList cbTx) then DoS 100 bad_cbtx_mnmerkleroot else
           if cb_nVersion cbTx <? 2 then Ok m else
           calculatedMerkleRoot ← CalcCbTxMerkleRootQuorums block pindexPrev;
           if bool_decide (calculatedMerkleRoot <> merkleRootQuorums cbTx) then DoS 100 bad_cbtx_quorummerkleroot else Ok m, cache)
      end
  end.

(** ** Signals of the masternode hard fork *)

Definition MNHFTx_Verify (s : MNHFTx) (pQuorumIndex : ptr) : res protx_error bool :=
  if (mnhf_nVersion s =? 0) || (1 <? mnhf_nVersion s) then Ok false else
  llmq_params ← GetLLMQ llmqs llmqTypeMnhf;
  Ok (VerifyRecoveredSig llmqTypeMnhf pQuorumIndex (mnhf_sig s) 0 || VerifyRecoveredSig llmqTypeMnhf pQuorumIndex (mnhf_sig s) (dkgInterval llmq_params)).

Definition CheckMNHFTx (tx : CTransaction) (pindexPrev : option ptr) : res protx_error unit :=
  mnhfTx ← or_DoS (GetTxPayload TRANSACTION_MNHF_SIGNAL unser_MNHFPayload tx) 100 bad_mnhf_payload;
  if (payload_nVersion mnhfTx =? 0) || (1 <? payload_nVersion mnhfTx) then DoS 100 bad_mnhf_version else
  match find_block t (mnhf_quorumHash (signal mnhfTx)) 0 with
  | None => DoS 100 bad_mnhf_quorum_hash
  | Some pindexQuorum =>
      b ← call (deref t pindexQuorum);
      match pindexPrev with
      | None => Abort
      | Some p =>
          anc ← call (GetAncestor t p (Chain.nHeight b));
          if bool_decide (anc <> Some pindexQuorum) then DoS 100 bad_mnhf_quorum_hash else
          if negb (HasLLMQ llmqs llmqTypeMnhf) then DoS 100 bad_mnhf_type else
          ok ← MNHFTx_Verify (signal mnhfTx) pindexQuorum;
          if ok : bool then Ok tt else DoS 100 bad_mnhf_invalid
      end
  end.

(** ** Dispatch *)

(** The list of the block before with its height; the checks ask for it when there is such a block.  An exception
    of the list is caught in CheckSpecialTx. *)
Definition list_before (m : CDeterministicMNManager) (pindexPrev : option ptr) :
    res protx_error (option (CDeterministicMNList * Z) * CDeterministicMNManager) :=
  match pindexPrev with
  | None => Ok (None, m)
  | Some p =>
      b ← call (deref t p);
      match GetListForBlock llmqs t m p with
      | Ok (l, m) => Ok (Some (l, Chain.nHeight b), m)
      | Err (Rejected e) => Err e
      | Err (Thrown _) => DoS 100 failed_check_special_tx
      | Abort => Abort
      end
  end.

(** A signal that is not active yet makes the source return false and leave the state as it was: [mnhf_not_active] with no
    penalty stands for that. *)
Definition CheckSpecialTx (m : CDeterministicMNManager) (tx : CTransaction) (pindexPrev : option ptr) (check_sigs : bool) :
    res protx_error CDeterministicMNManager :=
  if negb (nVersion tx =? 3) || (nType tx =? TRANSACTION_NORMAL) then Ok m else
  height ← match pindexPrev with None => Ok None | Some p => b ← call (deref t p); Ok (Some (Chain.nHeight b)) end;
  if match height with Some h => h + 1 <? DIP0003Height params | None => false end then DoS 10 bad_tx_type else
  let type := nType tx in
  if type =? TRANSACTION_PROVIDER_REGISTER then
    '(prev, m) ← list_before m pindexPrev; _ ← CheckProRegTx params env view_GetCoin signed_message prev tx check_sigs; Ok m
  else if type =? TRANSACTION_PROVIDER_UPDATE_SERVICE then
    '(prev, m) ← list_before m pindexPrev; _ ← CheckProUpServTx params prev tx check_sigs; Ok m
  else if type =? TRANSACTION_PROVIDER_UPDATE_REGISTRAR then
    '(prev, m) ← list_before m pindexPrev; _ ← CheckProUpRegTx params env view_GetCoin prev tx check_sigs; Ok m
  else if type =? TRANSACTION_PROVIDER_UPDATE_REVOKE then
    '(prev, m) ← list_before m pindexPrev; _ ← CheckProUpRevTx prev tx check_sigs; Ok m
  else if type =? TRANSACTION_COINBASE then _ ← CheckCbTx tx height; Ok m
  else if type =? TRANSACTION_QUORUM_COMMITMENT then
    match pindexPrev with
    | None => Abort
    | Some p => _ ← CheckLLMQCommitment llmqs t IsQuorumRotationEnabled GetAllQuorumMembers tx p; Ok m
    end
  else if type =? TRANSACTION_MNHF_SIGNAL then
    if dip0024_active then _ ← CheckMNHFTx tx pindexPrev; Ok m else DoS 0 mnhf_not_active
  else DoS 10 bad_tx_type_check.

(** Every known type is handled per block; UndoSpecialTx returns false for the others. *)
Definition known_type (tx : CTransaction) : bool :=
  negb (nVersion tx =? 3) || ((TRANSACTION_NORMAL <=? nType tx) && (nType tx <=? TRANSACTION_MNHF_SIGNAL)).
Definition ProcessSpecialTx (tx : CTransaction) : res protx_error unit := if known_type tx then Ok tt else DoS 100 bad_tx_type_proc.
Definition UndoSpecialTx (tx : CTransaction) : bool := known_type tx.

Fixpoint check_txs (m : CDeterministicMNManager) (txs : list CTransaction) (pindexPrev : option ptr) (check_sigs : bool) :
    res protx_error CDeterministicMNManager :=
  match txs with
  | [] => Ok m
  | tx :: txs =>
      m ← CheckSpecialTx m tx pindexPrev check_sigs;
      _ ← ProcessSpecialTx tx;
      check_txs m txs pindexPrev check_sigs
  end.

(** The quorum block processor, with its state. *)
Context {Q : Type} (quorum_ProcessBlock : Q -> CBlock -> ptr -> bool -> bool -> res protx_error Q) (quorum_UndoBlock : Q -> CBlock -> ptr -> res unit Q).

Definition ProcessSpecialTxsInBlock (m : CDeterministicMNManager) (cache : sml_cache) (q : Q) (block : CBlock) (pindex : ptr)
    (fJustCheck fCheckCbTxMerleRoots : bool) : res protx_error (CDeterministicMNManager * Q) * sml_cache :=
  match (index ← call (deref t pindex);
         m ← check_txs m (vtx block) (pprev index) fCheckCbTxMerleRoots;
         q ← quorum_ProcessBlock q block pindex fJustCheck fCheckCbTxMerleRoots;
         m ← ProcessBlock params llmqs t view_GetCoin GetAllQuorumMembers m block pindex fJustCheck;
         Ok (index, m, q)) with
  | Ok (index, m, q) =>
      if fCheckCbTxMerleRoots then let '(r, cache) := CheckCbTxMerkleRoots m cache block index in (m ← r; Ok (m, q), cache)
      else (Ok (m, q), cache)
  | Err e => (Err e, cache)
  | Abort => (Abort, cache)
  end.

(** [Err] where the source returns false. *)
Definition UndoSpecialTxsInBlock (m : CDeterministicMNManager) (q : Q) (block : CBlock) (pindex : ptr) : res unit (CDeterministicMNManager * Q) :=
  if negb (forallb UndoSpecialTx (rev (vtx block))) then Err tt else
  match UndoBlock llmqs t m block pindex with
  | Ok m => q ← quorum_UndoBlock q block pindex; Ok (m, q)
  | Err _ => Err tt
  | Abort => Abort
  end.

End special.

(** ** Reading a list again *)

Section reading.
Context {crypto : CryptoOps} (llmqs : list LLMQParams) (t : heap).

Lemma emplace_lookup {K A} `{Countable K} (k k' : K) (x : A) (m : gmap K A) :
  emplace k x m !! k' = if decide (k = k') then Some (default x (m !! k)) else m !! k'.
Proof.
  unfold emplace. destruct (m !! k) as [y|] eqn:E; [by case_decide as Hk; [rewrite <- Hk|]|]. case_decide as Hk; [rewrite Hk; by rewrite lookup_insert_eq|by rewrite lookup_insert_ne].
Qed.

(** One turn of the search: it ends, or goes on at the block before. *)
Lemma find_snapshot_cases fuel m p acc s idx m1 : find_snapshot t (S fuel) m (Some p) acc = Ok (s, idx, m1) ->
  exists b, t !! p = Some b /\ let h := Chain.blockHash b in
    (idx = acc /\ (mnListsCache m !! h = Some s /\ m1 = m \/
                  mnListsCache m !! h = None /\ m1 = emplace_list m h s /\
                  match db_snapshots m !! h with
                  | Some s' => s = s'
                  | None => mnListDiffsCache m !! h = None /\ db_diffs m !! h = None /\ s = CDeterministicMNList_make h (-1) 0
                  end)) \/
    mnListsCache m !! h = None /\ db_snapshots m !! h = None /\ exists q, pprev b = Some q /\
      ((exists d, mnListDiffsCache m !! h = Some d) /\ find_snapshot t fuel m (Some q) (p :: acc) = Ok (s, idx, m1) \/
       mnListDiffsCache m !! h = None /\ exists d, db_diffs m !! h = Some d /\
         find_snapshot t fuel (emplace_diff m h d (Chain.nHeight b)) (Some q) (p :: acc) = Ok (s, idx, m1)).
Proof.
  cbn [find_snapshot]. unfold deref. destruct (t !! p) as [b|]; cbn [total mbind res_bind]; [|done]. intros H. exists b. split; [done|]. cbv zeta.
  destruct (mnListsCache m !! Chain.blockHash b) as [s0|]; [injection H as <- <- <-; by left; split; [|left]|].
  destruct (db_snapshots m !! Chain.blockHash b) as [s0|]; [injection H as <- <- <-; by left; split; [|right]|].
  destruct (mnListDiffsCache m !! Chain.blockHash b) as [d|] eqn:E3.
  - right. split_and!; [done..|]. destruct (pprev b) as [q|]; [|by destruct fuel]. exists q. split; [done|]. left. split; [by eexists|done].
  - destruct (db_diffs m !! Chain.blockHash b) as [d|] eqn:E4.
    + right. split_and!; [done..|]. destruct (pprev b) as [q|]; [|by destruct fuel]. exists q. split; [done|]. right. split; [done|]. by exists d.
    + injection H as <- <- <-. left. split; [done|]. right. by split_and!.
Qed.

Hypothesis (Hheap : heap_wf t) (Huniq : hashes_unique t).

Lemma parent_before p b q : t !! p = Some b -> pprev b = Some q -> (q < p)%nat.
Proof. intros Hp Hq. destruct (Hheap p b Hp) as [Hpar _]. rewrite Hq in Hpar. by destruct Hpar as (? & _ & ? & _). Qed.

(** The managers have the same records of the blocks up to a position. *)
Definition agree (q : ptr) (m m' : CDeterministicMNManager) : Prop :=
  forall p b, (p <= q)%nat -> t !! p = Some b -> let h := Chain.blockHash b in
    mnListsCache m !! h = mnListsCache m' !! h /\ mnListDiffsCache m !! h = mnListDiffsCache m' !! h /\
    db_snapshots m !! h = db_snapshots m' !! h /\ db_diffs m !! h = db_diffs m' !! h.

Lemma agree_emplace_list q m m' p b s : agree q m m' -> (p <= q)%nat -> t !! p = Some b ->
  agree q (emplace_list m (Chain.blockHash b) s) (emplace_list m' (Chain.blockHash b) s).
Proof.
  intros Ha Hpq Hp p' b' Hle Hp'. destruct (Ha p' b' Hle Hp') as (E1 & E2 & E3 & E4), (Ha p b Hpq Hp) as (F1 & _).
  cbn [emplace_list with_lists mnListsCache mnListDiffsCache db_snapshots db_diffs]. rewrite !emplace_lookup, F1. split_and!; [by case_decide|done..].
Qed.

Lemma agree_emplace_diff q m m' p b d height : agree q m m' -> (p <= q)%nat -> t !! p = Some b ->
  agree q (emplace_diff m (Chain.blockHash b) d height) (emplace_diff m' (Chain.blockHash b) d height).
Proof.
  intros Ha Hpq Hp p' b' Hle Hp'. destruct (Ha p' b' Hle Hp') as (E1 & E2 & E3 & E4), (Ha p b Hpq Hp) as (_ & F2 & _).
  cbn [emplace_diff with_diffs mnListsCache mnListDiffsCache db_snapshots db_diffs]. rewrite !emplace_lookup, F2. split_and!; [done|by case_decide|done..].
Qed.

(** The search finds the same in both. *)
Lemma find_snapshot_agree q fuel : forall m m' p acc s idx m1, agree q m m' -> (p <= q)%nat -> Forall (fun i => i <= q)%nat acc ->
  find_snapshot t fuel m (Some p) acc = Ok (s, idx, m1) ->
  exists m1', find_snapshot t fuel m' (Some p) acc = Ok (s, idx, m1') /\ agree q m1 m1' /\ Forall (fun i => i <= q)%nat idx.
Proof.
  induction fuel as [|fuel IH]; intros m m' p acc s idx m1 Ha Hpq Hacc H; [done|].
  apply find_snapshot_cases in H as (b & Hp & Hcases). cbn [find_snapshot]. unfold deref. rewrite Hp. cbn [total mbind res_bind].
  destruct (Ha p b Hpq Hp) as (E1 & E2 & E3 & E4). rewrite <- E1, <- E2, <- E3, <- E4.
  destruct Hcases as [[-> [[-> ->]|(-> & -> & Hs)]]|(-> & -> & p' & Hq & [[[d ->] H]|(-> & d & -> & H)])].
  - by exists m'.
  - exists (emplace_list m' (Chain.blockHash b) s). destruct (db_snapshots m !! Chain.blockHash b) as [s'|]; [subst s'|destruct Hs as (-> & -> & ->)];
      (split_and!; [done|by apply (agree_emplace_list q m m' p b)|done]).
  - rewrite Hq. pose proof (parent_before p b p' Hp Hq). apply (IH m m' p' (p :: acc)); [done|lia|by constructor|done].
  - rewrite Hq. pose proof (parent_before p b p' Hp Hq). eapply IH; [|lia|by constructor|exact H]. by apply (agree_emplace_diff q m m' p b).
Qed.

(** What the search leaves alone. *)
Lemma find_snapshot_frame fuel : forall m p acc s idx m1, find_snapshot t fuel m (Some p) acc = Ok (s, idx, m1) ->
  db_snapshots m1 = db_snapshots m /\ db_diffs m1 = db_diffs m /\ tipIndex m1 = tipIndex m /\
  forall p' b', (p < p')%nat -> t !! p' = Some b' ->
    mnListsCache m1 !! Chain.blockHash b' = mnListsCache m !! Chain.blockHash b' /\ mnListDiffsCache m1 !! Chain.blockHash b' = mnListDiffsCache m !! Chain.blockHash b'.
Proof.
  induction fuel as [|fuel IH]; intros m p acc s idx m1 H; [done|]. apply find_snapshot_cases in H as (b & Hp & Hcases).
  assert (forall p' b', (p < p')%nat -> t !! p' = Some b' -> Chain.blockHash b <> Chain.blockHash b') as Hne.
  { intros p' b' Hlt Hp' He. rewrite (Huniq p p' b b' Hp Hp' He) in Hlt. lia. }
  destruct Hcases as [[_ [[_ ->]|(_ & -> & _)]]|(_ & _ & q & Hq & [[_ H]|(_ & d & _ & H)])].
  - done.
  - split_and!; [done..|]. intros p' b' Hlt Hp'. cbn [emplace_list with_lists mnListsCache mnListDiffsCache]. rewrite emplace_lookup, decide_False by by eapply Hne. done.
  - pose proof (parent_before p b q Hp Hq). destruct (IH _ _ _ _ _ _ H) as (? & ? & ? & Hf). split_and!; [done..|]. intros p' b' Hlt. apply Hf. lia.
  - pose proof (parent_before p b q Hp Hq). destruct (IH _ _ _ _ _ _ H) as (? & ? & ? & Hf). split_and!; [done..|]. intros p' b' Hlt Hp'.
    destruct (Hf p' b' ltac:(lia) Hp') as [-> ->]. cbn [emplace_diff with_diffs mnListsCache mnListDiffsCache]. rewrite emplace_lookup, decide_False by by eapply Hne. done.
Qed.

(** Searching again after a search. *)
Lemma find_snapshot_again fuel : forall m p acc s idx m1, find_snapshot t fuel m (Some p) acc = Ok (s, idx, m1) ->
  find_snapshot t fuel m1 (Some p) acc = Ok (s, idx, m1).
Proof.
  induction fuel as [|fuel IH]; intros m p acc s idx m1 H; [done|]. apply find_snapshot_cases in H as (b & Hp & Hcases).
  cbn [find_snapshot]. unfold deref. rewrite Hp. cbn [total mbind res_bind].
  destruct Hcases as [[-> [[E1 ->]|(E1 & -> & _)]]|(E1 & E2 & q & Hq & [[[d E3] H]|(E3 & d & E4 & H)])].
  - by rewrite E1.
  - cbn [emplace_list with_lists mnListsCache]. by rewrite emplace_lookup, decide_True, E1 by done.
  - pose proof (parent_before p b q Hp Hq) as Hlt. destruct (find_snapshot_frame _ _ _ _ _ _ _ H) as (F1 & F2 & _ & Hf). destruct (Hf p b Hlt Hp) as [G1 G2].
    rewrite G1, E1, F1, E2, G2, E3, Hq. by eapply IH.
  - pose proof (parent_before p b q Hp Hq) as Hlt. destruct (find_snapshot_frame _ _ _ _ _ _ _ H) as (F1 & F2 & _ & Hf). destruct (Hf p b Hlt Hp) as [G1 G2].
    cbn [emplace_diff with_diffs mnListsCache mnListDiffsCache db_snapshots db_diffs] in *. rewrite emplace_lookup, decide_True, E3 in G2 by done.
    rewrite G1, E1, F1, E2, G2, Hq. by eapply IH.
Qed.

Lemma apply_diffs_agree q m m' idx : agree q m m' -> Forall (fun i => i <= q)%nat idx -> forall s, apply_diffs t m idx s = apply_diffs t m' idx s.
Proof.
  intros Ha. induction 1 as [|p idx Hp _ IH]; intros s; cbn [apply_diffs]; [done|]. unfold deref. destruct (t !! p) as [b|] eqn:E; cbn [total mbind res_bind]; [|done].
  destruct (Ha p b Hp E) as (_ & -> & _). destruct (mnListDiffsCache m' !! Chain.blockHash b) as [[d h]|]; [|done]. case_match; cbn [mbind res_bind]; [|apply IH].
  destruct (throws _); cbn [mbind res_bind]; [apply IH|done..].
Qed.

(** A list that was read is read again as long as the records up to its block are what they were then. *)
Lemma GetListForBlock_again m q b l m1 m2 l2 m3 :
  t !! q = Some b -> blockHash l = Chain.blockHash b ->
  GetListForBlock llmqs t m q = Ok (l, m1) -> agree q m1 m2 -> GetListForBlock llmqs t m2 q = Ok (l2, m3) -> l2 = l.
Proof.
  intros Hq Hl H1 Ha H2. unfold GetListForBlock in H1. apply bind_Ok in H1 as ([[s idx] ma] & Hf & H1). apply bind_Ok in H1 as (l' & Hd & H1).
  apply bind_Ok in H1 as (mk & Hk & H1). injection H1 as -> ->. pose proof (find_snapshot_again _ _ _ _ _ _ _ Hf) as Hf'.
  unfold GetListForBlock in H2. apply bind_Ok in H2 as ([[s2 idx2] mb] & Hf2 & H2). apply bind_Ok in H2 as (l2' & Hd2 & H2).
  apply bind_Ok in H2 as (mk2 & _ & H2). injection H2 as -> _.
  assert (m1 = ma \/ m1 = emplace_list ma (Chain.blockHash b) l) as [->| ->].
  { unfold keep_list in Hk. destruct (tipIndex ma); [|left; by injection Hk]. apply bind_Ok in Hk as (bt & _ & Hk). rewrite Hl in Hk. case_match; injection Hk as <-; auto. }
  - destruct (find_snapshot_agree q _ ma m2 q [] s idx ma Ha ltac:(lia) ltac:(constructor) Hf') as (m1' & Hf3 & Ha' & Hidx). rewrite Hf3 in Hf2. injection Hf2 as <- <- <-.
    rewrite <- (apply_diffs_agree q ma m1' idx Ha' Hidx) in Hd2. congruence.
  - destruct (Ha q b ltac:(lia) Hq) as (E1 & _). cbn [emplace_list with_lists mnListsCache] in E1. rewrite emplace_lookup, decide_True in E1 by done.
    cbn [find_snapshot] in Hf2, Hf'. unfold deref in Hf2, Hf'. rewrite Hq in Hf2, Hf'. cbn [total mbind res_bind] in Hf2, Hf'. rewrite <- E1 in Hf2. injection Hf2 as <- <- <-.
    cbn [apply_diffs] in Hd2. injection Hd2 as <-. destruct (mnListsCache ma !! Chain.blockHash b) as [s0|]; [|done]. injection Hf' as <- <-. cbn [apply_diffs] in Hd. by injection Hd.
Qed.

End reading.

(** ** Connecting a block *)

Section joined.
Context {crypto : CryptoOps} {bls : BLSOps} (params : EvoParams) (llmqs : list LLMQParams) (t : heap).
Context (view_GetCoin : COutPoint -> option Coin) (GetAllQuorumMembers : Z -> ptr -> list CDeterministicMN).
Context (env : pos_env) (signed_message : CProRegTx -> list Z).
Context (DIP0008Height llmqTypeMnhf : Z) (signingActiveQuorumCount : Z -> Z).
Context (GetMinedAndActiveCommitmentsUntilBlock : ptr -> list (Z * list ptr)) (GetMinedCommitment : Z -> list Z -> option CFinalCommitment).
Context (IsQuorumRotationEnabled : Z -> ptr -> bool) (dip0024_active : bool).
Context (VerifyRecoveredSig : Z -> ptr -> CBLSSignature -> Z -> bool).
Context {Q : Type} (quorum_ProcessBlock : Q -> CBlock -> ptr -> bool -> bool -> res protx_error Q).
Hypothesis (Hheap : heap_wf t) (Huniq : hashes_unique t).

Abbreviation check_tx := (CheckSpecialTx params llmqs t view_GetCoin GetAllQuorumMembers env signed_message DIP0008Height llmqTypeMnhf
  IsQuorumRotationEnabled dip0024_active VerifyRecoveredSig).
Abbreviation check_all := (check_txs params llmqs t view_GetCoin GetAllQuorumMembers env signed_message DIP0008Height llmqTypeMnhf
  IsQuorumRotationEnabled dip0024_active VerifyRecoveredSig).
Abbreviation calc_quorums := (CalcCbTxMerkleRootQuorums llmqs t signingActiveQuorumCount GetMinedAndActiveCommitmentsUntilBlock GetMinedCommitment IsQuorumRotationEnabled).
Abbreviation check_roots := (CheckCbTxMerkleRoots params llmqs t view_GetCoin GetAllQuorumMembers signingActiveQuorumCount
  GetMinedAndActiveCommitmentsUntilBlock GetMinedCommitment IsQuorumRotationEnabled).
Abbreviation process_in_block := (ProcessSpecialTxsInBlock params llmqs t view_GetCoin GetAllQuorumMembers env signed_message DIP0008Height llmqTypeMnhf
  signingActiveQuorumCount GetMinedAndActiveCommitmentsUntilBlock GetMinedCommitment IsQuorumRotationEnabled dip0024_active VerifyRecoveredSig quorum_ProcessBlock).

(** The cached root is that of the cached list. *)
Definition cache_ok (c : sml_cache) : Prop := CalcMerkleRoot (smlCached c) = Ok (merkleRootCached c, mutatedCached c).

Lemma CalcCbTxMerkleRootMNList_spec m cache block q r cache' : cache_ok cache ->
  CalcCbTxMerkleRootMNList params llmqs t view_GetCoin GetAllQuorumMembers m cache block q = (r, cache') ->
  cache_ok cache' /\ forall root m', r = Ok (root, m') -> exists newList,
    BuildNewListFromBlock params llmqs t view_GetCoin GetAllQuorumMembers m block q = Ok (newList, m') /\
    CalcMerkleRoot (CSimplifiedMNList_of newList) = Ok (root, false).
Proof.
  intros Hc. unfold CalcCbTxMerkleRootMNList. destruct (BuildNewListFromBlock _ _ _ _ _ m block q) as [[l m1]|[e|e]|]; try (intros [= <- <-]; split; [done|by intros]).
  case_bool_decide as Heq.
  - intros [= <- <-]. split; [done|]. intros root m'. destruct (mutatedCached cache) eqn:Em; [done|]. intros [= <- <-]. exists l. split; [done|].
    unfold cache_ok in Hc. by rewrite Heq, Hc, Em.
  - destruct (CalcMerkleRoot (CSimplifiedMNList_of l)) as [[root mutated]| |] eqn:Er; try (intros [= <- <-]; split; [done|by intros]).
    intros [= <- <-]. split; [exact Er|]. intros root' m'. destruct mutated; [done|]. intros [= <- <-]. by exists l.
Qed.

(** The checks depend on the masternodes and their properties only. *)
Lemma checks_same l l' height tx sigs : mnMap l = mnMap l' -> mnUniquePropertyMap l = mnUniquePropertyMap l' ->
  CheckProRegTx params env view_GetCoin signed_message (Some (l, height)) tx sigs = CheckProRegTx params env view_GetCoin signed_message (Some (l', height)) tx sigs /\
  CheckProUpServTx params (Some (l, height)) tx sigs = CheckProUpServTx params (Some (l', height)) tx sigs /\
  CheckProUpRegTx params env view_GetCoin (Some (l, height)) tx sigs = CheckProUpRegTx params env view_GetCoin (Some (l', height)) tx sigs /\
  CheckProUpRevTx (Some (l, height)) tx sigs = CheckProUpRevTx (Some (l', height)) tx sigs.
Proof. destruct l, l'. cbn. intros -> ->. split_and!; reflexivity. Qed.

(** What reading lists up to a block keeps. *)
Definition kept (G : list Z -> MnMap * Z) (q : ptr) (m m' : CDeterministicMNManager) : Prop :=
  stored t G m' /\ db_diffs m' = db_diffs m /\ db_snapshots m' = db_snapshots m /\ caches_below t q m m'.

Lemma reading_kept_refl G q m : stored t G m -> kept G q m m.
Proof. intros. by split_and!. Qed.

Lemma reading_kept_trans G q m m1 m2 : kept G q m m1 -> kept G q m1 m2 -> kept G q m m2.
Proof. intros (_ & D1 & S1 & C1) (H & D2 & S2 & C2). split_and!; [done|congruence..|]. by eapply caches_below_trans. Qed.

(** A check that reads the list of the block before. *)
Lemma list_before_check G m m' q c (chk : option (CDeterministicMNList * Z) -> res protx_error unit) : stored t G m -> t !! q = Some c ->
  ('(prev, m) ← list_before llmqs t m (Some q); _ ← chk prev; Ok m) = Ok m' ->
  (exists l, ok_list G (Chain.blockHash c) l /\ chk (Some (l, Chain.nHeight c)) = Ok tt) /\ kept G q m m'.
Proof.
  intros Hst Hc. unfold list_before, deref. rewrite Hc. cbn [call mbind res_bind].
  destruct (GetListForBlock_spec llmqs t G m q c Hheap Hst Hc) as (l & m1 & -> & Hl & Hst1 & Hd & Hs & _ & Hcb). cbn [mbind res_bind].
  intros ([] & Hk & E)%bind_Ok. injection E as <-.
  split; [by exists l|by split_and!].
Qed.

(** A transaction that CheckSpecialTx accepts after the block [c] with the list [l]. *)
Definition special_checked (l : CDeterministicMNList) (q : ptr) (c : CBlockIndex) (sigs : bool) (tx : CTransaction) : Prop :=
  nVersion tx = 3 -> nType tx <> TRANSACTION_NORMAL ->
  DIP0003Height params <= Chain.nHeight c + 1 /\
  (nType tx = TRANSACTION_PROVIDER_REGISTER /\ CheckProRegTx params env view_GetCoin signed_message (Some (l, Chain.nHeight c)) tx sigs = Ok tt \/
   nType tx = TRANSACTION_PROVIDER_UPDATE_SERVICE /\ CheckProUpServTx params (Some (l, Chain.nHeight c)) tx sigs = Ok tt \/
   nType tx = TRANSACTION_PROVIDER_UPDATE_REGISTRAR /\ CheckProUpRegTx params env view_GetCoin (Some (l, Chain.nHeight c)) tx sigs = Ok tt \/
   nType tx = TRANSACTION_PROVIDER_UPDATE_REVOKE /\ CheckProUpRevTx (Some (l, Chain.nHeight c)) tx sigs = Ok tt \/
   nType tx = TRANSACTION_COINBASE /\ CheckCbTx DIP0008Height tx (Some (Chain.nHeight c)) = Ok tt \/
   nType tx = TRANSACTION_QUORUM_COMMITMENT /\ CheckLLMQCommitment llmqs t IsQuorumRotationEnabled GetAllQuorumMembers tx q = Ok tt \/
   nType tx = TRANSACTION_MNHF_SIGNAL /\ dip0024_active = true /\ CheckMNHFTx llmqs t llmqTypeMnhf VerifyRecoveredSig tx (Some q) = Ok tt).

Lemma CheckSpecialTx_checked G m m' tx q c sigs : stored t G m -> t !! q = Some c -> check_tx m tx (Some q) sigs = Ok m' ->
  (exists l, ok_list G (Chain.blockHash c) l /\ special_checked l q c sigs tx) /\ kept G q m m'.
Proof.
  intros Hst Hc. destruct (GetListForBlock_spec llmqs t G m q c Hheap Hst Hc) as (l0 & _ & _ & Hl0 & _).
  unfold CheckSpecialTx, special_checked, deref. rewrite Hc. cbn [call mbind res_bind].
  destruct (negb (nVersion tx =? 3) || (nType tx =? TRANSACTION_NORMAL)) eqn:E0.
  { intros [= <-]. split; [|by apply reading_kept_refl]. exists l0. split; [done|]. intros Hv Ht. rewrite Hv, (proj2 (Z.eqb_neq _ _) Ht) in E0. done. }
  clear E0. destruct (Z.ltb_spec (Chain.nHeight c + 1) (DIP0003Height params)) as [|Hdip]; [done|].
  repeat (match goal with |- context [if nType tx =? ?k then _ else _] => destruct (Z.eqb_spec (nType tx) k) as [Ht|_]; [
    first [intros [(l & Hl & Hk) Hkept]%(list_before_check G m m' q c _ Hst Hc); split; [|done]; exists l
          |intros ([] & Hk & [= <-])%bind_Ok; split; [|by apply reading_kept_refl]; exists l0
          |destruct dip0024_active eqn:Ed; [|done]; intros ([] & Hk & [= <-])%bind_Ok; split; [|by apply reading_kept_refl]; exists l0];
    (split; [done|]); intros _ _; (split; [done|]); tauto |] end).
  done.
Qed.

Lemma special_checked_tx l q c sigs tx : special_checked l q c sigs tx -> tx_checked params view_GetCoin l env signed_message (Chain.nHeight c) tx.
Proof.
  intros H Hv. split_and!; intros Ht; exists sigs; (destruct (H Hv) as [_ Hs]; [by rewrite Ht|]); rewrite Ht in Hs;
    destruct Hs as [[He Hk]|[[He Hk]|[[He Hk]|[[He Hk]|[[He Hk]|[[He Hk]|[He Hk]]]]]]]; solve [discriminate He | exact Hk].
Qed.

Lemma special_checked_every G hash l l' q c sigs tx : ok_list G hash l -> ok_list G hash l' ->
  special_checked l q c sigs tx -> special_checked l' q c sigs tx.
Proof.
  intros (Hw & _ & Hm & _) (Hw' & _ & Hm' & _) Hck Hv Hn. rewrite <- Hm' in Hm. destruct (wf_det l l' Hw Hw' Hm) as [_ Hu].
  destruct (checks_same l l' (Chain.nHeight c) tx sigs Hm Hu) as (E1 & E2 & E3 & E4). rewrite <- E1, <- E2, <- E3, <- E4. by apply Hck.
Qed.

Lemma check_txs_spec G q c sigs txs : forall m m', stored t G m -> t !! q = Some c -> check_all m txs (Some q) sigs = Ok m' ->
  (forall l, ok_list G (Chain.blockHash c) l -> Forall (special_checked l q c sigs) txs) /\ kept G q m m'.
Proof.
  induction txs as [|tx txs IH]; intros m m' Hst Hc; cbn [check_txs]; [intros [= <-]; split; [by constructor|by apply reading_kept_refl]|].
  intros (m1 & H1 & (? & _ & H2)%bind_Ok)%bind_Ok. destruct (CheckSpecialTx_checked G m m1 tx q c sigs Hst Hc H1) as [(l0 & Hl0 & Htx) Hk1].
  destruct (IH m1 m' (proj1 Hk1) Hc H2) as [Hall Hk2]. split; [|by eapply reading_kept_trans].
  intros l Hl. constructor; [exact (special_checked_every G _ l0 l q c sigs tx Hl0 Hl Htx)|exact (Hall l Hl)].
Qed.

Lemma same_but_agree p index q m m' : t !! p = Some index -> (q < p)%nat -> same_but (Chain.blockHash index) m m' -> agree t q m m'.
Proof. intros Hp Hlt Hs p' b' Hle Hp'. apply Hs. intros He. rewrite (Huniq p' p b' index Hp' Hp He) in Hle. lia. Qed.

(** What the coinbase of a block commits to. *)
Definition commits (block : CBlock) (q : ptr) (newList : CDeterministicMNList) : Prop :=
  forall coinbase, head (vtx block) = Some coinbase -> nType coinbase = TRANSACTION_COINBASE ->
  exists cbTx, GetTxPayload TRANSACTION_COINBASE unser_CbTx coinbase = Ok cbTx /\
    CalcMerkleRoot (CSimplifiedMNList_of newList) = Ok (merkleRootMNList cbTx, false) /\
    (2 <= cb_nVersion cbTx -> calc_quorums block q = Ok (merkleRootQuorums cbTx)).

Lemma CheckCbTxMerkleRoots_spec G m cache block index q c old newList r cache' m' :
  cache_ok cache -> stored t G m -> pprev index = Some q -> t !! q = Some c ->
  (forall l m1, GetListForBlock llmqs t m q = Ok (l, m1) -> l = old) ->
  BuildNewList params llmqs t view_GetCoin GetAllQuorumMembers block q old = Ok newList ->
  check_roots m cache block index = (r, cache') -> cache_ok cache' /\ (r = Ok m' -> stored t G m' /\ commits block q newList).
Proof.
  intros Hcache Hst Hq Hc Hold Hnew. unfold CheckCbTxMerkleRoots, commits. rewrite Hq. destruct (vtx block) as [|coinbase rest]; [intros [= <- <-]; by split|].
  cbn [head]. case_bool.
  { intros [= <- <-]. split; [done|]. intros [= <-]. split; [done|]. intros cb [= <-] Ht. by rewrite Ht in *. }
  destruct (GetTxPayload _ unser_CbTx coinbase) as [cbTx| |] eqn:Ep; [|intros [= <- <-]; by split..].
  destruct (CalcCbTxMerkleRootMNList _ _ _ _ _ m cache block q) as [r1 cache1] eqn:Ec. intros [= <- <-].
  destruct (CalcCbTxMerkleRootMNList_spec m cache block q r1 cache1 Hcache Ec) as [Hc1 Hroot]. split; [done|].
  intros ([root m2] & -> & H)%bind_Ok. destruct (Hroot root m2 eq_refl) as (l & Hb & Hr). unfold BuildNewListFromBlock in Hb.
  destruct (GetListForBlock_spec llmqs t G m q c Hheap Hst Hc) as (l0 & m3 & Hg & _ & Hst3 & _). rewrite Hg in Hb. cbn [mbind res_bind] in Hb.
  rewrite (Hold _ _ Hg), Hnew in Hb. cbn [mbind res_bind] in Hb. injection Hb as <- <-.
  case_bool_decide as Hroot'; [done|]. subst root.
  assert (m' = m3 /\ (2 <= cb_nVersion cbTx -> calc_quorums block q = Ok (merkleRootQuorums cbTx))) as [-> Hqr].
  { destruct (Z.ltb_spec (cb_nVersion cbTx) 2); [injection H as <-; split; [done|lia]|]. apply bind_Ok in H as (qroot & -> & H).
    case_bool_decide as Hqr; [done|]. subst qroot. by injection H as <-. }
  split; [done|]. intros cb [= <-] _. exists cbTx. by split_and!.
Qed.

(** C18: a block after the start of DIP3 whose registrations are new and that is connected with all checks on.
    Each of its special transactions has passed the check of its type against the list of the block before,
    which is what makes them fit that list.  The list the block makes is stored: every block's list is read
    back afterwards, the new one for the block and the old ones for the others.  A coinbase of the special
    type has a payload with the Merkle root of just that new list and, from version 2 of the payload on,
    with that of the quorums.  The cached root stays that of the cached list, whatever the outcome. *)
Theorem ProcessSpecialTxsInBlock_refines (G : list Z -> MnMap * Z) (m : CDeterministicMNManager) (cache cache' : sml_cache) (qs : Q) (block : CBlock)
    (r : res protx_error (CDeterministicMNManager * Q)) (p q : ptr) (index c : CBlockIndex)
    (Hst : stored t G m) (Hun : untouched t m (Chain.blockHash index)) (Hp : t !! p = Some index) (Hq : pprev index = Some q) (Hc : t !! q = Some c)
    (Hhash : header_GetHash (header block) = Chain.blockHash index) (Hdip3 : DIP0003Height params <= Chain.nHeight index)
    (Hbound : (G (Chain.blockHash c)).2 + zlen (visited_txs block) < 2 ^ 32)
    (Hfresh : forall l, ok_list G (Chain.blockHash c) l -> Forall (registration_fresh l) (visited_txs block))
    (Hcache : cache_ok cache)
    (Hconnect : process_in_block m cache qs block p false true = (r, cache')) :
  cache_ok cache' /\ forall m' qs', r = Ok (m', qs') -> exists old newList, ok_list G (Chain.blockHash c) old /\
    Forall (special_checked old q c true) (vtx block) /\
    BuildNewList params llmqs t view_GetCoin GetAllQuorumMembers block q old = Ok newList /\ commits block q newList /\
    forall p' b', t !! p' = Some b' -> exists l m'', GetListForBlock llmqs t m' p' = Ok (l, m'') /\ blockHash l = Chain.blockHash b' /\
      mnMap l = if decide (p' = p) then mnMap newList else (G (Chain.blockHash b')).1.
Proof.
  pose proof (parent_before t Hheap p index q Hp Hq) as Hlt. revert Hconnect. unfold ProcessSpecialTxsInBlock, deref. rewrite Hp. cbn [call mbind res_bind]. rewrite Hq.
  destruct (check_all m (vtx block) (Some q) true) as [m1| |] eqn:Eck; cbn [mbind res_bind]; [|intros [= <- <-]; by split..].
  destruct (quorum_ProcessBlock qs block p false true) as [qs1| |]; cbn [mbind res_bind]; [|intros [= <- <-]; by split..].
  destruct (ProcessBlock _ _ _ _ _ m1 block p false) as [m2| |] eqn:Epb; cbn [mbind res_bind]; [|intros [= <- <-]; by split..].
  destruct (check_txs_spec G q c true (vtx block) m m1 Hst Hc Eck) as [Hck (Hst1 & Hd1 & Hs1 & Hcb1)].
  destruct (ProcessBlock_spec params llmqs t view_GetCoin GetAllQuorumMembers env signed_message Hheap Huniq G m1 m2 block p q index c Hst1) as
    (old & newList & Hold & Hnew & Hst2 & ma & old2 & mb & Hga & Hgb & Hsame); try done.
  { by eapply (untouched_below t Hheap Huniq m m1 p index q). }
  { intros l Hl. split; [by apply Hfresh|]. apply Forall_drop. eapply Forall_impl; [by apply Hck|]. intros tx. apply special_checked_tx. }
  assert (old2 = old) as -> by (by eapply (GetListForBlock_again llmqs t Hheap Huniq m1 q c old ma ma); [|apply Hold|..]).
  destruct (check_roots m2 cache block index) as [r1 cache1] eqn:Er. intros [= <- <-].
  assert (forall l ms, GetListForBlock llmqs t m2 q = Ok (l, ms) -> l = old) as Hagain.
  { intros l ms Hg. eapply (GetListForBlock_again llmqs t Hheap Huniq ma q c old mb m2 l ms Hc); [apply Hold|done|exact (same_but_agree p index q mb m2 Hp Hlt Hsame)|done]. }
  pose proof (fun m' => CheckCbTxMerkleRoots_spec _ m2 cache block index q c old newList r1 cache1 m' Hcache Hst2 Hq Hc Hagain Hnew Er) as Hroots.
  split; [exact (proj1 (Hroots m2))|]. intros m' qs' (m3 & -> & [= <- <-])%bind_Ok. destruct (proj2 (Hroots m3) eq_refl) as [Hst3 Hcm].
  exists old, newList. split_and!; [done|by apply Hck|done..|]. intros p' b' Hp'. by apply (stored_reads llmqs t Hheap Huniq G m3 p index _ p' b' Hst3).
Qed.

End joined.

(** ** A block whose coinbase commits to the list *)

#[local] Existing Instance plain_crypto.
#[local] Existing Instance plain_bls.

Definition special_root : list Z := match CalcMerkleRoot (CSimplifiedMNList_of evo_newList) with Ok (root, _) => root | _ => [] end.
Definition special_coinbase : CTransaction :=
  MkTransaction [MkTxIn (MkOutPoint null_hash 0xffffffff) [] 0xffffffff] [] 3 TRANSACTION_COINBASE 0 0 (ser_CbTx (MkCbTx 2 1 special_root null_hash)).
Definition special_block : CBlock := MkBlock (header evo_block) [special_coinbase; register_tx; spend_tx] [].
Definition first_cache : sml_cache := MkSmlCache [] null_hash false.
Definition special_run : res protx_error (CDeterministicMNManager * unit) * sml_cache :=
  ProcessSpecialTxsInBlock evo_params [] evo_heap (fun _ => None) (fun _ _ => []) evo_env (fun _ => []) 0 0 (fun _ => 0) (fun _ => []) (fun _ _ => None)
    (fun _ _ => false) false (fun _ _ _ _ => false) (fun q _ _ _ _ => Ok q) evo_manager first_cache tt special_block 1%nat false true.

Definition special_after : CDeterministicMNManager := match special_run.1 with Ok (m, _) => m | _ => evo_manager end.

Lemma special_accepted : special_run.1 = Ok (special_after, tt).
Proof. vm_compute. reflexivity. Qed.

Lemma first_cache_ok : cache_ok first_cache.
Proof. reflexivity. Qed.

Lemma ProcessSpecialTxsInBlock_refines_witness :
  exists old newList, mnMap old = mnMap sample_list /\
    BuildNewList evo_params [] evo_heap (fun _ => None) (fun _ _ => []) special_block 0%nat old = Ok newList /\
    (exists cbTx, GetTxPayload TRANSACTION_COINBASE unser_CbTx special_coinbase = Ok cbTx /\
      CalcMerkleRoot (CSimplifiedMNList_of newList) = Ok (merkleRootMNList cbTx, false)) /\
    exists l m'', GetListForBlock [] evo_heap special_after 1%nat = Ok (l, m'') /\ mnMap l = mnMap newList.
Proof.
  destruct (ProcessSpecialTxsInBlock_refines evo_params [] evo_heap (fun _ => None) (fun _ _ => []) evo_env (fun _ => []) 0 0 (fun _ => 0) (fun _ => []) (fun _ _ => None)
    (fun _ _ => false) false (fun _ _ _ _ => false) (fun q _ _ _ _ => Ok q) evo_heap_wf evo_hashes_unique evo_world evo_manager first_cache special_run.2 tt special_block special_run.1
    1%nat 0%nat (MkIndex (header_GetHash (header evo_block)) (Some 0%nat) None 1 (replicate 8 0) 5 0 0 (header evo_block))
    (MkIndex (replicate 32 1) None None 0 (replicate 8 0) 5 0 0 (header sample_block)) evo_stored evo_untouched eq_refl eq_refl eq_refl eq_refl
    ltac:(vm_compute; discriminate) ltac:(vm_compute; reflexivity)
    (fun l Hl => proj1 (evo_checked l (proj1 Hl) (proj1 (proj2 (proj2 Hl))))) first_cache_ok (surjective_pairing special_run)) as [_ H].
  destruct (H special_after tt special_accepted) as (old & newList & Ho & _ & Hb & Hcm & Hg).
  exists old, newList. split; [exact (proj1 (proj2 (proj2 Ho)))|]. split; [exact Hb|]. split.
  - destruct (Hcm special_coinbase eq_refl eq_refl) as (cbTx & Hp & Hr & _). exists cbTx. split; [exact Hp|exact Hr].
  - destruct (Hg 1%nat _ eq_refl) as (l & m'' & Hl & _ & Hm). exists l, m''. split; [exact Hl|exact Hm].
Defined.
