(* ===== verification/Connect.v ===== *)
(** * Connecting and disconnecting the transactions of a block

    Models the part of src/src/validation.cpp that moves the set of unspent outputs from a block to the
    next and back: UpdateCoins, ApplyTxInUndo and the loop of DisconnectBlock (without the address and
    spent indexes it also maintains). *)

From stdpp Require Import base list numbers gmap fin_maps.
From S2P Require Import Prelude Script Crypto Interpreter Serialize Transaction Compressor Coin Coins CoinsSpec.
From S2P Require Import Block Chain TxVerify.

Open Scope Z_scope.

Inductive DisconnectResult : Type := DISCONNECT_OK | DISCONNECT_UNCLEAN | DISCONNECT_FAILED.

#[export] Instance DisconnectResult_eq_dec : EqDecision DisconnectResult.
Proof. solve_decision. Defined.

Section connect.
Context {crypto : CryptoOps} (DynamicMemoryUsage : Coin -> Z).

(** The inputs of [UpdateCoins]: the coins spent, for the undo record. *)
Fixpoint spend_inputs (base : CCoinsView) (c : CCoinsViewCache) (ins : list CTxIn) :
    res coins_error (list Coin * CCoinsViewCache * CCoinsView) :=
  match ins with
  | [] => Ok ([], c, base)
  | txin :: ins =>
      let '(is_spent, c, base) := SpendCoin DynamicMemoryUsage base c (prevout txin) in
      match is_spent with
      | None => Abort
      | Some coin => '(undo, c, base) ← spend_inputs base c ins; Ok (coin :: undo, c, base)
      end
  end.

Definition UpdateCoins (base : CCoinsView) (c : CCoinsViewCache) (tx : CTransaction) (nHeight : Z) :
    res coins_error (list Coin * CCoinsViewCache * CCoinsView) :=
  '(vprevout, c, base) ← (if negb (IsCoinBase tx) then spend_inputs base c (vin tx) else Ok ([], c, base));
  '(c, base) ← AddCoins DynamicMemoryUsage base c tx nHeight false;
  Ok (vprevout, c, base).

Definition ApplyTxInUndo (base : CCoinsView) (c : CCoinsViewCache) (undo : Coin) (out_ : COutPoint) :
    res coins_error (DisconnectResult * CCoinsViewCache * CCoinsView) :=
  let '(it, c, base) := FetchCoin DynamicMemoryUsage base c out_ in
  let fClean := match unspent it with Some _ => false | None => true end in
  let '(failed, undo, c, base) :=
    (if Coin.nHeight undo =? 0 then
       let '(alternate, c, base) := AccessByTxid DynamicMemoryUsage base c (op_hash out_) in
       if negb (Coin_IsSpent alternate)
       then (false, MkCoin (out undo) (fCoinBase alternate) (fCoinStake alternate) (Coin.nHeight alternate), c, base)
       else (true, undo, c, base)
     else (false, undo, c, base)) in
  if failed then Ok (DISCONNECT_FAILED, c, base) else
  c ← AddCoin DynamicMemoryUsage c out_ undo (negb fClean);
  Ok (if fClean then DISCONNECT_OK else DISCONNECT_UNCLEAN, c, base).

(** The outputs of a transaction are removed and compared with those of the block. *)
Fixpoint disconnect_outputs (base : CCoinsView) (c : CCoinsViewCache) (hash : list Z) (outs : list CTxOut) (o nHeight : Z)
    (is_coinbase is_coinstake fClean : bool) : bool * CCoinsViewCache * CCoinsView :=
  match outs with
  | [] => (fClean, c, base)
  | out_ :: outs =>
      if IsUnspendable (scriptPubKey out_)
      then disconnect_outputs base c hash outs (o + 1) nHeight is_coinbase is_coinstake fClean
      else
        let '(is_spent, c, base) := SpendCoin DynamicMemoryUsage base c (MkOutPoint hash (u32 o)) in
        let same := match is_spent with
                    | None => false
                    | Some coin =>
                        bool_decide (out_ = out coin) && (nHeight =? Coin.nHeight coin) &&
                        Bool.eqb is_coinbase (fCoinBase coin) && Bool.eqb is_coinstake (fCoinStake coin)
                    end in
        disconnect_outputs base c hash outs (o + 1) nHeight is_coinbase is_coinstake (fClean && same)
  end.

(** The inputs, from the last one. *)
Fixpoint restore_inputs (base : CCoinsView) (c : CCoinsViewCache) (undo : list (COutPoint * Coin)) (fClean : bool) :
    res coins_error (DisconnectResult * CCoinsViewCache * CCoinsView) :=
  match undo with
  | [] => Ok (if fClean then DISCONNECT_OK else DISCONNECT_UNCLEAN, c, base)
  | (out_, coin) :: undo =>
      '(r, c, base) ← ApplyTxInUndo base c coin out_;
      if bool_decide (r = DISCONNECT_FAILED) then Ok (DISCONNECT_FAILED, c, base)
      else restore_inputs base c undo (fClean && negb (bool_decide (r = DISCONNECT_UNCLEAN)))
  end.

(** One round of the loop of [DisconnectBlock]; [None] for the first transaction, which has no undo
    record. *)
Definition DisconnectTx (base : CCoinsView) (c : CCoinsViewCache) (tx : CTransaction) (txundo : option (list Coin))
    (nHeight : Z) (fClean : bool) : res coins_error (DisconnectResult * CCoinsViewCache * CCoinsView) :=
  let '(fClean, c, base) :=
    disconnect_outputs base c (ComputeHash tx) (vout tx) 0 nHeight (IsCoinBase tx) (IsCoinStake tx) fClean in
  match txundo with
  | None => Ok (if fClean then DISCONNECT_OK else DISCONNECT_UNCLEAN, c, base)
  | Some vprevout =>
      if negb (length vprevout =? length (vin tx))%nat then Ok (DISCONNECT_FAILED, c, base)
      else restore_inputs base c (rev (zip (prevout <$> vin tx) vprevout)) fClean
  end.

(** [for (int i = block.vtx.size() - 1; i >= 0; i--)], on the reversed lists. *)
Fixpoint DisconnectTxs (base : CCoinsView) (c : CCoinsViewCache) (txs : list (CTransaction * option (list Coin)))
    (nHeight : Z) (fClean : bool) : res coins_error (DisconnectResult * CCoinsViewCache * CCoinsView) :=
  match txs with
  | [] => Ok (if fClean then DISCONNECT_OK else DISCONNECT_UNCLEAN, c, base)
  | (tx, txundo) :: txs =>
      '(r, c, base) ← DisconnectTx base c tx txundo nHeight fClean;
      if bool_decide (r = DISCONNECT_FAILED) then Ok (DISCONNECT_FAILED, c, base)
      else DisconnectTxs base c txs nHeight (bool_decide (r = DISCONNECT_OK))
  end.

(** [vtxundo] has a record for every transaction but the first; [hashPrev] is the hash of the block before. *)
Definition DisconnectBlock_coins (base : CCoinsView) (c : CCoinsViewCache) (txs : list CTransaction) (vtxundo : list (list Coin))
    (nHeight : Z) (hashPrev : list Z) : res coins_error (DisconnectResult * CCoinsViewCache * CCoinsView) :=
  if negb (S (length vtxundo) =? length txs)%nat then Ok (DISCONNECT_FAILED, c, base) else
  '(r, c, base) ← DisconnectTxs base c (rev (zip txs (None :: (Some <$> vtxundo)))) nHeight true;
  Ok (r, if bool_decide (r = DISCONNECT_FAILED) then c else SetBestBlock c hashPrev, base).

(** The transactions of [ConnectBlock], with the undo records it keeps. *)
Fixpoint ConnectTxs (base : CCoinsView) (c : CCoinsViewCache) (txs : list CTransaction) (nHeight : Z) :
    res coins_error (list (list Coin) * CCoinsViewCache * CCoinsView) :=
  match txs with
  | [] => Ok ([], c, base)
  | tx :: txs =>
      '(undo, c, base) ← UpdateCoins base c tx nHeight;
      '(undos, c, base) ← ConnectTxs base c txs nHeight;
      Ok (undo :: undos, c, base)
  end.

(** [undoDummy] takes the record of the first transaction; at the end the block is the best one of the view. *)
Definition ConnectBlock_coins (base : CCoinsView) (c : CCoinsViewCache) (txs : list CTransaction) (nHeight : Z)
    (hashBlock : list Z) : res coins_error (list (list Coin) * CCoinsViewCache * CCoinsView) :=
  '(undos, c, base) ← ConnectTxs base c txs nHeight; Ok (drop 1 undos, SetBestBlock c hashBlock, base).

End connect.
