(* ===== verification/ConnectSpec.v ===== *)
(** * Value is conserved and disconnecting undoes connecting

    Theorems on TxVerify.v and Connect.v, through the relation of a view with the finite map of its
    unspent coins (CoinsSpec.v). *)

From stdpp Require Import base list numbers gmap fin_maps.
From S2P Require Import Prelude Script Crypto Interpreter Serialize Transaction Compressor Coin Coins CoinsSpec.
From S2P Require Import Block Chain TxVerify Connect.

Open Scope Z_scope.

Abbreviation utxos := (gmap COutPoint Coin).

(** ** What the operations mean on the map *)

Definition spend_map (m : utxos) (ins : list CTxIn) : utxos := foldl (fun m i => delete (prevout i) m) m ins.

Fixpoint add_map (m : utxos) (hash : list Z) (outs : list CTxOut) (i nHeight : Z) (cb cs : bool) : utxos :=
  match outs with
  | [] => m
  | o :: outs =>
      add_map (if IsUnspendable (scriptPubKey o) then m else <[MkOutPoint hash (u32 i) := Coin_make o nHeight cb cs]> m)
        hash outs (i + 1) nHeight cb cs
  end.

Definition tx_map {crypto : CryptoOps} (m : utxos) (tx : CTransaction) (nHeight : Z) : utxos :=
  add_map (if IsCoinBase tx then m else spend_map m (vin tx)) (ComputeHash tx) (vout tx) 0 nHeight (IsCoinBase tx) (IsCoinStake tx).

(** ** Views and maps *)

Section spec.
Context {crypto : CryptoOps} (DynamicMemoryUsage : Coin -> Z).
Hypothesis usage_Clear : DynamicMemoryUsage Coin_Clear = 0.

Definition rep (c : CCoinsViewCache) (base : CCoinsView) (m : utxos) : Prop :=
  inv DynamicMemoryUsage (ViewCache c base) /\ forall o, utxo (ViewCache c base) o = m !! o.

Lemma rep_ext c base m m' : rep c base m -> m = m' -> rep c base m'.
Proof. by intros ? <-. Qed.

Lemma rep_unspent c base m o coin : rep c base m -> m !! o = Some coin -> Coin_IsSpent coin = false.
Proof. intros [Hi Hu] Ho. eapply inv_unspent; [exact Hi|]. by rewrite Hu. Qed.

Lemma rep_fetch c base m o it c' base' :
  rep c base m -> FetchCoin DynamicMemoryUsage base c o = (it, c', base') -> rep c' base' m /\ unspent it = m !! o.
Proof.
  intros [Hi Hu] H. apply FetchCoin_spec in H as (Hi' & Hs & Hr & _); [|done].
  split; [split; [done|]|by rewrite Hr, Hu]. intros o'. by rewrite Hs, Hu.
Qed.

Lemma rep_spend c base m o r c' base' :
  rep c base m -> SpendCoin DynamicMemoryUsage base c o = (r, c', base') ->
  rep c' base' (delete o m) /\ forall coin, m !! o = Some coin -> r = Some coin.
Proof.
  intros [Hi Hu] H. apply SpendCoin_spec in H as (Hi' & _ & _ & Hr & Hs); [|done..].
  split; [split; [done|]|]. { intros o'. rewrite Hs, lookup_delete, Hu. done. }
  intros coin Ho. apply Hr. by rewrite Hu.
Qed.

Lemma rep_add c base m o coin_ overwrite :
  rep c base m -> Coin_IsSpent coin_ = false -> IsUnspendable (scriptPubKey (out coin_)) = false ->
  overwrite = true \/ m !! o = None ->
  exists c', AddCoin DynamicMemoryUsage c o coin_ overwrite = Ok c' /\ rep c' base (<[o := coin_]> m).
Proof.
  intros [Hi Hu] Hsp Hun Hov. destruct (AddCoin_spec DynamicMemoryUsage c base o coin_ overwrite Hi Hsp Hun) as (c' & Ha & Hi' & _ & Hs).
  { by rewrite Hu. }
  exists c'. split; [done|]. split; [done|]. intros o'. rewrite Hs, lookup_insert, Hu. done.
Qed.

(** ** UpdateCoins *)

(** The coins that a list of inputs spends. *)
Definition coins_of (m : utxos) (ins : list CTxIn) (coins : list Coin) : Prop :=
  Forall2 (fun i coin => m !! prevout i = Some coin) ins coins.

Lemma coins_of_delete m ins coins o : o ∉ prevout <$> ins -> coins_of m ins coins -> coins_of (delete o m) ins coins.
Proof.
  intros Ho H. induction H as [|i coin ins coins Hi H IH]; [constructor|]. rewrite fmap_cons, not_elem_of_cons in Ho.
  destruct Ho as [Hne Ho]. constructor; [by rewrite lookup_delete_ne|by apply IH].
Qed.

Lemma spend_inputs_spec c base m ins coins :
  rep c base m -> NoDup (prevout <$> ins) -> coins_of m ins coins ->
  exists c' base', spend_inputs DynamicMemoryUsage base c ins = Ok (coins, c', base') /\ rep c' base' (spend_map m ins).
Proof.
  intros Hr Hnd Hc. revert c base m coins Hr Hc; induction ins as [|i ins IH]; intros c base m coins Hr Hc.
  { apply Forall2_nil_inv_l in Hc as ->. by exists c, base. }
  rewrite fmap_cons, NoDup_cons in Hnd. destruct Hnd as [Hi Hnd].
  apply Forall2_cons_inv_l in Hc as (coin & coins' & Hcoin & Hc & ->). cbn [spend_inputs].
  destruct (SpendCoin _ base c (prevout i)) as [[r c1] base1] eqn:E. apply (rep_spend _ _ m) in E as [Hr1 Hres]; [|done].
  rewrite (Hres coin Hcoin). destruct (IH Hnd c1 base1 (delete (prevout i) m) coins' Hr1) as (c2 & base2 & -> & Hr2).
  { by apply coins_of_delete. }
  exists c2, base2. done.
Qed.

(** The outputs of a transaction, from index [i] on, are not in the map. *)
Definition outputs_fresh (m : utxos) (hash : list Z) (outs : list CTxOut) (i : Z) : Prop :=
  forall k, i <= k < i + zlen outs -> m !! MkOutPoint hash (u32 k) = None.

Lemma outputs_fresh_insert m hash o outs i coin :
  0 <= i -> i + zlen (o :: outs) < 2 ^ 32 -> outputs_fresh m hash (o :: outs) i ->
  outputs_fresh (<[MkOutPoint hash (u32 i) := coin]> m) hash outs (i + 1).
Proof.
  intros Hi Hb Hf k Hk. unfold zlen in *. simpl length in *. rewrite lookup_insert_ne; [apply Hf; unfold zlen; simpl length; lia|].
  intros [= Heq]. unfold u32 in Heq. rewrite !Z.mod_small in Heq by lia. lia.
Qed.

Lemma outputs_fresh_tail m hash o outs i : outputs_fresh m hash (o :: outs) i -> outputs_fresh m hash outs (i + 1).
Proof. intros Hf k Hk. apply Hf. unfold zlen in *. simpl length. lia. Qed.

Lemma AddCoins_loop_spec c base m hash outs i nHeight cb cs :
  rep c base m -> Forall (fun o => nValue o <> -1) outs -> 0 <= i -> i + zlen outs < 2 ^ 32 ->
  cb = true \/ outputs_fresh m hash outs i ->
  exists c', AddCoins_loop DynamicMemoryUsage base c hash outs i nHeight cb cs false = Ok (c', base) /\
    rep c' base (add_map m hash outs i nHeight cb cs).
Proof.
  intros Hr Hv. revert c m i Hr; induction Hv as [|o outs Hv Hvs IH]; intros c m i Hr Hi Hb Hf; [by exists c|].
  assert (Hb' : i + 1 + zlen outs < 2 ^ 32) by (unfold zlen in *; simpl length in Hb; lia).
  cbn [AddCoins_loop add_map]. set (coin_ := Coin_make o nHeight cb cs). destruct (IsUnspendable (scriptPubKey o)) eqn:Eu.
  - assert (AddCoin DynamicMemoryUsage c (MkOutPoint hash (u32 i)) coin_ cb = Ok c) as ->.
    { unfold AddCoin, coin_, Coin_IsSpent, txout_IsNull. cbn [Coin_make out]. by rewrite (proj2 (Z.eqb_neq _ (-1))), Eu. }
    cbn [mbind res_bind]. apply IH; [done|lia|lia|]. destruct Hf as [?|Hf]; [by left|right]. by eapply outputs_fresh_tail.
  - destruct (rep_add c base m (MkOutPoint hash (u32 i)) coin_ cb Hr) as (c1 & -> & Hr1).
    + unfold coin_, Coin_IsSpent, txout_IsNull. cbn. by apply Z.eqb_neq.
    + done.
    + destruct Hf as [?|Hf]; [by left|right]. apply Hf. unfold zlen. simpl length. lia.
    + cbn [mbind res_bind]. apply IH; [done|lia|lia|]. destruct Hf as [?|Hf]; [by left|right]. by apply (outputs_fresh_insert _ _ o).
Qed.

(** What a transaction needs to be connected to a set of coins. *)
Record connectable (m : utxos) (tx : CTransaction) (coins : list Coin) : Prop := {
  conn_inputs : if IsCoinBase tx then coins = [] else NoDup (prevout <$> vin tx) /\ coins_of m (vin tx) coins;
  conn_values : Forall (fun o => nValue o <> -1) (vout tx);
  conn_count : zlen (vout tx) < 2 ^ 32;
  conn_fresh : outputs_fresh (if IsCoinBase tx then m else spend_map m (vin tx)) (ComputeHash tx) (vout tx) 0
}.

Lemma UpdateCoins_spec c base m tx nHeight coins :
  rep c base m -> connectable m tx coins ->
  exists c' base', UpdateCoins DynamicMemoryUsage base c tx nHeight = Ok (coins, c', base') /\ rep c' base' (tx_map m tx nHeight).
Proof.
  intros Hr [Hin Hv Hc Hf]. unfold UpdateCoins, tx_map, AddCoins.
  assert (Hsp : exists c1 base1, (if negb (IsCoinBase tx) then spend_inputs DynamicMemoryUsage base c (vin tx) else Ok ([], c, base))
    = Ok (coins, c1, base1) /\ rep c1 base1 (if IsCoinBase tx then m else spend_map m (vin tx))).
  { destruct (IsCoinBase tx); cbn [negb]; [subst; by exists c, base|]. destruct Hin. by apply spend_inputs_spec. }
  destruct Hsp as (c1 & base1 & -> & Hr1). cbn [mbind res_bind].
  destruct (AddCoins_loop_spec c1 base1 _ (ComputeHash tx) (vout tx) 0 nHeight (IsCoinBase tx) (IsCoinStake tx) Hr1) as (c2 & -> & Hr2);
    [done|lia|lia|by right|]. cbn [mbind res_bind]. by exists c2, base1.
Qed.

(** ** CheckTxInputs *)

Lemma AccessCoin_spec c base m o e c' base' :
  rep c base m -> AccessCoin DynamicMemoryUsage base c o = (e, c', base') ->
  rep c' base' m /\ forall coin, m !! o = Some coin -> e = coin.
Proof.
  intros Hr. unfold AccessCoin. destruct (FetchCoin _ base c o) as [[it c1] base1] eqn:E.
  apply (rep_fetch _ _ m) in E as [Hr1 Hit]; [|done]. intros [= <- <- <-]. split; [done|]. intros coin Hc.
  rewrite Hc in Hit. destruct it as [e|]; cbn in Hit; [|done]. destruct (Coin_IsSpent _); [done|]. by injection Hit.
Qed.


Lemma HaveInputs_loop_spec c base m ins r v' :
  rep c base m -> HaveInputs_loop DynamicMemoryUsage (ViewCache c base) ins = (r, v') ->
  exists c' base', v' = ViewCache c' base' /\ rep c' base' m /\ (r = true -> exists coins, coins_of m ins coins).
Proof.
  revert c base; induction ins as [|i ins IH]; intros c base Hr; cbn [HaveInputs_loop].
  { intros [= <- <-]. exists c, base. split; [done|]. split; [done|]. intros _. exists []. constructor. }
  cbn [HaveCoin]. destruct (FetchCoin _ base c (prevout i)) as [[it c1] base1] eqn:E.
  apply (rep_fetch _ _ m) in E as [Hr1 Hit]; [|done]. destruct it as [e|]; cbn [unspent] in Hit.
  - destruct (Coin_IsSpent (coin e)); cbn [negb]; [intros [= <- <-]; by exists c1, base1|].
    intros (c2 & base2 & -> & Hr2 & Hall)%IH; [|done]. exists c2, base2. split; [done|]. split; [done|].
    intros (coins & Hc)%Hall. exists (coin e :: coins). by constructor.
  - cbn [negb]. intros [= <- <-]. by exists c1, base1.
Qed.

Definition coins_value (coins : list Coin) : Z := foldr (fun c => Z.add (nValue (out c))) 0 coins.

Definition mature (nSpendHeight : Z) (coin : Coin) : Prop :=
  fCoinBase coin = true -> COINBASE_MATURITY <= nSpendHeight - Coin.nHeight coin.

(** The values of the coins are in the money range. *)
Definition values_ok (m : utxos) : Prop := forall o coin, m !! o = Some coin -> 0 <= nValue (out coin) <= MAX_MONEY.

Lemma check_inputs_spec c base m ins coins nSpendHeight acc :
  rep c base m -> values_ok m -> coins_of m ins coins -> 0 <= acc <= MAX_MONEY ->
  (exists e, check_inputs DynamicMemoryUsage base c ins nSpendHeight acc = Err e) \/
  exists c' base', check_inputs DynamicMemoryUsage base c ins nSpendHeight acc = Ok (acc + coins_value coins, c', base') /\
    rep c' base' m /\ Forall (mature nSpendHeight) coins /\ 0 <= acc + coins_value coins <= MAX_MONEY.
Proof.
  intros Hr Hok Hc. revert c base acc Hr; induction Hc as [|i coin ins coins Hi Hc IH]; intros c base acc Hr Ha; cbn [check_inputs].
  { right. exists c, base. cbn. rewrite Z.add_0_r. split; [done|]. split; [done|]. split; [constructor|lia]. }
  destruct (AccessCoin _ base c (prevout i)) as [[e c1] base1] eqn:E. apply (AccessCoin_spec _ _ m) in E as [Hr1 He]; [|done].
  rewrite (He coin Hi). rewrite (rep_unspent _ _ _ _ _ Hr1 Hi). destruct (_ && _) eqn:Em; [left; eauto|].
  pose proof (Hok _ _ Hi) as Hv. assert (MAX_MONEY < 2 ^ 62) by done. unfold add_s64.
  rewrite (proj2 (Z.leb_le (- 2 ^ 63) _)), (proj2 (Z.ltb_lt _ (2 ^ 63))) by lia. cbn [andb mbind res_bind].
  destruct (_ || _) eqn:Ev; [left; eauto|]. apply orb_false_iff in Ev as [_ Ev%negb_false_iff%MoneyRange_spec].
  destruct (IH c1 base1 (acc + nValue (out coin)) Hr1 Ev) as [[e' ->]|(c2 & base2 & -> & Hr2 & Hm & Hs)]; [left; eauto|].
  right. exists c2, base2. cbn [coins_value foldr]. fold (coins_value coins). rewrite Z.add_assoc. split; [done|]. split; [done|]. split; [|done].
  constructor; [|done]. intros Hcb. rewrite Hcb in Em. cbn in Em. bprop. lia.
Qed.

Lemma check_outputs_Ok outs acc :
  0 <= acc <= MAX_MONEY -> check_outputs outs acc = Ok tt ->
  Forall (fun o => 0 <= nValue o <= MAX_MONEY) outs /\ acc + sum_values outs <= MAX_MONEY.
Proof.
  revert acc; induction outs as [|o outs IH]; intros acc Ha; cbn [check_outputs sum_values foldr]; [intros _; split; [constructor|lia]|].
  destruct (nValue o <? 0) eqn:E1; [done|]. destruct (MAX_MONEY <? nValue o) eqn:E2; [done|]. bprop.
  unfold add_s64. destruct (_ && _); cbn [mbind res_bind]; [|done].
  destruct (MoneyRange (acc + nValue o)) eqn:E3; cbn [negb]; [|done]. apply MoneyRange_spec in E3.
  intros [Hf Hs]%IH; [|lia]. fold (sum_values outs). split; [constructor; [lia|done]|lia].
Qed.

Lemma check_duplicates_Ok ins seen :
  check_duplicates ins seen = Ok tt -> NoDup (prevout <$> ins) /\ forall o, o ∈ prevout <$> ins -> o ∉ seen.
Proof.
  revert seen; induction ins as [|i ins IH]; intros seen; cbn [check_duplicates].
  { intros _. split; [constructor|]. intros o []%elem_of_nil. }
  case_bool_decide as Hin; [done|]. intros [Hnd Hs]%IH. rewrite fmap_cons. split.
  - constructor; [|done]. intros Hi. apply (Hs _ Hi). left.
  - intros o [->|Ho]%elem_of_cons; [done|]. intros Hos. apply (Hs o Ho). by right.
Qed.

Lemma CheckTransaction_Ok tx :
  CheckTransaction tx = Ok tt ->
  Forall (fun o => 0 <= nValue o <= MAX_MONEY) (vout tx) /\ sum_values (vout tx) <= MAX_MONEY /\
  NoDup (prevout <$> vin tx) /\
  (IsCoinBase tx = false -> Forall (fun i => outpoint_IsNull (prevout i) = false) (vin tx)).
Proof.
  unfold CheckTransaction. destruct (_ && _); [done|]. destruct (_ && _); [done|]. do 2 (destruct (_ <? _); [done|]).
  destruct (check_outputs (vout tx) 0) as [[]| |] eqn:Eo; cbn [mbind res_bind]; [|done..].
  destruct (check_duplicates (vin tx) []) as [[]| |] eqn:Ed; cbn [mbind res_bind]; [|done..].
  apply check_outputs_Ok in Eo as [Hv Hsum]; [|done]. apply check_duplicates_Ok in Ed as [Hnd _].
  intros H. split; [done|]. split; [done|]. split; [done|]. intros Hcb. rewrite Hcb in H. destruct (existsb _ _) eqn:Ee; [done|].
  apply Forall_forall. intros i Hi. apply not_true_iff_false. intros Hn.
  apply not_true_iff_false in Ee. apply Ee, existsb_exists. exists i. split; [by apply list_elem_of_In|done].
Qed.

(** The result of the check on a view of the coins [m]. *)
Lemma CheckTxInputs_spec c base m tx nSpendHeight :
  rep c base m -> values_ok m -> IsCoinBase tx = false ->
  Forall (fun o => 0 <= nValue o <= MAX_MONEY) (vout tx) -> sum_values (vout tx) <= MAX_MONEY ->
  (exists e, CheckTxInputs DynamicMemoryUsage base c tx nSpendHeight = Err e) \/
  exists fee c' base' coins, CheckTxInputs DynamicMemoryUsage base c tx nSpendHeight = Ok (fee, ViewCache c' base') /\
    rep c' base' m /\ coins_of m (vin tx) coins /\ Forall (mature nSpendHeight) coins /\
    if IsCoinStake tx then fee = None
    else exists f, fee = Some f /\ 0 <= f <= MAX_MONEY /\ coins_value coins = sum_values (vout tx) + f.
Proof.
  intros Hr Hok Hcb Hvo Hsum. unfold CheckTxInputs, HaveInputs. rewrite Hcb. cbn [negb].
  destruct (HaveInputs_loop _ _ _) as [have v] eqn:E. apply (HaveInputs_loop_spec _ _ m) in E as (c1 & base1 & -> & Hr1 & Hhave); [|done].
  destruct have; cbn [negb]; [|left; eauto]. destruct (Hhave eq_refl) as (coins & Hc).
  destruct (check_inputs_spec c1 base1 m (vin tx) coins nSpendHeight 0 Hr1 Hok Hc) as [[e ->]|(c2 & base2 & -> & Hr2 & Hm & Hs)];
    [done|left; eauto|]. cbn [mbind res_bind]. rewrite Z.add_0_l in *. destruct (IsCoinStake tx).
  { right. exists None, c2, base2, coins. by refine (conj eq_refl (conj Hr2 (conj Hc (conj Hm _)))). }
  rewrite GetValueOut_spec, bool_decide_true by done. destruct (coins_value coins <? sum_values (vout tx)) eqn:El; [left; eauto|].
  destruct (MoneyRange _) eqn:Ef; cbn [negb]; [|left; eauto]. apply MoneyRange_spec in Ef. right.
  exists (Some (coins_value coins - sum_values (vout tx))), c2, base2, coins.
  refine (conj eq_refl (conj Hr2 (conj Hc (conj Hm _)))). eexists. split; [done|]. split; [lia|]. lia.
Qed.
End spec.

(** ** The value of the unspent coins *)

Definition total (m : utxos) : Z := map_fold (fun _ c s => nValue (out c) + s) 0 m.

(** What the unspendable outputs take out of circulation. *)
Definition burnt (outs : list CTxOut) : Z :=
  foldr (fun o s => (if IsUnspendable (scriptPubKey o) then nValue o else 0) + s) 0 outs.

Lemma total_insert m o coin : m !! o = None -> total (<[o := coin]> m) = nValue (out coin) + total m.
Proof. intros H. unfold total. rewrite map_fold_insert_L; [done| |done]. intros. lia. Qed.

Lemma total_delete m o coin : m !! o = Some coin -> total (delete o m) = total m - nValue (out coin).
Proof.
  intros H. rewrite <- (insert_delete_id m o coin H) at 2. rewrite total_insert by apply lookup_delete_eq. lia.
Qed.

Lemma total_spend m ins coins :
  NoDup (prevout <$> ins) -> coins_of m ins coins -> total (spend_map m ins) = total m - coins_value coins.
Proof.
  intros Hnd Hc. revert m coins Hc; induction ins as [|i ins IH]; intros m coins Hc.
  { apply Forall2_nil_inv_l in Hc as ->. cbn. lia. }
  rewrite fmap_cons, NoDup_cons in Hnd. destruct Hnd as [Hi Hnd].
  apply Forall2_cons_inv_l in Hc as (coin & coins' & Hcoin & Hc & ->). cbn [spend_map foldl coins_value foldr].
  fold (spend_map (delete (prevout i) m) ins) (coins_value coins').
  rewrite (IH Hnd (delete (prevout i) m) coins'), (total_delete m _ coin Hcoin) by by apply coins_of_delete. lia.
Qed.

Lemma total_add m hash outs i nHeight cb cs :
  0 <= i -> i + zlen outs < 2 ^ 32 -> outputs_fresh m hash outs i ->
  total (add_map m hash outs i nHeight cb cs) + burnt outs = total m + sum_values outs.
Proof.
  revert m i; induction outs as [|o outs IH]; intros m i Hi Hb Hf; cbn [add_map burnt sum_values foldr]; [lia|].
  fold (burnt outs) (sum_values outs). assert (Hb' : i + 1 + zlen outs < 2 ^ 32) by (unfold zlen in *; simpl length in Hb; lia).
  assert (H0 : m !! MkOutPoint hash (u32 i) = None) by (apply Hf; unfold zlen; simpl length; lia).
  destruct (IsUnspendable (scriptPubKey o)).
  - assert (Ht : outputs_fresh m hash outs (i + 1)) by by eapply outputs_fresh_tail. specialize (IH m (i + 1) ltac:(lia) Hb' Ht). lia.
  - specialize (IH (<[MkOutPoint hash (u32 i) := Coin_make o nHeight cb cs]> m) (i + 1) ltac:(lia) Hb').
    rewrite total_insert in IH by done. cbn [Coin_make out] in IH.
    assert (outputs_fresh (<[MkOutPoint hash (u32 i) := Coin_make o nHeight cb cs]> m) hash outs (i + 1)) as Ht by by apply (outputs_fresh_insert _ _ o).
    specialize (IH Ht). lia.
Qed.

Lemma values_ok_spend m ins : values_ok m -> values_ok (spend_map m ins).
Proof.
  revert m; induction ins as [|i ins IH]; intros m Hm; [done|]. cbn. apply IH.
  intros o coin [_ H]%lookup_delete_Some. by apply (Hm o).
Qed.

Lemma values_ok_add m hash outs i nHeight cb cs :
  values_ok m -> Forall (fun o => 0 <= nValue o <= MAX_MONEY) outs -> values_ok (add_map m hash outs i nHeight cb cs).
Proof.
  intros Hm Hv. revert m i Hm; induction Hv as [|o outs Ho Hv IH]; intros m i Hm; [done|]. cbn [add_map]. apply IH.
  destruct (IsUnspendable _); [done|]. intros o' coin. rewrite lookup_insert. case_decide; [intros [= <-]; done|apply Hm].
Qed.

Lemma flat_map_length {A} (f : A -> list Z) l : (forall x, (1 <= length (f x))%nat) -> (length l <= length (flat_map f l))%nat.
Proof. intros H. induction l as [|x l IH]; cbn; [lia|]. rewrite length_app. specialize (H x). lia. Qed.

Lemma CheckTransaction_count tx : CheckTransaction tx = Ok tt -> zlen (vout tx) < 2 ^ 32.
Proof.
  unfold CheckTransaction. do 2 (destruct (_ && _); [done|]). destruct (MAX_LEGACY_BLOCK_SIZE <? _) eqn:E; [done|]. intros _. bprop.
  assert (length (vout tx) <= length (tx_Serialize tx))%nat; [|unfold zlen, MAX_LEGACY_BLOCK_SIZE in *; lia].
  unfold tx_Serialize, write_vector. rewrite !length_app.
  pose proof (flat_map_length ser_txout (vout tx)) as Hl. enough (length (vout tx) <= length (flat_map ser_txout (vout tx)))%nat by lia.
  apply Hl. intros x. unfold ser_txout, ser_writedata64, WriteLE64. rewrite length_app, le_bytes_length. lia.
Qed.

(** ** An example *)

Definition sample_usage (c : Coin) : Z := zlen (scriptPubKey (out c)).
Definition sample_coins : utxos := {[ sample_utxo := sample_coin ]}.
Definition empty_cache : CCoinsViewCache := MkCache ∅ null_hash 0.
Definition sample_base : CCoinsView := ViewDB (MkDB sample_coins (Some (replicate 32 4)) None).
Definition spending_tx : CTransaction :=
  MkTransaction [MkTxIn sample_utxo [] SEQUENCE_FINAL] [MkTxOut (3 * COIN) [0x51]; MkTxOut COIN [0x6a]] 2 0 0 77 [].
Definition coinbase_tx : CTransaction :=
  MkTransaction [MkTxIn (MkOutPoint null_hash 0xffffffff) [1; 1] SEQUENCE_FINAL] [MkTxOut COIN [0x51]] 2 0 0 77 [].

Lemma sample_rep : rep sample_usage empty_cache sample_base sample_coins.
Proof.
  split; [|done]. split; [apply empty_cache_ok|]. split; [done|]. intros o c. cbn [db_coins]. unfold sample_coins.
  intros [_ <-]%lookup_singleton_Some. done.
Qed.

Lemma sample_all (P : Coin -> Prop) : P sample_coin -> forall o c, sample_coins !! o = Some c -> P c.
Proof. intros H o c. unfold sample_coins. by intros [_ <-]%lookup_singleton_Some. Qed.

Lemma fresh_spent : outputs_fresh (spend_map sample_coins (vin spending_tx)) (ComputeHash (crypto := sum_crypto) spending_tx) (vout spending_tx) 0.
Proof. intros k _. vm_compute. done. Qed.

(** C16: a transaction, not a coinbase, that passes [CheckTransaction] and [CheckTxInputs] on coins with values in
    range is connected by [UpdateCoins] without error: it spends exactly the coins it names, each present and
    mature, and adds its spendable outputs, which are new.  Unless it is a coinstake it creates no money: the
    value of all unspent coins goes down by exactly the fee and what is burnt in unspendable outputs.  For
    a coinstake the values are not compared and no fee is reported.  [CheckTxInputs] fails no assertion and
    does not overflow. *)
Theorem transaction_conserves_value {crypto : CryptoOps} (usage : Coin -> Z) c base m tx nSpendHeight nHeight :
  usage Coin_Clear = 0 -> rep usage c base m -> values_ok m -> IsCoinBase tx = false -> CheckTransaction tx = Ok tt ->
  outputs_fresh (spend_map m (vin tx)) (ComputeHash tx) (vout tx) 0 ->
  (exists e, CheckTxInputs usage base c tx nSpendHeight = Err e) \/
  exists fee c1 base1 coins c2 base2,
    CheckTxInputs usage base c tx nSpendHeight = Ok (fee, ViewCache c1 base1) /\
    UpdateCoins usage base1 c1 tx nHeight = Ok (coins, c2, base2) /\
    coins_of m (vin tx) coins /\ Forall (mature nSpendHeight) coins /\
    rep usage c2 base2 (tx_map m tx nHeight) /\ values_ok (tx_map m tx nHeight) /\
    (if IsCoinStake tx then fee = None
     else exists f, fee = Some f /\ 0 <= f /\ total (tx_map m tx nHeight) + f + burnt (vout tx) = total m).
Proof.
  intros Hus Hr Hok Hcb Hck Hf. destruct (CheckTransaction_Ok tx Hck) as (Hv & Hsum & Hnd & _).
  pose proof (CheckTransaction_count tx Hck) as Hcount.
  destruct (CheckTxInputs_spec usage c base m tx nSpendHeight Hr Hok Hcb Hv Hsum) as [He|(fee & c1 & base1 & coins & Hchk & Hr1 & Hc & Hm & Hfee)]; [by left|].
  right. assert (Hconn : connectable m tx coins).
  { constructor; [by rewrite Hcb|eapply Forall_impl; [exact Hv|]; cbn; lia|done|by rewrite Hcb]. }
  destruct (UpdateCoins_spec usage Hus c1 base1 m tx nHeight coins Hr1 Hconn) as (c2 & base2 & Hup & Hr2).
  exists fee, c1, base1, coins, c2, base2. refine (conj Hchk (conj Hup (conj Hc (conj Hm (conj Hr2 (conj _ _)))))).
  - unfold tx_map. rewrite Hcb. by apply values_ok_add; [apply values_ok_spend|].
  - pose proof (total_add (spend_map m (vin tx)) (ComputeHash tx) (vout tx) 0 nHeight false (IsCoinStake tx)) as Ht.
    destruct (IsCoinStake tx) eqn:Hcs; [done|]. destruct Hfee as (f & -> & Hf0 & Heq). exists f. split; [done|]. split; [lia|].
    unfold tx_map. rewrite Hcb, Hcs.
    rewrite (total_spend m (vin tx) coins Hnd Hc) in Ht. specialize (Ht ltac:(lia) ltac:(lia) Hf). lia.
Qed.

Lemma transaction_conserves_value_witness :
  let m' := tx_map (crypto := sum_crypto) sample_coins spending_tx 2000 in
  (exists e, CheckTxInputs sample_usage sample_base empty_cache spending_tx 2000 = Err e) \/
  exists fee c1 base1 coins c2 base2,
    CheckTxInputs sample_usage sample_base empty_cache spending_tx 2000 = Ok (fee, ViewCache c1 base1) /\
    UpdateCoins (crypto := sum_crypto) sample_usage base1 c1 spending_tx 2000 = Ok (coins, c2, base2) /\
    coins_of sample_coins (vin spending_tx) coins /\ Forall (mature 2000) coins /\
    rep sample_usage c2 base2 m' /\ values_ok m' /\
    exists f, fee = Some f /\ 0 <= f /\ total m' + f + burnt (vout spending_tx) = total sample_coins.
Proof.
  apply (transaction_conserves_value (crypto := sum_crypto) sample_usage empty_cache sample_base sample_coins spending_tx 2000 2000);
    [reflexivity|exact sample_rep|refine (sample_all (fun c => 0 <= nValue (out c) <= MAX_MONEY) _); vm_compute; split; discriminate|reflexivity|vm_compute; reflexivity|exact fresh_spent].
Defined.

(** ** Disconnecting *)

Lemma spend_map_lookup m ins o : spend_map m ins !! o = if decide (o ∈ prevout <$> ins) then None else m !! o.
Proof.
  revert m; induction ins as [|i ins IH]; intros m; [by rewrite decide_False by apply not_elem_of_nil|].
  cbn [spend_map foldl]. fold (spend_map (delete (prevout i) m) ins). rewrite IH, fmap_cons.
  destruct (decide (o ∈ prevout <$> ins)) as [Hin|Hout]; [by rewrite decide_True by by right|].
  rewrite lookup_delete. case_decide as H1; [by rewrite decide_True by (subst; left)|].
  rewrite decide_False; [done|]. intros [->|?]%elem_of_cons; done.
Qed.

(** The key of output [i] is not among the keys from [j > i] on. *)
Lemma add_map_lookup m hash outs i j nHeight cb cs :
  0 <= i < j -> j + zlen outs < 2 ^ 32 ->
  add_map m hash outs j nHeight cb cs !! MkOutPoint hash (u32 i) = m !! MkOutPoint hash (u32 i).
Proof.
  revert m j; induction outs as [|o outs IH]; intros m j Hi Hb; [done|]. cbn [add_map]. unfold zlen in *. simpl length in Hb.
  rewrite IH by lia. destruct (IsUnspendable _); [done|]. apply lookup_insert_ne. intros [= Heq].
  unfold u32 in Heq. rewrite !Z.mod_small in Heq by lia. lia.
Qed.

Lemma add_map_delete m hash outs i j nHeight cb cs :
  0 <= i < j -> j + zlen outs < 2 ^ 32 ->
  delete (MkOutPoint hash (u32 i)) (add_map m hash outs j nHeight cb cs) =
  add_map (delete (MkOutPoint hash (u32 i)) m) hash outs j nHeight cb cs.
Proof.
  revert m j; induction outs as [|o outs IH]; intros m j Hi Hb; [done|]. cbn [add_map]. unfold zlen in *. simpl length in Hb.
  rewrite IH by lia. f_equal. destruct (IsUnspendable _); [done|]. rewrite delete_insert_ne; [done|]. intros [= Heq].
  unfold u32 in Heq. rewrite !Z.mod_small in Heq by lia. lia.
Qed.

(** A coin that the undo record can bring back. *)
Definition restorable (coin : Coin) : Prop :=
  Coin.nHeight coin <> 0 /\ IsUnspendable (scriptPubKey (out coin)) = false.

Section disconnect.
Context {crypto : CryptoOps} (DynamicMemoryUsage : Coin -> Z).
Hypothesis usage_Clear : DynamicMemoryUsage Coin_Clear = 0.
Abbreviation rep := (rep DynamicMemoryUsage).

Lemma disconnect_outputs_spec c base m hash outs i nHeight cb cs :
  rep c base (add_map m hash outs i nHeight cb cs) -> outputs_fresh m hash outs i -> 0 <= i -> i + zlen outs < 2 ^ 32 ->
  0 <= nHeight < 2 ^ 31 ->
  exists c' base', disconnect_outputs DynamicMemoryUsage base c hash outs i nHeight cb cs true = (true, c', base') /\ rep c' base' m.
Proof.
  intros Hr Hf Hi Hb Hh. revert c base m i Hr Hf Hi Hb; induction outs as [|o outs IH]; intros c base m i Hr Hf Hi Hb; [by exists c, base|].
  cbn [disconnect_outputs]. cbn [add_map] in Hr. assert (Hb' : i + 1 + zlen outs < 2 ^ 32) by (unfold zlen in *; simpl length in Hb; lia).
  pose proof (outputs_fresh_tail m hash o outs i Hf) as Hft.
  destruct (IsUnspendable (scriptPubKey o)); [apply IH; [done|done|lia|lia]|].
  set (k := MkOutPoint hash (u32 i)) in *. set (coin_ := Coin_make o nHeight cb cs) in *.
  destruct (SpendCoin _ base c k) as [[r c1] base1] eqn:E. apply (rep_spend _ usage_Clear _ _ _ _ _ _ _ Hr) in E as [Hr1 Hres].
  rewrite (Hres coin_) by (unfold k; rewrite add_map_lookup by lia; apply lookup_insert_eq).
  assert (bool_decide (o = out coin_) && (nHeight =? Coin.nHeight coin_) && Bool.eqb cb (fCoinBase coin_) && Bool.eqb cs (fCoinStake coin_) = true) as ->.
  { unfold coin_, Coin_make, u31. cbn. rewrite bool_decide_true, Z.mod_small, Z.eqb_refl, !eqb_reflx by (done || lia). done. }
  cbn [andb]. apply (IH c1 base1 m (i + 1)); [|done|lia|lia]. eapply rep_ext; [exact Hr1|]. unfold k.
  rewrite add_map_delete, delete_insert_id by (lia || (apply Hf; unfold zlen; simpl length; lia)). done.
Qed.

Definition restore_map (m : utxos) (ps : list (COutPoint * Coin)) : utxos := foldl (fun m p => <[p.1 := p.2]> m) m ps.

Lemma restore_inputs_spec c base m ps :
  rep c base m -> NoDup ps.*1 -> Forall (fun p => m !! p.1 = None /\ Coin_IsSpent p.2 = false /\ restorable p.2) ps ->
  exists c' base', restore_inputs DynamicMemoryUsage base c ps true = Ok (DISCONNECT_OK, c', base') /\ rep c' base' (restore_map m ps).
Proof.
  revert c base m; induction ps as [|[o coin_] ps IH]; intros c base m Hr Hnd Hps; [by exists c, base|].
  cbn [restore_inputs]. rewrite fmap_cons, NoDup_cons in Hnd. destruct Hnd as [Ho Hnd]. apply Forall_cons in Hps as [(Hn & Hsp & Hh & Hun) Hps]. cbn [fst snd] in *.
  unfold ApplyTxInUndo. destruct (FetchCoin _ base c o) as [[it c1] base1] eqn:E. apply (rep_fetch _ _ _ m) in E as [Hr1 ->]; [|done].
  rewrite Hn, (proj2 (Z.eqb_neq _ 0)) by done. cbn [negb].
  destruct (rep_add DynamicMemoryUsage c1 base1 m o coin_ false Hr1 Hsp Hun) as (c2 & -> & Hr2); [by right|]. cbn [mbind res_bind].
  rewrite (bool_decide_false (DISCONNECT_OK = _)), (bool_decide_false (DISCONNECT_OK = _)) by done. cbn [negb andb].
  apply IH; [done|done|]. rewrite Forall_forall in Hps |- *. intros [o' coin'] Hin. destruct (Hps _ Hin) as (Hn' & ?). split; [|done].
  cbn. rewrite lookup_insert_ne; [done|]. intros ->. apply Ho, list_elem_of_fmap. by exists (o', coin').
Qed.

Lemma rev_reverse {A} (l : list A) : rev l = reverse l.
Proof. apply rev_alt. Qed.

Lemma restore_spent m ins coins :
  NoDup (prevout <$> ins) -> coins_of m ins coins ->
  restore_map (spend_map m ins) (rev (zip (prevout <$> ins) coins)) = m.
Proof.
  intros Hnd Hc. revert m coins Hc; induction ins as [|i ins IH]; intros m coins Hc; [by apply Forall2_nil_inv_l in Hc as ->|].
  rewrite fmap_cons, NoDup_cons in Hnd. destruct Hnd as [Hi Hnd].
  apply Forall2_cons_inv_l in Hc as (coin & coins' & Hcoin & Hc & ->). cbn [spend_map foldl fmap list_fmap zip zip_with rev].
  fold (spend_map (delete (prevout i) m) ins). unfold restore_map. rewrite foldl_app. cbn [foldl fst snd].
  fold (restore_map (spend_map (delete (prevout i) m) ins) (rev (zip (prevout <$> ins) coins'))).
  rewrite (IH Hnd (delete (prevout i) m) coins') by by apply coins_of_delete. by apply insert_delete_id.
Qed.

Definition all_restorable (m : utxos) : Prop := forall o coin, m !! o = Some coin -> restorable coin.

Lemma coins_of_In m ins coins coin : coins_of m ins coins -> coin ∈ coins -> exists o, o ∈ prevout <$> ins /\ m !! o = Some coin.
Proof.
  intros H. induction H as [|i coin' ins coins Hi H IH]; [intros []%elem_of_nil|]. rewrite fmap_cons.
  intros [->|(o & Ho & Hm)%IH]%elem_of_cons; [exists (prevout i); by split; [left|]|]. exists o. by split; [right|].
Qed.

(** Disconnecting a transaction that was just connected. *)
Lemma DisconnectTx_spec c base m tx coins nHeight :
  rep c base (tx_map m tx nHeight) -> connectable m tx coins -> 0 <= nHeight < 2 ^ 31 ->
  all_restorable m -> (forall o coin, m !! o = Some coin -> Coin_IsSpent coin = false) ->
  exists c' base', DisconnectTx DynamicMemoryUsage base c tx (if IsCoinBase tx then None else Some coins) nHeight true
    = Ok (DISCONNECT_OK, c', base') /\ rep c' base' m.
Proof.
  intros Hr [Hin Hv Hcnt Hf] Hh Hrest Hunsp. unfold DisconnectTx.
  destruct (disconnect_outputs_spec c base _ (ComputeHash tx) (vout tx) 0 nHeight (IsCoinBase tx) (IsCoinStake tx) Hr Hf)
    as (c1 & base1 & -> & Hr1); [lia..|]. destruct (IsCoinBase tx); [by exists c1, base1|]. destruct Hin as [Hnd Hc].
  pose proof (Forall2_length _ _ _ Hc) as Hlen. rewrite Hlen, Nat.eqb_refl. cbn [negb].
  assert (Hfst : (zip (prevout <$> vin tx) coins).*1 = prevout <$> vin tx) by (apply fst_zip; rewrite length_fmap; lia).
  destruct (restore_inputs_spec c1 base1 _ (rev (zip (prevout <$> vin tx) coins)) Hr1) as (c2 & base2 & -> & Hr2).
  - rewrite rev_reverse, fmap_reverse, Hfst. by rewrite reverse_Permutation.
  - rewrite rev_reverse. apply Forall_reverse, Forall_forall. intros [o coin] Hp.
    assert (Ho : o ∈ prevout <$> vin tx) by (rewrite <- Hfst; apply list_elem_of_fmap; by exists (o, coin)).
    destruct (coins_of_In m (vin tx) coins coin Hc) as (o' & _ & Hm); [by apply elem_of_zip_r in Hp|].
    cbn. rewrite spend_map_lookup, decide_True by done. split; [done|]. split; [by apply (Hunsp o')|by apply (Hrest o')].
  - exists c2, base2. split; [done|]. eapply rep_ext; [exact Hr2|]. by apply restore_spent.
Qed.

Lemma add_map_restorable m hash outs i nHeight cb cs :
  0 < nHeight < 2 ^ 31 -> all_restorable m -> all_restorable (add_map m hash outs i nHeight cb cs).
Proof.
  intros Hh. revert m i; induction outs as [|o outs IH]; intros m i Hm; [done|]. cbn [add_map]. apply IH.
  destruct (IsUnspendable (scriptPubKey o)) eqn:Eu; [done|]. intros o' coin. rewrite lookup_insert. case_decide; [|apply Hm].
  intros [= <-]. split; [|done]. unfold Coin_make, u31. cbn. rewrite Z.mod_small; lia.
Qed.

Lemma tx_map_restorable m tx nHeight : 0 < nHeight < 2 ^ 31 -> all_restorable m -> all_restorable (tx_map m tx nHeight).
Proof.
  intros Hh Hm. apply add_map_restorable; [done|]. destruct (IsCoinBase tx); [done|].
  intros o coin. rewrite spend_map_lookup. case_decide; [done|]. apply Hm.
Qed.

(** The transactions after the first one can be connected in turn; with the coins they spend. *)
Inductive connects (nHeight : Z) : utxos -> list CTransaction -> list (list Coin) -> Prop :=
| connects_nil m : connects nHeight m [] []
| connects_cons m tx txs coins undos :
    IsCoinBase tx = false -> connectable m tx coins -> connects nHeight (tx_map m tx nHeight) txs undos ->
    connects nHeight m (tx :: txs) (coins :: undos).

Definition block_map (m : utxos) (txs : list CTransaction) (nHeight : Z) : utxos := foldl (fun m tx => tx_map m tx nHeight) m txs.

Lemma ConnectTxs_spec c base m txs undos nHeight :
  rep c base m -> connects nHeight m txs undos ->
  exists c' base', ConnectTxs DynamicMemoryUsage base c txs nHeight = Ok (undos, c', base') /\ rep c' base' (block_map m txs nHeight).
Proof.
  intros Hr H. revert c base Hr; induction H as [m|m tx txs coins undos Hcb Hc H IH]; intros c base Hr; [by exists c, base|]. cbn [ConnectTxs].
  destruct (UpdateCoins_spec DynamicMemoryUsage usage_Clear c base m tx nHeight coins Hr Hc) as (c1 & base1 & -> & Hr1). cbn [mbind res_bind].
  destruct (IH c1 base1 Hr1) as (c2 & base2 & -> & Hr2). by exists c2, base2.
Qed.

Lemma DisconnectTxs_app c base xs ys nHeight fClean c' base' :
  DisconnectTxs DynamicMemoryUsage base c xs nHeight fClean = Ok (DISCONNECT_OK, c', base') ->
  DisconnectTxs DynamicMemoryUsage base c (xs ++ ys) nHeight fClean = DisconnectTxs DynamicMemoryUsage base' c' ys nHeight true.
Proof.
  revert c base fClean; induction xs as [|[tx u] xs IH]; intros c base fClean; cbn [DisconnectTxs app].
  { destruct fClean; [by intros [= <- <-]|done]. }
  destruct (DisconnectTx _ base c tx u nHeight fClean) as [[[r c1] base1]| |]; cbn [mbind res_bind]; [|done..].
  case_bool_decide; [done|]. apply IH.
Qed.

Lemma DisconnectTxs_spec c base m txs undos nHeight :
  0 < nHeight < 2 ^ 31 -> all_restorable m -> (exists c0 base0, rep c0 base0 m) ->
  connects nHeight m txs undos -> rep c base (block_map m txs nHeight) ->
  exists c' base', DisconnectTxs DynamicMemoryUsage base c (rev (zip txs (Some <$> undos))) nHeight true = Ok (DISCONNECT_OK, c', base') /\
    rep c' base' m.
Proof.
  intros Hh Hm H0 H. revert H0 Hm; induction H as [m|m tx txs coins undos Hcb Hc H IH]; intros (c0 & base0 & Hr0) Hm Hr; [by exists c, base|].
  destruct (UpdateCoins_spec DynamicMemoryUsage usage_Clear c0 base0 m tx nHeight coins Hr0 Hc) as (c1 & base1 & _ & Hr1).
  destruct IH as (c2 & base2 & Hd & Hr2); [by exists c1, base1|by apply tx_map_restorable|done|].
  cbn [fmap list_fmap zip zip_with rev]. erewrite DisconnectTxs_app by exact Hd. cbn [DisconnectTxs].
  destruct (DisconnectTx_spec c2 base2 m tx coins nHeight Hr2 Hc) as (c3 & base3 & Hd3 & Hr3); [lia|done| |].
  { intros o coin. by apply (rep_unspent DynamicMemoryUsage c0 base0). }
  rewrite Hcb in Hd3. rewrite Hd3. cbn [mbind res_bind]. rewrite bool_decide_false, bool_decide_true by done. by exists c3, base3.
Qed.
End disconnect.

(** C25: disconnecting a block undoes connecting it.  When the first transaction is the coinbase and the
    others spend coins that are there, connecting succeeds with exactly the spent coins as undo records,
    and [DisconnectBlock] on the result, with these records, is clean and gives back the set of unspent
    coins and the best block from before. *)
Theorem disconnect_undoes_connect {crypto : CryptoOps} (usage : Coin -> Z) c base m coinbase txs undos nHeight hash hashPrev :
  usage Coin_Clear = 0 -> rep usage c base m -> all_restorable m -> 0 < nHeight < 2 ^ 31 ->
  IsCoinBase coinbase = true -> connectable m coinbase [] -> connects nHeight (tx_map m coinbase nHeight) txs undos ->
  exists c1 base1 c2 base2,
    ConnectBlock_coins usage base c (coinbase :: txs) nHeight hash = Ok (undos, c1, base1) /\
    rep usage c1 base1 (block_map m (coinbase :: txs) nHeight) /\
    DisconnectBlock_coins usage base1 c1 (coinbase :: txs) undos nHeight hashPrev = Ok (DISCONNECT_OK, c2, base2) /\
    rep usage c2 base2 m /\ hashBlock c1 = hash /\ hashBlock c2 = hashPrev.
Proof.
  intros Hus Hr Hm Hh Hcb Hc Hcs. unfold ConnectBlock_coins, DisconnectBlock_coins. cbn [ConnectTxs].
  destruct (UpdateCoins_spec usage Hus c base m coinbase nHeight [] Hr Hc) as (c0 & base0 & -> & Hr0). cbn [mbind res_bind].
  destruct (ConnectTxs_spec usage Hus c0 base0 _ txs undos nHeight Hr0 Hcs) as (c1 & base1 & -> & Hr1). cbn [mbind res_bind drop].
  destruct (DisconnectTxs_spec usage Hus (SetBestBlock c1 hash) base1 _ txs undos nHeight Hh (tx_map_restorable m coinbase nHeight Hh Hm)) as (c2 & base2 & Hd & Hr2);
    [by exists c0, base0|done|done|].
  destruct (DisconnectTx_spec usage Hus c2 base2 m coinbase [] nHeight Hr2 Hc) as (c3 & base3 & Hd3 & Hr3); [lia|done| |].
  { intros o coin. by apply (rep_unspent usage c base). }
  exists (SetBestBlock c1 hash), base1, (SetBestBlock c3 hashPrev), base3. split; [done|]. split; [done|]. split; [|done].
  assert (length undos = length txs) as Hlen by (clear -Hcs; induction Hcs; cbn; lia).
  cbn [length]. rewrite Hlen, Nat.eqb_refl. cbn [negb zip zip_with rev]. erewrite DisconnectTxs_app by exact Hd.
  cbn [DisconnectTxs]. rewrite Hcb in Hd3. rewrite Hd3. cbn [mbind res_bind]. rewrite bool_decide_false, bool_decide_true by done. done.
Qed.

Lemma coinbase_connectable : connectable (crypto := sum_crypto) sample_coins coinbase_tx [].
Proof.
  constructor; [done|repeat constructor; done|done|]. intros k Hk. change (zlen (vout coinbase_tx)) with 1 in Hk.
  assert (k = 0) as -> by lia. vm_compute. done.
Qed.

Lemma spending_connectable :
  connectable (crypto := sum_crypto) (tx_map (crypto := sum_crypto) sample_coins coinbase_tx 2000) spending_tx [sample_coin].
Proof.
  constructor; [|repeat constructor; done|done|].
  - split; [repeat constructor; apply not_elem_of_nil|]. constructor; [vm_compute; done|constructor].
  - intros k Hk. change (zlen (vout spending_tx)) with 2 in Hk. assert (k = 0 \/ k = 1) as [->| ->] by lia; vm_compute; done.
Qed.

Lemma disconnect_undoes_connect_witness :
  exists c1 base1 c2 base2,
    ConnectBlock_coins (crypto := sum_crypto) sample_usage sample_base empty_cache [coinbase_tx; spending_tx] 2000 (replicate 32 5) = Ok ([[sample_coin]], c1, base1) /\
    rep sample_usage c1 base1 (block_map (crypto := sum_crypto) sample_coins [coinbase_tx; spending_tx] 2000) /\
    DisconnectBlock_coins (crypto := sum_crypto) sample_usage base1 c1 [coinbase_tx; spending_tx] [[sample_coin]] 2000 (replicate 32 4) = Ok (DISCONNECT_OK, c2, base2) /\
    rep sample_usage c2 base2 sample_coins /\ hashBlock c1 = replicate 32 5 /\ hashBlock c2 = replicate 32 4.
Proof.
  apply (disconnect_undoes_connect (crypto := sum_crypto) sample_usage empty_cache sample_base sample_coins coinbase_tx [spending_tx] [[sample_coin]] 2000 (replicate 32 5) (replicate 32 4));
    [reflexivity|exact sample_rep|refine (sample_all restorable _); split; [discriminate|reflexivity]|lia|reflexivity|exact coinbase_connectable|].
  apply connects_cons; [reflexivity|exact spending_connectable|apply connects_nil].
Defined.
